(* ===== verification/_CoqProject ===== *)
-Q . S2P
Prelude.v
GoTime.v
GoStrings.v
Ident.v
ModelError.v
ExamSitting.v
ExamAttempt.v
AttemptAggregate.v
Workspace.v
Delivery.v
DeliveryBudget.v
Sha256.v
Submission.v
GoJson.v
Job.v
MemoryCache.v
ExamPolicy.v
FocusLoss.v
CanonicalJson.v
CanonicalRead.v
CanonicalForm.v
AppErrors.v
Actions.v
Roles.v
DesktopRelease.v
Principal.v
AccessControl.v
AccessTheorems.v
AccessStore.v
SqlTx.v
Session.v
SessionStore.v
SessionTheorems.v
SessionSafety.v
GoMarshal.v
BrowserUrl.v
BrowserPolicy.v
Review.v
ReviewStore.v
ReviewSafety.v
JobStore.v
JobSafety.v
JobClaims.v
MfaCodes.v
Mfa.v
MfaStore.v
MfaSafety.v
SecretSeal.v
GoUnmarshal.v
MfaService.v
MfaRekey.v
