(* ===== verification/Prelude.v ===== *)
(** * Proctor: a verification development of the examination server

    Proctor is an examination platform: a Go server keeps institutions, users and
    their roles, authors and schedules exams, admits candidates through a locked-down
    Desktop, records their work and its integrity evidence, and seals submissions.
    This library models the parts of the server that carry its own logic, function by
    function, and proves what makes them correct.

    ** The parts and where they are modelled

    - [Prelude]: Go's [int64], errors, results, methods with pointer receivers
      ([Method]: the pointee before and after, and the result) and record updates,
      with the tactics that invert runs ([inv_run], [go_run], [to_prop]).
    - [GoTime], [GoStrings], [GoJson], [Ident], [ModelError]: the parts of the
      language, of [model/time.go], [model/id.go], [model/utils.go] and
      [model/validation_error.go] the entities use.  An enumeration of strings is an
      inductive type with one more constructor for any other text; a nil pointer is
      [None].
    - [ExamSitting]: [model/exam_sitting.go], the lifecycle of a Sitting.
    - [ExamAttempt], [AttemptAggregate]: [model/exam_attempt.go],
      [exam_attempt_manual_suspension.go] and the coordinated transitions of an
      Attempt with its Participation, Connection, Flags and Suspensions.
    - [Workspace]: [model/exam_starter_workspace.go] and
      [model/exam_attempt_workspace.go], paths, content objects and the journal.
    - [Delivery], [DeliveryBudget]: [model/delivery_lifecycle.go],
      [delivery_budget.go] and [browser_submission_settlement.go], the delivery of
      native evidence by sequence number, its closure and its quotas.
    - [Sha256], [Submission]: [model/exam_submission.go], manifests with their digest.
    - [Job], [JobStore], [JobSafety], [JobClaims]: [model/job.go] and
      [store/sqlstore/job_store.go], durable background jobs, the leases workers take
      on them, the fencing of what a worker asks, operator commands and the deletion of
      history; the last two files have the invariant of the tables and the theorems
      about histories of transactions.
    - [MemoryCache]: [packages/cache], the bounded in-process cache.
    - [ExamPolicy], [FocusLoss]: [model/exam_policy.go], [native_policy.go],
      [focus_loss.go] and the recording of reports in
      [store/sqlstore/exam_attempt_focus_loss_store.go].
    - [CanonicalJson], [CanonicalRead], [CanonicalForm]:
      [internal/canonicaljson/canonicaljson.go]; the first file has the code and the
      grammar of documents, the second the reader, the third the printed form.
    - [AppErrors]: [app/apperror], application errors and the translation of store
      failures.
    - [Actions], [Roles], [Principal]: [model/authorization.go], [role.go],
      [role_binding.go], [principal.go], the vocabulary of access control.
    - [DesktopRelease]: [model/desktop_compatibility.go] and the decision of
      [app/desktop_compatibility.go], the admission of Desktop builds.
    - [AccessControl], [AccessTheorems], [AccessStore]: [app/authorization.go] and
      [app/access_scope.go]; the code, the contract the stores owe it ([StoreLaws])
      with the theorems proved against that contract, and the tables that keep it.
    - [SqlTx]: [store/sqlstore/transaction_execution.go], [rehydration.go] and
      [time.go]: a transaction body as a function on the tables that may fail
      ([Tx]), tables as finite maps, and drivers whose begin and commit may fail.
    - [Session], [SessionStore], [SessionTheorems], [SessionSafety]:
      [model/session.go], [store/sqlstore/session_store.go] and
      [session_credential_store.go]: logins, their access and refresh credentials,
      rotation, replay detection, revocation and purging; the last two files have the
      invariant of the tables and the theorems about histories of transactions.
    - [GoMarshal], [BrowserUrl], [BrowserPolicy]: [encoding/json]'s output,
      [model/browser_url.go] and [model/browser_policy.go], the canonical browser
      policy of an exam and the matching of locations against it.
    - [Review], [ReviewStore], [ReviewSafety]: [model/exam_review.go],
      [store/sqlstore/exam_integrity_review_store.go],
      [exam_integrity_review_finalization_store.go], [delivery_review_inventory.go],
      [browser_integrity_store.go] and the retirement of integrity records: the
      manager's Review of a Submission, its finalization and release, and the late
      evidence that reopens it.
    - [SecretSeal], [GoUnmarshal]: [secretseal/sealer.go], key rings and the envelopes
      of sealed secrets over an interface for AES-256-GCM ([AEAD], [AEADLaws]), and the
      part of [encoding/json] that reads such an envelope back.
    - [Mfa], [MfaCodes], [MfaStore], [MfaSafety], [MfaService]: [model/mfa.go],
      [app/mfa.go], parts of [app/mfa_application.go], and
      [store/sqlstore/mfa_store.go], [mfa_transitions.go], [mfa_reset_store.go] and
      [mfa_rekey_store.go]: one-time passwords and recovery codes, enrollment,
      activation, the consumption of second factors, resets and re-sealing, sign-in with
      a second factor, and the theorems about histories of the store.
    - [MfaRekey]: [app/jobhandler/mfa_rekey.go] and the rest of [mfa_rekey_store.go]: the
      Job that seals every live secret again with the primary key, page by page, with
      the transactions of others between its statements, and the start that moves the
      fence.

    The entities are used by application services, which load them through stores,
    apply one operation and write them back; access control is asked before each such
    use.  Operations are therefore modelled as state transformers of one entity, and
    access control over a record of store operations.

    ** What the theorems show

    - Lifecycles (Sitting, Participation, Suspension, delivery closure, content
      objects, Jobs): every reachable state validates, histories refine a small
      automaton, identity is pinned, stamps and revisions only advance, an operation
      succeeds exactly when its guard holds and otherwise changes nothing, and the
      states that must be reachable are (a running Sitting can always close, a past
      deadline always settles a delivery).
    - Algorithms against their specification: delivery progress, the sliding window
      of focus losses, quotas, Workspace paths, submission manifests, canonical JSON,
      semantic version precedence, Desktop admission.
    - Integrity: the digest of a manifest binds it up to a SHA-256 collision; the
      canonical form of a document determines its value.
    - The Job store: in every history at most one attempt of a Job runs, a lost claim
      is refused for good, a permanent occurrence is created once, and a claim takes the
      first Job that is due after it recovered the lost ones.
    - The cache keeps its bounds, never serves a stale value and never loses a live
      counter.
    - Sessions: a refresh token is exchanged at most once, presenting a used one closes
      its Session for good, every branch of a rotation is determined, no credential
      outlives the absolute end of its login, and every history keeps the tables sound.
    - Browser policies: a validated policy decides each location by its unique most
      specific rule, is in canonical form, has a canonical encoding that determines it,
      and confines plain HTTP to the institution's pinned origins.
    - Reviews: histories are edits, one finalization and one release; in every history
      of the store a visible result is of a Review that is complete and current, and
      late evidence withdraws it until its Flag is decided anew.
    - Second factors: a password of a time step is accepted exactly once and in order, a
      recovery code once, a login with an active second factor is never single-factor, a
      sealed secret is read back under every ring that keeps its key and as nothing else,
      a key that was proved retired is never used again, and the rekey Job ends with every
      live secret sealed with the primary and still readable.
    - Access control: a decision allows exactly what active bindings and live roles
      grant, lists agree with decisions, delegation never exceeds the delegator, and
      nothing is authorized before its decision is recorded.

    ** Bounds and fuel

    Loops that are not structural carry fuel that is proved enough: twice the length of
    a document plus two for the JSON reader ([CanonicalRead]), the length of the two
    lists for the overlap scan of delivery ranges, the length of the recency list for
    cache eviction, the length of the list for binary search, the number of units
    for the ancestor query, whose parents form no cycle, and one more than the number of
    credentials for the pages of the rekey Job, each of which finishes at least one.  Integers are [Z] within the
    bounds the code checks, and wrap as [int64] where the code increments or adds them.

    ** What is not modelled, and why

    HTTP and WebSocket transport, SQL text other than the queries named above,
    generated store layers, clustering, mail, object storage, configuration and
    observability are input and output around the modelled logic.  The clock, random
    identifiers, secrets and nonces, AES-256-GCM, the cache codec, the audit store and the persistence contracts are
    parameters, as are the audit trail, mail and export snapshots a Review transaction
    calls.  Isolation is that of the code's row locks: transactions run one after the
    other.  JSON decoders of requests and browser policies, native agreements of
    Desktop builds, exam authoring and revisions, invitations, onboarding and the
    academic entities have models of the same kind and are left to later work, in that
    order. *)

From stdpp Require Export base list strings gmap relations sorting.
From Stdlib Require Export ZArith Lia Ascii.

Open Scope Z_scope.

Declare Scope go_scope.
Delimit Scope go_scope with go.
Open Scope go_scope.

(** ** Machine integers *)

(** Go's [int64] (and [int] on the supported 64-bit targets) as [Z] with the
    wrap-around of two's complement written out. *)
Definition int64_min : Z := - 2 ^ 63.
Definition int64_max : Z := 2 ^ 63 - 1.
Definition in_int64 (z : Z) : Prop := int64_min ≤ z ≤ int64_max.
Definition wrap64 (z : Z) : Z := (z + 2 ^ 63) mod 2 ^ 64 - 2 ^ 63.

(** [x++] and [x + y] on an [int64]. *)
Definition int64_succ (z : Z) : Z := wrap64 (z + 1).
Definition int64_add (x y : Z) : Z := wrap64 (x + y).
Definition int64_sub (x y : Z) : Z := wrap64 (x - y).

#[global] Arguments wrap64 : simpl never.
#[global] Arguments int64_succ : simpl never.
#[global] Arguments int64_add : simpl never.
#[global] Arguments int64_sub : simpl never.
#[global] Arguments int64_max : simpl never.
#[global] Arguments int64_min : simpl never.

Lemma wrap64_in_range z : in_int64 (wrap64 z).
Proof.
  unfold in_int64, wrap64, int64_min, int64_max.
  pose proof (Z.mod_pos_bound (z + 2 ^ 63) (2 ^ 64)). lia.
Qed.

Lemma wrap64_id z : in_int64 z → wrap64 z = z.
Proof.
  unfold in_int64, wrap64, int64_min, int64_max. intros.
  rewrite Z.mod_small; lia.
Qed.

Lemma int64_succ_lt z : in_int64 z → z ≠ int64_max → int64_succ z = z + 1.
Proof.
  intros Hz Hne. apply wrap64_id.
  unfold in_int64, int64_min, int64_max in *. lia.
Qed.

Lemma int64_succ_max : int64_succ int64_max = int64_min.
Proof. reflexivity. Qed.

(** A positive successor is the mathematical one: an [int64] counter that is
    refused unless it stays at least 1 never wraps. *)
Lemma int64_succ_pos z : in_int64 z → 1 ≤ int64_succ z → int64_succ z = z + 1.
Proof.
  intros Hz Hs. destruct (decide (z = int64_max)) as [->|]; [|by apply int64_succ_lt].
  rewrite int64_succ_max in Hs. unfold int64_min in Hs. lia.
Qed.

Lemma int64_succ_in_range z : in_int64 (int64_succ z).
Proof. apply wrap64_in_range. Qed.

Lemma int64_add_id x y : in_int64 (x + y) → int64_add x y = x + y.
Proof. apply wrap64_id. Qed.

Lemma int64_sub_id x y : in_int64 (x - y) → int64_sub x y = x - y.
Proof. apply wrap64_id. Qed.

(** ** Errors *)

(** The typed failures of [server/store/errors.go]. *)
Inductive StoreErrorKind :=
  | ErrNotFound
  | ErrConflict
  | ErrReference
  | ErrInvalidInput
  | ErrIdempotencyConflict
  | ErrIdempotencyInProgress.
#[global] Instance StoreErrorKind_eq_dec : EqDecision StoreErrorKind.
Proof. solve_decision. Defined.

(** Go's [error] interface, as far as the modelled packages build it: the
    structured [model.ValidationError] with its wrapped cause, package-level
    sentinels, which callers compare by identity, the structured capacity refusal of
    the delivery budget (its four counters), application errors with their stable
    code, public fields and cause, store errors with the resource they name, its
    identifier, field or constraint, and their cause, errors wrapped by [fmt.Errorf] with
    a message, and the report of a row that does not rehydrate. *)
Inductive error :=
  | ValidationError (Code Field Reason Details Model : string) (cause : option error)
  | SentinelError (message : string)
  | MetadataCapacityError (used limit required remaining : Z)
  | AppError (code : string) (fields : gmap string string) (cause : option error)
  | StoreError (kind : StoreErrorKind) (resource detail : string) (cause : option error)
  | WrappedError (message : string) (cause : error)
  | PersistedStateError (entity field : string) (cause : error).

(** ** Results and methods *)

Inductive result (A : Type) :=
  | Ok (a : A)
  | Err (e : error).
Arguments Ok {_} _.
Arguments Err {_} _.

#[global] Instance result_ret : MRet result := λ A a, Ok a.
#[global] Instance result_bind : MBind result := λ A B f r,
  match r with Ok a => f a | Err e => Err e end.
#[global] Instance result_throw : MThrow error result := λ A e, Err e.

Definition is_ok {A} (r : result A) : bool :=
  match r with Ok _ => true | Err _ => false end.

Definition ok_or {A} (d : A) (r : result A) : A :=
  match r with Ok a => a | Err _ => d end.

(** A method with a pointer receiver: the pointer is [None] when nil, and
    the method returns the pointee's final value along with its result. *)
Definition Method (S A : Type) : Type := option S → option S * result A.

#[global] Instance method_ret {S} : MRet (Method S) := λ A a s, (s, Ok a).
#[global] Instance method_bind {S} : MBind (Method S) := λ A B f m s,
  match m s with
  | (s', Ok a) => f a s'
  | (s', Err e) => (s', Err e)
  end.
#[global] Instance method_throw {S} : MThrow error (Method S) := λ A e s, (s, Err e).

(** [candidate := *s], guarded by the nil test that precedes it. *)
Definition deref {S} (e : error) : Method S S := λ s,
  match s with None => (None, Err e) | Some v => (Some v, Ok v) end.
(** [*s = v] *)
Definition assign {S} (v : S) : Method S unit := λ _, (Some v, Ok tt).
(** An error-returning call whose error is returned at once. *)
Definition try {S A} (r : result A) : Method S A := λ s, (s, r).

(** A method called on a local copy: the copy's final value, or the error. *)
Definition on_copy {S A} (m : Method S A) (v : S) : result S :=
  match m (Some v) with
  | (p, Ok _) => Ok (default v p)
  | (_, Err e) => Err e
  end.

Notation "'fail_if' c 'with' e ';;' k" := (if c then mthrow e else k)
  (at level 100, c at level 99, e at level 99, k at level 200, right associativity,
   format "'[v' 'fail_if'  c  'with'  e  ';;' '/' k ']'") : go_scope.
Notation "x ==? y" := (bool_decide (x = y)) (at level 70) : go_scope.
Notation "x !=? y" := (negb (bool_decide (x = y))) (at level 70) : go_scope.

(** ** Record updates *)

(** [eta] rebuilds a record from its projections; an [Update] instance for a
    projection is derived from it by abstracting that projection. *)
Class Eta (R : Type) := eta : R → R.
Class Update {R T : Type} (p : R → T) := update : T → R → R.
#[global] Arguments update {R T} p {_} _ _ /.

Ltac derive_update :=
  match goal with
  | |- @Update ?R ?T ?p =>
      let v := fresh "v" in let r := fresh "r" in
      intros v r;
      let i := constr:(_ : Eta R) in
      let t := eval hnf in (i r) in
      let g := eval pattern (p r) in t in
      match g with ?f _ => let b := eval cbv beta in (f v) in exact b end
  end.
#[global] Hint Extern 0 (Update _) => derive_update : typeclass_instances.

Notation "r <| p := v |>" := (update p v r)
  (at level 1, left associativity, p constr, v constr) : go_scope.

(** ** Automation *)

Create Rewrite HintDb gobool.
#[export] Hint Rewrite
  orb_false_iff orb_true_iff andb_true_iff andb_false_iff negb_true_iff negb_false_iff
  bool_decide_eq_true bool_decide_eq_false
  Z.ltb_lt Z.ltb_ge Z.leb_le Z.leb_gt Z.eqb_eq Z.eqb_neq Z.gtb_lt Z.geb_le : gobool.

(** Turn boolean tests in the context and the goal into propositions. *)
Ltac to_prop := autorewrite with gobool in *; rewrite ?Z.gtb_ltb, ?Z.geb_leb in *; autorewrite with gobool in *.

(** Conversion unfolds the operations before the monad and record updates. *)
#[global] Strategy 1000 [mbind mret mthrow method_bind method_ret method_throw result_bind
  result_ret result_throw deref assign try update].

(** *** Runs of methods

    Inversion of a successful run, and evaluation of a run, one statement at a
    time.  The lemmas keep proof terms small: nothing is unfolded. *)

Section runs.
Context {S A B : Type}.
Implicit Types (p : option S) (m : Method S A).

Lemma run_deref (e : error) (k : S → Method S B) p p' b :
  (deref e ≫= k) p = (p', Ok b) ↔ ∃ s, p = Some s ∧ k s (Some s) = (p', Ok b).
Proof.
  destruct p as [s|]; cbn; split; [eauto|by intros (? & [= <-] & ?)|done|by intros (? & ? & ?)].
Qed.

Lemma run_fail_if (c : bool) (e : error) m p p' a :
  (fail_if c with e ;; m) p = (p', Ok a) ↔ c = false ∧ m p = (p', Ok a).
Proof. destruct c; cbn; split; [done|by intros []|done|by intros []]. Qed.

Lemma run_try (r : result A) (k : A → Method S B) p p' b :
  (try r ≫= k) p = (p', Ok b) ↔ ∃ a, r = Ok a ∧ k a p = (p', Ok b).
Proof.
  destruct r as [a|e]; cbn; split; [eauto|by intros (? & [= <-] & ?)|done|by intros (? & ? & ?)].
Qed.

Lemma run_assign (v : S) p p' u : assign v p = (p', Ok u) ↔ p' = Some v.
Proof. destruct u. split; [by intros [=]|by intros ->]. Qed.

Lemma run_assign_bind (v : S) (k : unit → Method S B) p p' b :
  (assign v ≫= k) p = (p', Ok b) ↔ k tt (Some v) = (p', Ok b).
Proof. done. Qed.

Lemma run_ret (a a' : A) p p' : (mret a : Method S A) p = (p', Ok a') ↔ p' = p ∧ a' = a.
Proof. split; [by intros [= -> ->]|by intros [-> ->]]. Qed.

Lemma run_bind m (k : A → Method S B) p p' b :
  (m ≫= k) p = (p', Ok b) ↔ ∃ p1 a, m p = (p1, Ok a) ∧ k a p1 = (p', Ok b).
Proof.
  unfold mbind, method_bind. destruct (m p) as [p1 [a|e]]; split; try done.
  - eauto.
  - by intros (? & ? & [= <- <-] & ?).
  - by intros (? & ? & ? & ?).
Qed.

Lemma run_if (c : bool) m m' p p' a :
  (if c then m else m') p = (p', Ok a) ↔
  (c = true ∧ m p = (p', Ok a)) ∨ (c = false ∧ m' p = (p', Ok a)).
Proof. destruct c; split; [by left|by intros [[]|[]]|by right|by intros [[]|[]]]. Qed.

(** Dropping the value a method returned. *)
Lemma run_drop m (b b' : B) p p' :
  (m ≫= λ _, mret b) p = (p', Ok b') ↔ ∃ a, m p = (p', Ok a) ∧ b' = b.
Proof.
  unfold mbind, method_bind, mret, method_ret. destruct (m p) as [p1 [a|e]]; split.
  - intros [= <- <-]. eauto.
  - by intros (? & [= <- <-] & ->).
  - done.
  - by intros (? & ? & ?).
Qed.

(** A method that fails leaves the pointee alone when each statement does. *)
Definition atomic m : Prop := ∀ p p' e, m p = (p', Err e) → p' = p.

Lemma atomic_fail_if (c : bool) (e : error) m : atomic m → atomic (fail_if c with e ;; m).
Proof. intros Hm p p' e'. destruct c; [by intros [= <- _]|apply Hm]. Qed.
Lemma atomic_if (c : bool) m m' : atomic m → atomic m' → atomic (if c then m else m').
Proof. by destruct c. Qed.
Lemma atomic_ret (a : A) : atomic (mret a : Method S A).
Proof. by intros p p' e [=]. Qed.
End runs.

Lemma atomic_assign {S} (v : S) : atomic (assign v).
Proof. by intros p p' e [=]. Qed.
Lemma atomic_deref {S B} (e : error) (k : S → Method S B) :
  (∀ s, atomic (k s)) → atomic (deref e ≫= k).
Proof. intros Hk p p' e'. destruct p as [s|]; [apply Hk|by intros [= <- _]]. Qed.
Lemma atomic_try {S A B} (r : result A) (k : A → Method S B) :
  (∀ a, atomic (k a)) → atomic (try r ≫= k).
Proof. intros Hk p p' e'. destruct r as [a|e]; [apply Hk|by intros [= <- _]]. Qed.
(** An assignment followed by a return cannot fail. *)
Lemma atomic_assign_ret {S B} (v : S) (b : B) : atomic (assign v ≫= λ _, mret b).
Proof. by intros p p' e [=]. Qed.
(** Dropping the value a method returned. *)
Lemma atomic_drop {S A B} (m : Method S A) (b : B) :
  atomic m → atomic (m ≫= λ _, mret b).
Proof.
  intros Hm p p' e. unfold mbind, method_bind. destruct (m p) as [p1 [a|e1]] eqn:E;
    [by intros [=]|]. intros [= <- <-]. by eapply Hm.
Qed.

Create HintDb atomic.
#[export] Hint Resolve atomic_fail_if atomic_if atomic_ret atomic_assign atomic_deref
  atomic_try atomic_assign_ret : atomic.

(** The same for plain error-returning code. *)
Lemma ok_fail_if {A} (c : bool) (e : error) (r : result A) a :
  (fail_if c with e ;; r) = Ok a ↔ c = false ∧ r = Ok a.
Proof. destruct c; cbn; split; [done|by intros []|done|by intros []]. Qed.
Lemma ok_bind {A B} (r : result A) (k : A → result B) b :
  (r ≫= k) = Ok b ↔ ∃ a, r = Ok a ∧ k a = Ok b.
Proof.
  destruct r; cbn; split; [eauto|by intros (? & [= <-] & ?)|done|by intros (? & ? & ?)].
Qed.
Lemma ok_on_copy {S A} (m : Method S A) v v' :
  on_copy m v = Ok v' ↔ ∃ p a, m (Some v) = (p, Ok a) ∧ v' = default v p.
Proof.
  unfold on_copy. destruct (m (Some v)) as [p [a|e]]; split.
  - intros [= <-]. eauto.
  - by intros (? & ? & [= <- <-] & ->).
  - done.
  - by intros (? & ? & ? & ?).
Qed.
Lemma ok_inj {A} (a b : A) : Ok a = Ok b → a = b.
Proof. by intros [=]. Qed.

(** Open an existential over an intermediate value, of type [unit] or not. *)
Ltac open_step H :=
  let x := fresh "v" in
  destruct H as (x & ? & H);
  match type of x with unit => destruct x | _ => idtac end.

(** Invert a successful run. *)
Ltac inv_run H :=
  cbv zeta in H;
  repeat (first
    [ apply run_deref in H as (? & [= <-] & H)
    | apply run_deref in H as (? & ? & H)
    | apply run_fail_if in H as [? H]
    | apply run_try in H; open_step H
    | apply run_assign in H; simplify_eq
    | apply run_assign_bind in H
    | apply run_ret in H as [? ?]; simplify_eq
    | apply run_drop in H as (? & H & _)
    | apply ok_fail_if in H as [? H]
    | apply ok_bind in H; open_step H
    | apply ok_inj in H; simplify_eq
    | apply run_if in H as [[? H]|[? H]]
    | match type of H with (if ?b then _ else _) = _ => destruct b eqn:? end ];
    cbv beta zeta in H).

(** Case analysis on the conditionals inside a value. *)
Ltac split_ifs :=
  repeat match goal with
  | H : context [if ?b then _ else _] |- _ => destruct b eqn:?
  | |- context [if ?b then _ else _] => destruct b eqn:?
  end.

(** Split a goal that a run succeeds with a given outcome. *)
Ltac go_run :=
  cbv zeta;
  repeat (first
    [ apply run_deref; eexists; split; [reflexivity|]
    | apply run_fail_if; split
    | apply run_try; first [exists tt; split | eexists; split]
    | apply run_assign; reflexivity
    | apply run_assign_bind
    | apply run_ret; split; reflexivity
    | apply run_drop; eexists; split; [|reflexivity] ];
    cbv beta zeta).
