(* ===== verification/GoTime.v ===== *)
(** * Instants and optional instants

    Models the part of Go's [time] package the domain uses and the helpers of
    [server/model/time.go].  A [Time] is the number of nanoseconds since Go's
    zero time (1 January of year 1, UTC) together with its location.  Monotonic
    clock readings are not represented: [TimeUTC], which every constructor and
    transition applies to the instants it stores, strips them. *)

From S2P Require Import Prelude.

(** ** Go's time.Time *)

(** [time.UTC] (also the nil location), or a location whose zone in force at
    the instant has the given name and offset in seconds. *)
Inductive Location :=
  | UTC
  | InZone (name : string) (offset : Z).

Record Time := mkTime { t_ns : Z; t_loc : Location }.

#[global] Instance Location_eq_dec : EqDecision Location.
Proof. solve_decision. Defined.
#[global] Instance Time_eq_dec : EqDecision Time.
Proof. solve_decision. Defined.

(** [time.Duration] is a count of nanoseconds. *)
Definition Nanosecond : Z := 1.
Definition Microsecond : Z := 1000.
Definition Millisecond : Z := 1000000.
Definition Second : Z := 1000000000.
Definition Minute : Z := 60 * Second.
Definition Hour : Z := 60 * Minute.

Definition zeroTime : Time := mkTime 0 UTC.

Definition Time_IsZero (t : Time) : bool := t_ns t =? 0.
Definition Time_Before (t u : Time) : bool := t_ns t <? t_ns u.
Definition Time_After (t u : Time) : bool := t_ns u <? t_ns t.
Definition Time_Equal (t u : Time) : bool := t_ns t =? t_ns u.
Definition Time_Add (t : Time) (d : Z) : Time := mkTime (t_ns t + d) (t_loc t).
Definition Time_UTC (t : Time) : Time := mkTime (t_ns t) UTC.
(** [Truncate] rounds down to a multiple of [d] since the zero time. *)
Definition Time_Truncate (t : Time) (d : Z) : Time :=
  if d <=? 0 then t else mkTime (t_ns t - t_ns t mod d) (t_loc t).
Definition Time_ZoneOffset (t : Time) : Z :=
  match t_loc t with UTC => 0 | InZone _ offset => offset end.
(** [t.Nanosecond()]: the nanosecond within the second. *)
Definition Time_Nanosecond (t : Time) : Z := t_ns t mod Second.

(** Seconds between the zero time and the Unix epoch. *)
Definition unixToInternal : Z := 62135596800.
Definition Time_UnixMilli (t : Time) : Z :=
  (t_ns t - unixToInternal * Second) / Millisecond.
Definition UnixMilli (millis : Z) : Time :=
  mkTime (unixToInternal * Second + millis * Millisecond) UTC.

(** ** Domain helpers (time.go) *)

Definition TimeUTC (value : Time) : Time :=
  if Time_IsZero value then zeroTime
  else Time_Truncate (Time_UTC value) Microsecond.

Definition MillisFromTime (value : Time) : Z :=
  if Time_IsZero value then 0 else Time_UnixMilli (Time_UTC value).

Definition TimeFromMillis (millis : Z) : Time :=
  if millis <=? 0 then zeroTime else Time_UTC (UnixMilli millis).

Record OptionalTime := mkOptionalTime { ot_Time : Time; ot_Valid : bool }.
#[global] Instance OptionalTime_eq_dec : EqDecision OptionalTime.
Proof. solve_decision. Defined.

(** [OptionalTime{}] *)
Definition noTime : OptionalTime := mkOptionalTime zeroTime false.

Definition OptionalTimeFrom (value : Time) : OptionalTime :=
  mkOptionalTime (TimeUTC value) true.

Definition OptionalTimeFromMillis (millis : Z) : OptionalTime :=
  if millis <=? 0 then noTime else mkOptionalTime (Time_UTC (UnixMilli millis)) true.

Definition OptionalTime_Millis (o : OptionalTime) : Z :=
  if negb (ot_Valid o) then 0 else Time_UnixMilli (Time_UTC (ot_Time o)).

Definition OptionalTime_UTC (o : OptionalTime) : OptionalTime :=
  if negb (ot_Valid o) then noTime else OptionalTimeFrom (ot_Time o).

Definition OptionalTime_IsZero (o : OptionalTime) : bool :=
  negb (ot_Valid o) || Time_IsZero (ot_Time o).

Definition OptionalTime_Ptr (o : OptionalTime) : option Time :=
  if negb (ot_Valid o) then None else Some (TimeUTC (ot_Time o)).

Definition OptionalTimeFromPtr (value : option Time) : OptionalTime :=
  match value with None => noTime | Some t => OptionalTimeFrom t end.

(** [securityInstant]: a non-zero instant at offset 0 with whole milliseconds. *)
Definition securityInstant (value : Time) : bool :=
  negb (Time_IsZero value) && (Time_ZoneOffset value =? 0)
  && (Z.rem (Time_Nanosecond value) Millisecond =? 0).

(** ** Facts *)

(** The form [TimeUTC] produces: UTC, at microsecond precision. *)
Definition normalized (t : Time) : Prop :=
  t_loc t = UTC ∧ t_ns t mod Microsecond = 0.
Definition normalized_opt (o : OptionalTime) : Prop :=
  ot_Valid o = true → normalized (ot_Time o).

#[global] Arguments TimeUTC : simpl never.
#[global] Arguments Time_Before !_ !_ /.

Lemma TimeUTC_ns t : t_ns (TimeUTC t) = t_ns t - t_ns t mod Microsecond.
Proof.
  unfold TimeUTC, Time_IsZero. destruct (t_ns t =? 0) eqn:E; [|done].
  apply Z.eqb_eq in E. rewrite E. done.
Qed.

Lemma TimeUTC_loc t : t_loc (TimeUTC t) = UTC.
Proof. unfold TimeUTC. by destruct (Time_IsZero t). Qed.

Lemma TimeUTC_normalized t : normalized (TimeUTC t).
Proof.
  split; [apply TimeUTC_loc|]. rewrite TimeUTC_ns. unfold Microsecond.
  rewrite Zminus_mod_idemp_r, Z.sub_diag. done.
Qed.

Lemma normalized_TimeUTC t : normalized t → TimeUTC t = t.
Proof.
  intros [Hl Hm]. destruct t as [n l]; simpl in *. subst l.
  unfold TimeUTC, Time_IsZero; simpl. destruct (n =? 0) eqn:E.
  - apply Z.eqb_eq in E. by subst n.
  - unfold Time_Truncate, Time_UTC; simpl. by rewrite Hm, Z.sub_0_r.
Qed.

Lemma TimeUTC_idemp t : TimeUTC (TimeUTC t) = TimeUTC t.
Proof. apply normalized_TimeUTC, TimeUTC_normalized. Qed.

(** Truncation never moves an instant into the future. *)
Lemma TimeUTC_le t : t_ns (TimeUTC t) ≤ t_ns t < t_ns (TimeUTC t) + Microsecond.
Proof.
  rewrite TimeUTC_ns. pose proof (Z.mod_pos_bound (t_ns t) Microsecond).
  unfold Microsecond in *. lia.
Qed.

Lemma TimeUTC_mono t u : t_ns t ≤ t_ns u → t_ns (TimeUTC t) ≤ t_ns (TimeUTC u).
Proof.
  intros. rewrite !TimeUTC_ns. unfold Microsecond.
  pose proof (Z.div_mod (t_ns t) 1000). pose proof (Z.div_mod (t_ns u) 1000).
  pose proof (Z.div_le_mono (t_ns t) (t_ns u) 1000). lia.
Qed.

Lemma zeroTime_normalized : normalized zeroTime.
Proof. done. Qed.

Lemma OptionalTimeFrom_normalized t : normalized_opt (OptionalTimeFrom t).
Proof. intros _. apply TimeUTC_normalized. Qed.

Lemma noTime_normalized : normalized_opt noTime.
Proof. done. Qed.

#[export] Hint Resolve TimeUTC_normalized TimeUTC_loc zeroTime_normalized
  OptionalTimeFrom_normalized noTime_normalized : core.

(** Instant comparisons as propositions on nanoseconds. *)
Lemma Time_Before_true t u : Time_Before t u = true ↔ t_ns t < t_ns u.
Proof. apply Z.ltb_lt. Qed.
Lemma Time_Before_false t u : Time_Before t u = false ↔ t_ns u ≤ t_ns t.
Proof. apply Z.ltb_ge. Qed.
Lemma Time_After_true t u : Time_After t u = true ↔ t_ns u < t_ns t.
Proof. apply Z.ltb_lt. Qed.
Lemma Time_After_false t u : Time_After t u = false ↔ t_ns t ≤ t_ns u.
Proof. apply Z.ltb_ge. Qed.
Lemma Time_IsZero_true t : Time_IsZero t = true ↔ t_ns t = 0.
Proof. apply Z.eqb_eq. Qed.
Lemma Time_IsZero_false t : Time_IsZero t = false ↔ t_ns t ≠ 0.
Proof. apply Z.eqb_neq. Qed.
#[export] Hint Rewrite Time_Before_true Time_Before_false Time_After_true Time_After_false
  Time_IsZero_true Time_IsZero_false : gobool.

(** Unix milliseconds round-trip for positive values. *)
Lemma TimeFromMillis_MillisFromTime m :
  0 < m → MillisFromTime (TimeFromMillis m) = m.
Proof.
  intros. unfold TimeFromMillis. destruct (m <=? 0) eqn:E; [lia|].
  unfold MillisFromTime. destruct (Time_IsZero _) eqn:Z0.
  - apply Z.eqb_eq in Z0. unfold UnixMilli, unixToInternal, Second, Millisecond in Z0.
    simpl in Z0. lia.
  - unfold Time_UnixMilli; simpl. unfold unixToInternal, Second, Millisecond.
    rewrite Z.add_simpl_l, Z.div_mul; lia.
Qed.

(** The instant [n] seconds after the zero time, for the witnesses. *)
Definition at_second (n : Z) : Time := mkTime (n * Second) UTC.
