(* ===== verification/GoStrings.v ===== *)
(** * Strings and bytes

    The parts of Go's [strings], [unicode], [unicode/utf8] and [encoding/hex]
    packages the domain uses, on strings as sequences of bytes, and the byte
    predicates of the model package built on them ([server/model/credential.go],
    [exam_revision.go], [attempt_configuration.go]). *)

From S2P Require Import Prelude.

(** ** Bytes *)

Definition byte_of_ascii (a : ascii) : Z := Z.of_N (N_of_ascii a).
Definition ascii_of_byte (b : Z) : ascii := ascii_of_N (Z.to_N b).

Fixpoint bytes (s : string) : list Z :=
  match s with
  | EmptyString => []
  | String a s' => byte_of_ascii a :: bytes s'
  end.
Fixpoint string_of_bytes (l : list Z) : string :=
  match l with
  | [] => EmptyString
  | b :: l' => String (ascii_of_byte b) (string_of_bytes l')
  end.
(** Go's [len(s)], in bytes. *)
Definition len (s : string) : Z := Z.of_nat (String.length s).

Definition is_byte (b : Z) : Prop := 0 ≤ b < 256.

(** ** unicode/utf8 *)

Definition RuneError : Z := 65533.
Definition in_range (lo hi c : Z) : bool := (lo <=? c) && (c <=? hi).
Definition continuation (c : Z) : bool := in_range 128 191 c.

(** [utf8.DecodeRune]: the rune and its width; an invalid encoding decodes to
    [RuneError] of width 1. *)
Definition DecodeRune (p : list Z) : Z * nat :=
  match p with
  | [] => (RuneError, 0%nat)
  | b0 :: p1 =>
      if b0 <? 128 then (b0, 1%nat)
      else if in_range 194 223 b0 then
        match p1 with
        | b1 :: _ => if continuation b1 then ((b0 - 192) * 64 + (b1 - 128), 2%nat)
                     else (RuneError, 1%nat)
        | _ => (RuneError, 1%nat)
        end
      else if in_range 224 239 b0 then
        match p1 with
        | b1 :: b2 :: _ =>
            let lo := if b0 =? 224 then 160 else 128 in
            let hi := if b0 =? 237 then 159 else 191 in
            if in_range lo hi b1 && continuation b2
            then ((b0 - 224) * 4096 + (b1 - 128) * 64 + (b2 - 128), 3%nat)
            else (RuneError, 1%nat)
        | _ => (RuneError, 1%nat)
        end
      else if in_range 240 244 b0 then
        match p1 with
        | b1 :: b2 :: b3 :: _ =>
            let lo := if b0 =? 240 then 144 else 128 in
            let hi := if b0 =? 244 then 143 else 191 in
            if in_range lo hi b1 && continuation b2 && continuation b3
            then ((b0 - 240) * 262144 + (b1 - 128) * 4096 + (b2 - 128) * 64 + (b3 - 128), 4%nat)
            else (RuneError, 1%nat)
        | _ => (RuneError, 1%nat)
        end
      else (RuneError, 1%nat)
  end.

(** The successive (rune, width, first byte) triples a [range] loop over the
    string visits; [skip] counts the bytes left of the rune being consumed. *)
Fixpoint range_runes (skip : nat) (p : list Z) : list (Z * nat * Z) :=
  match p with
  | [] => []
  | b :: p' =>
      match skip with
      | S k => range_runes k p'
      | O => let '(r, w) := DecodeRune p in (r, w, b) :: range_runes (pred w) p'
      end
  end.

Definition runes (s : string) : list (Z * nat * Z) := range_runes 0 (bytes s).
Definition RuneCountInString (s : string) : Z := Z.of_nat (length (runes s)).
Definition ValidString (s : string) : bool :=
  forallb (λ '(r, w, _), negb ((r =? RuneError) && Nat.eqb w 1)) (runes s).

(** ** unicode, strings *)

(** [unicode.IsSpace], the White_Space property. *)
Definition IsSpace (r : Z) : bool :=
  in_range 9 13 r || (r =? 32) || (r =? 133) || (r =? 160) || (r =? 5760)
  || in_range 8192 8202 r || (r =? 8232) || (r =? 8233) || (r =? 8239)
  || (r =? 8287) || (r =? 12288).
(** [unicode.IsControl], category Cc. *)
Definition IsControl (r : Z) : bool := in_range 0 31 r || in_range 127 159 r.

Fixpoint leading_space (l : list (Z * nat * Z)) : nat :=
  match l with
  | (r, w, _) :: l' => if IsSpace r then (w + leading_space l')%nat else 0%nat
  | [] => 0%nat
  end.

(** [strings.TrimSpace]: cut the space runes at both ends. *)
Definition TrimSpace (s : string) : string :=
  let l := leading_space (runes s) in
  let r := leading_space (reverse (runes s)) in
  String.substring l (String.length s - l - r) s.

(** [strings.ToLower] on ASCII letters; other bytes are unchanged.  Every use
    in the model package is on a value whose result must be hexadecimal. *)
Definition lower_ascii (a : ascii) : ascii :=
  if in_range 65 90 (byte_of_ascii a) then ascii_of_byte (byte_of_ascii a + 32) else a.
Fixpoint ToLower (s : string) : string :=
  match s with
  | EmptyString => EmptyString
  | String a s' => String (lower_ascii a) (ToLower s')
  end.

Definition HasPrefix (s prefix : string) : bool := String.prefix prefix s.

(** [strings.Split] on a one-byte separator. *)
Fixpoint split_byte (sep : ascii) (s : string) : list string :=
  match s with
  | EmptyString => [EmptyString]
  | String a s' =>
      if Ascii.eqb a sep then EmptyString :: split_byte sep s'
      else match split_byte sep s' with
           | [] => [String a EmptyString]
           | w :: ws => String a w :: ws
           end
  end.

(** ** encoding/hex *)

Definition hex_digit (b : Z) : bool :=
  in_range 48 57 b || in_range 97 102 b || in_range 65 70 b.
(** [hex.DecodeString] succeeds. *)
Definition hex_decodes (s : string) : bool :=
  Nat.even (String.length s) && forallb hex_digit (bytes s).

Definition hex_char (d : Z) : Z := if d <? 10 then 48 + d else 87 + d.
(** [hex.EncodeToString]. *)
Definition hex_encode (l : list Z) : string :=
  string_of_bytes (l ≫= λ b, [hex_char (b / 16); hex_char (b mod 16)]).

(** ** Byte predicates of the model package *)

Definition TokenHashLength : Z := 64.

Definition IsValidTokenHash (value : string) : bool :=
  if len value !=? TokenHashLength then false else hex_decodes value.

Definition validLowerSHA256 (value : string) : bool :=
  if (len value !=? 64) || (ToLower value !=? value) then false
  else hex_decodes value.

Definition alnum (c : Z) : bool :=
  in_range 97 122 c || in_range 65 90 c || in_range 48 57 c.

(** The loop body of [IsValidAgreementID] at index [i]. *)
Definition agreement_byte (i : nat) (c : Z) : bool :=
  alnum c || negb (Nat.eqb i 0 || negb ((c =? 46) || (c =? 95) || (c =? 58) || (c =? 45))).

Definition IsValidAgreementID (value : string) : bool :=
  if (len value =? 0) || (len value >? 128) then false
  else forallb (uncurry agreement_byte) (imap pair (bytes value)).

Definition lower_hex (b : Z) : bool := in_range 48 57 b || in_range 97 102 b.

Definition IsValidSHA256Fingerprint (value : string) : bool :=
  (len value =? 71) && HasPrefix value "sha256:"
  && forallb lower_hex (drop 7 (bytes value)).

(** A regular expression [^[a-z][a-z0-9_.-]{0,n}$]. *)
Definition safe_code (n : Z) (value : string) : bool :=
  match bytes value with
  | [] => false
  | c :: cs => in_range 97 122 c && (Z.of_nat (length cs) <=? n)
               && forallb (λ b, in_range 97 122 b || in_range 48 57 b
                                || (b =? 95) || (b =? 46) || (b =? 45)) cs
  end.

(** ** Ordering of strings *)

(** [strings.Compare]: the bytes in lexicographic order. *)
Fixpoint compare_bytes (a b : list Z) : comparison :=
  match a, b with
  | [], [] => Eq
  | [], _ => Lt
  | _, [] => Gt
  | x :: a, y :: b => match Z.compare x y with Eq => compare_bytes a b | c => c end
  end.
Definition Compare (a b : string) : comparison := compare_bytes (bytes a) (bytes b).

(** ** strconv *)

Fixpoint digits (fuel : nat) (n : Z) (acc : list Z) : list Z :=
  match fuel with
  | O => acc
  | S k => let acc' := 48 + n mod 10 :: acc in if n / 10 =? 0 then acc' else digits k (n / 10) acc'
  end.
(** [strconv.FormatInt(n, 10)]; 19 digits write every [int64] magnitude. *)
Definition FormatInt (n : Z) : string :=
  string_of_bytes (if n <? 0 then 45 :: digits 19 (- n) [] else digits 19 n []).

Definition digit_value (c : Z) : option Z := if in_range 48 57 c then Some (c - 48) else None.
Fixpoint parse_digits (acc : Z) (l : list Z) : option Z :=
  match l with
  | [] => Some acc
  | c :: l' => match digit_value c with Some d => parse_digits (10 * acc + d) l' | None => None end
  end.
(** [strconv.ParseInt(s, 10, 64)]: an optional sign and at least one digit, within
    range. *)
Definition ParseInt (s : string) : option Z :=
  let '(sign, l) := match bytes s with
                    | 43 :: l => (1, l)
                    | 45 :: l => (-1, l)
                    | l => (1, l)
                    end in
  match l with
  | [] => None
  | _ => match parse_digits 0 l with
         | Some n => let v := sign * n in
                     if (int64_min <=? v) && (v <=? int64_max) then Some v else None
         | None => None
         end
  end.

(** ** Facts *)

Lemma byte_of_ascii_range a : is_byte (byte_of_ascii a).
Proof.
  unfold is_byte, byte_of_ascii. pose proof (N_ascii_bounded a). lia.
Qed.

Lemma ascii_of_byte_of_ascii a : ascii_of_byte (byte_of_ascii a) = a.
Proof. unfold ascii_of_byte, byte_of_ascii. rewrite N2Z.id. apply ascii_N_embedding. Qed.

Lemma byte_of_ascii_of_byte b : is_byte b → byte_of_ascii (ascii_of_byte b) = b.
Proof.
  unfold is_byte, byte_of_ascii, ascii_of_byte. intros.
  rewrite N_ascii_embedding; lia.
Qed.

Lemma length_bytes s : length (bytes s) = String.length s.
Proof. induction s; simpl; congruence. Qed.

Lemma bytes_string_of_bytes l : Forall is_byte l → bytes (string_of_bytes l) = l.
Proof.
  induction 1; simpl; [done|]. rewrite byte_of_ascii_of_byte by done. congruence.
Qed.

Lemma string_of_bytes_bytes s : string_of_bytes (bytes s) = s.
Proof. induction s; simpl; [done|]. rewrite ascii_of_byte_of_ascii. congruence. Qed.

Lemma bytes_is_byte s : Forall is_byte (bytes s).
Proof. induction s; simpl; constructor; auto using byte_of_ascii_range. Qed.

Lemma bytes_inj s t : bytes s = bytes t → s = t.
Proof. intros H. by rewrite <-(string_of_bytes_bytes s), H, string_of_bytes_bytes. Qed.

Lemma hex_encode_lower l :
  Forall is_byte l → forallb lower_hex (bytes (hex_encode l)) = true.
Proof.
  intros Hl. unfold hex_encode.
  assert (Hc : ∀ d, 0 ≤ d < 16 → is_byte (hex_char d) ∧ lower_hex (hex_char d) = true).
  { intros d Hd. unfold hex_char, is_byte, lower_hex, in_range.
    destruct (d <? 10) eqn:E; to_prop; lia. }
  assert (Hn : ∀ b, is_byte b → 0 ≤ b / 16 < 16 ∧ 0 ≤ b mod 16 < 16).
  { unfold is_byte. intros b Hb. split; [|by apply Z.mod_pos_bound].
    split; [apply Z.div_pos; lia|apply Z.div_lt_upper_bound; lia]. }
  rewrite bytes_string_of_bytes.
  - induction Hl as [|b l Hb _ IH]; simpl; [done|].
    destruct (Hn b Hb). rewrite !andb_true_iff.
    split; [by apply Hc|]. split; [by apply Hc|done].
  - induction Hl as [|b l Hb _ IH]; simpl; [constructor|].
    destruct (Hn b Hb). repeat constructor; try done; by apply Hc.
Qed.

Lemma length_hex_encode l : String.length (hex_encode l) = (2 * length l)%nat.
Proof.
  unfold hex_encode. rewrite <-length_bytes.
  assert (H : ∀ l', length (bytes (string_of_bytes l')) = length l').
  { induction l'; simpl; congruence. }
  rewrite H. induction l as [|b l IH]; [done|].
  rewrite bind_cons, length_app, IH. simpl. lia.
Qed.

Lemma ToLower_lower_hex s : forallb lower_hex (bytes s) = true → ToLower s = s.
Proof.
  induction s as [|a s IH]; simpl; [done|]. intros [Ha Hs]%andb_true_iff.
  rewrite IH by done. f_equal. unfold lower_ascii, lower_hex, in_range in *.
  destruct (_ && _) eqn:E at 1; [|done]. exfalso. to_prop. lia.
Qed.

Lemma lower_hex_decodes s :
  forallb lower_hex (bytes s) = true → Nat.even (String.length s) = true →
  hex_decodes s = true.
Proof.
  intros H1 H2. unfold hex_decodes. rewrite H2; simpl. clear H2.
  induction (bytes s) as [|b l IH]; simpl in *; [done|].
  apply andb_true_iff in H1 as [Hb Hl]. rewrite IH by done.
  unfold lower_hex, hex_digit in *. by rewrite Hb.
Qed.

(** The hexadecimal form of a 32-byte digest is an accepted digest. *)
Lemma hex_encode_validLowerSHA256 l :
  Forall is_byte l → length l = 32%nat → validLowerSHA256 (hex_encode l) = true.
Proof.
  intros Hl Hn. unfold validLowerSHA256, len.
  rewrite length_hex_encode, Hn. simpl.
  rewrite ToLower_lower_hex by (by apply hex_encode_lower).
  rewrite bool_decide_true by done. simpl.
  apply lower_hex_decodes; [by apply hex_encode_lower|].
  by rewrite length_hex_encode, Hn.
Qed.

Lemma hex_char_inj d e : 0 ≤ d < 16 → 0 ≤ e < 16 → hex_char d = hex_char e → d = e.
Proof. unfold hex_char. destruct (d <? 10) eqn:E1, (e <? 10) eqn:E2; to_prop; lia. Qed.

Lemma hex_encode_inj l l' :
  Forall is_byte l → Forall is_byte l' → hex_encode l = hex_encode l' → l = l'.
Proof.
  assert (Hc : ∀ d, 0 ≤ d < 16 → is_byte (hex_char d)).
  { intros d Hd. unfold hex_char, is_byte. destruct (d <? 10) eqn:E; to_prop; lia. }
  assert (Hn : ∀ b, is_byte b → 0 ≤ b / 16 < 16 ∧ 0 ≤ b mod 16 < 16).
  { unfold is_byte. intros b Hb. split; [|by apply Z.mod_pos_bound].
    split; [apply Z.div_pos; lia|apply Z.div_lt_upper_bound; lia]. }
  assert (Hb : ∀ k, Forall is_byte k →
    Forall is_byte (k ≫= λ b, [hex_char (b / 16); hex_char (b mod 16)])).
  { induction 1 as [|b k Hb Hk IH]; simpl; [constructor|]. destruct (Hn b Hb).
    constructor; [by apply Hc|]. constructor; [by apply Hc|done]. }
  intros Hl Hl' H. unfold hex_encode in H.
  apply (f_equal bytes) in H. rewrite !bytes_string_of_bytes in H by auto.
  revert l' Hl' H. induction Hl as [|b l Hbb Hl IH]; intros [|b' l'] Hl' H; try done.
  apply Forall_cons in Hl' as [Hbb' Hl']. rewrite !bind_cons in H. simpl in H.
  injection H as H1 H2 H3. destruct (Hn b Hbb), (Hn b' Hbb').
  apply hex_char_inj in H1, H2; [|done..]. f_equal; [|by apply IH].
  rewrite (Z.div_mod b 16), (Z.div_mod b' 16) by done. congruence.
Qed.

(** ** The order on strings *)

Lemma compare_bytes_eq a b : compare_bytes a b = Eq ↔ a = b.
Proof.
  revert b. induction a as [|x a IH]; intros [|y b]; cbn; try done.
  destruct (Z.compare_spec x y) as [->|H|H]; [rewrite IH|..]; split; try done; try congruence;
    intros [= -> _]; lia.
Qed.

Lemma compare_bytes_opp a b : compare_bytes b a = CompOpp (compare_bytes a b).
Proof.
  revert b. induction a as [|x a IH]; intros [|y b]; cbn; try done.
  rewrite (Z.compare_antisym x y). destruct (x ?= y); cbn; [apply IH|done..].
Qed.

Lemma compare_bytes_trans a b c :
  compare_bytes a b ≠ Gt → compare_bytes b c ≠ Gt → compare_bytes a c ≠ Gt.
Proof.
  revert b c. induction a as [|x a IH]; intros [|y b] [|z c]; cbn; try done.
  destruct (Z.compare_spec x y), (Z.compare_spec y z), (Z.compare_spec x z); subst; try done; try lia.
  apply IH.
Qed.

Lemma Compare_eq a b : Compare a b = Eq ↔ a = b.
Proof.
  unfold Compare. rewrite compare_bytes_eq. split; [apply bytes_inj|congruence].
Qed.

Lemma Compare_lt_or a b : Compare a b ≠ Gt → Compare a b = Lt ∨ a = b.
Proof. rewrite <-Compare_eq. by destruct (Compare a b); auto. Qed.

(** ** ASCII text *)

Definition ascii_bytes (s : list Z) : Prop := Forall (λ c, 0 ≤ c < 128) s.

Lemma range_runes_ascii s : ascii_bytes s → range_runes 0 s = map (λ c, (c, 1%nat, c)) s.
Proof.
  induction 1 as [|c s Hc _ IH]; [done|]. cbn [range_runes map].
  assert (DecodeRune (c :: s) = (c, 1%nat)) as ->.
  { unfold DecodeRune. by rewrite (proj2 (Z.ltb_lt c 128)) by lia. }
  cbn [pred]. by rewrite IH.
Qed.
Lemma runes_of_ascii s : ascii_bytes (bytes s) → runes s = map (λ c, (c, 1%nat, c)) (bytes s).
Proof. apply range_runes_ascii. Qed.

(** ** Decimal integers *)

Definition is_digit_byte (c : Z) : Prop := 48 ≤ c ≤ 57.

Lemma digit_range n : is_digit_byte (48 + n mod 10).
Proof. unfold is_digit_byte. pose proof (Z.mod_pos_bound n 10). lia. Qed.

Lemma digits_bytes fuel n acc :
  Forall is_digit_byte acc → Forall is_digit_byte (digits fuel n acc).
Proof.
  revert n acc. induction fuel as [|fuel IH]; intros n acc Ha; [done|]. cbn.
  assert (Forall is_digit_byte (48 + n mod 10 :: acc)) by (constructor; [apply digit_range|done]).
  destruct (_ =? _); [done|by apply IH].
Qed.

Lemma digits_nonempty fuel n : digits (S fuel) n [] ≠ [].
Proof.
  assert (G : ∀ f k acc, acc ≠ [] → digits f k acc ≠ []).
  { induction f as [|f IH]; intros k acc Ha; [done|]. cbn. destruct (_ =? _); [done|by apply IH]. }
  cbn. destruct (_ =? _); [done|by apply G].
Qed.

Lemma parse_digits_digits fuel n acc :
  0 ≤ n < 10 ^ Z.of_nat fuel → parse_digits 0 (digits fuel n acc) = parse_digits n acc.
Proof.
  revert n acc. induction fuel as [|fuel IH]; intros n acc Hn.
  { cbn in Hn. by replace n with 0 by lia. }
  rewrite Nat2Z.inj_succ, Z.pow_succ_r in Hn by lia. cbn [digits].
  pose proof (Z.div_mod n 10). pose proof (Z.mod_pos_bound n 10).
  assert (Hd : ∀ a, parse_digits a (48 + n mod 10 :: acc) = parse_digits (10 * a + n mod 10) acc).
  { intros a. cbn [parse_digits]. unfold digit_value, in_range.
    destruct (_ && _) eqn:E; to_prop; [by rewrite Z.add_simpl_l|lia]. }
  destruct (n / 10 =? 0) eqn:E; to_prop.
  - rewrite Hd. f_equal. lia.
  - rewrite IH by (split; [lia|apply Z.div_lt_upper_bound; lia]). rewrite Hd. f_equal. lia.
Qed.

Lemma ParseInt_unsigned l n :
  Forall is_digit_byte l → l ≠ [] → parse_digits 0 l = Some n → int64_min ≤ n ≤ int64_max →
  ParseInt (string_of_bytes l) = Some n.
Proof.
  intros Hl Hne Hp Hn. unfold ParseInt.
  rewrite bytes_string_of_bytes by (eapply Forall_impl; [exact Hl|]; unfold is_digit_byte, is_byte; lia).
  destruct l as [|c l]; [done|]. apply Forall_cons in Hl as [Hc _]. unfold is_digit_byte in Hc.
  assert (Hcs : c = 48 ∨ c = 49 ∨ c = 50 ∨ c = 51 ∨ c = 52 ∨ c = 53 ∨ c = 54 ∨ c = 55 ∨ c = 56 ∨
    c = 57) by lia.
  destruct_or! Hcs; subst c; cbv iota beta zeta; rewrite Hp, Z.mul_1_l;
    by rewrite (proj2 (Z.leb_le _ _)), (proj2 (Z.leb_le _ _)) by lia.
Qed.

Lemma ParseInt_FormatInt n : in_int64 n → ParseInt (FormatInt n) = Some n.
Proof.
  intros Hn. unfold in_int64, int64_min, int64_max in Hn. unfold FormatInt.
  destruct (n <? 0) eqn:E; to_prop.
  - unfold ParseInt. rewrite bytes_string_of_bytes.
    2: { constructor; [unfold is_byte; lia|].
         eapply Forall_impl; [by apply (digits_bytes 19 (- n) [])|]. unfold is_digit_byte, is_byte. lia. }
    destruct (digits 19 (- n) []) as [|c l] eqn:Ed; [by destruct (digits_nonempty 18 (- n))|].
    rewrite <-Ed, parse_digits_digits by (split; [lia|]; unfold Z.of_nat; cbn; lia). cbn [parse_digits].
    replace (-1 * - n) with n by lia.
    by rewrite (proj2 (Z.leb_le _ _)), (proj2 (Z.leb_le _ _)) by (unfold int64_min, int64_max; lia).
  - apply ParseInt_unsigned; [by apply digits_bytes|apply digits_nonempty| |unfold int64_min, int64_max; lia].
    rewrite parse_digits_digits; [done|]. split; [lia|]. unfold Z.of_nat. cbn. lia.
Qed.
