(* ===== verification/Ident.v ===== *)
(** * Opaque identifiers

    Models [server/model/utils.go] ([NewID], [IsValidOpaqueID]) and the shape
    the generated identifier types of [server/model/id.go] share: a string that
    is zero when empty and valid when it is 26 characters of the identifier
    alphabet. *)

From S2P Require Import Prelude GoStrings.

(** ** Operations *)

Definition IDLength : Z := 26.
Definition IDAlphabet : string := "ybndrfg8ejkmcpqxot1uwisza345h769".

(** [strings.ContainsRune] with an ASCII first argument. *)
Definition ContainsRune (s : string) (r : Z) : bool := existsb (Z.eqb r) (bytes s).

(** The loop ranges over the runes of [value] and tests the first byte of
    each. *)
Definition IsValidOpaqueID (value : string) : bool :=
  if len value !=? IDLength then false
  else forallb (λ '(_, _, b), ContainsRune IDAlphabet b) (runes value).

(** The entity identifiers: each is its own Go type over [string]. *)
Definition ID : Type := string.
Definition ID_IsValid (id : ID) : bool := IsValidOpaqueID id.
Definition ID_IsZero (id : ID) : bool := id ==? "".

(** [parseID]: the identifier, or the refusal. *)
Definition parseID (value : string) (e : error) : result ID :=
  fail_if negb (IsValidOpaqueID value) with e ;; Ok value.

(** [base32.NewEncoding(IDAlphabet).WithPadding(NoPadding)]: the bytes as one
    big-endian bit string cut in groups of five, the last one padded with zero
    bits on the right. *)
Definition be_int (l : list Z) : Z := foldl (λ acc b, acc * 256 + b) 0 l.
Fixpoint digits32 (k : nat) (n : Z) : list Z :=
  match k with
  | O => []
  | S k' => digits32 k' (n / 32) ++ [n mod 32]
  end.
Definition base32_length (n : nat) : nat := ((8 * n + 4) / 5)%nat.
Definition base32_pad (n : nat) : Z := Z.of_nat (5 * base32_length n - 8 * n).
Definition alphabet_char (d : Z) : Z := default 0 (bytes IDAlphabet !! Z.to_nat d).
Definition idEncoding (l : list Z) : string :=
  string_of_bytes
    (map alphabet_char (digits32 (base32_length (length l))
                                 (be_int l * 2 ^ base32_pad (length l)))).

(** The version and variant bits of an RFC 4122 version 4 UUID. *)
Definition mark_uuid4 (value : list Z) : list Z :=
  let value := <[6%nat := Z.lor (Z.land (default 0 (value !! 6%nat)) 15) 64]> value in
  <[8%nat := Z.lor (Z.land (default 0 (value !! 8%nat)) 63) 128]> value.

(** [NewID] on the 16 bytes the random source delivered. *)
Definition NewID (random : list Z) : string := idEncoding (mark_uuid4 random).

(** ** Facts *)

Lemma alphabet_ascii b : ContainsRune IDAlphabet b = true → 0 ≤ b < 128.
Proof.
  unfold ContainsRune. rewrite existsb_exists. intros (x & Hx & ->%Z.eqb_eq).
  vm_compute in Hx. repeat (destruct Hx as [<-|Hx]; [lia|]). done.
Qed.

Lemma forallb_range_runes (P : Z → bool) p :
  (∀ b, P b = true → b < 128) →
  forallb (λ '(_, _, b), P b) (range_runes 0 p) = forallb P p.
Proof.
  intros HP. induction p as [|b p IH]; [done|].
  cbn [range_runes forallb].
  destruct (P b) eqn:E.
  - assert (H : DecodeRune (b :: p) = (b, 1%nat)).
    { cbn. rewrite (proj2 (Z.ltb_lt b 128)); auto. }
    rewrite H. cbn [forallb pred]. rewrite E. by rewrite IH.
  - destruct (DecodeRune (b :: p)) as [r w]. cbn [forallb]. by rewrite E.
Qed.

(** Ranging over runes tests every byte. *)
Lemma IsValidOpaqueID_bytes value :
  IsValidOpaqueID value = true ↔
  len value = IDLength ∧ Forall (λ b, ContainsRune IDAlphabet b = true) (bytes value).
Proof.
  unfold IsValidOpaqueID, runes.
  rewrite (forallb_range_runes (ContainsRune IDAlphabet)) by (intros ? ?%alphabet_ascii; lia).
  destruct (decide (len value = IDLength)) as [Hl|Hl].
  - rewrite bool_decide_true by done. cbn. rewrite forallb_forall, List.Forall_forall. tauto.
  - rewrite bool_decide_false by done. cbn. split; [done|tauto].
Qed.

Lemma ID_not_zero_valid id : ID_IsValid id = true → ID_IsZero id = false.
Proof. intros H. apply bool_decide_false. intros ->. done. Qed.

Lemma length_digits32 k n : length (digits32 k n) = k.
Proof. revert n. induction k; intros; simpl; [done|]. rewrite length_app, IHk. simpl. lia. Qed.

Lemma digits32_range k n : Forall (λ d, 0 ≤ d < 32) (digits32 k n).
Proof.
  revert n. induction k; intros; simpl; [constructor|].
  apply Forall_app. split; [done|]. constructor; [|constructor].
  apply Z.mod_pos_bound. lia.
Qed.

Lemma digits32_inj k n m :
  0 ≤ n < 32 ^ Z.of_nat k → 0 ≤ m < 32 ^ Z.of_nat k →
  digits32 k n = digits32 k m → n = m.
Proof.
  revert n m. induction k as [|k IH]; intros n m Hn Hm Heq; [simpl in *; lia|].
  rewrite Nat2Z.inj_succ, Z.pow_succ_r in Hn, Hm by lia.
  simpl in Heq. apply app_inj_tail in Heq as [Hd Hr].
  apply IH in Hd; [|split; [apply Z.div_pos; lia|apply Z.div_lt_upper_bound; lia]..].
  rewrite (Z.div_mod n 32), (Z.div_mod m 32) by lia. congruence.
Qed.

Lemma alphabet_char_spec d :
  0 ≤ d < 32 → ContainsRune IDAlphabet (alphabet_char d) = true ∧ is_byte (alphabet_char d).
Proof.
  intros Hd. assert (Hc : ∃ n, d = Z.of_nat n ∧ (n < 32)%nat) by (exists (Z.to_nat d); lia).
  destruct Hc as (n & -> & Hn). unfold is_byte.
  do 32 (destruct n as [|n]; [vm_compute; split; [done|split; congruence]|]). lia.
Qed.

Lemma alphabet_char_inj d e :
  0 ≤ d < 32 → 0 ≤ e < 32 → alphabet_char d = alphabet_char e → d = e.
Proof.
  intros Hd He Heq.
  assert (Hnd : NoDup (bytes IDAlphabet)) by (apply (bool_decide_unpack _); vm_compute; done).
  assert (Hlk : ∀ x, 0 ≤ x < 32 → bytes IDAlphabet !! Z.to_nat x = Some (alphabet_char x)).
  { intros x Hx. unfold alphabet_char.
    destruct (lookup_lt_is_Some_2 (bytes IDAlphabet) (Z.to_nat x)) as [y ->]; [|done].
    rewrite length_bytes. change (String.length IDAlphabet) with 32%nat. lia. }
  assert (Z.to_nat d = Z.to_nat e); [|lia].
  eapply NoDup_lookup; [exact Hnd|apply Hlk; lia|rewrite Heq; apply Hlk; lia].
Qed.

Lemma foldl_be_int l a : foldl (λ acc b, acc * 256 + b) a l = a * 256 ^ Z.of_nat (length l) + be_int l.
Proof.
  unfold be_int. revert a. induction l as [|b l IH]; intros; cbn [foldl length]; [lia|].
  rewrite (IH (a * 256 + b)), (IH (0 * 256 + b)), Nat2Z.inj_succ, Z.pow_succ_r by lia. ring.
Qed.

Lemma be_int_cons b l : be_int (b :: l) = b * 256 ^ Z.of_nat (length l) + be_int l.
Proof. unfold be_int at 1. cbn [foldl]. rewrite foldl_be_int. ring. Qed.

Lemma be_int_range l : Forall is_byte l → 0 ≤ be_int l < 256 ^ Z.of_nat (length l).
Proof.
  induction 1 as [|b l Hb _ IH]; [done|].
  rewrite be_int_cons. cbn [length]. rewrite Nat2Z.inj_succ, Z.pow_succ_r by lia.
  unfold is_byte in Hb. nia.
Qed.

Lemma be_int_inj l1 l2 :
  Forall is_byte l1 → Forall is_byte l2 → length l1 = length l2 →
  be_int l1 = be_int l2 → l1 = l2.
Proof.
  intros H1. revert l2. induction H1 as [|b l Hb Hl IH]; intros l2 H2 Hlen Heq.
  - by destruct l2.
  - destruct H2 as [|c l2 Hc Hl2]; [done|]. simpl in Hlen.
    rewrite !be_int_cons in Heq. injection Hlen as Hlen.
    pose proof (be_int_range l Hl). pose proof (be_int_range l2 Hl2).
    rewrite Hlen in *. unfold is_byte in *.
    assert (b = c) by nia. subst c. f_equal. apply IH; [done..|lia].
Qed.

Lemma mark_uuid4_length l : length (mark_uuid4 l) = length l.
Proof. unfold mark_uuid4. by rewrite !length_insert. Qed.

Lemma masked_byte x m k : 0 ≤ m → 0 ≤ k → Z.lor m k < 256 → Z.lor (Z.land x m) k < 256.
Proof.
  intros Hm Hk Hb.
  assert (Hle : Z.lor (Z.land x m) k ≤ Z.lor m k).
  { apply Z.ldiff_le; [apply Z.lor_nonneg; lia|].
    apply Z.bits_inj'. intros n Hn. rewrite Z.ldiff_spec, !Z.lor_spec, Z.land_spec, Z.bits_0.
    by destruct (Z.testbit x n), (Z.testbit m n), (Z.testbit k n). }
  lia.
Qed.

Lemma mark_uuid4_bytes l : Forall is_byte l → Forall is_byte (mark_uuid4 l).
Proof.
  intros Hl. unfold mark_uuid4. repeat apply Forall_insert; try done; unfold is_byte.
  - split; [|by apply masked_byte]. apply Z.lor_nonneg. split; [|lia].
    apply Z.land_nonneg. lia.
  - split; [|by apply masked_byte]. apply Z.lor_nonneg. split; [|lia].
    apply Z.land_nonneg. lia.
Qed.

Section encode16.
Context (l : list Z) (Hn : length l = 16%nat).

Let digits := digits32 26 (be_int l * 2 ^ 2).

Lemma idEncoding_bytes : bytes (idEncoding l) = map alphabet_char digits.
Proof.
  unfold idEncoding. rewrite Hn. change (base32_length 16) with 26%nat.
  change (base32_pad 16) with 2. apply bytes_string_of_bytes.
  apply Forall_map. eapply Forall_impl; [apply digits32_range|].
  intros d Hd. by apply alphabet_char_spec.
Qed.

Lemma idEncoding_valid : IsValidOpaqueID (idEncoding l) = true.
Proof.
  apply IsValidOpaqueID_bytes. split.
  - unfold len. rewrite <-length_bytes, idEncoding_bytes, length_map.
    unfold digits. by rewrite length_digits32.
  - rewrite idEncoding_bytes. apply Forall_map.
    eapply Forall_impl; [apply digits32_range|]. intros d Hd. by apply alphabet_char_spec.
Qed.
End encode16.

Lemma map_alphabet_inj l1 l2 :
  Forall (λ d, 0 ≤ d < 32) l1 → Forall (λ d, 0 ≤ d < 32) l2 →
  map alphabet_char l1 = map alphabet_char l2 → l1 = l2.
Proof.
  intros H1. revert l2. induction H1; intros l2 H2 Heq; destruct H2; try done.
  cbn in Heq. injection Heq as Hh Ht. f_equal; [by apply alphabet_char_inj|auto].
Qed.

Lemma idEncoding_inj l1 l2 :
  Forall is_byte l1 → length l1 = 16%nat → Forall is_byte l2 → length l2 = 16%nat →
  idEncoding l1 = idEncoding l2 → l1 = l2.
Proof.
  intros H1 N1 H2 N2 Heq%(f_equal bytes).
  rewrite !idEncoding_bytes in Heq by done.
  apply map_alphabet_inj in Heq; [|apply digits32_range..].
  pose proof (be_int_range l1 H1) as R1. pose proof (be_int_range l2 H2) as R2.
  rewrite N1 in R1. rewrite N2 in R2.
  change (256 ^ Z.of_nat 16) with (2 ^ 128) in *.
  apply digits32_inj in Heq; [|change (32 ^ Z.of_nat 26) with (2 ^ 130); lia..].
  apply be_int_inj; [done..|congruence|lia].
Qed.

(** ** Theorems *)

(** Every identifier [NewID] returns is accepted by [IsValidOpaqueID], is not
    the zero identifier, and determines the 16 marked bytes it was made from:
    two calls collide only when the random bytes agree on the 122 free bits. *)
Theorem NewID_valid_injective (r1 r2 : list Z) :
  Forall is_byte r1 → length r1 = 16%nat → Forall is_byte r2 → length r2 = 16%nat →
  ID_IsValid (NewID r1) = true ∧ ID_IsZero (NewID r1) = false ∧
  (NewID r1 = NewID r2 ↔ mark_uuid4 r1 = mark_uuid4 r2).
Proof.
  intros H1 N1 H2 N2.
  assert (Hv : ID_IsValid (NewID r1) = true).
  { apply idEncoding_valid. by rewrite mark_uuid4_length. }
  split_and!; [done|by apply ID_not_zero_valid|].
  split; [|unfold NewID; congruence]. unfold NewID.
  apply idEncoding_inj; auto using mark_uuid4_bytes; by rewrite mark_uuid4_length.
Qed.

Lemma NewID_valid_injective_witness :
  ID_IsValid (NewID (replicate 16 7)) = true ∧ ID_IsZero (NewID (replicate 16 7)) = false ∧
  (NewID (replicate 16 7) = NewID (replicate 16 255)
   ↔ mark_uuid4 (replicate 16 7) = mark_uuid4 (replicate 16 255)).
Proof.
  apply NewID_valid_injective; [|reflexivity| |reflexivity];
    repeat constructor; unfold is_byte; lia.
Defined.

(** Identifiers the witnesses of the entities use. *)
Definition sample_id : ID := "ybndrfg8ejkmcpqxot1uwisza3".
Definition sample_revision_id : ID := "yyyyyyyyyyyyyyyyyyyyyyyyyy".
