(* ===== verification/ModelError.v ===== *)
(** * Domain validation errors

    Models [server/model/validation_error.go]: the construction, rendering and
    wrapping of [ValidationError]. *)

From S2P Require Import Prelude.

(** [invalidModelError]; the [where] argument of the source is not serialized
    and is left out. *)
Definition invalidModelError (modelName field reason details : string) : error :=
  let code := if field ==? "" then "model." +:+ modelName +:+ ".is_valid.app_error"
              else "model." +:+ modelName +:+ ".is_valid." +:+ field +:+ ".app_error" in
  ValidationError code field reason details modelName None.
#[global] Arguments invalidModelError : simpl never.

(** Resource and constraint names, which need no escape in quotes. *)
Definition quote_name (s : string) : string :=
  String (ascii_of_nat 34) s +:+ String (ascii_of_nat 34) EmptyString.

(** [ValidationError.Error] and, for the other errors, their own text. *)
Fixpoint Error (e : error) : string :=
  match e with
  | ValidationError code _ reason details _ cause =>
      code
      +:+ (if reason ==? "" then "" else ": " +:+ reason)
      +:+ (if details ==? "" then "" else " (" +:+ details +:+ ")")
      +:+ match cause with None => "" | Some c => ": " +:+ Error c end
  | SentinelError message => message
  | MetadataCapacityError _ _ _ _ => "delivery metadata capacity is exhausted"
  | AppError code _ cause => code +:+ match cause with None => "" | Some c => ": " +:+ Error c end
  | StoreError kind entity detail _ =>
      let resource := "resource " +:+ quote_name entity in
      match kind with
      | ErrNotFound => resource +:+ " not found: " +:+ detail
      | ErrConflict =>
          if detail ==? "" then resource +:+ " conflicts with existing state"
          else resource +:+ " conflicts with constraint " +:+ quote_name detail
      | ErrReference => resource +:+ " has an invalid reference (" +:+ detail +:+ ")"
      | ErrInvalidInput => "invalid input: entity=" +:+ entity +:+ " field=" +:+ detail
      | ErrIdempotencyConflict => "idempotency key conflicts with another command"
      | ErrIdempotencyInProgress => "idempotent command is still in progress"
      end
  | WrappedError message cause => message +:+ ": " +:+ Error cause
  | PersistedStateError entity field _ =>
      "sqlstore: invalid persisted state: entity=" +:+ entity +:+ " field=" +:+ field
  end.

Definition Unwrap (e : error) : option error :=
  match e with
  | ValidationError _ _ _ _ _ cause | AppError _ _ cause | StoreError _ _ _ cause => cause
  | WrappedError _ cause | PersistedStateError _ _ cause => Some cause
  | SentinelError _ | MetadataCapacityError _ _ _ _ => None
  end.
Definition ErrorCode (e : error) : string :=
  match e with ValidationError code _ _ _ _ _ => code | _ => "" end.

(** The client-safe structured context: the named field, when there is one. *)
Definition SafeFields (e : error) : option string :=
  match e with
  | ValidationError _ field _ _ _ _ => if field ==? "" then None else Some field
  | _ => None
  end.

(** [errors.As(err, &inner)] for a pointer to [ValidationError]: the first one of
    the unwrap chain. *)
Fixpoint As_ValidationError (e : error) : option error :=
  match e with
  | ValidationError _ _ _ _ _ _ => Some e
  | AppError _ _ (Some cause) | StoreError _ _ _ (Some cause) => As_ValidationError cause
  | WrappedError _ cause | PersistedStateError _ _ cause => As_ValidationError cause
  | _ => None
  end.

(** [ValidationError.wrap]; only validation errors have the method. *)
Definition wrap (e cause : error) : error :=
  match e with
  | ValidationError code field reason details model _ =>
      let field' :=
        match As_ValidationError cause with
        | Some (ValidationError _ inner _ _ _ _) =>
            if (field ==? "") && (inner !=? "") then inner else field
        | _ => field
        end in
      ValidationError code field' reason details model (Some cause)
  | _ => e
  end.
