(* ===== verification/ExamSitting.v ===== *)
(** * Exam Sittings

    Models [server/model/exam_sitting.go]: the lifecycle of one scheduled
    delivery of an Exam Revision to a Class.  The entity is a record, its
    string-typed state and reason are inductive types with a constructor for
    the values outside the vocabulary, and each method with a pointer receiver
    is a [Method]: it returns the pointee's final value with its result. *)

From S2P Require Import Prelude GoTime GoStrings Ident ModelError.

(** ** Data *)

Inductive ExamSittingState :=
  | ExamSittingScheduled
  | ExamSittingOpen
  | ExamSittingPaused
  | ExamSittingClosing
  | ExamSittingClosed
  | ExamSittingCanceled
  | ExamSittingState_other (raw : string).
#[global] Instance ExamSittingState_eq_dec : EqDecision ExamSittingState.
Proof. solve_decision. Defined.

Definition ExamSittingState_IsValid (s : ExamSittingState) : bool :=
  match s with
  | ExamSittingScheduled | ExamSittingOpen | ExamSittingPaused | ExamSittingClosing
  | ExamSittingClosed | ExamSittingCanceled => true
  | _ => false
  end.

Definition AllowsCandidateAdmission (s : ExamSittingState) : bool := s ==? ExamSittingOpen.
Definition AllowsCandidateMutation (s : ExamSittingState) : bool := s ==? ExamSittingOpen.
Definition AllowsProtectedPresentation (s : ExamSittingState) : bool :=
  (s ==? ExamSittingOpen) || (s ==? ExamSittingPaused).
Definition RequiresIntegrityMonitoring (s : ExamSittingState) : bool :=
  (s ==? ExamSittingOpen) || (s ==? ExamSittingPaused).

Inductive ExamSittingReasonCode :=
  | ExamSittingReasonManagerCanceled
  | ExamSittingReasonScheduleElapsed
  | ExamSittingReasonAcademicStructureInvalid
  | ExamSittingReasonManagerClosed
  | ExamSittingReasonScheduledEndReached
  | ExamSittingReason_other (raw : string).
#[global] Instance ExamSittingReasonCode_eq_dec : EqDecision ExamSittingReasonCode.
Proof. solve_decision. Defined.

(** The empty reason, [""]. *)
Definition noReason : ExamSittingReasonCode := ExamSittingReason_other "".

Definition ReasonCode_IsValid (r : ExamSittingReasonCode) : bool :=
  match r with ExamSittingReason_other _ => false | _ => true end.
Definition isCancellation (r : ExamSittingReasonCode) : bool :=
  (r ==? ExamSittingReasonManagerCanceled) || (r ==? ExamSittingReasonScheduleElapsed)
  || (r ==? ExamSittingReasonAcademicStructureInvalid).
Definition isClosing (r : ExamSittingReasonCode) : bool :=
  (r ==? ExamSittingReasonManagerClosed) || (r ==? ExamSittingReasonScheduledEndReached).

Record ExamSitting := mkExamSitting {
  es_ID : ID;
  es_ExamID : ID;
  es_ExamRevisionID : ID;
  es_ClassID : ID;
  es_ScheduledStartAt : Time;
  es_ScheduledEndAt : Time;
  es_State : ExamSittingState;
  es_CreatedAt : Time;
  es_UpdatedAt : Time;
  es_OpenedAt : OptionalTime;
  es_PausedAt : OptionalTime;
  es_ClosingAt : OptionalTime;
  es_ClosedAt : OptionalTime;
  es_CanceledAt : OptionalTime;
  es_ReasonCode : ExamSittingReasonCode;
  es_Revision : Z }.

#[global] Instance ExamSitting_eta : Eta ExamSitting := λ r,
  mkExamSitting (es_ID r) (es_ExamID r) (es_ExamRevisionID r) (es_ClassID r)
    (es_ScheduledStartAt r) (es_ScheduledEndAt r) (es_State r) (es_CreatedAt r)
    (es_UpdatedAt r) (es_OpenedAt r) (es_PausedAt r) (es_ClosingAt r) (es_ClosedAt r)
    (es_CanceledAt r) (es_ReasonCode r) (es_Revision r).

(** ** Operations *)

Definition validExamSittingLifecycleTime (value : OptionalTime) (notBefore notAfter : Time) : bool :=
  ot_Valid value && negb (Time_IsZero (ot_Time value)) && (t_loc (ot_Time value) ==? UTC)
  && negb (Time_Before (ot_Time value) notBefore) && negb (Time_After (ot_Time value) notAfter).

Definition examSittingTransitionTime (notBefore at_ : Time) : Time :=
  let at_ := TimeUTC at_ in
  if Time_Before at_ notBefore then notBefore else at_.

Definition es_error (field reason : string) (s : ExamSitting) : error :=
  invalidModelError "exam_sitting" field reason ("id=" +:+ es_ID s).
Definition es_nil : error := invalidModelError "exam_sitting" "value" "is required" "".

(** The [switch] of [Validate]: the lifecycle fields each state requires, and
    the reason given when they do not match. *)
Definition es_lifecycle_ok (s : ExamSitting) : bool :=
  match es_State s with
  | ExamSittingScheduled =>
      negb (ot_Valid (es_OpenedAt s) || ot_Valid (es_PausedAt s) || ot_Valid (es_ClosingAt s)
            || ot_Valid (es_ClosedAt s) || ot_Valid (es_CanceledAt s) || (es_ReasonCode s !=? noReason))
  | ExamSittingOpen =>
      negb (negb (validExamSittingLifecycleTime (es_OpenedAt s) (es_CreatedAt s) (es_UpdatedAt s))
            || ot_Valid (es_PausedAt s) || ot_Valid (es_ClosingAt s) || ot_Valid (es_ClosedAt s)
            || ot_Valid (es_CanceledAt s) || (es_ReasonCode s !=? noReason))
  | ExamSittingPaused =>
      negb (negb (validExamSittingLifecycleTime (es_OpenedAt s) (es_CreatedAt s) (es_UpdatedAt s))
            || negb (validExamSittingLifecycleTime (es_PausedAt s) (ot_Time (es_OpenedAt s)) (es_UpdatedAt s))
            || ot_Valid (es_ClosingAt s) || ot_Valid (es_ClosedAt s) || ot_Valid (es_CanceledAt s)
            || (es_ReasonCode s !=? noReason))
  | ExamSittingClosing =>
      negb (negb (validExamSittingLifecycleTime (es_OpenedAt s) (es_CreatedAt s) (es_UpdatedAt s))
            || negb (validExamSittingLifecycleTime (es_ClosingAt s) (ot_Time (es_OpenedAt s)) (es_UpdatedAt s))
            || ot_Valid (es_PausedAt s) || ot_Valid (es_ClosedAt s) || ot_Valid (es_CanceledAt s)
            || negb (isClosing (es_ReasonCode s)))
  | ExamSittingClosed =>
      negb (negb (validExamSittingLifecycleTime (es_OpenedAt s) (es_CreatedAt s) (es_UpdatedAt s))
            || negb (validExamSittingLifecycleTime (es_ClosingAt s) (ot_Time (es_OpenedAt s)) (es_UpdatedAt s))
            || negb (validExamSittingLifecycleTime (es_ClosedAt s) (ot_Time (es_ClosingAt s)) (es_UpdatedAt s))
            || ot_Valid (es_PausedAt s) || ot_Valid (es_CanceledAt s)
            || negb (isClosing (es_ReasonCode s)))
  | ExamSittingCanceled =>
      negb (ot_Valid (es_OpenedAt s) || ot_Valid (es_PausedAt s) || ot_Valid (es_ClosingAt s)
            || ot_Valid (es_ClosedAt s) || negb (ot_Valid (es_CanceledAt s))
            || Time_IsZero (ot_Time (es_CanceledAt s)) || (t_loc (ot_Time (es_CanceledAt s)) !=? UTC)
            || Time_Before (ot_Time (es_CanceledAt s)) (es_CreatedAt s)
            || Time_After (ot_Time (es_CanceledAt s)) (es_UpdatedAt s)
            || negb (isCancellation (es_ReasonCode s)))
  | ExamSittingState_other _ => true
  end.

Definition es_lifecycle_reason (st : ExamSittingState) : string :=
  match st with
  | ExamSittingScheduled => "does not match scheduled state"
  | ExamSittingOpen => "does not match open state"
  | ExamSittingPaused => "does not match paused state"
  | ExamSittingClosing => "does not match closing state"
  | ExamSittingClosed => "does not match closed state"
  | ExamSittingCanceled => "does not match canceled state"
  | ExamSittingState_other _ => ""
  end.

Definition ExamSitting_Validate (p : option ExamSitting) : result unit :=
  match p with
  | None => Err es_nil
  | Some s =>
      fail_if negb (ID_IsValid (es_ID s)) || negb (ID_IsValid (es_ExamID s))
              || negb (ID_IsValid (es_ExamRevisionID s)) || negb (ID_IsValid (es_ClassID s))
        with invalidModelError "exam_sitting" "identity" "must contain valid identifiers" "" ;;
      fail_if negb (ExamSittingState_IsValid (es_State s)) with es_error "state" "must be valid" s ;;
      fail_if Time_IsZero (es_ScheduledStartAt s) || Time_IsZero (es_ScheduledEndAt s)
              || negb (Time_Before (es_ScheduledStartAt s) (es_ScheduledEndAt s))
        with es_error "schedule" "must be a nonempty half-open interval" s ;;
      fail_if (t_loc (es_ScheduledStartAt s) !=? UTC) || (t_loc (es_ScheduledEndAt s) !=? UTC)
              || (t_loc (es_CreatedAt s) !=? UTC) || (t_loc (es_UpdatedAt s) !=? UTC)
        with es_error "timestamps" "must use UTC" s ;;
      fail_if Time_IsZero (es_CreatedAt s) || Time_IsZero (es_UpdatedAt s)
              || Time_Before (es_UpdatedAt s) (es_CreatedAt s)
        with es_error "timestamps" "must be ordered and nonzero" s ;;
      fail_if negb (es_lifecycle_ok s) with es_error "lifecycle" (es_lifecycle_reason (es_State s)) s ;;
      fail_if es_Revision s <? 1 with es_error "revision" "must be positive" s ;;
      Ok tt
  end.

#[global] Arguments ExamSitting_Validate : simpl never.

Definition NewExamSitting (id examID examRevisionID classID : ID)
    (scheduledStartAt scheduledEndAt at_ : Time) : result ExamSitting :=
  let sitting := mkExamSitting id examID examRevisionID classID
    (TimeUTC scheduledStartAt) (TimeUTC scheduledEndAt) ExamSittingScheduled
    (TimeUTC at_) (TimeUTC at_) noTime noTime noTime noTime noTime noReason 1 in
  _ ← ExamSitting_Validate (Some sitting);
  Ok sitting.

Definition ExamSitting_applyLifecycleCandidate (candidate : ExamSitting) : Method ExamSitting unit :=
  _ ← try (ExamSitting_Validate (Some candidate));
  assign candidate.

Definition ExamSitting_ApplySchedule (examRevisionID classID : ID)
    (scheduledStartAt scheduledEndAt at_ : Time) : Method ExamSitting bool :=
  s ← deref es_nil;
  fail_if es_State s !=? ExamSittingScheduled with es_error "state" "must be scheduled" s ;;
  let scheduledStartAt := TimeUTC scheduledStartAt in
  let scheduledEndAt := TimeUTC scheduledEndAt in
  if (es_ExamRevisionID s ==? examRevisionID) && (es_ClassID s ==? classID)
     && (es_ScheduledStartAt s ==? scheduledStartAt) && (es_ScheduledEndAt s ==? scheduledEndAt)
  then mret false
  else
    let candidate := s <| es_ExamRevisionID := examRevisionID |> <| es_ClassID := classID |>
                       <| es_ScheduledStartAt := scheduledStartAt |>
                       <| es_ScheduledEndAt := scheduledEndAt |>
                       <| es_UpdatedAt := TimeUTC at_ |> in
    let candidate := if Time_Before (es_UpdatedAt candidate) (es_UpdatedAt s)
                     then candidate <| es_UpdatedAt := es_UpdatedAt s |> else candidate in
    let candidate := candidate <| es_Revision := int64_succ (es_Revision candidate) |> in
    _ ← try (ExamSitting_Validate (Some candidate));
    _ ← assign candidate;
    mret true.

Definition ExamSitting_Cancel (reason : ExamSittingReasonCode) (at_ : Time) : Method ExamSitting unit :=
  s ← deref es_nil;
  fail_if es_State s !=? ExamSittingScheduled with es_error "state" "must be scheduled" s ;;
  fail_if negb (isCancellation reason) with es_error "reason_code" "must be candidate-safe" s ;;
  let candidate := s <| es_State := ExamSittingCanceled |> <| es_ReasonCode := reason |>
                     <| es_CanceledAt := OptionalTimeFrom at_ |> <| es_UpdatedAt := TimeUTC at_ |> in
  let candidate := if Time_Before (es_UpdatedAt candidate) (es_UpdatedAt s)
                   then candidate <| es_UpdatedAt := es_UpdatedAt s |>
                                  <| es_CanceledAt := OptionalTimeFrom (es_UpdatedAt s) |>
                   else candidate in
  let candidate := candidate <| es_Revision := int64_succ (es_Revision candidate) |> in
  _ ← try (ExamSitting_Validate (Some candidate));
  assign candidate.

Definition ExamSitting_Open (at_ : Time) : Method ExamSitting unit :=
  s ← deref es_nil;
  fail_if es_State s !=? ExamSittingScheduled with es_error "state" "must be scheduled" s ;;
  let opened := OptionalTimeFrom (examSittingTransitionTime (es_UpdatedAt s) at_) in
  ExamSitting_applyLifecycleCandidate
    (s <| es_State := ExamSittingOpen |> <| es_OpenedAt := opened |>
       <| es_UpdatedAt := ot_Time opened |> <| es_Revision := int64_succ (es_Revision s) |>).

Definition ExamSitting_Pause (at_ : Time) : Method ExamSitting unit :=
  s ← deref es_nil;
  fail_if es_State s !=? ExamSittingOpen with es_error "state" "must be open" s ;;
  let paused := OptionalTimeFrom (examSittingTransitionTime (es_UpdatedAt s) at_) in
  ExamSitting_applyLifecycleCandidate
    (s <| es_State := ExamSittingPaused |> <| es_PausedAt := paused |>
       <| es_UpdatedAt := ot_Time paused |> <| es_Revision := int64_succ (es_Revision s) |>).

Definition ExamSitting_Resume (at_ : Time) : Method ExamSitting unit :=
  s ← deref es_nil;
  fail_if es_State s !=? ExamSittingPaused with es_error "state" "must be paused" s ;;
  ExamSitting_applyLifecycleCandidate
    (s <| es_State := ExamSittingOpen |> <| es_PausedAt := noTime |>
       <| es_UpdatedAt := examSittingTransitionTime (es_UpdatedAt s) at_ |>
       <| es_Revision := int64_succ (es_Revision s) |>).

Definition ExamSitting_ExtendEnd (endAt at_ : Time) : Method ExamSitting unit :=
  s ← deref es_nil;
  fail_if (es_State s !=? ExamSittingOpen) && (es_State s !=? ExamSittingPaused)
    with es_error "state" "must be open or paused" s ;;
  let endAt := TimeUTC endAt in
  fail_if negb (Time_After endAt (es_ScheduledEndAt s))
    with es_error "scheduled_end_at" "must extend the current deadline" s ;;
  ExamSitting_applyLifecycleCandidate
    (s <| es_ScheduledEndAt := endAt |>
       <| es_UpdatedAt := examSittingTransitionTime (es_UpdatedAt s) at_ |>
       <| es_Revision := int64_succ (es_Revision s) |>).

Definition ExamSitting_RetargetRevision (revisionID : ID) (at_ : Time) : Method ExamSitting unit :=
  s ← deref es_nil;
  fail_if (es_State s !=? ExamSittingOpen) && (es_State s !=? ExamSittingPaused)
    with es_error "state" "must be open or paused" s ;;
  fail_if negb (ID_IsValid revisionID) || (revisionID ==? es_ExamRevisionID s)
    with es_error "exam_revision_id" "must identify a different valid Revision" s ;;
  ExamSitting_applyLifecycleCandidate
    (s <| es_ExamRevisionID := revisionID |>
       <| es_UpdatedAt := examSittingTransitionTime (es_UpdatedAt s) at_ |>
       <| es_Revision := int64_succ (es_Revision s) |>).

Definition ExamSitting_EnterClosing (reason : ExamSittingReasonCode) (at_ : Time) : Method ExamSitting unit :=
  s ← deref es_nil;
  fail_if (es_State s !=? ExamSittingOpen) && (es_State s !=? ExamSittingPaused)
    with es_error "state" "must be open or paused" s ;;
  fail_if negb (isClosing reason) with es_error "reason_code" "must be a closing reason" s ;;
  let closing := OptionalTimeFrom (examSittingTransitionTime (es_UpdatedAt s) at_) in
  ExamSitting_applyLifecycleCandidate
    (s <| es_State := ExamSittingClosing |> <| es_PausedAt := noTime |>
       <| es_ClosingAt := closing |> <| es_UpdatedAt := ot_Time closing |>
       <| es_ReasonCode := reason |> <| es_Revision := int64_succ (es_Revision s) |>).

Definition ExamSitting_Close (at_ : Time) : Method ExamSitting unit :=
  s ← deref es_nil;
  fail_if es_State s !=? ExamSittingClosing with es_error "state" "must be closing" s ;;
  let closed := OptionalTimeFrom (examSittingTransitionTime (es_UpdatedAt s) at_) in
  ExamSitting_applyLifecycleCandidate
    (s <| es_State := ExamSittingClosed |> <| es_ClosedAt := closed |>
       <| es_UpdatedAt := ot_Time closed |> <| es_Revision := int64_succ (es_Revision s) |>).

(** ** Specification of a valid sitting *)

Definition absent (o : OptionalTime) : Prop := ot_Valid o = false.
Definition recorded_between (o : OptionalTime) (lo hi : Time) : Prop :=
  ot_Valid o = true ∧ t_ns (ot_Time o) ≠ 0 ∧ t_loc (ot_Time o) = UTC ∧
  t_ns lo ≤ t_ns (ot_Time o) ≤ t_ns hi.

Definition cancellation_reason (r : ExamSittingReasonCode) : Prop :=
  r = ExamSittingReasonManagerCanceled ∨ r = ExamSittingReasonScheduleElapsed ∨
  r = ExamSittingReasonAcademicStructureInvalid.
Definition closing_reason (r : ExamSittingReasonCode) : Prop :=
  r = ExamSittingReasonManagerClosed ∨ r = ExamSittingReasonScheduledEndReached.

(** Which lifecycle instants and which reason a sitting in each state holds. *)
Definition sitting_lifecycle (s : ExamSitting) : Prop :=
  let opened := recorded_between (es_OpenedAt s) (es_CreatedAt s) (es_UpdatedAt s) in
  let closing := recorded_between (es_ClosingAt s) (ot_Time (es_OpenedAt s)) (es_UpdatedAt s) in
  match es_State s with
  | ExamSittingScheduled =>
      absent (es_OpenedAt s) ∧ absent (es_PausedAt s) ∧ absent (es_ClosingAt s) ∧
      absent (es_ClosedAt s) ∧ absent (es_CanceledAt s) ∧ es_ReasonCode s = noReason
  | ExamSittingOpen =>
      opened ∧ absent (es_PausedAt s) ∧ absent (es_ClosingAt s) ∧
      absent (es_ClosedAt s) ∧ absent (es_CanceledAt s) ∧ es_ReasonCode s = noReason
  | ExamSittingPaused =>
      opened ∧ recorded_between (es_PausedAt s) (ot_Time (es_OpenedAt s)) (es_UpdatedAt s) ∧
      absent (es_ClosingAt s) ∧ absent (es_ClosedAt s) ∧ absent (es_CanceledAt s) ∧
      es_ReasonCode s = noReason
  | ExamSittingClosing =>
      opened ∧ closing ∧ absent (es_PausedAt s) ∧ absent (es_ClosedAt s) ∧
      absent (es_CanceledAt s) ∧ closing_reason (es_ReasonCode s)
  | ExamSittingClosed =>
      opened ∧ closing ∧
      recorded_between (es_ClosedAt s) (ot_Time (es_ClosingAt s)) (es_UpdatedAt s) ∧
      absent (es_PausedAt s) ∧ absent (es_CanceledAt s) ∧ closing_reason (es_ReasonCode s)
  | ExamSittingCanceled =>
      absent (es_OpenedAt s) ∧ absent (es_PausedAt s) ∧ absent (es_ClosingAt s) ∧
      absent (es_ClosedAt s) ∧
      recorded_between (es_CanceledAt s) (es_CreatedAt s) (es_UpdatedAt s) ∧
      cancellation_reason (es_ReasonCode s)
  | ExamSittingState_other _ => False
  end.

Record ExamSittingValid (s : ExamSitting) : Prop := {
  esv_ids : ID_IsValid (es_ID s) = true ∧ ID_IsValid (es_ExamID s) = true ∧
            ID_IsValid (es_ExamRevisionID s) = true ∧ ID_IsValid (es_ClassID s) = true;
  esv_schedule : t_ns (es_ScheduledStartAt s) ≠ 0 ∧ t_ns (es_ScheduledEndAt s) ≠ 0 ∧
                 t_ns (es_ScheduledStartAt s) < t_ns (es_ScheduledEndAt s);
  esv_utc : t_loc (es_ScheduledStartAt s) = UTC ∧ t_loc (es_ScheduledEndAt s) = UTC ∧
            t_loc (es_CreatedAt s) = UTC ∧ t_loc (es_UpdatedAt s) = UTC;
  esv_stamps : t_ns (es_CreatedAt s) ≠ 0 ∧ t_ns (es_UpdatedAt s) ≠ 0 ∧
               t_ns (es_CreatedAt s) ≤ t_ns (es_UpdatedAt s);
  esv_lifecycle : sitting_lifecycle s;
  esv_revision : 1 ≤ es_Revision s }.

(** ** Lemmas *)

Lemma isClosing_spec r : isClosing r = true ↔ closing_reason r.
Proof. unfold isClosing, closing_reason. to_prop. tauto. Qed.
Lemma isCancellation_spec r : isCancellation r = true ↔ cancellation_reason r.
Proof. unfold isCancellation, cancellation_reason. to_prop. tauto. Qed.

Lemma validExamSittingLifecycleTime_spec o lo hi :
  validExamSittingLifecycleTime o lo hi = true ↔ recorded_between o lo hi.
Proof. unfold validExamSittingLifecycleTime, recorded_between. to_prop. tauto. Qed.

Lemma es_lifecycle_ok_spec s :
  ExamSittingState_IsValid (es_State s) = true →
  es_lifecycle_ok s = true ↔ sitting_lifecycle s.
Proof.
  intros Hv. unfold es_lifecycle_ok, sitting_lifecycle, absent.
  destruct (es_State s); try done;
    repeat (rewrite ?negb_true_iff, ?orb_false_iff, ?negb_false_iff);
    rewrite ?validExamSittingLifecycleTime_spec, ?isClosing_spec, ?isCancellation_spec,
      ?bool_decide_eq_true;
    try tauto.
  unfold recorded_between. to_prop. tauto.
Qed.

Lemma ExamSitting_Validate_spec s :
  ExamSitting_Validate (Some s) = Ok tt ↔ ExamSittingValid s.
Proof.
  unfold ExamSitting_Validate. rewrite !ok_fail_if. to_prop. split.
  - intros H. split; [tauto..| |lia]. apply es_lifecycle_ok_spec; tauto.
  - intros [Hi Hs Hu Ht Hl Hr].
    assert (Hv : ExamSittingState_IsValid (es_State s) = true).
    { unfold sitting_lifecycle in Hl. by destruct (es_State s). }
    apply es_lifecycle_ok_spec in Hl; [|done]. intuition (congruence || lia).
Qed.

(** ** The operations as one transition system *)

Inductive SittingOp :=
  | OpApplySchedule (examRevisionID classID : ID) (scheduledStartAt scheduledEndAt at_ : Time)
  | OpCancel (reason : ExamSittingReasonCode) (at_ : Time)
  | OpOpen (at_ : Time)
  | OpPause (at_ : Time)
  | OpResume (at_ : Time)
  | OpExtendEnd (endAt at_ : Time)
  | OpRetargetRevision (revisionID : ID) (at_ : Time)
  | OpEnterClosing (reason : ExamSittingReasonCode) (at_ : Time)
  | OpClose (at_ : Time).

Definition run_sitting_op (op : SittingOp) : Method ExamSitting unit :=
  match op with
  | OpApplySchedule r c st en at_ => _ ← ExamSitting_ApplySchedule r c st en at_; mret tt
  | OpCancel reason at_ => ExamSitting_Cancel reason at_
  | OpOpen at_ => ExamSitting_Open at_
  | OpPause at_ => ExamSitting_Pause at_
  | OpResume at_ => ExamSitting_Resume at_
  | OpExtendEnd endAt at_ => ExamSitting_ExtendEnd endAt at_
  | OpRetargetRevision r at_ => ExamSitting_RetargetRevision r at_
  | OpEnterClosing reason at_ => ExamSitting_EnterClosing reason at_
  | OpClose at_ => ExamSitting_Close at_
  end.

Definition sitting_step (s s' : ExamSitting) : Prop :=
  ∃ op, run_sitting_op op (Some s) = (Some s', Ok tt).

Definition sitting_initial (s : ExamSitting) : Prop :=
  ∃ id exam revision class st en at_,
    NewExamSitting id exam revision class st en at_ = Ok s.

Definition sitting_reachable (s : ExamSitting) : Prop :=
  ∃ s0, sitting_initial s0 ∧ rtc sitting_step s0 s.

Ltac unfold_sitting_op :=
  unfold run_sitting_op, ExamSitting_ApplySchedule, ExamSitting_Cancel, ExamSitting_Open,
    ExamSitting_Pause, ExamSitting_Resume, ExamSitting_ExtendEnd, ExamSitting_RetargetRevision,
    ExamSitting_EnterClosing, ExamSitting_Close, ExamSitting_applyLifecycleCandidate in *.

(** Invert one successful run of an operation. *)
Ltac sitting_cases H := unfold_sitting_op; inv_run H; split_ifs.

(** *** Instants *)

(** Every instant of the sitting is in the form [TimeUTC] gives. *)
Record sitting_normalized (s : ExamSitting) : Prop := {
  esn_start : normalized (es_ScheduledStartAt s);
  esn_end : normalized (es_ScheduledEndAt s);
  esn_created : normalized (es_CreatedAt s);
  esn_updated : normalized (es_UpdatedAt s);
  esn_opened : normalized_opt (es_OpenedAt s);
  esn_paused : normalized_opt (es_PausedAt s);
  esn_closing : normalized_opt (es_ClosingAt s);
  esn_closed : normalized_opt (es_ClosedAt s);
  esn_canceled : normalized_opt (es_CanceledAt s) }.

Lemma transition_normalized nb at_ :
  normalized nb → normalized (examSittingTransitionTime nb at_).
Proof. intros. unfold examSittingTransitionTime. by destruct (Time_Before _ _). Qed.

Lemma transition_ge nb at_ : t_ns nb ≤ t_ns (examSittingTransitionTime nb at_).
Proof.
  unfold examSittingTransitionTime. destruct (Time_Before _ _) eqn:E; to_prop; lia.
Qed.

Lemma transition_TimeUTC nb at_ :
  normalized nb →
  TimeUTC (examSittingTransitionTime nb at_) = examSittingTransitionTime nb at_.
Proof. intros. by apply normalized_TimeUTC, transition_normalized. Qed.

Lemma transition_loc nb at_ :
  normalized nb → t_loc (examSittingTransitionTime nb at_) = UTC.
Proof. intros. by apply transition_normalized. Qed.

#[export] Hint Resolve transition_normalized transition_ge transition_loc : core.

(** *** Invariant *)

Record sitting_inv (s : ExamSitting) : Prop := {
  esi_valid : ExamSittingValid s;
  esi_normalized : sitting_normalized s;
  esi_int64 : in_int64 (es_Revision s) }.

Lemma sitting_initial_inv s : sitting_initial s → sitting_inv s.
Proof.
  intros (id & exam & rev & cls & st & en & at_ & H). unfold NewExamSitting in H. inv_run H.
  split; [by apply ExamSitting_Validate_spec|split; simpl; auto|done].
Qed.

Lemma sitting_step_normalized op s s' :
  sitting_normalized s → run_sitting_op op (Some s) = (Some s', Ok tt) → sitting_normalized s'.
Proof.
  intros [] H. destruct op; sitting_cases H; (done || (split; simpl; auto)).
Qed.

Lemma sitting_step_valid op s s' :
  ExamSittingValid s → run_sitting_op op (Some s) = (Some s', Ok tt) → ExamSittingValid s'.
Proof.
  intros Hs H. destruct op; sitting_cases H; (done || by apply ExamSitting_Validate_spec).
Qed.

Lemma sitting_step_int64 op s s' :
  in_int64 (es_Revision s) → run_sitting_op op (Some s) = (Some s', Ok tt) →
  in_int64 (es_Revision s').
Proof.
  intros Hs H. destruct op; sitting_cases H; (done || (simpl; apply int64_succ_in_range)).
Qed.

Lemma sitting_step_inv s s' : sitting_inv s → sitting_step s s' → sitting_inv s'.
Proof.
  intros [] [op H].
  split; eauto using sitting_step_valid, sitting_step_normalized, sitting_step_int64.
Qed.

Lemma sitting_reachable_inv s : sitting_reachable s → sitting_inv s.
Proof.
  intros (s0 & H0 & Hs). apply sitting_initial_inv in H0.
  induction Hs; eauto using sitting_step_inv.
Qed.

(** *** When an operation is enabled *)

Definition sitting_live (s : ExamSitting) : Prop :=
  es_State s = ExamSittingOpen ∨ es_State s = ExamSittingPaused.

(** The guard of each operation, on a sitting that satisfies the invariant. *)
Definition sitting_enabled (op : SittingOp) (s : ExamSitting) : Prop :=
  match op with
  | OpApplySchedule revision class st en _ =>
      es_State s = ExamSittingScheduled ∧
      ID_IsValid revision = true ∧ ID_IsValid class = true ∧
      t_ns (TimeUTC st) ≠ 0 ∧ t_ns (TimeUTC en) ≠ 0 ∧ t_ns (TimeUTC st) < t_ns (TimeUTC en)
  | OpCancel reason _ => es_State s = ExamSittingScheduled ∧ cancellation_reason reason
  | OpOpen _ => es_State s = ExamSittingScheduled
  | OpPause _ => es_State s = ExamSittingOpen
  | OpResume _ => es_State s = ExamSittingPaused
  | OpExtendEnd en _ =>
      sitting_live s ∧ t_ns (es_ScheduledEndAt s) < t_ns (TimeUTC en) ∧ t_ns (TimeUTC en) ≠ 0
  | OpRetargetRevision revision _ =>
      sitting_live s ∧ ID_IsValid revision = true ∧ revision ≠ es_ExamRevisionID s
  | OpEnterClosing reason _ => sitting_live s ∧ closing_reason reason
  | OpClose _ => es_State s = ExamSittingClosing
  end.

(** A run succeeds only when the operation is enabled. *)
Lemma sitting_run_enabled op s s' :
  ExamSittingValid s → run_sitting_op op (Some s) = (Some s', Ok tt) → sitting_enabled op s.
Proof.
  intros Hs H. destruct op; sitting_cases H; cbn [sitting_enabled]; unfold sitting_live;
    try match goal with V : ExamSitting_Validate _ = _ |- _ =>
          apply ExamSitting_Validate_spec in V; destruct V; simpl in * end;
    destruct Hs; to_prop; rewrite ?isCancellation_spec, ?isClosing_spec in *; subst; simpl;
    repeat match goal with H : _ ∧ _ |- _ => destruct H end;
    intuition (try congruence); try lia.
Qed.

(** The validation a run ends with, from the invariant of the state it started
    in: unfold both, and leave linear arithmetic on instants. *)
Ltac sitting_validates :=
  apply ExamSitting_Validate_spec;
  repeat match goal with
  | H : sitting_inv _ |- _ => destruct H
  | H : ExamSittingValid _ |- _ => destruct H
  | H : sitting_normalized _ |- _ => destruct H
  end;
  unfold sitting_lifecycle, recorded_between, absent, OptionalTimeFrom, noTime in *;
  constructor; unfold sitting_lifecycle, recorded_between, absent; simpl;
  repeat match goal with
  | H : es_State _ = _ |- _ => rewrite H in *; clear H
  | |- context [TimeUTC (es_UpdatedAt ?s)] => rewrite (normalized_TimeUTC (es_UpdatedAt s)) by done
  | |- context [TimeUTC (examSittingTransitionTime ?nb ?a)] =>
      rewrite (transition_TimeUTC nb a) by done
  | |- context [examSittingTransitionTime ?nb ?a] =>
      let t := fresh "t" in
      pose proof (transition_ge nb a); assert (t_loc (examSittingTransitionTime nb a) = UTC) by auto;
      set (t := examSittingTransitionTime nb a) in *; clearbody t
  end;
  simpl in *; try done; intuition (auto; try lia; try congruence).

Lemma sitting_enabled_runs op s :
  sitting_inv s → 0 < t_ns (es_CreatedAt s) → es_Revision s ≠ int64_max →
  sitting_enabled op s →
  ∃ s', run_sitting_op op (Some s) = (Some s', Ok tt).
Proof.
  intros Hi Hc Hr He.
  assert (Hrev : 1 ≤ int64_succ (es_Revision s)).
  { rewrite int64_succ_lt; [|by apply Hi|done]. pose proof (esv_revision s (esi_valid s Hi)). lia. }
  destruct op; cbn [sitting_enabled] in He; unfold_sitting_op; unfold sitting_live in *.
  1: destruct He as (He & Hr1 & Hc1 & Hs1 & He1 & Hlt).
  2: destruct He as [He Hrs].
  6: destruct He as (He & Hlt & Hz).
  7: destruct He as (He & Hv & Hne).
  8: destruct He as [He Hrs].
  { destruct ((es_ExamRevisionID s ==? examRevisionID) && (es_ClassID s ==? classID)
     && (es_ScheduledStartAt s ==? TimeUTC scheduledStartAt)
     && (es_ScheduledEndAt s ==? TimeUTC scheduledEndAt)) eqn:Same.
    - exists s. go_run; [by rewrite He|]. rewrite Same. by apply run_ret.
    - eexists. go_run; [by rewrite He|]. rewrite Same. go_run; [|done].
      destruct (Time_Before _ _) eqn:B; simpl in B; to_prop; sitting_validates. }
  { eexists. go_run; [by rewrite He|by apply negb_false_iff, isCancellation_spec|].
    destruct (Time_Before _ _) eqn:B; simpl in B; to_prop; sitting_validates. }
  1,2,3,7: eexists; go_run; [by rewrite He|]; sitting_validates.
  all: eexists; go_run; [by destruct He as [-> | ->]|..].
  2,4,6: destruct He; sitting_validates.
  all: rewrite ?negb_false_iff, ?isClosing_spec; to_prop; auto.
Qed.

(** *** The phases of a sitting *)

(** What a sitting promises, whatever its fields: it waits, runs (open or
    paused), ends, and is then done; or it is dropped before it runs. *)
Inductive SittingPhase := PhaseWaiting | PhaseRunning | PhaseEnding | PhaseDone | PhaseDropped.

Inductive phase_step : SittingPhase → SittingPhase → Prop :=
  | phase_reschedule : phase_step PhaseWaiting PhaseWaiting
  | phase_drop : phase_step PhaseWaiting PhaseDropped
  | phase_start : phase_step PhaseWaiting PhaseRunning
  | phase_continue : phase_step PhaseRunning PhaseRunning
  | phase_end : phase_step PhaseRunning PhaseEnding
  | phase_finish : phase_step PhaseEnding PhaseDone.

Definition sitting_phase (s : ExamSitting) : SittingPhase :=
  match es_State s with
  | ExamSittingScheduled => PhaseWaiting
  | ExamSittingOpen | ExamSittingPaused => PhaseRunning
  | ExamSittingClosing => PhaseEnding
  | ExamSittingClosed => PhaseDone
  | ExamSittingCanceled | ExamSittingState_other _ => PhaseDropped
  end.

(** How a later state of a sitting relates to an earlier one. *)
Record sitting_evolves (s s' : ExamSitting) : Prop := {
  ev_identity : es_ID s' = es_ID s ∧ es_ExamID s' = es_ExamID s ∧ es_CreatedAt s' = es_CreatedAt s;
  ev_updated : t_ns (es_UpdatedAt s) ≤ t_ns (es_UpdatedAt s');
  ev_revision : s' = s ∨ es_Revision s < es_Revision s';
  ev_phase : rtc phase_step (sitting_phase s) (sitting_phase s');
  ev_started : sitting_phase s ≠ PhaseWaiting → sitting_phase s ≠ PhaseDropped →
    es_OpenedAt s' = es_OpenedAt s ∧ es_ClassID s' = es_ClassID s ∧
    es_ScheduledStartAt s' = es_ScheduledStartAt s ∧
    t_ns (es_ScheduledEndAt s) ≤ t_ns (es_ScheduledEndAt s');
  ev_ending : sitting_phase s = PhaseEnding →
    es_ClosingAt s' = es_ClosingAt s ∧ es_ReasonCode s' = es_ReasonCode s ∧
    es_ScheduledEndAt s' = es_ScheduledEndAt s ∧ es_ExamRevisionID s' = es_ExamRevisionID s;
  ev_final : sitting_phase s = PhaseDone ∨ sitting_phase s = PhaseDropped → s' = s }.

Lemma sitting_step_phase s s' :
  sitting_step s s' → s' = s ∨ phase_step (sitting_phase s) (sitting_phase s').
Proof.
  intros [op H]. unfold sitting_phase. destruct op; sitting_cases H; to_prop; simpl;
    try (by left); right;
    repeat match goal with H : es_State s = _ |- _ => rewrite H end; try constructor;
    destruct (es_State s); intuition (constructor || congruence).
Qed.

Lemma sitting_step_revision s s' :
  sitting_inv s → sitting_step s s' → s' = s ∨ es_Revision s' = es_Revision s + 1.
Proof.
  intros Hi [op H]. pose proof (esi_int64 s Hi). destruct op; sitting_cases H; try (by left); right;
    match goal with V : ExamSitting_Validate _ = _ |- _ =>
      apply ExamSitting_Validate_spec, esv_revision in V; simpl in * end;
    by apply int64_succ_pos.
Qed.

Lemma sitting_step_updated s s' :
  sitting_inv s → sitting_step s s' → t_ns (es_UpdatedAt s) ≤ t_ns (es_UpdatedAt s').
Proof.
  intros Hi [op H]. pose proof (esn_updated s (esi_normalized s Hi)).
  destruct op; sitting_cases H; to_prop; simpl in *; rewrite ?transition_TimeUTC by done;
    auto; lia.
Qed.

Lemma phase_absorbing p q :
  rtc phase_step p q → p = PhaseDone ∨ p = PhaseDropped → q = p.
Proof. intros H Hp. destruct H as [|? ? ? H]; [done|]. destruct H; naive_solver. Qed.

Lemma phase_started p q :
  rtc phase_step p q → p ≠ PhaseWaiting → p ≠ PhaseDropped →
  q ≠ PhaseWaiting ∧ q ≠ PhaseDropped.
Proof. induction 1 as [|? ? ? H]; [done|]. destruct H; naive_solver. Qed.

Lemma phase_ending q : rtc phase_step PhaseEnding q → q = PhaseEnding ∨ q = PhaseDone.
Proof.
  intros H. inversion H as [|? y ? Hy Hr]; subst; [by left|]. inversion Hy; subst. right.
  by apply phase_absorbing in Hr; [|left].
Qed.

Lemma sitting_evolves_refl s : sitting_evolves s s.
Proof. by split; try (left; done); try done. Qed.

Lemma sitting_evolves_trans s1 s2 s3 :
  sitting_evolves s1 s2 → sitting_evolves s2 s3 → sitting_evolves s1 s3.
Proof.
  intros [I1 U1 R1 P1 S1 E1 F1] [I2 U2 R2 P2 S2 E2 F2]. split.
  - intuition congruence.
  - lia.
  - destruct R1 as [->|], R2 as [->|]; auto; right; lia.
  - by etrans.
  - intros H1 H2. destruct (phase_started _ _ P1 H1 H2).
    destruct S1 as (? & ? & ? & ?), S2 as (? & ? & ? & ?); auto.
    repeat split; (congruence || lia).
  - intros H1. rewrite H1 in P1. specialize (E1 H1).
    apply phase_ending in P1 as [H2|H2]; [specialize (E2 H2)|rewrite (F2 (or_introl H2))];
      intuition congruence.
  - intros H1. rewrite (F1 H1) in F2. auto.
Qed.

Lemma sitting_step_evolves s s' : sitting_inv s → sitting_step s s' → sitting_evolves s s'.
Proof.
  intros Hi Hst.
  pose proof (sitting_step_updated s s' Hi Hst) as Hu.
  pose proof (sitting_step_revision s s' Hi Hst) as Hr.
  pose proof (sitting_step_phase s s' Hst) as Hp.
  assert (Hpr : rtc phase_step (sitting_phase s) (sitting_phase s')).
  { destruct Hp as [->|]; [done|by apply rtc_once]. }
  destruct Hst as [op H].
  split; [|done|destruct Hr; auto; right; lia|done|..];
    clear Hu Hr Hp Hpr; unfold sitting_phase; destruct op; sitting_cases H; simpl; try done;
    to_prop; destruct (es_State s); intuition (try congruence; try lia).
Qed.

Lemma sitting_run_evolves s s' : sitting_inv s → rtc sitting_step s s' → sitting_evolves s s'.
Proof.
  intros Hi H. induction H; [apply sitting_evolves_refl|].
  eauto using sitting_evolves_trans, sitting_step_evolves, sitting_step_inv.
Qed.

Lemma sitting_op_atomic op : atomic (run_sitting_op op).
Proof.
  destruct op; unfold_sitting_op; try apply atomic_drop; apply atomic_deref; intros s;
    cbv zeta; auto 10 with atomic.
Qed.

(** ** A sample sitting, for the witnesses *)

Definition sample_sitting : ExamSitting :=
  mkExamSitting sample_id sample_id sample_id sample_id (at_second 100) (at_second 200)
    ExamSittingScheduled (at_second 50) (at_second 50) noTime noTime noTime noTime noTime noReason 1.
Definition sample_open : ExamSitting :=
  sample_sitting <| es_State := ExamSittingOpen |>
    <| es_OpenedAt := mkOptionalTime (at_second 100) true |>
    <| es_UpdatedAt := at_second 100 |> <| es_Revision := 2 |>.

Lemma sample_sitting_initial : sitting_initial sample_sitting.
Proof.
  exists sample_id, sample_id, sample_id, sample_id, (at_second 100), (at_second 200), (at_second 50).
  vm_compute. reflexivity.
Qed.
Lemma sample_open_step : sitting_step sample_sitting sample_open.
Proof. exists (OpOpen (at_second 100)). vm_compute. reflexivity. Qed.
Lemma sample_open_reachable : sitting_reachable sample_open.
Proof.
  exists sample_sitting. split; [apply sample_sitting_initial|].
  apply rtc_once, sample_open_step.
Qed.

(** ** Theorems *)

(** Every sitting reachable from [NewExamSitting] through any sequence of
    operations passes [Validate], keeps its instants in UTC at microsecond
    precision and its revision in the [int64] range; and it admits candidate
    mutations only while open, with the opening instant recorded and no pause,
    closing, cancellation or reason recorded. *)
Theorem sitting_reachable_valid s :
  sitting_reachable s →
  ExamSitting_Validate (Some s) = Ok tt ∧ sitting_normalized s ∧ in_int64 (es_Revision s) ∧
  (AllowsCandidateMutation (es_State s) = true →
   recorded_between (es_OpenedAt s) (es_CreatedAt s) (es_UpdatedAt s) ∧
   absent (es_PausedAt s) ∧ absent (es_ClosingAt s) ∧ absent (es_CanceledAt s) ∧
   es_ReasonCode s = noReason).
Proof.
  intros [Hv Hn Hi]%sitting_reachable_inv.
  split_and!; [by apply ExamSitting_Validate_spec|done..|].
  intros Hs%bool_decide_eq_true. pose proof (esv_lifecycle s Hv) as Hl.
  unfold sitting_lifecycle in Hl. rewrite Hs in Hl. tauto.
Qed.

Lemma sitting_reachable_valid_witness :
  ExamSitting_Validate (Some sample_open) = Ok tt ∧ sitting_normalized sample_open ∧
  in_int64 (es_Revision sample_open) ∧
  (AllowsCandidateMutation (es_State sample_open) = true →
   recorded_between (es_OpenedAt sample_open) (es_CreatedAt sample_open) (es_UpdatedAt sample_open) ∧
   absent (es_PausedAt sample_open) ∧ absent (es_ClosingAt sample_open) ∧
   absent (es_CanceledAt sample_open) ∧ es_ReasonCode sample_open = noReason).
Proof. apply sitting_reachable_valid, sample_open_reachable. Defined.


(** C2. On a sitting that satisfies the invariant (created after Go's zero time,
    revision below the [int64] maximum) an operation succeeds exactly when it is
    enabled: no other condition refuses it, and no disabled operation slips
    through. *)
Theorem sitting_op_succeeds_iff_enabled op s :
  sitting_inv s → 0 < t_ns (es_CreatedAt s) → es_Revision s ≠ int64_max →
  (∃ s', run_sitting_op op (Some s) = (Some s', Ok tt)) ↔ sitting_enabled op s.
Proof.
  intros Hi Hc Hr. split; [|by apply sitting_enabled_runs].
  intros [s' H]. eapply sitting_run_enabled; [apply Hi|done].
Qed.

Lemma sitting_op_succeeds_iff_enabled_witness :
  (∃ s', run_sitting_op (OpPause (at_second 120)) (Some sample_open) = (Some s', Ok tt))
  ↔ sitting_enabled (OpPause (at_second 120)) sample_open.
Proof.
  apply sitting_op_succeeds_iff_enabled.
  - apply sitting_reachable_inv, sample_open_reachable.
  - vm_compute. reflexivity.
  - vm_compute. discriminate.
Defined.



(** An operation that returns an error, including on a nil sitting, leaves
    the sitting exactly as it was. *)
Theorem sitting_failure_leaves_unchanged op p p' e :
  run_sitting_op op p = (p', Err e) → p' = p.
Proof. apply sitting_op_atomic. Qed.

Lemma sitting_failure_leaves_unchanged_witness :
  (run_sitting_op (OpClose (at_second 120)) (Some sample_open)).1 = Some sample_open.
Proof.
  apply (sitting_failure_leaves_unchanged (OpClose (at_second 120)) (Some sample_open)
           (Some sample_open) (es_error "state" "must be closing" sample_open)).
  vm_compute. reflexivity.
Defined.

(** A running sitting can always be brought to its end: whatever the clock
    says, entering closing with a closing reason and then closing succeed and
    leave the sitting closed with that reason. *)
Theorem sitting_can_always_close s reason at1 at2 :
  sitting_reachable s → sitting_live s → 0 < t_ns (es_CreatedAt s) →
  es_Revision s + 1 < int64_max → closing_reason reason →
  ∃ s1 s2, ExamSitting_EnterClosing reason at1 (Some s) = (Some s1, Ok tt) ∧
           ExamSitting_Close at2 (Some s1) = (Some s2, Ok tt) ∧
           es_State s2 = ExamSittingClosed ∧ es_ReasonCode s2 = reason.
Proof.
  intros Hi%sitting_reachable_inv Hl Hc Hr Hre.
  destruct (sitting_enabled_runs (OpEnterClosing reason at1) s) as [s1 H1]; [done..|lia|done|].
  assert (St1 : sitting_step s s1) by by eexists.
  pose proof (sitting_step_inv s s1 Hi St1) as Hi1.
  destruct (ev_identity s s1 (sitting_step_evolves s s1 Hi St1)) as (_ & _ & Hcr).
  assert (Hs1 : es_State s1 = ExamSittingClosing ∧ es_ReasonCode s1 = reason).
  { clear St1 Hi1 Hcr. sitting_cases H1. done. }
  destruct (sitting_step_revision s s1 Hi St1) as [->|Hrev].
  { exfalso. destruct Hs1, Hl; congruence. }
  destruct (sitting_enabled_runs (OpClose at2) s1) as [s2 H2];
    [done|congruence|lia|by apply Hs1|].
  exists s1, s2. split_and!; [done..| |]; clear H1; sitting_cases H2; [done|by apply Hs1].
Qed.

Lemma sitting_can_always_close_witness :
  ∃ s1 s2, ExamSitting_EnterClosing ExamSittingReasonManagerClosed (at_second 1) (Some sample_open)
             = (Some s1, Ok tt) ∧
           ExamSitting_Close (at_second 500) (Some s1) = (Some s2, Ok tt) ∧
           es_State s2 = ExamSittingClosed ∧ es_ReasonCode s2 = ExamSittingReasonManagerClosed.
Proof.
  apply sitting_can_always_close.
  - apply sample_open_reachable.
  - left. reflexivity.
  - vm_compute. reflexivity.
  - vm_compute. reflexivity.
  - left. reflexivity.
Defined.
