(* ===== verification/ExamAttempt.v ===== *)
(** * Exam Attempts, Participations, Connections and Suspensions

    Models [server/model/exam_attempt.go] (the Attempt, its Participation lease,
    its Connection, the Integrity Flag and the Suspension).  The coordinated
    transitions over the three live records are in [AttemptAggregate]. *)

From S2P Require Import Prelude GoTime GoStrings Ident ModelError.

Definition AttemptParticipationRenewalInterval : Z := 5 * Second.
Definition AttemptParticipationInitialLease : Z := 20 * Second.

(** ** Exam Attempt *)

Inductive ExamAttemptState :=
  | ExamAttemptActive
  | ExamAttemptSuspended
  | ExamAttemptReady
  | ExamAttemptSubmitted
  | ExamAttemptState_other (raw : string).
#[global] Instance ExamAttemptState_eq_dec : EqDecision ExamAttemptState.
Proof. solve_decision. Defined.

Definition AllowsCandidateConnection (s : ExamAttemptState) : bool := s ==? ExamAttemptActive.
Definition IsTerminal (s : ExamAttemptState) : bool := s ==? ExamAttemptSubmitted.
Definition IsUnresolved (s : ExamAttemptState) : bool :=
  (s ==? ExamAttemptReady) || (s ==? ExamAttemptActive) || (s ==? ExamAttemptSuspended).

Record ExamAttempt := mkExamAttempt {
  ea_ID : ID;
  ea_ExamID : ID;
  ea_SittingID : ID;
  ea_CandidateUserID : ID;
  ea_AdmissionRevisionID : ID;
  ea_State : ExamAttemptState;
  ea_CreatedAt : Time;
  ea_UpdatedAt : Time;
  ea_SubmittedAt : OptionalTime;
  ea_Revision : Z }.
#[global] Instance ExamAttempt_eta : Eta ExamAttempt := λ r,
  mkExamAttempt (ea_ID r) (ea_ExamID r) (ea_SittingID r) (ea_CandidateUserID r)
    (ea_AdmissionRevisionID r) (ea_State r) (ea_CreatedAt r) (ea_UpdatedAt r)
    (ea_SubmittedAt r) (ea_Revision r).

Definition ea_error (reason : string) : error := invalidModelError "exam_attempt" "" reason "".

Definition ExamAttempt_Validate (p : option ExamAttempt) : result unit :=
  match p with
  | None => Err (ea_error "invalid Exam Attempt")
  | Some a =>
      fail_if negb (ID_IsValid (ea_ID a)) || negb (ID_IsValid (ea_ExamID a))
              || negb (ID_IsValid (ea_SittingID a)) || negb (ID_IsValid (ea_CandidateUserID a))
              || negb (ID_IsValid (ea_AdmissionRevisionID a)) || Time_IsZero (ea_CreatedAt a)
              || Time_IsZero (ea_UpdatedAt a) || Time_Before (ea_UpdatedAt a) (ea_CreatedAt a)
              || (ea_Revision a <? 1)
        with ea_error "invalid Exam Attempt" ;;
      match ea_State a with
      | ExamAttemptReady | ExamAttemptActive | ExamAttemptSuspended =>
          fail_if ot_Valid (ea_SubmittedAt a)
            with ea_error "non-submitted Exam Attempt has submitted_at" ;;
          Ok tt
      | ExamAttemptSubmitted =>
          fail_if negb (ot_Valid (ea_SubmittedAt a)) || Time_IsZero (ot_Time (ea_SubmittedAt a))
                  || Time_Before (ot_Time (ea_SubmittedAt a)) (ea_CreatedAt a)
                  || Time_After (ot_Time (ea_SubmittedAt a)) (ea_UpdatedAt a)
            with ea_error "invalid submitted Exam Attempt lifecycle" ;;
          Ok tt
      | ExamAttemptState_other _ => Err (ea_error "invalid Exam Attempt state")
      end
  end.
#[global] Arguments ExamAttempt_Validate : simpl never.

Definition NewExamAttempt (id examID sittingID candidateID admissionRevisionID : ID)
    (at_ : Time) : result ExamAttempt :=
  let at_ := TimeUTC at_ in
  let attempt := mkExamAttempt id examID sittingID candidateID admissionRevisionID
    ExamAttemptActive at_ at_ noTime 1 in
  _ ← ExamAttempt_Validate (Some attempt);
  Ok attempt.

Definition ExamAttempt_Suspend (at_ : Time) : Method ExamAttempt unit :=
  a ← deref (ea_error "Exam Attempt cannot suspend");
  fail_if ea_State a !=? ExamAttemptActive with ea_error "Exam Attempt cannot suspend" ;;
  let candidate := a <| ea_State := ExamAttemptSuspended |> <| ea_UpdatedAt := TimeUTC at_ |>
                     <| ea_Revision := int64_succ (ea_Revision a) |> in
  _ ← try (ExamAttempt_Validate (Some candidate));
  assign candidate.

Definition ExamAttempt_Reallow (at_ : Time) : Method ExamAttempt unit :=
  a ← deref (ea_error "Exam Attempt cannot be re-allowed");
  fail_if ea_State a !=? ExamAttemptSuspended with ea_error "Exam Attempt cannot be re-allowed" ;;
  let candidate := a <| ea_State := ExamAttemptReady |> <| ea_UpdatedAt := TimeUTC at_ |>
                     <| ea_Revision := int64_succ (ea_Revision a) |> in
  _ ← try (ExamAttempt_Validate (Some candidate));
  assign candidate.

Definition ExamAttempt_Activate (at_ : Time) : Method ExamAttempt unit :=
  a ← deref (ea_error "Exam Attempt cannot activate");
  fail_if ea_State a !=? ExamAttemptReady with ea_error "Exam Attempt cannot activate" ;;
  let candidate := a <| ea_State := ExamAttemptActive |> <| ea_UpdatedAt := TimeUTC at_ |>
                     <| ea_Revision := int64_succ (ea_Revision a) |> in
  _ ← try (ExamAttempt_Validate (Some candidate));
  assign candidate.

(** ** Attempt Participation *)

Inductive AttemptParticipationState :=
  | AttemptParticipationActive
  | AttemptParticipationEnded
  | AttemptParticipationState_other (raw : string).
#[global] Instance AttemptParticipationState_eq_dec : EqDecision AttemptParticipationState.
Proof. solve_decision. Defined.

Inductive AttemptParticipationEndReason :=
  | AttemptParticipationEndInterrupted
  | AttemptParticipationEndLeaseExpired
  | AttemptParticipationEndPolicySuspended
  | AttemptParticipationEndKicked
  | AttemptParticipationEndSubmitted
  | AttemptParticipationEndManagerEnded
  | AttemptParticipationEndSittingClosed
  | AttemptParticipationEnd_other (raw : string).
#[global] Instance AttemptParticipationEndReason_eq_dec : EqDecision AttemptParticipationEndReason.
Proof. solve_decision. Defined.
Definition noEndReason : AttemptParticipationEndReason := AttemptParticipationEnd_other "".

Definition EndReason_IsValid (r : AttemptParticipationEndReason) : bool :=
  match r with AttemptParticipationEnd_other _ => false | _ => true end.

Record AttemptParticipation := mkAttemptParticipation {
  ap_ID : ID;
  ap_AttemptID : ID;
  ap_SessionID : ID;
  ap_State : AttemptParticipationState;
  ap_Generation : Z;
  ap_RenewalSequence : Z;
  ap_ContinuityCredentialHash : string;
  ap_StartedAt : Time;
  ap_UpdatedAt : Time;
  ap_LeaseExpiresAt : Time;
  ap_EndedAt : OptionalTime;
  ap_EndReason : AttemptParticipationEndReason }.
#[global] Instance AttemptParticipation_eta : Eta AttemptParticipation := λ r,
  mkAttemptParticipation (ap_ID r) (ap_AttemptID r) (ap_SessionID r) (ap_State r)
    (ap_Generation r) (ap_RenewalSequence r) (ap_ContinuityCredentialHash r) (ap_StartedAt r)
    (ap_UpdatedAt r) (ap_LeaseExpiresAt r) (ap_EndedAt r) (ap_EndReason r).

Definition ap_error (reason : string) : error :=
  invalidModelError "attempt_participation" "" reason "".

Definition AttemptParticipation_Validate (p : option AttemptParticipation) : result unit :=
  match p with
  | None => Err (ap_error "invalid Attempt Participation")
  | Some p =>
      fail_if negb (ID_IsValid (ap_ID p)) || negb (ID_IsValid (ap_AttemptID p))
              || negb (ID_IsValid (ap_SessionID p)) || (ap_Generation p <? 1)
              || (ap_RenewalSequence p <? 0)
              || negb (IsValidTokenHash (ap_ContinuityCredentialHash p))
              || (ap_ContinuityCredentialHash p !=? ToLower (ap_ContinuityCredentialHash p))
              || Time_IsZero (ap_StartedAt p) || Time_IsZero (ap_UpdatedAt p)
              || Time_Before (ap_UpdatedAt p) (ap_StartedAt p)
              || Time_IsZero (ap_LeaseExpiresAt p)
              || Time_Before (ap_LeaseExpiresAt p) (ap_StartedAt p)
        with ap_error "invalid Attempt Participation" ;;
      match ap_State p with
      | AttemptParticipationActive =>
          fail_if ot_Valid (ap_EndedAt p) || (ap_EndReason p !=? noEndReason)
            with ap_error "active Attempt Participation has end metadata" ;;
          Ok tt
      | AttemptParticipationEnded =>
          fail_if negb (ot_Valid (ap_EndedAt p)) || Time_IsZero (ot_Time (ap_EndedAt p))
                  || Time_Before (ot_Time (ap_EndedAt p)) (ap_StartedAt p)
                  || Time_After (ot_Time (ap_EndedAt p)) (ap_UpdatedAt p)
                  || negb (EndReason_IsValid (ap_EndReason p))
            with ap_error "invalid ended Attempt Participation" ;;
          Ok tt
      | AttemptParticipationState_other _ =>
          Err (ap_error "invalid Attempt Participation state")
      end
  end.
#[global] Arguments AttemptParticipation_Validate : simpl never.

Definition NewAttemptParticipation (id attemptID sessionID : ID) (generation : Z)
    (credentialHash : string) (startedAt : Time) : result AttemptParticipation :=
  let startedAt := TimeUTC startedAt in
  let participation := mkAttemptParticipation id attemptID sessionID AttemptParticipationActive
    generation 0 credentialHash startedAt startedAt
    (Time_Add startedAt AttemptParticipationInitialLease) noTime noEndReason in
  _ ← AttemptParticipation_Validate (Some participation);
  Ok participation.

Definition AttemptParticipation_IsExpiredAt (p : option AttemptParticipation) (at_ : Time) : bool :=
  match p with
  | None => true
  | Some p => negb (Time_Before (TimeUTC at_) (ap_LeaseExpiresAt p))
  end.

Definition AttemptParticipation_Renew (generation sequence : Z) (databaseNow : Time)
    : Method AttemptParticipation bool :=
  p ← deref (ap_error "Attempt Participation renewal is fenced");
  fail_if (ap_State p !=? AttemptParticipationActive) || (generation !=? ap_Generation p)
          || (sequence <? 1) || (sequence <? ap_RenewalSequence p)
    with ap_error "Attempt Participation renewal is fenced" ;;
  let databaseNow := TimeUTC databaseNow in
  fail_if Time_IsZero databaseNow || Time_Before databaseNow (ap_UpdatedAt p)
          || AttemptParticipation_IsExpiredAt (Some p) databaseNow
    with ap_error "Attempt Participation renewal is expired" ;;
  if sequence ==? ap_RenewalSequence p then mret true
  else
    let candidate := p <| ap_RenewalSequence := sequence |> <| ap_UpdatedAt := databaseNow |>
      <| ap_LeaseExpiresAt := Time_Add databaseNow AttemptParticipationInitialLease |> in
    _ ← try (AttemptParticipation_Validate (Some candidate));
    _ ← assign candidate;
    mret false.

Definition AttemptParticipation_End (reason : AttemptParticipationEndReason) (at_ : Time)
    : Method AttemptParticipation unit :=
  p ← deref (ap_error "Attempt Participation cannot end");
  fail_if (ap_State p !=? AttemptParticipationActive) || negb (EndReason_IsValid reason)
    with ap_error "Attempt Participation cannot end" ;;
  let candidate := p <| ap_State := AttemptParticipationEnded |> <| ap_EndReason := reason |>
                     <| ap_EndedAt := OptionalTimeFrom at_ |> <| ap_UpdatedAt := TimeUTC at_ |> in
  _ ← try (AttemptParticipation_Validate (Some candidate));
  assign candidate.

(** ** Attempt Connection *)

Inductive AttemptConnectionState :=
  | AttemptConnectionOpen
  | AttemptConnectionClosed
  | AttemptConnectionState_other (raw : string).
#[global] Instance AttemptConnectionState_eq_dec : EqDecision AttemptConnectionState.
Proof. solve_decision. Defined.

Inductive AttemptConnectionCloseReason :=
  | AttemptConnectionCloseTransport
  | AttemptConnectionCloseInterrupted
  | AttemptConnectionCloseLeaseExpired
  | AttemptConnectionClosePolicySuspended
  | AttemptConnectionCloseKicked
  | AttemptConnectionCloseSubmitted
  | AttemptConnectionCloseManagerEnded
  | AttemptConnectionCloseSittingClosed
  | AttemptConnectionClose_other (raw : string).
#[global] Instance AttemptConnectionCloseReason_eq_dec : EqDecision AttemptConnectionCloseReason.
Proof. solve_decision. Defined.
Definition noCloseReason : AttemptConnectionCloseReason := AttemptConnectionClose_other "".

Definition CloseReason_IsValid (r : AttemptConnectionCloseReason) : bool :=
  match r with AttemptConnectionClose_other _ => false | _ => true end.

Record AttemptConnection := mkAttemptConnection {
  ac_ID : ID;
  ac_AttemptID : ID;
  ac_ParticipationID : ID;
  ac_SessionID : ID;
  ac_State : AttemptConnectionState;
  ac_OpenedAt : Time;
  ac_ClosedAt : OptionalTime;
  ac_CloseReason : AttemptConnectionCloseReason }.
#[global] Instance AttemptConnection_eta : Eta AttemptConnection := λ r,
  mkAttemptConnection (ac_ID r) (ac_AttemptID r) (ac_ParticipationID r) (ac_SessionID r)
    (ac_State r) (ac_OpenedAt r) (ac_ClosedAt r) (ac_CloseReason r).

Definition ac_error (reason : string) : error :=
  invalidModelError "attempt_connection" "" reason "".

Definition AttemptConnection_Validate (p : option AttemptConnection) : result unit :=
  match p with
  | None => Err (ac_error "invalid Attempt Connection")
  | Some c =>
      fail_if negb (ID_IsValid (ac_ID c)) || negb (ID_IsValid (ac_AttemptID c))
              || negb (ID_IsValid (ac_ParticipationID c)) || negb (ID_IsValid (ac_SessionID c))
              || Time_IsZero (ac_OpenedAt c)
        with ac_error "invalid Attempt Connection" ;;
      match ac_State c with
      | AttemptConnectionOpen =>
          fail_if ot_Valid (ac_ClosedAt c) || (ac_CloseReason c !=? noCloseReason)
            with ac_error "open Attempt Connection has close metadata" ;;
          Ok tt
      | AttemptConnectionClosed =>
          fail_if negb (ot_Valid (ac_ClosedAt c)) || Time_IsZero (ot_Time (ac_ClosedAt c))
                  || Time_Before (ot_Time (ac_ClosedAt c)) (ac_OpenedAt c)
                  || negb (CloseReason_IsValid (ac_CloseReason c))
            with ac_error "invalid closed Attempt Connection" ;;
          Ok tt
      | AttemptConnectionState_other _ => Err (ac_error "invalid Attempt Connection state")
      end
  end.
#[global] Arguments AttemptConnection_Validate : simpl never.

Definition NewAttemptConnection (id attemptID participationID sessionID : ID) (at_ : Time)
    : result AttemptConnection :=
  let connection := mkAttemptConnection id attemptID participationID sessionID
    AttemptConnectionOpen (TimeUTC at_) noTime noCloseReason in
  _ ← AttemptConnection_Validate (Some connection);
  Ok connection.

Definition AttemptConnection_Close (reason : AttemptConnectionCloseReason) (at_ : Time)
    : Method AttemptConnection unit :=
  c ← deref (ac_error "Attempt Connection cannot close");
  fail_if (ac_State c !=? AttemptConnectionOpen) || negb (CloseReason_IsValid reason)
    with ac_error "Attempt Connection cannot close" ;;
  let candidate := c <| ac_State := AttemptConnectionClosed |> <| ac_CloseReason := reason |>
                     <| ac_ClosedAt := OptionalTimeFrom at_ |> in
  _ ← try (AttemptConnection_Validate (Some candidate));
  assign candidate.

(** ** Integrity Flag *)

Inductive IntegrityPolicyKind :=
  | IntegrityPolicyConnectionLoss
  | IntegrityPolicyFocusLoss
  | IntegrityPolicyBrowserNavigation
  | IntegrityPolicyKind_other (raw : string).
#[global] Instance IntegrityPolicyKind_eq_dec : EqDecision IntegrityPolicyKind.
Proof. solve_decision. Defined.

Definition IntegrityPolicyKind_IsValid (k : IntegrityPolicyKind) : bool :=
  (k ==? IntegrityPolicyConnectionLoss) || (k ==? IntegrityPolicyFocusLoss)
  || (k ==? IntegrityPolicyBrowserNavigation).

Inductive IntegrityFlagState :=
  | IntegrityFlagOpen
  | IntegrityFlagState_other (raw : string).
#[global] Instance IntegrityFlagState_eq_dec : EqDecision IntegrityFlagState.
Proof. solve_decision. Defined.

Record IntegrityFlag := mkIntegrityFlag {
  if_ID : ID;
  if_AttemptID : ID;
  if_Generation : Z;
  if_Kind : IntegrityPolicyKind;
  if_State : IntegrityFlagState;
  if_CreatedAt : Time }.

Definition IntegrityFlag_Validate (p : option IntegrityFlag) : result unit :=
  let e := invalidModelError "integrity_flag" "" "invalid Integrity Flag" "" in
  match p with
  | None => Err e
  | Some f =>
      fail_if negb (ID_IsValid (if_ID f)) || negb (ID_IsValid (if_AttemptID f))
              || (if_Generation f <? 1) || negb (IntegrityPolicyKind_IsValid (if_Kind f))
              || (if_State f !=? IntegrityFlagOpen) || Time_IsZero (if_CreatedAt f)
        with e ;;
      Ok tt
  end.

Definition NewIntegrityFlag (id attemptID : ID) (generation : Z) (kind : IntegrityPolicyKind)
    (at_ : Time) : result IntegrityFlag :=
  let flag := mkIntegrityFlag id attemptID generation kind IntegrityFlagOpen (TimeUTC at_) in
  _ ← IntegrityFlag_Validate (Some flag);
  Ok flag.

(** ** Attempt Suspension *)

Inductive AttemptSuspensionState :=
  | AttemptSuspensionActive
  | AttemptSuspensionClosed
  | AttemptSuspensionState_other (raw : string).
#[global] Instance AttemptSuspensionState_eq_dec : EqDecision AttemptSuspensionState.
Proof. solve_decision. Defined.

Inductive AttemptSuspensionSource :=
  | AttemptSuspensionSourcePolicy
  | AttemptSuspensionSourceManual
  | AttemptSuspensionSource_other (raw : string).
#[global] Instance AttemptSuspensionSource_eq_dec : EqDecision AttemptSuspensionSource.
Proof. solve_decision. Defined.

Definition AttemptSuspensionSource_IsValid (s : AttemptSuspensionSource) : bool :=
  (s ==? AttemptSuspensionSourcePolicy) || (s ==? AttemptSuspensionSourceManual).

Inductive AttemptSuspensionCandidateReason :=
  | AttemptSuspensionCandidateReasonSecureContinuityLost
  | AttemptSuspensionCandidateReasonFocusLossPolicy
  | AttemptSuspensionCandidateReasonManagerSuspended
  | AttemptSuspensionCandidateReason_other (raw : string).
#[global] Instance AttemptSuspensionCandidateReason_eq_dec :
  EqDecision AttemptSuspensionCandidateReason.
Proof. solve_decision. Defined.

Definition AttemptSuspensionPrivateReasonMaximumRunes : Z := 1000.

Definition CandidateReason_IsPolicy (r : AttemptSuspensionCandidateReason) : bool :=
  (r ==? AttemptSuspensionCandidateReasonSecureContinuityLost)
  || (r ==? AttemptSuspensionCandidateReasonFocusLossPolicy).
Definition CandidateReason_IsValid (r : AttemptSuspensionCandidateReason) : bool :=
  CandidateReason_IsPolicy r || (r ==? AttemptSuspensionCandidateReasonManagerSuspended).

Definition validAttemptSuspensionPrivateReason (reason : string) : bool :=
  ValidString reason && (reason ==? TrimSpace reason) && (1 <=? RuneCountInString reason)
  && (RuneCountInString reason <=? AttemptSuspensionPrivateReasonMaximumRunes)
  && (len reason <=? 4000).

Record AttemptSuspension := mkAttemptSuspension {
  as_ID : ID;
  as_AttemptID : ID;
  as_ParticipationID : ID;
  as_FlagID : ID;
  as_Generation : Z;
  as_State : AttemptSuspensionState;
  as_Source : AttemptSuspensionSource;
  as_CandidateReason : AttemptSuspensionCandidateReason;
  as_StartedAt : Time;
  as_EndedAt : OptionalTime;
  as_ReallowedByUserID : ID;
  as_PrivateReason : string;
  as_SuspendedByUserID : ID;
  as_SuspensionPrivateReason : string }.
#[global] Instance AttemptSuspension_eta : Eta AttemptSuspension := λ r,
  mkAttemptSuspension (as_ID r) (as_AttemptID r) (as_ParticipationID r) (as_FlagID r)
    (as_Generation r) (as_State r) (as_Source r) (as_CandidateReason r) (as_StartedAt r)
    (as_EndedAt r) (as_ReallowedByUserID r) (as_PrivateReason r) (as_SuspendedByUserID r)
    (as_SuspensionPrivateReason r).

Definition as_error (reason : string) : error :=
  invalidModelError "attempt_suspension" "" reason "".

(** The first [switch] of [Validate], on the source of the episode. *)
Definition as_source_check (s : AttemptSuspension) : result unit :=
  match as_Source s with
  | AttemptSuspensionSourcePolicy =>
      fail_if negb (ID_IsValid (as_FlagID s)) || negb (CandidateReason_IsPolicy (as_CandidateReason s))
              || negb (ID_IsZero (as_SuspendedByUserID s)) || (as_SuspensionPrivateReason s !=? "")
        with as_error "invalid policy Attempt Suspension" ;;
      Ok tt
  | AttemptSuspensionSourceManual =>
      fail_if negb (ID_IsZero (as_FlagID s))
              || (as_CandidateReason s !=? AttemptSuspensionCandidateReasonManagerSuspended)
              || negb (ID_IsValid (as_SuspendedByUserID s))
              || negb (validAttemptSuspensionPrivateReason (as_SuspensionPrivateReason s))
        with as_error "invalid manual Attempt Suspension" ;;
      Ok tt
  | AttemptSuspensionSource_other _ => Err (as_error "invalid Attempt Suspension source")
  end.

(** The second [switch], on the state of the episode. *)
Definition as_state_check (s : AttemptSuspension) : result unit :=
  match as_State s with
  | AttemptSuspensionActive =>
      fail_if ot_Valid (as_EndedAt s) || negb (ID_IsZero (as_ReallowedByUserID s))
              || (as_PrivateReason s !=? "")
        with as_error "active Attempt Suspension has re-allow metadata" ;;
      Ok tt
  | AttemptSuspensionClosed =>
      fail_if negb (ot_Valid (as_EndedAt s)) || Time_Before (ot_Time (as_EndedAt s)) (as_StartedAt s)
              || negb (ID_IsValid (as_ReallowedByUserID s))
              || negb (validAttemptSuspensionPrivateReason (as_PrivateReason s))
        with as_error "invalid closed Attempt Suspension" ;;
      Ok tt
  | AttemptSuspensionState_other _ => Err (as_error "invalid Attempt Suspension state")
  end.

Definition AttemptSuspension_Validate (p : option AttemptSuspension) : result unit :=
  match p with
  | None => Err (as_error "invalid Attempt Suspension")
  | Some s =>
      fail_if negb (ID_IsValid (as_ID s)) || negb (ID_IsValid (as_AttemptID s))
              || negb (ID_IsValid (as_ParticipationID s)) || (as_Generation s <? 1)
              || Time_IsZero (as_StartedAt s)
        with as_error "invalid Attempt Suspension" ;;
      _ ← as_source_check s;
      as_state_check s
  end.
#[global] Arguments AttemptSuspension_Validate : simpl never.

Definition NewPolicyAttemptSuspension (id attemptID participationID flagID : ID) (generation : Z)
    (candidateReason : AttemptSuspensionCandidateReason) (at_ : Time) : result AttemptSuspension :=
  let suspension := mkAttemptSuspension id attemptID participationID flagID generation
    AttemptSuspensionActive AttemptSuspensionSourcePolicy candidateReason (TimeUTC at_) noTime
    "" "" "" "" in
  _ ← AttemptSuspension_Validate (Some suspension);
  Ok suspension.

Definition NewManualAttemptSuspension (id attemptID participationID : ID) (generation : Z)
    (actorID : ID) (privateReason : string) (at_ : Time) : result AttemptSuspension :=
  let suspension := mkAttemptSuspension id attemptID participationID "" generation
    AttemptSuspensionActive AttemptSuspensionSourceManual
    AttemptSuspensionCandidateReasonManagerSuspended (TimeUTC at_) noTime "" ""
    actorID privateReason in
  _ ← AttemptSuspension_Validate (Some suspension);
  Ok suspension.

Definition AttemptSuspension_Reallow (actorID : ID) (privateReason : string) (at_ : Time)
    : Method AttemptSuspension unit :=
  s ← deref (as_error "Attempt Suspension cannot be re-allowed");
  fail_if (as_State s !=? AttemptSuspensionActive) || negb (ID_IsValid actorID)
          || negb (validAttemptSuspensionPrivateReason privateReason)
    with as_error "Attempt Suspension cannot be re-allowed" ;;
  let candidate := s <| as_State := AttemptSuspensionClosed |>
                     <| as_EndedAt := OptionalTimeFrom at_ |>
                     <| as_ReallowedByUserID := actorID |>
                     <| as_PrivateReason := privateReason |> in
  _ ← try (AttemptSuspension_Validate (Some candidate));
  assign candidate.

(** ** Specifications of valid records *)

Record AttemptValid (a : ExamAttempt) : Prop := {
  eav_ids : ID_IsValid (ea_ID a) = true ∧ ID_IsValid (ea_ExamID a) = true ∧
            ID_IsValid (ea_SittingID a) = true ∧ ID_IsValid (ea_CandidateUserID a) = true ∧
            ID_IsValid (ea_AdmissionRevisionID a) = true;
  eav_stamps : t_ns (ea_CreatedAt a) ≠ 0 ∧ t_ns (ea_UpdatedAt a) ≠ 0 ∧
               t_ns (ea_CreatedAt a) ≤ t_ns (ea_UpdatedAt a);
  eav_revision : 1 ≤ ea_Revision a;
  eav_lifecycle :
    match ea_State a with
    | ExamAttemptReady | ExamAttemptActive | ExamAttemptSuspended =>
        ot_Valid (ea_SubmittedAt a) = false
    | ExamAttemptSubmitted =>
        ot_Valid (ea_SubmittedAt a) = true ∧ t_ns (ot_Time (ea_SubmittedAt a)) ≠ 0 ∧
        t_ns (ea_CreatedAt a) ≤ t_ns (ot_Time (ea_SubmittedAt a)) ≤ t_ns (ea_UpdatedAt a)
    | ExamAttemptState_other _ => False
    end }.

Record ParticipationValid (p : AttemptParticipation) : Prop := {
  apv_ids : ID_IsValid (ap_ID p) = true ∧ ID_IsValid (ap_AttemptID p) = true ∧
            ID_IsValid (ap_SessionID p) = true;
  apv_fences : 1 ≤ ap_Generation p ∧ 0 ≤ ap_RenewalSequence p;
  apv_hash : IsValidTokenHash (ap_ContinuityCredentialHash p) = true ∧
             ap_ContinuityCredentialHash p = ToLower (ap_ContinuityCredentialHash p);
  apv_stamps : t_ns (ap_StartedAt p) ≠ 0 ∧ t_ns (ap_UpdatedAt p) ≠ 0 ∧
               t_ns (ap_StartedAt p) ≤ t_ns (ap_UpdatedAt p) ∧
               t_ns (ap_LeaseExpiresAt p) ≠ 0 ∧ t_ns (ap_StartedAt p) ≤ t_ns (ap_LeaseExpiresAt p);
  apv_lifecycle :
    match ap_State p with
    | AttemptParticipationActive => ot_Valid (ap_EndedAt p) = false ∧ ap_EndReason p = noEndReason
    | AttemptParticipationEnded =>
        ot_Valid (ap_EndedAt p) = true ∧ t_ns (ot_Time (ap_EndedAt p)) ≠ 0 ∧
        t_ns (ap_StartedAt p) ≤ t_ns (ot_Time (ap_EndedAt p)) ≤ t_ns (ap_UpdatedAt p) ∧
        EndReason_IsValid (ap_EndReason p) = true
    | AttemptParticipationState_other _ => False
    end }.

Record ConnectionValid (c : AttemptConnection) : Prop := {
  acv_ids : ID_IsValid (ac_ID c) = true ∧ ID_IsValid (ac_AttemptID c) = true ∧
            ID_IsValid (ac_ParticipationID c) = true ∧ ID_IsValid (ac_SessionID c) = true;
  acv_opened : t_ns (ac_OpenedAt c) ≠ 0;
  acv_lifecycle :
    match ac_State c with
    | AttemptConnectionOpen => ot_Valid (ac_ClosedAt c) = false ∧ ac_CloseReason c = noCloseReason
    | AttemptConnectionClosed =>
        ot_Valid (ac_ClosedAt c) = true ∧ t_ns (ot_Time (ac_ClosedAt c)) ≠ 0 ∧
        t_ns (ac_OpenedAt c) ≤ t_ns (ot_Time (ac_ClosedAt c)) ∧
        CloseReason_IsValid (ac_CloseReason c) = true
    | AttemptConnectionState_other _ => False
    end }.

Lemma ExamAttempt_Validate_spec a : ExamAttempt_Validate (Some a) = Ok tt ↔ AttemptValid a.
Proof.
  unfold ExamAttempt_Validate. rewrite ok_fail_if. to_prop. split.
  - intros [H HL]. split; [tauto|intuition|lia|].
    destruct (ea_State a); rewrite ?ok_fail_if in HL; to_prop; (done || tauto).
  - intros []. split; [intuition lia|].
    destruct (ea_State a); rewrite ?ok_fail_if; to_prop; tauto.
Qed.

Lemma AttemptParticipation_Validate_spec p :
  AttemptParticipation_Validate (Some p) = Ok tt ↔ ParticipationValid p.
Proof.
  unfold AttemptParticipation_Validate. rewrite ok_fail_if. to_prop. split.
  - intros [H HL]. split; [tauto|intuition lia|tauto|tauto|].
    destruct (ap_State p); rewrite ?ok_fail_if in HL; to_prop; (done || tauto).
  - intros []. split; [intuition lia|].
    destruct (ap_State p); rewrite ?ok_fail_if; to_prop; tauto.
Qed.

Lemma AttemptConnection_Validate_spec c :
  AttemptConnection_Validate (Some c) = Ok tt ↔ ConnectionValid c.
Proof.
  unfold AttemptConnection_Validate. rewrite ok_fail_if. to_prop. split.
  - intros [H HL]. split; [tauto|tauto|].
    destruct (ac_State c); rewrite ?ok_fail_if in HL; to_prop; (done || tauto).
  - intros []. split; [intuition lia|].
    destruct (ac_State c); rewrite ?ok_fail_if; to_prop; tauto.
Qed.

(** ** The Participation lease *)

(** One renewal request, and a Participation served a sequence of them. *)
Record RenewalRequest := mkRenewalRequest {
  rq_generation : Z; rq_sequence : Z; rq_databaseNow : Time }.

Definition participation_renew (r : RenewalRequest) (p : AttemptParticipation)
    : AttemptParticipation * result bool :=
  let '(p', res) :=
    AttemptParticipation_Renew (rq_generation r) (rq_sequence r) (rq_databaseNow r) (Some p) in
  (default p p', res).

Fixpoint participation_renewals (rs : list RenewalRequest) (p : AttemptParticipation)
    : AttemptParticipation * list (result bool) :=
  match rs with
  | [] => (p, [])
  | r :: rs =>
      let '(p1, res) := participation_renew r p in
      let '(p2, ress) := participation_renewals rs p1 in
      (p2, res :: ress)
  end.

(** What the lease promises: a fence on the generation, a sequence that only
    advances, and an exclusive expiry that a fresh sequence pushes to 20 s after
    the decision. *)
Record Lease := mkLease { l_generation : Z; l_sequence : Z; l_touched : Z; l_expires : Z }.

Inductive LeaseOutcome := LeaseRefused | LeaseRepeated | LeaseExtended.

Definition lease_accepts (l : Lease) (generation sequence now : Z) : bool :=
  (generation =? l_generation l) && (1 <=? sequence) && (l_sequence l <=? sequence)
  && (l_touched l <=? now) && (now <? l_expires l).

Definition lease_renew (r : RenewalRequest) (l : Lease) : Lease * LeaseOutcome :=
  let now := t_ns (TimeUTC (rq_databaseNow r)) in
  if lease_accepts l (rq_generation r) (rq_sequence r) now then
    if rq_sequence r =? l_sequence l then (l, LeaseRepeated)
    else (mkLease (l_generation l) (rq_sequence r) now (now + 20 * Second), LeaseExtended)
  else (l, LeaseRefused).

Fixpoint lease_renewals (rs : list RenewalRequest) (l : Lease) : Lease * list LeaseOutcome :=
  match rs with
  | [] => (l, [])
  | r :: rs =>
      let '(l1, o) := lease_renew r l in
      let '(l2, os) := lease_renewals rs l1 in
      (l2, o :: os)
  end.

Definition lease_of (p : AttemptParticipation) : Lease :=
  mkLease (ap_Generation p) (ap_RenewalSequence p) (t_ns (ap_UpdatedAt p))
    (t_ns (ap_LeaseExpiresAt p)).
Definition outcome_of (r : result bool) : LeaseOutcome :=
  match r with Ok true => LeaseRepeated | Ok false => LeaseExtended | Err _ => LeaseRefused end.

(** The Participations the lease promise is about. *)
Definition live_participation (p : AttemptParticipation) : Prop :=
  ParticipationValid p ∧ ap_State p = AttemptParticipationActive ∧ 0 < t_ns (ap_StartedAt p).

(** What a renewal never changes. *)
Definition same_participation (p p' : AttemptParticipation) : Prop :=
  ap_ID p' = ap_ID p ∧ ap_AttemptID p' = ap_AttemptID p ∧ ap_SessionID p' = ap_SessionID p ∧
  ap_ContinuityCredentialHash p' = ap_ContinuityCredentialHash p ∧
  ap_StartedAt p' = ap_StartedAt p.

Lemma renewed_valid p s now :
  live_participation p → 1 ≤ s → t_ns (ap_UpdatedAt p) ≤ t_ns now →
  live_participation (p <| ap_RenewalSequence := s |> <| ap_UpdatedAt := now |>
    <| ap_LeaseExpiresAt := Time_Add now AttemptParticipationInitialLease |>).
Proof.
  intros ([? ? ? Hs Hl] & Hst & H0) ? ?.
  split; [|done]. split; cbn; try done; [intuition lia| |by rewrite Hst in *].
  unfold AttemptParticipationInitialLease, Second. lia.
Qed.

Lemma participation_renew_lease r p :
  live_participation p →
  let '(p', res) := participation_renew r p in
  let '(l', o) := lease_renew r (lease_of p) in
  live_participation p' ∧ same_participation p p' ∧ lease_of p' = l' ∧ outcome_of res = o.
Proof.
  intros Hp. destruct r as [g s now]. unfold participation_renew, lease_renew, lease_accepts.
  cbn [rq_generation rq_sequence rq_databaseNow lease_of l_generation l_sequence l_touched l_expires].
  set (n := TimeUTC now).
  assert (Hst : ap_State p = AttemptParticipationActive) by apply Hp.
  assert (Hup : 0 < t_ns (ap_UpdatedAt p)).
  { destruct Hp as ([] & _ & ?). intuition lia. }
  unfold AttemptParticipation_Renew, mbind, method_bind, deref. cbn [mbind].
  rewrite Hst, bool_decide_true by done. cbn [negb orb].
  unfold AttemptParticipation_IsExpiredAt. rewrite TimeUTC_idemp. fold n.
  destruct ((g =? ap_Generation p) && (1 <=? s) && (ap_RenewalSequence p <=? s)) eqn:F.
  2: { destruct (_ || _) eqn:E; [by cbn|]. exfalso. to_prop. lia. }
  destruct (_ || _) eqn:E; [exfalso; to_prop; lia|]. clear E. cbn [andb].
  destruct ((t_ns (ap_UpdatedAt p) <=? t_ns n) && (t_ns n <? t_ns (ap_LeaseExpiresAt p))) eqn:G.
  2: { destruct (_ || _) eqn:E; [by cbn|]. exfalso. to_prop. lia. }
  destruct (_ || _) eqn:E; [exfalso; to_prop; lia|]. clear E. to_prop.
  destruct (s =? ap_RenewalSequence p) eqn:S; to_prop.
  { rewrite bool_decide_true by done. by cbn. }
  rewrite bool_decide_false by done. unfold try.
  assert (Hv := renewed_valid p s n Hp ltac:(lia) ltac:(lia)).
  destruct (AttemptParticipation_Validate_spec
    (p <| ap_RenewalSequence := s |> <| ap_UpdatedAt := n |>
       <| ap_LeaseExpiresAt := Time_Add n AttemptParticipationInitialLease |>)) as [_ HV].
  rewrite HV by apply Hv. by split_and!.
Qed.

Lemma participation_renewals_lease rs p :
  live_participation p →
  live_participation (participation_renewals rs p).1 ∧
  same_participation p (participation_renewals rs p).1 ∧
  lease_of (participation_renewals rs p).1 = (lease_renewals rs (lease_of p)).1 ∧
  outcome_of <$> (participation_renewals rs p).2 = (lease_renewals rs (lease_of p)).2.
Proof.
  revert p. induction rs as [|r rs IH]; intros p Hp; [by cbn|].
  pose proof (participation_renew_lease r p Hp) as H. cbn.
  destruct (participation_renew r p) as [p1 res], (lease_renew r (lease_of p)) as [l1 o].
  destruct H as (Hp1 & Hs1 & <- & <-). specialize (IH p1 Hp1).
  destruct (participation_renewals rs p1) as [p2 ress],
           (lease_renewals rs (lease_of p1)) as [l2 os]; cbn in *.
  destruct IH as (? & Hs2 & <- & <-). split_and!; [done| |done..].
  unfold same_participation in *. intuition congruence.
Qed.

(** The lease machine only moves forward. *)
Lemma lease_renewals_monotone rs l :
  l_sequence l ≤ l_sequence (lease_renewals rs l).1 ∧
  l_generation (lease_renewals rs l).1 = l_generation l ∧
  l_touched l ≤ l_touched (lease_renewals rs l).1.
Proof.
  revert l. induction rs as [|r rs IH]; intros l; cbn; [lia|].
  destruct (lease_renew r l) as [l1 o] eqn:E. specialize (IH l1).
  destruct (lease_renewals rs l1) as [l2 os]; cbn in *.
  unfold lease_renew, lease_accepts in E. split_ifs; simplify_eq; cbn in *; to_prop; lia.
Qed.

Lemma renew_expired r p t :
  t_ns (ap_LeaseExpiresAt p) ≤ t_ns (TimeUTC t) → t_ns t ≤ t_ns (rq_databaseNow r) →
  ∃ e, participation_renew r p = (p, Err e).
Proof.
  intros Hx Ht%TimeUTC_mono. unfold participation_renew, AttemptParticipation_Renew.
  unfold mbind, method_bind, deref. destruct (_ || _ || _ || _); [by eexists|].
  destruct (_ || _) eqn:E; [by eexists|]. exfalso.
  unfold AttemptParticipation_IsExpiredAt in E. rewrite TimeUTC_idemp in E. to_prop. lia.
Qed.

Lemma renewals_expired rs p t :
  t_ns (ap_LeaseExpiresAt p) ≤ t_ns (TimeUTC t) →
  Forall (λ r, t_ns t ≤ t_ns (rq_databaseNow r)) rs →
  (participation_renewals rs p).1 = p ∧
  Forall (λ res, is_ok res = false) (participation_renewals rs p).2.
Proof.
  intros Hx. induction 1 as [|r rs Hr Hrs IH]; [by cbn|].
  destruct (renew_expired r p t Hx Hr) as [e He]. cbn. rewrite He.
  destruct (participation_renewals rs p) as [p2 ress]; cbn in *. naive_solver.
Qed.

(** ** Samples, for the witnesses *)

Definition sample_hash : string :=
  "00000000000000000000000000000000000000000000000000000000000000ab".
Definition sample_participation : AttemptParticipation :=
  mkAttemptParticipation sample_id sample_id sample_id AttemptParticipationActive 1 0 sample_hash
    (at_second 100) (at_second 100) (at_second 120) noTime noEndReason.

Lemma sample_participation_new :
  NewAttemptParticipation sample_id sample_id sample_id 1 sample_hash (at_second 100)
  = Ok sample_participation.
Proof. vm_compute. reflexivity. Qed.

Lemma sample_participation_live : live_participation sample_participation.
Proof.
  split; [|split; [reflexivity|by vm_compute]].
  apply AttemptParticipation_Validate_spec. vm_compute. reflexivity.
Qed.

Definition sample_suspension : AttemptSuspension :=
  mkAttemptSuspension sample_id sample_id sample_id sample_id 1 AttemptSuspensionActive
    AttemptSuspensionSourcePolicy AttemptSuspensionCandidateReasonFocusLossPolicy
    (at_second 100) noTime "" "" "" "".

(** ** Theorems *)

(** C4. Any sequence of renewals of a live Participation behaves as the lease
    machine: a request is honoured exactly when it names the generation, carries a
    sequence at least 1 and not older than the accepted one, and falls between the
    last decision and the exclusive expiry; repeating the accepted sequence
    changes nothing, a fresh one moves the expiry to 20 s after the decision; the
    accepted sequence never goes back; and identity, session, credential and start
    never change. *)
Theorem participation_renewals_refine_lease rs p :
  live_participation p →
  let q := (participation_renewals rs p).1 in
  live_participation q ∧ same_participation p q ∧
  lease_of q = (lease_renewals rs (lease_of p)).1 ∧
  outcome_of <$> (participation_renewals rs p).2 = (lease_renewals rs (lease_of p)).2 ∧
  ap_RenewalSequence p ≤ ap_RenewalSequence q ∧ ap_Generation q = ap_Generation p.
Proof.
  intros (? & ? & Hl & ?)%(participation_renewals_lease rs). cbn zeta.
  destruct (lease_renewals_monotone rs (lease_of p)) as (Hs & Hg & _).
  rewrite <-Hl in Hs, Hg. by split_and!.
Qed.

Lemma participation_renewals_refine_lease_witness :
  let rs := [mkRenewalRequest 1 1 (at_second 105); mkRenewalRequest 1 1 (at_second 106);
             mkRenewalRequest 1 2 (at_second 130)] in
  let q := (participation_renewals rs sample_participation).1 in
  live_participation q ∧ same_participation sample_participation q ∧
  lease_of q = (lease_renewals rs (lease_of sample_participation)).1 ∧
  outcome_of <$> (participation_renewals rs sample_participation).2
    = (lease_renewals rs (lease_of sample_participation)).2 ∧
  ap_RenewalSequence sample_participation ≤ ap_RenewalSequence q ∧
  ap_Generation q = ap_Generation sample_participation.
Proof. intros rs. apply participation_renewals_refine_lease, sample_participation_live. Defined.

(** Expiry is permanent: once the lease has run out at some instant, every
    renewal decided at or after that instant is refused, whatever generation and
    sequence it names, and the Participation stays as it was. *)
Theorem participation_expiry_permanent rs p t :
  AttemptParticipation_IsExpiredAt (Some p) t = true →
  Forall (λ r, t_ns t ≤ t_ns (rq_databaseNow r)) rs →
  (participation_renewals rs p).1 = p ∧
  Forall (λ res, is_ok res = false) (participation_renewals rs p).2.
Proof.
  intros Hx. apply renewals_expired. unfold AttemptParticipation_IsExpiredAt in Hx. to_prop. lia.
Qed.

Lemma participation_expiry_permanent_witness :
  let rs := [mkRenewalRequest 1 1 (at_second 120); mkRenewalRequest 1 7 (at_second 121)] in
  (participation_renewals rs sample_participation).1 = sample_participation ∧
  Forall (λ res, is_ok res = false) (participation_renewals rs sample_participation).2.
Proof.
  intros rs. apply (participation_expiry_permanent rs sample_participation (at_second 120)).
  - vm_compute. reflexivity.
  - repeat constructor; vm_compute; discriminate.
Defined.

(** A Suspension is re-allowed at most once, by a valid actor with a trimmed,
    bounded, non-empty reason, not before it started; its cause, its source, its
    flag and the suspending manager's reason survive, and the closed episode
    refuses every later re-allow. *)
Theorem suspension_reallowed_once s s' actor reason at_ :
  AttemptSuspension_Validate (Some s) = Ok tt →
  AttemptSuspension_Reallow actor reason at_ (Some s) = (Some s', Ok tt) →
  AttemptSuspension_Validate (Some s') = Ok tt ∧
  s' = s <| as_State := AttemptSuspensionClosed |> <| as_EndedAt := OptionalTimeFrom at_ |>
         <| as_ReallowedByUserID := actor |> <| as_PrivateReason := reason |> ∧
  t_ns (as_StartedAt s) ≤ t_ns (TimeUTC at_) ∧ ID_IsValid actor = true ∧
  (1 ≤ RuneCountInString reason ≤ 1000 ∧ len reason ≤ 4000) ∧
  ∀ actor' reason' at', AttemptSuspension_Reallow actor' reason' at' (Some s')
    = (Some s', Err (as_error "Attempt Suspension cannot be re-allowed")).
Proof.
  intros Hs H. unfold AttemptSuspension_Reallow in H. inv_run H.
  split_and!; try done.
  - match goal with V : AttemptSuspension_Validate (Some (_ <| _ := _ |>)) = _ |- _ =>
      unfold AttemptSuspension_Validate in V; inv_run V end.
    unfold as_state_check in *. cbn in *.
    to_prop. lia.
  - to_prop. tauto.
  - unfold validAttemptSuspensionPrivateReason in *. to_prop. lia.
  - unfold validAttemptSuspensionPrivateReason, AttemptSuspensionPrivateReasonMaximumRunes in *.
    to_prop. lia.
  - unfold validAttemptSuspensionPrivateReason in *. to_prop. lia.
Qed.

Lemma suspension_reallowed_once_witness :
  let s' := sample_suspension <| as_State := AttemptSuspensionClosed |>
    <| as_EndedAt := OptionalTimeFrom (at_second 200) |>
    <| as_ReallowedByUserID := sample_id |> <| as_PrivateReason := "verified" |> in
  AttemptSuspension_Validate (Some s') = Ok tt ∧
  t_ns (as_StartedAt sample_suspension) ≤ t_ns (TimeUTC (at_second 200)).
Proof.
  destruct (suspension_reallowed_once sample_suspension
    (sample_suspension <| as_State := AttemptSuspensionClosed |>
      <| as_EndedAt := OptionalTimeFrom (at_second 200) |>
      <| as_ReallowedByUserID := sample_id |> <| as_PrivateReason := "verified" |>)
    sample_id "verified" (at_second 200)) as (H1 & _ & H2 & _);
    [vm_compute; reflexivity..|]. by split.
Defined.
