(* ===== verification/AttemptAggregate.v ===== *)
(** * Coordinated transitions of a live Attempt

    Models the functions that change an Exam Attempt, its Participation and its
    Connection together: [SuspendExamAttemptForFocusLoss]
    ([server/model/focus_loss.go]), [SuspendExamAttemptByManager]
    ([exam_attempt_manual_suspension.go]) and [SubmitExamAttempt],
    [SealExamAttemptForSittingClose], [EndExamAttemptByManager]
    ([exam_submission.go]).  Each works on copies and writes the three pointees in
    its last statement, so its model returns the three new values, or an error
    with the pointees as they were. *)

From S2P Require Import Prelude GoTime GoStrings Ident ModelError ExamAttempt.

(** ** Operations *)

Record Aggregate := mkAggregate {
  ag_attempt : ExamAttempt;
  ag_participation : AttemptParticipation;
  ag_connection : AttemptConnection }.

Definition valid_attempt (a : ExamAttempt) : bool := is_ok (ExamAttempt_Validate (Some a)).
Definition valid_participation (p : AttemptParticipation) : bool :=
  is_ok (AttemptParticipation_Validate (Some p)).
Definition valid_connection (c : AttemptConnection) : bool :=
  is_ok (AttemptConnection_Validate (Some c)).

Definition laterTime (current candidate : Time) : Time :=
  if Time_After current candidate then current else candidate.

Definition SuspendExamAttemptForFocusLoss (attempt : option ExamAttempt)
    (participation : option AttemptParticipation) (connection : option AttemptConnection)
    (at_ : Time) : result Aggregate :=
  let e := invalidModelError "focus_loss" "" "invalid Focus Loss suspension aggregate" "" in
  match attempt, participation, connection with
  | Some a, Some p, Some c =>
      fail_if negb (valid_attempt a) || negb (valid_participation p) || negb (valid_connection c)
              || (ap_AttemptID p !=? ea_ID a) || (ac_AttemptID c !=? ea_ID a)
              || (ac_ParticipationID c !=? ap_ID p)
        with e ;;
      attemptCandidate ← on_copy (ExamAttempt_Suspend at_) a;
      participationCandidate ←
        on_copy (AttemptParticipation_End AttemptParticipationEndPolicySuspended at_) p;
      connectionCandidate ←
        on_copy (AttemptConnection_Close AttemptConnectionClosePolicySuspended at_) c;
      Ok (mkAggregate attemptCandidate participationCandidate connectionCandidate)
  | _, _, _ => Err e
  end.

(** A reconnecting candidate has no open Connection: it may be nil. *)
Definition SuspendExamAttemptByManager (attempt : option ExamAttempt)
    (participation : option AttemptParticipation) (connection : option AttemptConnection)
    (at_ : Time) : result (ExamAttempt * AttemptParticipation * option AttemptConnection) :=
  let e := invalidModelError "exam_attempt_manual_suspension" ""
             "invalid manual Exam Attempt suspension aggregate" "" in
  match attempt, participation with
  | Some a, Some p =>
      fail_if negb (valid_attempt a) || negb (valid_participation p)
              || (ap_AttemptID p !=? ea_ID a) || (ea_State a !=? ExamAttemptActive)
              || (ap_State p !=? AttemptParticipationActive)
              || match connection with
                 | None => false
                 | Some c => negb (valid_connection c) || (ac_AttemptID c !=? ea_ID a)
                             || (ac_ParticipationID c !=? ap_ID p)
                             || (ac_State c !=? AttemptConnectionOpen)
                 end
        with e ;;
      let at_ := TimeUTC at_ in
      fail_if Time_IsZero at_ || Time_Before at_ (ea_UpdatedAt a)
              || Time_Before at_ (ap_UpdatedAt p)
              || match connection with
                 | None => false
                 | Some c => Time_Before at_ (ac_OpenedAt c)
                 end
        with invalidModelError "exam_attempt_manual_suspension" ""
               "invalid manual Exam Attempt suspension time" "" ;;
      attemptCandidate ← on_copy (ExamAttempt_Suspend at_) a;
      participationCandidate ← on_copy (AttemptParticipation_End AttemptParticipationEndKicked at_) p;
      connectionCandidate ←
        match connection with
        | None => Ok None
        | Some c => c' ← on_copy (AttemptConnection_Close AttemptConnectionCloseKicked at_) c;
                    Ok (Some c')
        end;
      Ok (attemptCandidate, participationCandidate, connectionCandidate)
  | _, _ => Err e
  end.

Definition SubmitExamAttempt (attempt : option ExamAttempt)
    (participation : option AttemptParticipation) (connection : option AttemptConnection)
    (at_ : Time) : result Aggregate :=
  let e := invalidModelError "exam_submission" "" "invalid Exam Submission lifecycle aggregate" "" in
  match attempt, participation, connection with
  | Some a, Some p, Some c =>
      fail_if negb (valid_attempt a) || negb (valid_participation p) || negb (valid_connection c)
              || (ap_AttemptID p !=? ea_ID a) || (ac_AttemptID c !=? ea_ID a)
              || (ac_ParticipationID c !=? ap_ID p) || (ea_State a !=? ExamAttemptActive)
              || (ap_State p !=? AttemptParticipationActive)
              || (ac_State c !=? AttemptConnectionOpen)
        with e ;;
      let at_ := TimeUTC at_ in
      fail_if Time_IsZero at_ || Time_Before at_ (ap_StartedAt p) || Time_Before at_ (ac_OpenedAt c)
        with invalidModelError "exam_submission" "" "invalid Exam Submission time" "" ;;
      let attemptCandidate := a <| ea_State := ExamAttemptSubmitted |>
        <| ea_SubmittedAt := OptionalTimeFrom at_ |>
        <| ea_UpdatedAt := laterTime (ea_UpdatedAt a) at_ |>
        <| ea_Revision := int64_succ (ea_Revision a) |> in
      _ ← ExamAttempt_Validate (Some attemptCandidate);
      participationCandidate ←
        on_copy (AttemptParticipation_End AttemptParticipationEndSubmitted at_) p;
      let participationCandidate :=
        participationCandidate <| ap_UpdatedAt := laterTime (ap_UpdatedAt p) at_ |> in
      _ ← AttemptParticipation_Validate (Some participationCandidate);
      connectionCandidate ← on_copy (AttemptConnection_Close AttemptConnectionCloseSubmitted at_) c;
      Ok (mkAggregate attemptCandidate participationCandidate connectionCandidate)
  | _, _, _ => Err e
  end.

(** The statements [SealExamAttemptForSittingClose] and
    [EndExamAttemptByManager] share: the Attempt is submitted, and the records
    still live end with the given causes. *)
Definition end_unresolved (endReason : AttemptParticipationEndReason)
    (closeReason : AttemptConnectionCloseReason) (a : ExamAttempt) (p : AttemptParticipation)
    (c : AttemptConnection) (at_ : Time) : result Aggregate :=
  let attemptCandidate := a <| ea_State := ExamAttemptSubmitted |>
    <| ea_SubmittedAt := OptionalTimeFrom at_ |> <| ea_UpdatedAt := at_ |>
    <| ea_Revision := int64_succ (ea_Revision a) |> in
  _ ← ExamAttempt_Validate (Some attemptCandidate);
  participationCandidate ←
    (if ap_State p ==? AttemptParticipationActive
     then on_copy (AttemptParticipation_End endReason at_) p else Ok p);
  connectionCandidate ←
    (if ac_State c ==? AttemptConnectionOpen
     then on_copy (AttemptConnection_Close closeReason at_) c else Ok c);
  Ok (mkAggregate attemptCandidate participationCandidate connectionCandidate).

Definition SealExamAttemptForSittingClose (attempt : option ExamAttempt)
    (participation : option AttemptParticipation) (connection : option AttemptConnection)
    (at_ : Time) : result Aggregate :=
  let e := invalidModelError "exam_submission" ""
             "invalid automatic Exam Submission lifecycle aggregate" "" in
  match attempt, participation, connection with
  | Some a, Some p, Some c =>
      fail_if negb (valid_attempt a) || negb (valid_participation p) || negb (valid_connection c)
              || (ap_AttemptID p !=? ea_ID a) || (ac_AttemptID c !=? ea_ID a)
              || (ac_ParticipationID c !=? ap_ID p)
              || ((ea_State a !=? ExamAttemptActive) && (ea_State a !=? ExamAttemptReady)
                  && (ea_State a !=? ExamAttemptSuspended))
              || ((ap_State p ==? AttemptParticipationEnded)
                  && (ac_State c !=? AttemptConnectionClosed))
        with e ;;
      let at_ := TimeUTC at_ in
      fail_if Time_IsZero at_ || Time_Before at_ (ea_UpdatedAt a)
              || Time_Before at_ (ap_UpdatedAt p) || Time_Before at_ (ac_OpenedAt c)
        with invalidModelError "exam_submission" "" "invalid automatic Exam Submission time" "" ;;
      end_unresolved AttemptParticipationEndSittingClosed AttemptConnectionCloseSittingClosed
        a p c at_
  | _, _, _ => Err e
  end.

Definition EndExamAttemptByManager (attempt : option ExamAttempt)
    (participation : option AttemptParticipation) (connection : option AttemptConnection)
    (at_ : Time) : result Aggregate :=
  let e := invalidModelError "exam_submission" ""
             "invalid manager-ended Exam Submission lifecycle aggregate" "" in
  match attempt, participation, connection with
  | Some a, Some p, Some c =>
      fail_if negb (valid_attempt a) || negb (valid_participation p) || negb (valid_connection c)
              || (ap_AttemptID p !=? ea_ID a) || (ac_AttemptID c !=? ea_ID a)
              || (ac_ParticipationID c !=? ap_ID p) || negb (IsUnresolved (ea_State a))
              || ((ap_State p ==? AttemptParticipationEnded)
                  && (ac_State c !=? AttemptConnectionClosed))
        with e ;;
      let at_ := TimeUTC at_ in
      fail_if Time_IsZero at_ || Time_Before at_ (ea_UpdatedAt a)
              || Time_Before at_ (ap_UpdatedAt p) || Time_Before at_ (ac_OpenedAt c)
        with invalidModelError "exam_submission" "" "invalid manager-ended Exam Submission time" "" ;;
      end_unresolved AttemptParticipationEndManagerEnded AttemptConnectionCloseManagerEnded
        a p c at_
  | _, _, _ => Err e
  end.

(** ** The transitions on copies *)

Lemma valid_attempt_spec a : valid_attempt a = true ↔ AttemptValid a.
Proof.
  rewrite <-ExamAttempt_Validate_spec. unfold valid_attempt.
  by destruct (ExamAttempt_Validate _) as [[]|].
Qed.
Lemma valid_participation_spec p : valid_participation p = true ↔ ParticipationValid p.
Proof.
  rewrite <-AttemptParticipation_Validate_spec. unfold valid_participation.
  by destruct (AttemptParticipation_Validate _) as [[]|].
Qed.
Lemma valid_connection_spec c : valid_connection c = true ↔ ConnectionValid c.
Proof.
  rewrite <-AttemptConnection_Validate_spec. unfold valid_connection.
  by destruct (AttemptConnection_Validate _) as [[]|].
Qed.
#[export] Hint Rewrite valid_attempt_spec valid_participation_spec valid_connection_spec : gobool.

Definition suspended_attempt (at_ : Time) (a : ExamAttempt) : ExamAttempt :=
  a <| ea_State := ExamAttemptSuspended |> <| ea_UpdatedAt := TimeUTC at_ |>
    <| ea_Revision := int64_succ (ea_Revision a) |>.
Definition ended_participation (r : AttemptParticipationEndReason) (at_ : Time)
    (p : AttemptParticipation) : AttemptParticipation :=
  p <| ap_State := AttemptParticipationEnded |> <| ap_EndReason := r |>
    <| ap_EndedAt := OptionalTimeFrom at_ |> <| ap_UpdatedAt := TimeUTC at_ |>.
Definition closed_connection (r : AttemptConnectionCloseReason) (at_ : Time)
    (c : AttemptConnection) : AttemptConnection :=
  c <| ac_State := AttemptConnectionClosed |> <| ac_CloseReason := r |>
    <| ac_ClosedAt := OptionalTimeFrom at_ |>.

Lemma suspend_copy a a' at_ :
  on_copy (ExamAttempt_Suspend at_) a = Ok a' ↔
  ea_State a = ExamAttemptActive ∧ a' = suspended_attempt at_ a ∧ AttemptValid a'.
Proof.
  rewrite ok_on_copy. split.
  - intros (p & u & H & ->). unfold ExamAttempt_Suspend in H. inv_run H.
    split_and!; [by to_prop|done|by apply ExamAttempt_Validate_spec].
  - intros (Hs & -> & Hv). exists (Some (suspended_attempt at_ a)), tt. split; [|reflexivity].
    unfold ExamAttempt_Suspend. go_run; [by rewrite Hs|by apply ExamAttempt_Validate_spec].
Qed.

Lemma end_copy p p' r at_ :
  on_copy (AttemptParticipation_End r at_) p = Ok p' ↔
  ap_State p = AttemptParticipationActive ∧ EndReason_IsValid r = true ∧
  p' = ended_participation r at_ p ∧ ParticipationValid p'.
Proof.
  rewrite ok_on_copy. split.
  - intros (q & u & H & ->). unfold AttemptParticipation_End in H. inv_run H. to_prop.
    split_and!; [tauto..|by apply AttemptParticipation_Validate_spec].
  - intros (Hs & Hr & -> & Hv). exists (Some (ended_participation r at_ p)), tt. split; [|reflexivity].
    unfold AttemptParticipation_End.
    go_run; [by rewrite Hs, Hr|by apply AttemptParticipation_Validate_spec].
Qed.

Lemma close_copy c c' r at_ :
  on_copy (AttemptConnection_Close r at_) c = Ok c' ↔
  ac_State c = AttemptConnectionOpen ∧ CloseReason_IsValid r = true ∧
  c' = closed_connection r at_ c ∧ ConnectionValid c'.
Proof.
  rewrite ok_on_copy. split.
  - intros (q & u & H & ->). unfold AttemptConnection_Close in H. inv_run H. to_prop.
    split_and!; [tauto..|by apply AttemptConnection_Validate_spec].
  - intros (Hs & Hr & -> & Hv). exists (Some (closed_connection r at_ c)), tt. split; [|reflexivity].
    unfold AttemptConnection_Close.
    go_run; [by rewrite Hs, Hr|by apply AttemptConnection_Validate_spec].
Qed.

(** A live record can end at any non-zero instant that does not precede it. *)
Lemma ended_participation_valid p r at_ :
  ParticipationValid p → EndReason_IsValid r = true →
  t_ns (TimeUTC at_) ≠ 0 → t_ns (ap_StartedAt p) ≤ t_ns (TimeUTC at_) →
  ParticipationValid (ended_participation r at_ p).
Proof. intros [] ? ? ?. split; cbn; intuition lia. Qed.

Lemma closed_connection_valid c r at_ :
  ConnectionValid c → CloseReason_IsValid r = true →
  t_ns (TimeUTC at_) ≠ 0 → t_ns (ac_OpenedAt c) ≤ t_ns (TimeUTC at_) →
  ConnectionValid (closed_connection r at_ c).
Proof. intros [] ? ? ?. split; cbn; intuition lia. Qed.

(** ** Histories of an Attempt *)

(** The steps an Attempt's records take: the coordinated transitions above, the
    renewals, losses and reopenings of its Connection, the lease running out, and
    a re-admission, which starts the next Participation generation. *)
Inductive attempt_step : Aggregate → Aggregate → Prop :=
  | step_renew a p c p' r dup :
      participation_renew r p = (p', Ok dup) →
      attempt_step (mkAggregate a p c) (mkAggregate a p' c)
  | step_disconnect a p c c' at_ :
      on_copy (AttemptConnection_Close AttemptConnectionCloseTransport at_) c = Ok c' →
      attempt_step (mkAggregate a p c) (mkAggregate a p c')
  | step_reconnect a p c c' id at_ :
      AllowsCandidateConnection (ea_State a) = true → ac_State c = AttemptConnectionClosed →
      NewAttemptConnection id (ea_ID a) (ap_ID p) (ap_SessionID p) at_ = Ok c' →
      attempt_step (mkAggregate a p c) (mkAggregate a p c')
  | step_lease_expired a p c a' p' c' at_ :
      AttemptParticipation_IsExpiredAt (Some p) at_ = true →
      on_copy (ExamAttempt_Suspend at_) a = Ok a' →
      on_copy (AttemptParticipation_End AttemptParticipationEndLeaseExpired at_) p = Ok p' →
      (if ac_State c ==? AttemptConnectionOpen
       then on_copy (AttemptConnection_Close AttemptConnectionCloseLeaseExpired at_) c
       else Ok c) = Ok c' →
      attempt_step (mkAggregate a p c) (mkAggregate a' p' c')
  | step_focus_loss a p c g at_ :
      SuspendExamAttemptForFocusLoss (Some a) (Some p) (Some c) at_ = Ok g →
      attempt_step (mkAggregate a p c) g
  | step_kick a p c a' p' oc at_ :
      SuspendExamAttemptByManager (Some a) (Some p)
        (if ac_State c ==? AttemptConnectionOpen then Some c else None) at_ = Ok (a', p', oc) →
      attempt_step (mkAggregate a p c) (mkAggregate a' p' (default c oc))
  | step_reallow a p c a' at_ :
      on_copy (ExamAttempt_Reallow at_) a = Ok a' →
      attempt_step (mkAggregate a p c) (mkAggregate a' p c)
  | step_admit a p c a' p' c' pid session hash cid at_ :
      on_copy (ExamAttempt_Activate at_) a = Ok a' →
      NewAttemptParticipation pid (ea_ID a) session (ap_Generation p + 1) hash at_ = Ok p' →
      NewAttemptConnection cid (ea_ID a) pid session at_ = Ok c' →
      attempt_step (mkAggregate a p c) (mkAggregate a' p' c')
  | step_submit a p c g at_ :
      SubmitExamAttempt (Some a) (Some p) (Some c) at_ = Ok g →
      attempt_step (mkAggregate a p c) g
  | step_seal a p c g at_ :
      SealExamAttemptForSittingClose (Some a) (Some p) (Some c) at_ = Ok g →
      attempt_step (mkAggregate a p c) g
  | step_manager_end a p c g at_ :
      EndExamAttemptByManager (Some a) (Some p) (Some c) at_ = Ok g →
      attempt_step (mkAggregate a p c) g.

Definition attempt_initial (g : Aggregate) : Prop :=
  ∃ id exam sitting candidate revision pid session hash cid at_ a p c,
    g = mkAggregate a p c ∧
    NewExamAttempt id exam sitting candidate revision at_ = Ok a ∧
    NewAttemptParticipation pid id session 1 hash at_ = Ok p ∧
    NewAttemptConnection cid id pid session at_ = Ok c.

Definition attempt_reachable (g : Aggregate) : Prop :=
  ∃ g0, attempt_initial g0 ∧ rtc attempt_step g0 g.

(** The three records agree: the Participation is live exactly while the Attempt
    is active, and only a live Participation has an open Connection. *)
Record coherent (g : Aggregate) : Prop := {
  co_attempt : AttemptValid (ag_attempt g);
  co_participation : ParticipationValid (ag_participation g);
  co_connection : ConnectionValid (ag_connection g);
  co_owner : ap_AttemptID (ag_participation g) = ea_ID (ag_attempt g) ∧
             ac_AttemptID (ag_connection g) = ea_ID (ag_attempt g) ∧
             ac_ParticipationID (ag_connection g) = ap_ID (ag_participation g);
  co_started : t_ns (ea_CreatedAt (ag_attempt g)) ≤ t_ns (ap_StartedAt (ag_participation g));
  co_active : ea_State (ag_attempt g) = ExamAttemptActive ↔
              ap_State (ag_participation g) = AttemptParticipationActive;
  co_closed : ap_State (ag_participation g) = AttemptParticipationEnded →
              ac_State (ag_connection g) = AttemptConnectionClosed }.

Lemma reallow_copy a a' at_ :
  on_copy (ExamAttempt_Reallow at_) a = Ok a' →
  ea_State a = ExamAttemptSuspended ∧ AttemptValid a' ∧
  a' = a <| ea_State := ExamAttemptReady |> <| ea_UpdatedAt := TimeUTC at_ |>
         <| ea_Revision := int64_succ (ea_Revision a) |>.
Proof.
  intros (p & u & H & ->)%ok_on_copy. unfold ExamAttempt_Reallow in H. inv_run H.
  split_and!; [by to_prop|by apply ExamAttempt_Validate_spec|done].
Qed.

Lemma activate_copy a a' at_ :
  on_copy (ExamAttempt_Activate at_) a = Ok a' →
  ea_State a = ExamAttemptReady ∧ AttemptValid a' ∧
  a' = a <| ea_State := ExamAttemptActive |> <| ea_UpdatedAt := TimeUTC at_ |>
         <| ea_Revision := int64_succ (ea_Revision a) |>.
Proof.
  intros (p & u & H & ->)%ok_on_copy. unfold ExamAttempt_Activate in H. inv_run H.
  split_and!; [by to_prop|by apply ExamAttempt_Validate_spec|done].
Qed.

Lemma new_participation_ok id att session gen hash at_ p :
  NewAttemptParticipation id att session gen hash at_ = Ok p →
  ParticipationValid p ∧
  p = mkAttemptParticipation id att session AttemptParticipationActive gen 0 hash (TimeUTC at_)
        (TimeUTC at_) (Time_Add (TimeUTC at_) AttemptParticipationInitialLease) noTime noEndReason.
Proof.
  intros H. unfold NewAttemptParticipation in H. inv_run H.
  split; [by apply AttemptParticipation_Validate_spec|done].
Qed.

Lemma new_connection_ok id att pid session at_ c :
  NewAttemptConnection id att pid session at_ = Ok c →
  ConnectionValid c ∧
  c = mkAttemptConnection id att pid session AttemptConnectionOpen (TimeUTC at_) noTime noCloseReason.
Proof.
  intros H. unfold NewAttemptConnection in H. inv_run H.
  split; [by apply AttemptConnection_Validate_spec|done].
Qed.

(** ** Invariant *)

(** Replace calls on copies in the context by what they did. *)
Ltac inv_copies :=
  repeat match goal with
  | H : on_copy (ExamAttempt_Suspend _) _ = Ok _ |- _ =>
      apply suspend_copy in H as (? & -> & ?)
  | H : on_copy (AttemptParticipation_End _ _) _ = Ok _ |- _ =>
      apply end_copy in H as (? & ? & -> & ?)
  | H : on_copy (AttemptConnection_Close _ _) _ = Ok _ |- _ =>
      apply close_copy in H as (? & ? & -> & ?)
  | H : on_copy (ExamAttempt_Reallow _) _ = Ok _ |- _ =>
      apply reallow_copy in H as (? & ? & ->)
  | H : on_copy (ExamAttempt_Activate _) _ = Ok _ |- _ =>
      apply activate_copy in H as (? & ? & ->)
  | H : NewAttemptParticipation _ _ _ _ _ _ = Ok _ |- _ =>
      apply new_participation_ok in H as (? & ->)
  | H : NewAttemptConnection _ _ _ _ _ = Ok _ |- _ =>
      apply new_connection_ok in H as (? & ->)
  | H : ExamAttempt_Validate (Some _) = Ok _ |- _ => apply ExamAttempt_Validate_spec in H
  | H : AttemptParticipation_Validate (Some _) = Ok _ |- _ =>
      apply AttemptParticipation_Validate_spec in H
  | H : AttemptConnection_Validate (Some _) = Ok _ |- _ =>
      apply AttemptConnection_Validate_spec in H
  | H : Ok _ = Ok _ |- _ => apply ok_inj in H; simplify_eq
  end.

(** Invert one step of an Attempt. *)
Ltac attempt_cases H :=
  destruct H;
  try match goal with
  | H : SuspendExamAttemptByManager _ _ (if ?b then _ else _) _ = _ |- _ => destruct b eqn:?
  end;
  unfold SuspendExamAttemptForFocusLoss, SuspendExamAttemptByManager, SubmitExamAttempt,
    SealExamAttemptForSittingClose, EndExamAttemptByManager, end_unresolved in *;
  repeat match goal with
  | H : participation_renew _ _ = _ |- _ => fail 1
  | H : (if _ then _ else _) = Ok _ |- _ => inv_run H
  | H : (_ ≫= _) = Ok _ |- _ => inv_run H
  end; inv_copies; simpl default in *.

(** A renewal keeps the record valid and in the same state. *)
Lemma renew_ok r p p' dup :
  participation_renew r p = (p', Ok dup) → ParticipationValid p →
  ParticipationValid p' ∧ ap_State p' = ap_State p ∧ ap_State p = AttemptParticipationActive ∧
  same_participation p p' ∧ ap_Generation p' = ap_Generation p ∧
  ap_EndedAt p' = ap_EndedAt p ∧ ap_EndReason p' = ap_EndReason p ∧
  t_ns (ap_UpdatedAt p) ≤ t_ns (ap_UpdatedAt p').
Proof.
  unfold participation_renew. intros H Hp.
  destruct (AttemptParticipation_Renew _ _ _ _) as [q res] eqn:E. simplify_eq.
  unfold AttemptParticipation_Renew in E. inv_run E; to_prop; cbn;
    inv_copies; split_and!; try done; try tauto; lia.
Qed.

Lemma attempt_initial_coherent g : attempt_initial g → coherent g.
Proof.
  intros (id & ex & si & ca & rv & pid & se & ha & cid & t & a & p & c & -> & Ha & Hp & Hc).
  unfold NewExamAttempt in Ha. inv_run Ha. inv_copies. by split; cbn.
Qed.

Lemma connection_not_open c :
  ConnectionValid c → ac_State c ≠ AttemptConnectionOpen → ac_State c = AttemptConnectionClosed.
Proof. intros [_ _ H] ?. by destruct (ac_State c). Qed.
Lemma participation_not_active p :
  ParticipationValid p → ap_State p ≠ AttemptParticipationActive →
  ap_State p = AttemptParticipationEnded.
Proof. intros [_ _ _ _ H] ?. by destruct (ap_State p). Qed.
#[export] Hint Resolve connection_not_open participation_not_active : core.

Lemma attempt_step_coherent g g' : coherent g → attempt_step g g' → coherent g'.
Proof.
  intros [Va Vp Vc (O1 & O2 & O3) Hst Hact Hcl] H. attempt_cases H; cbn in *.
  all: try match goal with H : participation_renew _ _ = _ |- _ =>
    apply renew_ok in H as (? & Hs & ? & (? & ? & ? & ? & HS) & ? & ? & ? & ?);
      [rewrite <-HS in Hst|done] end.
  all: unfold AllowsCandidateConnection in *; to_prop.
  all: split; cbn; try (intuition (auto; congruence)).
  match goal with H : AttemptValid _ |- _ => apply eav_stamps in H; apply H end.
Qed.

Record attempt_inv (g : Aggregate) : Prop := {
  ai_coherent : coherent g;
  ai_int64 : in_int64 (ea_Revision (ag_attempt g)) }.

Lemma attempt_step_int64 g g' :
  attempt_step g g' → in_int64 (ea_Revision (ag_attempt g)) →
  in_int64 (ea_Revision (ag_attempt g')).
Proof. intros H Hi. attempt_cases H; cbn in *; (done || apply int64_succ_in_range). Qed.

Lemma attempt_step_inv g g' : attempt_inv g → attempt_step g g' → attempt_inv g'.
Proof. intros [] H. split; eauto using attempt_step_coherent, attempt_step_int64. Qed.

Lemma attempt_initial_inv g : attempt_initial g → attempt_inv g.
Proof.
  intros H. split; [by apply attempt_initial_coherent|].
  destruct H as (? & ? & ? & ? & ? & ? & ? & ? & ? & ? & ? & ? & ? & -> & Ha & _).
  unfold NewExamAttempt in Ha. inv_run Ha. done.
Qed.

Lemma attempt_run_inv g g' : attempt_inv g → rtc attempt_step g g' → attempt_inv g'.
Proof. intros Hi H. induction H; eauto using attempt_step_inv. Qed.

Lemma attempt_reachable_inv g : attempt_reachable g → attempt_inv g.
Proof. intros (g0 & H0%attempt_initial_inv & Hs). eauto using attempt_run_inv. Qed.

(** ** Histories only move forward *)

Record attempt_evolves (g g' : Aggregate) : Prop := {
  ae_identity :
    ea_ID (ag_attempt g') = ea_ID (ag_attempt g) ∧
    ea_ExamID (ag_attempt g') = ea_ExamID (ag_attempt g) ∧
    ea_SittingID (ag_attempt g') = ea_SittingID (ag_attempt g) ∧
    ea_CandidateUserID (ag_attempt g') = ea_CandidateUserID (ag_attempt g) ∧
    ea_AdmissionRevisionID (ag_attempt g') = ea_AdmissionRevisionID (ag_attempt g) ∧
    ea_CreatedAt (ag_attempt g') = ea_CreatedAt (ag_attempt g);
  ae_revision : ag_attempt g' = ag_attempt g ∨
                ea_Revision (ag_attempt g) < ea_Revision (ag_attempt g');
  ae_generation : ap_Generation (ag_participation g) ≤ ap_Generation (ag_participation g');
  ae_same_generation :
    ap_Generation (ag_participation g') = ap_Generation (ag_participation g) →
    same_participation (ag_participation g) (ag_participation g') ∧
    (ap_State (ag_participation g) = AttemptParticipationEnded →
     ag_participation g' = ag_participation g ∧ ag_connection g' = ag_connection g) }.

Lemma attempt_evolves_refl g : attempt_evolves g g.
Proof. split; unfold same_participation; try lia; auto 10. Qed.

Lemma attempt_evolves_trans g1 g2 g3 :
  attempt_evolves g1 g2 → attempt_evolves g2 g3 → attempt_evolves g1 g3.
Proof.
  intros [I1 R1 G1 S1] [I2 R2 G2 S2]. split.
  - intuition congruence.
  - destruct R1 as [E1|], R2 as [E2|]; rewrite ?E2, ?E1 in *; auto; right; lia.
  - lia.
  - intros E. destruct S1 as [P1 F1]; [lia|]. destruct S2 as [P2 F2]; [lia|].
    split; [unfold same_participation in *; intuition congruence|].
    intros Hs. destruct (F1 Hs) as [E1 C1]. rewrite E1, C1 in *. auto.
Qed.

Lemma attempt_step_evolves g g' : attempt_inv g → attempt_step g g' → attempt_evolves g g'.
Proof.
  intros Hi H. pose proof (ai_int64 g Hi) as Hr.
  destruct Hi as [[Va Vp Vc (O1 & O2 & O3) Hst Hact Hcl] _].
  pose proof H as HV. apply attempt_step_coherent in HV; [|by split].
  apply co_attempt, eav_revision in HV.
  attempt_cases H; cbn in *.
  all: try match goal with H : participation_renew _ _ = _ |- _ =>
    apply renew_ok in H as (? & ? & ? & ? & ? & ? & ? & ?); [|done] end.
  all: unfold AllowsCandidateConnection in *; to_prop.
  all: try (apply int64_succ_pos in HV; [|done]).
  all: split; cbn; unfold same_participation in *; rewrite ?HV;
    try (intuition (auto; congruence)); try lia; try (left; done); try (right; lia).
Qed.

Lemma attempt_run_evolves g g' : attempt_inv g → rtc attempt_step g g' → attempt_evolves g g'.
Proof.
  intros Hi H. induction H; [apply attempt_evolves_refl|].
  eauto using attempt_evolves_trans, attempt_step_evolves, attempt_step_inv.
Qed.

Lemma submitted_no_step g g' :
  coherent g → ea_State (ag_attempt g) = ExamAttemptSubmitted → ¬ attempt_step g g'.
Proof.
  intros [Va Vp Vc (O1 & O2 & O3) Hst Hact Hcl] Hs H.
  assert (Hp : ap_State (ag_participation g) = AttemptParticipationEnded).
  { apply participation_not_active; [done|]. intros Hp%Hact. congruence. }
  specialize (Hcl Hp). clear Hact Hst.
  attempt_cases H; cbn in *.
  all: try match goal with H : participation_renew _ _ = _ |- _ =>
    apply renew_ok in H as (? & ? & ? & ?); [|done] end.
  all: unfold AllowsCandidateConnection, IsUnresolved in *; to_prop; intuition congruence.
Qed.

(** *** Sealing *)

Definition submitted_attempt (updated at_ : Time) (a : ExamAttempt) : ExamAttempt :=
  a <| ea_State := ExamAttemptSubmitted |> <| ea_SubmittedAt := OptionalTimeFrom at_ |>
    <| ea_UpdatedAt := updated |> <| ea_Revision := int64_succ (ea_Revision a) |>.

Lemma submitted_attempt_valid updated at_ a :
  AttemptValid a → in_int64 (ea_Revision a) → ea_Revision a ≠ int64_max →
  t_ns (TimeUTC at_) ≠ 0 → t_ns updated ≠ 0 →
  t_ns (ea_CreatedAt a) ≤ t_ns (TimeUTC at_) ≤ t_ns updated →
  AttemptValid (submitted_attempt updated at_ a).
Proof.
  intros [] ? ? ? ? ?. split; cbn; [done|lia| |intuition lia].
  rewrite int64_succ_lt by done. lia.
Qed.

(** An instant at which every record of the aggregate can end. *)
Definition ends_after (g : Aggregate) (at_ : Time) : Prop :=
  t_ns (TimeUTC at_) ≠ 0 ∧
  t_ns (ea_UpdatedAt (ag_attempt g)) ≤ t_ns (TimeUTC at_) ∧
  t_ns (ap_UpdatedAt (ag_participation g)) ≤ t_ns (TimeUTC at_) ∧
  t_ns (ac_OpenedAt (ag_connection g)) ≤ t_ns (TimeUTC at_).

(** The aggregate after an involuntary end: records still live end with the
    given causes, the others keep theirs. *)
Definition ended_aggregate (endReason : AttemptParticipationEndReason)
    (closeReason : AttemptConnectionCloseReason) (at_ : Time) (g : Aggregate) : Aggregate :=
  mkAggregate (submitted_attempt at_ at_ (ag_attempt g))
    (if ap_State (ag_participation g) ==? AttemptParticipationActive
     then ended_participation endReason at_ (ag_participation g) else ag_participation g)
    (if ac_State (ag_connection g) ==? AttemptConnectionOpen
     then closed_connection closeReason at_ (ag_connection g) else ag_connection g).

Lemma end_unresolved_total endReason closeReason g at_ :
  attempt_inv g → ea_Revision (ag_attempt g) ≠ int64_max → ends_after g at_ →
  EndReason_IsValid endReason = true → CloseReason_IsValid closeReason = true →
  end_unresolved endReason closeReason (ag_attempt g) (ag_participation g) (ag_connection g)
    (TimeUTC at_) = Ok (ended_aggregate endReason closeReason (TimeUTC at_) g).
Proof.
  intros [[Va Vp Vc _ Hst _ _] Hi] Hr (Hz & Ha & Hp & Hc) HE HC.
  pose proof (eav_stamps _ Va). pose proof (apv_stamps _ Vp).
  unfold end_unresolved, ended_aggregate. apply ok_bind. exists tt. split.
  { apply ExamAttempt_Validate_spec, submitted_attempt_valid; rewrite ?TimeUTC_idemp; auto; lia. }
  apply ok_bind. exists (ag_participation (ended_aggregate endReason closeReason (TimeUTC at_) g)).
  split.
  { cbn. destruct (ap_State (ag_participation g) ==? AttemptParticipationActive) eqn:E;
      [|reflexivity].
    apply end_copy. to_prop. split_and!; [done..|].
    apply ended_participation_valid; rewrite ?TimeUTC_idemp; auto; lia. }
  apply ok_bind. exists (ag_connection (ended_aggregate endReason closeReason (TimeUTC at_) g)).
  split; [|reflexivity]. cbn.
  destruct (ac_State (ag_connection g) ==? AttemptConnectionOpen) eqn:E; [|reflexivity].
  apply close_copy. to_prop. split_and!; [done..|].
  apply closed_connection_valid; rewrite ?TimeUTC_idemp; auto; lia.
Qed.

(** The guard the involuntary ends share holds on a coherent aggregate. *)
Lemma coherent_guard g :
  coherent g →
  AttemptValid (ag_attempt g) ∧ ParticipationValid (ag_participation g) ∧
  ConnectionValid (ag_connection g) ∧
  ((ap_State (ag_participation g) ==? AttemptParticipationEnded)
   && (ac_State (ag_connection g) !=? AttemptConnectionClosed)) = false.
Proof.
  intros [Va Vp Vc _ _ _ Hcl]. split_and!; try done. apply not_true_iff_false. to_prop. naive_solver.
Qed.

Lemma ends_after_guard g at_ :
  ends_after g at_ →
  Time_IsZero (TimeUTC at_) || Time_Before (TimeUTC at_) (ea_UpdatedAt (ag_attempt g))
  || Time_Before (TimeUTC at_) (ap_UpdatedAt (ag_participation g))
  || Time_Before (TimeUTC at_) (ac_OpenedAt (ag_connection g)) = false.
Proof. unfold ends_after. to_prop. intuition lia. Qed.

Lemma seal_total g at_ :
  attempt_inv g → ea_Revision (ag_attempt g) ≠ int64_max → ends_after g at_ →
  IsUnresolved (ea_State (ag_attempt g)) = true →
  SealExamAttemptForSittingClose (Some (ag_attempt g)) (Some (ag_participation g))
    (Some (ag_connection g)) at_
  = Ok (ended_aggregate AttemptParticipationEndSittingClosed AttemptConnectionCloseSittingClosed
          (TimeUTC at_) g).
Proof.
  intros Hi Hr He Hu. unfold SealExamAttemptForSittingClose.
  destruct (coherent_guard g (ai_coherent g Hi)) as (Va & Vp & Vc & Hg).
  destruct (co_owner g (ai_coherent g Hi)) as (O1 & O2 & O3).
  apply ok_fail_if; split.
  { rewrite Hg. unfold IsUnresolved in Hu. to_prop. intuition auto. }
  apply ok_fail_if; split; [by apply ends_after_guard|by apply end_unresolved_total].
Qed.

Lemma manager_end_total g at_ :
  attempt_inv g → ea_Revision (ag_attempt g) ≠ int64_max → ends_after g at_ →
  IsUnresolved (ea_State (ag_attempt g)) = true →
  EndExamAttemptByManager (Some (ag_attempt g)) (Some (ag_participation g))
    (Some (ag_connection g)) at_
  = Ok (ended_aggregate AttemptParticipationEndManagerEnded AttemptConnectionCloseManagerEnded
          (TimeUTC at_) g).
Proof.
  intros Hi Hr He Hu. unfold EndExamAttemptByManager.
  destruct (coherent_guard g (ai_coherent g Hi)) as (Va & Vp & Vc & Hg).
  destruct (co_owner g (ai_coherent g Hi)) as (O1 & O2 & O3).
  apply ok_fail_if; split.
  { rewrite Hg, Hu. to_prop. intuition auto. }
  apply ok_fail_if; split; [by apply ends_after_guard|by apply end_unresolved_total].
Qed.

Lemma laterTime_ge current candidate :
  t_ns current ≤ t_ns (laterTime current candidate) ∧
  t_ns candidate ≤ t_ns (laterTime current candidate).
Proof. unfold laterTime. destruct (Time_After _ _) eqn:E; to_prop; lia. Qed.

Lemma submit_total g at_ :
  attempt_inv g → ea_Revision (ag_attempt g) ≠ int64_max →
  0 < t_ns (ea_CreatedAt (ag_attempt g)) →
  ea_State (ag_attempt g) = ExamAttemptActive → ac_State (ag_connection g) = AttemptConnectionOpen →
  t_ns (ap_StartedAt (ag_participation g)) ≤ t_ns (TimeUTC at_) →
  t_ns (ac_OpenedAt (ag_connection g)) ≤ t_ns (TimeUTC at_) →
  SubmitExamAttempt (Some (ag_attempt g)) (Some (ag_participation g)) (Some (ag_connection g)) at_
  = Ok (mkAggregate
      (submitted_attempt (laterTime (ea_UpdatedAt (ag_attempt g)) (TimeUTC at_)) (TimeUTC at_)
         (ag_attempt g))
      ((ended_participation AttemptParticipationEndSubmitted (TimeUTC at_) (ag_participation g))
         <| ap_UpdatedAt := laterTime (ap_UpdatedAt (ag_participation g)) (TimeUTC at_) |>)
      (closed_connection AttemptConnectionCloseSubmitted (TimeUTC at_) (ag_connection g))).
Proof.
  intros [[Va Vp Vc (O1 & O2 & O3) Hst Hact _] Hi] Hr H0 Hs Ho Hp Hc.
  pose proof (proj1 Hact Hs) as Hps.
  pose proof (laterTime_ge (ea_UpdatedAt (ag_attempt g)) (TimeUTC at_)) as [L1 L2].
  pose proof (laterTime_ge (ap_UpdatedAt (ag_participation g)) (TimeUTC at_)) as [L3 L4].
  unfold SubmitExamAttempt. apply ok_fail_if; split; [to_prop; intuition auto|].
  apply ok_fail_if; split; [to_prop; intuition lia|].
  apply ok_bind. exists tt. split.
  { apply ExamAttempt_Validate_spec, submitted_attempt_valid; rewrite ?TimeUTC_idemp; auto; lia. }
  assert (Hpv : ParticipationValid (ended_participation AttemptParticipationEndSubmitted
                  (TimeUTC at_) (ag_participation g))).
  { apply ended_participation_valid; rewrite ?TimeUTC_idemp; auto; lia. }
  apply ok_bind. eexists. split; [by apply end_copy; split_and!|].
  apply ok_bind. exists tt. split.
  { apply AttemptParticipation_Validate_spec. destruct Hpv as [? ? ? ? HL]. cbn in *.
    rewrite TimeUTC_idemp in *. split; cbn; try done; rewrite ?TimeUTC_idemp; intuition lia. }
  apply ok_bind. eexists. split; [|reflexivity]. apply close_copy. split_and!; [done..|].
  apply closed_connection_valid; rewrite ?TimeUTC_idemp; auto; lia.
Qed.

(** ** Samples, for the witnesses *)

Definition sample_attempt : ExamAttempt :=
  mkExamAttempt sample_id sample_id sample_id sample_id sample_id ExamAttemptActive
    (at_second 100) (at_second 100) noTime 1.
Definition sample_connection : AttemptConnection :=
  mkAttemptConnection sample_id sample_id sample_id sample_id AttemptConnectionOpen
    (at_second 100) noTime noCloseReason.
Definition sample_aggregate : Aggregate :=
  mkAggregate sample_attempt sample_participation sample_connection.
(** The sample after a focus-loss suspension. *)
Definition sample_blocked : Aggregate :=
  mkAggregate (suspended_attempt (at_second 110) sample_attempt)
    (ended_participation AttemptParticipationEndPolicySuspended (at_second 110) sample_participation)
    (closed_connection AttemptConnectionClosePolicySuspended (at_second 110) sample_connection).

Lemma sample_aggregate_initial : attempt_initial sample_aggregate.
Proof.
  exists sample_id, sample_id, sample_id, sample_id, sample_id, sample_id, sample_id, sample_hash,
    sample_id, (at_second 100), sample_attempt, sample_participation, sample_connection.
  repeat split; vm_compute; reflexivity.
Qed.
Lemma sample_aggregate_reachable : attempt_reachable sample_aggregate.
Proof. exists sample_aggregate. split; [apply sample_aggregate_initial|constructor]. Qed.
Lemma sample_blocked_step : attempt_step sample_aggregate sample_blocked.
Proof. apply (step_focus_loss _ _ _ _ (at_second 110)). vm_compute. reflexivity. Qed.
Lemma sample_blocked_reachable : attempt_reachable sample_blocked.
Proof.
  exists sample_aggregate. split; [apply sample_aggregate_initial|].
  apply rtc_once, sample_blocked_step.
Qed.

(** ** Theorems *)

(** C5. In every reachable state the Attempt, its Participation and its
    Connection are valid and belong together; the Participation is live exactly
    while the Attempt is active, and an ended Participation has no open
    Connection, so no Connection is open on a suspended, ready or submitted
    Attempt. *)
Theorem attempt_reachable_coherent g :
  attempt_reachable g →
  coherent g ∧
  (ac_State (ag_connection g) = AttemptConnectionOpen →
   AllowsCandidateConnection (ea_State (ag_attempt g)) = true).
Proof.
  intros [Hc _]%attempt_reachable_inv. split; [done|]. destruct Hc as [_ Hp _ _ _ Ha Hcl].
  intros Ho. unfold AllowsCandidateConnection. apply bool_decide_eq_true, Ha.
  destruct (decide (ap_State (ag_participation g) = AttemptParticipationActive)) as [|Hn]; [done|].
  apply participation_not_active in Hn; [|done]. rewrite Hcl in Ho; done.
Qed.

Lemma attempt_reachable_coherent_witness :
  coherent sample_blocked ∧
  (ac_State (ag_connection sample_blocked) = AttemptConnectionOpen →
   AllowsCandidateConnection (ea_State (ag_attempt sample_blocked)) = true).
Proof. apply attempt_reachable_coherent, sample_blocked_reachable. Defined.

(** Along any history of an Attempt its identity, candidate, Sitting and
    admission Revision never change, its revision identifies its state, the
    Participation generation only grows, one generation keeps its identity and
    session, an ended one keeps its record and Connection, and a submitted
    aggregate never changes again. *)
Theorem attempt_history g g' :
  attempt_reachable g → rtc attempt_step g g' →
  attempt_evolves g g' ∧
  (ea_Revision (ag_attempt g') = ea_Revision (ag_attempt g) → ag_attempt g' = ag_attempt g) ∧
  (IsTerminal (ea_State (ag_attempt g)) = true → g' = g).
Proof.
  intros Hi%attempt_reachable_inv H. pose proof (attempt_run_evolves g g' Hi H) as He.
  split_and!; [done|..].
  - intros Hr. destruct (ae_revision g g' He); [done|lia].
  - intros Hs%bool_decide_eq_true. destruct H as [|g g1 g' H1 _]; [done|].
    exfalso. eapply submitted_no_step; [apply Hi|done..].
Qed.

Lemma attempt_history_witness :
  attempt_evolves sample_aggregate sample_blocked ∧
  (ea_Revision (ag_attempt sample_blocked) = ea_Revision (ag_attempt sample_aggregate) →
   ag_attempt sample_blocked = ag_attempt sample_aggregate) ∧
  (IsTerminal (ea_State (ag_attempt sample_aggregate)) = true → sample_blocked = sample_aggregate).
Proof.
  apply attempt_history; [apply sample_aggregate_reachable|].
  apply rtc_once, sample_blocked_step.
Defined.

(** C6. An unresolved Attempt can always be brought to its end, by the closing
    Sitting or by a manager, at any instant not before its records' last changes:
    it becomes submitted at that instant, live records end with the cause of the
    call, and records that had ended keep their original cause. *)
Theorem unresolved_attempt_can_end g at_ :
  attempt_reachable g → IsUnresolved (ea_State (ag_attempt g)) = true →
  ea_Revision (ag_attempt g) ≠ int64_max → ends_after g at_ →
  let run f := f (Some (ag_attempt g)) (Some (ag_participation g)) (Some (ag_connection g)) at_ in
  run SealExamAttemptForSittingClose
  = Ok (ended_aggregate AttemptParticipationEndSittingClosed AttemptConnectionCloseSittingClosed
          (TimeUTC at_) g) ∧
  run EndExamAttemptByManager
  = Ok (ended_aggregate AttemptParticipationEndManagerEnded AttemptConnectionCloseManagerEnded
          (TimeUTC at_) g).
Proof.
  intros Hi%attempt_reachable_inv Hu Hr He. split; [by apply seal_total|by apply manager_end_total].
Qed.

Lemma unresolved_attempt_can_end_witness :
  let at_ := at_second 300 in
  let run f := f (Some (ag_attempt sample_blocked)) (Some (ag_participation sample_blocked))
                 (Some (ag_connection sample_blocked)) at_ in
  run SealExamAttemptForSittingClose
  = Ok (ended_aggregate AttemptParticipationEndSittingClosed AttemptConnectionCloseSittingClosed
          (TimeUTC at_) sample_blocked) ∧
  run EndExamAttemptByManager
  = Ok (ended_aggregate AttemptParticipationEndManagerEnded AttemptConnectionCloseManagerEnded
          (TimeUTC at_) sample_blocked).
Proof.
  intros at_. apply unresolved_attempt_can_end.
  - apply sample_blocked_reachable.
  - reflexivity.
  - vm_compute. discriminate.
  - unfold ends_after. vm_compute. repeat split; discriminate.
Defined.

(** A candidate's submission of an active Attempt over an open Connection is
    never refused because a renewal committed after the seal time was read: any
    instant not before the episode's start and the Connection's opening is
    accepted, is recorded as the submission, end and close time, and moves no
    update stamp backwards. *)
Theorem submit_accepts_stale_seal_time g at_ :
  attempt_reachable g → 0 < t_ns (ea_CreatedAt (ag_attempt g)) →
  ea_Revision (ag_attempt g) ≠ int64_max →
  ea_State (ag_attempt g) = ExamAttemptActive → ac_State (ag_connection g) = AttemptConnectionOpen →
  t_ns (ap_StartedAt (ag_participation g)) ≤ t_ns (TimeUTC at_) →
  t_ns (ac_OpenedAt (ag_connection g)) ≤ t_ns (TimeUTC at_) →
  ∃ g', SubmitExamAttempt (Some (ag_attempt g)) (Some (ag_participation g))
          (Some (ag_connection g)) at_ = Ok g' ∧
    ea_State (ag_attempt g') = ExamAttemptSubmitted ∧
    ot_Time (ea_SubmittedAt (ag_attempt g')) = TimeUTC at_ ∧
    ot_Time (ap_EndedAt (ag_participation g')) = TimeUTC at_ ∧
    ap_EndReason (ag_participation g') = AttemptParticipationEndSubmitted ∧
    ac_CloseReason (ag_connection g') = AttemptConnectionCloseSubmitted ∧
    t_ns (ea_UpdatedAt (ag_attempt g)) ≤ t_ns (ea_UpdatedAt (ag_attempt g')) ∧
    t_ns (ap_UpdatedAt (ag_participation g)) ≤ t_ns (ap_UpdatedAt (ag_participation g')).
Proof.
  intros Hi%attempt_reachable_inv H0 Hr Hs Ho Hp Hc. eexists. split; [by apply submit_total|]. cbn.
  rewrite !TimeUTC_idemp. split_and!; try done; apply laterTime_ge.
Qed.

Lemma submit_accepts_stale_seal_time_witness :
  ∃ g', SubmitExamAttempt (Some sample_attempt) (Some sample_participation)
          (Some sample_connection) (at_second 100) = Ok g' ∧
    ea_State (ag_attempt g') = ExamAttemptSubmitted.
Proof.
  destruct (submit_accepts_stale_seal_time sample_aggregate (at_second 100)) as (g' & H & Hs & _).
  - apply sample_aggregate_reachable.
  - vm_compute. reflexivity.
  - vm_compute. discriminate.
  - reflexivity.
  - reflexivity.
  - vm_compute. discriminate.
  - vm_compute. discriminate.
  - exists g'. exact (conj H Hs).
Defined.
