(* ===== verification/Workspace.v ===== *)
(** * Workspaces: paths, entries, content objects and the journal

    Models [server/model/exam_starter_workspace.go],
    [exam_attempt_workspace.go] and the Workspace records of [exam_attempt.go]:
    the path vocabulary, the entries of a Draft's Starter Workspace and of an
    Attempt's Workspace, the lifecycle of a content object, the mutation cursor
    and the journal entries. *)

From S2P Require Import Prelude GoTime GoStrings Ident ModelError.

(** ** Limits (exam_capacity_policy.go and the two workspace files) *)

Definition ExamWorkspaceMaximumEntries : Z := 5000.
Definition ExamWorkspaceMaximumFileBytes : Z := Z.shiftl 100 20.
Definition ExamWorkspaceMaximumTotalBytes : Z := Z.shiftl 1 30.
Definition StarterWorkspaceMaximumDepth : Z := 16.
Definition StarterWorkspaceMaximumSegmentBytes : Z := 255.
Definition StarterWorkspaceMaximumPathBytes : Z := 1024.
Definition AttemptWorkspaceClaimTokenMaxBytes : Z := 128.

(** ** Paths *)

Definition slash : ascii := "/"%char.
Definition backslash : ascii := "\"%char.

(** [strings.HasSuffix(value, "/")] and [strings.Contains(value, "\\")]. *)
Definition HasSuffix_byte (s : string) (c : ascii) : bool :=
  last (bytes s) ==? Some (byte_of_ascii c).
Definition Contains_byte (s : string) (c : ascii) : bool :=
  existsb (Z.eqb (byte_of_ascii c)) (bytes s).

Definition sw_path_error : error :=
  invalidModelError "exam_starter_workspace" "" "invalid Starter Workspace path" "".

(** The loop over the segments. *)
Definition sw_segment_ok (segment : string) : bool :=
  negb ((segment ==? "") || (segment ==? ".") || (segment ==? "..")
        || (StarterWorkspaceMaximumSegmentBytes <? len segment))
  && forallb (λ '(character, _, _), negb (IsControl character)) (runes segment).

Definition NormalizeStarterWorkspacePath (value : string) : result string :=
  fail_if (value ==? "") || negb (ValidString value)
          || (StarterWorkspaceMaximumPathBytes <? len value)
          || HasPrefix value "/" || HasSuffix_byte value slash || Contains_byte value backslash
    with sw_path_error ;;
  let segments := split_byte slash value in
  fail_if (StarterWorkspaceMaximumDepth <? Z.of_nat (length segments))
          || (head segments ==? Some ".proctor")
    with sw_path_error ;;
  fail_if negb (forallb sw_segment_ok segments) with sw_path_error ;;
  Ok value.

Definition NormalizeAttemptWorkspacePath (value : string) : result string :=
  NormalizeStarterWorkspacePath value.

(** [normalized, err := Normalize(path); err == nil && normalized == path]. *)
Definition canonical_path (path : string) : bool :=
  match NormalizeAttemptWorkspacePath path with
  | Ok normalized => normalized ==? path
  | Err _ => false
  end.

(** ** Entries *)

Inductive StarterWorkspaceEntryKind :=
  | StarterWorkspaceEntryFile
  | StarterWorkspaceEntryDirectory
  | StarterWorkspaceEntryKind_other (raw : string).
#[global] Instance StarterWorkspaceEntryKind_eq_dec : EqDecision StarterWorkspaceEntryKind.
Proof. solve_decision. Defined.

Record StarterWorkspaceEntry := mkStarterWorkspaceEntry {
  swe_ID : ID;
  swe_ExamID : ID;
  swe_Kind : StarterWorkspaceEntryKind;
  swe_Path : string;
  swe_CurrentObjectID : ID;
  swe_CreatedAt : Time;
  swe_UpdatedAt : Time;
  swe_ArchivedAt : OptionalTime }.

Definition swe_error (reason : string) : error :=
  invalidModelError "starter_workspace_entry" "" reason "".

Definition StarterWorkspaceEntry_Validate (p : option StarterWorkspaceEntry) : result unit :=
  match p with
  | None => Err (swe_error "invalid Starter Workspace entry")
  | Some e =>
      fail_if negb (ID_IsValid (swe_ID e)) || negb (ID_IsValid (swe_ExamID e))
              || Time_IsZero (swe_CreatedAt e) || Time_IsZero (swe_UpdatedAt e)
              || Time_Before (swe_UpdatedAt e) (swe_CreatedAt e)
        with swe_error "invalid Starter Workspace entry" ;;
      fail_if negb (canonical_path (swe_Path e))
        with swe_error "invalid Starter Workspace entry path" ;;
      fail_if ot_Valid (swe_ArchivedAt e) && Time_Before (ot_Time (swe_ArchivedAt e)) (swe_CreatedAt e)
        with swe_error "invalid Starter Workspace entry lifecycle" ;;
      match swe_Kind e with
      | StarterWorkspaceEntryFile =>
          fail_if negb (ot_Valid (swe_ArchivedAt e)) && negb (ID_IsValid (swe_CurrentObjectID e))
            with swe_error "Starter Workspace file requires a current object" ;;
          fail_if ot_Valid (swe_ArchivedAt e) && negb (ID_IsZero (swe_CurrentObjectID e))
                  && negb (ID_IsValid (swe_CurrentObjectID e))
            with swe_error "Starter Workspace archived file has an invalid object" ;;
          Ok tt
      | StarterWorkspaceEntryDirectory =>
          fail_if negb (ID_IsZero (swe_CurrentObjectID e))
            with swe_error "Starter Workspace directory cannot have content" ;;
          Ok tt
      | StarterWorkspaceEntryKind_other _ =>
          Err (swe_error "invalid Starter Workspace entry kind")
      end
  end.
#[global] Arguments StarterWorkspaceEntry_Validate : simpl never.

Definition newStarterWorkspaceEntry (id examID : ID) (kind : StarterWorkspaceEntryKind)
    (path : string) (objectID : ID) (at_ : Time) : result StarterWorkspaceEntry :=
  normalized ← NormalizeStarterWorkspacePath path;
  let entry := mkStarterWorkspaceEntry id examID kind normalized objectID
    (TimeUTC at_) (TimeUTC at_) noTime in
  _ ← StarterWorkspaceEntry_Validate (Some entry);
  Ok entry.
Definition NewStarterWorkspaceDirectory (id examID : ID) (path : string) (at_ : Time) :=
  newStarterWorkspaceEntry id examID StarterWorkspaceEntryDirectory path "" at_.
Definition NewStarterWorkspaceFile (id examID : ID) (path : string) (objectID : ID) (at_ : Time) :=
  newStarterWorkspaceEntry id examID StarterWorkspaceEntryFile path objectID at_.

Record AttemptWorkspaceEntry := mkAttemptWorkspaceEntry {
  awe_ID : ID;
  awe_WorkspaceID : ID;
  awe_AdmissionRevisionID : ID;
  awe_SourceStarterEntryID : ID;
  awe_Kind : StarterWorkspaceEntryKind;
  awe_Path : string;
  awe_CurrentObjectID : ID;
  awe_CreatedAt : Time;
  awe_UpdatedAt : Time }.

Definition awe_error (reason : string) : error :=
  invalidModelError "attempt_workspace_entry" "" reason "".

Definition AttemptWorkspaceEntry_Validate (p : option AttemptWorkspaceEntry) : result unit :=
  match p with
  | None => Err (awe_error "invalid Attempt Workspace entry")
  | Some e =>
      fail_if negb (ID_IsValid (awe_ID e)) || negb (ID_IsValid (awe_WorkspaceID e))
              || negb (ID_IsValid (awe_AdmissionRevisionID e))
              || (negb (ID_IsZero (awe_SourceStarterEntryID e))
                  && negb (ID_IsValid (awe_SourceStarterEntryID e)))
              || Time_IsZero (awe_CreatedAt e) || Time_IsZero (awe_UpdatedAt e)
              || Time_Before (awe_UpdatedAt e) (awe_CreatedAt e)
        with awe_error "invalid Attempt Workspace entry" ;;
      fail_if negb (canonical_path (awe_Path e))
        with awe_error "invalid Attempt Workspace entry path" ;;
      match awe_Kind e with
      | StarterWorkspaceEntryFile =>
          fail_if negb (ID_IsValid (awe_CurrentObjectID e))
            with awe_error "Attempt Workspace file requires current object" ;;
          Ok tt
      | StarterWorkspaceEntryDirectory =>
          fail_if negb (ID_IsZero (awe_CurrentObjectID e))
            with awe_error "Attempt Workspace directory cannot have content" ;;
          Ok tt
      | StarterWorkspaceEntryKind_other _ =>
          Err (awe_error "invalid Attempt Workspace entry kind")
      end
  end.
#[global] Arguments AttemptWorkspaceEntry_Validate : simpl never.

Definition NewCandidateAttemptWorkspaceFile (id workspaceID revisionID : ID) (path : string)
    (objectID : ID) (at_ : Time) : result AttemptWorkspaceEntry :=
  normalized ← NormalizeAttemptWorkspacePath path;
  let entry := mkAttemptWorkspaceEntry id workspaceID revisionID "" StarterWorkspaceEntryFile
    normalized objectID (TimeUTC at_) (TimeUTC at_) in
  _ ← AttemptWorkspaceEntry_Validate (Some entry);
  Ok entry.

Definition NewCandidateAttemptWorkspaceDirectory (id workspaceID revisionID : ID) (path : string)
    (at_ : Time) : result AttemptWorkspaceEntry :=
  normalized ← NormalizeAttemptWorkspacePath path;
  let entry := mkAttemptWorkspaceEntry id workspaceID revisionID "" StarterWorkspaceEntryDirectory
    normalized "" (TimeUTC at_) (TimeUTC at_) in
  _ ← AttemptWorkspaceEntry_Validate (Some entry);
  Ok entry.

(** ** Content objects of an Attempt *)

(** [WorkspaceContentVersion] (file.go) and its pattern: 26 characters, each an
    ASCII letter or digit, an underscore or a hyphen. *)
Definition WorkspaceContentVersion : Type := string.
Definition ContentVersion_IsValid (v : WorkspaceContentVersion) : bool :=
  (len v =? 26) && forallb (λ c, alnum c || (c =? 95) || (c =? 45)) (bytes v).
Definition ContentVersion_IsZero (v : WorkspaceContentVersion) : bool := v ==? "".

Inductive AttemptWorkspaceObjectStorage :=
  | AttemptWorkspaceStorageStarter
  | AttemptWorkspaceStorageAttempt
  | AttemptWorkspaceStorage_other (raw : string).
#[global] Instance AttemptWorkspaceObjectStorage_eq_dec : EqDecision AttemptWorkspaceObjectStorage.
Proof. solve_decision. Defined.

Inductive AttemptWorkspaceObjectState :=
  | AttemptWorkspaceObjectStaged
  | AttemptWorkspaceObjectCurrent
  | AttemptWorkspaceObjectReclaimable
  | AttemptWorkspaceObjectClaimed
  | AttemptWorkspaceObjectState_other (raw : string).
#[global] Instance AttemptWorkspaceObjectState_eq_dec : EqDecision AttemptWorkspaceObjectState.
Proof. solve_decision. Defined.

Record AttemptWorkspaceContent := mkAttemptWorkspaceContent {
  awc_MediaType : string; awc_SizeBytes : Z; awc_SHA256 : string }.

Definition AttemptWorkspaceContent_Validate (c : AttemptWorkspaceContent) : result unit :=
  fail_if (awc_MediaType c ==? "") || (TrimSpace (awc_MediaType c) !=? awc_MediaType c)
          || (255 <? len (awc_MediaType c)) || (awc_SizeBytes c <? 0)
          || (ExamWorkspaceMaximumFileBytes <? awc_SizeBytes c)
          || negb (validLowerSHA256 (awc_SHA256 c))
    with invalidModelError "attempt_workspace_content" "" "invalid Attempt Workspace content" "" ;;
  Ok tt.

Record AttemptWorkspaceObject := mkAttemptWorkspaceObject {
  awo_ID : ID;
  awo_WorkspaceID : ID;
  awo_StorageOrigin : AttemptWorkspaceObjectStorage;
  awo_StarterObjectID : ID;
  awo_State : AttemptWorkspaceObjectState;
  awo_ContentVersion : WorkspaceContentVersion;
  awo_MediaType : string;
  awo_SizeBytes : Z;
  awo_SHA256 : string;
  awo_CreatedAt : Time;
  awo_UpdatedAt : Time;
  awo_ExpiresAt : Time;
  awo_ReclaimAfter : OptionalTime;
  awo_ClaimToken : string;
  awo_ClaimedAt : OptionalTime }.
#[global] Instance AttemptWorkspaceObject_eta : Eta AttemptWorkspaceObject := λ r,
  mkAttemptWorkspaceObject (awo_ID r) (awo_WorkspaceID r) (awo_StorageOrigin r)
    (awo_StarterObjectID r) (awo_State r) (awo_ContentVersion r) (awo_MediaType r)
    (awo_SizeBytes r) (awo_SHA256 r) (awo_CreatedAt r) (awo_UpdatedAt r) (awo_ExpiresAt r)
    (awo_ReclaimAfter r) (awo_ClaimToken r) (awo_ClaimedAt r).

Definition awo_hasAnyContent (o : AttemptWorkspaceObject) : bool :=
  negb (ContentVersion_IsZero (awo_ContentVersion o)) || (awo_MediaType o !=? "")
  || (awo_SizeBytes o !=? 0) || (awo_SHA256 o !=? "").
Definition awo_content (o : AttemptWorkspaceObject) : AttemptWorkspaceContent :=
  mkAttemptWorkspaceContent (awo_MediaType o) (awo_SizeBytes o) (awo_SHA256 o).

Definition AttemptWorkspaceObject_HasContent (p : option AttemptWorkspaceObject) : bool :=
  match p with
  | None => false
  | Some o => ContentVersion_IsValid (awo_ContentVersion o) && (awo_MediaType o !=? "")
              && (0 <=? awo_SizeBytes o) && validLowerSHA256 (awo_SHA256 o)
  end.

Definition awo_verror (reason : string) : error :=
  invalidModelError "exam_attempt_workspace" "" reason "".
Definition awo_error (reason : string) : error :=
  invalidModelError "attempt_workspace_object" "" reason "".

(** The [switch] on the state of an attempt-origin object.  The claim instant is
    compared with the update stamp by [!=] on [time.Time]. *)
Definition awo_state_check (o : AttemptWorkspaceObject) : result unit :=
  match awo_State o with
  | AttemptWorkspaceObjectStaged =>
      fail_if negb (Time_After (awo_ExpiresAt o) (awo_CreatedAt o)) || ot_Valid (awo_ReclaimAfter o)
              || ot_Valid (awo_ClaimedAt o) || (awo_ClaimToken o !=? "")
        with awo_verror "invalid staged Attempt Workspace object" ;;
      Ok tt
  | AttemptWorkspaceObjectCurrent =>
      fail_if negb (awo_hasAnyContent o) || negb (Time_IsZero (awo_ExpiresAt o))
              || ot_Valid (awo_ReclaimAfter o) || ot_Valid (awo_ClaimedAt o)
              || (awo_ClaimToken o !=? "")
        with awo_verror "invalid current Attempt Workspace object" ;;
      Ok tt
  | AttemptWorkspaceObjectReclaimable =>
      fail_if negb (ot_Valid (awo_ReclaimAfter o))
              || Time_Before (ot_Time (awo_ReclaimAfter o)) (awo_CreatedAt o)
              || ot_Valid (awo_ClaimedAt o) || (awo_ClaimToken o !=? "")
        with awo_verror "invalid reclaimable Attempt Workspace object" ;;
      Ok tt
  | AttemptWorkspaceObjectClaimed =>
      fail_if negb (ot_Valid (awo_ReclaimAfter o)) || negb (ot_Valid (awo_ClaimedAt o))
              || (ot_Time (awo_ClaimedAt o) !=? awo_UpdatedAt o) || (awo_ClaimToken o ==? "")
              || (TrimSpace (awo_ClaimToken o) !=? awo_ClaimToken o)
              || (AttemptWorkspaceClaimTokenMaxBytes <? len (awo_ClaimToken o))
        with awo_verror "invalid claimed Attempt Workspace object" ;;
      Ok tt
  | AttemptWorkspaceObjectState_other _ => Err (awo_verror "invalid Attempt Workspace object state")
  end.

Definition validateAttemptWorkspaceObject (p : option AttemptWorkspaceObject) : result unit :=
  match p with
  | None => Err (awo_verror "invalid Attempt Workspace object")
  | Some o =>
      fail_if negb (ID_IsValid (awo_ID o)) || negb (ID_IsValid (awo_WorkspaceID o))
              || Time_IsZero (awo_CreatedAt o) || Time_IsZero (awo_UpdatedAt o)
              || Time_Before (awo_UpdatedAt o) (awo_CreatedAt o)
        with awo_verror "invalid Attempt Workspace object" ;;
      fail_if awo_hasAnyContent o
              && (negb (ContentVersion_IsValid (awo_ContentVersion o))
                  || negb (is_ok (AttemptWorkspaceContent_Validate (awo_content o))))
        with awo_verror "invalid Attempt Workspace object content" ;;
      if awo_StorageOrigin o ==? AttemptWorkspaceStorageStarter then
        fail_if negb (ID_IsValid (awo_StarterObjectID o))
                || (awo_State o !=? AttemptWorkspaceObjectCurrent) || negb (awo_hasAnyContent o)
                || negb (Time_IsZero (awo_ExpiresAt o)) || ot_Valid (awo_ReclaimAfter o)
                || ot_Valid (awo_ClaimedAt o) || (awo_ClaimToken o !=? "")
          with awo_verror "invalid starter-origin Attempt Workspace object" ;;
        Ok tt
      else
        fail_if (awo_StorageOrigin o !=? AttemptWorkspaceStorageAttempt)
                || negb (ID_IsZero (awo_StarterObjectID o))
          with awo_verror "invalid attempt-origin Attempt Workspace object" ;;
        awo_state_check o
  end.
#[global] Arguments validateAttemptWorkspaceObject : simpl never.

Definition AttemptWorkspaceObject_Validate (p : option AttemptWorkspaceObject) : result unit :=
  validateAttemptWorkspaceObject p.
#[global] Arguments AttemptWorkspaceObject_Validate : simpl never.

Definition NewStagedAttemptWorkspaceObject (id workspaceID : ID) (at_ expiresAt : Time)
    : result AttemptWorkspaceObject :=
  let object := mkAttemptWorkspaceObject id workspaceID AttemptWorkspaceStorageAttempt ""
    AttemptWorkspaceObjectStaged "" "" 0 "" (TimeUTC at_) (TimeUTC at_) (TimeUTC expiresAt)
    noTime "" noTime in
  _ ← AttemptWorkspaceObject_Validate (Some object);
  Ok object.

Definition AttemptWorkspaceObject_MarkContentReady (version : WorkspaceContentVersion)
    (mediaType : string) (size : Z) (checksum : string) (at_ : Time)
    : Method AttemptWorkspaceObject unit :=
  let e := awo_error "Attempt Workspace object cannot accept content" in
  o ← deref e;
  fail_if (awo_State o !=? AttemptWorkspaceObjectStaged) || AttemptWorkspaceObject_HasContent (Some o)
    with e ;;
  let candidate := o <| awo_ContentVersion := version |> <| awo_MediaType := TrimSpace mediaType |>
                     <| awo_SizeBytes := size |> <| awo_SHA256 := ToLower checksum |>
                     <| awo_UpdatedAt := TimeUTC at_ |> in
  fail_if Time_Before (awo_UpdatedAt candidate) (awo_UpdatedAt o)
          || negb (Time_Before (awo_UpdatedAt candidate) (awo_ExpiresAt candidate))
    with awo_error "Attempt Workspace staged content time is invalid" ;;
  _ ← try (AttemptWorkspaceObject_Validate (Some candidate));
  assign candidate.

Definition AttemptWorkspaceObject_MarkCurrent (at_ : Time) : Method AttemptWorkspaceObject unit :=
  let e := awo_error "Attempt Workspace object cannot become current" in
  o ← deref e;
  fail_if (awo_State o !=? AttemptWorkspaceObjectStaged)
          || negb (AttemptWorkspaceObject_HasContent (Some o))
    with e ;;
  let candidate := o <| awo_State := AttemptWorkspaceObjectCurrent |>
                     <| awo_UpdatedAt := TimeUTC at_ |> <| awo_ExpiresAt := zeroTime |> in
  fail_if Time_Before (awo_UpdatedAt candidate) (awo_UpdatedAt o)
    with awo_error "Attempt Workspace object time regressed" ;;
  _ ← try (AttemptWorkspaceObject_Validate (Some candidate));
  assign candidate.

Definition AttemptWorkspaceObject_MarkReclaimable (reclaimAfter at_ : Time)
    : Method AttemptWorkspaceObject unit :=
  let e := awo_error "Attempt Workspace object cannot become reclaimable" in
  o ← deref e;
  fail_if (awo_State o !=? AttemptWorkspaceObjectStaged)
          && (awo_State o !=? AttemptWorkspaceObjectCurrent)
    with e ;;
  let candidate := o <| awo_State := AttemptWorkspaceObjectReclaimable |>
                     <| awo_UpdatedAt := TimeUTC at_ |>
                     <| awo_ReclaimAfter := OptionalTimeFrom reclaimAfter |> in
  fail_if Time_Before (awo_UpdatedAt candidate) (awo_UpdatedAt o)
          || negb (Time_After (ot_Time (awo_ReclaimAfter candidate)) (awo_UpdatedAt candidate))
    with awo_error "Attempt Workspace reclaim time is invalid" ;;
  _ ← try (AttemptWorkspaceObject_Validate (Some candidate));
  assign candidate.

Definition AttemptWorkspaceObject_ClaimForCleanup (token : string) (at_ : Time)
    : Method AttemptWorkspaceObject unit :=
  let at_ := TimeUTC at_ in
  let e := awo_error "Attempt Workspace object cannot be claimed" in
  o ← deref e;
  fail_if (awo_State o !=? AttemptWorkspaceObjectReclaimable)
          || Time_Before at_ (ot_Time (awo_ReclaimAfter o)) || Time_Before at_ (awo_UpdatedAt o)
    with e ;;
  let candidate := o <| awo_State := AttemptWorkspaceObjectClaimed |> <| awo_UpdatedAt := at_ |>
                     <| awo_ClaimedAt := OptionalTimeFrom at_ |> <| awo_ClaimToken := token |> in
  _ ← try (AttemptWorkspaceObject_Validate (Some candidate));
  assign candidate.

Definition AttemptWorkspaceObject_ReleaseCleanup (token : string) (at_ : Time)
    : Method AttemptWorkspaceObject unit :=
  let at_ := TimeUTC at_ in
  let e := awo_error "Attempt Workspace cleanup claim does not match" in
  o ← deref e;
  fail_if (awo_State o !=? AttemptWorkspaceObjectClaimed) || (token !=? awo_ClaimToken o)
          || Time_Before at_ (awo_UpdatedAt o)
    with e ;;
  let candidate := o <| awo_State := AttemptWorkspaceObjectReclaimable |> <| awo_UpdatedAt := at_ |>
                     <| awo_ClaimedAt := noTime |> <| awo_ClaimToken := "" |> in
  _ ← try (AttemptWorkspaceObject_Validate (Some candidate));
  assign candidate.

(** ** The Workspace and its cursor *)

Record ExamAttemptWorkspace := mkExamAttemptWorkspace {
  eaw_ID : ID;
  eaw_AttemptID : ID;
  eaw_Cursor : Z;
  eaw_CreatedAt : Time;
  eaw_UpdatedAt : Time }.
#[global] Instance ExamAttemptWorkspace_eta : Eta ExamAttemptWorkspace := λ r,
  mkExamAttemptWorkspace (eaw_ID r) (eaw_AttemptID r) (eaw_Cursor r) (eaw_CreatedAt r)
    (eaw_UpdatedAt r).

Definition eaw_error (reason : string) : error :=
  invalidModelError "exam_attempt_workspace" "" reason "".

Definition ExamAttemptWorkspace_Validate (p : option ExamAttemptWorkspace) : result unit :=
  let e := eaw_error "invalid Exam Attempt Workspace" in
  match p with
  | None => Err e
  | Some w =>
      fail_if negb (ID_IsValid (eaw_ID w)) || negb (ID_IsValid (eaw_AttemptID w))
              || (eaw_Cursor w <? 0) || Time_IsZero (eaw_CreatedAt w)
              || Time_IsZero (eaw_UpdatedAt w) || Time_Before (eaw_UpdatedAt w) (eaw_CreatedAt w)
        with e ;;
      Ok tt
  end.
#[global] Arguments ExamAttemptWorkspace_Validate : simpl never.

Definition NewExamAttemptWorkspace (id attemptID : ID) (at_ : Time) : result ExamAttemptWorkspace :=
  let at_ := TimeUTC at_ in
  let workspace := mkExamAttemptWorkspace id attemptID 0 at_ at_ in
  _ ← ExamAttemptWorkspace_Validate (Some workspace);
  Ok workspace.

Definition ExamAttemptWorkspace_AdvanceCursor (expected : Z) (at_ : Time)
    : Method ExamAttemptWorkspace unit :=
  let e := eaw_error "stale Attempt Workspace cursor" in
  w ← deref e;
  fail_if (expected !=? eaw_Cursor w) || (expected ==? int64_max) with e ;;
  let candidate := w <| eaw_Cursor := int64_add expected 1 |> <| eaw_UpdatedAt := TimeUTC at_ |> in
  fail_if Time_Before (eaw_UpdatedAt candidate) (eaw_UpdatedAt w)
    with eaw_error "Attempt Workspace time regressed" ;;
  _ ← try (ExamAttemptWorkspace_Validate (Some candidate));
  assign candidate.

(** ** Journal entries *)

Inductive AttemptWorkspaceMutationKind :=
  | AttemptWorkspaceMutationCreateFile
  | AttemptWorkspaceMutationCreateDirectory
  | AttemptWorkspaceMutationReplaceFile
  | AttemptWorkspaceMutationMoveEntry
  | AttemptWorkspaceMutationDeleteEntry
  | AttemptWorkspaceMutation_other (raw : string).
#[global] Instance AttemptWorkspaceMutationKind_eq_dec : EqDecision AttemptWorkspaceMutationKind.
Proof. solve_decision. Defined.

Definition MutationKind_IsValid (k : AttemptWorkspaceMutationKind) : bool :=
  match k with AttemptWorkspaceMutation_other _ => false | _ => true end.

Record AttemptWorkspaceJournalEntry := mkAttemptWorkspaceJournalEntry {
  awj_WorkspaceID : ID;
  awj_Cursor : Z;
  awj_EntryID : ID;
  awj_EntryKind : StarterWorkspaceEntryKind;
  awj_Operation : AttemptWorkspaceMutationKind;
  awj_OldPath : string;
  awj_NewPath : string;
  awj_ContentVersion : WorkspaceContentVersion;
  awj_ChangedAt : Time;
  awj_Recursive : bool }.

Definition awj_error (reason : string) : error :=
  invalidModelError "attempt_workspace_journal_entry" "" reason "".

(** The [switch] on the operation. *)
Definition awj_operation_check (e : AttemptWorkspaceJournalEntry) : result unit :=
  let validOld := canonical_path (awj_OldPath e) in
  let validNew := canonical_path (awj_NewPath e) in
  match awj_Operation e with
  | AttemptWorkspaceMutationCreateFile =>
      fail_if (awj_EntryKind e !=? StarterWorkspaceEntryFile) || (awj_OldPath e !=? "")
              || negb validNew || negb (ContentVersion_IsValid (awj_ContentVersion e))
        with awj_error "invalid Attempt Workspace file creation journal" ;;
      Ok tt
  | AttemptWorkspaceMutationCreateDirectory =>
      fail_if (awj_EntryKind e !=? StarterWorkspaceEntryDirectory) || (awj_OldPath e !=? "")
              || negb validNew || negb (ContentVersion_IsZero (awj_ContentVersion e))
        with awj_error "invalid Attempt Workspace directory creation journal" ;;
      Ok tt
  | AttemptWorkspaceMutationReplaceFile =>
      fail_if (awj_EntryKind e !=? StarterWorkspaceEntryFile) || negb validOld
              || (awj_NewPath e !=? awj_OldPath e)
              || negb (ContentVersion_IsValid (awj_ContentVersion e))
        with awj_error "invalid Attempt Workspace file replacement journal" ;;
      Ok tt
  | AttemptWorkspaceMutationMoveEntry =>
      fail_if ((awj_EntryKind e !=? StarterWorkspaceEntryFile)
               && (awj_EntryKind e !=? StarterWorkspaceEntryDirectory))
              || negb validOld || negb validNew || (awj_OldPath e ==? awj_NewPath e)
              || ((awj_EntryKind e ==? StarterWorkspaceEntryFile)
                  && negb (ContentVersion_IsValid (awj_ContentVersion e)))
              || ((awj_EntryKind e ==? StarterWorkspaceEntryDirectory)
                  && negb (ContentVersion_IsZero (awj_ContentVersion e)))
        with awj_error "invalid Attempt Workspace move journal" ;;
      Ok tt
  | AttemptWorkspaceMutationDeleteEntry =>
      fail_if ((awj_EntryKind e !=? StarterWorkspaceEntryFile)
               && (awj_EntryKind e !=? StarterWorkspaceEntryDirectory))
              || negb validOld || (awj_NewPath e !=? "")
              || negb (ContentVersion_IsZero (awj_ContentVersion e))
        with awj_error "invalid Attempt Workspace deletion journal" ;;
      Ok tt
  | AttemptWorkspaceMutation_other _ => Ok tt
  end.

Definition AttemptWorkspaceJournalEntry_Validate (e : AttemptWorkspaceJournalEntry) : result unit :=
  fail_if negb (ID_IsValid (awj_WorkspaceID e)) || (awj_Cursor e <? 1)
          || negb (ID_IsValid (awj_EntryID e)) || negb (MutationKind_IsValid (awj_Operation e))
          || Time_IsZero (awj_ChangedAt e)
    with awj_error "invalid Attempt Workspace journal entry" ;;
  fail_if awj_Recursive e && ((awj_Operation e !=? AttemptWorkspaceMutationDeleteEntry)
                              || (awj_EntryKind e !=? StarterWorkspaceEntryDirectory))
    with awj_error "recursive Workspace journal entry must delete a directory" ;;
  awj_operation_check e.

(** ** Starter content objects *)

Inductive StarterWorkspaceObjectState :=
  | StarterWorkspaceObjectStaged
  | StarterWorkspaceObjectCurrent
  | StarterWorkspaceObjectReclaimable
  | StarterWorkspaceObjectClaimed
  | StarterWorkspaceObjectState_other (raw : string).
#[global] Instance StarterWorkspaceObjectState_eq_dec : EqDecision StarterWorkspaceObjectState.
Proof. solve_decision. Defined.

Record StarterWorkspaceObject := mkStarterWorkspaceObject {
  swo_ID : ID;
  swo_ExamID : ID;
  swo_CreatedByUserID : ID;
  swo_CreatedAt : Time;
  swo_UpdatedAt : Time;
  swo_ExpiresAt : Time;
  swo_State : StarterWorkspaceObjectState;
  swo_ContentVersion : WorkspaceContentVersion;
  swo_MediaType : string;
  swo_SizeBytes : Z;
  swo_SHA256 : string;
  swo_ReclaimAfter : OptionalTime;
  swo_ClaimToken : string;
  swo_ClaimedAt : OptionalTime }.
#[global] Instance StarterWorkspaceObject_eta : Eta StarterWorkspaceObject := λ r,
  mkStarterWorkspaceObject (swo_ID r) (swo_ExamID r) (swo_CreatedByUserID r) (swo_CreatedAt r)
    (swo_UpdatedAt r) (swo_ExpiresAt r) (swo_State r) (swo_ContentVersion r) (swo_MediaType r)
    (swo_SizeBytes r) (swo_SHA256 r) (swo_ReclaimAfter r) (swo_ClaimToken r) (swo_ClaimedAt r).

Definition swo_error (reason : string) : error :=
  invalidModelError "starter_workspace_object" "" reason "".

Definition swo_hasContent (o : StarterWorkspaceObject) : bool :=
  negb (ContentVersion_IsZero (swo_ContentVersion o)) || (swo_MediaType o !=? "")
  || (swo_SizeBytes o !=? 0) || (swo_SHA256 o !=? "").

(** The content check shared by the states past staging. *)
Definition swo_content_check (o : StarterWorkspaceObject) : result unit :=
  if swo_hasContent o then
    fail_if negb (ContentVersion_IsValid (swo_ContentVersion o)) || (swo_MediaType o ==? "")
            || (TrimSpace (swo_MediaType o) !=? swo_MediaType o) || (255 <? len (swo_MediaType o))
            || (swo_SizeBytes o <? 0) || (ExamWorkspaceMaximumFileBytes <? swo_SizeBytes o)
            || (len (swo_SHA256 o) !=? 64)
      with swo_error "invalid Starter Workspace object content" ;;
    fail_if negb (hex_decodes (swo_SHA256 o)) with swo_error "invalid Starter Workspace checksum" ;;
    Ok tt
  else Ok tt.

Definition StarterWorkspaceObject_Validate (p : option StarterWorkspaceObject) : result unit :=
  match p with
  | None => Err (swo_error "invalid Starter Workspace object")
  | Some o =>
      fail_if negb (ID_IsValid (swo_ID o)) || negb (ID_IsValid (swo_ExamID o))
              || negb (ID_IsValid (swo_CreatedByUserID o)) || Time_IsZero (swo_CreatedAt o)
              || Time_IsZero (swo_UpdatedAt o) || Time_IsZero (swo_ExpiresAt o)
              || Time_Before (swo_UpdatedAt o) (swo_CreatedAt o)
              || negb (Time_After (swo_ExpiresAt o) (swo_CreatedAt o))
        with swo_error "invalid Starter Workspace object" ;;
      if swo_State o ==? StarterWorkspaceObjectStaged then
        fail_if swo_hasContent o || ot_Valid (swo_ReclaimAfter o) || ot_Valid (swo_ClaimedAt o)
                || (swo_ClaimToken o !=? "")
          with swo_error "invalid staged Starter Workspace object" ;;
        Ok tt
      else
        fail_if (swo_State o !=? StarterWorkspaceObjectCurrent)
                && (swo_State o !=? StarterWorkspaceObjectReclaimable)
                && (swo_State o !=? StarterWorkspaceObjectClaimed)
          with swo_error "invalid Starter Workspace object state" ;;
        _ ← swo_content_check o;
        if swo_State o ==? StarterWorkspaceObjectCurrent then
          fail_if negb (swo_hasContent o)
            with swo_error "current Starter Workspace object requires content" ;;
          fail_if ot_Valid (swo_ReclaimAfter o) || ot_Valid (swo_ClaimedAt o)
                  || (swo_ClaimToken o !=? "")
            with swo_error "current Starter Workspace object cannot be claimed" ;;
          Ok tt
        else
          fail_if negb (ot_Valid (swo_ReclaimAfter o))
            with swo_error "reclaimable Starter Workspace object requires a deadline" ;;
          fail_if (swo_State o ==? StarterWorkspaceObjectReclaimable)
                  && (ot_Valid (swo_ClaimedAt o) || (swo_ClaimToken o !=? ""))
            with swo_error "unclaimed Starter Workspace object has claim metadata" ;;
          fail_if (swo_State o ==? StarterWorkspaceObjectClaimed)
                  && (negb (ot_Valid (swo_ClaimedAt o)) || (TrimSpace (swo_ClaimToken o) ==? ""))
            with swo_error "claimed Starter Workspace object requires claim metadata" ;;
          Ok tt
  end.
#[global] Arguments StarterWorkspaceObject_Validate : simpl never.

Definition NewStagedStarterWorkspaceObject (id examID actorID : ID) (at_ expiresAt : Time)
    : result StarterWorkspaceObject :=
  let object := mkStarterWorkspaceObject id examID actorID (TimeUTC at_) (TimeUTC at_)
    (TimeUTC expiresAt) StarterWorkspaceObjectStaged "" "" 0 "" noTime "" noTime in
  _ ← StarterWorkspaceObject_Validate (Some object);
  Ok object.

Definition StarterWorkspaceObject_MarkCurrent (version : WorkspaceContentVersion)
    (mediaType : string) (size : Z) (checksum : string) (at_ : Time)
    : Method StarterWorkspaceObject unit :=
  let e := swo_error "only a staged Starter Workspace object can become current" in
  o ← deref e;
  fail_if swo_State o !=? StarterWorkspaceObjectStaged with e ;;
  let candidate := o <| swo_State := StarterWorkspaceObjectCurrent |>
                     <| swo_ContentVersion := version |>
                     <| swo_MediaType := TrimSpace mediaType |> <| swo_SizeBytes := size |>
                     <| swo_SHA256 := ToLower checksum |> <| swo_UpdatedAt := TimeUTC at_ |> in
  _ ← try (StarterWorkspaceObject_Validate (Some candidate));
  assign candidate.

(** ** Splitting and joining paths *)

Fixpoint join_slash (segs : list string) : string :=
  match segs with
  | [] => EmptyString
  | [s] => s
  | s :: rest => s +:+ String slash (join_slash rest)
  end.

Lemma bytes_app s t : bytes (s +:+ t) = bytes s ++ bytes t.
Proof. induction s as [|a s IH]; [done|]. cbn. by rewrite <-IH. Qed.

Lemma byte_of_ascii_inj a b : byte_of_ascii a = byte_of_ascii b → a = b.
Proof. intros H. by rewrite <-(ascii_of_byte_of_ascii a), H, ascii_of_byte_of_ascii. Qed.

Lemma Contains_byte_spec s c : Contains_byte s c = true ↔ byte_of_ascii c ∈ bytes s.
Proof.
  unfold Contains_byte. rewrite existsb_exists. setoid_rewrite Z.eqb_eq.
  setoid_rewrite <-list_elem_of_In. split; [by intros (? & ? & ->)|eauto].
Qed.

Lemma split_nonempty c s : split_byte c s ≠ [].
Proof.
  induction s as [|a s IH]; cbn; [done|]. destruct (Ascii.eqb a c); [done|].
  by destruct (split_byte c s).
Qed.

(** No segment contains the separator. *)
Lemma split_no_sep c s : Forall (λ w, byte_of_ascii c ∉ bytes w) (split_byte c s).
Proof.
  induction s as [|a s IH]; cbn; [constructor; [set_solver|done]|].
  destruct (Ascii.eqb a c) eqn:E; [constructor; [set_solver|done]|].
  apply Ascii.eqb_neq in E.
  assert (byte_of_ascii c ≠ byte_of_ascii a) by (intros ?%byte_of_ascii_inj; congruence).
  destruct IH as [|w ws]; cbn; (constructor; [|done]); set_solver.
Qed.

Lemma join_cons s segs :
  segs ≠ [] → join_slash (s :: segs) = s +:+ String slash (join_slash segs).
Proof. by destruct segs. Qed.

Lemma join_split s : join_slash (split_byte slash s) = s.
Proof.
  induction s as [|a s IH]; [done|]. cbn [split_byte].
  destruct (Ascii.eqb a slash) eqn:E.
  - apply Ascii.eqb_eq in E as ->. rewrite join_cons by apply split_nonempty. by rewrite IH.
  - destruct (split_byte slash s) as [|w ws] eqn:W; [by apply split_nonempty in W|].
    rewrite <-IH. by destruct ws.
Qed.

Lemma split_app_slash w s :
  byte_of_ascii slash ∉ bytes w →
  split_byte slash (w +:+ String slash s) = w :: split_byte slash s.
Proof.
  induction w as [|a w IH]; intros H; [done|]. cbn [bytes] in H.
  change (String a w +:+ String slash s) with (String a (w +:+ String slash s)). cbn [split_byte].
  destruct (Ascii.eqb a slash) eqn:E; [apply Ascii.eqb_eq in E; set_solver|].
  by rewrite IH by set_solver.
Qed.

Lemma split_single w : byte_of_ascii slash ∉ bytes w → split_byte slash w = [w].
Proof.
  induction w as [|a w IH]; intros H; [done|]. cbn [bytes] in H. cbn [split_byte].
  destruct (Ascii.eqb a slash) eqn:E; [apply Ascii.eqb_eq in E; set_solver|].
  by rewrite IH by set_solver.
Qed.

Lemma split_join segs :
  segs ≠ [] → Forall (λ w, byte_of_ascii slash ∉ bytes w) segs →
  split_byte slash (join_slash segs) = segs.
Proof.
  intros Hne H. induction H as [|w ws Hw Hws IH]; [done|].
  destruct ws as [|w' ws]; [by apply split_single|].
  rewrite join_cons, split_app_slash, IH; done.
Qed.

(** The bytes of a joined path come from its segments or are separators. *)
Lemma join_bytes segs b :
  b ∈ bytes (join_slash segs) → b = byte_of_ascii slash ∨ Exists (λ w, b ∈ bytes w) segs.
Proof.
  induction segs as [|w ws IH]; [set_solver|]. destruct ws as [|w' ws].
  - intros ?. right. by left.
  - rewrite join_cons, bytes_app by done. cbn [bytes]. rewrite elem_of_app, elem_of_cons.
    intros [?|[?|?%IH]]; [right; by left|by left|naive_solver].
Qed.

Lemma segment_bytes segs w : w ∈ segs → bytes w ⊆ bytes (join_slash segs).
Proof.
  induction segs as [|w0 ws IH]; [set_solver|]. intros H. destruct ws as [|w' ws]; [set_solver|].
  rewrite join_cons, bytes_app by done. cbn [bytes]. set_solver.
Qed.

(** ** What a canonical path is *)

Record good_segment (w : string) : Prop := {
  gs_name : w ≠ "" ∧ w ≠ "." ∧ w ≠ "..";
  gs_length : len w ≤ 255;
  gs_bytes : (byte_of_ascii slash ∉ bytes w) ∧ (byte_of_ascii backslash ∉ bytes w);
  gs_control : ∀ r n b, (r, n, b) ∈ runes w → IsControl r = false }.

Record good_path (segs : list string) (v : string) : Prop := {
  gp_join : v = join_slash segs;
  gp_nonempty : segs ≠ [];
  gp_segments : Forall good_segment segs;
  gp_depth : (length segs ≤ 16)%nat;
  gp_reserved : head segs ≠ Some ".proctor";
  gp_length : len v ≤ 1024;
  gp_utf8 : ValidString v = true }.

(** POSIX resolution of one segment against the directory reached so far. *)
Definition resolve_segment (dir : list string) (w : string) : list string :=
  if (w ==? "") || (w ==? ".") then dir
  else if w ==? ".." then removelast dir
  else dir ++ [w].

Lemma sw_segment_ok_spec w :
  sw_segment_ok w = true ↔
  (w ≠ "" ∧ w ≠ "." ∧ w ≠ "..") ∧ len w ≤ 255 ∧
  ∀ r n b, (r, n, b) ∈ runes w → IsControl r = false.
Proof.
  unfold sw_segment_ok, StarterWorkspaceMaximumSegmentBytes. to_prop.
  rewrite forallb_forall. setoid_rewrite <-list_elem_of_In. split.
  - intros [H1 H2]. split_and!; try tauto; try lia.
    intros r n b Hr. specialize (H2 _ Hr). cbn in H2. by destruct (IsControl r).
  - intros (H1 & H2 & H3). split; [intuition lia|]. intros [[r n] b] Hr. by rewrite (H3 _ _ _ Hr).
Qed.

Lemma good_segment_split w :
  good_segment w ↔ sw_segment_ok w = true ∧ (byte_of_ascii slash ∉ bytes w) ∧
                   (byte_of_ascii backslash ∉ bytes w).
Proof.
  rewrite sw_segment_ok_spec. split; [by intros []|]. intros ((? & ? & ?) & ? & ?). by split.
Qed.

(** A joined path of good segments starts and ends inside a segment. *)
Lemma join_ends segs :
  segs ≠ [] → Forall good_segment segs →
  HasPrefix (join_slash segs) "/" = false ∧ HasSuffix_byte (join_slash segs) slash = false ∧
  join_slash segs ≠ "".
Proof.
  intros Hne H. induction H as [|w ws [(Hw & _) _ [Hs _] _] Hws IH]; [done|]. clear Hne.
  destruct w as [|a w]; [done|].
  assert (Ha : HasPrefix (join_slash (String a w :: ws)) "/" = false ∧
               join_slash (String a w :: ws) ≠ "").
  { assert (E : ∃ t, join_slash (String a w :: ws) = String a t) by (destruct ws; by eexists).
    destruct E as [t ->]. split; [|done]. unfold HasPrefix, String.prefix.
    destruct (ascii_dec _ a) as [<-|]; [|done]. cbn [bytes] in Hs. set_solver. }
  split; [apply Ha|split; [|apply Ha]]. clear Ha. unfold HasSuffix_byte in *.
  apply bool_decide_eq_false. destruct ws as [|w' ws].
  - cbn [join_slash]. intros Hl. apply Hs. by apply last_Some_elem_of in Hl.
  - rewrite join_cons, bytes_app by done. cbn [bytes].
    destruct IH as (_ & IH%bool_decide_eq_false & Hn); [done|].
    rewrite last_app. cbn [last]. rewrite last_cons.
    destruct (last (bytes (join_slash (w' :: ws)))) eqn:L; [done|].
    apply last_None in L. apply (f_equal string_of_bytes) in L.
    rewrite string_of_bytes_bytes in L. done.
Qed.

Lemma good_path_split segs v : good_path segs v → split_byte slash v = segs.
Proof.
  intros [-> Hne Hs _ _ _ _]. apply split_join; [done|].
  eapply Forall_impl; [exact Hs|]. intros w [_ _ [? _] _]. done.
Qed.

Lemma NormalizeStarterWorkspacePath_spec v w :
  NormalizeStarterWorkspacePath v = Ok w ↔ w = v ∧ ∃ segs, good_path segs v.
Proof.
  unfold NormalizeStarterWorkspacePath. rewrite !ok_fail_if. to_prop.
  unfold StarterWorkspaceMaximumPathBytes, StarterWorkspaceMaximumDepth. split.
  - intros ((((((Hne & Hu) & Hl) & Hp) & Hsu) & Hb) & (Hd & Hr) & Hs & [= <-]). split; [done|].
    exists (split_byte slash v). split.
    + by rewrite join_split.
    + apply split_nonempty.
    + pose proof (split_no_sep slash v) as Hn. rewrite forallb_forall in Hs.
      apply not_true_iff_false in Hb. rewrite Contains_byte_spec in Hb.
      apply Forall_forall. intros x Hx. apply good_segment_split. split_and!.
      * apply Hs. by apply list_elem_of_In.
      * rewrite Forall_forall in Hn. by apply Hn.
      * intros Hx'. apply Hb. rewrite <-(join_split v). by apply (segment_bytes _ x).
    + lia.
    + done.
    + lia.
    + done.
  - intros (-> & segs & Hg). pose proof (good_path_split _ _ Hg) as Hsp.
    destruct Hg as [-> Hne Hs Hd Hr Hl Hu]. rewrite Hsp.
    destruct (join_ends segs Hne Hs) as (Hpre & Hsuf & Hnz).
    split_and!; try done; try lia.
    + apply not_true_iff_false. rewrite Contains_byte_spec. intros Hb.
      apply join_bytes in Hb as [Hb|Hb]; [done|].
      apply Exists_exists in Hb as (x & Hx & Hb). rewrite Forall_forall in Hs.
      by apply (gs_bytes x (Hs x Hx)).
    + apply forallb_forall. intros x Hx. rewrite <-list_elem_of_In in Hx.
      rewrite Forall_forall in Hs. by apply good_segment_split, Hs.
Qed.

Lemma good_path_resolves dir segs v :
  good_path segs v → foldl resolve_segment dir (split_byte slash v) = dir ++ segs.
Proof.
  intros Hg. rewrite (good_path_split _ _ Hg). destruct Hg as [_ _ Hs _ _ _ _]. revert dir.
  induction Hs as [|w ws [(H1 & H2 & H3) _ _ _] _ IH]; intros dir; cbn; [by rewrite app_nil_r|].
  rewrite IH. unfold resolve_segment. rewrite !bool_decide_false by done. cbn.
  by rewrite <-app_assoc.
Qed.

(** ** The life of a content object *)

Inductive ObjectOp :=
  | OpMarkContentReady (version : WorkspaceContentVersion) (mediaType : string) (size : Z)
      (checksum : string) (at_ : Time)
  | OpMarkCurrent (at_ : Time)
  | OpMarkReclaimable (reclaimAfter at_ : Time)
  | OpClaimForCleanup (token : string) (at_ : Time)
  | OpReleaseCleanup (token : string) (at_ : Time).

Definition run_object_op (op : ObjectOp) : Method AttemptWorkspaceObject unit :=
  match op with
  | OpMarkContentReady v m n c at_ => AttemptWorkspaceObject_MarkContentReady v m n c at_
  | OpMarkCurrent at_ => AttemptWorkspaceObject_MarkCurrent at_
  | OpMarkReclaimable r at_ => AttemptWorkspaceObject_MarkReclaimable r at_
  | OpClaimForCleanup t at_ => AttemptWorkspaceObject_ClaimForCleanup t at_
  | OpReleaseCleanup t at_ => AttemptWorkspaceObject_ReleaseCleanup t at_
  end.

Definition object_step (o o' : AttemptWorkspaceObject) : Prop :=
  ∃ op, run_object_op op (Some o) = (Some o', Ok tt).
Definition object_reachable (o : AttemptWorkspaceObject) : Prop :=
  ∃ id workspace at_ expires o0,
    NewStagedAttemptWorkspaceObject id workspace at_ expires = Ok o0 ∧ rtc object_step o0 o.

Ltac object_cases H :=
  unfold run_object_op, AttemptWorkspaceObject_MarkContentReady, AttemptWorkspaceObject_MarkCurrent,
    AttemptWorkspaceObject_MarkReclaimable, AttemptWorkspaceObject_ClaimForCleanup,
    AttemptWorkspaceObject_ReleaseCleanup in H; inv_run H.

(** Staging, selection and reclamation, in order. *)
Definition object_stage (s : AttemptWorkspaceObjectState) : Z :=
  match s with
  | AttemptWorkspaceObjectStaged => 0
  | AttemptWorkspaceObjectCurrent => 1
  | _ => 2
  end.

Definition has_content (o : AttemptWorkspaceObject) : Prop :=
  AttemptWorkspaceObject_HasContent (Some o) = true.
Definition same_content (o o' : AttemptWorkspaceObject) : Prop :=
  awo_ContentVersion o' = awo_ContentVersion o ∧ awo_MediaType o' = awo_MediaType o ∧
  awo_SizeBytes o' = awo_SizeBytes o ∧ awo_SHA256 o' = awo_SHA256 o.

Record object_inv (o : AttemptWorkspaceObject) : Prop := {
  oi_valid : AttemptWorkspaceObject_Validate (Some o) = Ok tt;
  oi_content : awo_hasAnyContent o = true →
    has_content o ∧ 0 ≤ awo_SizeBytes o ≤ ExamWorkspaceMaximumFileBytes;
  oi_current : awo_State o = AttemptWorkspaceObjectCurrent → awo_hasAnyContent o = true;
  oi_claimed : awo_State o = AttemptWorkspaceObjectClaimed →
    t_ns (ot_Time (awo_ReclaimAfter o)) ≤ t_ns (awo_UpdatedAt o) }.

Lemma object_valid_content o :
  AttemptWorkspaceObject_Validate (Some o) = Ok tt → awo_hasAnyContent o = true →
  has_content o ∧ 0 ≤ awo_SizeBytes o ≤ ExamWorkspaceMaximumFileBytes.
Proof.
  intros H Hc. unfold AttemptWorkspaceObject_Validate, validateAttemptWorkspaceObject in H.
  apply ok_fail_if in H as [_ H]. apply ok_fail_if in H as [H _]. rewrite Hc in H. cbn in H.
  apply orb_false_iff in H as [Hv Hok]. apply negb_false_iff in Hv, Hok.
  unfold AttemptWorkspaceContent_Validate in Hok. destruct (_ || _) eqn:E in Hok; [done|].
  unfold has_content, AttemptWorkspaceObject_HasContent. cbn in E. rewrite Hv. to_prop.
  split_and!; (tauto || lia).
Qed.

Lemma object_valid_current o :
  AttemptWorkspaceObject_Validate (Some o) = Ok tt →
  awo_State o = AttemptWorkspaceObjectCurrent → awo_hasAnyContent o = true.
Proof.
  intros H Hs. unfold AttemptWorkspaceObject_Validate, validateAttemptWorkspaceObject in H.
  apply ok_fail_if in H as [_ H]. apply ok_fail_if in H as [_ H].
  unfold awo_state_check in H. rewrite Hs in H. inv_run H; to_prop; tauto.
Qed.

Lemma object_step_inv o o' : object_inv o → object_step o o' → object_inv o'.
Proof.
  intros Hi [op H].
  assert (Hv : AttemptWorkspaceObject_Validate (Some o') = Ok tt) by (destruct op; object_cases H; done).
  split; [done|by apply object_valid_content|by apply object_valid_current|].
  destruct op; object_cases H; cbn in *; intros Hs; to_prop; try done; try congruence; try lia.
  intuition congruence.
Qed.

Lemma object_reachable_inv o : object_reachable o → object_inv o.
Proof.
  intros (id & ws & at_ & ex & o0 & H0 & Hs).
  assert (Hi : object_inv o0).
  { unfold NewStagedAttemptWorkspaceObject in H0. inv_run H0.
    by split; [done|by apply object_valid_content|by apply object_valid_current|]. }
  clear H0. induction Hs; eauto using object_step_inv.
Qed.

(** How a later state of an object relates to an earlier one. *)
Record object_evolves (o o' : AttemptWorkspaceObject) : Prop := {
  oe_identity : awo_ID o' = awo_ID o ∧ awo_WorkspaceID o' = awo_WorkspaceID o ∧
                awo_StorageOrigin o' = awo_StorageOrigin o ∧ awo_CreatedAt o' = awo_CreatedAt o;
  oe_updated : t_ns (awo_UpdatedAt o) ≤ t_ns (awo_UpdatedAt o');
  oe_stage : object_stage (awo_State o) ≤ object_stage (awo_State o');
  oe_content : has_content o → same_content o o' ∧ has_content o';
  oe_deadline : object_stage (awo_State o) = 2 → awo_ReclaimAfter o' = awo_ReclaimAfter o }.

Lemma object_step_evolves o o' : object_step o o' → object_evolves o o'.
Proof.
  intros [op H]. destruct op; object_cases H; cbn in *; to_prop;
    split; cbn; unfold same_content, has_content in *; cbn in *; try tauto; try lia;
    try (intros; destruct_and?; congruence);
    repeat match goal with H : _ ∧ _ |- _ => destruct H end;
    repeat match goal with H : awo_State _ = _ |- _ => rewrite H in * end; cbn in *; try done; try lia;
    try (destruct (awo_State o); cbn in *; intuition (congruence || lia)).
  intros Hh. exfalso. to_prop. intuition (congruence || lia).
Qed.

Lemma object_evolves_trans o1 o2 o3 :
  object_evolves o1 o2 → object_evolves o2 o3 → object_evolves o1 o3.
Proof.
  intros [I1 U1 S1 C1 D1] [I2 U2 S2 C2 D2].
  assert (Hmax : ∀ s, object_stage s ≤ 2) by (by intros []).
  split; [intuition congruence|lia|lia|..].
  - intros H. destruct (C1 H) as [E1 H1]. destruct (C2 H1) as [E2 H2].
    split; [|done]. unfold same_content in *. intuition congruence.
  - intros H. specialize (D1 H). specialize (Hmax (awo_State o2)). rewrite <-D1. apply D2. lia.
Qed.

Lemma object_run_evolves o o' : rtc object_step o o' → object_evolves o o'.
Proof.
  intros H. induction H; [by split; unfold same_content|].
  eauto using object_evolves_trans, object_step_evolves.
Qed.

(** ** The cursor *)

(** A Workspace served a sequence of mutations, each naming the cursor it
    expects; the result lists the expectations that were acknowledged. *)
Fixpoint advance_all (ms : list (Z * Time)) (w : ExamAttemptWorkspace)
    : ExamAttemptWorkspace * list Z :=
  match ms with
  | [] => (w, [])
  | (expected, at_) :: ms =>
      match ExamAttemptWorkspace_AdvanceCursor expected at_ (Some w) with
      | (p, Ok _) => let '(w', acks) := advance_all ms (default w p) in (w', expected :: acks)
      | (p, Err _) => advance_all ms (default w p)
      end
  end.

Lemma advance_ok expected at_ w p :
  ExamAttemptWorkspace_AdvanceCursor expected at_ (Some w) = (p, Ok tt) →
  in_int64 (eaw_Cursor w) →
  expected = eaw_Cursor w ∧ ∃ w', p = Some w' ∧ eaw_Cursor w' = eaw_Cursor w + 1 ∧
  in_int64 (eaw_Cursor w') ∧ eaw_ID w' = eaw_ID w ∧ t_ns (eaw_UpdatedAt w) ≤ t_ns (eaw_UpdatedAt w').
Proof.
  intros H Hi. unfold ExamAttemptWorkspace_AdvanceCursor in H. inv_run H. to_prop.
  destruct_and!. subst expected.
  assert (in_int64 (eaw_Cursor w + 1)).
  { unfold in_int64, int64_min, int64_max in *. lia. }
  split; [done|]. eexists. split; [done|]. cbn in *. by rewrite int64_add_id.
Qed.

Lemma advance_atomic expected at_ : atomic (ExamAttemptWorkspace_AdvanceCursor expected at_).
Proof.
  unfold ExamAttemptWorkspace_AdvanceCursor. apply atomic_deref; intros s. cbv zeta.
  auto 10 with atomic.
Qed.

Lemma advance_all_acks ms w :
  in_int64 (eaw_Cursor w) →
  let '(w', acks) := advance_all ms w in
  acks = seqZ (eaw_Cursor w) (Z.of_nat (length acks)) ∧
  eaw_Cursor w' = eaw_Cursor w + Z.of_nat (length acks) ∧ in_int64 (eaw_Cursor w') ∧
  t_ns (eaw_UpdatedAt w) ≤ t_ns (eaw_UpdatedAt w').
Proof.
  revert w. induction ms as [|[expected at_] ms IH]; intros w Hi; cbn.
  { rewrite Z.add_0_r. split_and!; try done; lia. }
  destruct (ExamAttemptWorkspace_AdvanceCursor expected at_ (Some w)) as [p [[]|e]] eqn:E.
  - apply advance_ok in E as (-> & w' & -> & Hc & Hi' & _ & Hu); [|done]. cbn.
    specialize (IH w' Hi'). destruct (advance_all ms w') as [w2 acks]. rewrite Hc in IH.
    destruct IH as (Ha & Hc2 & Hi2 & Hu2). cbn [length]. split_and!; try done; try lia.
    rewrite seqZ_cons by lia. f_equal. rewrite Ha at 1. f_equal; lia.
  - apply advance_atomic in E as ->. by apply IH.
Qed.

(** ** Samples, for the witnesses *)

Definition sample_sum : string :=
  "00000000000000000000000000000000000000000000000000000000000000ff".
Definition sample_staged : AttemptWorkspaceObject :=
  mkAttemptWorkspaceObject sample_id sample_id AttemptWorkspaceStorageAttempt ""
    AttemptWorkspaceObjectStaged "" "" 0 "" (at_second 100) (at_second 100) (at_second 200)
    noTime "" noTime.
Definition sample_ready : AttemptWorkspaceObject :=
  sample_staged <| awo_ContentVersion := sample_id |> <| awo_MediaType := "text/plain" |>
    <| awo_SizeBytes := 12 |> <| awo_SHA256 := sample_sum |> <| awo_UpdatedAt := at_second 110 |>.
Definition sample_current : AttemptWorkspaceObject :=
  sample_ready <| awo_State := AttemptWorkspaceObjectCurrent |>
    <| awo_UpdatedAt := at_second 120 |> <| awo_ExpiresAt := zeroTime |>.

Lemma sample_ready_step : object_step sample_staged sample_ready.
Proof.
  exists (OpMarkContentReady sample_id " text/plain" 12 sample_sum (at_second 110)).
  vm_compute. reflexivity.
Qed.
Lemma sample_current_step : object_step sample_ready sample_current.
Proof. exists (OpMarkCurrent (at_second 120)). vm_compute. reflexivity. Qed.
Lemma sample_current_reachable : object_reachable sample_current.
Proof.
  exists sample_id, sample_id, (at_second 100), (at_second 200), sample_staged.
  split; [vm_compute; reflexivity|].
  eapply rtc_l; [apply sample_ready_step|]. apply rtc_once, sample_current_step.
Qed.

(** ** Theorems *)

(** C7. A path is accepted, unchanged, exactly when it is a slash-separated list of
    1 to 16 segments within the byte limits, valid UTF-8, none empty, dot or
    dot-dot, none with a slash, backslash or control character, and the first not
    the reserved name; resolving an accepted path from any directory therefore
    descends through exactly its segments and never leaves that directory. *)
Theorem workspace_path_canonical v w :
  (NormalizeStarterWorkspacePath v = Ok w ↔ w = v ∧ ∃ segs, good_path segs v) ∧
  ∀ segs dir, good_path segs v →
    foldl resolve_segment dir (split_byte slash v) = dir ++ segs.
Proof.
  split; [apply NormalizeStarterWorkspacePath_spec|]. intros. by apply good_path_resolves.
Qed.

(** Every reachable content object validates; a selectable (current) one has
    complete content within the file limit; and a claimed one is past its
    reclaim deadline, so no object is cleaned up early. *)
Theorem workspace_object_safe o :
  object_reachable o →
  AttemptWorkspaceObject_Validate (Some o) = Ok tt ∧
  (awo_State o = AttemptWorkspaceObjectCurrent →
   has_content o ∧ 0 ≤ awo_SizeBytes o ≤ 104857600) ∧
  (awo_State o = AttemptWorkspaceObjectClaimed →
   t_ns (ot_Time (awo_ReclaimAfter o)) ≤ t_ns (awo_UpdatedAt o)).
Proof.
  intros [Hv Hc Hcur Hcl]%object_reachable_inv. split_and!; [done| |done].
  intros Hs. by apply Hc, Hcur.
Qed.

Lemma workspace_object_safe_witness :
  AttemptWorkspaceObject_Validate (Some sample_current) = Ok tt ∧
  (awo_State sample_current = AttemptWorkspaceObjectCurrent →
   has_content sample_current ∧ 0 ≤ awo_SizeBytes sample_current ≤ 104857600) ∧
  (awo_State sample_current = AttemptWorkspaceObjectClaimed →
   t_ns (ot_Time (awo_ReclaimAfter sample_current)) ≤ t_ns (awo_UpdatedAt sample_current)).
Proof. apply workspace_object_safe, sample_current_reachable. Defined.

(** Along any history of a content object its identity and origin never
    change, stamps never go back, it only advances from staged to current to
    reclamation, its content is immutable once recorded, and its reclaim deadline
    is immutable once set. *)
Theorem workspace_object_history o o' :
  rtc object_step o o' → object_evolves o o'.
Proof. apply object_run_evolves. Qed.

Lemma workspace_object_history_witness : object_evolves sample_staged sample_current.
Proof.
  apply workspace_object_history. eapply rtc_l; [apply sample_ready_step|].
  apply rtc_once, sample_current_step.
Defined.

(** However many mutations are offered, with whatever expected cursors, the
    acknowledged ones carry consecutive cursors starting at the Workspace's: each
    position of the stream acknowledges exactly one mutation, the cursor counts
    them, and it never wraps. *)
Theorem workspace_cursor_gapless ms w :
  in_int64 (eaw_Cursor w) →
  let '(w', acks) := advance_all ms w in
  acks = seqZ (eaw_Cursor w) (Z.of_nat (length acks)) ∧
  eaw_Cursor w' = eaw_Cursor w + Z.of_nat (length acks) ∧ in_int64 (eaw_Cursor w').
Proof.
  intros H%(advance_all_acks ms w). destruct (advance_all ms w). tauto.
Qed.

Definition sample_workspace : ExamAttemptWorkspace :=
  mkExamAttemptWorkspace sample_id sample_id 0 (at_second 100) (at_second 100).
Lemma workspace_cursor_gapless_witness :
  (advance_all [(0, at_second 101); (0, at_second 102); (1, at_second 103)] sample_workspace).2
  = seqZ 0 2.
Proof.
  destruct (workspace_cursor_gapless
    [(0, at_second 101); (0, at_second 102); (1, at_second 103)] sample_workspace) as [H _].
  - unfold in_int64. split; vm_compute; discriminate.
  - vm_compute in H |- *. exact H.
Defined.
