(* ===== verification/Delivery.v ===== *)
(** * Delivery of native and browser records

    Models [server/model/delivery_lifecycle.go], [delivery_budget.go] and the
    settlement summary of [browser_submission_settlement.go]: sequence ranges,
    gap declarations, the closure of a source, the progress projection, the
    placement check, and the record, byte, position and metadata budgets.

    A Go slice that is compared with nil is an [option (list _)]; a pointer field
    is an [option].  Positions are bounded by [securitySafeInt] before they are
    added or subtracted, so the arithmetic below never leaves the [int64] range. *)

From S2P Require Import Prelude GoTime GoStrings Ident ModelError.

(** ** Shared vocabulary *)

Definition ErrDeliveryInvalid : error := SentinelError "delivery declaration is invalid".
Definition ErrDeliveryConflict : error :=
  SentinelError "delivery declaration conflicts with retained state".
Definition ErrDeliveryExpired : error := SentinelError "delivery upload window has expired".

Definition NativeReceiveWindow : Z := 1024.
Definition BrowserReceiveWindow : Z := 4096.
Definition receive_window (native : bool) : Z :=
  if native then NativeReceiveWindow else BrowserReceiveWindow.

(** [securitySafeInt] (security_preflight.go): the integers JSON carries exactly. *)
Definition maxSafeInt : Z := 9007199254740991.
Definition securitySafeInt (value : Z) : bool := (0 <=? value) && (value <=? maxSafeInt).
#[global] Arguments securitySafeInt : simpl never.

(** ** Sequence ranges *)

Record SequenceRange := mkRange { sr_First : Z; sr_Last : Z }.
#[global] Instance SequenceRange_eq_dec : EqDecision SequenceRange.
Proof. solve_decision. Defined.

(** The loop of [ValidateSequenceRanges], with the last accepted position. *)
Fixpoint ranges_ok (previous : Z) (ranges : list SequenceRange) : bool :=
  match ranges with
  | [] => true
  | r :: rest =>
      if (sr_First r <=? 0) || negb (securitySafeInt (sr_Last r)) || (sr_Last r <? sr_First r)
         || (sr_First r <=? previous + 1)
      then false else ranges_ok (sr_Last r) rest
  end.

Definition ValidateSequenceRanges (ranges : option (list SequenceRange)) (maximum : Z) : result unit :=
  match ranges with
  | None => Err ErrDeliveryInvalid
  | Some ranges =>
      fail_if maximum <? Z.of_nat (length ranges) with ErrDeliveryInvalid ;;
      fail_if negb (ranges_ok (-1) ranges) with ErrDeliveryInvalid ;;
      Ok tt
  end.

(** ** Declarations *)

(** The decimal form [encoding/json] gives a non-negative [int64]. *)
Fixpoint decimal_digits (fuel : nat) (n : Z) (acc : string) : string :=
  match fuel with
  | O => acc
  | S fuel' =>
      let acc := String (ascii_of_byte (48 + n mod 10)) acc in
      if n / 10 =? 0 then acc else decimal_digits fuel' (n / 10) acc
  end.
Definition decimal (n : Z) : string := decimal_digits 19 n "".

Record DeclareDeliveryGaps := mkDeclareDeliveryGaps {
  dg_DeclarationID : string;
  dg_ExpectedDeclarationRevision : Z;
  dg_AllocatedThroughSequence : Z;
  dg_Ranges : option (list SequenceRange);
  dg_Reason : string }.

(** The quotation mark of JSON, as a string of its own. *)
Definition quote : string := String (ascii_of_byte 34) "".
Definition json_member (name value : string) : string := quote +:+ name +:+ quote +:+ ":" +:+ value.
Definition json_range (r : SequenceRange) : string :=
  "{" +:+ json_member "first" (decimal (sr_First r)) +:+ ","
      +:+ json_member "last" (decimal (sr_Last r)) +:+ "}".

(** [encodeCanonicalExamDocument] of a declaration: the members in the order of
    their names.  It is reached only with a valid identifier and reason, whose
    characters need no escape, and with non-negative safe integers. *)
Definition canonical_gaps (d : DeclareDeliveryGaps) : string :=
  "{" +:+ json_member "allocated_through_sequence" (decimal (dg_AllocatedThroughSequence d)) +:+ ","
      +:+ json_member "declaration_id" (quote +:+ dg_DeclarationID d +:+ quote) +:+ ","
      +:+ json_member "expected_revision" (decimal (dg_ExpectedDeclarationRevision d)) +:+ ","
      +:+ json_member "ranges"
            ("[" +:+ String.concat "," (json_range <$> default [] (dg_Ranges d)) +:+ "]") +:+ ","
      +:+ json_member "reason" (quote +:+ dg_Reason d +:+ quote) +:+ "}".

Definition DeclareDeliveryGaps_Validate (d : DeclareDeliveryGaps) : result unit :=
  fail_if negb (IsValidAgreementID (dg_DeclarationID d))
          || negb (securitySafeInt (dg_ExpectedDeclarationRevision d))
          || negb (securitySafeInt (dg_AllocatedThroughSequence d))
          || (default [] (dg_Ranges d) ==? [])
          || negb (is_ok (ValidateSequenceRanges (dg_Ranges d) 32))
          || negb (existsb (String.eqb (dg_Reason d))
                     ["spool_corrupt"; "spool_lost"; "local_capacity_exhausted"])
    with ErrDeliveryInvalid ;;
  fail_if match last (default [] (dg_Ranges d)) with
          | Some r => dg_AllocatedThroughSequence d <? sr_Last r
          | None => false
          end
    with ErrDeliveryInvalid ;;
  fail_if 8 * 1024 <? len (canonical_gaps d) with ErrDeliveryInvalid ;;
  Ok tt.

Record DeliveryGapReceipt := mkDeliveryGapReceipt {
  gr_DeclarationID : string;
  gr_RequestDigest : string;
  gr_DeclarationRevision : Z;
  gr_SettledThroughSequence : Z }.

Definition DeliveryGapReceipt_Validate (r : DeliveryGapReceipt) : result unit :=
  fail_if negb (IsValidAgreementID (gr_DeclarationID r))
          || negb (IsValidSHA256Fingerprint (gr_RequestDigest r)) || (gr_DeclarationRevision r <? 1)
          || negb (securitySafeInt (gr_DeclarationRevision r))
          || negb (securitySafeInt (gr_SettledThroughSequence r))
    with ErrDeliveryInvalid ;;
  Ok tt.

Record FinalDeliveryDeclaration := mkFinalDeliveryDeclaration {
  fd_DeclarationID : string;
  fd_ExpectedDeclarationRevision : Z;
  fd_FinalSequence : Z }.

Definition FinalDeliveryDeclaration_Validate (d : FinalDeliveryDeclaration) : result unit :=
  fail_if negb (IsValidAgreementID (fd_DeclarationID d))
          || negb (securitySafeInt (fd_ExpectedDeclarationRevision d))
          || negb (securitySafeInt (fd_FinalSequence d))
    with ErrDeliveryInvalid ;;
  Ok tt.

(** ** Closure *)

Inductive DeliveryCloseReason :=
  | DeliveryClosedSubmission
  | DeliveryClosedSuspension
  | DeliveryClosedManagerEnd
  | DeliveryClosedSitting
  | DeliveryClosedParticipation
  | DeliveryClosedSecuritySession
  | DeliveryClosedPolicyCorrection
  | DeliveryClosedRuntimeReset
  | DeliveryClosedBrowserDisabled
  | DeliveryCloseReason_other (raw : string).
#[global] Instance DeliveryCloseReason_eq_dec : EqDecision DeliveryCloseReason.
Proof. solve_decision. Defined.

Definition DeliveryCloseReason_ValidFor (r : DeliveryCloseReason) (native : bool) : bool :=
  let common := bool_decide (r ∈ [DeliveryClosedSubmission; DeliveryClosedSuspension;
    DeliveryClosedManagerEnd; DeliveryClosedSitting; DeliveryClosedParticipation;
    DeliveryClosedSecuritySession]) in
  common || negb native && bool_decide (r ∈ [DeliveryClosedPolicyCorrection;
    DeliveryClosedRuntimeReset; DeliveryClosedBrowserDisabled]).

Record DeliveryClosure := mkDeliveryClosure {
  dc_ClosedAt : option Time;
  dc_CloseReason : option DeliveryCloseReason;
  dc_KnownAtClose : option Z;
  dc_FinalSequence : option Z;
  dc_FinalDeclarationID : option string;
  dc_FinalBoundaryOrigin : option string;
  dc_UnknownTail : bool;
  dc_UploadExpiresAt : option Time }.
#[global] Instance DeliveryClosure_eta : Eta DeliveryClosure := λ r,
  mkDeliveryClosure (dc_ClosedAt r) (dc_CloseReason r) (dc_KnownAtClose r) (dc_FinalSequence r)
    (dc_FinalDeclarationID r) (dc_FinalBoundaryOrigin r) (dc_UnknownTail r) (dc_UploadExpiresAt r).
(** [DeliveryClosure{}]: the source is open. *)
Definition openClosure : DeliveryClosure := mkDeliveryClosure None None None None None None false None.

Definition is_set {A} (o : option A) : bool := match o with Some _ => true | None => false end.

(** The part of [Validate] on the final boundary of a closed source. *)
Definition dc_final_check (c : DeliveryClosure) (known : Z) : result unit :=
  match dc_FinalSequence c with
  | None =>
      fail_if negb (dc_UnknownTail c) || is_set (dc_FinalDeclarationID c)
              || is_set (dc_FinalBoundaryOrigin c)
        with ErrDeliveryInvalid ;;
      Ok tt
  | Some final =>
      match dc_FinalBoundaryOrigin c with
      | None => Err ErrDeliveryInvalid
      | Some origin =>
          fail_if negb (securitySafeInt final) || (final <? known) with ErrDeliveryInvalid ;;
          if origin ==? "client_declared" then
            fail_if dc_UnknownTail c
                    || match dc_FinalDeclarationID c with
                       | None => true
                       | Some id => negb (IsValidAgreementID id)
                       end
              with ErrDeliveryInvalid ;;
            Ok tt
          else if origin ==? "server_known" then
            fail_if is_set (dc_FinalDeclarationID c) || negb (dc_UnknownTail c) || (final !=? known)
              with ErrDeliveryInvalid ;;
            Ok tt
          else Err ErrDeliveryInvalid
      end
  end.

Definition DeliveryClosure_Validate (c : DeliveryClosure) (native : bool) : result unit :=
  match dc_ClosedAt c with
  | None =>
      fail_if is_set (dc_CloseReason c) || is_set (dc_KnownAtClose c) || is_set (dc_FinalSequence c)
              || is_set (dc_FinalDeclarationID c) || is_set (dc_FinalBoundaryOrigin c)
              || dc_UnknownTail c || is_set (dc_UploadExpiresAt c)
        with ErrDeliveryInvalid ;;
      Ok tt
  | Some closedAt =>
      match dc_CloseReason c, dc_KnownAtClose c, dc_UploadExpiresAt c with
      | Some reason, Some known, Some expires =>
          fail_if negb (securityInstant closedAt) || negb (DeliveryCloseReason_ValidFor reason native)
                  || negb (securitySafeInt known) || negb (securityInstant expires)
                  || Time_After expires (Time_Add closedAt (24 * Hour))
            with ErrDeliveryInvalid ;;
          dc_final_check c known
      | _, _, _ => Err ErrDeliveryInvalid
      end
  end.
#[global] Arguments DeliveryClosure_Validate : simpl never.

(** [Close], [DeclareFinal] and [Expire] have a value receiver; on an error they
    return the closure they were called on.  [Clone] copies the pointees and is
    the identity on values. *)
Definition DeliveryClosure_Close (c : DeliveryClosure) (native : bool) (reason : DeliveryCloseReason)
    (known : Z) (at_ : Time) (retirement : option Time) : result DeliveryClosure :=
  fail_if negb (is_ok (DeliveryClosure_Validate c native))
          || negb (DeliveryCloseReason_ValidFor reason native)
          || negb (securitySafeInt known) || negb (securityInstant at_)
    with ErrDeliveryInvalid ;;
  if is_set (dc_ClosedAt c) then Ok c
  else
    let expiry := Time_Add at_ (24 * Hour) in
    expiry ←
      match retirement with
      | None => Ok expiry
      | Some retirement =>
          fail_if negb (securityInstant retirement) with ErrDeliveryInvalid ;;
          Ok (if Time_Before retirement expiry then retirement else expiry)
      end;
    Ok (mkDeliveryClosure (Some at_) (Some reason) (Some known) None None None true (Some expiry)).

Definition DeliveryClosure_DeclareFinal (c : DeliveryClosure) (native : bool) (revision allocated : Z)
    (summaryOnly : bool) (request : FinalDeliveryDeclaration) (at_ : Time)
    : result (DeliveryClosure * Z) :=
  fail_if negb (is_ok (DeliveryClosure_Validate c native))
          || negb (is_ok (FinalDeliveryDeclaration_Validate request))
          || negb (securitySafeInt revision) || negb (securitySafeInt allocated)
          || negb (securityInstant at_)
    with ErrDeliveryInvalid ;;
  match dc_ClosedAt c, dc_UploadExpiresAt c, dc_KnownAtClose c with
  | Some _, Some expires, Some known =>
      fail_if negb (Time_Before at_ expires) with ErrDeliveryExpired ;;
      fail_if is_set (dc_FinalSequence c)
              || (fd_ExpectedDeclarationRevision request !=? revision)
              || (fd_FinalSequence request <? allocated) || (fd_FinalSequence request <? known)
        with ErrDeliveryConflict ;;
      fail_if (receive_window native <? fd_FinalSequence request - known)
              || summaryOnly && (allocated <? fd_FinalSequence request)
        with ErrDeliveryConflict ;;
      Ok (c <| dc_FinalSequence := Some (fd_FinalSequence request) |>
            <| dc_FinalDeclarationID := Some (fd_DeclarationID request) |>
            <| dc_FinalBoundaryOrigin := Some "client_declared" |>
            <| dc_UnknownTail := false |>,
          fd_FinalSequence request - allocated)
  | _, _, _ => Err ErrDeliveryConflict
  end.

Definition DeliveryClosure_Expire (c : DeliveryClosure) (native : bool) (at_ : Time)
    : result DeliveryClosure :=
  fail_if negb (is_ok (DeliveryClosure_Validate c native)) || negb (securityInstant at_)
    with ErrDeliveryInvalid ;;
  match dc_ClosedAt c, dc_UploadExpiresAt c, dc_KnownAtClose c with
  | Some _, Some expires, Some known =>
      if Time_Before at_ expires then Ok c
      else if is_set (dc_FinalSequence c) then Ok c
      else Ok (c <| dc_FinalSequence := Some known |>
                 <| dc_FinalBoundaryOrigin := Some "server_known" |>
                 <| dc_UnknownTail := true |>)
  | _, _, _ => Ok c
  end.

(** ** Progress *)

Definition BrowserAttemptPositionLimit : Z := 200000.
Definition DeliveryMissingIntervalLimit : Z := 4096.

Record DeliveryProgress := mkDeliveryProgress {
  dp_HighestContiguous : Z;
  dp_SettledThrough : Z;
  dp_HighestSeen : Z;
  dp_Missing : list SequenceRange;
  dp_MissingTruncated : bool }.
#[global] Instance DeliveryProgress_eta : Eta DeliveryProgress := λ r,
  mkDeliveryProgress (dp_HighestContiguous r) (dp_SettledThrough r) (dp_HighestSeen r)
    (dp_Missing r) (dp_MissingTruncated r).

(** The two-index loop over the sorted receipts and declared gaps: whether some
    pair overlaps.  Every turn drops the head of one list, so the total length is
    enough fuel. *)
Fixpoint overlap_scan (fuel : nat) (received missing : list SequenceRange) : bool :=
  match fuel with
  | O => false
  | S fuel' =>
      match received, missing with
      | r :: received', m :: missing' =>
          if (sr_First r <=? sr_Last m) && (sr_First m <=? sr_Last r) then true
          else if sr_Last r <? sr_First m then overlap_scan fuel' received' missing
          else overlap_scan fuel' received missing'
      | _, _ => false
      end
  end.

(** One turn of the loop over the sorted union, from the position covered so far. *)
Definition progress_gap (first last : Z) (p : DeliveryProgress) : DeliveryProgress :=
  if Z.of_nat (length (dp_Missing p)) <? 32
  then p <| dp_Missing := dp_Missing p ++ [mkRange first last] |>
  else p <| dp_MissingTruncated := true |>.

Definition progress_step (st : DeliveryProgress * Z) (r : SequenceRange) : DeliveryProgress * Z :=
  let '(p, through) := st in
  let p :=
    if through + 1 <? sr_First r then progress_gap (through + 1) (sr_First r - 1) p
    else if (Z.of_nat (length (dp_Missing p)) =? 0) && negb (dp_MissingTruncated p)
            && (dp_SettledThrough p <? sr_Last r)
         then p <| dp_SettledThrough := sr_Last r |> else p in
  (p, if through <? sr_Last r then sr_Last r else through).

Definition range_le (a b : SequenceRange) : Prop := sr_First a ≤ sr_First b.
#[global] Instance range_le_dec : RelDecision range_le.
Proof. unfold range_le. solve_decision. Defined.

Definition exceeds (allocated : Z) (set : list SequenceRange) : bool :=
  match last set with Some r => allocated <? sr_Last r | None => false end.

Definition progress_base (received : list SequenceRange) : DeliveryProgress :=
  match received, last received with
  | r0 :: _, Some r =>
      mkDeliveryProgress (if sr_First r0 =? 1 then sr_Last r0 else 0) 0 (sr_Last r) [] false
  | _, _ => mkDeliveryProgress 0 0 0 [] false
  end.

Definition progress_finish (allocated : Z) (st : DeliveryProgress * Z) : DeliveryProgress :=
  let '(p, through) := st in
  if through <? allocated then progress_gap (through + 1) allocated p else p.

(** [slices.SortFunc] by the first position; ranges with equal first positions may
    end up in any order, which the theorems below do not depend on. *)
Definition ResolveDeliveryProgress (allocated : Z) (received missing : option (list SequenceRange))
    (terminalThrough : Z) : result DeliveryProgress :=
  fail_if negb (securitySafeInt allocated) || negb (securitySafeInt terminalThrough)
          || (allocated <? terminalThrough)
          || negb (is_ok (ValidateSequenceRanges received BrowserAttemptPositionLimit))
          || negb (is_ok (ValidateSequenceRanges missing DeliveryMissingIntervalLimit))
    with ErrDeliveryInvalid ;;
  let received := default [] received in
  let missing := default [] missing in
  fail_if exceeds allocated received || exceeds allocated missing with ErrDeliveryInvalid ;;
  fail_if overlap_scan (length received + length missing) received missing
    with ErrDeliveryConflict ;;
  let all := received ++ missing ++ (if 0 <? terminalThrough then [mkRange 1 terminalThrough] else []) in
  let sorted := merge_sort range_le all in
  Ok (progress_finish allocated (foldl progress_step (progress_base received, 0) sorted)).

Definition DeliveryProgress_WindowBase (p : DeliveryProgress) : Z :=
  Z.max (dp_HighestContiguous p) (dp_SettledThrough p).

(** ** Placement of a gap declaration *)

Definition ranges_overlap (r prior : SequenceRange) : bool :=
  (sr_First r <=? sr_Last prior) && (sr_First prior <=? sr_Last r).

Definition ValidateDeliveryGapPlacement (native : bool) (progress : DeliveryProgress)
    (allocated revision : Z) (closure : DeliveryClosure) (summaryOnly : bool)
    (request : DeclareDeliveryGaps) (received terminal : list SequenceRange) (at_ : Time)
    : result unit :=
  fail_if negb (is_ok (DeclareDeliveryGaps_Validate request))
          || negb (is_ok (DeliveryClosure_Validate closure native))
          || negb (securitySafeInt allocated) || negb (securitySafeInt revision)
          || negb (securityInstant at_)
    with ErrDeliveryInvalid ;;
  fail_if (dg_ExpectedDeclarationRevision request !=? revision)
          || summaryOnly && (allocated <? dg_AllocatedThroughSequence request)
    with ErrDeliveryConflict ;;
  _ ← match dc_ClosedAt closure, dc_UploadExpiresAt closure, dc_KnownAtClose closure with
      | Some _, Some expires, Some known =>
          fail_if negb (Time_Before at_ expires) with ErrDeliveryExpired ;;
          fail_if default known (dc_FinalSequence closure) <? dg_AllocatedThroughSequence request
            with ErrDeliveryConflict ;;
          Ok tt
      | _, _, _ => Ok tt
      end;
  let base := DeliveryProgress_WindowBase progress in
  fail_if existsb (λ r,
            (sr_First r <=? base) || (receive_window native <? int64_sub (sr_Last r) base)
            || existsb (ranges_overlap r) received || existsb (ranges_overlap r) terminal)
            (default [] (dg_Ranges request))
    with ErrDeliveryConflict ;;
  Ok tt.

(** ** Facts on ranges *)

Definition in_ranges (n : Z) (l : list SequenceRange) : Prop :=
  ∃ r, r ∈ l ∧ sr_First r ≤ n ≤ sr_Last r.

Lemma in_ranges_nil n : in_ranges n [] ↔ False.
Proof. unfold in_ranges. set_solver. Qed.
Lemma in_ranges_cons n r l : in_ranges n (r :: l) ↔ sr_First r ≤ n ≤ sr_Last r ∨ in_ranges n l.
Proof.
  unfold in_ranges. setoid_rewrite elem_of_cons. split.
  - intros (? & [->|?] & ?); eauto.
  - intros [?|(? & ? & ?)]; eauto.
Qed.
Lemma in_ranges_app n l1 l2 : in_ranges n (l1 ++ l2) ↔ in_ranges n l1 ∨ in_ranges n l2.
Proof. unfold in_ranges. set_solver. Qed.
Lemma in_ranges_perm n l1 l2 : l1 ≡ₚ l2 → in_ranges n l1 ↔ in_ranges n l2.
Proof. intros H. unfold in_ranges. by setoid_rewrite H. Qed.

(** Ascending, non-empty, non-adjacent ranges above a position. *)
Fixpoint ascending (previous : Z) (l : list SequenceRange) : Prop :=
  match l with
  | [] => True
  | r :: l => previous + 1 < sr_First r ∧ sr_First r ≤ sr_Last r ≤ maxSafeInt ∧
              ascending (sr_Last r) l
  end.

Lemma ranges_ok_spec previous l :
  -1 ≤ previous → ranges_ok previous l = true ↔ ascending previous l.
Proof.
  revert previous. induction l as [|r l IH]; intros previous Hp; [done|]. cbn.
  unfold securitySafeInt. destruct (_ || _) eqn:E; to_prop.
  - split; [done|]. intros (H1 & H2 & _). intuition lia.
  - rewrite IH by lia. intuition lia.
Qed.

Lemma ValidateSequenceRanges_ok l maximum :
  is_ok (ValidateSequenceRanges (Some l) maximum) = true ↔
  Z.of_nat (length l) ≤ maximum ∧ ascending (-1) l.
Proof.
  cbn. rewrite <-ranges_ok_spec by lia. destruct (_ <? _) eqn:E; cbn; to_prop; [split; [done|lia]|].
  destruct (ranges_ok _ _); cbn; [tauto|]. split; [done|]. by intros [].
Qed.

Lemma ascending_weaken p q l : q ≤ p → ascending p l → ascending q l.
Proof. destruct l; cbn; [done|]. intuition lia. Qed.

Lemma ascending_in p l r : ascending p l → r ∈ l → p + 1 < sr_First r ∧ sr_First r ≤ sr_Last r.
Proof.
  revert p. induction l as [|r0 l IH]; intros p; [set_solver|]. cbn. intros (H1 & H2 & H3).
  intros [->|Hr]%elem_of_cons; [lia|]. destruct (IH _ H3 Hr). lia.
Qed.

Lemma ascending_in_ranges p l n : ascending p l → in_ranges n l → p + 1 < n.
Proof. intros Ha (r & Hr & Hn). destruct (ascending_in _ _ _ Ha Hr). lia. Qed.

(** The last range bounds them all. *)
Lemma ascending_last p l r0 r :
  ascending p l → last l = Some r0 → r ∈ l → sr_Last r ≤ sr_Last r0.
Proof.
  revert p. induction l as [|x l IH]; intros p Ha Hl; [set_solver|]. destruct Ha as (H1 & H2 & H3).
  rewrite last_cons in Hl. destruct (last l) as [y|] eqn:L; simplify_eq.
  - intros [->|Hr]%elem_of_cons; [|by eapply IH].
    apply last_Some_elem_of in L as Hy. destruct (ascending_in _ _ _ H3 Hy). lia.
  - apply last_None in L as ->. intros ->%list_elem_of_singleton. lia.
Qed.

Lemma exceeds_spec p allocated l :
  ascending p l → exceeds allocated l = false ↔ ∀ r, r ∈ l → sr_Last r ≤ allocated.
Proof.
  intros Ha. unfold exceeds. destruct (last l) as [r0|] eqn:L.
  - to_prop. split.
    + intros H r Hr. pose proof (ascending_last _ _ _ _ Ha L Hr). lia.
    + intros H. by apply H, last_Some_elem_of.
  - apply last_None in L as ->. set_solver.
Qed.

(** *** The overlap scan *)

Lemma overlap_scan_spec fuel p q received missing :
  ascending p received → ascending q missing →
  (length received + length missing ≤ fuel)%nat →
  overlap_scan fuel received missing = true ↔ ∃ n, in_ranges n received ∧ in_ranges n missing.
Proof.
  revert p q received missing.
  induction fuel as [|fuel IH]; intros p q received missing Hr Hm Hf.
  { destruct received, missing; cbn in Hf; try lia. cbn. split; [done|].
    intros (n & []%in_ranges_nil & _). }
  destruct received as [|r received].
  { cbn. split; [done|]. intros (n & []%in_ranges_nil & _). }
  destruct missing as [|m missing].
  { cbn. split; [done|]. intros (n & _ & []%in_ranges_nil). }
  cbn [overlap_scan]. cbn [ascending] in Hr, Hm. cbn [length] in Hf.
  destruct Hr as (Hr1 & Hr2 & Hr3), Hm as (Hm1 & Hm2 & Hm3).
  destruct ((sr_First r <=? sr_Last m) && (sr_First m <=? sr_Last r)) eqn:O; to_prop.
  { split; [|done]. intros _. exists (Z.max (sr_First r) (sr_First m)).
    rewrite !in_ranges_cons. lia. }
  destruct (sr_Last r <? sr_First m) eqn:C; to_prop.
  - rewrite (IH (sr_Last r) q received (m :: missing)) by (cbn; done || lia).
    apply exist_proper. intros n. rewrite !in_ranges_cons. split; [tauto|].
    intros [[H|H] H']; [|tauto]. exfalso. destruct H' as [H'|H']; [lia|].
    apply (ascending_in_ranges _ _ _ Hm3) in H'. lia.
  - rewrite (IH p (sr_Last m) (r :: received) missing) by (cbn; done || lia).
    apply exist_proper. intros n. rewrite !in_ranges_cons. split; [tauto|].
    intros [H' [H|H]]; [|tauto]. exfalso. destruct H' as [H'|H']; [lia|].
    apply (ascending_in_ranges _ _ _ Hr3) in H'. lia.
Qed.

(** *** The sweep over the sorted union *)

(** The gaps a sweep finds above [through]. *)
Fixpoint gaps (allocated through : Z) (l : list SequenceRange) : list SequenceRange :=
  match l with
  | [] => if through <? allocated then [mkRange (through + 1) allocated] else []
  | r :: l =>
      (if through + 1 <? sr_First r then [mkRange (through + 1) (sr_First r - 1)] else [])
      ++ gaps allocated (Z.max through (sr_Last r)) l
  end.

Definition progress_of (p : DeliveryProgress) (settled : Z) (G : list SequenceRange)
    : DeliveryProgress :=
  p <| dp_SettledThrough := settled |> <| dp_Missing := take 32 G |>
    <| dp_MissingTruncated := 32 <? Z.of_nat (length G) |>.
Definition settled_at (through : Z) (G : list SequenceRange) : Z :=
  match G with [] => through | g :: _ => sr_First g - 1 end.

Lemma progress_gap_of p s G first last_ :
  progress_gap first last_ (progress_of p s G) = progress_of p s (G ++ [mkRange first last_]).
Proof.
  unfold progress_gap, progress_of. cbn -[take length Z.ltb Z.of_nat].
  rewrite length_take, length_app. cbn [length].
  destruct (Z.of_nat (32 `min` length G) <? 32) eqn:E; to_prop.
  - rewrite !take_ge by (rewrite ?length_app; cbn; lia).
    f_equal. apply eq_bool_prop_intro. rewrite !Is_true_true, !Z.ltb_lt. lia.
  - rewrite take_app_le by lia. f_equal. symmetry. apply Z.ltb_lt. lia.
Qed.

Lemma progress_step_of p through G r :
  progress_step (progress_of p (settled_at through G) G, through) r =
  let G' := G ++ (if through + 1 <? sr_First r
                  then [mkRange (through + 1) (sr_First r - 1)] else []) in
  let through' := Z.max through (sr_Last r) in
  (progress_of p (settled_at through' G') G', through').
Proof.
  cbn zeta. unfold progress_step. f_equal; [|destruct (through <? sr_Last r) eqn:?; to_prop; lia].
  destruct (through + 1 <? sr_First r) eqn:E.
  - rewrite progress_gap_of. f_equal. destruct G; [cbn; lia|done].
  - rewrite app_nil_r. destruct G as [|g G]; [|done].
    cbn. destruct (through <? sr_Last r) eqn:L; to_prop; unfold progress_of; cbn;
      repeat f_equal; lia.
Qed.

Lemma progress_sweep p allocated through G l :
  progress_finish allocated
    (foldl progress_step (progress_of p (settled_at through G) G, through) l) =
  progress_of p (settled_at (foldl (λ t r, Z.max t (sr_Last r)) through l) (G ++ gaps allocated through l))
    (G ++ gaps allocated through l).
Proof.
  revert through G. induction l as [|r l IH]; intros through G.
  - cbn. destruct (through <? allocated) eqn:E; [|by rewrite app_nil_r].
    rewrite progress_gap_of. f_equal. destruct G; [cbn; lia|done].
  - cbn [foldl gaps]. rewrite progress_step_of. cbn zeta. rewrite IH, <-app_assoc. done.
Qed.

#[global] Instance range_le_total : Total range_le.
Proof. intros x y. unfold range_le. lia. Qed.
#[global] Instance range_le_trans : Transitive range_le.
Proof. intros x y z. unfold range_le. lia. Qed.


Lemma gaps_low allocated through l n : in_ranges n (gaps allocated through l) → through < n.
Proof.
  revert through. induction l as [|r l IH]; intros through; cbn.
  - destruct (through <? allocated); [|by intros []%in_ranges_nil].
    intros [?|[]%in_ranges_nil]%in_ranges_cons; cbn in *; lia.
  - intros [H|H%IH]%in_ranges_app; [|lia].
    destruct (_ <? _) in H; [|by apply in_ranges_nil in H].
    apply in_ranges_cons in H as [H|[]%in_ranges_nil]. cbn in H. lia.
Qed.

(** The gaps are exactly the uncovered positions above [through]. *)
Lemma gaps_spec allocated through l n :
  StronglySorted range_le l → Forall (λ r, sr_First r ≤ sr_Last r ≤ allocated) l →
  through < n ≤ allocated →
  in_ranges n (gaps allocated through l) ↔ ¬ in_ranges n l.
Proof.
  revert through. induction l as [|r l IH]; intros through Hs Hf Hn; cbn [gaps].
  - rewrite (proj2 (Z.ltb_lt _ _)) by lia. rewrite in_ranges_cons, !in_ranges_nil. cbn. lia.
  - apply StronglySorted_inv in Hs as [Hs Hle]. inversion Hf as [|? ? Hr Hf']; subst.
    rewrite in_ranges_app, in_ranges_cons.
    destruct (decide (n < sr_First r)) as [Hlt|Hge].
    { rewrite (proj2 (Z.ltb_lt _ _)) by lia. rewrite in_ranges_cons. cbn.
      split; [|intros _; left; left; lia]. intros _ [?|(x & Hx & Hnx)]; [lia|].
      rewrite Forall_forall in Hle. specialize (Hle x Hx). unfold range_le in Hle. lia. }
    assert (Hhd : ¬ in_ranges n (if through + 1 <? sr_First r
                    then [mkRange (through + 1) (sr_First r - 1)] else [])).
    { destruct (_ <? _); [|rewrite in_ranges_nil; tauto].
      rewrite in_ranges_cons, in_ranges_nil. cbn. lia. }
    destruct (decide (n ≤ sr_Last r)) as [Hin|Hout].
    { split; [intros [?|H%gaps_low]; [done|lia]|]. intros H. destruct H. left. lia. }
    rewrite IH by (done || lia). split; [|intros H; right; intros ?; apply H; by right].
    intros [?|H]; [done|]. intros [?|?]; [lia|done].
Qed.

(** The gaps ascend, within the allocated positions. *)
Lemma gaps_ascending allocated through l q :
  StronglySorted range_le l → Forall (λ r, sr_First r ≤ sr_Last r ≤ allocated) l →
  q < through → allocated ≤ maxSafeInt → ascending q (gaps allocated through l).
Proof.
  revert through q. induction l as [|r l IH]; intros through q Hs Hf Hq Hm; cbn.
  - destruct (through <? allocated) eqn:E; to_prop; cbn; [lia|done].
  - apply StronglySorted_inv in Hs as [Hs Hle]. inversion Hf as [|? ? Hr Hf']; subst.
    destruct (through + 1 <? sr_First r) eqn:E; to_prop; cbn.
    + split_and!; try lia. apply IH; try done. lia.
    + apply IH; try done. lia.
Qed.

Lemma ascending_take k p l : ascending p l → ascending p (take k l).
Proof.
  revert p l. induction k as [|k IH]; intros p [|r l]; cbn; [done..|]. intros (? & ? & ?). auto.
Qed.

Lemma in_ranges_take k l n : in_ranges n (take k l) → in_ranges n l.
Proof.
  intros (r & Hr & ?). exists r. split; [|done].
  rewrite <-(take_drop k l). apply elem_of_app. by left.
Qed.

(** In an ascending list, the positions up to the end of a prefix are those of the
    prefix. *)
Lemma ascending_take_low k p l r n :
  ascending p l → last (take k l) = Some r → n ≤ sr_Last r → in_ranges n l →
  in_ranges n (take k l).
Proof.
  intros Ha Hl Hn (x & Hx & Hxn). rewrite <-(take_drop k l) in Hx.
  apply elem_of_app in Hx as [Hx|Hx]; [by exists x|]. exfalso.
  assert (Hs : sr_Last r < sr_First x); [|lia]. clear Hn Hxn n.
  revert p l Ha Hl Hx. induction k as [|k IH]; intros p [|y l] Ha Hl Hx; [done..|].
  destruct Ha as (H1 & H2 & H3). cbn in Hx, Hl. rewrite last_cons in Hl.
  destruct (last (take k l)) as [z|] eqn:L; simplify_eq; [by eapply IH|].
  assert (H : x ∈ l) by (rewrite <-(take_drop k l); apply elem_of_app; by right).
  destruct (ascending_in _ _ _ H3 H). lia.
Qed.

#[global] Instance in_ranges_dec n l : Decision (in_ranges n l).
Proof.
  refine (cast_if (decide (Exists (λ r, sr_First r ≤ n ≤ sr_Last r) l)));
    abstract (unfold in_ranges; by rewrite <-Exists_exists).
Defined.

Lemma gaps_high allocated through l n :
  Forall (λ r, sr_First r ≤ sr_Last r ≤ allocated) l →
  in_ranges n (gaps allocated through l) → n ≤ allocated.
Proof.
  revert through. induction l as [|r l IH]; intros through Hf; cbn.
  - destruct (_ <? _); [|by intros []%in_ranges_nil].
    intros [?|[]%in_ranges_nil]%in_ranges_cons; cbn in *; lia.
  - inversion Hf; subst. intros [H|H%IH]%in_ranges_app; [|lia|done].
    destruct (_ <? _) in H; [|by apply in_ranges_nil in H].
    apply in_ranges_cons in H as [H|[]%in_ranges_nil]. cbn in H. lia.
Qed.

Lemma gaps_nil allocated through l :
  gaps allocated through l = [] → allocated ≤ foldl (λ t r, Z.max t (sr_Last r)) through l.
Proof.
  revert through. induction l as [|r l IH]; intros through; cbn.
  - destruct (through <? allocated) eqn:E; to_prop; [done|lia].
  - intros [_ H]%app_eq_nil. by apply IH.
Qed.

Lemma fold_max_le allocated through l :
  through ≤ allocated → Forall (λ r, sr_First r ≤ sr_Last r ≤ allocated) l →
  foldl (λ t r, Z.max t (sr_Last r)) through l ≤ allocated.
Proof.
  intros Ht Hf. revert through Ht. induction Hf as [|r l Hr Hf IH]; intros through Ht; cbn; [done|].
  apply IH. lia.
Qed.

(** The projection is the one the specification describes. *)
Record progress_spec (allocated : Z) (received : list SequenceRange) (settled : Z → Prop)
    (p : DeliveryProgress) : Prop := {
  ps_bounds : 0 ≤ dp_SettledThrough p ≤ allocated ∧ 0 ≤ dp_HighestContiguous p;
  (** actual receipts from the start *)
  ps_contiguous : ∀ n, 1 ≤ n ≤ dp_HighestContiguous p → in_ranges n received;
  ps_contiguous_max : ¬ in_ranges (dp_HighestContiguous p + 1) received;
  ps_seen : ∀ n, in_ranges n received → n ≤ dp_HighestSeen p;
  (** settlement from the start *)
  ps_settled : ∀ n, 1 ≤ n ≤ dp_SettledThrough p → settled n;
  ps_settled_max : dp_SettledThrough p < allocated → ¬ settled (dp_SettledThrough p + 1);
  (** the reported gaps are unsettled, ascending and at most 32 *)
  ps_missing : ∀ n, in_ranges n (dp_Missing p) → 1 ≤ n ≤ allocated ∧ ¬ settled n;
  ps_missing_ranges : ValidateSequenceRanges (Some (dp_Missing p)) 32 = Ok tt;
  (** and complete, unless the report says it is cut off *)
  ps_complete : ∀ n, 1 ≤ n ≤ allocated → ¬ settled n → in_ranges n (dp_Missing p) ∨
    (dp_MissingTruncated p = true ∧ length (dp_Missing p) = 32%nat ∧
     ∀ m, in_ranges m (dp_Missing p) → m < n) }.

Lemma sweep_spec allocated l :
  0 ≤ allocated ≤ maxSafeInt → StronglySorted range_le l →
  Forall (λ r, 1 ≤ sr_First r) l → Forall (λ r, sr_First r ≤ sr_Last r ≤ allocated) l →
  let G := gaps allocated 0 l in
  let s := settled_at (foldl (λ t r, Z.max t (sr_Last r)) 0 l) G in
  0 ≤ s ≤ allocated ∧ (∀ n, 1 ≤ n ≤ s → in_ranges n l) ∧
  (s < allocated → ¬ in_ranges (s + 1) l) ∧ ascending (-1) G ∧
  (∀ n, in_ranges n G ↔ 1 ≤ n ≤ allocated ∧ ¬ in_ranges n l).
Proof.
  intros Ha Hs H1 Hf G s.
  assert (HG : ∀ n, in_ranges n G ↔ 1 ≤ n ≤ allocated ∧ ¬ in_ranges n l).
  { intros n. split.
    - intros Hn. pose proof (gaps_low _ _ _ _ Hn). pose proof (gaps_high _ _ _ _ Hf Hn).
      split; [lia|]. apply (gaps_spec allocated 0 l n); [done..|lia|done].
    - intros [Hn Hl]. apply gaps_spec; [done..|lia|done]. }
  assert (Hasc : ascending (-1) G) by (apply gaps_ascending; auto; lia).
  pose proof (fold_max_le allocated 0 l ltac:(lia) Hf) as Hmax.
  pose proof (gaps_nil allocated 0 l) as Hnil. fold G in Hnil.
  subst s. clearbody G. destruct G as [|g G]; cbn [settled_at].
  - specialize (Hnil eq_refl). split_and!; try lia; try done.
    intros n Hn. destruct (decide (in_ranges n l)) as [|Hd]; [done|].
    exfalso. apply (in_ranges_nil n), HG. split; [lia|exact Hd].
  - assert (Hg : in_ranges (sr_First g) (g :: G)).
    { apply in_ranges_cons. left. destruct Hasc as (_ & ? & _). lia. }
    apply HG in Hg as [Hg1 Hg2]. split_and!; try lia; try done.
    + intros n Hn. destruct (decide (in_ranges n l)) as [|Hd]; [done|].
      exfalso. assert (Hi : in_ranges n (g :: G)) by (apply HG; split; [lia|done]).
      destruct Hasc as (Ha1 & Ha2 & Ha3). apply in_ranges_cons in Hi as [?|Hi]; [lia|].
      apply (ascending_in_ranges _ _ _ Ha3) in Hi. lia.
    + intros _. by rewrite Z.sub_add.
Qed.

Lemma progress_base_of received : progress_base received = progress_of (progress_base received) 0 [].
Proof. destruct received as [|r l]; [done|]. unfold progress_base. by destruct (last _). Qed.

Lemma progress_base_spec received :
  ascending (-1) received →
  let b := progress_base received in
  0 ≤ dp_HighestContiguous b ∧
  (∀ n, 1 ≤ n ≤ dp_HighestContiguous b → in_ranges n received) ∧
  ¬ in_ranges (dp_HighestContiguous b + 1) received ∧
  (∀ n, in_ranges n received → n ≤ dp_HighestSeen b).
Proof.
  intros Ha b. destruct received as [|r l].
  { subst b. cbn. setoid_rewrite in_ranges_nil. split_and!; (lia || tauto). }
  destruct (last (r :: l)) as [z|] eqn:L; [|by apply last_None in L].
  assert (Hb : b = mkDeliveryProgress (if sr_First r =? 1 then sr_Last r else 0) 0 (sr_Last z) [] false).
  { subst b. unfold progress_base. by rewrite L. }
  rewrite Hb. cbn. pose proof Ha as (H1 & H2 & H3).
  assert (Hseen : ∀ n, in_ranges n (r :: l) → n ≤ sr_Last z).
  { intros n (x & Hx & Hn). pose proof (ascending_last _ _ _ _ Ha L Hx). lia. }
  destruct (sr_First r =? 1) eqn:E; to_prop; (split_and!; [lia| | |done]).
  - intros n Hn. apply in_ranges_cons. lia.
  - rewrite in_ranges_cons. intros [?|Hn]; [lia|]. apply (ascending_in_ranges _ _ _ H3) in Hn. lia.
  - intros n Hn. lia.
  - rewrite in_ranges_cons. intros [?|Hn]; [lia|]. apply (ascending_in_ranges _ _ _ H3) in Hn. lia.
Qed.

(** The inputs [ResolveDeliveryProgress] accepts. *)
Definition progress_input (allocated : Z) (received missing : list SequenceRange) (terminal : Z) : Prop :=
  0 ≤ terminal ≤ allocated ∧ allocated ≤ maxSafeInt ∧
  Z.of_nat (length received) ≤ 200000 ∧ Z.of_nat (length missing) ≤ 4096 ∧
  ascending (-1) received ∧ ascending (-1) missing ∧
  Forall (λ r, sr_Last r ≤ allocated) received ∧ Forall (λ r, sr_Last r ≤ allocated) missing.

(** The positions that need no upload: received, declared missing, or settled by
    expiry. *)
Definition settled_position (received missing : list SequenceRange) (terminal n : Z) : Prop :=
  in_ranges n received ∨ in_ranges n missing ∨ 1 ≤ n ≤ terminal.

Definition union_ranges (received missing : list SequenceRange) (terminal : Z) : list SequenceRange :=
  received ++ missing ++ (if 0 <? terminal then [mkRange 1 terminal] else []).

Lemma union_ranges_spec received missing terminal n :
  in_ranges n (union_ranges received missing terminal) ↔ settled_position received missing terminal n.
Proof.
  unfold union_ranges, settled_position. rewrite !in_ranges_app.
  destruct (0 <? terminal) eqn:E; to_prop; rewrite ?in_ranges_cons, in_ranges_nil; cbn; [tauto|].
  intuition lia.
Qed.

Lemma union_ranges_bounds allocated received missing terminal :
  progress_input allocated received missing terminal →
  Forall (λ r, 1 ≤ sr_First r) (union_ranges received missing terminal) ∧
  Forall (λ r, sr_First r ≤ sr_Last r ≤ allocated) (union_ranges received missing terminal).
Proof.
  intros (Ht & _ & _ & _ & Hr & Hm & Fr & Fm). rewrite !Forall_forall in *.
  assert (H : ∀ x, x ∈ union_ranges received missing terminal →
                   1 ≤ sr_First x ∧ sr_First x ≤ sr_Last x ≤ allocated); [|naive_solver].
  unfold union_ranges. intros x [Hx|[Hx|Hx]%elem_of_app]%elem_of_app.
  - pose proof (Fr x Hx). destruct (ascending_in _ _ _ Hr Hx). lia.
  - pose proof (Fm x Hx). destruct (ascending_in _ _ _ Hm Hx). lia.
  - destruct (0 <? terminal) eqn:E; to_prop; [|by apply elem_of_nil in Hx].
    apply list_elem_of_singleton in Hx as ->. cbn. lia.
Qed.

Lemma Resolve_input allocated received missing terminal :
  let r := ResolveDeliveryProgress allocated (Some received) (Some missing) terminal in
  let run :=
    fail_if overlap_scan (length received + length missing) received missing
      with ErrDeliveryConflict ;;
    Ok (progress_finish allocated (foldl progress_step (progress_base received, 0)
          (merge_sort range_le (union_ranges received missing terminal)))) in
  (progress_input allocated received missing terminal ∧ r = run) ∨
  (¬ progress_input allocated received missing terminal ∧ r = Err ErrDeliveryInvalid).
Proof.
  cbn zeta. unfold ResolveDeliveryProgress, default, id.
  destruct (_ || _ || _ || _ || _) eqn:E1.
  { right. split; [|done]. intros (H1 & H2 & H3 & H4 & H5 & H6 & _).
    apply not_false_iff_true in E1. apply E1. unfold securitySafeInt. to_prop.
    rewrite !ValidateSequenceRanges_ok. unfold BrowserAttemptPositionLimit, DeliveryMissingIntervalLimit.
    intuition lia. }
  unfold securitySafeInt in E1. to_prop. rewrite !ValidateSequenceRanges_ok in E1.
  unfold BrowserAttemptPositionLimit, DeliveryMissingIntervalLimit in E1.
  destruct E1 as ((((Ha & Ht) & Hle) & Hr1 & Hr2) & Hm1 & Hm2).
  destruct (exceeds allocated received || exceeds allocated missing) eqn:E2.
  { right. split; [|done]. intros (_ & _ & _ & _ & _ & _ & F1 & F2).
    rewrite Forall_forall in F1, F2.
    apply (exceeds_spec _ allocated _ Hr2) in F1. apply (exceeds_spec _ allocated _ Hm2) in F2.
    by rewrite F1, F2 in E2. }
  left. split; [|done]. apply orb_false_iff in E2 as [E2 E3].
  rewrite (exceeds_spec _ allocated _ Hr2) in E2. rewrite (exceeds_spec _ allocated _ Hm2) in E3.
  rewrite <-Forall_forall in E2, E3. split_and!; try done; lia.
Qed.

Lemma Resolve_spec allocated received missing terminal :
  progress_input allocated received missing terminal →
  (∀ n, in_ranges n received → ¬ in_ranges n missing) →
  ∃ p, ResolveDeliveryProgress allocated (Some received) (Some missing) terminal = Ok p ∧
       progress_spec allocated received (settled_position received missing terminal) p.
Proof.
  intros Hin Hdis. destruct (Resolve_input allocated received missing terminal) as [[_ ->]|[]]; [|done].
  pose proof Hin as (Ht & Hs & _ & _ & Hr & Hm & _ & _).
  destruct (overlap_scan _ _ _) eqn:O.
  { eapply overlap_scan_spec in O as (n & H1 & H2); [|done..]. by destruct (Hdis n). }
  eexists. split; [done|]. set (l := merge_sort range_le (union_ranges received missing terminal)).
  assert (Hp : l ≡ₚ union_ranges received missing terminal) by apply merge_sort_Permutation.
  destruct (union_ranges_bounds _ _ _ _ Hin) as [B1 B2]. rewrite <-Hp in B1, B2.
  assert (HU : ∀ n, in_ranges n l ↔ settled_position received missing terminal n).
  { intros n. by rewrite (in_ranges_perm n _ _ Hp), union_ranges_spec. }
  rewrite progress_base_of, (progress_sweep _ allocated 0 []), app_nil_l.
  destruct (sweep_spec allocated l) as (S1 & S2 & S3 & S4 & S5);
    [lia|apply StronglySorted_merge_sort; apply _|done..|].
  destruct (progress_base_spec received Hr) as (P1 & P2 & P3 & P4).
  set (G := gaps allocated 0 l) in *. set (s := settled_at _ G) in *.
  split; cbn -[take length Z.ltb ValidateSequenceRanges]; try done.
  - intros n Hn. by apply HU, S2.
  - intros Hlt. rewrite <-HU. by apply S3.
  - intros n Hn%in_ranges_take. by rewrite <-HU, <-S5.
  - destruct (ValidateSequenceRanges_ok (take 32 G) 32) as [_ H].
    destruct (ValidateSequenceRanges _ _) as [[]|e]; [done|]. exfalso.
    discriminate H. split; [rewrite length_take; lia|by apply ascending_take].
  - intros n Hn Hset. rewrite <-HU in Hset. assert (HnG : in_ranges n G) by (by apply S5).
    destruct (decide (length G ≤ 32)%nat); [left; by rewrite take_ge|].
    destruct (last (take 32 G)) as [g|] eqn:L.
    2: { apply last_None in L. apply (f_equal length) in L. rewrite length_take in L. cbn [length] in L. lia. }
    destruct (decide (n ≤ sr_Last g)); [left; by eapply ascending_take_low|].
    right. split_and!; [apply Z.ltb_lt; lia|rewrite length_take; lia|].
    intros m (x & Hx & Hm'). pose proof (ascending_last _ _ _ _ (ascending_take 32 _ _ S4) L Hx). lia.
Qed.

(** ** The life of a closure *)

Inductive ClosureOp :=
  | OpCloseSource (reason : DeliveryCloseReason) (known : Z) (retirement : option Time)
  | OpDeclareFinal (revision allocated : Z) (summaryOnly : bool) (request : FinalDeliveryDeclaration)
  | OpExpire.

Definition run_closure_op (native : bool) (op : ClosureOp) (at_ : Time) (c : DeliveryClosure)
    : result DeliveryClosure :=
  match op with
  | OpCloseSource reason known retirement =>
      DeliveryClosure_Close c native reason known at_ retirement
  | OpDeclareFinal revision allocated summaryOnly request =>
      r ← DeliveryClosure_DeclareFinal c native revision allocated summaryOnly request at_;
      Ok r.1
  | OpExpire => DeliveryClosure_Expire c native at_
  end.

(** Operations happen at instants of the server clock: in UTC, after the zero time. *)
Definition closure_step (native : bool) (c c' : DeliveryClosure) : Prop :=
  ∃ op at_, t_loc at_ = UTC ∧ 0 < t_ns at_ ∧ run_closure_op native op at_ c = Ok c'.

Record closure_inv (native : bool) (c : DeliveryClosure) : Prop := {
  ci_valid : DeliveryClosure_Validate c native = Ok tt;
  ci_window : ∀ known final, dc_KnownAtClose c = Some known → dc_FinalSequence c = Some final →
    known ≤ final ≤ known + receive_window native }.

Record closure_evolves (c c' : DeliveryClosure) : Prop := {
  ce_closed : is_set (dc_ClosedAt c) = true →
    dc_ClosedAt c' = dc_ClosedAt c ∧ dc_CloseReason c' = dc_CloseReason c ∧
    dc_KnownAtClose c' = dc_KnownAtClose c ∧ dc_UploadExpiresAt c' = dc_UploadExpiresAt c;
  ce_final : is_set (dc_FinalSequence c) = true → c' = c }.

Lemma securityInstant_add t d :
  securityInstant t = true → 0 < t_ns t → 0 ≤ d → d mod Second = 0 →
  securityInstant (Time_Add t d) = true.
Proof.
  unfold securityInstant, Time_IsZero, Time_ZoneOffset, Time_Nanosecond. cbn. to_prop.
  intros ((H1 & H2) & H3) Hp Hd Hm. split_and!; [lia|done|].
  rewrite Zplus_mod, Hm, Z.add_0_r, Z.mod_mod by done. done.
Qed.

Lemma is_ok_unit (r : result unit) : is_ok r = true ↔ r = Ok tt.
Proof. by destruct r as [[]|]. Qed.

Lemma closure_evolves_refl c : closure_evolves c c.
Proof. by split. Qed.
#[export] Hint Resolve closure_evolves_refl : core.

Lemma closed_fields native c closedAt :
  DeliveryClosure_Validate c native = Ok tt → dc_ClosedAt c = Some closedAt →
  ∃ reason known expires, dc_CloseReason c = Some reason ∧ dc_KnownAtClose c = Some known ∧
    dc_UploadExpiresAt c = Some expires ∧ securitySafeInt known = true ∧
    dc_final_check c known = Ok tt.
Proof.
  intros H Hc. unfold DeliveryClosure_Validate in H. rewrite Hc in H.
  destruct (dc_CloseReason c) as [reason|], (dc_KnownAtClose c) as [known|],
    (dc_UploadExpiresAt c) as [expires|]; try done.
  apply ok_fail_if in H as [Hg H]. to_prop. exists reason, known, expires. naive_solver.
Qed.

Lemma open_fields native c :
  DeliveryClosure_Validate c native = Ok tt → dc_ClosedAt c = None → c = openClosure.
Proof.
  intros H Hc. unfold DeliveryClosure_Validate in H. rewrite Hc in H.
  apply ok_fail_if in H as [H _]. to_prop. destruct c as [a b d e f g h i]; cbn in *.
  destruct b, d, e, f, g, i; cbn in *; destruct_and?; try done. by subst.
Qed.

(** A closed source stays valid when its final boundary is fixed. *)
Lemma closed_final_valid native c c' closedAt known :
  DeliveryClosure_Validate c native = Ok tt → dc_ClosedAt c = Some closedAt →
  dc_KnownAtClose c = Some known →
  dc_ClosedAt c' = dc_ClosedAt c → dc_CloseReason c' = dc_CloseReason c →
  dc_KnownAtClose c' = dc_KnownAtClose c → dc_UploadExpiresAt c' = dc_UploadExpiresAt c →
  dc_final_check c' known = Ok tt → DeliveryClosure_Validate c' native = Ok tt.
Proof.
  intros H Hc Hk E1 E2 E3 E4 HF. unfold DeliveryClosure_Validate in *.
  rewrite E1, E2, E3, E4. rewrite Hc, Hk in *.
  destruct (dc_CloseReason c), (dc_UploadExpiresAt c); try done.
  apply ok_fail_if in H as [H _]. by apply ok_fail_if.
Qed.

Lemma close_source_ok native c c' reason known at_ retirement :
  closure_inv native c → t_loc at_ = UTC → 0 < t_ns at_ →
  DeliveryClosure_Close c native reason known at_ retirement = Ok c' →
  closure_inv native c' ∧ closure_evolves c c'.
Proof.
  intros Hi Hu Hp H. unfold DeliveryClosure_Close in H.
  apply ok_fail_if in H as [Hg H]. rewrite !orb_false_iff, !negb_false_iff, is_ok_unit in Hg.
  destruct Hg as (((Hv & Hr) & Hk) & Ha).
  destruct (dc_ClosedAt c) eqn:Hc; cbn [is_set] in H; [by simplify_eq|].
  apply open_fields in Hv as ->; [|done]. apply ok_bind in H as (expiry & Hx & [= <-]).
  split; [|by split]. split; [|by intros]. unfold DeliveryClosure_Validate. cbn.
  assert (Hexp : securityInstant expiry = true ∧ t_ns expiry ≤ t_ns at_ + 24 * Hour).
  { destruct retirement as [t|].
    - apply ok_fail_if in Hx as [Ht [= <-]]. to_prop. cbn.
      destruct (Time_Before t _) eqn:B; to_prop; cbn in *; [split; [done|lia]|].
      split; [|lia]. by apply securityInstant_add.
    - simplify_eq. split; [by apply securityInstant_add|cbn; lia]. }
  apply ok_fail_if. split; [|done]. to_prop. cbn. intuition lia.
Qed.

Lemma declare_final_ok native c c' revision allocated summaryOnly request at_ d :
  closure_inv native c →
  DeliveryClosure_DeclareFinal c native revision allocated summaryOnly request at_ = Ok (c', d) →
  closure_inv native c' ∧ closure_evolves c c' ∧
  dc_FinalSequence c' = Some (fd_FinalSequence request) ∧ d = fd_FinalSequence request - allocated ∧ 0 ≤ d.
Proof.
  intros Hi H. unfold DeliveryClosure_DeclareFinal in H.
  apply ok_fail_if in H as [Hg H]. rewrite !orb_false_iff, !negb_false_iff, !is_ok_unit in Hg.
  destruct Hg as ((((Hv & Hf) & _) & _) & _).
  destruct (dc_ClosedAt c) as [closedAt|] eqn:Hc; [|done].
  destruct (closed_fields _ _ _ Hv Hc) as (reason & known & expires & E1 & E2 & E3 & Hk & HF).
  rewrite E2, E3 in H. apply ok_fail_if in H as [Hx H]. apply ok_fail_if in H as [H1 H].
  apply ok_fail_if in H as [H2 H]. apply ok_inj in H. simplify_eq. to_prop.
  unfold FinalDeliveryDeclaration_Validate in Hf. apply ok_fail_if in Hf as [Hf _]. to_prop.
  destruct_and!.
  split_and!; try done; try lia.
  - split.
    + eapply closed_final_valid; try done. unfold dc_final_check. cbn.
      rewrite ok_fail_if. to_prop. split; [done|]. rewrite bool_decide_true by done.
      by apply ok_fail_if; split; [apply negb_false_iff|].
    + cbn. intros k f Hk' Hf'. rewrite E2 in Hk'. simplify_eq. lia.
  - split; cbn; [done|]. intros Hs. congruence.
Qed.

Lemma expire_ok native c c' at_ :
  closure_inv native c → DeliveryClosure_Expire c native at_ = Ok c' →
  closure_inv native c' ∧ closure_evolves c c'.
Proof.
  intros Hi H. unfold DeliveryClosure_Expire in H. apply ok_fail_if in H as [Hg H].
  rewrite !orb_false_iff, !negb_false_iff, is_ok_unit in Hg. destruct Hg as [Hv _].
  assert (Hsame : closure_inv native c ∧ closure_evolves c c) by auto.
  destruct (dc_ClosedAt c) as [closedAt|] eqn:Hc; [|by simplify_eq].
  destruct (closed_fields _ _ _ Hv Hc) as (reason & known & expires & E1 & E2 & E3 & Hk & HF).
  rewrite E2, E3 in H. destruct (Time_Before at_ expires); [by simplify_eq|].
  destruct (dc_FinalSequence c) as [final|] eqn:F; cbn [is_set] in H; [by simplify_eq|].
  apply ok_inj in H. subst c'. unfold dc_final_check in HF. rewrite F in HF.
  apply ok_fail_if in HF as [HF _]. to_prop. destruct_and!.
  split; split; cbn; try done.
  - eapply closed_final_valid; try done. unfold dc_final_check. cbn.
    rewrite ok_fail_if. split; [rewrite Hk, Z.ltb_irrefl; done|].
    rewrite (bool_decide_false (_ = "client_declared")), !bool_decide_true by done.
    by destruct (dc_FinalDeclarationID c).
  - intros k f Hk' [= <-]. rewrite E2 in Hk'. simplify_eq.
    unfold receive_window, NativeReceiveWindow, BrowserReceiveWindow. destruct native; lia.
  - intros Hs. by rewrite F in Hs.
Qed.

Lemma closure_step_ok native c c' :
  closure_inv native c → closure_step native c c' → closure_inv native c' ∧ closure_evolves c c'.
Proof.
  intros Hi (op & at_ & Hu & Hp & H). destruct op; cbn in H.
  - by eapply close_source_ok.
  - apply ok_bind in H as ([c1 d] & H & [= <-]). apply declare_final_ok in H; [|done]. tauto.
  - by eapply expire_ok.
Qed.

Lemma closure_run_ok native c c' :
  closure_inv native c → rtc (closure_step native) c c' →
  closure_inv native c' ∧ closure_evolves c c'.
Proof.
  intros Hi H. induction H as [c|c c1 c2 H1 H2 IH]; [by auto|].
  destruct (closure_step_ok _ _ _ Hi H1) as [Hi1 [A1 B1]]. destruct (IH Hi1) as [Hi2 [A2 B2]].
  split; [done|]. split.
  - intros Hc. destruct (A1 Hc) as (E1 & E2 & E3 & E4).
    destruct A2 as (F1 & F2 & F3 & F4); [by rewrite E1|]. intuition congruence.
  - intros Hf. pose proof (B1 Hf) as ->. auto.
Qed.

Lemma open_inv native : closure_inv native openClosure.
Proof. by split. Qed.

(** ** Size of a gap declaration *)

Lemma len_app s t : len (s +:+ t) = len s + len t.
Proof.
  unfold len. rewrite <-Nat2Z.inj_add. f_equal. induction s as [|a s IH]; [done|]. cbn. rewrite <-IH. done.
Qed.
Lemma len_nonneg s : 0 ≤ len s.
Proof. unfold len. lia. Qed.

(** Evaluate the length of the string literals in the goal. *)
Ltac len_literals :=
  repeat match goal with
  | |- context [len ?s] =>
      match s with
      | quote => change (len s) with 1
      | String _ _ => let v := eval vm_compute in (len s) in change (len s) with v
      end
  end.

Lemma decimal_digits_len fuel n acc : len (decimal_digits fuel n acc) ≤ len acc + Z.of_nat fuel.
Proof.
  revert n acc. induction fuel as [|fuel IH]; intros n acc; cbn [decimal_digits]; [lia|].
  assert (Hl : len (String (ascii_of_byte (48 + n mod 10)) acc) = len acc + 1).
  { unfold len. cbn [String.length]. lia. }
  destruct (_ =? 0); [lia|]. specialize (IH (n / 10) (String (ascii_of_byte (48 + n mod 10)) acc)). lia.
Qed.
Lemma decimal_len n : len (decimal n) ≤ 19.
Proof. apply (decimal_digits_len 19 n ""). Qed.

Lemma json_member_len name value : len (json_member name value) = len name + len value + 3.
Proof. unfold json_member. rewrite !len_app. len_literals. lia. Qed.

Lemma json_range_len r : len (json_range r) ≤ 56.
Proof.
  unfold json_range. rewrite !len_app, !json_member_len.
  pose proof (decimal_len (sr_First r)). pose proof (decimal_len (sr_Last r)). len_literals. lia.
Qed.

Lemma concat_len (l : list string) k :
  Forall (λ s, len s ≤ k) l → len (String.concat "," l) ≤ Z.of_nat (length l) * (k + 1).
Proof.
  induction 1 as [|s l Hs Hl IH]; [by cbn|].
  destruct l as [|t l]; [cbn [String.concat length]; pose proof (len_nonneg s); lia|].
  change (String.concat "," (s :: t :: l)) with (s +:+ "," +:+ String.concat "," (t :: l)).
  rewrite !len_app. cbn [length] in *. change (len ",") with 1. lia.
Qed.

(** The declarations whose fields are acceptable. *)
Record good_gaps (d : DeclareDeliveryGaps) : Prop := {
  gg_id : IsValidAgreementID (dg_DeclarationID d) = true;
  gg_revision : securitySafeInt (dg_ExpectedDeclarationRevision d) = true;
  gg_allocated : securitySafeInt (dg_AllocatedThroughSequence d) = true;
  gg_ranges : ∃ l, dg_Ranges d = Some l ∧ l ≠ [] ∧ (length l ≤ 32)%nat ∧ ascending (-1) l ∧
                   Forall (λ r, sr_Last r ≤ dg_AllocatedThroughSequence d) l;
  gg_reason : dg_Reason d = "spool_corrupt" ∨ dg_Reason d = "spool_lost" ∨
              dg_Reason d = "local_capacity_exhausted" }.

Lemma good_gaps_size d : good_gaps d → len (canonical_gaps d) ≤ 8 * 1024.
Proof.
  intros [Hid _ _ (l & Hl & _ & Hn & _) Hre]. unfold canonical_gaps. rewrite Hl. cbn [default id].
  rewrite !len_app, !json_member_len, !len_app.
  assert (len (dg_DeclarationID d) ≤ 128).
  { unfold IsValidAgreementID in Hid. destruct (_ || _) eqn:E; [done|]. to_prop. lia. }
  pose proof (decimal_len (dg_AllocatedThroughSequence d)).
  pose proof (decimal_len (dg_ExpectedDeclarationRevision d)).
  assert (len (dg_Reason d) ≤ 24) by (by destruct Hre as [->|[->| ->]]).
  pose proof (concat_len (json_range <$> l) 56) as Hc. rewrite length_fmap in Hc.
  specialize (Hc ltac:(apply Forall_fmap, Forall_true; intros; apply json_range_len)).
  unfold id. len_literals. lia.
Qed.

Lemma DeclareDeliveryGaps_Validate_spec d : DeclareDeliveryGaps_Validate d = Ok tt ↔ good_gaps d.
Proof.
  unfold DeclareDeliveryGaps_Validate. rewrite !ok_fail_if. split.
  - intros (H & Hl & _). to_prop. destruct H as (((((H1 & H2) & H3) & H4) & H5) & H6).
    destruct (dg_Ranges d) as [l|] eqn:E; [|done]. cbn in Hl, H4.
    rewrite ValidateSequenceRanges_ok in H5. destruct H5 as [H5 H5'].
    split; try done.
    + exists l. split_and!; try done; [lia|]. apply Forall_forall. by apply (exceeds_spec (-1)).
    + cbn in H6. to_prop. rewrite !String.eqb_eq in H6. naive_solver.
  - intros Hg. pose proof (good_gaps_size d Hg) as Hs.
    destruct Hg as [H1 H2 H3 (l & Hl & H4 & H5 & H6 & H7) H8]. rewrite Hl. cbn [default]. unfold id.
    rewrite Forall_forall in H7. split_and!; [|by apply (exceeds_spec (-1))|lia|done]. to_prop.
    rewrite ValidateSequenceRanges_ok. split_and!; try done; try lia.
    destruct H8 as [->|[->| ->]]; done.
Qed.

(** ** Placement *)

Definition placed (request : DeclareDeliveryGaps) (n : Z) : Prop :=
  in_ranges n (default [] (dg_Ranges request)).

Lemma overlap_in_ranges r l n :
  existsb (ranges_overlap r) l = false → sr_First r ≤ n ≤ sr_Last r → ¬ in_ranges n l.
Proof.
  intros H Hn (x & Hx & Hxn). apply not_true_iff_false in H. apply H, existsb_exists. exists x.
  split; [by apply list_elem_of_In|]. unfold ranges_overlap. to_prop. lia.
Qed.

Lemma gap_placement_ok native progress allocated revision closure summaryOnly request received
    terminal at_ :
  ValidateDeliveryGapPlacement native progress allocated revision closure summaryOnly request
    received terminal at_ = Ok tt →
  0 ≤ DeliveryProgress_WindowBase progress ≤ maxSafeInt →
  good_gaps request ∧ dg_ExpectedDeclarationRevision request = revision ∧
  ∀ n, placed request n →
    DeliveryProgress_WindowBase progress < n ≤
      DeliveryProgress_WindowBase progress + receive_window native ∧
    ¬ in_ranges n received ∧ ¬ in_ranges n terminal ∧ n ≤ dg_AllocatedThroughSequence request ∧
    (summaryOnly = true → n ≤ allocated) ∧
    (∀ known, dc_KnownAtClose closure = Some known → n ≤ default known (dc_FinalSequence closure)).
Proof.
  intros H Hb. unfold ValidateDeliveryGapPlacement in H.
  apply ok_fail_if in H as [Hg H]. rewrite !orb_false_iff, !negb_false_iff, !is_ok_unit in Hg.
  destruct Hg as ((((Hd & Hv) & _) & _) & _). apply DeclareDeliveryGaps_Validate_spec in Hd.
  apply ok_fail_if in H as [Hr H]. apply ok_bind in H as ([] & Hc & H).
  apply ok_fail_if in H as [He _]. to_prop. destruct Hr as [Hrev Hsum].
  split_and!; [done..|]. intros n (r & Hin & Hn).
  destruct (gg_ranges _ Hd) as (l & Hl & _ & _ & Ha & HF). rewrite Hl in *. cbn in Hin, He.
  rewrite Forall_forall in HF. specialize (HF r Hin).
  assert (Hr1 : sr_Last r ≤ maxSafeInt).
  { pose proof (gg_allocated _ Hd) as Hs. unfold securitySafeInt in Hs. to_prop. lia. }
  apply not_true_iff_false in He. rewrite existsb_exists in He.
  destruct ((sr_First r <=? DeliveryProgress_WindowBase progress)
     || (receive_window native <? int64_sub (sr_Last r) (DeliveryProgress_WindowBase progress))
     || existsb (ranges_overlap r) received || existsb (ranges_overlap r) terminal) eqn:E.
  { exfalso. apply He. exists r. split; [by apply list_elem_of_In|done]. }
  rewrite !orb_false_iff in E. destruct E as (((E1 & E2) & E3) & E4). to_prop.
  destruct (ascending_in _ _ _ Ha Hin).
  rewrite int64_sub_id in E2 by (unfold in_int64, int64_min, int64_max, maxSafeInt in *; lia).
  split_and!; try lia; try (by eapply overlap_in_ranges).
  - intros ->. destruct Hsum; [done|lia].
  - intros known Hk. destruct (dc_ClosedAt closure) as [closedAt|] eqn:Hcl.
    + destruct (closed_fields _ _ _ Hv Hcl) as (? & ? & ? & _ & E & E' & _). rewrite E, E' in Hc.
      rewrite Hk in E. simplify_eq. inv_run Hc. to_prop. lia.
    + apply open_fields in Hv as ->; [|done]. done.
Qed.

(** ** Theorems *)

(** C8. [ResolveDeliveryProgress] computes what it projects: it refuses exactly the
    malformed inputs as invalid and exactly the inputs in which some position is
    both received and declared missing as a conflict, and otherwise reports the
    longest received prefix, the longest settled prefix, and the unsettled
    positions as ascending maximal ranges, the first 32 of them, marked truncated
    when there are more. *)
Theorem delivery_progress_correct allocated received missing terminal :
  let r := ResolveDeliveryProgress allocated (Some received) (Some missing) terminal in
  let input := progress_input allocated received missing terminal in
  let conflict := ∃ n, in_ranges n received ∧ in_ranges n missing in
  (r = Err ErrDeliveryInvalid ↔ ¬ input) ∧
  (r = Err ErrDeliveryConflict ↔ input ∧ conflict) ∧
  ((∃ p, r = Ok p ∧ progress_spec allocated received (settled_position received missing terminal) p)
   ↔ input ∧ ¬ conflict).
Proof.
  intros r input conflict.
  assert (Hover : input → overlap_scan (length received + length missing) received missing = true ↔ conflict).
  { intros (_ & _ & _ & _ & Hr & Hm & _). by eapply overlap_scan_spec. }
  assert (Hok : input → ¬ conflict → ∃ p, r = Ok p ∧
            progress_spec allocated received (settled_position received missing terminal) p).
  { intros Hi Hc. apply Resolve_spec; [done|]. intros n H1 H2. apply Hc. by exists n. }
  destruct (Resolve_input allocated received missing terminal) as [[Hi E]|[Hi E]];
    fold r in E; fold input in Hi.
  2: { rewrite E. split_and!; split; try done; try tauto. by intros (p & ? & _). }
  specialize (Hover Hi). specialize (Hok Hi).
  destruct (overlap_scan _ _ _); cbn in E.
  - assert (conflict) by (by apply Hover). rewrite E.
    split_and!; split; try done; try tauto. by intros (p & ? & _).
  - assert (¬ conflict) by (intros Hc; by apply Hover in Hc). rewrite E in *.
    split_and!; split; try done; try tauto.
Qed.

(** Over any history of operations at server instants a source closes at most
    once, with cause, known position and upload deadline fixed from then on; its
    final boundary is fixed at most once, never below the known position nor above
    it by more than the receive window; and every state validates. *)
Theorem delivery_closure_history native c c' :
  rtc (closure_step native) openClosure c → rtc (closure_step native) c c' →
  closure_inv native c' ∧ closure_evolves c c'.
Proof.
  intros H H'. destruct (closure_run_ok native openClosure c (open_inv native) H) as [Hi _].
  by apply closure_run_ok.
Qed.

Definition sample_closed : DeliveryClosure :=
  mkDeliveryClosure (Some (at_second 100)) (Some DeliveryClosedSubmission) (Some 7) None None None
    true (Some (at_second 86500)).
Definition sample_final : DeliveryClosure :=
  sample_closed <| dc_FinalSequence := Some 7 |> <| dc_FinalBoundaryOrigin := Some "server_known" |>.

Lemma sample_closed_step : closure_step true openClosure sample_closed.
Proof.
  exists (OpCloseSource DeliveryClosedSubmission 7 None), (at_second 100).
  split_and!; vm_compute; reflexivity.
Qed.
Lemma sample_final_step : closure_step true sample_closed sample_final.
Proof. exists OpExpire, (at_second 86500). split_and!; vm_compute; reflexivity. Qed.

Lemma delivery_closure_history_witness :
  closure_inv true sample_final ∧ closure_evolves sample_closed sample_final.
Proof.
  apply delivery_closure_history; apply rtc_once; [apply sample_closed_step|apply sample_final_step].
Defined.

(** Settlement always terminates: at any server instant at or past the upload
    deadline of a closed source, [Expire] succeeds and leaves a fixed final
    boundary (the declared one, or the known position), and no final declaration
    is accepted any more. *)
Theorem delivery_closure_settles native c at_ expires :
  rtc (closure_step native) openClosure c → dc_UploadExpiresAt c = Some expires →
  securityInstant at_ = true → t_ns expires ≤ t_ns at_ →
  (∃ c' final, DeliveryClosure_Expire c native at_ = Ok c' ∧ dc_FinalSequence c' = Some final ∧
     (final = default final (dc_FinalSequence c)) ∧
     (dc_FinalSequence c = None → dc_KnownAtClose c = Some final)) ∧
  ∀ revision allocated summaryOnly request,
    ∃ e, DeliveryClosure_DeclareFinal c native revision allocated summaryOnly request at_ = Err e.
Proof.
  intros H Hx Ha Ht. destruct (closure_run_ok native _ c (open_inv native) H) as [[Hv _] _].
  destruct (dc_ClosedAt c) as [closedAt|] eqn:Hc; [|by apply open_fields in Hv as ->].
  destruct (closed_fields _ _ _ Hv Hc) as (reason & known & ? & E1 & E2 & E3 & Hk & HF). simplify_eq.
  assert (B : Time_Before at_ expires = false) by (to_prop; lia).
  split.
  - unfold DeliveryClosure_Expire. rewrite Hv, Ha, Hc, E2, Hx, B. cbn.
    destruct (dc_FinalSequence c) as [final|] eqn:F; cbn.
    + exists c, final. by rewrite F.
    + by eexists _, known.
  - intros revision allocated summaryOnly request. unfold DeliveryClosure_DeclareFinal.
    rewrite Hc, E2, Hx, B. cbn. destruct (_ || _); by eexists.
Qed.

Lemma delivery_closure_settles_witness :
  ∃ c', DeliveryClosure_Expire sample_closed true (at_second 90000) = Ok c' ∧
        dc_FinalSequence c' = Some 7.
Proof.
  destruct (delivery_closure_settles true sample_closed (at_second 90000) (at_second 86500))
    as [(c' & final & H1 & H2 & _ & H3) _].
  - apply rtc_once, sample_closed_step.
  - reflexivity.
  - vm_compute. reflexivity.
  - vm_compute. discriminate.
  - exists c'. split; [exact H1|]. rewrite H2. exact (eq_sym (H3 eq_refl)).
Defined.

(** An accepted gap declaration only names positions that lie in the receive
    window above the settled prefix, were not received and not settled, do not
    pass the declared allocation (nor the retained one once only summaries are
    kept) nor the boundary of a closed source; and its canonical form always fits
    the 8 KiB limit, so the size check refuses nothing else. *)
Theorem gap_placement_safe native progress allocated revision closure summaryOnly request received
    terminal at_ :
  0 ≤ DeliveryProgress_WindowBase progress ≤ maxSafeInt →
  ValidateDeliveryGapPlacement native progress allocated revision closure summaryOnly request
    received terminal at_ = Ok tt →
  (good_gaps request ∧ len (canonical_gaps request) ≤ 8192 ∧
   dg_ExpectedDeclarationRevision request = revision) ∧
  ∀ n, placed request n →
    DeliveryProgress_WindowBase progress < n ≤
      DeliveryProgress_WindowBase progress + receive_window native ∧
    ¬ in_ranges n received ∧ ¬ in_ranges n terminal ∧ n ≤ dg_AllocatedThroughSequence request ∧
    (summaryOnly = true → n ≤ allocated) ∧
    (∀ known, dc_KnownAtClose closure = Some known → n ≤ default known (dc_FinalSequence closure)).
Proof.
  intros Hb H. destruct (gap_placement_ok _ _ _ _ _ _ _ _ _ _ H Hb) as (Hg & Hr & Hn).
  split; [|done]. split_and!; [done|by apply good_gaps_size|done].
Qed.

Definition sample_gaps : DeclareDeliveryGaps :=
  mkDeclareDeliveryGaps "gap-1" 3 12 (Some [mkRange 4 5; mkRange 8 9]) "spool_lost".
Lemma gap_placement_safe_witness :
  good_gaps sample_gaps ∧ len (canonical_gaps sample_gaps) ≤ 8192.
Proof.
  destruct (gap_placement_safe true (mkDeliveryProgress 3 3 7 [] false) 12 3 openClosure false
    sample_gaps [mkRange 1 3; mkRange 6 7] [] (at_second 100)) as [(H1 & H2 & _) _].
  - vm_compute. split; discriminate.
  - vm_compute. reflexivity.
  - exact (conj H1 H2).
Defined.
