(* ===== verification/DeliveryBudget.v ===== *)
(** * Delivery budgets

    Models [server/model/delivery_budget.go] (metadata reservations, record, byte
    and position quotas, pending admission) and the settlement summary of
    [browser_submission_settlement.go]. *)

From S2P Require Import Prelude GoTime GoStrings ModelError Delivery.

Definition KiB : Z := 1024.
Definition DeliveryParticipationRecordLimit : Z := 50000.
Definition DeliveryAttemptRecordLimit : Z := 200000.
Definition DeliveryParticipationByteLimit : Z := 32 * 1024 * KiB.
Definition DeliveryAttemptByteLimit : Z := 128 * 1024 * KiB.
Definition NativeParticipationPositionLimit : Z := 20000.
Definition NativeAttemptPositionLimit : Z := 80000.
Definition BrowserParticipationPositionLimit : Z := 50000.
Definition DeliveryPendingByteLimit : Z := 2 * 1024 * KiB.
Definition DeliveryRepairReservationBytes : Z := 320 * KiB.
Definition DeliveryMetadataLimitBytes : Z := 2 * 1024 * KiB.

(** ** Metadata reservations *)

(** On an error the reserved amount is returned unchanged. *)
Definition ReserveDeliveryMetadata (used required : Z) : result Z :=
  fail_if (used <? 0) || (DeliveryMetadataLimitBytes <? used) || (required <=? 0)
          || (DeliveryMetadataLimitBytes <? required)
    with invalidModelError "delivery_budget" "" "delivery metadata reservation is invalid" "" ;;
  let remaining := DeliveryMetadataLimitBytes - used in
  fail_if remaining <? required
    with MetadataCapacityError used DeliveryMetadataLimitBytes required remaining ;;
  Ok (used + required).

Definition DeliveryMetadataCapacity_Validate (bytes limit required remaining : Z) : result unit :=
  fail_if (limit !=? DeliveryMetadataLimitBytes) || (bytes <? 0)
          || (DeliveryMetadataLimitBytes <? bytes) || (required <=? 0)
          || (DeliveryMetadataLimitBytes <? required)
          || (remaining !=? DeliveryMetadataLimitBytes - bytes) || (required <=? remaining)
    with invalidModelError "delivery_metadata_capacity" "" "invalid metadata capacity refusal" "" ;;
  Ok tt.

(** ** Quotas *)

Inductive DeliveryStopReason :=
  | DeliveryStopRecords
  | DeliveryStopBytes
  | DeliveryStopPositions
  | DeliveryStopMetadata
  | DeliveryStopLocalLossInventory
  | DeliveryStopReason_other (raw : string).
#[global] Instance DeliveryStopReason_eq_dec : EqDecision DeliveryStopReason.
Proof. solve_decision. Defined.

Record DeliveryQuotaUsage := mkDeliveryQuotaUsage {
  dq_RetainedRecords : Z;
  dq_RetainedBytes : Z;
  dq_AllocatedPositions : Z;
  dq_RecordLimit : Z;
  dq_ByteLimit : Z;
  dq_PositionLimit : Z;
  dq_SummaryOnly : bool;
  dq_StopReason : option DeliveryStopReason }.
#[global] Instance DeliveryQuotaUsage_eta : Eta DeliveryQuotaUsage := λ r,
  mkDeliveryQuotaUsage (dq_RetainedRecords r) (dq_RetainedBytes r) (dq_AllocatedPositions r)
    (dq_RecordLimit r) (dq_ByteLimit r) (dq_PositionLimit r) (dq_SummaryOnly r) (dq_StopReason r).

Definition NewDeliveryQuotaUsage (native attempt : bool) : DeliveryQuotaUsage :=
  let usage := mkDeliveryQuotaUsage 0 0 0 DeliveryParticipationRecordLimit
    DeliveryParticipationByteLimit BrowserParticipationPositionLimit false None in
  let usage := if native then usage <| dq_PositionLimit := NativeParticipationPositionLimit |>
               else usage in
  if attempt then
    let usage := usage <| dq_RecordLimit := DeliveryAttemptRecordLimit |>
                       <| dq_ByteLimit := DeliveryAttemptByteLimit |>
                       <| dq_PositionLimit := BrowserAttemptPositionLimit |> in
    if native then usage <| dq_PositionLimit := NativeAttemptPositionLimit |> else usage
  else usage.

Definition dq_error (reason : string) : error :=
  invalidModelError "delivery_quota_usage" "" reason "".

Definition DeliveryQuotaUsage_Validate (q : DeliveryQuotaUsage) : result unit :=
  fail_if negb (securitySafeInt (dq_RetainedRecords q)) || negb (securitySafeInt (dq_RetainedBytes q))
          || negb (securitySafeInt (dq_AllocatedPositions q))
          || negb (securitySafeInt (dq_RecordLimit q)) || negb (securitySafeInt (dq_ByteLimit q))
          || negb (securitySafeInt (dq_PositionLimit q)) || (dq_RecordLimit q <? 1)
          || (dq_ByteLimit q <? 1) || (dq_PositionLimit q <? 1)
          || (dq_RecordLimit q <? dq_RetainedRecords q) || (dq_ByteLimit q <? dq_RetainedBytes q)
          || (dq_PositionLimit q <? dq_AllocatedPositions q)
          || negb (Bool.eqb (dq_SummaryOnly q) (is_set (dq_StopReason q)))
    with dq_error "delivery quota is invalid" ;;
  match dq_StopReason q with
  | Some (DeliveryStopReason_other _) => Err (dq_error "delivery stop reason is invalid")
  | _ => Ok tt
  end.
#[global] Arguments DeliveryQuotaUsage_Validate : simpl never.

Definition DeliveryQuotaUsage_Charge (q : DeliveryQuotaUsage) (records bytes positions : Z)
    : result DeliveryQuotaUsage :=
  fail_if negb (is_ok (DeliveryQuotaUsage_Validate q)) || negb (securitySafeInt records)
          || negb (securitySafeInt bytes) || negb (securitySafeInt positions)
    with dq_error "delivery charge is invalid" ;;
  if dq_SummaryOnly q then Ok q
  else
    let reason :=
      if dq_RecordLimit q - dq_RetainedRecords q <? records then Some DeliveryStopRecords
      else if dq_ByteLimit q - dq_RetainedBytes q <? bytes then Some DeliveryStopBytes
      else if dq_PositionLimit q - dq_AllocatedPositions q <? positions
      then Some DeliveryStopPositions
      else None in
    match reason with
    | Some reason => Ok (q <| dq_SummaryOnly := true |> <| dq_StopReason := Some reason |>)
    | None => Ok (q <| dq_RetainedRecords := dq_RetainedRecords q + records |>
                    <| dq_RetainedBytes := dq_RetainedBytes q + bytes |>
                    <| dq_AllocatedPositions := dq_AllocatedPositions q + positions |>)
    end.

(** ** Pending admission *)

Definition CanRetainPendingDelivery (pending retained retainedLimit bytes : Z)
    (repair recoverableGap : bool) : bool :=
  if negb (securitySafeInt pending) || negb (securitySafeInt retained)
     || negb (securitySafeInt retainedLimit) || negb (securitySafeInt bytes)
     || (DeliveryPendingByteLimit <? pending) || (retainedLimit <? retained)
  then false
  else
    let pendingLimit := if repair then DeliveryPendingByteLimit
                        else DeliveryPendingByteLimit - DeliveryRepairReservationBytes in
    let retainedLimit := if negb repair && recoverableGap
                         then retainedLimit - DeliveryRepairReservationBytes else retainedLimit in
    (bytes <=? pendingLimit - pending) && (bytes <=? retainedLimit - retained).

(** ** Settlement of a Submission *)

Record BrowserSubmissionSettlement := mkBrowserSubmissionSettlement {
  bs_State : string;
  bs_InventoryRevision : Z;
  bs_SourceCount : Z;
  bs_PendingSourceCount : Z;
  bs_IncompleteSourceCount : Z }.

Definition bs_expected (v : BrowserSubmissionSettlement) : string :=
  if bs_SourceCount v =? 0 then "not_applicable"
  else if 0 <? bs_PendingSourceCount v then "pending"
  else if 0 <? bs_IncompleteSourceCount v then "incomplete"
  else "settled".

Definition BrowserSubmissionSettlement_Validate (v : BrowserSubmissionSettlement) : result unit :=
  fail_if (bs_InventoryRevision v <? 1) || negb (securitySafeInt (bs_InventoryRevision v))
          || negb (securitySafeInt (bs_SourceCount v)) || (bs_PendingSourceCount v <? 0)
          || (bs_SourceCount v <? bs_PendingSourceCount v) || (bs_IncompleteSourceCount v <? 0)
          || (bs_SourceCount v <? bs_IncompleteSourceCount v)
    with ErrDeliveryInvalid ;;
  fail_if bs_State v !=? bs_expected v with ErrDeliveryInvalid ;;
  Ok tt.

(** ** Histories of charges *)

Record Charge := mkCharge { ch_records : Z; ch_bytes : Z; ch_positions : Z }.
Definition good_charge (c : Charge) : Prop :=
  0 ≤ ch_records c ≤ maxSafeInt ∧ 0 ≤ ch_bytes c ≤ maxSafeInt ∧ 0 ≤ ch_positions c ≤ maxSafeInt.

Fixpoint charge_all (cs : list Charge) (q : DeliveryQuotaUsage) : result DeliveryQuotaUsage :=
  match cs with
  | [] => Ok q
  | c :: cs =>
      q' ← DeliveryQuotaUsage_Charge q (ch_records c) (ch_bytes c) (ch_positions c);
      charge_all cs q'
  end.

Definition total (f : Charge → Z) (cs : list Charge) : Z := foldr (λ c n, f c + n) 0 cs.

Definition fits (q : DeliveryQuotaUsage) (c : Charge) : Prop :=
  dq_RetainedRecords q + ch_records c ≤ dq_RecordLimit q ∧
  dq_RetainedBytes q + ch_bytes c ≤ dq_ByteLimit q ∧
  dq_AllocatedPositions q + ch_positions c ≤ dq_PositionLimit q.

(** The usage after retaining some charges. *)
Definition retaining (q : DeliveryQuotaUsage) (cs : list Charge) : DeliveryQuotaUsage :=
  q <| dq_RetainedRecords := dq_RetainedRecords q + total ch_records cs |>
    <| dq_RetainedBytes := dq_RetainedBytes q + total ch_bytes cs |>
    <| dq_AllocatedPositions := dq_AllocatedPositions q + total ch_positions cs |>.

Definition stopped (q : DeliveryQuotaUsage) (reason : DeliveryStopReason) : DeliveryQuotaUsage :=
  q <| dq_SummaryOnly := true |> <| dq_StopReason := Some reason |>.

(** The first exhausted dimension, in the order the code tests them. *)
Definition stop_reason (q : DeliveryQuotaUsage) (c : Charge) (reason : DeliveryStopReason) : Prop :=
  match reason with
  | DeliveryStopRecords => dq_RecordLimit q < dq_RetainedRecords q + ch_records c
  | DeliveryStopBytes =>
      dq_RetainedRecords q + ch_records c ≤ dq_RecordLimit q ∧
      dq_ByteLimit q < dq_RetainedBytes q + ch_bytes c
  | DeliveryStopPositions =>
      dq_RetainedRecords q + ch_records c ≤ dq_RecordLimit q ∧
      dq_RetainedBytes q + ch_bytes c ≤ dq_ByteLimit q ∧
      dq_PositionLimit q < dq_AllocatedPositions q + ch_positions c
  | _ => False
  end.

Lemma securitySafeInt_spec z : securitySafeInt z = true ↔ 0 ≤ z ≤ maxSafeInt.
Proof. unfold securitySafeInt. to_prop. done. Qed.

Lemma charge_cases q c :
  DeliveryQuotaUsage_Validate q = Ok tt → good_charge c → dq_SummaryOnly q = false →
  (fits q c ∧ DeliveryQuotaUsage_Charge q (ch_records c) (ch_bytes c) (ch_positions c)
              = Ok (retaining q [c])) ∨
  ∃ reason, stop_reason q c reason ∧
    DeliveryQuotaUsage_Charge q (ch_records c) (ch_bytes c) (ch_positions c) = Ok (stopped q reason).
Proof.
  intros Hv (H1 & H2 & H3) Hs. unfold DeliveryQuotaUsage_Charge.
  rewrite Hv, !(proj2 (securitySafeInt_spec _)), Hs by done. cbn [is_ok negb orb].
  destruct (_ <? ch_records c) eqn:E1; [right; exists DeliveryStopRecords; to_prop; cbn; split; [lia|done]|].
  destruct (_ <? ch_bytes c) eqn:E2; [right; exists DeliveryStopBytes; to_prop; cbn; split; [lia|done]|].
  destruct (_ <? ch_positions c) eqn:E3;
    [right; exists DeliveryStopPositions; to_prop; cbn; split; [lia|done]|].
  left. to_prop. unfold fits. split; [lia|]. unfold retaining, total. cbn. by rewrite !Z.add_0_r.
Qed.

Lemma stopped_charges q cs :
  DeliveryQuotaUsage_Validate q = Ok tt → Forall good_charge cs → dq_SummaryOnly q = true →
  charge_all cs q = Ok q.
Proof.
  intros Hv Hc Hs. induction Hc as [|c cs (H1 & H2 & H3) Hc IH]; [done|]. cbn.
  unfold DeliveryQuotaUsage_Charge.
  rewrite Hv, !(proj2 (securitySafeInt_spec _)), Hs by done. done.
Qed.

Lemma retaining_valid q c :
  DeliveryQuotaUsage_Validate q = Ok tt → good_charge c → fits q c →
  DeliveryQuotaUsage_Validate (retaining q [c]) = Ok tt.
Proof.
  unfold DeliveryQuotaUsage_Validate, good_charge, fits. cbn. rewrite !Z.add_0_r.
  rewrite !ok_fail_if. to_prop. rewrite !securitySafeInt_spec. intros [H HR] Hc Hf.
  split; [|done]. intuition lia.
Qed.

Lemma stopped_valid q c reason :
  DeliveryQuotaUsage_Validate q = Ok tt → stop_reason q c reason →
  DeliveryQuotaUsage_Validate (stopped q reason) = Ok tt.
Proof.
  unfold DeliveryQuotaUsage_Validate. cbn. rewrite !ok_fail_if. to_prop. intros [H HR] Hs.
  split; [intuition|]. by destruct reason.
Qed.

Lemma retaining_retaining q c cs : retaining (retaining q [c]) cs = retaining q (c :: cs).
Proof. unfold retaining, total. cbn. by rewrite !Z.add_0_r, !Z.add_assoc. Qed.
Lemma retaining_nil q : retaining q [] = q.
Proof. destruct q. unfold retaining, total. cbn. by rewrite !Z.add_0_r. Qed.

Lemma charge_all_prefix q cs :
  DeliveryQuotaUsage_Validate q = Ok tt → dq_SummaryOnly q = false → Forall good_charge cs →
  ∃ q', charge_all cs q = Ok q' ∧ DeliveryQuotaUsage_Validate q' = Ok tt ∧
    (q' = retaining q cs ∨
     ∃ k c reason, cs !! k = Some c ∧ stop_reason (retaining q (take k cs)) c reason ∧
                   q' = stopped (retaining q (take k cs)) reason).
Proof.
  intros Hv Hs Hc. revert q Hv Hs. induction Hc as [|c cs Hc Hcs IH]; intros q Hv Hs.
  { exists q. split_and!; try done. left. by rewrite retaining_nil. }
  cbn. destruct (charge_cases q c Hv Hc Hs) as [[Hf ->]|(reason & Hr & ->)]; cbn.
  - destruct (IH (retaining q [c])) as (q' & Hq & Hv' & Hcase); [by apply retaining_valid|done|].
    exists q'. split_and!; [done..|]. destruct Hcase as [->|(k & d & reason & Hk & Hr & ->)].
    + left. apply retaining_retaining.
    + right. exists (S k), d, reason. cbn. by rewrite <-(retaining_retaining q c (take k cs)).
  - exists (stopped q reason). split_and!.
    + apply stopped_charges; [by eapply stopped_valid|done..].
    + by eapply stopped_valid.
    + right. exists 0%nat, c, reason. cbn. by rewrite retaining_nil.
Qed.

(** ** Theorems *)

(** C9. A quota served any sequence of charges retains exactly the longest prefix
    of them that fits every limit: it never exceeds a limit, the first charge that
    does not fit freezes it for good with the first exhausted dimension as reason,
    and nothing after it is retained. *)
Theorem quota_retains_longest_prefix q cs :
  DeliveryQuotaUsage_Validate q = Ok tt → dq_SummaryOnly q = false → Forall good_charge cs →
  ∃ q', charge_all cs q = Ok q' ∧ DeliveryQuotaUsage_Validate q' = Ok tt ∧
    (q' = retaining q cs ∨
     ∃ k c reason, cs !! k = Some c ∧ stop_reason (retaining q (take k cs)) c reason ∧
                   q' = stopped (retaining q (take k cs)) reason).
Proof. apply charge_all_prefix. Qed.

Lemma quota_retains_longest_prefix_witness :
  let cs := [mkCharge 49999 10 5; mkCharge 2 10 5; mkCharge 1 1 1] in
  ∃ q', charge_all cs (NewDeliveryQuotaUsage true false) = Ok q' ∧
    DeliveryQuotaUsage_Validate q' = Ok tt.
Proof.
  intros cs. destruct (quota_retains_longest_prefix (NewDeliveryQuotaUsage true false) cs)
    as (q' & H1 & H2 & _).
  - vm_compute. reflexivity.
  - reflexivity.
  - unfold cs. rewrite !Forall_cons. unfold good_charge, maxSafeInt. cbn. split_and!; (lia || done).
  - exists q'. exact (conj H1 H2).
Defined.

(** A metadata reservation is granted exactly when it fits: the reserved total
    grows by the request and stays within the 2 MiB limit; a request that does not
    fit is refused with a capacity report that passes its own validation and names
    the exact remainder; every other refusal is of a malformed request. *)
Theorem metadata_reservation_exact used required :
  match ReserveDeliveryMetadata used required with
  | Ok used' => used' = used + required ∧ 0 ≤ used ∧ 0 < required ∧ used' ≤ 2097152
  | Err (MetadataCapacityError bytes limit need remaining) =>
      bytes = used ∧ need = required ∧ remaining = 2097152 - used ∧ remaining < required ∧
      DeliveryMetadataCapacity_Validate bytes limit need remaining = Ok tt
  | Err _ => ¬ (0 ≤ used ≤ 2097152 ∧ 0 < required ≤ 2097152)
  end.
Proof.
  unfold ReserveDeliveryMetadata, mthrow, result_throw, invalidModelError. change DeliveryMetadataLimitBytes with 2097152.
  destruct (_ || _) eqn:E; cbn; [|destruct (2097152 - used <? required) eqn:F]; to_prop; cbn.
  - lia.
  - split_and!; try done; try lia. unfold DeliveryMetadataCapacity_Validate.
    change DeliveryMetadataLimitBytes with 2097152. apply ok_fail_if. split; [|done].
    to_prop. intuition lia.
  - lia.
Qed.

(** Ordinary pending traffic cannot starve repairs: after any ordinary delivery
    admitted while a gap is recoverable, a repair of up to 320 KiB is still
    admitted, in the pending and in the retained pool. *)
Theorem pending_repair_headroom pending retained limit bytes repair_bytes :
  CanRetainPendingDelivery pending retained limit bytes false true = true →
  0 ≤ repair_bytes ≤ 327680 →
  ∀ gap, CanRetainPendingDelivery (pending + bytes) (retained + bytes) limit repair_bytes true gap = true.
Proof.
  unfold CanRetainPendingDelivery. change DeliveryPendingByteLimit with 2097152.
  change DeliveryRepairReservationBytes with 327680.
  destruct (_ || _) eqn:E; [done|]. cbn [negb andb]. to_prop. rewrite !securitySafeInt_spec in E.
  unfold maxSafeInt in *. intros H Hr gap. destruct (_ || _) eqn:F.
  - exfalso. apply not_false_iff_true in F. apply F. to_prop. rewrite !securitySafeInt_spec.
    unfold maxSafeInt. intuition lia.
  - to_prop. lia.
Qed.

Lemma pending_repair_headroom_witness :
  CanRetainPendingDelivery (1000000 + 5000) (20000 + 5000) 33554432 327680 true false = true.
Proof.
  apply pending_repair_headroom; [vm_compute; reflexivity|lia].
Defined.
