(* ===== verification/Sha256.v ===== *)
(** * SHA-256 and big-endian integers

    The parts of Go's [crypto/sha256] and [encoding/binary] the manifest digest
    uses: [sha256.New], [Write], [Sum], and [binary.BigEndian.PutUint64].  Words
    are integers below 2^32 with the wrap-around of their additions written out. *)

From S2P Require Import Prelude GoStrings.

(** ** Big-endian encoding *)

(** The [k] low-order bytes of [n], most significant first. *)
Fixpoint be_bytes (k : nat) (n : Z) : list Z :=
  match k with
  | O => []
  | S k' => n / 256 ^ Z.of_nat k' mod 256 :: be_bytes k' n
  end.

(** [uint64(x)] of an [int64] and [PutUint64]. *)
Definition uint64 (z : Z) : Z := z mod 2 ^ 64.
Definition PutUint64 (z : Z) : list Z := be_bytes 8 z.

Lemma be_bytes_length k n : length (be_bytes k n) = k.
Proof. induction k; cbn; congruence. Qed.

Lemma be_bytes_range k n : Forall is_byte (be_bytes k n).
Proof.
  induction k; cbn; constructor; [|done]. apply Z.mod_pos_bound. lia.
Qed.

Lemma be_bytes_inj k n m :
  0 ≤ n < 256 ^ Z.of_nat k → 0 ≤ m < 256 ^ Z.of_nat k → be_bytes k n = be_bytes k m → n = m.
Proof.
  intros Hn Hm H.
  assert (G : ∀ j, (j ≤ k)%nat → n / 256 ^ Z.of_nat j = m / 256 ^ Z.of_nat j).
  { revert Hn Hm H. clear. intros Hn Hm H j Hj.
    assert (E : ∀ i, (i < k)%nat → n / 256 ^ Z.of_nat i mod 256 = m / 256 ^ Z.of_nat i mod 256).
    { revert H. clear. induction k as [|k IH]; intros H i Hi; [lia|]. cbn in H.
      injection H as H0 H1. destruct (decide (i = k)) as [->|]; [done|]. apply IH; [done|lia]. }
    assert (Hd : ∀ d, (j + d = k)%nat → n / 256 ^ Z.of_nat j = m / 256 ^ Z.of_nat j).
    { intros d. revert j Hj. induction d as [|d IH]; intros j Hj Hd.
      - replace j with k by lia. rewrite !Z.div_small; done.
      - specialize (IH (S j) ltac:(lia) ltac:(lia)). specialize (E j ltac:(lia)).
        rewrite Nat2Z.inj_succ, Z.pow_succ_r, Z.mul_comm, <-!Z.div_div in IH by lia.
        rewrite (Z.div_mod (n / 256 ^ Z.of_nat j) 256), (Z.div_mod (m / 256 ^ Z.of_nat j) 256) by lia.
        congruence. }
    apply (Hd (k - j)%nat). lia. }
  specialize (G 0%nat ltac:(lia)). by rewrite !Z.div_1_r in G.
Qed.

(** ** SHA-256 *)

Definition word (z : Z) : Z := z mod 2 ^ 32.
Definition rotr (n x : Z) : Z := word (Z.lor (Z.shiftr x n) (Z.shiftl x (32 - n))).

(** The constants are defined as FIPS 180-4 defines them: the first 32 bits of the
    fractional parts of the cube roots of the first 64 primes, and of the square
    roots of the first eight. *)
Definition is_prime (n : Z) : bool :=
  forallb (λ d, negb (n mod d =? 0)) (seqZ 2 (n - 2)).
Definition sha_primes : list Z := filter (λ n, is_prime n = true) (seqZ 2 310).
(** The integer cube root, bit by bit from the [k]-th. *)
Fixpoint icbrt (k : nat) (root n : Z) : Z :=
  match k with
  | O => root
  | S k' =>
      let next := root + 2 ^ Z.of_nat k' in
      icbrt k' (if next * next * next <=? n then next else root) n
  end.
Definition K256 : list Z :=
  Eval vm_compute in (λ p, word (icbrt 40 0 (p * 2 ^ 96))) <$> sha_primes.
Definition S256 : list Z :=
  Eval vm_compute in (λ p, word (Z.sqrt (p * 2 ^ 64))) <$> take 8 sha_primes.

Record Hash8 := mkHash8 { h0 : Z; h1 : Z; h2 : Z; h3 : Z; h4 : Z; h5 : Z; h6 : Z; h7 : Z }.

Definition H256 : Hash8 :=
  let s n := nth n S256 0 in
  mkHash8 (s 0%nat) (s 1%nat) (s 2%nat) (s 3%nat) (s 4%nat) (s 5%nat) (s 6%nat) (s 7%nat).

(** The padding: a one bit, zeros, and the bit length in eight bytes. *)
Definition sha_pad (m : list Z) : list Z :=
  let n := Z.of_nat (length m) in
  m ++ 128 :: replicate (Z.to_nat ((55 - n) mod 64)) 0 ++ be_bytes 8 (8 * n).

Fixpoint words (l : list Z) : list Z :=
  match l with
  | a :: b :: c :: d :: l' => a * 2 ^ 24 + b * 2 ^ 16 + c * 2 ^ 8 + d :: words l'
  | _ => []
  end.

Fixpoint blocks (fuel : nat) (l : list Z) : list (list Z) :=
  match fuel with
  | O => []
  | S fuel' => match l with [] => [] | _ => take 16 l :: blocks fuel' (drop 16 l) end
  end.

(** The message schedule, last word first. *)
Fixpoint schedule (k : nat) (rev : list Z) : list Z :=
  match k with
  | O => rev
  | S k' =>
      let w n := nth n rev 0 in
      let s0 := Z.lxor (Z.lxor (rotr 7 (w 14%nat)) (rotr 18 (w 14%nat))) (Z.shiftr (w 14%nat) 3) in
      let s1 := Z.lxor (Z.lxor (rotr 17 (w 1%nat)) (rotr 19 (w 1%nat))) (Z.shiftr (w 1%nat) 10) in
      schedule k' (word (w 15%nat + s0 + w 6%nat + s1) :: rev)
  end.

Definition sha_round (h : Hash8) (kw : Z * Z) : Hash8 :=
  let '(k, w) := kw in
  let '(mkHash8 a b c d e f g h) := h in
  let S1 := Z.lxor (Z.lxor (rotr 6 e) (rotr 11 e)) (rotr 25 e) in
  let ch := Z.lxor (Z.land e f) (Z.land (2 ^ 32 - 1 - e) g) in
  let t1 := h + S1 + ch + k + w in
  let S0 := Z.lxor (Z.lxor (rotr 2 a) (rotr 13 a)) (rotr 22 a) in
  let maj := Z.lxor (Z.lxor (Z.land a b) (Z.land a c)) (Z.land b c) in
  mkHash8 (word (t1 + (S0 + maj))) a b c (word (d + t1)) e f g.

Definition sha_block (h : Hash8) (block : list Z) : Hash8 :=
  let r := foldl sha_round h (zip K256 (reverse (schedule 48 (reverse block)))) in
  mkHash8 (word (h0 h + h0 r)) (word (h1 h + h1 r)) (word (h2 h + h2 r)) (word (h3 h + h3 r))
          (word (h4 h + h4 r)) (word (h5 h + h5 r)) (word (h6 h + h6 r)) (word (h7 h + h7 r)).

(** [digest.Sum(nil)] after the bytes [m] were written. *)
Definition sha256 (m : list Z) : list Z :=
  let ws := words (sha_pad m) in
  let h := foldl sha_block H256 (blocks (length ws) ws) in
  [h0 h; h1 h; h2 h; h3 h; h4 h; h5 h; h6 h; h7 h] ≫= be_bytes 4.

Lemma sha256_length m : length (sha256 m) = 32%nat.
Proof. unfold sha256. cbn. done. Qed.

Lemma sha256_bytes m : Forall is_byte (sha256 m).
Proof.
  unfold sha256. apply Forall_bind. apply Forall_true. intros. apply be_bytes_range.
Qed.

Example sha_constants : length K256 = 64%nat ∧ length S256 = 8%nat.
Proof. done. Qed.

(** The published vectors for the empty message, three bytes, and two blocks. *)
Example sha256_empty : hex_encode (sha256 []) =
  "e3b0c44298fc1c149afbf4c8996fb92427ae41e4649b934ca495991b7852b855".
Proof. vm_compute. reflexivity. Qed.
Example sha256_abc : hex_encode (sha256 (bytes "abc")) =
  "ba7816bf8f01cfea414140de5dae2223b00361a396177a9cb410ff61f20015ad".
Proof. vm_compute. reflexivity. Qed.
Example sha256_two_blocks :
  hex_encode (sha256 (bytes "abcdbcdecdefdefgefghfghighijhijkijkljklmklmnlmnomnopnopq")) =
  "248d6a61d20638b8e5c026930c3e6039a33ce45964ff2167f6ecedd419db06c1".
Proof. vm_compute. reflexivity. Qed.
