(* ===== verification/Submission.v ===== *)
(** * Exam Submissions and their manifests

    Models the manifest and header of [server/model/exam_submission.go]; the
    lifecycle functions of that file are in [AttemptAggregate].  The digest of a
    manifest is the hexadecimal SHA-256 of its length-framed encoding. *)

From stdpp Require Import gmap.
From S2P Require Import Prelude GoTime GoStrings Ident ModelError Workspace Sha256 Delivery.
From S2P Require Import DeliveryBudget.

Definition ExamSubmissionManifestSchemaVersion : Z := 1.
Definition examSubmissionManifestDigestDomain : string := "proctor.exam_submission_manifest".

(** ** Manifest entries *)

(** The strings behind the two closed vocabularies. *)
Definition Kind_string (k : StarterWorkspaceEntryKind) : string :=
  match k with
  | StarterWorkspaceEntryFile => "file"
  | StarterWorkspaceEntryDirectory => "directory"
  | StarterWorkspaceEntryKind_other raw => raw
  end.
Definition Storage_string (s : AttemptWorkspaceObjectStorage) : string :=
  match s with
  | AttemptWorkspaceStorageStarter => "starter"
  | AttemptWorkspaceStorageAttempt => "attempt"
  | AttemptWorkspaceStorage_other raw => raw
  end.
Definition noStorage : AttemptWorkspaceObjectStorage := AttemptWorkspaceStorage_other "".

Record ExamSubmissionManifestEntry := mkManifestEntry {
  me_EntryID : ID;
  me_Kind : StarterWorkspaceEntryKind;
  me_Path : string;
  me_ContentVersion : WorkspaceContentVersion;
  me_MediaType : string;
  me_SizeBytes : Z;
  me_SHA256 : string;
  me_StorageOrigin : AttemptWorkspaceObjectStorage;
  me_StarterObjectID : ID;
  me_AttemptObjectID : ID }.

Definition me_error (reason : string) : error :=
  invalidModelError "exam_submission_manifest_entry" "" reason "".

Definition ManifestEntry_Validate (e : ExamSubmissionManifestEntry) : result unit :=
  fail_if negb (ID_IsValid (me_EntryID e))
    with me_error "invalid Submission manifest Entry identity" ;;
  fail_if negb (canonical_path (me_Path e)) with me_error "invalid Submission manifest path" ;;
  match me_Kind e with
  | StarterWorkspaceEntryDirectory =>
      fail_if negb (ContentVersion_IsZero (me_ContentVersion e)) || (me_MediaType e !=? "")
              || (me_SizeBytes e !=? 0) || (me_SHA256 e !=? "") || (me_StorageOrigin e !=? noStorage)
              || negb (ID_IsZero (me_StarterObjectID e)) || negb (ID_IsZero (me_AttemptObjectID e))
        with me_error "Submission manifest directory cannot carry content" ;;
      Ok tt
  | StarterWorkspaceEntryFile =>
      let content := mkAttemptWorkspaceContent (me_MediaType e) (me_SizeBytes e) (me_SHA256 e) in
      fail_if negb (ContentVersion_IsValid (me_ContentVersion e))
              || negb (is_ok (AttemptWorkspaceContent_Validate content))
        with me_error "invalid Submission manifest file content" ;;
      match me_StorageOrigin e with
      | AttemptWorkspaceStorageStarter =>
          fail_if negb (ID_IsValid (me_StarterObjectID e)) || negb (ID_IsZero (me_AttemptObjectID e))
            with me_error "invalid starter-origin Submission manifest file" ;;
          Ok tt
      | AttemptWorkspaceStorageAttempt =>
          fail_if negb (ID_IsValid (me_AttemptObjectID e)) || negb (ID_IsZero (me_StarterObjectID e))
            with me_error "invalid attempt-origin Submission manifest file" ;;
          Ok tt
      | AttemptWorkspaceStorage_other _ =>
          Err (me_error "invalid Submission manifest storage origin")
      end
  | StarterWorkspaceEntryKind_other _ => Err (me_error "invalid Submission manifest Entry kind")
  end.
#[global] Arguments ManifestEntry_Validate : simpl never.

(** ** Manifests *)

Record ExamSubmissionManifest := mkManifest {
  ma_SchemaVersion : Z;
  ma_WorkspaceCursor : Z;
  ma_Entries : list ExamSubmissionManifestEntry;
  ma_EntryCount : Z;
  ma_TotalFileBytes : Z;
  ma_SHA256 : string }.
#[global] Instance ExamSubmissionManifest_eta : Eta ExamSubmissionManifest := λ r,
  mkManifest (ma_SchemaVersion r) (ma_WorkspaceCursor r) (ma_Entries r) (ma_EntryCount r)
    (ma_TotalFileBytes r) (ma_SHA256 r).

(** [writeSubmissionDigestUint64] and [writeSubmissionDigestFrame]: the bytes they
    append to the hash. *)
Definition digest_uint64 (value : Z) : list Z := PutUint64 (uint64 value).
Definition digest_frame (value : string) : list Z := digest_uint64 (len value) ++ bytes value.

Definition entry_encoding (e : ExamSubmissionManifestEntry) : list Z :=
  digest_frame (me_EntryID e) ++ digest_frame (Kind_string (me_Kind e))
  ++ digest_frame (me_Path e) ++ digest_frame (me_ContentVersion e)
  ++ digest_frame (me_MediaType e) ++ digest_uint64 (me_SizeBytes e)
  ++ digest_frame (me_SHA256 e) ++ digest_frame (Storage_string (me_StorageOrigin e))
  ++ digest_frame (me_StarterObjectID e) ++ digest_frame (me_AttemptObjectID e).

Definition manifest_encoding (m : ExamSubmissionManifest) : list Z :=
  digest_frame examSubmissionManifestDigestDomain ++ digest_uint64 (ma_SchemaVersion m)
  ++ digest_uint64 (ma_WorkspaceCursor m) ++ digest_uint64 (Z.of_nat (length (ma_Entries m)))
  ++ (ma_Entries m ≫= entry_encoding).

Definition computeExamSubmissionManifestDigest (m : ExamSubmissionManifest) : string :=
  hex_encode (sha256 (manifest_encoding m)).
#[global] Arguments computeExamSubmissionManifestDigest : simpl never.

Definition ma_error (reason : string) : error :=
  invalidModelError "exam_submission_manifest" "" reason "".

Definition is_file (e : ExamSubmissionManifestEntry) : bool :=
  me_Kind e ==? StarterWorkspaceEntryFile.

(** The loop of [Validate]: the previous identifier, the paths seen, the total. *)
Fixpoint manifest_scan (previous : option ID) (paths : gset string) (total : Z)
    (entries : list ExamSubmissionManifestEntry) : result Z :=
  match entries with
  | [] => Ok total
  | e :: rest =>
      _ ← ManifestEntry_Validate e;
      fail_if match previous with
              | Some p => negb (Compare p (me_EntryID e) ==? Lt)
              | None => false
              end
        with ma_error "Submission manifest Entries are not in canonical order" ;;
      fail_if bool_decide (me_Path e ∈ paths)
        with ma_error "Submission manifest contains duplicate path" ;;
      if is_file e then
        fail_if int64_sub int64_max total <? me_SizeBytes e
          with ma_error "Submission manifest size overflows" ;;
        manifest_scan (Some (me_EntryID e)) ({[me_Path e]} ∪ paths)
          (int64_add total (me_SizeBytes e)) rest
      else manifest_scan (Some (me_EntryID e)) ({[me_Path e]} ∪ paths) total rest
  end.

Definition Manifest_Validate (m : ExamSubmissionManifest) : result unit :=
  fail_if (ma_SchemaVersion m !=? ExamSubmissionManifestSchemaVersion)
          || (ma_WorkspaceCursor m <? 0) || (ma_EntryCount m !=? Z.of_nat (length (ma_Entries m)))
          || (ExamWorkspaceMaximumEntries <? ma_EntryCount m) || (ma_TotalFileBytes m <? 0)
          || (ExamWorkspaceMaximumTotalBytes <? ma_TotalFileBytes m)
          || negb (validLowerSHA256 (ma_SHA256 m))
    with ma_error "invalid Submission manifest metadata" ;;
  total ← manifest_scan None ∅ 0 (ma_Entries m);
  fail_if (total !=? ma_TotalFileBytes m)
          || (computeExamSubmissionManifestDigest m !=? ma_SHA256 m)
    with ma_error "invalid Submission manifest digest" ;;
  Ok tt.
#[global] Arguments Manifest_Validate : simpl never.

(** [slices.SortFunc] by identifier.  Entries with equal identifiers could end in
    either order; [Validate] refuses such manifests. *)
Definition entry_le (a b : ExamSubmissionManifestEntry) : Prop :=
  Compare (me_EntryID a) (me_EntryID b) ≠ Gt.
#[global] Instance entry_le_dec : RelDecision entry_le.
Proof. intros a b. unfold entry_le. destruct (Compare _ _); [left|left|right]; done || tauto. Defined.

Fixpoint manifest_total (total : Z) (entries : list ExamSubmissionManifestEntry) : result Z :=
  match entries with
  | [] => Ok total
  | e :: rest =>
      if is_file e then
        fail_if int64_sub int64_max total <? me_SizeBytes e
          with invalidModelError "exam_submission" "" "Submission manifest size overflows" "" ;;
        manifest_total (int64_add total (me_SizeBytes e)) rest
      else manifest_total total rest
  end.

Definition NewExamSubmissionManifest (workspaceCursor : Z)
    (entries : list ExamSubmissionManifestEntry) : result ExamSubmissionManifest :=
  let sorted := merge_sort entry_le entries in
  total ← manifest_total 0 sorted;
  let manifest := mkManifest ExamSubmissionManifestSchemaVersion workspaceCursor sorted
    (Z.of_nat (length sorted)) total "" in
  let manifest := manifest <| ma_SHA256 := computeExamSubmissionManifestDigest manifest |> in
  _ ← Manifest_Validate manifest;
  Ok manifest.

(** ** Submission header *)

Inductive SubmissionIntegrityState :=
  | SubmissionIntegritySettled
  | SubmissionIntegrityGapped
  | SubmissionIntegrityRetired
  | SubmissionIntegrityState_other (raw : string).
#[global] Instance SubmissionIntegrityState_eq_dec : EqDecision SubmissionIntegrityState.
Proof. solve_decision. Defined.
Inductive ExamSubmissionProvenance :=
  | ExamSubmissionCandidateSubmitted
  | ExamSubmissionManagerEndedAttempt
  | ExamSubmissionSittingClosed
  | ExamSubmissionProvenance_other (raw : string).
#[global] Instance ExamSubmissionProvenance_eq_dec : EqDecision ExamSubmissionProvenance.
Proof. solve_decision. Defined.

Definition SubmissionIntegrityState_IsValid (s : SubmissionIntegrityState) : bool :=
  (s ==? SubmissionIntegritySettled) || (s ==? SubmissionIntegrityGapped)
  || (s ==? SubmissionIntegrityRetired).
Definition ExamSubmissionProvenance_IsValid (p : ExamSubmissionProvenance) : bool :=
  (p ==? ExamSubmissionCandidateSubmitted) || (p ==? ExamSubmissionManagerEndedAttempt)
  || (p ==? ExamSubmissionSittingClosed).

Record ExamSubmissionSpecification := mkSubmissionSpecification {
  sp_ID : ID;
  sp_AttemptID : ID;
  sp_ExamRevisionID : ID;
  sp_WorkspaceID : ID;
  sp_Manifest : ExamSubmissionManifest;
  sp_FinalFocusLossSequence : Z;
  sp_BrowserActivity : BrowserSubmissionSettlement;
  sp_UnresolvedIntegrityCount : Z;
  sp_Provenance : ExamSubmissionProvenance;
  sp_SubmittedAt : Time }.

Record ExamSubmission := mkExamSubmission {
  su_ID : ID;
  su_AttemptID : ID;
  su_ExamRevisionID : ID;
  su_WorkspaceID : ID;
  su_ManifestSchemaVersion : Z;
  su_WorkspaceCursor : Z;
  su_ManifestDigest : string;
  su_ManifestEntryCount : Z;
  su_ManifestTotalFileBytes : Z;
  su_FinalFocusLossSequence : Z;
  su_BrowserActivity : BrowserSubmissionSettlement;
  su_IntegrityState : SubmissionIntegrityState;
  su_IntegrityRetiredAt : OptionalTime;
  su_UnresolvedIntegrityCount : Z;
  su_Provenance : ExamSubmissionProvenance;
  su_SubmittedAt : Time }.

Definition su_error (reason : string) : error := invalidModelError "exam_submission" "" reason "".

Definition ExamSubmission_Validate (p : option ExamSubmission) : result unit :=
  match p with
  | None => Err (su_error "invalid Exam Submission")
  | Some s =>
      fail_if negb (ID_IsValid (su_ID s)) || negb (ID_IsValid (su_AttemptID s))
              || negb (ID_IsValid (su_ExamRevisionID s)) || negb (ID_IsValid (su_WorkspaceID s))
              || (su_ManifestSchemaVersion s !=? ExamSubmissionManifestSchemaVersion)
              || (su_WorkspaceCursor s <? 0) || negb (validLowerSHA256 (su_ManifestDigest s))
              || (su_ManifestEntryCount s <? 0)
              || (ExamWorkspaceMaximumEntries <? su_ManifestEntryCount s)
              || (su_ManifestTotalFileBytes s <? 0)
              || (ExamWorkspaceMaximumTotalBytes <? su_ManifestTotalFileBytes s)
              || (su_FinalFocusLossSequence s <? 0) || (su_UnresolvedIntegrityCount s <? 0)
              || Time_IsZero (su_SubmittedAt s)
              || negb (SubmissionIntegrityState_IsValid (su_IntegrityState s))
              || negb (ExamSubmissionProvenance_IsValid (su_Provenance s))
        with su_error "invalid Exam Submission" ;;
      fail_if (su_ManifestEntryCount s ==? 0) && (su_ManifestTotalFileBytes s !=? 0)
        with su_error "empty Exam Submission manifest has content bytes" ;;
      _ ← BrowserSubmissionSettlement_Validate (su_BrowserActivity s);
      if su_IntegrityState s ==? SubmissionIntegrityRetired then
        fail_if negb (ot_Valid (su_IntegrityRetiredAt s))
                || Time_IsZero (ot_Time (su_IntegrityRetiredAt s))
                || Time_Before (ot_Time (su_IntegrityRetiredAt s)) (su_SubmittedAt s)
                || (su_FinalFocusLossSequence s !=? 0) || (su_UnresolvedIntegrityCount s !=? 0)
          with su_error "retired Exam Submission retains integrity data or lacks its retirement time" ;;
        Ok tt
      else
        fail_if ot_Valid (su_IntegrityRetiredAt s) || negb (Time_IsZero (ot_Time (su_IntegrityRetiredAt s)))
          with su_error "retained Exam Submission integrity has a retirement time" ;;
        fail_if negb (Bool.eqb (su_IntegrityState s ==? SubmissionIntegritySettled)
                       (su_UnresolvedIntegrityCount s ==? 0))
          with su_error "inconsistent Exam Submission integrity state" ;;
        Ok tt
  end.
#[global] Arguments ExamSubmission_Validate : simpl never.

Definition NewExamSubmission (spec : ExamSubmissionSpecification) : result ExamSubmission :=
  let m := sp_Manifest spec in
  _ ← Manifest_Validate m;
  let state := if 0 <? sp_UnresolvedIntegrityCount spec then SubmissionIntegrityGapped
               else SubmissionIntegritySettled in
  let submission := mkExamSubmission (sp_ID spec) (sp_AttemptID spec) (sp_ExamRevisionID spec)
    (sp_WorkspaceID spec) (ma_SchemaVersion m) (ma_WorkspaceCursor m) (ma_SHA256 m)
    (ma_EntryCount m) (ma_TotalFileBytes m) (sp_FinalFocusLossSequence spec)
    (sp_BrowserActivity spec) state noTime (sp_UnresolvedIntegrityCount spec)
    (sp_Provenance spec) (TimeUTC (sp_SubmittedAt spec)) in
  _ ← ExamSubmission_Validate (Some submission);
  Ok submission.

(** ** The order on identifiers *)

#[global] Instance entry_le_total : Total entry_le.
Proof.
  intros a b. unfold entry_le, Compare. rewrite (compare_bytes_opp (bytes (me_EntryID a))).
  destruct (compare_bytes _ _); auto.
Qed.
#[global] Instance entry_le_trans : Transitive entry_le.
Proof. intros a b c. apply compare_bytes_trans. Qed.

Lemma entry_le_antisym a b : entry_le a b → entry_le b a → me_EntryID a = me_EntryID b.
Proof.
  unfold entry_le. intros H1 H2. apply Compare_eq. revert H1 H2. unfold Compare.
  rewrite (compare_bytes_opp (bytes (me_EntryID a))). by destruct (compare_bytes _ _).
Qed.

Definition entry_ids (l : list ExamSubmissionManifestEntry) : list ID := me_EntryID <$> l.
Definition entry_paths (l : list ExamSubmissionManifestEntry) : list string := me_Path <$> l.

(** The identifiers ascend strictly from a previous one. *)
Fixpoint ids_ascend (previous : option ID) (l : list ExamSubmissionManifestEntry) : Prop :=
  match l with
  | [] => True
  | e :: l => match previous with Some p => Compare p (me_EntryID e) = Lt | None => True end ∧
              ids_ascend (Some (me_EntryID e)) l
  end.

Lemma ids_ascend_sorted l :
  StronglySorted entry_le l → NoDup (entry_ids l) → ids_ascend None l.
Proof.
  intros Hs. assert (G : ∀ previous, match previous with
      | Some p => Forall (λ e, Compare p (me_EntryID e) = Lt) l | None => True end →
      NoDup (entry_ids l) → ids_ascend previous l); [|by apply (G None)].
  induction Hs as [|e l Hs IH Hf]; intros previous Hp Hn; [done|]. cbn in *.
  apply NoDup_cons in Hn as [Hn Hd]. split; [by destruct previous; [apply Forall_cons in Hp as []|]|].
  apply IH; [|done]. apply Forall_forall. intros x Hx. rewrite Forall_forall in Hf.
  destruct (Compare_lt_or _ _ (Hf x Hx)) as [|E]; [done|]. exfalso. apply Hn. rewrite E.
  by apply list_elem_of_fmap_2.
Qed.

Lemma ids_ascend_forall p l :
  ids_ascend (Some p) l → Forall (λ e, Compare p (me_EntryID e) = Lt) l.
Proof.
  revert p. induction l as [|e l IH]; intros p; [constructor|]. cbn. intros [H1 H2].
  constructor; [done|]. eapply Forall_impl; [by apply IH|]. cbn. intros x Hx.
  assert (Hle : Compare p (me_EntryID x) ≠ Gt).
  { apply compare_bytes_trans with (bytes (me_EntryID e)); [by unfold Compare in H1; rewrite H1|].
    by unfold Compare in Hx; rewrite Hx. }
  destruct (Compare_lt_or _ _ Hle) as [|E]; [done|]. subst p.
  unfold Compare in *. rewrite compare_bytes_opp, H1 in Hx. done.
Qed.

Lemma ids_ascend_nodup previous l : ids_ascend previous l → NoDup (entry_ids l).
Proof.
  revert previous. induction l as [|e l IH]; intros previous; cbn; [constructor|].
  intros [_ H]. constructor; [|by eapply IH]. intros (x & Hx & Hin)%list_elem_of_fmap.
  apply ids_ascend_forall in H. rewrite Forall_forall in H. specialize (H x Hin).
  rewrite <-Hx in H. assert (Compare (me_EntryID e) (me_EntryID e) = Eq) by (by apply Compare_eq).
  congruence.
Qed.

(** ** Totals *)

Definition file_bytes (l : list ExamSubmissionManifestEntry) : Z :=
  foldr (λ e n, (if is_file e then me_SizeBytes e else 0) + n) 0 l.

Lemma file_bytes_perm l1 l2 : l1 ≡ₚ l2 → file_bytes l1 = file_bytes l2.
Proof. unfold file_bytes. induction 1; cbn in *; lia. Qed.

Definition entry_valid (e : ExamSubmissionManifestEntry) : Prop := ManifestEntry_Validate e = Ok tt.

Lemma entry_valid_size e :
  entry_valid e → is_file e = true → 0 ≤ me_SizeBytes e ≤ ExamWorkspaceMaximumFileBytes.
Proof.
  unfold entry_valid, is_file, ManifestEntry_Validate. intros H Hk%bool_decide_eq_true.
  rewrite Hk in H. inv_run H. unfold AttemptWorkspaceContent_Validate in *. to_prop.
  destruct_and!. destruct (_ || _) eqn:E in *; [done|]. cbn in E. to_prop. lia.
Qed.

Lemma file_bytes_cons e l :
  file_bytes (e :: l) = (if is_file e then me_SizeBytes e else 0) + file_bytes l.
Proof. done. Qed.

Lemma file_bytes_nonneg l : Forall entry_valid l → 0 ≤ file_bytes l.
Proof.
  induction 1 as [|e l He Hl IH]; [done|]. rewrite file_bytes_cons.
  destruct (is_file e) eqn:E; [|lia]. pose proof (entry_valid_size e He E). lia.
Qed.

(** One round of the loop of [Validate]. *)
Lemma manifest_scan_cons previous paths total e l t :
  manifest_scan previous paths total (e :: l) = Ok t ↔
  entry_valid e ∧ match previous with Some p => Compare p (me_EntryID e) = Lt | None => True end ∧
  me_Path e ∉ paths ∧ (is_file e = true → me_SizeBytes e ≤ int64_sub int64_max total) ∧
  manifest_scan (Some (me_EntryID e)) ({[me_Path e]} ∪ paths)
    (if is_file e then int64_add total (me_SizeBytes e) else total) l = Ok t.
Proof.
  cbn [manifest_scan]. unfold entry_valid. rewrite ok_bind.
  assert (Hprev : match previous with Some p => negb (Compare p (me_EntryID e) ==? Lt)
      | None => false end = false ↔
      match previous with Some p => Compare p (me_EntryID e) = Lt | None => True end).
  { destruct previous; [|done]. by rewrite negb_false_iff, bool_decide_eq_true. }
  split.
  - intros ([] & Hv & H). rewrite !ok_fail_if, Hprev, bool_decide_eq_false in H.
    destruct (is_file e); rewrite ?ok_fail_if, ?Z.ltb_ge in H; naive_solver.
  - intros (Hv & H). exists tt. rewrite !ok_fail_if, Hprev, bool_decide_eq_false.
    destruct (is_file e); rewrite ?ok_fail_if, ?Z.ltb_ge; naive_solver.
Qed.

(** The accumulated total, when the sizes are those of valid entries. *)
Lemma total_step e total :
  0 ≤ total ≤ int64_max → entry_valid e →
  (is_file e = true → me_SizeBytes e ≤ int64_sub int64_max total) →
  (if is_file e then int64_add total (me_SizeBytes e) else total) =
    total + (if is_file e then me_SizeBytes e else 0) ∧
  0 ≤ total + (if is_file e then me_SizeBytes e else 0) ≤ int64_max.
Proof.
  intros Ht Hv. rewrite int64_sub_id by (unfold in_int64, int64_min, int64_max in *; lia).
  destruct (is_file e) eqn:Ef; [|lia]. intros Hs. specialize (Hs eq_refl).
  pose proof (entry_valid_size e Hv Ef).
  rewrite int64_add_id by (unfold in_int64, int64_min, int64_max in *; lia). lia.
Qed.

(** What the loop of [Validate] establishes. *)
Lemma manifest_scan_spec previous paths total l t :
  0 ≤ total ≤ int64_max →
  manifest_scan previous paths total l = Ok t ↔
  Forall entry_valid l ∧ ids_ascend previous l ∧ NoDup (entry_paths l) ∧
  Forall (λ e, me_Path e ∉ paths) l ∧ t = total + file_bytes l ∧ t ≤ int64_max.
Proof.
  revert previous paths total. induction l as [|e l IH]; intros previous paths total Ht.
  { cbn. split; [intros [= <-]|intros (_ & _ & _ & _ & -> & _); f_equal; lia].
    repeat split; try constructor; lia. }
  rewrite manifest_scan_cons, file_bytes_cons, !Forall_cons. cbn [ids_ascend].
  change (entry_paths (e :: l)) with (me_Path e :: entry_paths l). rewrite NoDup_cons.
  assert (Hpath : Forall (λ x, me_Path x ∉ {[me_Path e]} ∪ paths) l ↔
    me_Path e ∉ entry_paths l ∧ Forall (λ x, me_Path x ∉ paths) l).
  { unfold entry_paths. rewrite list_elem_of_fmap, !Forall_forall. set_solver. }
  split.
  - intros (Hv & Hp & Hin & Ho & H). destruct (total_step e total Ht Hv Ho) as [E Hr].
    rewrite E in H. apply (IH _ _ _ Hr) in H as (? & ? & ? & [? ?]%Hpath & ? & ?).
    split_and!; try done. lia.
  - intros ([Hv Hl] & [Hp Ha] & [Hn Hd] & [Hin Hi] & -> & Hmax).
    pose proof (file_bytes_nonneg l Hl).
    assert (Ho : is_file e = true → me_SizeBytes e ≤ int64_sub int64_max total).
    { intros Ef. rewrite Ef in Hmax.
      rewrite int64_sub_id by (unfold in_int64, int64_min, int64_max in *; lia). lia. }
    destruct (total_step e total Ht Hv Ho) as [E Hr]. split_and!; try done.
    rewrite E. apply (IH _ _ _ Hr). split_and!; try done; [by apply Hpath|lia].
Qed.

Lemma manifest_total_spec total l t :
  0 ≤ total ≤ int64_max → Forall entry_valid l →
  manifest_total total l = Ok t ↔ t = total + file_bytes l ∧ t ≤ int64_max.
Proof.
  intros Ht Hl. revert total Ht. induction Hl as [|e l He Hl IH]; intros total Ht.
  { cbn. split; [intros [= <-]; lia|intros [-> _]; f_equal; lia]. }
  cbn [manifest_total]. rewrite file_bytes_cons. pose proof (file_bytes_nonneg l Hl).
  destruct (is_file e) eqn:Ef; [|by rewrite IH].
  pose proof (entry_valid_size e He Ef). rewrite ok_fail_if.
  rewrite int64_sub_id by (unfold in_int64, int64_min, int64_max in *; lia). rewrite Z.ltb_ge.
  split.
  - intros [Ho H1]. rewrite int64_add_id in H1 by (unfold in_int64, int64_min, int64_max in *; lia).
    apply IH in H1; lia.
  - intros [-> Hmax]. split; [lia|].
    rewrite int64_add_id by (unfold in_int64, int64_min, int64_max in *; lia). apply IH; lia.
Qed.

(** ** Manifests: what [Validate] and the constructor accept *)

Lemma digest_is_lower_sha m : validLowerSHA256 (computeExamSubmissionManifestDigest m) = true.
Proof. apply hex_encode_validLowerSHA256; [apply sha256_bytes|apply sha256_length]. Qed.

Lemma total_bytes_fit : ExamWorkspaceMaximumTotalBytes < int64_max.
Proof. done. Qed.

Lemma Manifest_Validate_spec m :
  Manifest_Validate m = Ok tt ↔
  ma_SchemaVersion m = ExamSubmissionManifestSchemaVersion ∧ 0 ≤ ma_WorkspaceCursor m ∧
  ma_EntryCount m = Z.of_nat (length (ma_Entries m)) ∧
  ma_EntryCount m ≤ ExamWorkspaceMaximumEntries ∧
  ma_TotalFileBytes m = file_bytes (ma_Entries m) ∧
  ma_TotalFileBytes m ≤ ExamWorkspaceMaximumTotalBytes ∧
  Forall entry_valid (ma_Entries m) ∧ ids_ascend None (ma_Entries m) ∧
  NoDup (entry_paths (ma_Entries m)) ∧ ma_SHA256 m = computeExamSubmissionManifestDigest m.
Proof.
  unfold Manifest_Validate. rewrite ok_fail_if, ok_bind.
  assert (Hscan : ∀ t, manifest_scan None ∅ 0 (ma_Entries m) = Ok t ↔ _)
    by (intros t; apply manifest_scan_spec; unfold int64_max; lia).
  split.
  - intros (Hmeta & t & Ht & H). apply Hscan in Ht as (? & ? & ? & _ & -> & _).
    rewrite ok_fail_if in H. destruct H as [H _]. to_prop. naive_solver lia.
  - intros (? & ? & Hc & ? & Ht & ? & Hv & ? & ? & Hd).
    pose proof (file_bytes_nonneg _ Hv). split.
    + to_prop. rewrite Hd. pose proof (digest_is_lower_sha m). naive_solver lia.
    + exists (ma_TotalFileBytes m). split.
      * apply Hscan. pose proof total_bytes_fit. split_and!; try done; [|lia].
        apply Forall_true. set_solver.
      * rewrite ok_fail_if. split; [|done]. to_prop. naive_solver.
Qed.

(** What a caller must supply. *)
Definition submittable (cursor : Z) (entries : list ExamSubmissionManifestEntry) : Prop :=
  0 ≤ cursor ∧ Forall entry_valid entries ∧ NoDup (entry_ids entries) ∧
  NoDup (entry_paths entries) ∧ Z.of_nat (length entries) ≤ ExamWorkspaceMaximumEntries ∧
  file_bytes entries ≤ ExamWorkspaceMaximumTotalBytes.

Lemma new_manifest_inv c l m :
  NewExamSubmissionManifest c l = Ok m →
  Manifest_Validate m = Ok tt ∧ ma_Entries m = merge_sort entry_le l ∧ ma_WorkspaceCursor m = c.
Proof.
  intros H. unfold NewExamSubmissionManifest in H. inv_run H. done.
Qed.

Lemma new_manifest_ok c l :
  submittable c l →
  NewExamSubmissionManifest c l =
    Ok (let m := mkManifest ExamSubmissionManifestSchemaVersion c (merge_sort entry_le l)
                   (Z.of_nat (length l)) (file_bytes l) "" in
        m <| ma_SHA256 := computeExamSubmissionManifestDigest m |>).
Proof.
  intros (Hc & Hv & Hi & Hp & Hn & Hb). unfold NewExamSubmissionManifest.
  pose proof (merge_sort_Permutation entry_le l) as Hperm.
  assert (Hv' : Forall entry_valid (merge_sort entry_le l)) by (by rewrite Hperm).
  assert (Htot : manifest_total 0 (merge_sort entry_le l) = Ok (file_bytes l)).
  { apply manifest_total_spec; [unfold int64_max; lia|done|].
    rewrite (file_bytes_perm _ _ Hperm). pose proof total_bytes_fit. lia. }
  rewrite Htot. rewrite (Permutation_length Hperm).
  apply ok_bind. exists (file_bytes l). split; [done|]. cbv zeta. apply ok_bind. exists tt.
  split; [|done]. apply Manifest_Validate_spec. cbn [update].
  split_and!; cbn -[file_bytes]; try done.
  - by rewrite (Permutation_length Hperm).
  - by rewrite (file_bytes_perm _ _ Hperm).
  - apply ids_ascend_sorted; [apply (StronglySorted_merge_sort entry_le)|].
    unfold entry_ids. by rewrite Hperm.
  - unfold entry_paths. by rewrite Hperm.
Qed.

Lemma new_manifest_submittable c l m : NewExamSubmissionManifest c l = Ok m → submittable c l.
Proof.
  intros (Hv & He & <-)%new_manifest_inv. pose proof (merge_sort_Permutation entry_le l) as Hperm.
  apply Manifest_Validate_spec in Hv as (_ & ? & Hc & ? & Ht & ? & Hv & Ha & Hp & _).
  rewrite He in *. apply ids_ascend_nodup in Ha. unfold submittable.
  rewrite (file_bytes_perm _ _ Hperm) in Ht. rewrite (Permutation_length Hperm) in Hc.
  unfold entry_ids, entry_paths in *. rewrite Hperm in *. split_and!; try done; lia.
Qed.

(** [NewExamSubmissionManifest] succeeds on exactly the inventories whose cursor
    is not negative, whose entries are each valid, with distinct identifiers and
    distinct paths, at most 5000 of them and at most 1 GiB of file content.  The
    manifest then validates, holds the given entries in strictly ascending
    identifier order, and carries their count, their total size (with no overflow)
    and the digest of its own encoding. *)
Theorem submission_manifest_exact cursor entries :
  (is_ok (NewExamSubmissionManifest cursor entries) = true ↔ submittable cursor entries) ∧
  ∀ m, NewExamSubmissionManifest cursor entries = Ok m →
    Manifest_Validate m = Ok tt ∧ ma_Entries m ≡ₚ entries ∧ ids_ascend None (ma_Entries m) ∧
    ma_WorkspaceCursor m = cursor ∧ ma_EntryCount m = Z.of_nat (length entries) ∧
    ma_TotalFileBytes m = file_bytes entries ∧
    ma_SHA256 m = computeExamSubmissionManifestDigest m.
Proof.
  split.
  - split; [|by intros ->%new_manifest_ok].
    destruct (NewExamSubmissionManifest cursor entries) eqn:E; [|done].
    intros _. by eapply new_manifest_submittable.
  - intros m (Hv & He & Hc)%new_manifest_inv. split; [done|].
    pose proof (merge_sort_Permutation entry_le entries) as Hperm.
    apply Manifest_Validate_spec in Hv as (_ & _ & Hn & _ & Ht & _ & _ & Ha & _ & Hd).
    rewrite He in *. split_and!; try done.
    + by rewrite Hn, (Permutation_length Hperm).
    + by rewrite Ht, (file_bytes_perm _ _ Hperm).
Qed.

Lemma submittable_perm c l l' : l ≡ₚ l' → submittable c l → submittable c l'.
Proof.
  intros Hp (Hc & Hv & Hi & Hd & Hn & Hb). unfold submittable, entry_ids, entry_paths in *.
  split_and!; [done|by rewrite <-Hp|by rewrite <-Hp|by rewrite <-Hp| |].
  - by rewrite <-(Permutation_length Hp).
  - by rewrite <-(file_bytes_perm _ _ Hp).
Qed.

Lemma same_id_same_entry l x y :
  NoDup (entry_ids l) → x ∈ l → y ∈ l → me_EntryID x = me_EntryID y → x = y.
Proof.
  intros Hn (i & Hi)%list_elem_of_lookup (j & Hj)%list_elem_of_lookup E.
  assert (i = j) as ->; [|congruence].
  apply (NoDup_lookup _ _ _ (me_EntryID x) Hn); unfold entry_ids; rewrite list_lookup_fmap.
  - by rewrite Hi.
  - by rewrite Hj, E.
Qed.

Lemma sorted_perm l l' :
  NoDup (entry_ids l) → l ≡ₚ l' → merge_sort entry_le l = merge_sort entry_le l'.
Proof.
  intros Hn Hp. pose proof (merge_sort_Permutation entry_le l) as H1.
  pose proof (merge_sort_Permutation entry_le l') as H2.
  apply (StronglySorted_unique_strong entry_le).
  - intros x y Hx Hy Hxy Hyx. apply (same_id_same_entry l); [done| | |by apply entry_le_antisym].
    + by rewrite <-H1.
    + by rewrite Hp, <-H2.
  - apply (StronglySorted_merge_sort entry_le).
  - apply (StronglySorted_merge_sort entry_le).
  - by rewrite H1, H2.
Qed.

(** The order in which the inventory is read does not matter: permuted entries
    give the same manifest, byte for byte, so the same digest. *)
Theorem submission_manifest_order_independent cursor entries entries' m :
  entries ≡ₚ entries' → NewExamSubmissionManifest cursor entries = Ok m →
  NewExamSubmissionManifest cursor entries' = Ok m.
Proof.
  intros Hperm Hm. pose proof (new_manifest_submittable _ _ _ Hm) as Hs.
  pose proof (submittable_perm _ _ _ Hperm Hs) as Hs'.
  rewrite (new_manifest_ok _ _ Hs) in Hm. rewrite (new_manifest_ok _ _ Hs'), <-Hm.
  rewrite (sorted_perm entries entries'); [|apply Hs|done].
  by rewrite (file_bytes_perm _ _ Hperm), (Permutation_length Hperm).
Qed.

(** ** The digest identifies the manifest *)

Lemma pair_eq_app {A} (l1 l2 k1 k2 : list A) :
  length l1 = length l2 → l1 ++ k1 = l2 ++ k2 → l1 = l2 ∧ k1 = k2.
Proof. intros. by apply app_inj_1. Qed.

Lemma digest_uint64_inj a b x y :
  in_int64 a → in_int64 b → digest_uint64 a ++ x = digest_uint64 b ++ y → a = b ∧ x = y.
Proof.
  unfold in_int64, int64_min, int64_max. intros Ha Hb H.
  apply pair_eq_app in H as [H ->]; [|by unfold digest_uint64, PutUint64; rewrite !be_bytes_length].
  split; [|done]. unfold digest_uint64, PutUint64 in H. apply be_bytes_inj in H.
  - unfold uint64 in H. pose proof (Z.div_mod a (2 ^ 64)). pose proof (Z.div_mod b (2 ^ 64)).
    pose proof (Z.mod_pos_bound a (2 ^ 64)). pose proof (Z.mod_pos_bound b (2 ^ 64)). nia.
  - change (256 ^ Z.of_nat 8) with (2 ^ 64). by apply Z.mod_pos_bound.
  - change (256 ^ Z.of_nat 8) with (2 ^ 64). by apply Z.mod_pos_bound.
Qed.

(** Shorter than the largest framed length. *)
Definition short (s : string) : Prop := len s ≤ int64_max.

Lemma digest_frame_inj s t x y :
  short s → short t → digest_frame s ++ x = digest_frame t ++ y → s = t ∧ x = y.
Proof.
  unfold short, digest_frame. intros Hs Ht. rewrite <-!app_assoc. intros H.
  assert (Hr : ∀ s, short s → in_int64 (len s)).
  { unfold short, in_int64, int64_min, int64_max. intros u Hu. pose proof (len_nonneg u). lia. }
  apply digest_uint64_inj in H as [Hl H]; [|by apply Hr..].
  apply pair_eq_app in H as [H ->]; [|unfold len in Hl; rewrite !length_bytes; lia].
  by apply bytes_inj in H.
Qed.

Definition entry_kind_known (e : ExamSubmissionManifestEntry) : Prop :=
  me_Kind e = StarterWorkspaceEntryFile ∨ me_Kind e = StarterWorkspaceEntryDirectory.
Definition entry_storage_known (e : ExamSubmissionManifestEntry) : Prop :=
  me_StorageOrigin e = AttemptWorkspaceStorageStarter ∨
  me_StorageOrigin e = AttemptWorkspaceStorageAttempt ∨ me_StorageOrigin e = noStorage.

Lemma short_id id : ID_IsValid id = true → short id.
Proof.
  unfold ID_IsValid, IsValidOpaqueID, short, int64_max. destruct (len id !=? IDLength) eqn:E; [done|].
  intros _. unfold IDLength in E. to_prop. lia.
Qed.
Lemma short_path p : canonical_path p = true → short p.
Proof.
  unfold canonical_path, short. destruct (NormalizeAttemptWorkspacePath p) eqn:E; [|done].
  unfold NormalizeAttemptWorkspacePath, NormalizeStarterWorkspacePath in E. inv_run E. intros _.
  unfold StarterWorkspaceMaximumPathBytes, int64_max in *. to_prop. lia.
Qed.
Lemma short_version v : ContentVersion_IsValid v = true → short v.
Proof. unfold ContentVersion_IsValid, short, int64_max. intros H. to_prop. lia. Qed.
Lemma short_sha v : validLowerSHA256 v = true → short v.
Proof.
  unfold validLowerSHA256, short, int64_max. destruct (_ || _) eqn:E; [done|]. to_prop. lia.
Qed.
Lemma short_empty : short "".
Proof. done. Qed.
Lemma short_zero_id id : ID_IsZero id = true → short id.
Proof. unfold ID_IsZero. by intros ->%bool_decide_eq_true. Qed.
Create HintDb short.
#[export] Hint Resolve short_id short_path short_version short_sha short_empty short_zero_id : short.

Lemma entry_valid_encodable e :
  entry_valid e →
  entry_kind_known e ∧ entry_storage_known e ∧ in_int64 (me_SizeBytes e) ∧
  short (me_EntryID e) ∧ short (me_Path e) ∧ short (me_ContentVersion e) ∧
  short (me_MediaType e) ∧ short (me_SHA256 e) ∧ short (me_StarterObjectID e) ∧
  short (me_AttemptObjectID e).
Proof.
  unfold entry_valid, ManifestEntry_Validate, entry_kind_known, entry_storage_known. intros H.
  apply ok_fail_if in H as [Hid H]. apply ok_fail_if in H as [Hp H]. to_prop.
  destruct (me_Kind e) eqn:Ek; [| |done].
  - apply ok_fail_if in H as [Hc H]. to_prop. destruct Hc as [Hcv Hc].
    destruct (AttemptWorkspaceContent_Validate _) eqn:Hv in Hc; [|done].
    unfold AttemptWorkspaceContent_Validate in Hv. inv_run Hv. cbn in *. to_prop. destruct_and!.
    assert (in_int64 (me_SizeBytes e)).
    { unfold in_int64, int64_min, int64_max, ExamWorkspaceMaximumFileBytes in *.
      rewrite Z.shiftl_mul_pow2 in * by lia. lia. }
    assert (short (me_MediaType e)) by (unfold short, int64_max; lia).
    destruct (me_StorageOrigin e) eqn:Es; [| |done]; apply ok_fail_if in H as [H _]; to_prop;
      destruct_and!; split_and!; auto with short.
  - apply ok_fail_if in H as [H _]. to_prop. destruct_and!.
    repeat match goal with E : _ = "" |- _ => rewrite E end. unfold ContentVersion_IsZero in *.
    to_prop. repeat match goal with E : _ = "" |- _ => rewrite E end.
    split_and!; auto with short. by replace (me_SizeBytes e) with 0 by done.
Qed.

Lemma Kind_string_inj e e' :
  entry_kind_known e → entry_kind_known e' → Kind_string (me_Kind e) = Kind_string (me_Kind e') →
  me_Kind e = me_Kind e'.
Proof. by intros [-> | ->] [-> | ->]. Qed.
Lemma Storage_string_inj e e' :
  entry_storage_known e → entry_storage_known e' →
  Storage_string (me_StorageOrigin e) = Storage_string (me_StorageOrigin e') →
  me_StorageOrigin e = me_StorageOrigin e'.
Proof. by intros [-> |[-> | ->]] [-> |[-> | ->]]. Qed.
Lemma short_kind e : entry_kind_known e → short (Kind_string (me_Kind e)).
Proof. by intros [-> | ->]. Qed.
Lemma short_storage e : entry_storage_known e → short (Storage_string (me_StorageOrigin e)).
Proof. by intros [-> |[-> | ->]]. Qed.
#[export] Hint Resolve short_kind short_storage : short.

Lemma entry_encoding_inj e e' x y :
  entry_valid e → entry_valid e' → entry_encoding e ++ x = entry_encoding e' ++ y → e = e' ∧ x = y.
Proof.
  intros Hv Hv' H. destruct (entry_valid_encodable e Hv) as (Hk & Hs & ? & ? & ? & ? & ? & ? & ? & ?).
  destruct (entry_valid_encodable e' Hv') as (Hk' & Hs' & ? & ? & ? & ? & ? & ? & ? & ?).
  unfold entry_encoding in H. rewrite <-!app_assoc in H.
  apply digest_frame_inj in H as [E0 H]; auto with short.
  apply digest_frame_inj in H as [E1 H]; auto with short.
  apply digest_frame_inj in H as [E2 H]; auto with short.
  apply digest_frame_inj in H as [E3 H]; auto with short.
  apply digest_frame_inj in H as [E4 H]; auto with short.
  apply digest_uint64_inj in H as [E5 H]; auto with short.
  apply digest_frame_inj in H as [E6 H]; auto with short.
  apply digest_frame_inj in H as [E7 H]; auto with short.
  apply digest_frame_inj in H as [E8 H]; auto with short.
  apply digest_frame_inj in H as [E9 H]; auto with short.
  split; [|done]. apply Kind_string_inj in E1; [|done..]. apply Storage_string_inj in E7; [|done..].
  destruct e, e'; cbn in *; congruence.
Qed.

Lemma entries_encoding_inj l l' :
  Forall entry_valid l → Forall entry_valid l' → length l = length l' →
  (l ≫= entry_encoding) = (l' ≫= entry_encoding) → l = l'.
Proof.
  intros Hl. revert l'. induction Hl as [|e l He Hl IH]; intros [|e' l'] Hl' Hn; try done.
  apply Forall_cons in Hl' as [He' Hl']. rewrite !bind_cons. intros H.
  apply entry_encoding_inj in H as [-> H]; [|done..]. f_equal. apply IH; [done|by injection Hn|done].
Qed.

Lemma manifest_encoding_inj m m' :
  Manifest_Validate m = Ok tt → Manifest_Validate m' = Ok tt →
  ma_WorkspaceCursor m ≤ int64_max → ma_WorkspaceCursor m' ≤ int64_max →
  manifest_encoding m = manifest_encoding m' → m = m'.
Proof.
  intros (Hs & Hc & Hn & Hm & Ht & _ & Hv & _ & _ & Hd)%Manifest_Validate_spec
    (Hs' & Hc' & Hn' & Hm' & Ht' & _ & Hv' & _ & _ & Hd')%Manifest_Validate_spec Hmax Hmax' H.
  assert (Hr : ∀ z, 0 ≤ z ≤ int64_max → in_int64 z).
  { unfold in_int64, int64_min, int64_max. lia. }
  assert (Hl : ∀ k : list ExamSubmissionManifestEntry,
    Z.of_nat (length k) ≤ ExamWorkspaceMaximumEntries → in_int64 (Z.of_nat (length k))).
  { intros k Hk. apply Hr. unfold ExamWorkspaceMaximumEntries, int64_max in *. lia. }
  unfold manifest_encoding in H. rewrite Hs, Hs' in H.
  apply digest_frame_inj in H as [_ H]; [|done..].
  apply digest_uint64_inj in H as [_ H]; [|done..].
  apply digest_uint64_inj in H as [E1 H]; [|by apply Hr..].
  apply digest_uint64_inj in H as [E2 H]; [|apply Hl; lia..].
  apply Nat2Z.inj in E2. apply entries_encoding_inj in H; [|done..].
  destruct m as [s c l n t d], m' as [s' c' l' n' t' d']; cbn -[file_bytes] in *.
  subst. f_equal. etrans; [exact Hd|symmetry; exact Hd'].
Qed.

(** C10. The digest identifies the manifest: two valid manifests with the same digest
    are the same manifest, unless their two encodings are a collision of SHA-256.
    (The framing leaves no ambiguity of its own: the encoding is injective.) *)
Theorem submission_digest_binding m m' :
  Manifest_Validate m = Ok tt → Manifest_Validate m' = Ok tt →
  ma_WorkspaceCursor m ≤ int64_max → ma_WorkspaceCursor m' ≤ int64_max →
  ma_SHA256 m = ma_SHA256 m' →
  m = m' ∨ (manifest_encoding m ≠ manifest_encoding m' ∧
            sha256 (manifest_encoding m) = sha256 (manifest_encoding m')).
Proof.
  intros Hm Hm' Hc Hc' H. destruct (decide (manifest_encoding m = manifest_encoding m')) as [E|E].
  - left. by apply manifest_encoding_inj.
  - right. split; [done|]. apply Manifest_Validate_spec in Hm, Hm'. destruct_and!.
    apply hex_encode_inj; [apply sha256_bytes..|].
    change (computeExamSubmissionManifestDigest m = computeExamSubmissionManifestDigest m').
    congruence.
Qed.

(** A Submission header records the manifest it was made from and nothing else:
    cursor, schema, digest, entry count and total size are the manifest's, its
    integrity state is "gapped" exactly when integrity work is unresolved, and it
    passes its own validation. *)
Theorem submission_header_summarises spec s :
  NewExamSubmission spec = Ok s →
  ExamSubmission_Validate (Some s) = Ok tt ∧ Manifest_Validate (sp_Manifest spec) = Ok tt ∧
  su_ManifestDigest s = computeExamSubmissionManifestDigest (sp_Manifest spec) ∧
  su_WorkspaceCursor s = ma_WorkspaceCursor (sp_Manifest spec) ∧
  su_ManifestEntryCount s = Z.of_nat (length (ma_Entries (sp_Manifest spec))) ∧
  su_ManifestTotalFileBytes s = file_bytes (ma_Entries (sp_Manifest spec)) ∧
  (su_IntegrityState s = SubmissionIntegrityGapped ↔ 0 < sp_UnresolvedIntegrityCount spec) ∧
  (su_IntegrityState s = SubmissionIntegritySettled ↔ sp_UnresolvedIntegrityCount spec = 0) ∧
  t_loc (su_SubmittedAt s) = UTC.
Proof.
  intros H. unfold NewExamSubmission in H. inv_run H.
  split; [done|]. split; [done|]. rename H0 into Hm, H1 into Hv.
  apply Manifest_Validate_spec in Hm. destruct_and!. cbn -[file_bytes].
  assert (0 ≤ sp_UnresolvedIntegrityCount spec).
  { unfold ExamSubmission_Validate in Hv. apply ok_fail_if in Hv as [Hv _]. cbn in Hv.
    to_prop. destruct_and!. lia. }
  split_and!; try done; destruct (0 <? sp_UnresolvedIntegrityCount spec) eqn:E; to_prop;
    split; intros; done || lia.
Qed.

(** ** Samples *)

Definition sample_file_entry : ExamSubmissionManifestEntry :=
  mkManifestEntry sample_revision_id StarterWorkspaceEntryFile "src/main.go" sample_id
    "text/plain" 12 sample_sum AttemptWorkspaceStorageAttempt "" sample_id.
Definition sample_directory_entry : ExamSubmissionManifestEntry :=
  mkManifestEntry sample_id StarterWorkspaceEntryDirectory "src" "" "" 0 "" noStorage "" "".
Definition sample_manifest : ExamSubmissionManifest :=
  ok_or (mkManifest 0 0 [] 0 0 "")
    (NewExamSubmissionManifest 3 [sample_file_entry; sample_directory_entry]).
Definition sample_submission_spec : ExamSubmissionSpecification :=
  mkSubmissionSpecification sample_id sample_id sample_revision_id sample_id sample_manifest 0
    (mkBrowserSubmissionSettlement "not_applicable" 1 0 0 0) 2 ExamSubmissionCandidateSubmitted
    (at_second 100).
Definition sample_submission : ExamSubmission :=
  ok_or (mkExamSubmission "" "" "" "" 0 0 "" 0 0 0 (mkBrowserSubmissionSettlement "" 0 0 0 0)
           SubmissionIntegritySettled noTime 0 ExamSubmissionCandidateSubmitted zeroTime)
    (NewExamSubmission sample_submission_spec).

Lemma submission_manifest_order_independent_witness :
  NewExamSubmissionManifest 3 [sample_directory_entry; sample_file_entry] = Ok sample_manifest.
Proof.
  apply (submission_manifest_order_independent 3 [sample_file_entry; sample_directory_entry]).
  - constructor.
  - vm_compute. reflexivity.
Defined.

Lemma submission_digest_binding_witness :
  sample_manifest = sample_manifest ∨
  (manifest_encoding sample_manifest ≠ manifest_encoding sample_manifest ∧
   sha256 (manifest_encoding sample_manifest) = sha256 (manifest_encoding sample_manifest)).
Proof.
  apply submission_digest_binding; vm_compute; reflexivity || (intros [=]).
Defined.

Lemma submission_header_summarises_witness :
  su_IntegrityState sample_submission = SubmissionIntegrityGapped ∧
  su_ManifestTotalFileBytes sample_submission = 12.
Proof.
  destruct (submission_header_summarises sample_submission_spec sample_submission)
    as (_ & _ & _ & _ & _ & Hb & Hg & _).
  - vm_compute. reflexivity.
  - split; [apply Hg; vm_compute; reflexivity|]. rewrite Hb. vm_compute. reflexivity.
Defined.
