(* ===== verification/GoJson.v ===== *)
(** * The JSON scanner of encoding/json

    [json.Valid] of Go's standard library, as the byte scanner that implements it:
    a step function over a stack of open objects and arrays.  Nesting deeper than
    10000 is refused; bytes above 0x1F are taken as they come inside strings. *)

From S2P Require Import Prelude GoStrings.

Definition maxNestingDepth : nat := 10000.

(** What the enclosing composite expects next. *)
Inductive parseState := parseObjectKey | parseObjectValue | parseArrayValue.

Inductive scanStep :=
  | stateBeginValue
  | stateBeginValueOrEmpty
  | stateBeginStringOrEmpty
  | stateBeginString
  | stateEndValue
  | stateEndTop
  | stateInString
  | stateInStringEsc
  | stateInStringEscU (more : nat)
  | stateNeg
  | state1
  | state0
  | stateDot
  | stateDot0
  | stateE
  | stateESign
  | stateE0
  | stateLiteral (rest : list Z).

Definition scanner : Type := scanStep * list parseState.

Definition is_space (c : Z) : bool := (c =? 32) || (c =? 9) || (c =? 13) || (c =? 10).
Definition is_digit (c : Z) : bool := in_range 48 57 c.
Definition is_exponent (c : Z) : bool := (c =? 101) || (c =? 69).

Definition pushParseState (next : scanStep) (p : parseState) (stack : list parseState)
    : option scanner :=
  if (length (p :: stack) <=? maxNestingDepth)%nat then Some (next, p :: stack) else None.

Definition popParseState (stack : list parseState) : option scanner :=
  match tail stack with
  | [] => Some (stateEndTop, [])
  | stack' => Some (stateEndValue, stack')
  end.

Definition end_top (c : Z) : option scanner :=
  if is_space c then Some (stateEndTop, []) else None.

Definition end_value (stack : list parseState) (c : Z) : option scanner :=
  match stack with
  | [] => end_top c
  | p :: below =>
      if is_space c then Some (stateEndValue, stack)
      else match p with
           | parseObjectKey =>
               if c =? 58 then Some (stateBeginValue, parseObjectValue :: below) else None
           | parseObjectValue =>
               if c =? 44 then Some (stateBeginString, parseObjectKey :: below)
               else if c =? 125 then popParseState stack else None
           | parseArrayValue =>
               if c =? 44 then Some (stateBeginValue, stack)
               else if c =? 93 then popParseState stack else None
           end
  end.

Definition begin_string (stack : list parseState) (c : Z) : option scanner :=
  if is_space c then Some (stateBeginString, stack)
  else if c =? 34 then Some (stateInString, stack) else None.

Definition begin_value (stack : list parseState) (c : Z) : option scanner :=
  if is_space c then Some (stateBeginValue, stack)
  else if c =? 123 then pushParseState stateBeginStringOrEmpty parseObjectKey stack
  else if c =? 91 then pushParseState stateBeginValueOrEmpty parseArrayValue stack
  else if c =? 34 then Some (stateInString, stack)
  else if c =? 45 then Some (stateNeg, stack)
  else if c =? 48 then Some (state0, stack)
  else if c =? 116 then Some (stateLiteral (bytes "rue"), stack)
  else if c =? 102 then Some (stateLiteral (bytes "alse"), stack)
  else if c =? 110 then Some (stateLiteral (bytes "ull"), stack)
  else if in_range 49 57 c then Some (state1, stack)
  else None.

Definition after_int (stack : list parseState) (c : Z) : option scanner :=
  if c =? 46 then Some (stateDot, stack)
  else if is_exponent c then Some (stateE, stack)
  else end_value stack c.

Definition exponent_sign (stack : list parseState) (c : Z) : option scanner :=
  if is_digit c then Some (stateE0, stack) else None.

(** [s.step(s, c)]: the next step, or [None] for [scanError]. *)
Definition scan_step (s : scanner) (c : Z) : option scanner :=
  let '(step, stack) := s in
  match step with
  | stateBeginValue => begin_value stack c
  | stateBeginValueOrEmpty =>
      if is_space c then Some s else if c =? 93 then end_value stack c else begin_value stack c
  | stateBeginStringOrEmpty =>
      if is_space c then Some s
      else if c =? 125 then end_value (parseObjectValue :: tail stack) c
      else begin_string stack c
  | stateBeginString => begin_string stack c
  | stateEndValue => end_value stack c
  | stateEndTop => end_top c
  | stateInString =>
      if c =? 34 then Some (stateEndValue, stack)
      else if c =? 92 then Some (stateInStringEsc, stack)
      else if c <? 32 then None
      else Some (stateInString, stack)
  | stateInStringEsc =>
      if existsb (Z.eqb c) [98; 102; 110; 114; 116; 92; 47; 34] then Some (stateInString, stack)
      else if c =? 117 then Some (stateInStringEscU 3, stack) else None
  | stateInStringEscU more =>
      if hex_digit c then
        Some (match more with O => stateInString | S more1 => stateInStringEscU more1 end, stack)
      else None
  | stateNeg =>
      if c =? 48 then Some (state0, stack)
      else if in_range 49 57 c then Some (state1, stack) else None
  | state1 => if is_digit c then Some (state1, stack) else after_int stack c
  | state0 => after_int stack c
  | stateDot => if is_digit c then Some (stateDot0, stack) else None
  | stateDot0 =>
      if is_digit c then Some (stateDot0, stack)
      else if is_exponent c then Some (stateE, stack) else end_value stack c
  | stateE =>
      if (c =? 43) || (c =? 45) then Some (stateESign, stack) else exponent_sign stack c
  | stateESign => exponent_sign stack c
  | stateE0 => if is_digit c then Some (stateE0, stack) else end_value stack c
  | stateLiteral rest =>
      match rest with
      | [] => None
      | [d] => if c =? d then Some (stateEndValue, stack) else None
      | d :: rest' => if c =? d then Some (stateLiteral rest', stack) else None
      end
  end.

(** [checkValid]: every byte, then [eof], which steps over one more space. *)
Definition scan_eof (s : scanner) : bool :=
  match scan_step s 32 with
  | Some (stateEndTop, _) => true
  | _ => false
  end.

Fixpoint scan (s : scanner) (data : list Z) : bool :=
  match data with
  | [] => scan_eof s
  | c :: data' => match scan_step s c with Some s' => scan s' data' | None => false end
  end.

Definition json_valid (data : string) : bool := scan (stateBeginValue, []) (bytes data).

(** ** The scanner on small documents *)

Example json_valid_samples :
  forallb json_valid
    ["{}"; "[]"; " [1, -2.5e+10, 0, true, false, null] "; "{ }"; "0"; "[[],[{}]]"] = true.
Proof. vm_compute. reflexivity. Qed.
Example json_invalid_samples :
  existsb json_valid
    [""; " "; "{"; "[1,]"; "01"; "+1"; "1."; "1e"; "tru"; "truee"; "{1:2}"; "[1 2]"; "}"; "1 2";
     ",1"; "[}"; "nul"] = false.
Proof. vm_compute. reflexivity. Qed.
