(* ===== verification/Job.v ===== *)
(** * Durable jobs

    Models [server/model/job.go]: the Job and its lifecycle, and the Job Attempt a
    worker holds while it runs one.  A transition returns a new value and the error
    of its validation, so an operation is a function to both: no value when a guard
    refuses, the value with its validation otherwise. *)

From stdpp Require Import relations.
From S2P Require Import Prelude GoTime GoStrings Ident ModelError GoJson.

Definition JobMaximumDocumentBytes : Z := Z.shiftl 64 10.

(** ** Vocabularies *)

Definition JobType : Type := string.
(** [jobTypes], in declaration order. *)
Definition jobTypes : list JobType :=
  ["profile_picture.generate_default"; "profile_picture.reconcile_defaults";
   "file.purge_expired_content"; "job.cleanup"; "retention.reconcile"; "retention.purge";
   "retention.notices"; "retention.expire"; "command_outcome.cleanup"; "audit.attempt_sweep";
   "session.purge_retired"; "exam_sitting.lifecycle"; "exam_sitting.lifecycle_recovery";
   "exam_sitting.sealing"; "mail.deliver"; "mail.deliver_credential"; "mail.cleanup";
   "mail.rekey"; "mfa.rekey"; "mail.expand_sitting"; "invitation.maintenance";
   "onboarding_import.parse"; "onboarding_import.execute"; "student_progression.preview";
   "exam_export.build"; "exam_export.cleanup"].
Definition JobType_IsValid (t : JobType) : bool := bool_decide (t ∈ jobTypes).

Inductive JobStatus :=
  | JobStatusQueued
  | JobStatusRunning
  | JobStatusCancelRequested
  | JobStatusSucceeded
  | JobStatusFailed
  | JobStatusCanceled
  | JobStatus_other (raw : string).
#[global] Instance JobStatus_eq_dec : EqDecision JobStatus.
Proof. solve_decision. Defined.
Definition jobStatuses : list JobStatus :=
  [JobStatusQueued; JobStatusRunning; JobStatusCancelRequested; JobStatusSucceeded;
   JobStatusFailed; JobStatusCanceled].
Definition JobStatus_IsValid (s : JobStatus) : bool := bool_decide (s ∈ jobStatuses).

Inductive JobAttemptStatus :=
  | JobAttemptStatusRunning
  | JobAttemptStatusSucceeded
  | JobAttemptStatusFailed
  | JobAttemptStatusCanceled
  | JobAttemptStatusLeaseExpired
  | JobAttemptStatusIncompatible
  | JobAttemptStatus_other (raw : string).
#[global] Instance JobAttemptStatus_eq_dec : EqDecision JobAttemptStatus.
Proof. solve_decision. Defined.
Definition validJobAttemptStatus (v : JobAttemptStatus) : bool :=
  (v ==? JobAttemptStatusRunning) || (v ==? JobAttemptStatusSucceeded)
  || (v ==? JobAttemptStatusFailed) || (v ==? JobAttemptStatusCanceled)
  || (v ==? JobAttemptStatusLeaseExpired) || (v ==? JobAttemptStatusIncompatible).

Inductive JobDedupePolicy :=
  | JobDedupeActive
  | JobDedupePermanent
  | JobDedupePolicy_other (raw : string).
#[global] Instance JobDedupePolicy_eq_dec : EqDecision JobDedupePolicy.
Proof. solve_decision. Defined.
Definition validJobDedupePolicy (p : JobDedupePolicy) : bool :=
  (p ==? JobDedupeActive) || (p ==? JobDedupePermanent).

Record JobProgress := mkJobProgress { jp_Current : Z; jp_Total : Z; jp_Stage : string }.
#[global] Instance JobProgress_eq_dec : EqDecision JobProgress.
Proof. solve_decision. Defined.

(** [jobSafeCode] and [jobSafeStage] are the expressions of [safe_code]. *)
Definition validJobDocument (value : string) (optional : bool) : bool :=
  if len value =? 0 then optional
  else (len value <=? JobMaximumDocumentBytes) && json_valid value.
Definition validPublicJobCode (value : string) : bool :=
  (value ==? "") || safe_code 127 value.
Definition validJobProgress (value : option JobProgress) : bool :=
  match value with
  | None => true
  | Some p => (0 <=? jp_Current p) && (0 <? jp_Total p) && (jp_Current p <=? jp_Total p)
              && safe_code 63 (jp_Stage p)
  end.

(** ** Jobs *)

Record Job := mkJob {
  j_ID : ID;
  j_Type : JobType;
  j_Status : JobStatus;
  j_CreatedAt : Time;
  j_UpdatedAt : Time;
  j_AvailableAt : Time;
  j_StartedAt : OptionalTime;
  j_CompletedAt : OptionalTime;
  j_Command : string;
  j_Checkpoint : string;
  j_Result : string;
  j_PublicErrorCode : string;
  j_DedupeKey : string;
  j_DedupePolicy : JobDedupePolicy;
  j_AttemptCount : Z;
  j_MaximumAttempts : Z;
  j_WorkReserved : Z;
  j_Progress : option JobProgress;
  j_Revision : Z }.
#[global] Instance Job_eta : Eta Job := λ r,
  mkJob (j_ID r) (j_Type r) (j_Status r) (j_CreatedAt r) (j_UpdatedAt r) (j_AvailableAt r)
    (j_StartedAt r) (j_CompletedAt r) (j_Command r) (j_Checkpoint r) (j_Result r)
    (j_PublicErrorCode r) (j_DedupeKey r) (j_DedupePolicy r) (j_AttemptCount r)
    (j_MaximumAttempts r) (j_WorkReserved r) (j_Progress r) (j_Revision r).

Definition job_error (reason : string) : error := invalidModelError "job" "" reason "".

Definition job_terminal (s : JobStatus) : bool :=
  (s ==? JobStatusSucceeded) || (s ==? JobStatusFailed) || (s ==? JobStatusCanceled).

Definition Job_Validate (p : option Job) : result unit :=
  match p with
  | None => Err (job_error "invalid job")
  | Some j =>
      fail_if negb (ID_IsValid (j_ID j)) || negb (JobType_IsValid (j_Type j))
              || negb (JobStatus_IsValid (j_Status j)) || Time_IsZero (j_CreatedAt j)
              || Time_Before (j_UpdatedAt j) (j_CreatedAt j) || Time_IsZero (j_AvailableAt j)
              || negb (validJobDocument (j_Command j) false) || (len (j_DedupeKey j) =? 0)
              || (255 <? len (j_DedupeKey j)) || negb (validJobDedupePolicy (j_DedupePolicy j))
              || (j_AttemptCount j <? 0) || (j_MaximumAttempts j <=? 0)
              || (j_MaximumAttempts j <? j_AttemptCount j) || (j_WorkReserved j <? 0)
              || (j_Revision j <=? 0)
        with job_error "invalid job" ;;
      fail_if negb (validJobDocument (j_Checkpoint j) true)
              || negb (validJobDocument (j_Result j) true)
              || negb (validPublicJobCode (j_PublicErrorCode j))
              || negb (validJobProgress (j_Progress j))
        with job_error "invalid job result state" ;;
      fail_if negb (Bool.eqb (job_terminal (j_Status j)) (ot_Valid (j_CompletedAt j)))
              || ((j_Status j ==? JobStatusRunning) && (j_AttemptCount j =? 0))
        with job_error "invalid job lifecycle" ;;
      Ok tt
  end.
#[global] Arguments Job_Validate : simpl never.

Definition NewJobWithDedupePolicy (id : ID) (jobType : JobType) (command dedupeKey : string)
    (dedupePolicy : JobDedupePolicy) (createdAt availableAt : Time) (maximumAttempts : Z)
    : result Job :=
  let job := mkJob id jobType JobStatusQueued (TimeUTC createdAt) (TimeUTC createdAt)
    (TimeUTC availableAt) noTime noTime command "" "" "" (TrimSpace dedupeKey) dedupePolicy 0
    maximumAttempts 0 None 1 in
  _ ← Job_Validate (Some job);
  Ok job.

Definition NewJob (id : ID) (jobType : JobType) (command dedupeKey : string)
    (createdAt availableAt : Time) (maximumAttempts : Z) : result Job :=
  NewJobWithDedupePolicy id jobType command dedupeKey JobDedupeActive createdAt availableAt
    maximumAttempts.

(** [return nil, err] and [return &result, result.Validate()]. *)
Definition returned (A : Type) : Type := option A * result unit.
Definition refused {A} (e : error) : returned A := (None, Err e).
Definition checked_job (j : Job) : returned Job := (Some j, Job_Validate (Some j)).

Definition job_holding (s : JobStatus) : bool :=
  (s ==? JobStatusRunning) || (s ==? JobStatusCancelRequested).

Definition Job_Start (p : option Job) (at_ : Time) : returned Job :=
  match p with
  | None => refused (job_error "job cannot start")
  | Some j =>
      if (j_Status j !=? JobStatusQueued) || (j_MaximumAttempts j <=? j_AttemptCount j)
         || Time_Before (TimeUTC at_) (j_AvailableAt j)
      then refused (job_error "job cannot start")
      else
        let r := j <| j_Status := JobStatusRunning |> <| j_UpdatedAt := TimeUTC at_ |> in
        let r := if negb (ot_Valid (j_StartedAt r))
                 then r <| j_StartedAt := OptionalTimeFrom at_ |> else r in
        checked_job (r <| j_AttemptCount := int64_succ (j_AttemptCount r) |>
                       <| j_Revision := int64_succ (j_Revision r) |>)
  end.

Definition Job_UpdateProgress (p : option Job) (progress : option JobProgress)
    (checkpoint : string) (at_ : Time) : returned Job :=
  match p with
  | None => refused (job_error "job progress cannot be updated")
  | Some j =>
      if negb (job_holding (j_Status j)) || negb (validJobProgress progress)
         || negb (validJobDocument checkpoint true) || Time_Before (TimeUTC at_) (j_UpdatedAt j)
      then refused (job_error "job progress cannot be updated")
      else checked_job (j <| j_Progress := progress |> <| j_Checkpoint := checkpoint |>
             <| j_UpdatedAt := TimeUTC at_ |> <| j_Revision := int64_succ (j_Revision j) |>)
  end.

Definition Job_Succeed (p : option Job) (document : string) (at_ : Time) : returned Job :=
  match p with
  | None => refused (job_error "job cannot succeed")
  | Some j =>
      if negb (job_holding (j_Status j)) || negb (validJobDocument document false)
         || Time_Before (TimeUTC at_) (j_UpdatedAt j)
      then refused (job_error "job cannot succeed")
      else checked_job (j <| j_Status := JobStatusSucceeded |> <| j_Result := document |>
             <| j_PublicErrorCode := "" |> <| j_CompletedAt := OptionalTimeFrom at_ |>
             <| j_UpdatedAt := TimeUTC at_ |> <| j_Revision := int64_succ (j_Revision j) |>)
  end.

Definition Job_Retry (p : option Job) (publicErrorCode : string) (availableAt at_ : Time)
    : returned Job :=
  match p with
  | None => refused (job_error "job cannot retry")
  | Some j =>
      if (j_Status j !=? JobStatusRunning) || (j_MaximumAttempts j <=? j_AttemptCount j)
         || negb (validPublicJobCode publicErrorCode)
         || negb (Time_After (TimeUTC availableAt) (TimeUTC at_))
         || Time_Before (TimeUTC at_) (j_UpdatedAt j)
      then refused (job_error "job cannot retry")
      else checked_job (j <| j_Status := JobStatusQueued |> <| j_AvailableAt := TimeUTC availableAt |>
             <| j_UpdatedAt := TimeUTC at_ |> <| j_PublicErrorCode := TrimSpace publicErrorCode |>
             <| j_Revision := int64_succ (j_Revision j) |>)
  end.

Definition Job_Relinquish (p : option Job) (publicErrorCode : string) (availableAt at_ : Time)
    : returned Job :=
  match p with
  | None => refused (job_error "job cannot be relinquished")
  | Some j =>
      if (j_Status j !=? JobStatusRunning) || (j_MaximumAttempts j =? int64_max)
         || negb (validPublicJobCode publicErrorCode) || (publicErrorCode ==? "")
         || negb (Time_After (TimeUTC availableAt) (TimeUTC at_))
         || Time_Before (TimeUTC at_) (j_UpdatedAt j)
      then refused (job_error "job cannot be relinquished")
      else checked_job (j <| j_Status := JobStatusQueued |> <| j_AvailableAt := TimeUTC availableAt |>
             <| j_UpdatedAt := TimeUTC at_ |> <| j_PublicErrorCode := TrimSpace publicErrorCode |>
             <| j_MaximumAttempts := int64_succ (j_MaximumAttempts j) |>
             <| j_Revision := int64_succ (j_Revision j) |>)
  end.

Definition Job_Fail (p : option Job) (publicErrorCode : string) (at_ : Time) : returned Job :=
  match p with
  | None => refused (job_error "job cannot fail")
  | Some j =>
      if negb (job_holding (j_Status j)) || negb (validPublicJobCode publicErrorCode)
         || (publicErrorCode ==? "") || Time_Before (TimeUTC at_) (j_UpdatedAt j)
      then refused (job_error "job cannot fail")
      else checked_job (j <| j_Status := JobStatusFailed |> <| j_UpdatedAt := TimeUTC at_ |>
             <| j_CompletedAt := OptionalTimeFrom at_ |>
             <| j_PublicErrorCode := TrimSpace publicErrorCode |>
             <| j_Revision := int64_succ (j_Revision j) |>)
  end.

Definition Job_Cancel (p : option Job) (publicErrorCode : string) (at_ : Time) : returned Job :=
  match p with
  | None => refused (job_error "job cannot cancel")
  | Some j =>
      if negb (job_holding (j_Status j) || (j_Status j ==? JobStatusQueued))
         || negb (validPublicJobCode publicErrorCode) || Time_Before (TimeUTC at_) (j_UpdatedAt j)
      then refused (job_error "job cannot cancel")
      else checked_job (j <| j_Status := JobStatusCanceled |> <| j_UpdatedAt := TimeUTC at_ |>
             <| j_CompletedAt := OptionalTimeFrom at_ |>
             <| j_PublicErrorCode := TrimSpace publicErrorCode |>
             <| j_Revision := int64_succ (j_Revision j) |>)
  end.

Definition Job_RequestCancellation (p : option Job) (at_ : Time) : returned Job :=
  match p with
  | None => refused (job_error "job cancellation cannot be requested")
  | Some j =>
      if negb ((j_Status j ==? JobStatusQueued) || (j_Status j ==? JobStatusRunning))
         || Time_Before (TimeUTC at_) (j_UpdatedAt j)
      then refused (job_error "job cancellation cannot be requested")
      else if j_Status j ==? JobStatusQueued then Job_Cancel p "job.canceled" at_
      else checked_job (j <| j_Status := JobStatusCancelRequested |>
             <| j_UpdatedAt := TimeUTC at_ |> <| j_Revision := int64_succ (j_Revision j) |>)
  end.

Definition Job_ExplicitRetry (p : option Job) (at_ : Time) : returned Job :=
  match p with
  | None => refused (job_error "job cannot be explicitly retried")
  | Some j =>
      if negb ((j_Status j ==? JobStatusFailed) || (j_Status j ==? JobStatusCanceled))
         || Time_Before (TimeUTC at_) (j_UpdatedAt j)
      then refused (job_error "job cannot be explicitly retried")
      else checked_job (j <| j_Status := JobStatusQueued |> <| j_AvailableAt := TimeUTC at_ |>
             <| j_UpdatedAt := TimeUTC at_ |> <| j_CompletedAt := noTime |>
             <| j_MaximumAttempts := int64_succ (j_AttemptCount j) |>
             <| j_Revision := int64_succ (j_Revision j) |>)
  end.

(** ** Job Attempts *)

(** [JobClaimToken.IsValid]: the same 64 hexadecimal digits as a token hash. *)
Definition ClaimToken_IsValid (t : string) : bool :=
  if len t !=? 64 then false else hex_decodes t.

(** [NewJobClaimToken], from the 32 bytes [rand.Read] returned. *)
Definition NewJobClaimToken (value : list Z) : string := hex_encode value.

Record JobAttempt := mkJobAttempt {
  ja_ID : ID;
  ja_JobID : ID;
  ja_Number : Z;
  ja_Status : JobAttemptStatus;
  ja_NodeID : string;
  ja_ClaimToken : string;
  ja_StartedAt : Time;
  ja_HeartbeatAt : Time;
  ja_LeaseExpiresAt : Time;
  ja_CompletedAt : OptionalTime;
  ja_PublicErrorCode : string }.
#[global] Instance JobAttempt_eta : Eta JobAttempt := λ r,
  mkJobAttempt (ja_ID r) (ja_JobID r) (ja_Number r) (ja_Status r) (ja_NodeID r) (ja_ClaimToken r)
    (ja_StartedAt r) (ja_HeartbeatAt r) (ja_LeaseExpiresAt r) (ja_CompletedAt r)
    (ja_PublicErrorCode r).

Definition ja_error (reason : string) : error := invalidModelError "job_attempt" "" reason "".

Definition JobAttempt_Validate (p : option JobAttempt) : result unit :=
  match p with
  | None => Err (ja_error "invalid job attempt")
  | Some a =>
      fail_if negb (ID_IsValid (ja_ID a)) || negb (ID_IsValid (ja_JobID a)) || (ja_Number a <=? 0)
              || negb (validJobAttemptStatus (ja_Status a)) || (ja_NodeID a ==? "")
              || (255 <? len (ja_NodeID a)) || negb (ClaimToken_IsValid (ja_ClaimToken a))
              || Time_IsZero (ja_StartedAt a) || Time_Before (ja_HeartbeatAt a) (ja_StartedAt a)
              || negb (Time_After (ja_LeaseExpiresAt a) (ja_HeartbeatAt a))
              || negb (validPublicJobCode (ja_PublicErrorCode a))
        with ja_error "invalid job attempt" ;;
      fail_if Bool.eqb (ja_Status a ==? JobAttemptStatusRunning) (ot_Valid (ja_CompletedAt a))
        with ja_error "invalid job attempt lifecycle" ;;
      Ok tt
  end.
#[global] Arguments JobAttempt_Validate : simpl never.

Definition NewJobAttempt (id jobID : ID) (number : Z) (nodeID token : string)
    (startedAt leaseExpiresAt : Time) : result JobAttempt :=
  let attempt := mkJobAttempt id jobID number JobAttemptStatusRunning (TrimSpace nodeID) token
    (TimeUTC startedAt) (TimeUTC startedAt) (TimeUTC leaseExpiresAt) noTime "" in
  _ ← JobAttempt_Validate (Some attempt);
  Ok attempt.

Definition checked_attempt (a : JobAttempt) : returned JobAttempt :=
  (Some a, JobAttempt_Validate (Some a)).

Definition JobAttempt_Heartbeat (p : option JobAttempt) (at_ leaseExpiresAt : Time)
    : returned JobAttempt :=
  match p with
  | None => refused (ja_error "job attempt cannot heartbeat")
  | Some a =>
      if (ja_Status a !=? JobAttemptStatusRunning) || Time_Before (TimeUTC at_) (ja_HeartbeatAt a)
         || negb (Time_After (TimeUTC leaseExpiresAt) (TimeUTC at_))
      then refused (ja_error "job attempt cannot heartbeat")
      else checked_attempt (a <| ja_HeartbeatAt := TimeUTC at_ |>
                              <| ja_LeaseExpiresAt := TimeUTC leaseExpiresAt |>)
  end.

Definition JobAttempt_Complete (p : option JobAttempt) (status : JobAttemptStatus)
    (publicErrorCode : string) (at_ : Time) : returned JobAttempt :=
  match p with
  | None => refused (ja_error "job attempt cannot complete")
  | Some a =>
      if (ja_Status a !=? JobAttemptStatusRunning) || (status ==? JobAttemptStatusRunning)
         || negb (validJobAttemptStatus status) || Time_Before (TimeUTC at_) (ja_HeartbeatAt a)
      then refused (ja_error "job attempt cannot complete")
      else checked_attempt (a <| ja_Status := status |>
             <| ja_PublicErrorCode := TrimSpace publicErrorCode |>
             <| ja_CompletedAt := OptionalTimeFrom at_ |>)
  end.

(** ** What validation establishes *)

(** The part of validity that no transition can lose: it only reads pinned fields. *)
Definition job_pinned_valid (j : Job) : Prop :=
  ID_IsValid (j_ID j) = true ∧ JobType_IsValid (j_Type j) = true ∧ t_ns (j_CreatedAt j) ≠ 0 ∧
  validJobDocument (j_Command j) false = true ∧ 1 ≤ len (j_DedupeKey j) ≤ 255 ∧
  validJobDedupePolicy (j_DedupePolicy j) = true ∧ 0 ≤ j_WorkReserved j.

(** The part a transition must re-establish. *)
Record job_state_valid (j : Job) : Prop := {
  jv_status : JobStatus_IsValid (j_Status j) = true;
  jv_updated : t_ns (j_CreatedAt j) ≤ t_ns (j_UpdatedAt j);
  jv_available : t_ns (j_AvailableAt j) ≠ 0;
  jv_attempts : 0 ≤ j_AttemptCount j ≤ j_MaximumAttempts j;
  jv_maximum : 0 < j_MaximumAttempts j;
  jv_revision : 0 < j_Revision j;
  jv_checkpoint : validJobDocument (j_Checkpoint j) true = true;
  jv_result : validJobDocument (j_Result j) true = true;
  jv_code : validPublicJobCode (j_PublicErrorCode j) = true;
  jv_progress : validJobProgress (j_Progress j) = true;
  jv_completed : ot_Valid (j_CompletedAt j) = job_terminal (j_Status j);
  jv_running : j_Status j = JobStatusRunning → 0 < j_AttemptCount j }.

Lemma len_zero s : (len s =? 0) = false ↔ 1 ≤ len s.
Proof. unfold len. rewrite Z.eqb_neq. lia. Qed.

Lemma Job_Validate_spec j :
  Job_Validate (Some j) = Ok tt ↔ job_pinned_valid j ∧ job_state_valid j.
Proof.
  unfold Job_Validate, job_pinned_valid. rewrite !ok_fail_if. split.
  - intros (H1 & H2 & H3 & _). rewrite !orb_false_iff, len_zero in H1. to_prop.
    rewrite eqb_true_iff in H3. destruct_and!. split; [split_and!; done|].
    split; try done; try lia. intros E. naive_solver lia.
  - intros [Hp [? ? ? ? ? ? ? ? ? ? Hc Hr]]. rewrite !orb_false_iff, len_zero. to_prop.
    rewrite eqb_true_iff. split_and!; try done; try lia; try naive_solver lia.
    destruct (decide (j_Status j = JobStatusRunning)) as [E|E]; [|by left].
    right. specialize (Hr E). lia.
Qed.

(** ** Histories *)

Inductive JobOp :=
  | JStart (at_ : Time)
  | JUpdateProgress (progress : option JobProgress) (checkpoint : string) (at_ : Time)
  | JSucceed (document : string) (at_ : Time)
  | JRetry (code : string) (availableAt at_ : Time)
  | JRelinquish (code : string) (availableAt at_ : Time)
  | JFail (code : string) (at_ : Time)
  | JCancel (code : string) (at_ : Time)
  | JRequestCancellation (at_ : Time)
  | JExplicitRetry (at_ : Time).

Definition run_job_op (op : JobOp) (p : option Job) : returned Job :=
  match op with
  | JStart t => Job_Start p t
  | JUpdateProgress v c t => Job_UpdateProgress p v c t
  | JSucceed d t => Job_Succeed p d t
  | JRetry c a t => Job_Retry p c a t
  | JRelinquish c a t => Job_Relinquish p c a t
  | JFail c t => Job_Fail p c t
  | JCancel c t => Job_Cancel p c t
  | JRequestCancellation t => Job_RequestCancellation p t
  | JExplicitRetry t => Job_ExplicitRetry p t
  end.

Definition job_step (op : JobOp) (j j' : Job) : Prop := run_job_op op (Some j) = (Some j', Ok tt).

(** A sequence of accepted operations. *)
Inductive job_run : list JobOp → Job → Job → Prop :=
  | job_run_nil j : job_run [] j j
  | job_run_cons op ops j j' j'' :
      job_step op j j' → job_run ops j' j'' → job_run (op :: ops) j j''.

Definition job_initial (j : Job) : Prop :=
  ∃ id ty command key policy created available maximum, in_int64 maximum ∧
    NewJobWithDedupePolicy id ty command key policy created available maximum = Ok j.

(** The invariant of a Job: it validates, its counters are machine integers, it has
    a result exactly when it succeeded, it has started exactly when an attempt was
    made, and it is never available again before its last update. *)
Record job_inv (j : Job) : Prop := {
  ji_valid : Job_Validate (Some j) = Ok tt;
  ji_revision : j_Revision j ≤ int64_max;
  ji_maximum : j_MaximumAttempts j ≤ int64_max;
  ji_result : j_Result j ≠ "" ↔ j_Status j = JobStatusSucceeded;
  ji_started : ot_Valid (j_StartedAt j) = true ↔ 0 < j_AttemptCount j;
  ji_holding : job_holding (j_Status j) = true → 0 < j_AttemptCount j;
  ji_queued : j_Status j = JobStatusQueued →
    t_ns (j_UpdatedAt j) ≤ t_ns (j_AvailableAt j) ∨ j_UpdatedAt j = j_CreatedAt j }.

(** How a Job evolves. *)
Record job_evolves (j j' : Job) : Prop := {
  je_identity : (j_ID j', j_Type j', j_Command j', j_DedupeKey j', j_DedupePolicy j',
                 j_CreatedAt j', j_WorkReserved j') =
                (j_ID j, j_Type j, j_Command j, j_DedupeKey j, j_DedupePolicy j,
                 j_CreatedAt j, j_WorkReserved j);
  je_revision : j_Revision j ≤ j_Revision j';
  je_same : j_Revision j' = j_Revision j → j' = j;
  je_updated : t_ns (j_UpdatedAt j) ≤ t_ns (j_UpdatedAt j');
  je_attempts : j_AttemptCount j ≤ j_AttemptCount j';
  je_started : ot_Valid (j_StartedAt j) = true → j_StartedAt j' = j_StartedAt j;
  je_succeeded : j_Status j = JobStatusSucceeded → j' = j }.

Lemma job_evolves_refl j : job_evolves j j.
Proof. by split. Qed.

Lemma job_evolves_trans j1 j2 j3 : job_evolves j1 j2 → job_evolves j2 j3 → job_evolves j1 j3.
Proof.
  intros [I1 R1 S1 U1 A1 T1 D1] [I2 R2 S2 U2 A2 T2 D2]. split.
  - congruence.
  - lia.
  - intros E. assert (j_Revision j2 = j_Revision j1) as E1 by lia.
    rewrite (S1 E1) in *. apply S2. lia.
  - lia.
  - lia.
  - intros H. rewrite T2; [by apply T1|]. by rewrite T1.
  - intros H. rewrite (D1 H) in *. by apply D2.
Qed.

(** A returned value with no error passed the guard and its validation. *)
Lemma checked_inv (c : bool) e r j :
  (if c then refused e else checked_job r) = (Some j, Ok tt) ↔
  c = false ∧ j = r ∧ Job_Validate (Some r) = Ok tt.
Proof.
  unfold refused, checked_job. destruct c; split; try done; [by intros (? & _)| |].
  - by intros [= <- ->].
  - by intros (_ & -> & ->).
Qed.

(** What an accepted operation found and did. *)
Definition job_effect (op : JobOp) (j j' : Job) : Prop :=
  match op with
  | JStart t => j_Status j = JobStatusQueued ∧ j_AttemptCount j < j_MaximumAttempts j ∧
      t_ns (j_AvailableAt j) ≤ t_ns (TimeUTC t) ∧
      j' = j <| j_Status := JobStatusRunning |> <| j_UpdatedAt := TimeUTC t |>
             <| j_StartedAt := if ot_Valid (j_StartedAt j) then j_StartedAt j else OptionalTimeFrom t |>
             <| j_AttemptCount := int64_succ (j_AttemptCount j) |>
             <| j_Revision := int64_succ (j_Revision j) |>
  | JUpdateProgress v c t => job_holding (j_Status j) = true ∧
      t_ns (j_UpdatedAt j) ≤ t_ns (TimeUTC t) ∧
      j' = j <| j_Progress := v |> <| j_Checkpoint := c |> <| j_UpdatedAt := TimeUTC t |>
             <| j_Revision := int64_succ (j_Revision j) |>
  | JSucceed d t => job_holding (j_Status j) = true ∧ d ≠ "" ∧
      t_ns (j_UpdatedAt j) ≤ t_ns (TimeUTC t) ∧
      j' = j <| j_Status := JobStatusSucceeded |> <| j_Result := d |> <| j_PublicErrorCode := "" |>
             <| j_CompletedAt := OptionalTimeFrom t |> <| j_UpdatedAt := TimeUTC t |>
             <| j_Revision := int64_succ (j_Revision j) |>
  | JRetry c a t => j_Status j = JobStatusRunning ∧ j_AttemptCount j < j_MaximumAttempts j ∧
      t_ns (TimeUTC t) < t_ns (TimeUTC a) ∧ t_ns (j_UpdatedAt j) ≤ t_ns (TimeUTC t) ∧
      j' = j <| j_Status := JobStatusQueued |> <| j_AvailableAt := TimeUTC a |>
             <| j_UpdatedAt := TimeUTC t |> <| j_PublicErrorCode := TrimSpace c |>
             <| j_Revision := int64_succ (j_Revision j) |>
  | JRelinquish c a t => j_Status j = JobStatusRunning ∧ j_MaximumAttempts j ≠ int64_max ∧
      t_ns (TimeUTC t) < t_ns (TimeUTC a) ∧ t_ns (j_UpdatedAt j) ≤ t_ns (TimeUTC t) ∧
      j' = j <| j_Status := JobStatusQueued |> <| j_AvailableAt := TimeUTC a |>
             <| j_UpdatedAt := TimeUTC t |> <| j_PublicErrorCode := TrimSpace c |>
             <| j_MaximumAttempts := int64_succ (j_MaximumAttempts j) |>
             <| j_Revision := int64_succ (j_Revision j) |>
  | JFail c t => job_holding (j_Status j) = true ∧ t_ns (j_UpdatedAt j) ≤ t_ns (TimeUTC t) ∧
      j' = j <| j_Status := JobStatusFailed |> <| j_UpdatedAt := TimeUTC t |>
             <| j_CompletedAt := OptionalTimeFrom t |> <| j_PublicErrorCode := TrimSpace c |>
             <| j_Revision := int64_succ (j_Revision j) |>
  | JCancel c t => (job_holding (j_Status j) = true ∨ j_Status j = JobStatusQueued) ∧
      t_ns (j_UpdatedAt j) ≤ t_ns (TimeUTC t) ∧
      j' = j <| j_Status := JobStatusCanceled |> <| j_UpdatedAt := TimeUTC t |>
             <| j_CompletedAt := OptionalTimeFrom t |> <| j_PublicErrorCode := TrimSpace c |>
             <| j_Revision := int64_succ (j_Revision j) |>
  | JRequestCancellation t => t_ns (j_UpdatedAt j) ≤ t_ns (TimeUTC t) ∧
      ((j_Status j = JobStatusQueued ∧
        j' = j <| j_Status := JobStatusCanceled |> <| j_UpdatedAt := TimeUTC t |>
               <| j_CompletedAt := OptionalTimeFrom t |> <| j_PublicErrorCode := "job.canceled" |>
               <| j_Revision := int64_succ (j_Revision j) |>) ∨
       (j_Status j = JobStatusRunning ∧
        j' = j <| j_Status := JobStatusCancelRequested |> <| j_UpdatedAt := TimeUTC t |>
               <| j_Revision := int64_succ (j_Revision j) |>))
  | JExplicitRetry t => (j_Status j = JobStatusFailed ∨ j_Status j = JobStatusCanceled) ∧
      t_ns (j_UpdatedAt j) ≤ t_ns (TimeUTC t) ∧
      j' = j <| j_Status := JobStatusQueued |> <| j_AvailableAt := TimeUTC t |>
             <| j_UpdatedAt := TimeUTC t |> <| j_CompletedAt := noTime |>
             <| j_MaximumAttempts := int64_succ (j_AttemptCount j) |>
             <| j_Revision := int64_succ (j_Revision j) |>
  end.

Lemma document_nonempty d : validJobDocument d false = true → d ≠ "".
Proof. by intros H ->. Qed.

Lemma job_step_effect op j j' :
  job_step op j j' → Job_Validate (Some j') = Ok tt ∧ job_effect op j j'.
Proof.
  unfold job_step. destruct op; cbn [run_job_op job_effect]; intros H.
  - apply checked_inv in H as (Hg & -> & Hv). to_prop. destruct_and!.
    split; [done|]. split_and!; try done. cbn. by destruct (ot_Valid (j_StartedAt j)).
  - apply checked_inv in H as (Hg & -> & Hv). to_prop. by destruct_and!.
  - apply checked_inv in H as (Hg & -> & Hv). to_prop. destruct_and!.
    split; [done|]. split_and!; try done. by apply document_nonempty.
  - apply checked_inv in H as (Hg & -> & Hv). to_prop. by destruct_and!.
  - apply checked_inv in H as (Hg & -> & Hv). to_prop. by destruct_and!.
  - apply checked_inv in H as (Hg & -> & Hv). to_prop. by destruct_and!.
  - apply checked_inv in H as (Hg & -> & Hv). to_prop. by destruct_and!.
  - unfold Job_RequestCancellation in H. destruct (_ || _) eqn:Hg in H; [done|]. to_prop.
    destruct Hg as [Hs Ht]. destruct (j_Status j ==? JobStatusQueued) eqn:Eq.
    + apply checked_inv in H as (_ & -> & Hv). to_prop. split; [done|]. split; [done|]. by left.
    + unfold checked_job in H. injection H as <- Hv. to_prop. split; [done|]. split; [done|].
      right. split; [|done]. by destruct Hs.
  - apply checked_inv in H as (Hg & -> & Hv). to_prop. by destruct_and!.
Qed.

(** The revision always moves by one, and never wraps. *)
Lemma job_effect_revision op j j' :
  job_inv j → Job_Validate (Some j') = Ok tt → job_effect op j j' →
  j_Revision j' = j_Revision j + 1 ∧ j_Revision j' ≤ int64_max.
Proof.
  intros Hi [_ [? ? ? ? ? Hr ? ? ? ? ? ?]]%Job_Validate_spec He.
  assert (Hs : j_Revision j' = int64_succ (j_Revision j)).
  { destruct op; cbn in He; destruct_and?; destruct_or?; destruct_and?; by subst j'. }
  pose proof (int64_succ_in_range (j_Revision j)) as Hb.
  destruct Hi as [[_ [? ? ? ? ? ? ? ? ? ? ? ?]]%Job_Validate_spec ? ? ? ? ? ?].
  rewrite Hs in *. rewrite int64_succ_pos in *; try (unfold in_int64, int64_min, int64_max in *; lia).
Qed.

(** No operation moves the update stamp backwards, not even [Start], which only
    compares its instant with the availability. *)
Lemma job_effect_updated op j j' :
  job_inv j → Job_Validate (Some j') = Ok tt → job_effect op j j' →
  t_ns (j_UpdatedAt j) ≤ t_ns (j_UpdatedAt j').
Proof.
  intros Hi [_ Hv]%Job_Validate_spec He. destruct op; cbn in He;
    destruct_and?; try (subst j'; done).
  - destruct (ji_queued j Hi) as [?|Hu]; [done|subst j'; cbn; lia|].
    pose proof (jv_updated _ Hv). subst j'. cbn in *. rewrite Hu. lia.
  - destruct_or?; destruct_and?; subst j'; done.
Qed.

(** Open the description of what an operation did, one case per operation. *)
Ltac effect_cases op He :=
  destruct op; cbn in He; destruct_and?; destruct_or?; destruct_and?;
  match goal with E : ?j' = _ |- _ => is_var j'; subst j' end; cbn.

Lemma job_effect_not_succeeded op j j' : job_effect op j j' → j_Status j ≠ JobStatusSucceeded.
Proof.
  intros He E. destruct op; cbn in He; unfold job_holding in He;
    rewrite ?orb_true_iff, ?bool_decide_eq_true in He; destruct_and?; destruct_or?; destruct_and?;
    congruence.
Qed.

(** A result is recorded by [Succeed] only. *)
Lemma job_effect_result op j j' :
  job_effect op j j' → j_Result j = "" →
  j_Result j' ≠ "" ↔ j_Status j' = JobStatusSucceeded.
Proof.
  intros He Hr. pose proof (job_effect_not_succeeded op j j' He).
  effect_cases op He; rewrite ?Hr; split; intros; try done; congruence.
Qed.

Lemma job_holding_spec s :
  job_holding s = true ↔ s = JobStatusRunning ∨ s = JobStatusCancelRequested.
Proof. unfold job_holding. by rewrite orb_true_iff, !bool_decide_eq_true. Qed.

(** Only [Start] counts an attempt, and the first one stamps the start. *)
Lemma job_effect_attempts op j j' :
  job_inv j → job_effect op j j' →
  j_AttemptCount j' = j_AttemptCount j + (if op is JStart _ then 1 else 0) ∧
  (ot_Valid (j_StartedAt j') = true ↔ 0 < j_AttemptCount j').
Proof.
  intros Hi He. pose proof (ji_started j Hi) as Hs. pose proof (ji_maximum j Hi) as Hm.
  apply ji_valid, Job_Validate_spec in Hi as [_ Hv]. pose proof (jv_attempts _ Hv).
  effect_cases op He; try (split; [lia|done]).
  rewrite int64_succ_lt by (unfold in_int64, int64_min; lia).
  split; [done|]. destruct (ot_Valid (j_StartedAt j)) eqn:E; rewrite ?E; cbn; split; lia || done.
Qed.

Lemma job_effect_evolves op j j' :
  job_inv j → Job_Validate (Some j') = Ok tt → job_effect op j j' → job_evolves j j'.
Proof.
  intros Hi Hv He. destruct (job_effect_revision op j j' Hi Hv He).
  pose proof (job_effect_updated op j j' Hi Hv He).
  assert (Hc : j_AttemptCount j ≤ j_AttemptCount j').
  { destruct (job_effect_attempts op j j' Hi He) as [-> _]. destruct op; lia. }
  split; try done; try lia.
  - destruct op; cbn in He; destruct_and?; destruct_or?; destruct_and?; by subst j'.
  - intros E. destruct op; cbn in He; destruct_and?; destruct_or?; destruct_and?; subst j'; try done.
    cbn. by rewrite E.
  - intros E. exfalso. by apply (job_effect_not_succeeded op j j').
Qed.

Lemma job_effect_maximum op j j' :
  job_inv j → job_effect op j j' → j_MaximumAttempts j' ≤ int64_max.
Proof.
  intros Hi He. pose proof (ji_maximum j Hi).
  effect_cases op He; try done; apply int64_succ_in_range.
Qed.

Lemma job_effect_queued op j j' :
  job_effect op j j' → j_Status j' = JobStatusQueued → t_ns (j_UpdatedAt j') ≤ t_ns (j_AvailableAt j').
Proof.
  intros He. destruct (decide (j_Status j = JobStatusQueued)) as [E|E].
  - effect_cases op He; try done; rewrite ?E in *; intros; try done; lia.
  - effect_cases op He; intros; try done; lia.
Qed.

Lemma job_effect_inv op j j' :
  job_inv j → Job_Validate (Some j') = Ok tt → job_effect op j j' → job_inv j'.
Proof.
  intros Hi Hv He. destruct (job_effect_revision op j j' Hi Hv He) as [_ Hr].
  destruct (job_effect_attempts op j j' Hi He) as [Hc Hst].
  split; [done|done|by apply (job_effect_maximum op j j')| |done| |].
  - apply (job_effect_result op j j' He). destruct (decide (j_Result j = "")) as [|E]; [done|].
    apply (ji_result j Hi) in E. by destruct (job_effect_not_succeeded op j j' He).
  - intros Hh. pose proof (ji_holding j Hi) as Hp. apply ji_valid, Job_Validate_spec in Hi as [_ Hi].
    pose proof (jv_attempts _ Hi). rewrite Hc. rewrite job_holding_spec in *. clear -He Hh Hp H.
    effect_cases op He; rewrite ?job_holding_spec in *; cbn in *; naive_solver lia.
  - intros Hq. left. by apply (job_effect_queued op j j').
Qed.

Lemma job_step_ok op j j' : job_inv j → job_step op j j' → job_inv j' ∧ job_evolves j j'.
Proof.
  intros Hi [Hv He]%job_step_effect. split; [by eapply job_effect_inv|by eapply job_effect_evolves].
Qed.

Lemma job_run_ok ops j j' : job_run ops j j' → job_inv j → job_inv j' ∧ job_evolves j j'.
Proof.
  induction 1 as [|op ops j j1 j2 Hs Hr IH]; intros Hi; [split; [done|apply job_evolves_refl]|].
  destruct (job_step_ok op j j1 Hi Hs) as [Hi1 He]. destruct (IH Hi1) as [Hi2 He'].
  split; [done|by eapply job_evolves_trans].
Qed.

Lemma job_initial_inv j : job_initial j → job_inv j.
Proof.
  intros (id & ty & cmd & key & pol & c & a & n & Hn & H).
  unfold NewJobWithDedupePolicy in H. inv_run H. unfold in_int64 in Hn.
  split; cbn; try done; try lia; try (by right).
Qed.

(** A Job created by [NewJob] and changed by any accepted operations stays valid,
    holds a result exactly when it succeeded and a start stamp exactly when an
    attempt was made.  Its identity, type, command, deduplication key and creation
    never change, each accepted operation moves the revision by one without
    wrapping, so a revision identifies a state, the update stamp never moves
    backwards, the first start is kept, and a succeeded Job never changes again. *)
Theorem job_history ops ops' j0 j j' :
  job_initial j0 → job_run ops j0 j → job_run ops' j j' → job_inv j' ∧ job_evolves j j'.
Proof.
  intros H0%job_initial_inv H1 H2. destruct (job_run_ok ops j0 j H1 H0) as [Hi _].
  by apply (job_run_ok ops').
Qed.

(** ** Bounded executions *)

Definition count_ops (f : JobOp → bool) (ops : list JobOp) : Z :=
  foldr (λ op n, (if f op then 1 else 0) + n) 0 ops.
Definition is_start (op : JobOp) : bool := if op is JStart _ then true else false.
(** The operations that grant one more claim. *)
Definition is_grant (op : JobOp) : bool :=
  match op with JRelinquish _ _ _ | JExplicitRetry _ => true | _ => false end.

Lemma count_ops_cons f op ops :
  count_ops f (op :: ops) = (if f op then 1 else 0) + count_ops f ops.
Proof. done. Qed.

Lemma job_effect_budget op j j' :
  job_inv j → job_effect op j j' →
  (if is_start op then 1 else 0) + (j_MaximumAttempts j' - j_AttemptCount j') ≤
    j_MaximumAttempts j - j_AttemptCount j + (if is_grant op then 1 else 0).
Proof.
  intros Hi He. destruct (job_effect_attempts op j j' Hi He) as [Hc _].
  pose proof (ji_maximum j Hi). apply ji_valid, Job_Validate_spec in Hi as [_ Hi].
  pose proof (jv_attempts _ Hi). pose proof (jv_maximum _ Hi). revert Hc.
  effect_cases op He; intros; try lia.
  - rewrite int64_succ_lt by (done || (unfold in_int64, int64_min; lia)). lia.
  - destruct (decide (j_AttemptCount j = int64_max)) as [E|E].
    + rewrite E, int64_succ_max. unfold int64_min, int64_max in *. lia.
    + rewrite int64_succ_lt by (done || (unfold in_int64, int64_min; lia)). lia.
  - destruct (decide (j_AttemptCount j = int64_max)) as [E|E].
    + rewrite E, int64_succ_max. unfold int64_min, int64_max in *. lia.
    + rewrite int64_succ_lt by (done || (unfold in_int64, int64_min; lia)). lia.
Qed.

Lemma job_run_budget ops j j' :
  job_run ops j j' → job_inv j →
  j_AttemptCount j' = j_AttemptCount j + count_ops is_start ops ∧
  count_ops is_start ops + (j_MaximumAttempts j' - j_AttemptCount j') ≤
    j_MaximumAttempts j - j_AttemptCount j + count_ops is_grant ops.
Proof.
  induction 1 as [|op ops j j1 j2 Hs Hr IH]; intros Hi; [cbn; lia|].
  destruct (job_step_ok op j j1 Hi Hs) as [Hi1 _]. destruct (IH Hi1) as [IH1 IH2].
  apply job_step_effect in Hs as [_ He]. destruct (job_effect_attempts op j j1 Hi He) as [Hc _].
  pose proof (job_effect_budget op j j1 Hi He) as Hb.
  assert (Hst : (if op is JStart _ then 1 else 0) = if is_start op then 1 else 0) by (by destruct op).
  rewrite !count_ops_cons. lia.
Qed.

(** C11. A Job runs a bounded number of times: its attempt count is the number of
    accepted starts, and over any accepted operations these never exceed the claims
    it had left plus one per relinquished claim and one per explicit retry. *)
Theorem job_executions_bounded ops j0 j :
  job_initial j0 → job_run ops j0 j →
  j_AttemptCount j = count_ops is_start ops ∧
  count_ops is_start ops ≤ j_MaximumAttempts j0 + count_ops is_grant ops.
Proof.
  intros H0 Hr. destruct (job_run_budget ops j0 j Hr (job_initial_inv j0 H0)) as [Hc Hb].
  destruct (job_run_ok ops j0 j Hr (job_initial_inv j0 H0)) as [Hi _].
  apply ji_valid, Job_Validate_spec in Hi as [_ Hi]. pose proof (jv_attempts _ Hi).
  destruct H0 as (id & ty & cmd & key & pol & c & a & n & Hn & H0).
  unfold NewJobWithDedupePolicy in H0. inv_run H0. cbn in *. lia.
Qed.

(** ** Cancellation *)

Definition is_explicit (op : JobOp) : bool := if op is JExplicitRetry _ then true else false.

(** Not to be executed again. *)
Definition job_halted (s : JobStatus) : Prop := s ≠ JobStatusQueued ∧ s ≠ JobStatusRunning.

Lemma job_effect_halted op j j' :
  job_effect op j j' → is_explicit op = false → job_halted (j_Status j) →
  job_halted (j_Status j') ∧ is_start op = false.
Proof.
  unfold job_halted. intros He Hx [H1 H2]. effect_cases op He; done.
Qed.

Lemma job_run_halted ops j j' :
  job_run ops j j' → count_ops is_explicit ops = 0 → job_halted (j_Status j) →
  job_halted (j_Status j') ∧ count_ops is_start ops = 0.
Proof.
  assert (Hpos : ∀ f ops, 0 ≤ count_ops f ops).
  { intros f. induction ops0 as [|op ops0 IH]; [done|]. rewrite count_ops_cons.
    destruct (f op); lia. }
  induction 1 as [|op ops j j1 j2 Hs Hr IH]; [done|]. rewrite !count_ops_cons. intros Hx Hh.
  pose proof (Hpos is_explicit ops). apply job_step_effect in Hs as [_ He].
  destruct (is_explicit op) eqn:Ex; [lia|].
  destruct (job_effect_halted op j j1 He Ex Hh) as [Hh1 ->]. by apply IH.
Qed.

Lemma job_revision_succ j :
  job_inv j → j_Revision j < int64_max → 0 < int64_succ (j_Revision j).
Proof.
  intros Hi Hr. apply ji_valid, Job_Validate_spec in Hi as [_ Hi]. pose proof (jv_revision _ Hi).
  rewrite int64_succ_lt; unfold in_int64, int64_min in *; lia.
Qed.

Lemma cancel_code_valid : validPublicJobCode (TrimSpace "job.canceled") = true.
Proof. vm_compute. reflexivity. Qed.

Lemma request_cancellation_ok j t :
  job_inv j → j_Status j = JobStatusQueued ∨ j_Status j = JobStatusRunning →
  t_ns (j_UpdatedAt j) ≤ t_ns (TimeUTC t) → j_Revision j < int64_max →
  ∃ j1, job_step (JRequestCancellation t) j j1.
Proof.
  intros Hi Hs Ht Hr. pose proof (job_revision_succ j Hi Hr) as Hrev.
  pose proof (ji_holding j Hi) as Hh.
  apply ji_valid, Job_Validate_spec in Hi as [Hp [? ? ? ? ? ? ? ? ? ? ? ?]].
  unfold job_step, run_job_op, Job_RequestCancellation. rewrite <-Time_Before_false in Ht.
  rewrite Ht, orb_false_r. destruct Hs as [E|E]; rewrite E; cbn -[Job_Cancel].
  - eexists. apply checked_inv. rewrite E, Ht. split; [done|]. split; [done|].
    apply Job_Validate_spec. rewrite Time_Before_false in Ht. split; [done|].
    split; cbn -[validPublicJobCode TrimSpace]; first [apply cancel_code_valid|done|lia].
  - eexists. unfold checked_job. f_equal. apply Job_Validate_spec. rewrite Time_Before_false in Ht.
    split; [done|]. rewrite E in *. split; cbn; try done. lia.
Qed.

(** Cancellation can always be requested of a queued or running Job, at any
    instant not before its last update (until the revision counter is exhausted),
    and it is honoured: whatever is then accepted short of an explicit retry, the
    Job is never queued, running or started again. *)
Theorem job_cancellation_honoured ops j0 j t :
  job_initial j0 → job_run ops j0 j →
  j_Status j = JobStatusQueued ∨ j_Status j = JobStatusRunning →
  t_ns (j_UpdatedAt j) ≤ t_ns (TimeUTC t) → j_Revision j < int64_max →
  ∃ j1, run_job_op (JRequestCancellation t) (Some j) = (Some j1, Ok tt) ∧
    ∀ ops' j', job_run ops' j1 j' → count_ops is_explicit ops' = 0 →
      job_halted (j_Status j') ∧ count_ops is_start ops' = 0.
Proof.
  intros H0%job_initial_inv Hr Hs Ht Hrev. destruct (job_run_ok ops j0 j Hr H0) as [Hi _].
  destruct (request_cancellation_ok j t Hi Hs Ht Hrev) as [j1 H1]. exists j1. split; [done|].
  intros ops' j' H2 Hx. apply (job_run_halted ops' j1 j' H2 Hx).
  apply job_step_effect in H1 as [_ [_ [[_ ->]|[_ ->]]]]; done.
Qed.

(** ** Leases of Job Attempts *)

Inductive JobAttemptOp :=
  | JAHeartbeat (at_ leaseExpiresAt : Time)
  | JAComplete (status : JobAttemptStatus) (code : string) (at_ : Time).
Definition run_attempt_op (op : JobAttemptOp) (p : option JobAttempt) : returned JobAttempt :=
  match op with
  | JAHeartbeat t e => JobAttempt_Heartbeat p t e
  | JAComplete s c t => JobAttempt_Complete p s c t
  end.
Definition job_attempt_step (a a' : JobAttempt) : Prop :=
  ∃ op, run_attempt_op op (Some a) = (Some a', Ok tt).
Definition job_attempt_initial (a : JobAttempt) : Prop :=
  ∃ id job n node token s e, NewJobAttempt id job n node token s e = Ok a.

Record job_attempt_evolves (a a' : JobAttempt) : Prop := {
  jae_identity : (ja_ID a', ja_JobID a', ja_Number a', ja_NodeID a', ja_ClaimToken a',
                  ja_StartedAt a') =
                 (ja_ID a, ja_JobID a, ja_Number a, ja_NodeID a, ja_ClaimToken a, ja_StartedAt a);
  jae_heartbeat : t_ns (ja_HeartbeatAt a) ≤ t_ns (ja_HeartbeatAt a');
  jae_final : ja_Status a ≠ JobAttemptStatusRunning → a' = a }.

Lemma checked_attempt_inv (c : bool) e r a :
  (if c then refused e else checked_attempt r) = (Some a, Ok tt) ↔
  c = false ∧ a = r ∧ JobAttempt_Validate (Some r) = Ok tt.
Proof.
  unfold refused, checked_attempt. destruct c; split; try done; [by intros (? & _)| |].
  - by intros [= <- ->].
  - by intros (_ & -> & ->).
Qed.

Lemma job_attempt_step_ok a a' :
  job_attempt_step a a' → JobAttempt_Validate (Some a') = Ok tt ∧ job_attempt_evolves a a'.
Proof.
  intros [[t e|s c t] H]; apply checked_attempt_inv in H as (Hg & -> & Hv); to_prop; destruct_and!;
    (split; [done|]); split; cbn; done.
Qed.

Lemma job_attempt_run_ok a a' :
  rtc job_attempt_step a a' → JobAttempt_Validate (Some a) = Ok tt →
  JobAttempt_Validate (Some a') = Ok tt ∧ job_attempt_evolves a a'.
Proof.
  induction 1 as [|a a1 a2 Hs Hr IH]; intros Hv; [by split|].
  destruct (job_attempt_step_ok a a1 Hs) as [Hv1 [I1 B1 F1]]. destruct (IH Hv1) as [Hv2 [I2 B2 F2]].
  split; [done|]. split; [congruence|lia|]. intros Hn. by rewrite (F1 Hn) in *; apply F2.
Qed.

(** A Job Attempt keeps its Job, number, node and claim token, its heartbeat
    never moves backwards and always lies between its start and its lease expiry,
    and once completed (with its stamp) it never changes again. *)
Theorem job_attempt_history a0 a a' :
  job_attempt_initial a0 → rtc job_attempt_step a0 a → rtc job_attempt_step a a' →
  job_attempt_evolves a a' ∧
  t_ns (ja_StartedAt a') ≤ t_ns (ja_HeartbeatAt a') < t_ns (ja_LeaseExpiresAt a') ∧
  (ot_Valid (ja_CompletedAt a') = true ↔ ja_Status a' ≠ JobAttemptStatusRunning).
Proof.
  intros (id & job & n & node & token & s & e & H) H1 H2. unfold NewJobAttempt in H. inv_run H.
  destruct (job_attempt_run_ok _ a H1) as [Hv _]; [done|].
  destruct (job_attempt_run_ok a a' H2 Hv) as [Hv' He]. split; [done|]. unfold JobAttempt_Validate in Hv'.
  rewrite !ok_fail_if in Hv'. destruct Hv' as (Hg & Hl & _). to_prop. destruct_and!.
  split; [lia|]. rewrite eqb_false_iff in Hl.
  destruct (ot_Valid _), (decide (ja_Status a' = JobAttemptStatusRunning)) as [E|E];
    [rewrite bool_decide_true in Hl by done|rewrite bool_decide_false in Hl by done|
     rewrite bool_decide_true in Hl by done|rewrite bool_decide_false in Hl by done]; done.
Qed.

(** ** Samples *)

Definition no_job : Job :=
  mkJob "" "" JobStatusQueued zeroTime zeroTime zeroTime noTime noTime "" "" "" "" "" JobDedupeActive
    0 0 0 None 0.
Definition sample_job : Job :=
  ok_or no_job (NewJob sample_id "mail.deliver" "{}" "key" (at_second 100) (at_second 100) 2).
Definition step_of (op : JobOp) (j : Job) : Job := default no_job (fst (run_job_op op (Some j))).
Definition sample_start : JobOp := JStart (at_second 101).
Definition sample_retry : JobOp := JRetry "mail.unreachable" (at_second 130) (at_second 102).
Definition sample_running : Job := step_of sample_start sample_job.
Definition sample_retried : Job := step_of sample_retry sample_running.

Lemma sample_job_initial : job_initial sample_job.
Proof.
  exists sample_id, "mail.deliver", "{}", "key", JobDedupeActive, (at_second 100), (at_second 100), 2.
  split; [done|]. vm_compute. reflexivity.
Qed.
Lemma sample_running_run : job_run [sample_start] sample_job sample_running.
Proof. eapply job_run_cons; [|constructor]. vm_compute. reflexivity. Qed.
Lemma sample_retried_run : job_run [sample_retry] sample_running sample_retried.
Proof. eapply job_run_cons; [|constructor]. vm_compute. reflexivity. Qed.

Lemma job_history_witness : job_inv sample_retried ∧ job_evolves sample_running sample_retried.
Proof.
  exact (job_history _ _ _ _ _ sample_job_initial sample_running_run sample_retried_run).
Defined.

Lemma job_executions_bounded_witness :
  j_AttemptCount sample_running = 1 ∧ 1 ≤ j_MaximumAttempts sample_job + 0.
Proof.
  exact (job_executions_bounded [sample_start] _ _ sample_job_initial sample_running_run).
Defined.

Lemma job_cancellation_honoured_witness :
  ∃ j1, run_job_op (JRequestCancellation (at_second 150)) (Some sample_running) = (Some j1, Ok tt) ∧
    ∀ ops' j', job_run ops' j1 j' → count_ops is_explicit ops' = 0 →
      job_halted (j_Status j') ∧ count_ops is_start ops' = 0.
Proof.
  apply (job_cancellation_honoured [sample_start] sample_job).
  - apply sample_job_initial.
  - apply sample_running_run.
  - right. vm_compute. reflexivity.
  - vm_compute. intros [=].
  - vm_compute. reflexivity.
Defined.

Definition sample_token : string := NewJobClaimToken (replicate 32 171).
Definition sample_job_attempt : JobAttempt :=
  ok_or (mkJobAttempt "" "" 0 JobAttemptStatusRunning "" "" zeroTime zeroTime zeroTime noTime "")
    (NewJobAttempt sample_id sample_id 1 "node-a" sample_token (at_second 101) (at_second 131)).
Definition sample_completed : JobAttempt :=
  default sample_job_attempt
    (fst (JobAttempt_Complete (Some sample_job_attempt) JobAttemptStatusSucceeded "" (at_second 110))).

Lemma job_attempt_history_witness :
  ot_Valid (ja_CompletedAt sample_completed) = true ∧
  job_attempt_evolves sample_job_attempt sample_completed.
Proof.
  destruct (job_attempt_history sample_job_attempt sample_job_attempt sample_completed)
    as (He & _ & Hc).
  - exists sample_id, sample_id, 1, "node-a", sample_token, (at_second 101), (at_second 131).
    vm_compute. reflexivity.
  - apply rtc_refl.
  - apply rtc_once. exists (JAComplete JobAttemptStatusSucceeded "" (at_second 110)).
    vm_compute. reflexivity.
  - split; [apply Hc; vm_compute; intros [=]|done].
Defined.
