(* ===== verification/MemoryCache.v ===== *)
(** * The in-process cache

    Models [packages/cache] (keys, options, TTL rounding) and the bounded in-memory
    store of [packages/cache/memory/memory.go]: a least-recently-used store of
    encoded values and, in a budget of its own, atomic counters that are never
    evicted.  Each exported operation runs under one mutex, so operations are
    functions on the store's state, one after the other.

    Bytes retained at once lie in memory, so their total does not overflow and is an
    unbounded integer here; counter values are 64-bit.  The recency list holds keys,
    most recent first.  The expiry heap is kept by what [container/heap] documents of
    it, that its first element is a least one: a list ordered by deadline. *)

From stdpp Require Import gmap.
From S2P Require Import Prelude GoTime GoStrings.

(** ** Errors, keys and options *)

Inductive cache_cause :=
  | ErrNotFound
  | ErrNotStored
  | ErrInvalidKey (detail : string)
  | ErrInvalidTTL
  | ErrInvalidValue (detail : string)
  | ErrCapacity (detail : string)
  | ErrUnsupported
  | ErrUnknownCondition (condition : Z)
  | ErrContext (detail : string)
  | ErrCodec (detail : string).
Record OpError := mkOpError { oe_Op : string; oe_Key : string; oe_Err : cache_cause }.

Inductive outcome (A : Type) :=
  | Done (a : A)
  | Failed (e : OpError).
Arguments Done {_} _.
Arguments Failed {_} _.

Definition MaximumKeyBytes : Z := 1024.

(** [ValidateKey]: the refusal, if any. *)
Definition ValidateKey (key : string) : option cache_cause :=
  if key ==? "" then Some (ErrInvalidKey "key must not be empty")
  else if MaximumKeyBytes <? len key then Some (ErrInvalidKey "key exceeds 1024 bytes")
  else if negb (ValidString key) then Some (ErrInvalidKey "key is not valid UTF-8")
  else if existsb (λ '(r, _, _), IsControl r) (runes key)
  then Some (ErrInvalidKey "key contains a control character")
  else None.

(** [Condition] is a [uint8]: 0, 1 and 2 are [SetAlways], [SetIfAbsent] and
    [SetIfPresent]. *)
Definition SetAlways : Z := 0.
Definition SetIfAbsent : Z := 1.
Definition SetIfPresent : Z := 2.

Record SetOptions := mkSetOptions { so_TTL : Z; so_Condition : Z }.
Record CounterOptions := mkCounterOptions { co_TTL : Z }.

Definition SetOptions_Validate (o : SetOptions) : option cache_cause :=
  if so_TTL o <? 0 then Some ErrInvalidTTL
  else if (so_Condition o =? SetAlways) || (so_Condition o =? SetIfAbsent)
          || (so_Condition o =? SetIfPresent) then None
  else Some (ErrUnknownCondition (so_Condition o)).

Definition CounterOptions_Validate (o : CounterOptions) : option cache_cause :=
  if co_TTL o <? 0 then Some ErrInvalidTTL else None.

(** The rounded TTL, or the refusal. *)
Definition NormalizedTTL (ttl : Z) : Z + cache_cause :=
  if ttl <? 0 then inr ErrInvalidTTL
  else if ttl =? 0 then inl 0
  else
    let remainder := Z.rem ttl Millisecond in
    if negb (remainder =? 0) then
      let increment := Millisecond - remainder in
      if int64_sub int64_max increment <? ttl then inr ErrInvalidTTL
      else inl (int64_add ttl increment)
    else inl ttl.

(** ** State *)

Record entry := mkEntry { en_data : string; en_expiresAt : Time; en_counter : bool }.

Definition entry_expired (expiresAt now : Time) : bool :=
  negb (Time_IsZero expiresAt) && negb (Time_Before now expiresAt).

Record Config := mkConfig { cf_MaxEntries : Z; cf_MaxBytes : Z; cf_MaxCounters : Z }.

Definition DefaultConfig : Config := mkConfig 100000 (Z.shiftl 64 20) 100000.

(** [Config.validate]: the refusal, if any. *)
Definition Config_validate (c : Config) : option string :=
  if cf_MaxEntries c <? 1 then Some "memory cache: max entries must be greater than zero"
  else if cf_MaxBytes c <? 1 then Some "memory cache: max bytes must be greater than zero"
  else if cf_MaxCounters c <? 0 then Some "memory cache: max counters must not be negative"
  else None.

Record Store := mkStore {
  st_values : gmap string entry;
  st_recency : list string;
  st_retainedBytes : Z;
  st_counters : Z;
  st_expiries : list (string * Time) }.
#[global] Instance Store_eta : Eta Store := λ s,
  mkStore (st_values s) (st_recency s) (st_retainedBytes s) (st_counters s) (st_expiries s).

(** The state [New] returns, and [Purge] restores. *)
Definition emptyStore : Store := mkStore ∅ [] 0 0 [].

(** [len(s.values) - s.counters]. *)
Definition value_count (s : Store) : Z := Z.of_nat (size (st_values s)) - st_counters s.

(** [heap.Push]: before the first later deadline. *)
Fixpoint push_expiry (key : string) (t : Time) (h : list (string * Time)) : list (string * Time) :=
  match h with
  | [] => [(key, t)]
  | (k, u) :: h' => if Time_Before t u then (key, t) :: h else (k, u) :: push_expiry key t h'
  end.

Definition remove_key (key : string) (l : list string) : list string := filter (λ k, k ≠ key) l.
Definition remove_expiry (key : string) (h : list (string * Time)) : list (string * Time) :=
  filter (λ p, p.1 ≠ key) h.
#[global] Arguments remove_key : simpl never.
#[global] Arguments remove_expiry : simpl never.
Definition MoveToFront (key : string) (l : list string) : list string := key :: remove_key key l.

Definition removeLocked (key : string) (e : entry) (s : Store) : Store :=
  let s := s <| st_values := delete key (st_values s) |> in
  if en_counter e then
    s <| st_counters := st_counters s - 1 |> <| st_expiries := remove_expiry key (st_expiries s) |>
  else
    s <| st_recency := remove_key key (st_recency s) |>
      <| st_retainedBytes := st_retainedBytes s - (len key + len (en_data e)) |>.

(** Remove the entry a key names, under a condition on it. *)
Definition remove_if (c : entry → bool) (key : string) (s : Store) : Store :=
  match st_values s !! key with
  | Some e => if c e then removeLocked key e s else s
  | None => s
  end.

Definition over_limit (cf : Config) (s : Store) : bool :=
  negb ((value_count s <=? cf_MaxEntries cf) && (st_retainedBytes s <=? cf_MaxBytes cf)).

(** The second loop of [evictLocked], from the back of the recency list. *)
Fixpoint evict_oldest (fuel : nat) (cf : Config) (s : Store) : Store :=
  match fuel with
  | O => s
  | S fuel' =>
      if over_limit cf s then
        match last (st_recency s) with
        | None => s
        | Some key => evict_oldest fuel' cf (remove_if (λ _, true) key s)
        end
      else s
  end.

(** [evictLocked], with the instant it reads. *)
Definition evictLocked (cf : Config) (now : Time) (s : Store) : Store :=
  if negb (over_limit cf s) then s
  else
    let s := foldr (remove_if (λ e, entry_expired (en_expiresAt e) now)) s (st_recency s) in
    evict_oldest (length (st_recency s)) cf s.

Fixpoint expire_counters (fuel : nat) (now : Time) (s : Store) : Store :=
  match fuel with
  | O => s
  | S fuel' =>
      match st_expiries s with
      | (key, t) :: _ =>
          if entry_expired t now then expire_counters fuel' now (remove_if (λ _, true) key s) else s
      | [] => s
      end
  end.
Definition expireCountersLocked (now : Time) (s : Store) : Store :=
  expire_counters (length (st_expiries s)) now s.

(** ** Operations *)

(** [cache.Codec]: what the store is constructed with. *)
Record Codec (V : Type) := mkCodec {
  Encode : V → string + string;
  Decode : string → V + string }.
Arguments Encode {_} _ _.
Arguments Decode {_} _ _.

(** [New]: the codec, the configuration and the empty state of the store. *)
Definition New {V} (codec : option (Codec V)) (configurations : list Config)
    : (Codec V * Config * Store) + string :=
  match codec with
  | None => inr "memory cache: codec must not be nil"
  | Some codec =>
      match configurations with
      | _ :: _ :: _ => inr "memory cache: at most one configuration is allowed"
      | _ =>
          let configuration := default DefaultConfig (head configurations) in
          match Config_validate configuration with
          | Some err => inr err
          | None => inl (codec, configuration, emptyStore)
          end
      end
  end.

(** [Capabilities]: TTL, conditional set, atomic counter, purge. *)
Definition Capabilities (cf : Config) : bool * bool * bool * bool :=
  (true, true, 0 <? cf_MaxCounters cf, true).

Section operations.
Context {V : Type} (codec : Codec V) (cf : Config).

(** [ctx] is the error of the context, if it is done. *)
Definition Get (ctx : option string) (now : Time) (key : string) (s : Store) : Store * outcome V :=
  match ctx with
  | Some err => (s, Failed (mkOpError "get" key (ErrContext err)))
  | None =>
  match ValidateKey key with
  | Some err => (s, Failed (mkOpError "get" key err))
  | None =>
      let s := remove_if (λ e, entry_expired (en_expiresAt e) now) key s in
      match st_values s !! key with
      | None => (s, Failed (mkOpError "get" key ErrNotFound))
      | Some item =>
          let s := if negb (en_counter item)
                   then s <| st_recency := MoveToFront key (st_recency s) |> else s in
          match Decode codec (en_data item) with
          | inr err => (s, Failed (mkOpError "get" key (ErrCodec err)))
          | inl value => (s, Done value)
          end
      end
  end end.

(** The write of [Set], once nothing refuses it: [found] is the live entry. *)
Definition set_write (now' : Time) (key data : string) (expiresAt : Time) (found : option entry)
    (s : Store) : Store :=
  let '(s, found) := match found with
                     | Some e => if en_counter e then (removeLocked key e s, None) else (s, Some e)
                     | None => (s, None)
                     end in
  let s := match found with
           | Some current =>
               s <| st_retainedBytes :=
                      st_retainedBytes s - len (en_data current) + len data |>
                 <| st_values := <[key := mkEntry data expiresAt false]> (st_values s) |>
                 <| st_recency := MoveToFront key (st_recency s) |>
           | None =>
               s <| st_recency := key :: st_recency s |>
                 <| st_values := <[key := mkEntry data expiresAt false]> (st_values s) |>
                 <| st_retainedBytes := st_retainedBytes s + (len key + len data) |>
           end in
  evictLocked cf now' s.

(** [now] is read before the lock, [now'] by the eviction. *)
Definition Set_ (ctx : option string) (now now' : Time) (key : string) (value : V)
    (options : SetOptions) (s : Store) : Store * outcome unit :=
  match ctx with
  | Some err => (s, Failed (mkOpError "set" key (ErrContext err)))
  | None =>
  match ValidateKey key with
  | Some err => (s, Failed (mkOpError "set" key err))
  | None =>
  match SetOptions_Validate options with
  | Some err => (s, Failed (mkOpError "set" key err))
  | None =>
  match NormalizedTTL (so_TTL options) with
  | inr err => (s, Failed (mkOpError "set" key err))
  | inl ttl =>
  match Encode codec value with
  | inr err => (s, Failed (mkOpError "set" key (ErrCodec err)))
  | inl data =>
      let s := remove_if (λ e, entry_expired (en_expiresAt e) now) key s in
      let found := st_values s !! key in
      if (so_Condition options =? SetIfAbsent) && bool_decide (is_Some found)
      then (s, Failed (mkOpError "set" key ErrNotStored))
      else if (so_Condition options =? SetIfPresent) && negb (bool_decide (is_Some found))
      then (s, Failed (mkOpError "set" key ErrNotStored))
      else
        let expiresAt := if 0 <? ttl then Time_Add now ttl else zeroTime in
        if cf_MaxBytes cf <? len key + len data
        then (s, Failed (mkOpError "set" key
                   (ErrInvalidValue "encoded entry exceeds memory cache byte limit")))
        else (set_write now' key data expiresAt found s, Done tt)
  end end end end end.

Definition Delete (ctx : option string) (key : string) (s : Store) : Store * outcome unit :=
  match ctx with
  | Some err => (s, Failed (mkOpError "delete" key (ErrContext err)))
  | None =>
  match ValidateKey key with
  | Some err => (s, Failed (mkOpError "delete" key err))
  | None => (remove_if (λ _, true) key s, Done tt)
  end end.

(** The last part of [Add]: store the new total. *)
Definition add_write (key : string) (current : Z) (expiresAt : Time) (found : option entry)
    (s : Store) : Store :=
  let data := FormatInt current in
  let '(s, found) := match found with
                     | Some e => if negb (en_counter e) then (removeLocked key e s, None)
                                 else (s, Some e)
                     | None => (s, None)
                     end in
  match found with
  | Some item =>
      if negb (Time_Equal (en_expiresAt item) expiresAt)
      then s <| st_values := <[key := mkEntry data expiresAt true]> (st_values s) |>
             <| st_expiries := push_expiry key expiresAt (st_expiries s) |>
      else s <| st_values := <[key := mkEntry data (en_expiresAt item) true]> (st_values s) |>
  | None =>
      let s := s <| st_values := <[key := mkEntry data expiresAt true]> (st_values s) |>
                 <| st_counters := st_counters s + 1 |> in
      if negb (Time_IsZero expiresAt)
      then s <| st_expiries := push_expiry key expiresAt (st_expiries s) |> else s
  end.

Definition Add (ctx : option string) (now : Time) (key : string) (delta : Z)
    (options : CounterOptions) (s : Store) : Store * outcome Z :=
  match ctx with
  | Some err => (s, Failed (mkOpError "add" key (ErrContext err)))
  | None =>
  if cf_MaxCounters cf =? 0 then (s, Failed (mkOpError "add" key ErrUnsupported)) else
  match ValidateKey key with
  | Some err => (s, Failed (mkOpError "add" key err))
  | None =>
  match CounterOptions_Validate options with
  | Some err => (s, Failed (mkOpError "add" key err))
  | None =>
  match NormalizedTTL (co_TTL options) with
  | inr err => (s, Failed (mkOpError "add" key err))
  | inl ttl =>
      let s := remove_if (λ e, entry_expired (en_expiresAt e) now) key s in
      let found := st_values s !! key in
      match match found with Some item => ParseInt (en_data item) | None => Some 0 end with
      | None => (s, Failed (mkOpError "add" key (ErrInvalidValue "counter is not an integer")))
      | Some current =>
          if ((0 <? delta) && (int64_sub int64_max delta <? current))
             || ((delta <? 0) && (current <? int64_sub int64_min delta))
          then (s, Failed (mkOpError "add" key (ErrInvalidValue "integer overflow")))
          else
            let current := int64_add current delta in
            let expiresAt :=
              match found with
              | Some item => if negb (Time_IsZero (en_expiresAt item)) then en_expiresAt item
                             else if 0 <? ttl then Time_Add now ttl else zeroTime
              | None => if 0 <? ttl then Time_Add now ttl else zeroTime
              end in
            let is_new := match found with Some item => negb (en_counter item) | None => true end in
            let s := if is_new then expireCountersLocked now s else s in
            if is_new && (cf_MaxCounters cf <=? st_counters s)
            then (s, Failed (mkOpError "add" key
                       (ErrCapacity "every counter slot holds a live counter")))
            else (add_write key current expiresAt found s, Done current)
      end
  end end end end.

Definition Purge (ctx : option string) (s : Store) : Store * outcome unit :=
  match ctx with
  | Some err => (s, Failed (mkOpError "purge" "" (ErrContext err)))
  | None => (emptyStore, Done tt)
  end.

(** *** Sequences of operations *)

Inductive CacheOp :=
  | OpGet (ctx : option string) (key : string)
  | OpSet (ctx : option string) (key : string) (value : V) (options : SetOptions)
  | OpDelete (ctx : option string) (key : string)
  | OpAdd (ctx : option string) (key : string) (delta : Z) (options : CounterOptions)
  | OpPurge (ctx : option string).

(** What an operation returned. *)
Inductive CacheReply :=
  | ReplyGet (r : outcome V)
  | ReplyUnit (r : outcome unit)
  | ReplyAdd (r : outcome Z).

(** An operation at the instants it reads, in the order it reads them. *)
Definition run_cache_op (op : CacheOp) (now now' : Time) (s : Store) : Store * CacheReply :=
  match op with
  | OpGet ctx key => let '(s, r) := Get ctx now key s in (s, ReplyGet r)
  | OpSet ctx key v o => let '(s, r) := Set_ ctx now now' key v o s in (s, ReplyUnit r)
  | OpDelete ctx key => let '(s, r) := Delete ctx key s in (s, ReplyUnit r)
  | OpAdd ctx key d o => let '(s, r) := Add ctx now key d o s in (s, ReplyAdd r)
  | OpPurge ctx => let '(s, r) := Purge ctx s in (s, ReplyUnit r)
  end.

(** A history: each operation with the instants it reads. *)
Fixpoint run_cache (h : list (CacheOp * Time * Time)) (s : Store) : Store * list CacheReply :=
  match h with
  | [] => (s, [])
  | (op, now, now') :: h' =>
      let '(s1, r) := run_cache_op op now now' s in
      let '(s2, rs) := run_cache h' s1 in (s2, r :: rs)
  end.
End operations.

(** ** Invariant *)

Definition counter_entries (m : gmap string entry) : gmap string entry :=
  filter (λ p, en_counter p.2 = true) m.

(** Bytes of a key and its value; of a list of keys. *)
Definition weight (m : gmap string entry) (key : string) : Z :=
  match m !! key with Some e => len key + len (en_data e) | None => 0 end.
Definition weights (m : gmap string entry) (l : list string) : Z :=
  foldr (λ k n, weight m k + n) 0 l.

Definition is_value (m : gmap string entry) (key : string) : Prop :=
  ∃ e, m !! key = Some e ∧ en_counter e = false.

(** A deadline a counter entry waits for. *)
Definition expiring (m : gmap string entry) (p : string * Time) : Prop :=
  ∃ e, m !! p.1 = Some e ∧ en_counter e = true ∧ en_expiresAt e = p.2 ∧ t_ns p.2 ≠ 0.

Definition earlier (p q : string * Time) : Prop := t_ns p.2 ≤ t_ns q.2.

(** How the parts of the store agree. *)
Record store_inv (s : Store) : Prop := {
  si_recency_nodup : NoDup (st_recency s);
  si_recency : ∀ k, k ∈ st_recency s ↔ is_value (st_values s) k;
  si_bytes : st_retainedBytes s = weights (st_values s) (st_recency s);
  si_counters : st_counters s = Z.of_nat (size (counter_entries (st_values s)));
  si_count : size (st_values s) =
    (length (st_recency s) + size (counter_entries (st_values s)))%nat;
  si_expiries_nodup : NoDup (st_expiries s).*1;
  si_expiries_sorted : StronglySorted earlier (st_expiries s);
  si_expiries : ∀ p, p ∈ st_expiries s ↔ expiring (st_values s) p;
  si_numeric : ∀ k e, st_values s !! k = Some e → en_counter e = true →
    ∃ n, in_int64 n ∧ en_data e = FormatInt n }.

Lemma elem_remove_key k k' l : k' ∈ remove_key k l ↔ k' ≠ k ∧ k' ∈ l.
Proof. unfold remove_key. by rewrite list_elem_of_filter. Qed.
Lemma elem_remove_expiry k p h : p ∈ remove_expiry k h ↔ p.1 ≠ k ∧ p ∈ h.
Proof. unfold remove_expiry. by rewrite list_elem_of_filter. Qed.

Lemma remove_key_notin k l : k ∉ l → remove_key k l = l.
Proof.
  unfold remove_key. induction l as [|x l IH]; intros Hn; [done|].
  apply not_elem_of_cons in Hn as [Hx Hn]. rewrite filter_cons_True by done. f_equal. by apply IH.
Qed.

Lemma remove_expiry_notin k h : k ∉ h.*1 → remove_expiry k h = h.
Proof.
  unfold remove_expiry. induction h as [|x h IH]; intros Hn; [done|]. cbn in Hn.
  apply not_elem_of_cons in Hn as [Hx Hn]. rewrite filter_cons_True by done. f_equal. by apply IH.
Qed.

Lemma length_remove_key k l : NoDup l → k ∈ l → S (length (remove_key k l)) = length l.
Proof.
  unfold remove_key. induction 1 as [|x l Hx Hl IH]; [by intros ?%elem_of_nil|].
  intros Hk. destruct (decide (x = k)) as [->|Hne].
  - rewrite filter_cons_False by naive_solver. fold (remove_key k l). by rewrite remove_key_notin.
  - rewrite filter_cons_True by done. apply elem_of_cons in Hk as [->|Hk]; [done|].
    cbn. by rewrite IH.
Qed.

Lemma weights_ext m m' l : (∀ k, k ∈ l → m !! k = m' !! k) → weights m l = weights m' l.
Proof.
  induction l as [|x l IH]; intros H; [done|]. cbn. unfold weight.
  rewrite (H x) by set_solver. f_equal. apply IH. set_solver.
Qed.

Lemma weights_cons m k l : weights m (k :: l) = weight m k + weights m l.
Proof. done. Qed.
#[global] Arguments weights : simpl never.

Lemma weights_remove m k l : NoDup l → k ∈ l → weights m l = weight m k + weights m (remove_key k l).
Proof.
  unfold remove_key. induction 1 as [|x l Hx Hl IH]; [by intros ?%elem_of_nil|].
  intros Hk. destruct (decide (x = k)) as [->|Hne].
  - rewrite filter_cons_False by naive_solver. fold (remove_key k l). by rewrite remove_key_notin.
  - rewrite filter_cons_True by done. apply elem_of_cons in Hk as [->|Hk]; [done|].
    rewrite !weights_cons, IH by done. lia.
Qed.

Lemma is_value_delete m k k' : is_value (delete k m) k' ↔ k' ≠ k ∧ is_value m k'.
Proof. unfold is_value. setoid_rewrite lookup_delete_Some. naive_solver. Qed.
Lemma is_value_insert m k e k' :
  is_value (<[k := e]> m) k' ↔ (k' = k ∧ en_counter e = false) ∨ (k' ≠ k ∧ is_value m k').
Proof. unfold is_value. setoid_rewrite lookup_insert_Some. naive_solver. Qed.
Lemma expiring_delete m k p : expiring (delete k m) p ↔ p.1 ≠ k ∧ expiring m p.
Proof. unfold expiring. setoid_rewrite lookup_delete_Some. naive_solver. Qed.
Lemma expiring_insert m k e p :
  expiring (<[k := e]> m) p ↔
  (p.1 = k ∧ en_counter e = true ∧ en_expiresAt e = p.2 ∧ t_ns p.2 ≠ 0) ∨
  (p.1 ≠ k ∧ expiring m p).
Proof. unfold expiring. setoid_rewrite lookup_insert_Some. naive_solver. Qed.

Lemma counter_entries_lookup m k e :
  counter_entries m !! k = Some e ↔ m !! k = Some e ∧ en_counter e = true.
Proof. apply map_lookup_filter_Some. Qed.
Lemma counter_entries_delete m k : counter_entries (delete k m) = delete k (counter_entries m).
Proof. apply map_filter_delete. Qed.
Lemma size_counter_entries_delete m k e :
  m !! k = Some e →
  size (counter_entries m) =
    ((if en_counter e then 1 else 0) + size (counter_entries (delete k m)))%nat.
Proof.
  intros Hk. rewrite counter_entries_delete. destruct (en_counter e) eqn:E.
  - rewrite map_size_delete_Some by (exists e; by apply counter_entries_lookup).
    assert (size (counter_entries m) ≠ 0%nat); [|lia].
    rewrite map_size_ne_0_lookup. exists k, e. by apply counter_entries_lookup.
  - rewrite delete_id; [done|]. destruct (counter_entries m !! k) eqn:E'; [|done].
    apply counter_entries_lookup in E' as [? ?]. congruence.
Qed.

Lemma push_expiry_perm k t h : push_expiry k t h ≡ₚ (k, t) :: h.
Proof.
  induction h as [|[k' u] h IH]; [done|]. cbn. destruct (Time_Before t u); [done|].
  rewrite IH. apply Permutation_swap.
Qed.

Lemma push_expiry_sorted k t h :
  StronglySorted earlier h → StronglySorted earlier (push_expiry k t h).
Proof.
  induction 1 as [|[k' u] h Hs IH Hf]; [repeat constructor|]. cbn.
  destruct (Time_Before t u) eqn:E; to_prop.
  - constructor; [by constructor|]. constructor; [unfold earlier; cbn; lia|].
    eapply Forall_impl; [exact Hf|]. unfold earlier. cbn. intros. lia.
  - constructor; [done|]. rewrite push_expiry_perm. by constructor.
Qed.

Lemma StronglySorted_remove_expiry k h :
  StronglySorted earlier h → StronglySorted earlier (remove_expiry k h).
Proof.
  unfold remove_expiry. induction 1 as [|p h Hs IH Hf]; [constructor|]. rewrite filter_cons.
  destruct (decide _); [|done]. constructor; [done|]. rewrite Forall_forall in *.
  intros x [_ Hx]%list_elem_of_filter. auto.
Qed.

Lemma removeLocked_inv s k e :
  store_inv s → st_values s !! k = Some e → store_inv (removeLocked k e s).
Proof.
  intros [Hn Hr Hb Hc Hz Hen Hes He Hnum] Hk. unfold removeLocked.
  pose proof (size_counter_entries_delete _ _ _ Hk) as Hsz.
  assert (Hd : size (st_values s) = S (size (delete k (st_values s)))).
  { rewrite map_size_delete_Some by eauto. assert (size (st_values s) ≠ 0%nat); [|lia].
    rewrite map_size_ne_0_lookup. eauto. }
  assert (Hnum' : ∀ k0 e0, delete k (st_values s) !! k0 = Some e0 → en_counter e0 = true →
    ∃ n, in_int64 n ∧ en_data e0 = FormatInt n) by (intros ? ? [_ ?]%lookup_delete_Some; eauto).
  assert (Hw : ∀ l, k ∉ l → weights (delete k (st_values s)) l = weights (st_values s) l).
  { intros l Hl. apply weights_ext. intros x Hx. rewrite lookup_delete_ne; [done|]. by intros ->. }
  destruct (en_counter e) eqn:Ec; cbn.
  - assert (Hkr : k ∉ st_recency s) by (rewrite Hr; intros (e' & ? & ?); congruence).
    split; cbn; [done| |by rewrite Hw|lia|lia| | | |done].
    + intros x. rewrite Hr, is_value_delete. split; [|by intros []].
      intros Hv. split; [|done]. intros ->. destruct Hv as (e' & ? & ?). congruence.
    + eapply sublist_NoDup; [exact Hen|]. apply fmap_sublist, sublist_filter.
    + by apply StronglySorted_remove_expiry.
    + intros p. rewrite elem_remove_expiry, expiring_delete, He. done.
  - assert (Hkr : k ∈ st_recency s) by (rewrite Hr; by exists e).
    pose proof (length_remove_key k _ Hn Hkr).
    split; cbn; [by apply NoDup_filter| | |lia|lia|done|done| |done].
    + intros x. rewrite elem_remove_key, is_value_delete, Hr. done.
    + rewrite Hw by (rewrite elem_remove_key; tauto).
      rewrite Hb, (weights_remove _ k) by done. unfold weight at 1. rewrite Hk. lia.
    + intros p. rewrite expiring_delete, He. split; [|by intros []].
      intros Hp. split; [|done]. intros E. destruct Hp as (e' & Hp & ? & _). rewrite E in Hp. congruence.
Qed.

Lemma remove_if_inv c k s : store_inv s → store_inv (remove_if c k s).
Proof.
  intros Hs. unfold remove_if. destruct (st_values s !! k) as [e|] eqn:E; [|done].
  destruct (c e); [by apply removeLocked_inv|done].
Qed.

Lemma weight_insert_ne m k e k' : k' ≠ k → weight (<[k := e]> m) k' = weight m k'.
Proof. intros. unfold weight. by rewrite lookup_insert_ne. Qed.
Lemma weights_insert m k e l : k ∉ l → weights (<[k := e]> m) l = weights m l.
Proof.
  intros Hl. apply weights_ext. intros x Hx. rewrite lookup_insert_ne; [done|]. by intros ->.
Qed.
Lemma weight_insert m k e : weight (<[k := e]> m) k = len k + len (en_data e).
Proof. unfold weight. by rewrite lookup_insert_eq. Qed.

Lemma touch_perm k l : NoDup l → k ∈ l → MoveToFront k l ≡ₚ l.
Proof.
  unfold MoveToFront. induction 1 as [|x l Hx Hl IH]; [by intros ?%elem_of_nil|]. intros Hk.
  unfold remove_key in *. destruct (decide (x = k)) as [->|Hne].
  - rewrite filter_cons_False by naive_solver. fold (remove_key k l). by rewrite remove_key_notin.
  - rewrite filter_cons_True by done. apply elem_of_cons in Hk as [->|Hk]; [done|].
    rewrite Permutation_swap. f_equiv. by apply IH.
Qed.

Lemma weights_perm m l l' : l ≡ₚ l' → weights m l = weights m l'.
Proof. induction 1; rewrite ?weights_cons; lia. Qed.

Lemma touch_inv k s :
  store_inv s → k ∈ st_recency s →
  store_inv (s <| st_recency := MoveToFront k (st_recency s) |>).
Proof.
  intros [Hn Hr Hb Hc Hz Hen Hes He Hnum] Hk. pose proof (touch_perm k _ Hn Hk) as Hp.
  split; cbn -[MoveToFront]; try done.
  - by rewrite Hp.
  - intros x. by rewrite Hp.
  - by rewrite (weights_perm _ _ _ Hp).
  - by rewrite Hp.
Qed.

Lemma size_counter_entries_insert m k e :
  m !! k = None →
  size (counter_entries (<[k := e]> m)) =
    ((if en_counter e then 1 else 0) + size (counter_entries m))%nat.
Proof.
  intros Hk. rewrite (size_counter_entries_delete (<[k := e]> m) k e) by apply lookup_insert_eq.
  by rewrite delete_insert_id.
Qed.

(** Storing a new value. *)
Lemma push_value_inv s k data t :
  store_inv s → st_values s !! k = None →
  store_inv (s <| st_recency := k :: st_recency s |>
               <| st_values := <[k := mkEntry data t false]> (st_values s) |>
               <| st_retainedBytes := st_retainedBytes s + (len k + len data) |>).
Proof.
  intros [Hn Hr Hb Hc Hz Hen Hes He Hnum] Hk.
  assert (Hkr : k ∉ st_recency s) by (rewrite Hr; intros (e' & ? & ?); congruence).
  pose proof (size_counter_entries_insert _ k (mkEntry data t false) Hk) as Hsz.
  split; cbn [st_recency st_values st_retainedBytes st_counters st_expiries update].
  - by constructor.
  - intros x. rewrite elem_of_cons, Hr, is_value_insert. cbn. split; [|tauto].
    intros [->|Hx]; [by left|]. right. split; [|done]. intros ->. destruct Hx as (? & ? & ?). congruence.
  - rewrite weights_cons, weight_insert, weights_insert by done. cbn. lia.
  - rewrite Hsz. done.
  - rewrite Hsz, map_size_insert_None by done. cbn. lia.
  - done.
  - done.
  - intros p. rewrite He, expiring_insert. cbn. split.
    + intros Hp. right. split; [|done]. intros <-. destruct Hp as (? & ? & _). congruence.
    + intros [(_ & ? & _)|[_ ?]]; done.
  - intros x e [[<- <-]|[_ Hx]]%lookup_insert_Some; [done|]. by eapply Hnum.
Qed.

(** A value replaced in place is a value removed and stored again. *)
Lemma replace_value_eq s k e data t :
  store_inv s → st_values s !! k = Some e → en_counter e = false →
  s <| st_retainedBytes := st_retainedBytes s - len (en_data e) + len data |>
    <| st_values := <[k := mkEntry data t false]> (st_values s) |>
    <| st_recency := MoveToFront k (st_recency s) |> =
  (removeLocked k e s)
    <| st_recency := k :: st_recency (removeLocked k e s) |>
    <| st_values := <[k := mkEntry data t false]> (st_values (removeLocked k e s)) |>
    <| st_retainedBytes := st_retainedBytes (removeLocked k e s) + (len k + len data) |>.
Proof.
  intros Hs Hk Hc. unfold removeLocked. rewrite Hc. cbn. rewrite insert_delete_eq.
  unfold MoveToFront. f_equal. lia.
Qed.

(** Storing a new counter. *)
Lemma push_counter_inv s k n t :
  store_inv s → st_values s !! k = None → in_int64 n →
  store_inv (let s' := s <| st_values := <[k := mkEntry (FormatInt n) t true]> (st_values s) |>
                         <| st_counters := st_counters s + 1 |> in
             if negb (Time_IsZero t)
             then s' <| st_expiries := push_expiry k t (st_expiries s') |> else s').
Proof.
  intros [Hn Hr Hb Hc Hz Hen Hes He Hnum] Hk Hin.
  assert (Hkr : k ∉ st_recency s) by (rewrite Hr; intros (e' & ? & ?); congruence).
  assert (Hke : k ∉ (st_expiries s).*1).
  { intros ([k' u] & E & (e' & Hx & _)%He)%list_elem_of_fmap. cbn in *. congruence. }
  pose proof (size_counter_entries_insert _ k (mkEntry (FormatInt n) t true) Hk) as Hsz.
  cbn [en_counter] in Hsz.
  assert (Hrec : ∀ x, x ∈ st_recency s ↔
    is_value (<[k := mkEntry (FormatInt n) t true]> (st_values s)) x).
  { intros x. rewrite Hr, is_value_insert. cbn. split; [|intros [[_ ?]|[_ ?]]; done].
    intros Hx. right. split; [|done]. intros ->. destruct Hx as (? & ? & ?). congruence. }
  assert (Hnum' : ∀ k0 e0, <[k := mkEntry (FormatInt n) t true]> (st_values s) !! k0 = Some e0 →
    en_counter e0 = true → ∃ n, in_int64 n ∧ en_data e0 = FormatInt n).
  { intros x e [[<- <-]|[_ Hx]]%lookup_insert_Some; [by exists n|]. by eapply Hnum. }
  assert (Hold : ∀ p, expiring (st_values s) p → p.1 ≠ k).
  { intros p (e & ? & _) <-. congruence. }
  destruct (Time_IsZero t) eqn:Et; cbn zeta iota beta delta [negb]; to_prop;
    (split; cbn [st_recency st_values st_retainedBytes st_counters st_expiries update];
     [done|done|by rewrite weights_insert|lia|rewrite map_size_insert_None by done; lia| | | |done]);
    try done.
  - intros p. rewrite He, expiring_insert. cbn. split; [naive_solver|].
    intros [(_ & _ & <- & ?)|[_ ?]]; done.
  - rewrite push_expiry_perm. by constructor.
  - by apply push_expiry_sorted.
  - intros [k' u]. rewrite push_expiry_perm, elem_of_cons, He, expiring_insert. cbn. split.
    + intros [[= -> ->]|Hp]; [by left|]. right. split; [|done]. by apply (Hold _ Hp).
    + intros [(-> & _ & -> & _)|[_ ?]]; auto.
Qed.

Lemma insert_same_inv s k e data :
  store_inv s → st_values s !! k = Some e → en_counter e = true →
  (∃ n, in_int64 n ∧ data = FormatInt n) →
  store_inv (s <| st_values := <[k := mkEntry data (en_expiresAt e) true]> (st_values s) |>).
Proof.
  intros [Hn Hr Hb Hc Hz Hen Hes He Hnum] Hk Hce (n & Hin & ->).
  assert (Hkr : k ∉ st_recency s) by (rewrite Hr; intros (e' & ? & ?); congruence).
  assert (Hsz : size (counter_entries (<[k := mkEntry (FormatInt n) (en_expiresAt e) true]> (st_values s)))
    = size (counter_entries (st_values s))).
  { erewrite (size_counter_entries_delete (<[k := _]> _) k) by apply lookup_insert_eq.
    rewrite (size_counter_entries_delete (st_values s) k e Hk), Hce. cbn [en_counter].
    by rewrite delete_insert_eq. }
  split; cbn [st_recency st_values st_retainedBytes st_counters st_expiries update]; try done.
  - intros x. rewrite Hr, is_value_insert. cbn. split; [|intros [[_ ?]|[_ ?]]; done].
    intros Hx. right. split; [|done]. intros ->. destruct Hx as (? & ? & ?). congruence.
  - by rewrite weights_insert.
  - lia.
  - rewrite map_size_insert_Some by (by exists e). lia.
  - intros [k' u]. rewrite He, expiring_insert. unfold expiring. cbn. split.
    + intros (e' & ? & ? & ? & ?). destruct (decide (k' = k)) as [->|]; [left; by simplify_eq|].
      right. split; [done|]. by exists e'.
    + intros [(-> & _ & <- & ?)|[_ ?]]; [by exists e|done].
  - intros x e' [[<- <-]|[_ Hx]]%lookup_insert_Some; [by exists n|]. by eapply Hnum.
Qed.

(** Giving a deadline to a counter that had none is removing it and storing it. *)
Lemma deadline_counter_eq s k e n t :
  store_inv s → st_values s !! k = Some e → en_counter e = true → t_ns (en_expiresAt e) = 0 →
  s <| st_values := <[k := mkEntry (FormatInt n) t true]> (st_values s) |>
    <| st_expiries := push_expiry k t (st_expiries s) |> =
  (let r := removeLocked k e s in
   let s' := r <| st_values := <[k := mkEntry (FormatInt n) t true]> (st_values r) |>
               <| st_counters := st_counters r + 1 |> in
   s' <| st_expiries := push_expiry k t (st_expiries s') |>).
Proof.
  intros Hs Hk Hc Ht. unfold removeLocked. rewrite Hc. cbn. rewrite insert_delete_eq.
  assert (remove_expiry k (st_expiries s) = st_expiries s) as ->; [|f_equal; lia].
  apply remove_expiry_notin. intros ([k' u] & -> & Hp)%list_elem_of_fmap. cbn in *.
  apply (si_expiries s Hs) in Hp as (e' & Hk' & _ & Hu & Hz). cbn in *. congruence.
Qed.

Lemma removeLocked_lookup k e s : st_values (removeLocked k e s) !! k = None.
Proof. unfold removeLocked. destruct (en_counter e); cbn; apply lookup_delete_eq. Qed.

Lemma add_write_inv k n t found s :
  store_inv s → in_int64 n → st_values s !! k = found →
  (∀ e, found = Some e → t_ns (en_expiresAt e) ≠ 0 → t = en_expiresAt e) →
  store_inv (add_write k n t found s).
Proof.
  intros Hs Hn Hf Ht. unfold add_write. destruct found as [e|]; cbn [negb].
  - destruct (en_counter e) eqn:Ec; cbn [negb].
    + destruct (Time_Equal (en_expiresAt e) t) eqn:Eq; cbn [negb].
      * apply insert_same_inv; [done|done|done|by exists n].
      * destruct (decide (t_ns (en_expiresAt e) = 0)) as [Z0|Z0].
        2: { exfalso. rewrite (Ht e eq_refl Z0) in Eq. unfold Time_Equal in Eq. to_prop. lia. }
        rewrite (deadline_counter_eq s k e) by done.
        pose proof (push_counter_inv (removeLocked k e s) k n t) as Hp. cbv zeta in Hp |- *.
        assert (Hz : Time_IsZero t = false).
        { unfold Time_Equal in Eq. to_prop. lia. }
        rewrite Hz in Hp. apply Hp; [by apply removeLocked_inv|apply removeLocked_lookup|done].
    + apply push_counter_inv; [by apply removeLocked_inv|apply removeLocked_lookup|done].
  - by apply push_counter_inv.
Qed.

(** ** Eviction *)

Lemma value_count_spec s : store_inv s → value_count s = Z.of_nat (length (st_recency s)).
Proof. intros Hs. unfold value_count. rewrite (si_count s Hs), (si_counters s Hs). lia. Qed.

(** A later state that only lost values. *)
Record shrinks (s s' : Store) : Prop := {
  sh_inv : store_inv s';
  sh_values : st_values s' ⊆ st_values s;
  sh_entries : counter_entries (st_values s') = counter_entries (st_values s);
  sh_expiries : st_expiries s' = st_expiries s }.

Lemma shrinks_refl s : store_inv s → shrinks s s.
Proof. by split. Qed.

Lemma shrinks_counters s s' : store_inv s → shrinks s s' → st_counters s' = st_counters s.
Proof. intros Hs [Hi _ He _]. by rewrite (si_counters s' Hi), (si_counters s Hs), He. Qed.

Lemma shrinks_remove c k s s' :
  shrinks s s' → is_value (st_values s) k → shrinks s (remove_if c k s').
Proof.
  intros [Hi Hv He Hx] (e & Hk & Hc). pose proof (remove_if_inv c k s' Hi) as Hi'.
  unfold remove_if in *. destruct (st_values s' !! k) as [e'|] eqn:Hk'; [|by split].
  destruct (c e'); [|by split].
  assert (e' = e) as -> by (eapply lookup_weaken in Hk'; [|done]; congruence).
  unfold removeLocked in *. rewrite Hc in *. split; cbn; [done| | |done].
  - etrans; [apply delete_subseteq|done].
  - rewrite counter_entries_delete, delete_id; [done|]. rewrite He.
    destruct (counter_entries (st_values s) !! k) eqn:E; [|done].
    apply counter_entries_lookup in E as [? ?]. congruence.
Qed.

Lemma shrinks_remove_all c s l :
  store_inv s → (∀ k, k ∈ l → is_value (st_values s) k) → shrinks s (foldr (remove_if c) s l).
Proof.
  intros Hs. induction l as [|k l IH]; intros Hl; [by apply shrinks_refl|]. cbn.
  apply shrinks_remove; [apply IH; set_solver|apply Hl; set_solver].
Qed.

Lemma Config_validate_spec cf :
  Config_validate cf = None ↔ 1 ≤ cf_MaxEntries cf ∧ 1 ≤ cf_MaxBytes cf ∧ 0 ≤ cf_MaxCounters cf.
Proof.
  unfold Config_validate. destruct (cf_MaxEntries cf <? 1) eqn:E1, (cf_MaxBytes cf <? 1) eqn:E2,
    (cf_MaxCounters cf <? 0) eqn:E3; to_prop; split; done || lia.
Qed.

Lemma over_limit_empty cf s :
  store_inv s → Config_validate cf = None → st_recency s = [] → over_limit cf s = false.
Proof.
  intros Hs Hc Hr. apply Config_validate_spec in Hc. unfold over_limit. rewrite value_count_spec by done.
  rewrite (si_bytes s Hs), Hr. change (weights (st_values s) []) with 0. cbn. to_prop. lia.
Qed.

Lemma is_value_weaken m m' k : m ⊆ m' → is_value m k → is_value m' k.
Proof. intros Hm (e & Hk & Hc). exists e. split; [|done]. by eapply lookup_weaken. Qed.

Lemma evict_oldest_ok fuel cf s s' :
  Config_validate cf = None → shrinks s s' → (length (st_recency s') ≤ fuel)%nat →
  shrinks s (evict_oldest fuel cf s') ∧ over_limit cf (evict_oldest fuel cf s') = false.
Proof.
  intros Hcf. revert s'. induction fuel as [|fuel IH]; intros s' Hs Hl.
  { cbn. split; [done|]. apply over_limit_empty; [apply Hs|done|].
    destruct (st_recency s'); [done|]. cbn in Hl. lia. }
  cbn. destruct (over_limit cf s') eqn:Ho; [|done].
  destruct (last (st_recency s')) as [k|] eqn:El.
  2: { apply last_None in El. pose proof (over_limit_empty cf s' (sh_inv _ _ Hs) Hcf El). congruence. }
  assert (Hk : k ∈ st_recency s').
  { apply last_Some in El as [l' ->]. set_solver. }
  pose proof (proj1 (si_recency s' (sh_inv _ _ Hs) k) Hk) as Hv.
  apply IH.
  - apply shrinks_remove; [done|]. eapply is_value_weaken; [apply Hs|done].
  - destruct Hv as (e & He & Hc). unfold remove_if, removeLocked. rewrite He, Hc. cbn.
    pose proof (length_remove_key k _ (si_recency_nodup _ (sh_inv _ _ Hs)) Hk). lia.
Qed.

Lemma evictLocked_ok cf now s :
  store_inv s → Config_validate cf = None →
  shrinks s (evictLocked cf now s) ∧ over_limit cf (evictLocked cf now s) = false.
Proof.
  intros Hs Hcf. unfold evictLocked. destruct (over_limit cf s) eqn:Ho; cbn [negb].
  2: split; [by apply shrinks_refl|done].
  apply evict_oldest_ok; [done| |done].
  apply shrinks_remove_all; [done|]. intros k. apply (si_recency s Hs).
Qed.

(** ** Expiry of counters *)

(** A later state that only lost counters whose window has closed. *)
Record expires (now : Time) (s s' : Store) : Prop := {
  ex_inv : store_inv s';
  ex_values : st_values s' ⊆ st_values s;
  ex_lost : ∀ k e, st_values s !! k = Some e → st_values s' !! k = None →
    en_counter e = true ∧ entry_expired (en_expiresAt e) now = true;
  ex_recency : st_recency s' = st_recency s;
  ex_bytes : st_retainedBytes s' = st_retainedBytes s;
  ex_counters : st_counters s' ≤ st_counters s }.

Lemma expires_refl now s : store_inv s → expires now s s.
Proof. intros Hs. split; try done. intros k e ? ?. congruence. Qed.

Lemma expires_remove now s s' k t h :
  expires now s s' → st_expiries s' = (k, t) :: h → entry_expired t now = true →
  expires now s (remove_if (λ _, true) k s') ∧
  st_expiries (remove_if (λ _, true) k s') = h.
Proof.
  intros [Hi Hv Hl Hr Hb Hc] Hx Ht. pose proof (remove_if_inv (λ _, true) k s' Hi) as Hi'.
  assert (expiring (st_values s') (k, t)) as (e & Hk & Hce & He & _).
  { apply (si_expiries s' Hi). rewrite Hx. set_solver. }
  cbn in Hk, He. pose proof (si_expiries_nodup s' Hi) as Hn. rewrite Hx in Hn. cbn in Hn.
  apply NoDup_cons in Hn as [Hn _].
  unfold remove_if, removeLocked in *. rewrite Hk, Hce in *. cbn in Hi' |- *. split.
  - split; cbn; try done; [etrans; [apply delete_subseteq|done]| |lia].
    intros k' e' Hs' [<-|Hs'']%lookup_delete_None; [|by apply (Hl k')].
    assert (e' = e) as -> by (eapply lookup_weaken in Hk; [|done]; congruence).
    by rewrite He.
  - rewrite Hx. unfold remove_expiry. rewrite filter_cons_False by (cbn; tauto).
    fold (remove_expiry k h). by apply remove_expiry_notin.
Qed.

(** Every counter whose window has closed is removed, and no other. *)
Lemma expireCounters_ok now s :
  store_inv s →
  expires now s (expireCountersLocked now s) ∧
  ∀ k e, st_values (expireCountersLocked now s) !! k = Some e → en_counter e = true →
    entry_expired (en_expiresAt e) now = false.
Proof.
  intros Hs. unfold expireCountersLocked.
  assert (G : ∀ fuel s', expires now s s' → (length (st_expiries s') ≤ fuel)%nat →
    expires now s (expire_counters fuel now s') ∧
    Forall (λ p, entry_expired p.2 now = false) (st_expiries (expire_counters fuel now s'))).
  { induction fuel as [|fuel IH]; intros s' He Hl; cbn.
    { split; [done|]. destruct (st_expiries s'); [constructor|cbn in Hl; lia]. }
    destruct (st_expiries s') as [|[k t] h] eqn:Hx; [by rewrite Hx|].
    destruct (entry_expired t now) eqn:Ht.
    - destruct (expires_remove now s s' k t h He Hx Ht) as [He' Hh]. apply IH; [done|].
      rewrite Hh. cbn in Hl. lia.
    - split; [done|]. pose proof (si_expiries_sorted s' (ex_inv _ _ _ He)) as Hst. rewrite Hx in *.
      apply StronglySorted_inv in Hst as [_ Hf]. constructor; [done|].
      eapply Forall_impl; [exact Hf|]. unfold entry_expired, earlier in *. cbn in *. intros [? u]. cbn.
      to_prop. intros. destruct Ht as [Ht|Ht]; [|right; lia].
      destruct (decide (t_ns u = 0)); [by left|].
      destruct (si_expiries s' (ex_inv _ _ _ He) (k, t)) as [Hkt _].
      destruct Hkt as (? & _ & _ & _ & Hz); [rewrite Hx; set_solver|]. done. }
  destruct (G _ s (expires_refl now s Hs) (le_n _)) as [He Hf]. split; [done|].
  intros k e Hk Hc. rewrite Forall_forall in Hf.
  destruct (decide (t_ns (en_expiresAt e) = 0)) as [Z0|Z0].
  - unfold entry_expired, Time_IsZero. rewrite Z0. done.
  - apply (Hf (k, en_expiresAt e)). apply (si_expiries _ (ex_inv _ _ _ He)). by exists e.
Qed.

(** ** Bounds *)

(** A store within the bounds it was configured with. *)
Record store_ok (cf : Config) (s : Store) : Prop := {
  ok_inv : store_inv s;
  ok_entries : Z.of_nat (length (st_recency s)) ≤ cf_MaxEntries cf;
  ok_bytes : st_retainedBytes s ≤ cf_MaxBytes cf;
  ok_counters : st_counters s ≤ cf_MaxCounters cf }.

Lemma over_limit_ok cf s :
  store_inv s → over_limit cf s = false ↔
  Z.of_nat (length (st_recency s)) ≤ cf_MaxEntries cf ∧ st_retainedBytes s ≤ cf_MaxBytes cf.
Proof. intros Hs. unfold over_limit. rewrite value_count_spec by done. by to_prop. Qed.

Lemma weight_nonneg m k : 0 ≤ weight m k.
Proof. unfold weight, len. destruct (m !! k); lia. Qed.

Lemma removeLocked_ok cf s k e :
  store_ok cf s → st_values s !! k = Some e → store_ok cf (removeLocked k e s).
Proof.
  intros [Hi He Hb Hc] Hk. split; [by apply removeLocked_inv|..]; unfold removeLocked;
    destruct (en_counter e) eqn:Ec; cbn; try lia.
  - assert (Hkr : k ∈ st_recency s) by (apply (si_recency s Hi); by exists e).
    pose proof (length_remove_key k _ (si_recency_nodup s Hi) Hkr). lia.
  - unfold len. lia.
Qed.

Lemma remove_if_ok cf c k s : store_ok cf s → store_ok cf (remove_if c k s).
Proof.
  intros Hs. unfold remove_if. destruct (st_values s !! k) as [e|] eqn:E; [|done].
  destruct (c e); [by apply removeLocked_ok|done].
Qed.

Lemma emptyStore_inv : store_inv emptyStore.
Proof.
  split; cbn; [constructor| |done|done|done|constructor|constructor| |done].
  - intros k. split; [by intros ?%elem_of_nil|]. by intros (? & ? & _).
  - intros p. split; [by intros ?%elem_of_nil|]. by intros (? & ? & _).
Qed.

Lemma emptyStore_ok cf : Config_validate cf = None → store_ok cf emptyStore.
Proof. intros H%Config_validate_spec. split; cbn; [apply emptyStore_inv|lia..]. Qed.

Lemma touch_ok cf k s :
  store_ok cf s → k ∈ st_recency s →
  store_ok cf (s <| st_recency := MoveToFront k (st_recency s) |>).
Proof.
  intros [Hi He Hb Hc] Hk. split; [by apply touch_inv| |done|done]. cbn -[MoveToFront].
  by rewrite (touch_perm k _ (si_recency_nodup s Hi) Hk).
Qed.

Lemma set_write_inv k data t s :
  store_inv s →
  let found := st_values s !! k in
  ∀ cf now', Config_validate cf = None → st_counters s ≤ cf_MaxCounters cf →
  store_ok cf (set_write cf now' k data t found s) ∧
  counter_entries (st_values (set_write cf now' k data t found s)) =
    delete k (counter_entries (st_values s)) ∧
  ∀ k' e, st_values (set_write cf now' k data t found s) !! k' = Some e →
    (k' = k ∧ e = mkEntry data t false) ∨ (k' ≠ k ∧ st_values s !! k' = Some e).
Proof.
  intros Hs found cf now' Hcf Hc.
  assert (Hgen : ∀ s1, store_inv s1 → st_values s1 !! k = None → st_counters s1 ≤ cf_MaxCounters cf →
    counter_entries (st_values s1) = delete k (counter_entries (st_values s)) →
    (∀ k', k' ≠ k → st_values s1 !! k' = st_values s !! k') →
    let s2 := evictLocked cf now' (s1 <| st_recency := k :: st_recency s1 |>
               <| st_values := <[k := mkEntry data t false]> (st_values s1) |>
               <| st_retainedBytes := st_retainedBytes s1 + (len k + len data) |>) in
    store_ok cf s2 ∧ counter_entries (st_values s2) = delete k (counter_entries (st_values s)) ∧
    ∀ k' e, st_values s2 !! k' = Some e →
      (k' = k ∧ e = mkEntry data t false) ∨ (k' ≠ k ∧ st_values s !! k' = Some e)).
  { intros s1 Hs1 Hk1 Hc1 He1 Hv1 s2.
    pose proof (push_value_inv s1 k data t Hs1 Hk1) as Hp.
    destruct (evictLocked_ok cf now' _ Hp Hcf) as [Hsh Ho]. fold s2 in Hsh, Ho.
    pose proof (shrinks_counters _ _ Hp Hsh) as Hcnt. cbn in Hcnt.
    apply over_limit_ok in Ho; [|apply Hsh]. split; [split; [apply Hsh|tauto|tauto|lia]|]. split.
    - rewrite (sh_entries _ _ Hsh). cbn. rewrite <-He1. unfold counter_entries.
      rewrite map_filter_insert_False by (cbn; done).
      by rewrite delete_id.
    - intros k' e Hk'. eapply lookup_weaken in Hk'; [|apply Hsh]. cbn in Hk'.
      apply lookup_insert_Some in Hk' as [[<- <-]|[Hne Hk']]; [by left|]. right.
      rewrite Hv1 in Hk' by done. done. }
  unfold set_write. destruct found as [e|] eqn:Hf; subst found.
  - destruct (en_counter e) eqn:Ec.
    + apply Hgen; [by apply removeLocked_inv|apply removeLocked_lookup| | |];
        unfold removeLocked; rewrite Ec; cbn; [lia|apply counter_entries_delete|].
      intros k' Hne. by rewrite lookup_delete_ne.
    + rewrite (replace_value_eq s k e) by done.
      apply Hgen; [by apply removeLocked_inv|apply removeLocked_lookup| | |];
        unfold removeLocked; rewrite Ec; cbn; [lia|apply counter_entries_delete|].
      intros k' Hne. by rewrite lookup_delete_ne.
  - apply Hgen; try done. rewrite delete_id; [done|].
    destruct (counter_entries (st_values s) !! k) eqn:E; [|done].
    apply counter_entries_lookup in E as [? _]. congruence.
Qed.

Lemma expires_lookup now s s' k :
  expires now s s' → (∀ e, st_values s !! k = Some e → en_counter e = true →
                       entry_expired (en_expiresAt e) now = false) →
  st_values s' !! k = st_values s !! k.
Proof.
  intros [_ Hv Hl _ _ _] Hk. destruct (st_values s' !! k) as [e|] eqn:E.
  - symmetry. by eapply lookup_weaken.
  - destruct (st_values s !! k) as [e|] eqn:E'; [|done].
    destruct (Hl k e E' E) as [Hc Hx]. by rewrite (Hk e eq_refl Hc) in Hx.
Qed.

Lemma expires_ok cf now s s' : store_ok cf s → expires now s s' → store_ok cf s'.
Proof.
  intros [Hi He Hb Hc] [Hi' _ _ Hr Hb' Hc']. split; [done|by rewrite Hr|by rewrite Hb'|lia].
Qed.

Lemma add_write_values k n t found s k' :
  st_values s !! k = found →
  (∀ e, found = Some e → t_ns (en_expiresAt e) ≠ 0 → t = en_expiresAt e) →
  st_values (add_write k n t found s) !! k' =
  if decide (k' = k) then
    Some (mkEntry (FormatInt n)
            (match found with
             | Some e => if en_counter e && Time_Equal (en_expiresAt e) t then en_expiresAt e else t
             | None => t end) true)
  else st_values s !! k'.
Proof.
  intros Hf Ht. unfold add_write, removeLocked.
  destruct found as [e|]; [destruct (en_counter e) eqn:Ec; cbn [negb andb]|]; rewrite ?Ec.
  - destruct (Time_Equal _ _); cbn; destruct (decide (k' = k)) as [->|];
      by rewrite ?lookup_insert_eq, ?lookup_insert_ne by done.
  - destruct (Time_IsZero t); cbn; destruct (decide (k' = k)) as [->|];
      by rewrite ?lookup_insert_eq, ?lookup_insert_ne, ?lookup_delete_ne by done.
  - destruct (Time_IsZero t); cbn; destruct (decide (k' = k)) as [->|];
      by rewrite ?lookup_insert_eq, ?lookup_insert_ne by done.
Qed.

Lemma add_write_ok cf k n t found s :
  store_ok cf s → in_int64 n → st_values s !! k = found →
  (∀ e, found = Some e → t_ns (en_expiresAt e) ≠ 0 → t = en_expiresAt e) →
  ((∀ e, found = Some e → en_counter e = false) → st_counters s < cf_MaxCounters cf) →
  store_ok cf (add_write k n t found s).
Proof.
  intros Hs Hn Hf Ht Hroom. pose proof (add_write_inv k n t found s (ok_inv _ _ Hs) Hn Hf Ht) as Hi.
  destruct found as [e|]; [destruct (en_counter e) eqn:Ec|].
  - destruct Hs as [? ? ? ?]. split; [done|..]; unfold add_write; rewrite Ec; cbn [negb];
      destruct (Time_Equal _ _); done.
  - pose proof (removeLocked_ok cf s k e Hs Hf) as [? ? ? Hcnt]. 
    assert (st_counters s < cf_MaxCounters cf) by (apply Hroom; by intros ? [= <-]).
    assert (st_counters (removeLocked k e s) = st_counters s) by (unfold removeLocked; by rewrite Ec).
    split; [done|..]; unfold add_write; rewrite Ec; cbn [negb];
      destruct (Time_IsZero _); cbn -[removeLocked]; done || lia.
  - assert (st_counters s < cf_MaxCounters cf) by (by apply Hroom).
    destruct Hs as [? ? ? ?]. split; [done|..]; unfold add_write; destruct (Time_IsZero _); cbn; done || lia.
Qed.

(** What [Add] does, whatever it returns. *)
Definition add_expiry (now : Time) (ttl : Z) (found : option entry) : Time :=
  match found with
  | Some item => if negb (Time_IsZero (en_expiresAt item)) then en_expiresAt item
                 else if 0 <? ttl then Time_Add now ttl else zeroTime
  | None => if 0 <? ttl then Time_Add now ttl else zeroTime
  end.

Lemma add_expiry_kept now ttl found e :
  found = Some e → t_ns (en_expiresAt e) ≠ 0 → add_expiry now ttl found = en_expiresAt e.
Proof. intros -> Hz. cbn. unfold Time_IsZero. by rewrite (proj2 (Z.eqb_neq _ _) Hz). Qed.

Definition unexpired (now : Time) (k : string) (s : Store) : Store :=
  remove_if (λ e, entry_expired (en_expiresAt e) now) k s.

Lemma Add_cases cf ctx now k d o s s' r :
  Add cf ctx now k d o s = (s', r) →
  (s' = s ∧ ∃ e, r = Failed e) ∨
  (s' = unexpired now k s ∧ ∃ e, r = Failed e) ∨
  (s' = expireCountersLocked now (unexpired now k s) ∧ cf_MaxCounters cf ≤ st_counters s' ∧
   (∀ item, st_values (unexpired now k s) !! k = Some item → en_counter item = false) ∧
   r = Failed (mkOpError "add" k (ErrCapacity "every counter slot holds a live counter"))) ∨
  (∃ current ttl, let s1 := unexpired now k s in let found := st_values s1 !! k in
    match found with Some item => ParseInt (en_data item) | None => Some 0 end = Some current ∧
    ((0 < d ∧ int64_sub int64_max d < current) ∨ (d < 0 ∧ current < int64_sub int64_min d) → False) ∧
    r = Done (int64_add current d) ∧
    ((∃ item, found = Some item ∧ en_counter item = true ∧
       s' = add_write k (int64_add current d) (add_expiry now ttl found) found s1) ∨
     ((∀ item, found = Some item → en_counter item = false) ∧
      st_counters (expireCountersLocked now s1) < cf_MaxCounters cf ∧
      s' = add_write k (int64_add current d) (add_expiry now ttl found) found
             (expireCountersLocked now s1)))).
Proof.
  unfold Add. fold (unexpired now k s). intros H.
  destruct ctx; [injection H as <- <-; by left; eauto|].
  destruct (cf_MaxCounters cf =? 0); [injection H as <- <-; by left; eauto|].
  destruct (ValidateKey k); [injection H as <- <-; by left; eauto|].
  destruct (CounterOptions_Validate o); [injection H as <- <-; by left; eauto|].
  destruct (NormalizedTTL (co_TTL o)) as [ttl|]; [|injection H as <- <-; by left; eauto].
  cbv zeta in H. set (s1 := unexpired now k s) in *.
  destruct (match st_values s1 !! k with Some item => _ | None => _ end) as [current|] eqn:Ecur;
    [|injection H as <- <-; right; left; eauto].
  destruct (_ || _) eqn:Eo in H; [injection H as <- <-; right; left; eauto|].
  assert (Hof : (0 < d ∧ int64_sub int64_max d < current) ∨
    (d < 0 ∧ current < int64_sub int64_min d) → False).
  { clear -Eo. to_prop. lia. }
  destruct (match st_values s1 !! k with Some item => negb (en_counter item) | None => true end)
    eqn:Enew.
  - destruct (cf_MaxCounters cf <=? _) eqn:Ec in H; cbn [andb] in H; injection H as <- <-; to_prop.
    + right. right. left. split_and!; try done. intros item Hit. rewrite Hit in Enew.
      by apply negb_true_iff in Enew.
    + right. right. right. exists current, ttl. cbv zeta. split_and!; try done. right.
      split_and!; [|done|done]. intros item Hit. rewrite Hit in Enew. by apply negb_true_iff in Enew.
  - cbn [andb] in H. injection H as <- <-. right. right. right. exists current, ttl. cbv zeta.
    split_and!; try done. left. destruct (st_values s1 !! k) as [item|]; [|done].
    exists item. by apply negb_false_iff in Enew.
Qed.

Lemma not_counter_kept now s k :
  store_inv s → (∀ e, st_values s !! k = Some e → en_counter e = false) →
  st_values (expireCountersLocked now s) !! k = st_values s !! k.
Proof.
  intros Hs Hk. destruct (expireCounters_ok now s Hs) as [He _].
  apply (expires_lookup now); [done|]. intros e He' Hc. rewrite (Hk e He') in Hc. done.
Qed.

Lemma Add_ok cf ctx now k d o s s' r :
  store_ok cf s → Add cf ctx now k d o s = (s', r) → store_ok cf s'.
Proof.
  intros Hs H. pose proof (remove_if_ok cf (λ e, entry_expired (en_expiresAt e) now) k s Hs) as H1.
  fold (unexpired now k s) in H1.
  apply Add_cases in H as [[-> _]|[[-> _]|[(-> & _ & _ & _)|(current & ttl & _ & _ & _ & Hw)]]]; try done.
  { eapply expires_ok; [exact H1|]. by apply expireCounters_ok, H1. }
  destruct Hw as [(item & Hf & Hc & ->)|(Hnc & Hroom & ->)].
  - apply add_write_ok; try done; [apply wrap64_in_range|intros; by apply add_expiry_kept|].
    intros Hn. rewrite (Hn item Hf) in Hc. done.
  - apply add_write_ok; [|apply wrap64_in_range| |intros; by apply add_expiry_kept|done].
    + eapply expires_ok; [exact H1|]. by apply expireCounters_ok, H1.
    + by apply not_counter_kept; [apply H1|].
Qed.

Section correctness.
Context {V : Type} (codec : Codec V) (cf : Config).
Hypothesis cf_valid : Config_validate cf = None.

Lemma Get_state ctx now k s s' r :
  Get codec ctx now k s = (s', r) →
  s' = s ∨ s' = unexpired now k s ∨
  (∃ e, st_values (unexpired now k s) !! k = Some e ∧ en_counter e = false ∧
        s' = (unexpired now k s) <| st_recency := MoveToFront k (st_recency (unexpired now k s)) |>).
Proof.
  unfold Get. fold (unexpired now k s). intros H.
  destruct ctx; [injection H as <- <-; by left|].
  destruct (ValidateKey k); [injection H as <- <-; by left|].
  cbv zeta in H. destruct (st_values (unexpired now k s) !! k) as [e|] eqn:E;
    [|injection H as <- <-; by right; left].
  destruct (en_counter e) eqn:Ec; cbn [negb] in H;
    destruct (Decode codec (en_data e)); injection H as <- <-;
    [by right; left|by right; left|right; right; by exists e|right; right; by exists e].
Qed.

Lemma Set_cases ctx now now' k v o s s' r :
  Set_ codec cf ctx now now' k v o s = (s', r) →
  (s' = s ∧ ∃ e, r = Failed e) ∨
  (s' = unexpired now k s ∧ ∃ e, r = Failed e) ∨
  (∃ ttl data, NormalizedTTL (so_TTL o) = inl ttl ∧ Encode codec v = inl data ∧
    len k + len data ≤ cf_MaxBytes cf ∧ r = Done tt ∧
    s' = set_write cf now' k data (if 0 <? ttl then Time_Add now ttl else zeroTime)
           (st_values (unexpired now k s) !! k) (unexpired now k s)).
Proof.
  unfold Set_. fold (unexpired now k s). intros H.
  destruct ctx; [injection H as <- <-; left; eauto|].
  destruct (ValidateKey k); [injection H as <- <-; left; eauto|].
  destruct (SetOptions_Validate o); [injection H as <- <-; left; eauto|].
  destruct (NormalizedTTL (so_TTL o)) as [ttl|]; [|injection H as <- <-; left; eauto].
  destruct (Encode codec v) as [data|]; [|injection H as <- <-; left; eauto].
  cbv zeta in H. destruct (_ && _) in H; [injection H as <- <-; right; left; eauto|].
  destruct (_ && _) in H; [injection H as <- <-; right; left; eauto|].
  destruct (cf_MaxBytes cf <? len k + len data) eqn:Eb; [injection H as <- <-; right; left; eauto|].
  injection H as <- <-. to_prop. right. right. exists ttl, data. done.
Qed.

Lemma run_cache_op_ok op now now' s :
  store_ok cf s → store_ok cf (fst (run_cache_op codec cf op now now' s)).
Proof.
  intros Hs. destruct op as [ctx k|ctx k v o|ctx k|ctx k d o|ctx]; cbn [run_cache_op].
  - destruct (Get codec ctx now k s) as [s' r] eqn:E. cbn.
    pose proof (remove_if_ok cf (λ e, entry_expired (en_expiresAt e) now) k s Hs) as H1.
    fold (unexpired now k s) in H1.
    apply Get_state in E as [-> |[-> |(e & Hk & Hc & ->)]]; [done|done|].
    apply touch_ok; [done|]. apply (si_recency _ (ok_inv _ _ H1)). by exists e.
  - destruct (Set_ codec cf ctx now now' k v o s) as [s' r] eqn:E. cbn.
    pose proof (remove_if_ok cf (λ e, entry_expired (en_expiresAt e) now) k s Hs) as H1.
    fold (unexpired now k s) in H1.
    apply Set_cases in E as [[-> _]|[[-> _]|(ttl & data & _ & _ & _ & _ & ->)]]; [done|done|].
    apply set_write_inv; [apply H1|done|apply H1].
  - unfold Delete. destruct ctx; [done|]. destruct (ValidateKey k); [done|]. by apply remove_if_ok.
  - destruct (Add cf ctx now k d o s) as [s' r] eqn:E. cbn. by eapply Add_ok.
  - unfold Purge. destruct ctx; [done|]. cbn. apply emptyStore_ok, cf_valid.
Qed.

Lemma run_cache_ok h s : store_ok cf s → store_ok cf (fst (run_cache codec cf h s)).
Proof.
  revert s. induction h as [|[[op now] now'] h IH]; intros s Hs; [done|]. cbn [run_cache].
  pose proof (run_cache_op_ok op now now' s Hs) as H1.
  destruct (run_cache_op codec cf op now now' s) as [s1 r]. specialize (IH s1 H1).
  by destruct (run_cache codec cf h s1) as [s2 rs].
Qed.

(** C12. Whatever operations a store serves, at whatever instants, its parts agree
    (recency list, byte total, counter count, expiry order) and its bounds hold: at
    most MaxEntries values of at most MaxBytes bytes, and at most MaxCounters
    counters. *)
Theorem cache_bounded configurations s h :
  New (Some codec) configurations = inl (codec, cf, s) → store_ok cf (fst (run_cache codec cf h s)).
Proof.
  unfold New. intros H. apply run_cache_ok.
  destruct configurations as [|c [|]]; cbn -[Config_validate] in H; [| |done];
    destruct (Config_validate _) in H; simplify_eq; apply emptyStore_ok, cf_valid.
Qed.

(** ** Counters *)

Definition holds_counter (s : Store) (k : string) (total : Z) (deadline : Time) : Prop :=
  st_values s !! k = Some (mkEntry (FormatInt total) deadline true).

Lemma unexpired_lookup now k k' s e :
  st_values s !! k = Some e → entry_expired (en_expiresAt e) now = false →
  st_values (unexpired now k' s) !! k = Some e.
Proof.
  intros Hk He. unfold unexpired, remove_if. destruct (st_values s !! k') as [e'|] eqn:E; [|done].
  destruct (entry_expired (en_expiresAt e') now) eqn:Ee; [|done].
  assert (k ≠ k') by (intros ->; congruence).
  unfold removeLocked. destruct (en_counter e'); cbn; by rewrite lookup_delete_ne.
Qed.

Lemma Add_other ctx now k k' d o s s' r e :
  store_ok cf s → k ≠ k' → st_values s !! k = Some e → entry_expired (en_expiresAt e) now = false →
  Add cf ctx now k' d o s = (s', r) → st_values s' !! k = Some e.
Proof.
  intros Hs Hne Hk He H. pose proof (unexpired_lookup now k k' s e Hk He) as Hk1.
  pose proof (remove_if_inv (λ e, entry_expired (en_expiresAt e) now) k' s (ok_inv _ _ Hs)) as H1.
  fold (unexpired now k' s) in H1.
  assert (Hk2 : st_values (expireCountersLocked now (unexpired now k' s)) !! k = Some e).
  { destruct (expireCounters_ok now _ H1) as [Hx _]. rewrite (expires_lookup now _ _ _ Hx); [done|].
    intros e' He' _. congruence. }
  apply Add_cases in H as [[-> _]|[[-> _]|[(-> & _ & _ & _)|(current & ttl & _ & _ & _ & Hw)]]]; try done.
  destruct Hw as [(item & Hf & Hc & ->)|(Hnc & Hroom & ->)].
  - rewrite add_write_values by (done || (intros; by apply add_expiry_kept)).
    by rewrite decide_False.
  - rewrite add_write_values; [by rewrite decide_False| |intros; by apply add_expiry_kept].
    by apply not_counter_kept.
Qed.

Lemma Add_same ctx now k d o s s' r total deadline :
  in_int64 total → in_int64 d → t_ns deadline ≠ 0 →
  holds_counter s k total deadline → entry_expired deadline now = false →
  Add cf ctx now k d o s = (s', r) →
  (r = Done (total + d) ∧ in_int64 (total + d) ∧ holds_counter s' k (total + d) deadline) ∨
  ((∃ e, r = Failed e) ∧ holds_counter s' k total deadline).
Proof.
  intros Ht Hd Hz Hk He H.
  assert (Hu : unexpired now k s = s).
  { unfold unexpired, remove_if. rewrite Hk. cbn. by rewrite He. }
  apply Add_cases in H. rewrite Hu in H. cbv zeta in H. rewrite Hk in H.
  destruct H as [[-> Hr]|[[-> Hr]|[(-> & _ & Hn & Hr)|(current & ttl & Hp & Hov & Hr & Hw)]]].
  1, 2: right; split; [exact Hr|exact Hk].
  { by specialize (Hn _ eq_refl). }
  cbn in Hp. rewrite ParseInt_FormatInt in Hp by done. injection Hp as <-.
  assert (Hin : in_int64 (total + d)).
  { assert (Hmax : 0 < d → int64_sub int64_max d = int64_max - d).
    { intros. apply int64_sub_id. unfold in_int64, int64_min, int64_max in *. lia. }
    assert (Hmin : d < 0 → int64_sub int64_min d = int64_min - d).
    { intros. apply int64_sub_id. unfold in_int64, int64_min, int64_max in *. lia. }
    unfold in_int64 in *. lia. }
  left. rewrite int64_add_id in * by done. split; [done|]. split; [done|].
  destruct Hw as [(item & [= <-] & _ & ->)|(Hn & _)]; [|by specialize (Hn _ eq_refl)].
  unfold holds_counter. rewrite add_write_values by (done || (intros; by apply add_expiry_kept)).
  rewrite decide_True by done. cbn [add_expiry en_expiresAt en_counter andb].
  unfold Time_IsZero. rewrite (proj2 (Z.eqb_neq _ _) Hz). cbn [negb].
  by destruct (Time_Equal deadline deadline).
Qed.

(** Operations that do not overwrite or delete the key. *)
Definition spares (k : string) (op : CacheOp (V := V)) : Prop :=
  match op with
  | OpGet _ _ => True
  | OpSet _ k' _ _ | OpDelete _ k' => k' ≠ k
  | OpAdd _ _ d _ => in_int64 d
  | OpPurge ctx => is_Some ctx
  end.

(** The delta an operation added to the key, judging by its reply, and what the
    reply must be. *)
Definition added (k : string) (op : CacheOp (V := V)) (r : CacheReply (V := V)) : Z :=
  match op, r with
  | OpAdd _ k' d _, ReplyAdd (Done _) => if decide (k' = k) then d else 0
  | _, _ => 0
  end.
Definition reports (k : string) (total : Z) (op : CacheOp (V := V)) (r : CacheReply (V := V)) : Prop :=
  match op, r with
  | OpAdd _ k' _ _, ReplyAdd (Done n) => k' = k → n = total
  | _, _ => True
  end.

Lemma spare_step op now now' k s s' r total deadline :
  store_ok cf s → in_int64 total → t_ns deadline ≠ 0 → t_ns now < t_ns deadline →
  holds_counter s k total deadline → spares k op → run_cache_op codec cf op now now' s = (s', r) →
  holds_counter s' k (total + added k op r) deadline ∧ in_int64 (total + added k op r) ∧
  reports k (total + added k op r) op r.
Proof.
  intros Hs Ht Hz Hnow Hk Hsp H.
  assert (He : entry_expired deadline now = false).
  { unfold entry_expired. to_prop. lia. }
  destruct op as [ctx k'|ctx k' v o|ctx k'|ctx k' d o|ctx]; cbn [run_cache_op] in H.
  - destruct (Get codec ctx now k' s) as [s1 r1] eqn:E. injection H as <- <-. cbn.
    rewrite Z.add_0_r. split; [|done].
    pose proof (unexpired_lookup now k k' s _ Hk He) as Hk1.
    by apply Get_state in E as [-> |[-> |(e & _ & _ & ->)]].
  - destruct (Set_ codec cf ctx now now' k' v o s) as [s1 r1] eqn:E. injection H as <- <-. cbn.
    rewrite Z.add_0_r. split; [|done]. pose proof (unexpired_lookup now k k' s _ Hk He) as Hk1.
    apply Set_cases in E as [[-> _]|[[-> _]|(ttl & data & _ & _ & _ & _ & ->)]]; try done.
    pose proof (remove_if_ok cf (λ e, entry_expired (en_expiresAt e) now) k' s Hs) as H1.
    fold (unexpired now k' s) in H1.
    destruct (set_write_inv k' data (if 0 <? ttl then Time_Add now ttl else zeroTime) _ (ok_inv _ _ H1)
      cf now' cf_valid (ok_counters _ _ H1)) as (_ & Hce & _). cbv zeta in Hce.
    apply (counter_entries_lookup _ k (mkEntry (FormatInt total) deadline true)).
    rewrite Hce, lookup_delete_ne by done. by apply counter_entries_lookup.
  - unfold Delete in H. cbn in Hsp. rewrite Z.add_0_r.
    destruct ctx; [by injection H as <- <-|]. destruct (ValidateKey k'); [by injection H as <- <-|].
    injection H as <- <-. split; [|done]. unfold holds_counter, remove_if, removeLocked.
    destruct (st_values s !! k') as [e'|]; [|done].
    destruct (en_counter e'); cbn; by rewrite lookup_delete_ne.
  - destruct (Add cf ctx now k' d o s) as [s1 r1] eqn:E. injection H as <- <-. cbn in Hsp |- *.
    destruct (decide (k' = k)) as [->|Hne].
    + destruct (Add_same _ _ _ _ _ _ _ _ _ _ Ht Hsp Hz Hk He E) as [(-> & Hin & Hh)|[[e ->] Hh]].
      * done.
      * by rewrite Z.add_0_r.
    + assert (Hk' : holds_counter s1 k total deadline) by (by eapply Add_other).
      destruct r1; rewrite Z.add_0_r; done.
  - unfold Purge in H. destruct Hsp as [err ->]. injection H as <- <-. cbn. by rewrite Z.add_0_r.
Qed.

(** The totals a window goes through. *)
Fixpoint window (k : string) (total : Z) (h : list (CacheOp (V := V) * Time * Time))
    (rs : list (CacheReply (V := V))) : Prop * Z :=
  match h, rs with
  | (op, _, _) :: h', r :: rs' =>
      let total' := total + added k op r in
      let '(P, final) := window k total' h' rs' in (reports k total' op r ∧ P, final)
  | _, _ => (True, total)
  end.

(** A counter cannot be pushed out of its window.  From any state of the store
    in which a key holds a live counter, whatever operations follow before its
    deadline, floods of new values and counters included, as long as none
    overwrites or deletes the key, the counter is still there with the same
    deadline; every accepted [Add] of the key returned the exact running total, and
    the final value is the total of the accepted deltas. *)
Theorem cache_counter_window h k s total deadline :
  store_ok cf s → in_int64 total → t_ns deadline ≠ 0 → holds_counter s k total deadline →
  Forall (λ '(op, now, _), spares k op ∧ t_ns now < t_ns deadline) h →
  let '(s', rs) := run_cache codec cf h s in
  let '(reported, final) := window k total h rs in
  reported ∧ holds_counter s' k final deadline.
Proof.
  intros Hs Ht Hz Hk Hh. revert s total Hs Ht Hk.
  induction Hh as [|[[op now] now'] h [Hsp Hnow] Hh IH]; intros s total Hs Ht Hk; [done|].
  cbn [run_cache]. pose proof (run_cache_op_ok op now now' s Hs) as H1.
  destruct (run_cache_op codec cf op now now' s) as [s1 r] eqn:E.
  destruct (spare_step op now now' k s s1 r total deadline Hs Ht Hz Hnow Hk Hsp E) as (Hk1 & Ht1 & Hr).
  specialize (IH s1 _ H1 Ht1 Hk1). destruct (run_cache codec cf h s1) as [s2 rs]. cbn [window].
  destruct (window k (total + added k op r) h rs) as [P final]. tauto.
Qed.

(** ** What a reader may see *)

(** The last write of each key that was acknowledged: its bytes, and its deadline
    (none known after [Add]; [zeroTime] for a value that does not expire). *)
Notation Writes := (gmap string (string * option Time)).

Definition set_deadline (now : Time) (o : SetOptions) : Time :=
  match NormalizedTTL (so_TTL o) with
  | inl ttl => if 0 <? ttl then Time_Add now ttl else zeroTime
  | inr _ => zeroTime
  end.

Definition record_write (op : CacheOp (V := V)) (now : Time) (r : CacheReply (V := V)) (w : Writes)
    : Writes :=
  match op, r with
  | OpSet _ k v o, ReplyUnit (Done _) =>
      match Encode codec v with
      | inl data => <[k := (data, Some (set_deadline now o))]> w
      | inr _ => w
      end
  | OpDelete _ k, ReplyUnit (Done _) => delete k w
  | OpAdd _ k _ _, ReplyAdd (Done n) => <[k := (FormatInt n, None)]> w
  | OpPurge _, ReplyUnit (Done _) => ∅
  | _, _ => w
  end.

Fixpoint record_writes (h : list (CacheOp (V := V) * Time * Time)) (rs : list (CacheReply (V := V)))
    (w : Writes) : Writes :=
  match h, rs with
  | (op, now, _) :: h', r :: rs' => record_writes h' rs' (record_write op now r w)
  | _, _ => w
  end.

(** The store only holds last writes. *)
Definition faithful (s : Store) (w : Writes) : Prop :=
  ∀ k e, st_values s !! k = Some e →
    ∃ dl, w !! k = Some (en_data e, dl) ∧ ∀ t, dl = Some t → en_expiresAt e = t.

Lemma faithful_sub s s' w : st_values s' ⊆ st_values s → faithful s w → faithful s' w.
Proof. intros Hs Hf k e Hk. apply Hf. by eapply lookup_weaken. Qed.

Lemma unexpired_sub now k s : st_values (unexpired now k s) ⊆ st_values s.
Proof.
  unfold unexpired, remove_if. destruct (st_values s !! k) as [e|]; [|done].
  destruct (entry_expired _ _); [|done]. unfold removeLocked.
  destruct (en_counter e); cbn; apply delete_subseteq.
Qed.

Lemma faithful_insert s s' w k data dl e :
  en_data e = data → (∀ t, dl = Some t → en_expiresAt e = t) → faithful s w →
  (∀ k' e', st_values s' !! k' = Some e' → (k' = k ∧ e' = e) ∨ (k' ≠ k ∧ st_values s !! k' = Some e')) →
  faithful s' (<[k := (data, dl)]> w).
Proof.
  intros <- Ht Hf Hs k' e' [[-> ->]|[Hne Hk']]%Hs.
  - exists dl. by rewrite lookup_insert_eq.
  - rewrite lookup_insert_ne by done. by apply Hf.
Qed.

Lemma faithful_step op now now' s s' r w :
  store_ok cf s → faithful s w → run_cache_op codec cf op now now' s = (s', r) →
  faithful s' (record_write op now r w).
Proof.
  intros Hs Hf H. destruct op as [ctx k|ctx k v o|ctx k|ctx k d o|ctx]; cbn [run_cache_op] in H.
  - destruct (Get codec ctx now k s) as [s1 r1] eqn:E. injection H as <- <-. cbn.
    pose proof (unexpired_sub now k s).
    apply Get_state in E as [-> |[-> |(e & _ & _ & ->)]]; [done|by eapply faithful_sub..].
  - destruct (Set_ codec cf ctx now now' k v o s) as [s1 r1] eqn:E. injection H as <- <-. cbn.
    pose proof (unexpired_sub now k s) as Hsub.
    apply Set_cases in E as [[-> [e ->]]|[[-> [e ->]]|(ttl & data & Httl & Henc & _ & -> & ->)]];
      [done|by eapply faithful_sub|]. rewrite Henc.
    pose proof (remove_if_ok cf (λ e, entry_expired (en_expiresAt e) now) k s Hs) as H1.
    fold (unexpired now k s) in H1.
    destruct (set_write_inv k data (if 0 <? ttl then Time_Add now ttl else zeroTime) _ (ok_inv _ _ H1)
      cf now' cf_valid (ok_counters _ _ H1)) as (_ & _ & Hv). cbv zeta in Hv.
    eapply faithful_insert; [| |exact (faithful_sub _ _ _ Hsub Hf)|exact Hv]; [done|].
    unfold set_deadline. rewrite Httl. by intros t [= <-].
  - unfold Delete in H. destruct ctx; [by injection H as <- <-|].
    destruct (ValidateKey k); [by injection H as <- <-|]. injection H as <- <-. cbn.
    intros k' e' Hk'. unfold remove_if, removeLocked in Hk'.
    destruct (st_values s !! k) as [e|] eqn:E; [destruct (en_counter e); cbn in Hk'|].
    1, 2: apply lookup_delete_Some in Hk' as [Hne Hk']; rewrite lookup_delete_ne by done; by apply Hf.
    rewrite lookup_delete_ne by (intros ->; congruence). by apply Hf.
  - destruct (Add cf ctx now k d o s) as [s1 r1] eqn:E. injection H as <- <-. cbn.
    pose proof (unexpired_sub now k s) as Hsub.
    pose proof (remove_if_inv (λ e, entry_expired (en_expiresAt e) now) k s (ok_inv _ _ Hs)) as H1.
    fold (unexpired now k s) in H1. destruct (expireCounters_ok now _ H1) as [Hx _].
    pose proof (ex_values _ _ _ Hx) as Hsub'.
    apply Add_cases in E as [[-> [e ->]]|[[-> [e ->]]|[(-> & _ & _ & ->)|
      (current & ttl & _ & _ & -> & Hw)]]]; [done|by eapply faithful_sub| |].
    { eapply faithful_sub; [|exact Hf]. by etrans. }
    destruct Hw as [(item & Hit & Hc & ->)|(Hnc & _ & ->)];
      (eapply faithful_insert; [| |exact (faithful_sub _ _ _ Hsub Hf)|]; [| |
         intros k' e'; rewrite add_write_values;
           [|done || by apply not_counter_kept|intros; by apply add_expiry_kept];
         destruct (decide (k' = k)) as [->|Hne]; [intros [= <-]; left; split; [done|reflexivity]|
           intros Hk'; right; split; [done|done || by eapply lookup_weaken]]]); done.
  - unfold Purge in H. destruct ctx; injection H as <- <-; [done|]. cbn. by intros k e ?.
Qed.

Lemma faithful_run h s w :
  store_ok cf s → faithful s w →
  let '(s', rs) := run_cache codec cf h s in faithful s' (record_writes h rs w).
Proof.
  revert s w. induction h as [|[[op now] now'] h IH]; intros s w Hs Hf; [done|].
  cbn [run_cache]. pose proof (run_cache_op_ok op now now' s Hs) as H1.
  destruct (run_cache_op codec cf op now now' s) as [s1 r] eqn:E.
  pose proof (faithful_step op now now' s s1 r w Hs Hf E) as Hf1. specialize (IH s1 _ H1 Hf1).
  by destruct (run_cache codec cf h s1) as [s2 rs].
Qed.

(** A [Get] that returns a value found it live. *)
Lemma Get_done ctx now k s s' v :
  Get codec ctx now k s = (s', Done v) →
  ∃ e, st_values s !! k = Some e ∧ entry_expired (en_expiresAt e) now = false ∧
       Decode codec (en_data e) = inl v.
Proof.
  unfold Get. fold (unexpired now k s). intros H. destruct ctx; [done|].
  destruct (ValidateKey k); [done|]. cbv zeta in H.
  destruct (st_values (unexpired now k s) !! k) as [e|] eqn:E; [|done].
  exists e. unfold unexpired, remove_if in E. destruct (st_values s !! k) as [e'|] eqn:E'.
  2: congruence.
  destruct (entry_expired (en_expiresAt e') now) eqn:Ee.
  { rewrite removeLocked_lookup in E. done. }
  rewrite E' in E. injection E as ->. split_and!; [done|done|].
  by destruct (Decode codec (en_data e)); [injection H as _ ->|].
Qed.

(** A reader never sees a stale value: after any operations, a [Get] that
    succeeds returns the decoding of the last acknowledged write of its key, not
    deleted or purged since, and never past the deadline that write set. *)
Theorem cache_never_stale h ctx now k v s' :
  Get codec ctx now k (fst (run_cache codec cf h emptyStore)) = (s', Done v) →
  ∃ data dl,
    record_writes h (snd (run_cache codec cf h emptyStore)) ∅ !! k = Some (data, dl) ∧
    Decode codec data = inl v ∧ ∀ t, dl = Some t → entry_expired t now = false.
Proof.
  intros (e & Hk & He & Hd)%Get_done.
  assert (Hs : store_ok cf emptyStore).
  { apply emptyStore_ok, cf_valid. }
  pose proof (faithful_run h emptyStore ∅ Hs) as Hf.
  destruct (run_cache codec cf h emptyStore) as [s rs]. cbn in *.
  destruct (Hf ltac:(by intros ? ? ?) k e Hk) as (dl & Hw & Ht).
  exists (en_data e), dl. split_and!; [done|done|]. intros t E. by rewrite <-(Ht t E).
Qed.

(** *** The most recent value survives eviction *)

Definition newest (k : string) (e : entry) (s : Store) : Prop :=
  store_inv s ∧ head (st_recency s) = Some k ∧ st_values s !! k = Some e.

Lemma newest_remove c k e k' s :
  newest k e s → (k' = k → c e = false) → newest k e (remove_if c k' s).
Proof.
  intros (Hi & Hh & Hk) Hc. split; [by apply remove_if_inv|]. unfold remove_if.
  destruct (st_values s !! k') as [e'|] eqn:E; [|done]. destruct (c e') eqn:Ec; [|done].
  assert (Hne : k' ≠ k). { intros ->. assert (e' = e) by congruence. subst. by rewrite Hc in Ec. }
  unfold removeLocked. destruct (en_counter e'); cbn; rewrite lookup_delete_ne by done; [done|].
  split; [|done]. destruct (st_recency s) as [|x l]; [done|]. injection Hh as ->.
  unfold remove_key. by rewrite filter_cons_True.
Qed.

Lemma newest_within k e s :
  newest k e s → last (st_recency s) = Some k → len k + len (en_data e) ≤ cf_MaxBytes cf →
  over_limit cf s = false.
Proof.
  intros (Hi & Hh & Hk) Hl Hb. apply over_limit_ok; [done|]. rewrite (si_bytes s Hi).
  pose proof (si_recency_nodup s Hi) as Hn. destruct (st_recency s) as [|x l]; [done|].
  injection Hh as ->. apply NoDup_cons in Hn as [Hx _]. destruct l as [|y l].
  - rewrite weights_cons. unfold weight. rewrite Hk. change (weights (st_values s) []) with 0.
    pose proof (proj1 (Config_validate_spec cf) cf_valid). cbn. lia.
  - exfalso. apply Hx. rewrite last_cons_cons in Hl. apply last_Some in Hl as [l' ->]. set_solver.
Qed.

Lemma newest_evict now k e s :
  newest k e s → entry_expired (en_expiresAt e) now = false →
  len k + len (en_data e) ≤ cf_MaxBytes cf → st_values (evictLocked cf now s) !! k = Some e.
Proof.
  intros Hs He Hb. unfold evictLocked. destruct (negb (over_limit cf s)); [apply Hs|].
  assert (H1 : ∀ l, newest k e (foldr (remove_if (λ e, entry_expired (en_expiresAt e) now)) s l)).
  { induction l as [|k' l IH]; [done|]. cbn. by apply newest_remove. }
  specialize (H1 (st_recency s)). revert H1. generalize (foldr (remove_if
    (λ e, entry_expired (en_expiresAt e) now)) s (st_recency s)) as s1. intros s1 H1.
  assert (H2 : ∀ fuel s2, newest k e s2 → newest k e (evict_oldest fuel cf s2)).
  { induction fuel as [|fuel IH]; intros s2 H2; [done|]. cbn.
    destruct (over_limit cf s2) eqn:Ho; [|done].
    destruct (last (st_recency s2)) as [k'|] eqn:El; [|done]. apply IH, newest_remove; [done|].
    intros ->. by rewrite (newest_within k e s2) in Ho. }
  by apply H2.
Qed.

Lemma set_write_newest now' k data t s :
  store_inv s → entry_expired t now' = false → len k + len data ≤ cf_MaxBytes cf →
  st_values (set_write cf now' k data t (st_values s !! k) s) !! k = Some (mkEntry data t false).
Proof.
  intros Hs He Hb.
  assert (Hgen : ∀ s1, store_inv s1 → st_values s1 !! k = None →
    st_values (evictLocked cf now' (s1 <| st_recency := k :: st_recency s1 |>
               <| st_values := <[k := mkEntry data t false]> (st_values s1) |>
               <| st_retainedBytes := st_retainedBytes s1 + (len k + len data) |>)) !! k =
    Some (mkEntry data t false)).
  { intros s1 Hs1 Hk1. apply newest_evict; [|done|done].
    split; [by apply push_value_inv|]. cbn. by rewrite lookup_insert_eq. }
  unfold set_write. destruct (st_values s !! k) as [e|] eqn:E; [|by apply Hgen].
  destruct (en_counter e) eqn:Ec; [|rewrite (replace_value_eq s k e) by done];
    apply Hgen; by apply removeLocked_inv || apply removeLocked_lookup.
Qed.

(** A writer reads its own write: right after a [Set] that succeeded, a [Get] of
    the key returns the value, whatever the store had to evict to make room,
    provided the codec decodes what it encoded and the deadline has passed neither
    when the eviction nor when the [Get] reads the clock. *)
Theorem cache_read_your_write ctx now now' now'' k v o s s1 data :
  store_ok cf s → Set_ codec cf ctx now now' k v o s = (s1, Done tt) →
  Encode codec v = inl data → Decode codec data = inl v →
  entry_expired (set_deadline now o) now' = false → entry_expired (set_deadline now o) now'' = false →
  snd (Get codec None now'' k s1) = Done v.
Proof.
  intros Hs H Henc Hdec H1 H2.
  assert (Hkey : ValidateKey k = None).
  { unfold Set_ in H. destruct ctx; [done|]. by destruct (ValidateKey k). }
  apply Set_cases in H as [[_ [e He]]|[[_ [e He]]|(ttl & data' & Httl & Henc' & Hb & _ & ->)]]; try done.
  assert (data' = data) as -> by congruence. unfold set_deadline in H1, H2. rewrite Httl in H1, H2.
  pose proof (remove_if_inv (λ e, entry_expired (en_expiresAt e) now) k s (ok_inv _ _ Hs)) as Hi.
  fold (unexpired now k s) in Hi.
  pose proof (set_write_newest now' k data _ _ Hi H1 Hb) as Hk. clear Hi.
  revert Hk. generalize (set_write cf now' k data (if 0 <? ttl then Time_Add now ttl else zeroTime)
    (st_values (unexpired now k s) !! k) (unexpired now k s)) as s2. intros s2 Hk.
  unfold Get. rewrite Hkey. cbv zeta. unfold remove_if. rewrite Hk. cbn [en_expiresAt]. rewrite H2, Hk.
  cbn [en_counter negb en_data]. by rewrite Hdec.
Qed.
End correctness.

(** ** Samples *)

(** Strings that encode as themselves, in a store of one value and two counters. *)
Definition text_codec : Codec string := mkCodec string inl inl.
Definition sample_config : Config := mkConfig 1 64 2.
Definition window_end : Time := at_second 160.
Definition sample_flood : list (CacheOp (V := string) * Time * Time) :=
  [(OpSet None "a" "first" (mkSetOptions 0 SetAlways), at_second 101, at_second 101);
   (OpAdd None "login" 1 (mkCounterOptions (60 * Second)), at_second 102, at_second 102);
   (OpSet None "b" "second" (mkSetOptions 0 SetAlways), at_second 103, at_second 103);
   (OpAdd None "other" 5 (mkCounterOptions 0), at_second 104, at_second 104);
   (OpAdd None "third" 1 (mkCounterOptions 0), at_second 105, at_second 105);
   (OpAdd None "login" 1 (mkCounterOptions (60 * Second)), at_second 106, at_second 106)].
Definition sample_counted : Store :=
  fst (Add sample_config None (at_second 100) "login" 3 (mkCounterOptions (60 * Second)) emptyStore).

Lemma cache_bounded_witness :
  store_ok sample_config (fst (run_cache text_codec sample_config sample_flood emptyStore)).
Proof.
  apply (cache_bounded text_codec sample_config ltac:(vm_compute; reflexivity) [sample_config]).
  vm_compute. reflexivity.
Defined.

Lemma sample_counted_ok : store_ok sample_config sample_counted.
Proof.
  unfold sample_counted. eapply Add_ok; [|apply surjective_pairing].
  split; cbn; [apply emptyStore_inv|lia..].
Qed.

Lemma cache_counter_window_witness :
  let '(s', rs) := run_cache text_codec sample_config sample_flood sample_counted in
  let '(reported, final) := window "login" 3 sample_flood rs in
  reported ∧ holds_counter s' "login" final window_end.
Proof.
  apply (cache_counter_window text_codec sample_config).
  - vm_compute. reflexivity.
  - apply sample_counted_ok.
  - done.
  - done.
  - vm_compute. reflexivity.
  - repeat (apply Forall_cons_2; [split; [|done]; cbv [spares];
      done || (unfold in_int64, int64_min, int64_max; lia)|]).
    by apply Forall_nil_2.
Defined.

(** The two later attempts were counted on the three before: the total is 5. *)
Example sample_window_total :
  snd (window "login" 3 sample_flood
         (snd (run_cache text_codec sample_config sample_flood sample_counted))) = 5.
Proof. vm_compute. reflexivity. Qed.

Lemma cache_never_stale_witness :
  ∃ data dl,
    record_writes text_codec sample_flood
      (snd (run_cache text_codec sample_config sample_flood emptyStore)) ∅ !! "b" = Some (data, dl) ∧
    Decode text_codec data = inl "second" ∧ ∀ t, dl = Some t → entry_expired t (at_second 110) = false.
Proof.
  eapply (cache_never_stale text_codec sample_config ltac:(vm_compute; reflexivity) sample_flood None
    (at_second 110) "b" "second").
  vm_compute. reflexivity.
Defined.

Lemma cache_read_your_write_witness :
  snd (Get text_codec None (at_second 111) "c"
         (fst (Set_ text_codec sample_config None (at_second 110) (at_second 110) "c" "new"
                 (mkSetOptions (60 * Second) SetAlways) sample_counted))) = Done "new".
Proof.
  apply (cache_read_your_write text_codec sample_config ltac:(vm_compute; reflexivity) None
    (at_second 110) (at_second 110) (at_second 111) "c" "new" (mkSetOptions (60 * Second) SetAlways)
    sample_counted _ "new").
  - apply sample_counted_ok.
  - vm_compute. reflexivity.
  - reflexivity.
  - reflexivity.
  - vm_compute. reflexivity.
  - vm_compute. reflexivity.
Defined.
