(* ===== verification/ExamPolicy.v ===== *)
(** * Exam policies

    Models the typed policy set of [server/model/exam_policy.go] and the native
    security policy of [server/model/native_policy.go]: their validation and their
    defaults.  Their JSON codecs are not modelled. *)

From S2P Require Import Prelude GoTime GoStrings ModelError.

(** ** Native families *)

Definition errNativePolicy : error := SentinelError "native policy is invalid".

Definition NativeRegistryDigest : string :=
  "sha256:79faa1141236b073dff2ff802ce67abce3082417a7a4fa2954615e4226acd1e0".

Inductive NativeMode :=
  | NativeModeDisabled
  | NativeModeObserve
  | NativeModeEnforce
  | NativeMode_other (raw : string).
#[global] Instance NativeMode_eq_dec : EqDecision NativeMode.
Proof. solve_decision. Defined.
Definition NativeMode_IsValid (m : NativeMode) : bool :=
  (m ==? NativeModeDisabled) || (m ==? NativeModeObserve) || (m ==? NativeModeEnforce).

Definition NativeFamilies : list string :=
  ["process_application"; "interactive_session"; "clipboard"; "printing"; "removable_storage";
   "virtualization"; "network_configuration"; "camera"; "microphone"; "external_capture"].

(** [nativeFamilyFields]; a nil slice is [None]. *)
Record NativeFamilyPolicy := mkNativeFamilyPolicy {
  nf_ID : string;
  nf_Mode : NativeMode;
  nf_AllowedApplicationIDs : option (list string);
  nf_Strategy : string;
  nf_ObserveOSClipboardChanges : bool;
  nf_CandidatePrintCommands : string;
  nf_MonitoredSpooler : string;
  nf_EnabledSubCapabilities : option (list string);
  nf_AllowedStorageFunctionClassIDs : option (list string);
  nf_Rule : string;
  nf_AllowedManagedProfileIDs : option (list string);
  nf_AllowedAdapterClassIDs : option (list string);
  nf_AllowedTunnelClassIDs : option (list string);
  nf_RequireReady : bool;
  nf_ConcurrentUseCheck : string }.
#[global] Instance NativeFamilyPolicy_eta : Eta NativeFamilyPolicy := λ r,
  mkNativeFamilyPolicy (nf_ID r) (nf_Mode r) (nf_AllowedApplicationIDs r) (nf_Strategy r)
    (nf_ObserveOSClipboardChanges r) (nf_CandidatePrintCommands r) (nf_MonitoredSpooler r)
    (nf_EnabledSubCapabilities r) (nf_AllowedStorageFunctionClassIDs r) (nf_Rule r)
    (nf_AllowedManagedProfileIDs r) (nf_AllowedAdapterClassIDs r) (nf_AllowedTunnelClassIDs r)
    (nf_RequireReady r) (nf_ConcurrentUseCheck r).

(** [len(x)] of a possibly nil slice. *)
Definition slice_len (l : option (list string)) : Z := Z.of_nat (length (default [] l)).

Fixpoint ids_strictly_ascend (previous : string) (ids : list string) : bool :=
  match ids with
  | [] => true
  | id :: ids' =>
      if negb (IsValidAgreementID id) || negb (Compare previous id ==? Lt) then false
      else ids_strictly_ascend id ids'
  end.

Definition validateNativePolicyIDs (ids : option (list string)) : bool :=
  match ids with
  | None => false
  | Some l => if 256 <? slice_len ids then false else ids_strictly_ascend "" l
  end.

(** The loop of [validateNativePolicySelection]: each allowed and not repeated. *)
Fixpoint selection_ok (seen ids allowed : list string) : bool :=
  match ids with
  | [] => true
  | id :: ids' =>
      if negb (bool_decide (id ∈ allowed)) || bool_decide (id ∈ seen) then false
      else selection_ok (seen ++ [id]) ids' allowed
  end.

Definition validateNativePolicySelection (ids : option (list string)) (allowed : list string)
    (disabled : bool) : bool :=
  match ids with
  | None => false
  | Some l =>
      if (Z.of_nat (length allowed) <? slice_len ids) || (disabled && (slice_len ids !=? 0))
         || (negb disabled && (slice_len ids ==? 0)) then false
      else selection_ok [] l allowed
  end.

(** [NativeFamilyPolicy.Validate], as its only error is [errNativePolicy]. *)
Definition NativeFamilyPolicy_valid (f : NativeFamilyPolicy) : bool :=
  if negb (NativeMode_IsValid (nf_Mode f)) then false else
  let disabled := nf_Mode f ==? NativeModeDisabled in
  if nf_ID f ==? "process_application" then
    validateNativePolicyIDs (nf_AllowedApplicationIDs f)
    && negb (disabled && (slice_len (nf_AllowedApplicationIDs f) !=? 0))
  else if nf_ID f ==? "interactive_session" then true
  else if nf_ID f ==? "clipboard" then
    match nf_Mode f with
    | NativeModeDisabled => (nf_Strategy f ==? "disabled") && negb (nf_ObserveOSClipboardChanges f)
    | NativeModeObserve => (nf_Strategy f ==? "disabled") && nf_ObserveOSClipboardChanges f
    | NativeModeEnforce => nf_Strategy f ==? "private_attempt"
    | NativeMode_other _ => true
    end
  else if nf_ID f ==? "printing" then
    if (nf_MonitoredSpooler f !=? "required") && (nf_MonitoredSpooler f !=? "not_required") then false
    else match nf_Mode f with
    | NativeModeDisabled => (nf_CandidatePrintCommands f ==? "not_applied")
                            && (nf_MonitoredSpooler f ==? "not_required")
    | NativeModeObserve => (nf_CandidatePrintCommands f ==? "not_applied")
                           && (nf_MonitoredSpooler f ==? "required")
    | NativeModeEnforce => nf_CandidatePrintCommands f ==? "deny"
    | NativeMode_other _ => true
    end
  else if nf_ID f ==? "removable_storage" then
    validateNativePolicySelection (nf_EnabledSubCapabilities f)
      ["removable_block_storage"; "portable_mtp"] disabled
    && validateNativePolicyIDs (nf_AllowedStorageFunctionClassIDs f)
    && negb (disabled && (slice_len (nf_AllowedStorageFunctionClassIDs f) !=? 0))
  else if nf_ID f ==? "virtualization" then
    negb (disabled && (nf_Rule f !=? "not_applied")
          || negb disabled && (nf_Rule f !=? "block_recognized_guest")
             && (nf_Rule f !=? "require_certified_physical_environment"))
  else if nf_ID f ==? "network_configuration" then
    validateNativePolicySelection (nf_EnabledSubCapabilities f)
      ["system_proxy_state"; "os_managed_vpn_state"; "tunnel_interface_state"; "route_change";
       "network_source_health"] disabled
    && validateNativePolicyIDs (nf_AllowedManagedProfileIDs f)
    && validateNativePolicyIDs (nf_AllowedAdapterClassIDs f)
    && validateNativePolicyIDs (nf_AllowedTunnelClassIDs f)
    && negb (disabled && ((slice_len (nf_AllowedManagedProfileIDs f) !=? 0)
                          || (slice_len (nf_AllowedAdapterClassIDs f) !=? 0)
                          || (slice_len (nf_AllowedTunnelClassIDs f) !=? 0)))
  else if (nf_ID f ==? "camera") || (nf_ID f ==? "microphone") then
    negb ((nf_ConcurrentUseCheck f !=? "not_required")
            && (nf_ConcurrentUseCheck f !=? "supported_required")
          || disabled && (nf_RequireReady f || (nf_ConcurrentUseCheck f !=? "not_required"))
          || negb disabled && negb (nf_RequireReady f) && (nf_ConcurrentUseCheck f ==? "not_required"))
  else if nf_ID f ==? "external_capture" then disabled
  else false.

(** ** The native security policy *)

Record NativeSecurityPolicy := mkNativeSecurityPolicy {
  ns_RegistryDigest : string;
  ns_BaselineID : string;
  ns_Families : list NativeFamilyPolicy }.

Definition disabled_family (id : string) : NativeFamilyPolicy :=
  let f := mkNativeFamilyPolicy id NativeModeDisabled None "" false "" "" None None "" None None None
             false "" in
  if id ==? "process_application" then f <| nf_AllowedApplicationIDs := Some [] |>
  else if id ==? "clipboard" then f <| nf_Strategy := "disabled" |>
  else if id ==? "printing" then
    f <| nf_CandidatePrintCommands := "not_applied" |> <| nf_MonitoredSpooler := "not_required" |>
  else if id ==? "removable_storage" then
    f <| nf_EnabledSubCapabilities := Some [] |> <| nf_AllowedStorageFunctionClassIDs := Some [] |>
  else if id ==? "virtualization" then f <| nf_Rule := "not_applied" |>
  else if id ==? "network_configuration" then
    f <| nf_EnabledSubCapabilities := Some [] |> <| nf_AllowedManagedProfileIDs := Some [] |>
      <| nf_AllowedAdapterClassIDs := Some [] |> <| nf_AllowedTunnelClassIDs := Some [] |>
  else if (id ==? "camera") || (id ==? "microphone") then
    f <| nf_ConcurrentUseCheck := "not_required" |>
  else f.

Definition DefaultNativeSecurityPolicy : NativeSecurityPolicy :=
  mkNativeSecurityPolicy NativeRegistryDigest "desktop_candidate" (disabled_family <$> NativeFamilies).

Definition NativeSecurityPolicy_valid (p : NativeSecurityPolicy) : bool :=
  if (ns_RegistryDigest p !=? NativeRegistryDigest) || (ns_BaselineID p !=? "desktop_candidate")
     || (Z.of_nat (length (ns_Families p)) !=? Z.of_nat (length NativeFamilies)) then false
  else forallb (λ '(id, f), (nf_ID f ==? id) && NativeFamilyPolicy_valid f)
         (zip NativeFamilies (ns_Families p)).

(** ** Exam policy sets *)

Inductive IntegrityThresholdOutcome :=
  | IntegrityOutcomeFlag
  | IntegrityOutcomeFlagAndWarn
  | IntegrityOutcomeFlagAndSuspend
  | IntegrityOutcome_other (raw : string).
#[global] Instance IntegrityThresholdOutcome_eq_dec : EqDecision IntegrityThresholdOutcome.
Proof. solve_decision. Defined.
(** The zero value of the outcome. *)
Definition noOutcome : IntegrityThresholdOutcome := IntegrityOutcome_other "".

Record FocusLossPolicy := mkFocusLossPolicy {
  fp_Enabled : bool;
  fp_MinimumDuration : Z;
  fp_IncidentCount : Z;
  fp_Window : Z;
  fp_Outcome : IntegrityThresholdOutcome }.

Definition ExamPolicySchemaVersion : Z := 1.

Record ExamPolicySet := mkExamPolicySet {
  ps_SchemaVersion : Z;
  ps_ConnectionLossOutcome : IntegrityThresholdOutcome;
  ps_FocusLoss : FocusLossPolicy;
  ps_Native : NativeSecurityPolicy }.
#[global] Instance ExamPolicySet_eta : Eta ExamPolicySet := λ r,
  mkExamPolicySet (ps_SchemaVersion r) (ps_ConnectionLossOutcome r) (ps_FocusLoss r) (ps_Native r).

Definition DefaultExamPolicySet : ExamPolicySet :=
  mkExamPolicySet ExamPolicySchemaVersion IntegrityOutcomeFlagAndSuspend
    (mkFocusLossPolicy true (2 * Second) 3 (5 * Minute) IntegrityOutcomeFlagAndWarn)
    DefaultNativeSecurityPolicy.

Definition ps_error (reason : string) : error := invalidModelError "exam_policy_set" "" reason "".

Definition ExamPolicySet_Validate (p : ExamPolicySet) : result unit :=
  let f := ps_FocusLoss p in
  fail_if negb (NativeSecurityPolicy_valid (ps_Native p)) with errNativePolicy ;;
  fail_if (Z.rem (fp_MinimumDuration f) Millisecond !=? 0) || (Z.rem (fp_Window f) Millisecond !=? 0)
    with ps_error "focus loss durations require whole milliseconds" ;;
  fail_if ps_SchemaVersion p !=? ExamPolicySchemaVersion
    with ps_error ("unsupported exam policy schema version " +:+ FormatInt (ps_SchemaVersion p)) ;;
  fail_if ps_ConnectionLossOutcome p !=? IntegrityOutcomeFlagAndSuspend
    with ps_error "connection loss must flag and suspend" ;;
  fail_if (fp_MinimumDuration f <? 500 * Millisecond) || (5 * Minute <? fp_MinimumDuration f)
    with ps_error "focus loss minimum duration is out of bounds" ;;
  fail_if (fp_IncidentCount f <? 1) || (100 <? fp_IncidentCount f)
    with ps_error "focus loss incident count is out of bounds" ;;
  fail_if (fp_Window f <? 10 * Second) || (4 * Hour <? fp_Window f)
          || (fp_Window f <? fp_MinimumDuration f)
    with ps_error "focus loss window is out of bounds" ;;
  match fp_Outcome f with
  | IntegrityOutcome_other _ => Err (ps_error "focus loss outcome is invalid")
  | _ => Ok tt
  end.
#[global] Arguments ExamPolicySet_Validate : simpl never.

(** [FocusLossPolicy.Validate]: the policy inside the default set. *)
Definition FocusLossPolicy_Validate (p : FocusLossPolicy) : result unit :=
  ExamPolicySet_Validate (DefaultExamPolicySet <| ps_FocusLoss := p |>).

(** ** Facts *)

Lemma DefaultNativeSecurityPolicy_valid :
  NativeSecurityPolicy_valid DefaultNativeSecurityPolicy = true.
Proof. vm_compute. reflexivity. Qed.

Definition good_focus_policy (p : FocusLossPolicy) : Prop :=
  Z.rem (fp_MinimumDuration p) Millisecond = 0 ∧ Z.rem (fp_Window p) Millisecond = 0 ∧
  500 * Millisecond ≤ fp_MinimumDuration p ≤ 5 * Minute ∧ 1 ≤ fp_IncidentCount p ≤ 100 ∧
  10 * Second ≤ fp_Window p ≤ 4 * Hour ∧ fp_MinimumDuration p ≤ fp_Window p ∧
  (fp_Outcome p = IntegrityOutcomeFlag ∨ fp_Outcome p = IntegrityOutcomeFlagAndWarn ∨
   fp_Outcome p = IntegrityOutcomeFlagAndSuspend).

Lemma FocusLossPolicy_Validate_spec p : FocusLossPolicy_Validate p = Ok tt ↔ good_focus_policy p.
Proof.
  unfold FocusLossPolicy_Validate, ExamPolicySet_Validate, good_focus_policy.
  rewrite !ok_fail_if. cbn [ps_Native ps_FocusLoss ps_SchemaVersion ps_ConnectionLossOutcome update].
  change (ps_Native DefaultExamPolicySet) with DefaultNativeSecurityPolicy.
  rewrite DefaultNativeSecurityPolicy_valid. cbn [negb].
  change (ps_SchemaVersion DefaultExamPolicySet) with ExamPolicySchemaVersion.
  change (ps_ConnectionLossOutcome DefaultExamPolicySet) with IntegrityOutcomeFlagAndSuspend.
  rewrite (bool_decide_true (ExamPolicySchemaVersion = _)), (bool_decide_true
    (IntegrityOutcomeFlagAndSuspend = _)) by done. cbn [negb]. rewrite !orb_false_iff, !negb_false_iff,
    !bool_decide_eq_true, !Z.ltb_ge.
  assert (Ho : match fp_Outcome p with
      | IntegrityOutcome_other _ => Err (ps_error "focus loss outcome is invalid")
      | _ => Ok tt end = Ok tt ↔
    fp_Outcome p = IntegrityOutcomeFlag ∨ fp_Outcome p = IntegrityOutcomeFlagAndWarn ∨
    fp_Outcome p = IntegrityOutcomeFlagAndSuspend) by (destruct (fp_Outcome p); naive_solver).
  rewrite Ho. naive_solver.
Qed.
