(* ===== verification/FocusLoss.v ===== *)
(** * Focus Loss

    Models [server/model/focus_loss.go] (signals, the policy evaluation, evidence
    overflow; the suspension it selects is in [AttemptAggregate]) and the part of
    [server/store/sqlstore/exam_attempt_focus_loss_store.go] that feeds it: the
    transaction that keeps the rolling window of pending signals, asks for a
    decision and applies it.  A table is the list of its rows for one Attempt and
    generation; the statements of a transaction run in order. *)

From S2P Require Import Prelude GoTime GoStrings Ident ModelError ExamPolicy.

Definition FocusLossMaximumDurationMilliseconds : Z := 24 * Hour / Millisecond.
Definition FocusLossMaximumEvidenceEpisodes : Z := 100.

(** ** Signals *)

Inductive FocusLossSource :=
  | FocusLossSourceNone
  | FocusLossSourceWindowBlur
  | FocusLossSourceDocumentHidden
  | FocusLossSourceApplicationBackgrounded
  | FocusLossSourceFullscreenExited
  | FocusLossSource_other (raw : string).
#[global] Instance FocusLossSource_eq_dec : EqDecision FocusLossSource.
Proof. solve_decision. Defined.
Definition FocusLossSource_IsValid (s : FocusLossSource) : bool :=
  match s with FocusLossSource_other _ => false | _ => true end.

Record FocusLossSignal := mkFocusLossSignal {
  fl_ID : ID;
  fl_AttemptID : ID;
  fl_ParticipationID : ID;
  fl_Generation : Z;
  fl_Sequence : Z;
  fl_DurationMilliseconds : Z;
  fl_Source : FocusLossSource;
  fl_ReceivedAt : Time }.

Definition FocusLossSignal_Validate (p : option FocusLossSignal) : result unit :=
  let bad := invalidModelError "focus_loss_signal" "" "invalid Focus Loss signal" "" in
  match p with
  | None => Err bad
  | Some s =>
      fail_if negb (ID_IsValid (fl_ID s)) || negb (ID_IsValid (fl_AttemptID s))
              || negb (ID_IsValid (fl_ParticipationID s)) || (fl_Generation s <? 1)
              || (fl_Sequence s <? 1) || (fl_DurationMilliseconds s <? 1)
              || (FocusLossMaximumDurationMilliseconds <? fl_DurationMilliseconds s)
              || negb (FocusLossSource_IsValid (fl_Source s)) || Time_IsZero (fl_ReceivedAt s)
        with bad ;;
      Ok tt
  end.
#[global] Arguments FocusLossSignal_Validate : simpl never.

Definition NewFocusLossSignal (id attemptID participationID : ID)
    (generation sequence durationMilliseconds : Z) (source : FocusLossSource) (receivedAt : Time)
    : result FocusLossSignal :=
  let signal := mkFocusLossSignal id attemptID participationID generation sequence
    durationMilliseconds source (TimeUTC receivedAt) in
  _ ← FocusLossSignal_Validate (Some signal);
  Ok signal.

Definition FocusLossSignal_Qualifies (p : option FocusLossSignal) (policy : FocusLossPolicy) : bool :=
  match p with
  | None => false
  | Some s => is_ok (FocusLossSignal_Validate p) && is_ok (FocusLossPolicy_Validate policy)
              && fp_Enabled policy
              && (fp_MinimumDuration policy <=? fl_DurationMilliseconds s * Millisecond)
  end.

Definition FocusLossSignal_SameClaim (p : option FocusLossSignal) (other : FocusLossSignal) : bool :=
  match p with
  | None => false
  | Some s => (fl_AttemptID s ==? fl_AttemptID other)
              && (fl_ParticipationID s ==? fl_ParticipationID other)
              && (fl_Generation s ==? fl_Generation other) && (fl_Sequence s ==? fl_Sequence other)
              && (fl_DurationMilliseconds s ==? fl_DurationMilliseconds other)
              && (fl_Source s ==? fl_Source other)
  end.

(** ** Evaluation *)

Record FocusLossEvaluationState := mkEvaluationState {
  ev_AcceptedSequence : Z;
  ev_WindowIncidentCount : Z;
  ev_UnresolvedMissingCount : Z;
  ev_DiagnosticCount : Z;
  ev_HasOpenFlag : bool;
  ev_CandidateWarningCreated : bool }.

Record FocusLossEvaluationDecision := mkDecision {
  fd_CollectionEnabled : bool;
  fd_Qualified : bool;
  fd_MissingBefore : Z;
  fd_UnresolvedMissingCount : Z;
  fd_DiagnosticCount : Z;
  fd_WindowIncidentCount : Z;
  fd_ThresholdCrossed : bool;
  fd_ConsumeWindow : bool;
  fd_PolicyOutcome : IntegrityThresholdOutcome;
  fd_CreateFlag : bool;
  fd_CreateCandidateWarning : bool;
  fd_NotifyManagers : bool;
  fd_Suspend : bool }.
#[global] Instance FocusLossEvaluationDecision_eta : Eta FocusLossEvaluationDecision := λ r,
  mkDecision (fd_CollectionEnabled r) (fd_Qualified r) (fd_MissingBefore r)
    (fd_UnresolvedMissingCount r) (fd_DiagnosticCount r) (fd_WindowIncidentCount r)
    (fd_ThresholdCrossed r) (fd_ConsumeWindow r) (fd_PolicyOutcome r) (fd_CreateFlag r)
    (fd_CreateCandidateWarning r) (fd_NotifyManagers r) (fd_Suspend r).

Record FocusLossEvaluation := mkEvaluation {
  fe_policy : FocusLossPolicy;
  fe_signal : FocusLossSignal;
  fe_qualified : bool }.

Definition NewFocusLossEvaluation (policy : FocusLossPolicy) (signal : FocusLossSignal)
    : result FocusLossEvaluation :=
  _ ← FocusLossPolicy_Validate policy;
  _ ← FocusLossSignal_Validate (Some signal);
  Ok (mkEvaluation policy signal (FocusLossSignal_Qualifies (Some signal) policy)).

Definition WindowStartsAt (e : FocusLossEvaluation) : Time :=
  Time_Add (fl_ReceivedAt (fe_signal e)) (- fp_Window (fe_policy e)).

Definition RetainInWindow (e : FocusLossEvaluation) : bool :=
  fp_Enabled (fe_policy e) && fe_qualified e.

Definition fe_error (reason : string) : error :=
  invalidModelError "focus_loss_evaluation" "" reason "".

Definition FocusLossEvaluation_Decide (e : FocusLossEvaluation) (state : FocusLossEvaluationState)
    : result FocusLossEvaluationDecision :=
  fail_if negb (is_ok (FocusLossPolicy_Validate (fe_policy e)))
          || negb (is_ok (FocusLossSignal_Validate (Some (fe_signal e))))
          || (ev_AcceptedSequence state <? 0)
          || (fl_Sequence (fe_signal e) <=? ev_AcceptedSequence state)
          || (ev_WindowIncidentCount state <? 0) || (ev_UnresolvedMissingCount state <? 0)
          || (ev_DiagnosticCount state <? 0)
    with fe_error "invalid Focus Loss evaluation state" ;;
  let missingBefore := int64_sub (int64_sub (fl_Sequence (fe_signal e)) (ev_AcceptedSequence state)) 1 in
  let decision := mkDecision (fp_Enabled (fe_policy e)) (fe_qualified e) missingBefore
    (ev_UnresolvedMissingCount state) (ev_DiagnosticCount state) (ev_WindowIncidentCount state)
    false false noOutcome false false false false in
  if negb (fp_Enabled (fe_policy e)) then
    fail_if ev_WindowIncidentCount state !=? 0
      with fe_error "disabled Focus Loss evaluation has a pending window" ;;
    let decision := decision <| fd_Qualified := false |> in
    if fd_DiagnosticCount decision <? int64_max
    then Ok (decision <| fd_DiagnosticCount := int64_succ (fd_DiagnosticCount decision) |>)
    else Ok decision
  else
    fail_if int64_sub int64_max (ev_UnresolvedMissingCount state) <? missingBefore
      with fe_error "Focus Loss gap count overflows" ;;
    let decision := decision <| fd_UnresolvedMissingCount :=
                      int64_add (fd_UnresolvedMissingCount decision) missingBefore |> in
    fail_if fe_qualified e
            && ((ev_WindowIncidentCount state <? 1)
                || (fp_IncidentCount (fe_policy e) <? ev_WindowIncidentCount state))
      with fe_error "qualifying Focus Loss signal has invalid window count" ;;
    fail_if negb (fe_qualified e) && (fp_IncidentCount (fe_policy e) <=? ev_WindowIncidentCount state)
      with fe_error "Focus Loss window crossed without the current signal" ;;
    let decision := decision <| fd_ThresholdCrossed :=
      fe_qualified e && (fp_IncidentCount (fe_policy e) <=? ev_WindowIncidentCount state) |> in
    if negb (fd_ThresholdCrossed decision) then Ok decision
    else
      let outcome := fp_Outcome (fe_policy e) in
      Ok (decision <| fd_WindowIncidentCount := 0 |> <| fd_ConsumeWindow := true |>
            <| fd_PolicyOutcome := outcome |> <| fd_CreateFlag := negb (ev_HasOpenFlag state) |>
            <| fd_NotifyManagers := negb (ev_HasOpenFlag state) |>
            <| fd_CreateCandidateWarning := (outcome ==? IntegrityOutcomeFlagAndWarn)
                                            && negb (ev_CandidateWarningCreated state) |>
            <| fd_Suspend := outcome ==? IntegrityOutcomeFlagAndSuspend |>).

(** ** Evidence overflow *)

Record FocusLossEvidenceOverflow := mkOverflow {
  fo_AttemptID : ID;
  fo_ParticipationID : ID;
  fo_Generation : Z;
  fo_Count : Z;
  fo_FirstReceivedAt : Time;
  fo_LastReceivedAt : Time;
  fo_MaximumDurationMilliseconds : Z }.

Definition FocusLossEvidenceOverflow_Validate (s : FocusLossEvidenceOverflow) : result unit :=
  fail_if negb (ID_IsValid (fo_AttemptID s)) || negb (ID_IsValid (fo_ParticipationID s))
          || (fo_Generation s <? 1) || (fo_Count s <? 1) || Time_IsZero (fo_FirstReceivedAt s)
          || Time_Before (fo_LastReceivedAt s) (fo_FirstReceivedAt s)
          || (fo_MaximumDurationMilliseconds s <? 1)
          || (FocusLossMaximumDurationMilliseconds <? fo_MaximumDurationMilliseconds s)
    with invalidModelError "focus_loss_evidence_overflow" "" "invalid Focus Loss evidence overflow" "" ;;
  Ok tt.

(** ** The transaction that records a signal *)

(** A row of the pending table, and of the evidence it becomes. *)
Record Episode := mkEpisode {
  ep_sequence : Z;
  ep_duration : Z;
  ep_missing_before : Z;
  ep_received_at : Time }.

(** The evaluation row. *)
Record EvaluationRow := mkEvaluationRow {
  er_AcceptedSequence : Z;
  er_UnresolvedMissingCount : Z;
  er_DiagnosticCount : Z;
  er_HasFlag : bool;
  er_WarningCreated : bool;
  er_RetainedEvidenceCount : Z;
  er_OverflowCount : Z;
  er_OverflowFirstReceivedAt : option Time;
  er_OverflowLastReceivedAt : option Time;
  er_OverflowMaximumDurationMillis : option Z }.
#[global] Instance EvaluationRow_eta : Eta EvaluationRow := λ r,
  mkEvaluationRow (er_AcceptedSequence r) (er_UnresolvedMissingCount r) (er_DiagnosticCount r)
    (er_HasFlag r) (er_WarningCreated r) (er_RetainedEvidenceCount r) (er_OverflowCount r)
    (er_OverflowFirstReceivedAt r) (er_OverflowLastReceivedAt r) (er_OverflowMaximumDurationMillis r).

(** The row the first signal inserts. *)
Definition initialRow : EvaluationRow :=
  mkEvaluationRow 0 0 0 false false 0 0 None None None.

Record FocusTables := mkFocusTables {
  ft_row : EvaluationRow;
  ft_pending : list Episode;
  ft_evidence : list Episode }.

(** A report as it reaches [recordFocusLoss], with the database time. *)
Record FocusReport := mkFocusReport {
  rp_SignalID : ID;
  rp_AttemptID : ID;
  rp_ParticipationID : ID;
  rp_Generation : Z;
  rp_Sequence : Z;
  rp_DurationMilliseconds : Z;
  rp_Source : FocusLossSource;
  rp_DatabaseNow : Time }.

(** [decideFocusLoss]: the pending table it leaves, and the decision. *)
Definition decideFocusLoss (policy : FocusLossPolicy) (input : FocusReport) (row : EvaluationRow)
    (pending : list Episode) : result (list Episode * FocusLossEvaluationDecision) :=
  signal ← NewFocusLossSignal (rp_SignalID input) (rp_AttemptID input) (rp_ParticipationID input)
    (rp_Generation input) (rp_Sequence input) (rp_DurationMilliseconds input) (rp_Source input)
    (rp_DatabaseNow input);
  evaluation ← NewFocusLossEvaluation policy signal;
  let pending := filter (λ e, Time_Before (ep_received_at e) (WindowStartsAt evaluation) = false) pending in
  let current missing := mkEpisode (rp_Sequence input) (rp_DurationMilliseconds input) missing
    (rp_DatabaseNow input) in
  let counted := if RetainInWindow evaluation then pending ++ [current 0] else pending in
  decision ← FocusLossEvaluation_Decide evaluation
    (mkEvaluationState (er_AcceptedSequence row) (Z.of_nat (length counted))
       (er_UnresolvedMissingCount row) (er_DiagnosticCount row) (er_HasFlag row)
       (er_WarningCreated row));
  Ok (if RetainInWindow evaluation then pending ++ [current (fd_MissingBefore decision)] else pending,
      decision).

(** The loop of [consumeFocusLossBucket]. *)
Definition consume_episode (st : EvaluationRow * list Episode) (e : Episode)
    : EvaluationRow * list Episode :=
  let '(row, evidence) := st in
  if er_RetainedEvidenceCount row <? FocusLossMaximumEvidenceEpisodes then
    (row <| er_RetainedEvidenceCount := er_RetainedEvidenceCount row + 1 |>, evidence ++ [e])
  else
    let row := if er_OverflowCount row <? int64_max
               then row <| er_OverflowCount := int64_succ (er_OverflowCount row) |> else row in
    let row := match er_OverflowFirstReceivedAt row with
               | None => row <| er_OverflowFirstReceivedAt := Some (ep_received_at e) |>
               | Some _ => row
               end in
    let row := row <| er_OverflowLastReceivedAt := Some (ep_received_at e) |> in
    (match er_OverflowMaximumDurationMillis row with
     | Some m => if m <? ep_duration e
                 then row <| er_OverflowMaximumDurationMillis := Some (ep_duration e) |> else row
     | None => row <| er_OverflowMaximumDurationMillis := Some (ep_duration e) |>
     end, evidence).

(** ORDER BY received_at, sequence. *)
Definition episode_le (a b : Episode) : Prop :=
  t_ns (ep_received_at a) < t_ns (ep_received_at b) ∨
  (t_ns (ep_received_at a) = t_ns (ep_received_at b) ∧ ep_sequence a ≤ ep_sequence b).
#[global] Instance episode_le_dec : RelDecision episode_le.
Proof. intros a b. unfold episode_le. apply _. Defined.

Definition consumeFocusLossBucket (row : EvaluationRow) (pending evidence : list Episode)
    : EvaluationRow * list Episode :=
  foldl consume_episode (row, evidence) (merge_sort episode_le pending).

(** [applyFocusLossDecision] and [retainFocusLossOutcome] on the tables. *)
Definition applyFocusLossDecision (input : FocusReport) (decision : FocusLossEvaluationDecision)
    (t : FocusTables) : FocusTables :=
  let row := ft_row t in
  let row := if fd_CreateFlag decision then row <| er_HasFlag := true |> else row in
  let '(row, evidence) := if fd_ConsumeWindow decision
                          then consumeFocusLossBucket row (ft_pending t) (ft_evidence t)
                          else (row, ft_evidence t) in
  let pending := if fd_ConsumeWindow decision then [] else ft_pending t in
  let row := row <| er_UnresolvedMissingCount := fd_UnresolvedMissingCount decision |>
                 <| er_DiagnosticCount := fd_DiagnosticCount decision |> in
  let row := if fd_CreateCandidateWarning decision then row <| er_WarningCreated := true |> else row in
  mkFocusTables (row <| er_AcceptedSequence := rp_Sequence input |>) pending evidence.

(** The part of [recordFocusLoss] that accepts a new sequence. *)
Definition recordFocusLoss (policy : FocusLossPolicy) (input : FocusReport) (t : FocusTables)
    : result (FocusTables * FocusLossEvaluationDecision) :=
  '(pending, decision) ← decideFocusLoss policy input (ft_row t) (ft_pending t);
  Ok (applyFocusLossDecision input decision (mkFocusTables (ft_row t) pending (ft_evidence t)), decision).

(** A sequence of accepted reports. *)
Fixpoint record_all (policy : FocusLossPolicy) (inputs : list FocusReport) (t : FocusTables)
    : result (FocusTables * list FocusLossEvaluationDecision) :=
  match inputs with
  | [] => Ok (t, [])
  | input :: inputs' =>
      '(t1, d) ← recordFocusLoss policy input t;
      '(t2, ds) ← record_all policy inputs' t1;
      Ok (t2, d :: ds)
  end.

(** ** The rolling window, stated on the whole history *)

Definition qualifies (policy : FocusLossPolicy) (r : FocusReport) : bool :=
  fp_MinimumDuration policy <=? rp_DurationMilliseconds r * Millisecond.

(** The instants that lie in the window that ends at [now]. *)
Definition in_window (policy : FocusLossPolicy) (now : Z) (l : list Z) : list Z :=
  filter (λ t, now - fp_Window policy ≤ t) l.

(** One report, given the qualifying instants since the last crossing: whether it
    crosses the threshold, and the instants since the last crossing after it. *)
Definition window_step (policy : FocusLossPolicy) (since : list Z) (r : FocusReport) : list Z * bool :=
  let now := t_ns (rp_DatabaseNow r) in
  let since' := if qualifies policy r then since ++ [now] else since in
  let crossed := qualifies policy r
    && (fp_IncidentCount policy <=? Z.of_nat (length (in_window policy now since'))) in
  (if crossed then [] else since', crossed).

Fixpoint crossings (policy : FocusLossPolicy) (since : list Z) (rs : list FocusReport) : list bool :=
  match rs with
  | [] => []
  | r :: rs' => let '(since', crossed) := window_step policy since r in
                crossed :: crossings policy since' rs'
  end.

(** Only the first [true] of a list, unless one was seen before. *)
Fixpoint first_only (seen : bool) (l : list bool) : list bool :=
  match l with
  | [] => []
  | b :: l' => (b && negb seen) :: first_only (seen || b) l'
  end.

Definition count_true (l : list bool) : Z := foldr (λ b n, (if b : bool then 1 else 0) + n) 0 l.

(** Reports the database hands over: valid, of increasing sequence, at database
    times that do not move backwards. *)
Definition good_report (r : FocusReport) : Prop :=
  ID_IsValid (rp_SignalID r) = true ∧ ID_IsValid (rp_AttemptID r) = true ∧
  ID_IsValid (rp_ParticipationID r) = true ∧ 1 ≤ rp_Generation r ∧
  1 ≤ rp_Sequence r ≤ int64_max ∧
  1 ≤ rp_DurationMilliseconds r ≤ FocusLossMaximumDurationMilliseconds ∧
  FocusLossSource_IsValid (rp_Source r) = true ∧ t_ns (rp_DatabaseNow r) ≠ 0 ∧
  normalized (rp_DatabaseNow r).

Fixpoint reports_from (sequence now : Z) (rs : list FocusReport) : Prop :=
  match rs with
  | [] => True
  | r :: rs' => good_report r ∧ sequence < rp_Sequence r ∧ now ≤ t_ns (rp_DatabaseNow r) ∧
                reports_from (rp_Sequence r) (t_ns (rp_DatabaseNow r)) rs'
  end.

(** What the tables hold after [n] reports of which [k] crossed. *)
Record focus_inv (policy : FocusLossPolicy) (prev : Z) (since : list Z) (n k : Z) (t : FocusTables)
    : Prop := {
  fi_pending : (λ e, t_ns (ep_received_at e)) <$> ft_pending t = in_window policy prev since;
  fi_room : Z.of_nat (length (ft_pending t)) < fp_IncidentCount policy;
  fi_accepted : 0 ≤ n ≤ er_AcceptedSequence (ft_row t);
  fi_sequence : er_AcceptedSequence (ft_row t) ≤ int64_max;
  fi_missing : er_UnresolvedMissingCount (ft_row t) = er_AcceptedSequence (ft_row t) - n;
  fi_diagnostic : 0 ≤ er_DiagnosticCount (ft_row t);
  fi_retained : er_RetainedEvidenceCount (ft_row t) = Z.of_nat (length (ft_evidence t)) ∧
                er_RetainedEvidenceCount (ft_row t) ≤ FocusLossMaximumEvidenceEpisodes;
  fi_overflow : 0 ≤ er_OverflowCount (ft_row t);
  fi_total : Z.of_nat (length (ft_evidence t)) + er_OverflowCount (ft_row t) =
             fp_IncidentCount policy * k;
  fi_bound : fp_IncidentCount policy * k + Z.of_nat (length (ft_pending t)) ≤ n }.

Lemma filter_window_narrow policy prev now l :
  prev ≤ now → in_window policy now (in_window policy prev l) = in_window policy now l.
Proof. intros. unfold in_window. apply list_filter_filter_l. lia. Qed.

Lemma fmap_filter_window policy now (l : list Episode) :
  (λ e, t_ns (ep_received_at e)) <$>
    filter (λ e, Time_Before (ep_received_at e) (mkTime (now - fp_Window policy) UTC) = false) l =
  in_window policy now ((λ e, t_ns (ep_received_at e)) <$> l).
Proof.
  induction l as [|e l IH]; [done|]. unfold in_window in *. rewrite fmap_cons, !filter_cons.
  destruct (decide (Time_Before _ _ = false)) as [E|E], (decide (now - _ ≤ _)) as [E'|E'];
    rewrite ?Time_Before_false in E; cbn in *; rewrite ?IH; try done; lia.
Qed.

Lemma consume_one row ev e :
  let '(row', ev') := consume_episode (row, ev) e in
  er_RetainedEvidenceCount row = Z.of_nat (length ev) →
  er_RetainedEvidenceCount row ≤ FocusLossMaximumEvidenceEpisodes →
  0 ≤ er_OverflowCount row < int64_max →
  er_RetainedEvidenceCount row' = Z.of_nat (length ev') ∧
  er_RetainedEvidenceCount row' ≤ FocusLossMaximumEvidenceEpisodes ∧
  0 ≤ er_OverflowCount row' ∧
  Z.of_nat (length ev') + er_OverflowCount row' = Z.of_nat (length ev) + er_OverflowCount row + 1 ∧
  er_AcceptedSequence row' = er_AcceptedSequence row ∧ er_HasFlag row' = er_HasFlag row ∧
  er_WarningCreated row' = er_WarningCreated row.
Proof.
  unfold consume_episode. destruct (er_RetainedEvidenceCount row <? _) eqn:E; to_prop.
  - cbn. rewrite length_app. cbn. intros. split_and!; try done; lia.
  - intros Hr Hm Ho. rewrite (proj2 (Z.ltb_lt _ _)) by lia.
    assert (int64_succ (er_OverflowCount row) = er_OverflowCount row + 1).
    { apply int64_succ_lt; unfold in_int64, int64_min in *; lia. }
    cbn. destruct (er_OverflowFirstReceivedAt row), (er_OverflowMaximumDurationMillis row);
      cbn; try destruct (_ <? _); cbn; split_and!; done || lia.
Qed.

Lemma consume_all l row ev :
  er_RetainedEvidenceCount row = Z.of_nat (length ev) →
  er_RetainedEvidenceCount row ≤ FocusLossMaximumEvidenceEpisodes →
  0 ≤ er_OverflowCount row → Z.of_nat (length ev) + er_OverflowCount row + Z.of_nat (length l) ≤ int64_max →
  let '(row', ev') := foldl consume_episode (row, ev) l in
  er_RetainedEvidenceCount row' = Z.of_nat (length ev') ∧
  er_RetainedEvidenceCount row' ≤ FocusLossMaximumEvidenceEpisodes ∧
  0 ≤ er_OverflowCount row' ∧
  Z.of_nat (length ev') + er_OverflowCount row' =
    Z.of_nat (length ev) + er_OverflowCount row + Z.of_nat (length l) ∧
  er_AcceptedSequence row' = er_AcceptedSequence row ∧ er_HasFlag row' = er_HasFlag row ∧
  er_WarningCreated row' = er_WarningCreated row.
Proof.
  revert row ev. induction l as [|e l IH]; intros row ev Hr Hm Ho Hb; [cbn; split_and!; done || lia|].
  cbn [foldl]. pose proof (consume_one row ev e) as H1.
  destruct (consume_episode (row, ev) e) as [row1 ev1]. cbn [length] in *.
  destruct H1 as (H1 & H2 & H3 & H4 & H5 & H6 & H7); [done|done|lia|].
  specialize (IH row1 ev1 H1 H2 H3 ltac:(lia)).
  destruct (foldl consume_episode (row1, ev1) l) as [row2 ev2].
  destruct IH as (I1 & I2 & I3 & I4 & I5 & I6 & I7). split_and!; try done; try lia; congruence.
Qed.

(** The decision for a well-kept window. *)
Record decides (policy : FocusLossPolicy) (crossed hasFlag warned : bool) (missing unresolved diagnostic : Z)
    (d : FocusLossEvaluationDecision) : Prop := {
  de_missing : fd_MissingBefore d = missing;
  de_unresolved : fd_UnresolvedMissingCount d = unresolved;
  de_diagnostic : fd_DiagnosticCount d = diagnostic;
  de_crossed : fd_ThresholdCrossed d = crossed;
  de_consume : fd_ConsumeWindow d = crossed;
  de_flag : fd_CreateFlag d = crossed && negb hasFlag;
  de_notify : fd_NotifyManagers d = crossed && negb hasFlag;
  de_warn : fd_CreateCandidateWarning d =
    crossed && (fp_Outcome policy ==? IntegrityOutcomeFlagAndWarn) && negb warned;
  de_suspend : fd_Suspend d = crossed && (fp_Outcome policy ==? IntegrityOutcomeFlagAndSuspend) }.

Lemma Decide_ok e st :
  FocusLossPolicy_Validate (fe_policy e) = Ok tt →
  FocusLossSignal_Validate (Some (fe_signal e)) = Ok tt → fp_Enabled (fe_policy e) = true →
  0 ≤ ev_AcceptedSequence st < fl_Sequence (fe_signal e) → fl_Sequence (fe_signal e) ≤ int64_max →
  0 ≤ ev_UnresolvedMissingCount st ≤ ev_AcceptedSequence st → 0 ≤ ev_DiagnosticCount st →
  0 ≤ ev_WindowIncidentCount st →
  (if fe_qualified e then 1 ≤ ev_WindowIncidentCount st ≤ fp_IncidentCount (fe_policy e)
   else ev_WindowIncidentCount st < fp_IncidentCount (fe_policy e)) →
  ∃ d, FocusLossEvaluation_Decide e st = Ok d ∧
    decides (fe_policy e)
      (fe_qualified e && (fp_IncidentCount (fe_policy e) <=? ev_WindowIncidentCount st))
      (ev_HasOpenFlag st) (ev_CandidateWarningCreated st)
      (fl_Sequence (fe_signal e) - ev_AcceptedSequence st - 1)
      (ev_UnresolvedMissingCount st + (fl_Sequence (fe_signal e) - ev_AcceptedSequence st - 1))
      (ev_DiagnosticCount st) d.
Proof.
  intros Hp Hs He Ha Hm Hu Hd Hc Hw. unfold FocusLossEvaluation_Decide.
  assert (Hr : ∀ z, - int64_max ≤ z ≤ int64_max → in_int64 z).
  { unfold in_int64, int64_min, int64_max. lia. }
  rewrite (int64_sub_id (fl_Sequence _) _) by (apply Hr; lia).
  rewrite (int64_sub_id (_ - _) 1) by (apply Hr; lia).
  rewrite int64_sub_id by (apply Hr; lia). rewrite Hp, Hs, He. cbn [is_ok negb].
  rewrite !(proj2 (Z.ltb_ge _ _)) by lia. rewrite (proj2 (Z.leb_gt _ _)) by lia. cbn [orb].
  assert (Hadd : int64_add (ev_UnresolvedMissingCount st)
      (fl_Sequence (fe_signal e) - ev_AcceptedSequence st - 1) =
    ev_UnresolvedMissingCount st + (fl_Sequence (fe_signal e) - ev_AcceptedSequence st - 1))
    by (apply int64_add_id, Hr; lia).
  cbn -[int64_add]. destruct (fe_qualified e) eqn:Eq; cbn [negb andb orb].
  - rewrite !(proj2 (Z.ltb_ge _ _)) by lia. cbn [orb]. cbn -[int64_add].
    destruct (_ <=? _) eqn:Ec; cbn -[int64_add]; eexists; split; try reflexivity; by split.
  - rewrite (proj2 (Z.leb_gt _ _)) by lia. cbn -[int64_add]. eexists. split; [reflexivity|]. by split.
Qed.

Section window.
Context (policy : FocusLossPolicy).
Hypothesis policy_good : good_focus_policy policy.
Hypothesis policy_enabled : fp_Enabled policy = true.

Definition warns : bool := fp_Outcome policy ==? IntegrityOutcomeFlagAndWarn.
Definition suspends : bool := fp_Outcome policy ==? IntegrityOutcomeFlagAndSuspend.

(** The signal a good report makes. *)
Definition signal_of (r : FocusReport) : FocusLossSignal :=
  mkFocusLossSignal (rp_SignalID r) (rp_AttemptID r) (rp_ParticipationID r) (rp_Generation r)
    (rp_Sequence r) (rp_DurationMilliseconds r) (rp_Source r) (rp_DatabaseNow r).

Lemma good_signal r :
  good_report r → FocusLossSignal_Validate (Some (signal_of r)) = Ok tt ∧
  NewFocusLossSignal (rp_SignalID r) (rp_AttemptID r) (rp_ParticipationID r) (rp_Generation r)
    (rp_Sequence r) (rp_DurationMilliseconds r) (rp_Source r) (rp_DatabaseNow r) = Ok (signal_of r) ∧
  FocusLossSignal_Qualifies (Some (signal_of r)) policy = qualifies policy r.
Proof.
  intros (H1 & H2 & H3 & H4 & H5 & H6 & H7 & H8 & H9).
  assert (Hv : FocusLossSignal_Validate (Some (signal_of r)) = Ok tt).
  { unfold FocusLossSignal_Validate. apply ok_fail_if. split; [|done]. cbn.
    rewrite H1, H2, H3, H7. cbn [negb orb]. rewrite !orb_false_iff, !Z.ltb_ge, Time_IsZero_false.
    split_and!; first [assumption|lia|reflexivity]. }
  split; [done|]. split.
  - unfold NewFocusLossSignal. rewrite normalized_TimeUTC by done. fold (signal_of r). by rewrite Hv.
  - unfold FocusLossSignal_Qualifies.
    by rewrite Hv, (proj2 (FocusLossPolicy_Validate_spec policy) policy_good), policy_enabled.
Qed.

Lemma good_sequence r : good_report r → 1 ≤ rp_Sequence r ≤ int64_max.
Proof. intros (_ & _ & _ & _ & H & _). exact H. Qed.

Lemma decide_step prev since n k t r :
  focus_inv policy prev since n k t → good_report r →
  er_AcceptedSequence (ft_row t) < rp_Sequence r → prev ≤ t_ns (rp_DatabaseNow r) →
  ∃ pending d, decideFocusLoss policy r (ft_row t) (ft_pending t) = Ok (pending, d) ∧
    (λ e, t_ns (ep_received_at e)) <$> pending =
      in_window policy (t_ns (rp_DatabaseNow r))
        (if qualifies policy r then since ++ [t_ns (rp_DatabaseNow r)] else since) ∧
    Z.of_nat (length pending) ≤ Z.of_nat (length (ft_pending t)) + (if qualifies policy r then 1 else 0) ∧
    decides policy (snd (window_step policy since r)) (er_HasFlag (ft_row t))
      (er_WarningCreated (ft_row t)) (rp_Sequence r - er_AcceptedSequence (ft_row t) - 1)
      (rp_Sequence r - (n + 1)) (er_DiagnosticCount (ft_row t)) d.
Proof.
  intros [Hpend Hroom Hacc Hseq Hmiss Hdiag _ _ _ _] Hr Hs Hnow.
  pose proof policy_good as (_ & _ & _ & Hcount & Hwin & _).
  pose proof (proj2 (FocusLossPolicy_Validate_spec policy) policy_good) as policy_valid.
  destruct (good_signal r Hr) as (Hv & Hnew & Hq). unfold decideFocusLoss, RetainInWindow, WindowStartsAt.
  rewrite Hnew. cbn [mbind result_bind]. unfold NewFocusLossEvaluation. rewrite policy_valid, Hv.
  cbn [mbind result_bind]. rewrite Hq. cbn [fe_policy fe_signal fe_qualified]. rewrite policy_enabled.
  cbv zeta beta.
  assert (Hut : Time_Add (fl_ReceivedAt (signal_of r)) (- fp_Window policy) =
    mkTime (t_ns (rp_DatabaseNow r) - fp_Window policy) UTC).
  { destruct Hr as (_ & _ & _ & _ & _ & _ & _ & _ & [Hloc _]). unfold Time_Add. cbn. by rewrite Hloc. }
  rewrite Hut. set (now := t_ns (rp_DatabaseNow r)) in *.
  set (pruned := filter _ (ft_pending t)).
  assert (Hpr : (λ e, t_ns (ep_received_at e)) <$> pruned = in_window policy now since).
  { unfold pruned. rewrite fmap_filter_window, Hpend. by apply filter_window_narrow. }
  assert (Hpl : Z.of_nat (length pruned) ≤ Z.of_nat (length (ft_pending t))).
  { apply inj_le. apply length_filter. }
  assert (Hlast : in_window policy now [now] = [now]).
  { unfold in_window. rewrite filter_cons_True; [done|]. unfold Second, Hour, Minute in *. lia. }
  assert (Hlen : length (in_window policy now since) = length pruned) by (by rewrite <-Hpr, length_fmap).
  cbn [andb]. unfold window_step. fold now.
  destruct (qualifies policy r) eqn:Eq.
  - destruct (Decide_ok (mkEvaluation policy (signal_of r) true)
      (mkEvaluationState (er_AcceptedSequence (ft_row t))
        (Z.of_nat (length (pruned ++ [mkEpisode (rp_Sequence r) (rp_DurationMilliseconds r) 0
           (rp_DatabaseNow r)]))) (er_UnresolvedMissingCount (ft_row t)) (er_DiagnosticCount (ft_row t))
        (er_HasFlag (ft_row t)) (er_WarningCreated (ft_row t)))) as (d & Hd & HD);
      [exact policy_valid|exact Hv|exact policy_enabled|..];
      [cbn [ev_AcceptedSequence ev_WindowIncidentCount ev_UnresolvedMissingCount
        ev_DiagnosticCount fe_signal fe_policy fe_qualified]; rewrite ?length_app;
       cbn [length signal_of fl_Sequence]; pose proof (proj2 (good_sequence r Hr)); lia..|].
    rewrite Hd. cbn [mbind result_bind]. eexists _, d. split; [reflexivity|].
    split; [rewrite fmap_app, Hpr; unfold in_window in *; rewrite filter_app, Hlast; done|].
    split; [rewrite length_app; cbn; lia|].
    cbn [snd andb] in *. unfold in_window in *. rewrite filter_app, Hlast, length_app, Hlen.
    rewrite length_app in HD. cbn [length fl_Sequence signal_of fe_signal ev_AcceptedSequence
      ev_UnresolvedMissingCount ev_DiagnosticCount ev_HasOpenFlag ev_CandidateWarningCreated
      fe_policy fe_qualified ev_WindowIncidentCount andb] in *.
    replace (rp_Sequence r - (n + 1)) with (er_UnresolvedMissingCount (ft_row t) +
      (rp_Sequence r - er_AcceptedSequence (ft_row t) - 1)) by lia. exact HD.
  - destruct (Decide_ok (mkEvaluation policy (signal_of r) false)
      (mkEvaluationState (er_AcceptedSequence (ft_row t)) (Z.of_nat (length pruned))
        (er_UnresolvedMissingCount (ft_row t)) (er_DiagnosticCount (ft_row t))
        (er_HasFlag (ft_row t)) (er_WarningCreated (ft_row t)))) as (d & Hd & HD);
      [exact policy_valid|exact Hv|exact policy_enabled|..];
      [cbn [ev_AcceptedSequence ev_WindowIncidentCount ev_UnresolvedMissingCount
        ev_DiagnosticCount fe_signal fe_policy fe_qualified signal_of fl_Sequence];
       pose proof (proj2 (good_sequence r Hr)); lia..|].
    rewrite Hd. cbn [mbind result_bind]. eexists _, d. split; [reflexivity|].
    split; [done|]. split; [lia|]. cbn [snd andb] in *.
    replace (rp_Sequence r - (n + 1)) with (er_UnresolvedMissingCount (ft_row t) +
      (rp_Sequence r - er_AcceptedSequence (ft_row t) - 1)) by lia. exact HD.
Qed.

Lemma record_step prev since n k t r :
  focus_inv policy prev since n k t → good_report r →
  er_AcceptedSequence (ft_row t) < rp_Sequence r → prev ≤ t_ns (rp_DatabaseNow r) →
  let '(since', crossed) := window_step policy since r in
  ∃ t' d, recordFocusLoss policy r t = Ok (t', d) ∧
    focus_inv policy (t_ns (rp_DatabaseNow r)) since' (n + 1) (k + if crossed then 1 else 0) t' ∧
    er_AcceptedSequence (ft_row t') = rp_Sequence r ∧
    er_HasFlag (ft_row t') = er_HasFlag (ft_row t) || crossed ∧
    er_WarningCreated (ft_row t') = er_WarningCreated (ft_row t) || (crossed && warns) ∧
    fd_ThresholdCrossed d = crossed ∧ fd_CreateFlag d = crossed && negb (er_HasFlag (ft_row t)) ∧
    fd_NotifyManagers d = crossed && negb (er_HasFlag (ft_row t)) ∧
    fd_CreateCandidateWarning d = crossed && warns && negb (er_WarningCreated (ft_row t)) ∧
    fd_Suspend d = crossed && suspends.
Proof.
  intros Hi Hr Hs Hnow. destruct (decide_step prev since n k t r Hi Hr Hs Hnow) as
    (pending & d & Hdec & Hp & Hl & [E1 E2 E3 E4 E5 E6 E7 E8 E9]).
  pose proof (good_sequence r Hr) as Hsq.
  destruct Hi as [_ Hroom Hacc Hseq Hmiss Hdiag [Hret Hcap] Hov Htot Hb].
  destruct (window_step policy since r) as [since' crossed] eqn:Ew. cbn [snd] in *.
  unfold recordFocusLoss. rewrite Hdec. cbn [mbind result_bind].
  eexists _, d. split; [reflexivity|]. unfold applyFocusLossDecision.
  cbn [ft_row ft_pending ft_evidence]. rewrite E5, E6, E8.
  unfold window_step in Ew. injection Ew as Hsince Hcross. rewrite Hcross in Hsince.
  destruct crossed; cbn [andb negb] in *.
  - apply andb_true_iff in Hcross as [Hq Hc]. rewrite Hq in *. apply Z.leb_le in Hc.
    rewrite <-Hp, length_fmap in Hc.
    set (row0 := if negb (er_HasFlag (ft_row t)) then _ else ft_row t).
    assert (Hrow : er_RetainedEvidenceCount row0 = er_RetainedEvidenceCount (ft_row t) ∧
      er_OverflowCount row0 = er_OverflowCount (ft_row t) ∧ er_HasFlag row0 = true ∧
      er_WarningCreated row0 = er_WarningCreated (ft_row t))
      by (unfold row0; destruct (er_HasFlag (ft_row t)) eqn:E; cbn; rewrite ?E; split_and!; reflexivity).
    destruct Hrow as (R1 & R2 & R3 & R4).
    pose proof (consume_all (merge_sort episode_le pending) row0 (ft_evidence t)) as Hcons.
    unfold consumeFocusLossBucket. rewrite R1, R2, R4 in Hcons.
    rewrite (Permutation_length (merge_sort_Permutation episode_le pending)) in Hcons.
    destruct (foldl consume_episode (row0, ft_evidence t) (merge_sort episode_le pending)) as [row' ev'].
    destruct Hcons as (C1 & C2 & C3 & C4 & C5 & C6 & C7); [done|done|lia|lia|].
    assert (Hk1 : fp_IncidentCount policy * (k + 1) = fp_IncidentCount policy * k + fp_IncidentCount policy)
      by lia.
    fold warns. destruct (warns && negb (er_WarningCreated (ft_row t))) eqn:Ewn;
      (split; [split; cbn -[Z.add Z.mul]; rewrite ?E2, ?E3; subst since'; try done; try lia|];
       cbn; rewrite ?C6, ?C7, ?R3, E4, E7, E9, ?orb_true_r; split_and!; try reflexivity;
       destruct warns, (er_WarningCreated (ft_row t)); reflexivity || discriminate).
  - cbn [orb]. split; [split; cbn -[Z.add Z.mul]; rewrite ?E2, ?E3; subst since'; try done; try lia|].
    + destruct (qualifies policy r) eqn:Hq; [|lia]. cbn [andb] in Hcross. to_prop.
      rewrite <-Hp, length_fmap in Hcross. lia.
    + destruct (qualifies policy r); lia.
    + cbn. rewrite E4, E7, E9, !orb_false_r. done.
Qed.

(** The decisions a history must produce. *)
Definition expected (flagged warned : bool) (cs : list bool) (ds : list FocusLossEvaluationDecision)
    : Prop :=
  fd_ThresholdCrossed <$> ds = cs ∧ fd_CreateFlag <$> ds = first_only flagged cs ∧
  fd_NotifyManagers <$> ds = first_only flagged cs ∧
  fd_CreateCandidateWarning <$> ds = first_only warned (andb warns <$> cs) ∧
  fd_Suspend <$> ds = (andb suspends <$> cs).

Lemma record_run rs prev since n k t :
  focus_inv policy prev since n k t → reports_from (er_AcceptedSequence (ft_row t)) prev rs →
  ∃ t' ds prev' since', record_all policy rs t = Ok (t', ds) ∧
    focus_inv policy prev' since' (n + Z.of_nat (length rs))
      (k + count_true (crossings policy since rs)) t' ∧
    er_AcceptedSequence (ft_row t') =
      default (er_AcceptedSequence (ft_row t)) (rp_Sequence <$> last rs) ∧
    expected (er_HasFlag (ft_row t)) (er_WarningCreated (ft_row t)) (crossings policy since rs) ds.
Proof.
  revert prev since n k t. induction rs as [|r rs IH]; intros prev since n k t Hi Hrs.
  { exists t, [], prev, since. cbn. rewrite !Z.add_0_r. done. }
  destruct Hrs as (Hr & Hs & Hnow & Hrs). pose proof (record_step prev since n k t r Hi Hr Hs Hnow) as Hstep.
  cbn [record_all crossings]. destruct (window_step policy since r) as [since1 crossed].
  destruct Hstep as (t1 & d & Hrec & Hi1 & Ha & Hf & Hw & D1 & D2 & D3 & D4 & D5).
  rewrite <-Ha in Hrs. destruct (IH _ _ _ _ _ Hi1 Hrs) as (t2 & ds & prev' & since' & Hall & Hi2 & Ha2 & Hex).
  exists t2, (d :: ds), prev', since'. rewrite Hrec. cbn [mbind result_bind]. rewrite Hall.
  cbn [mbind result_bind]. split; [reflexivity|].
  split; [|split].
  - cbn [length count_true foldr]. fold (count_true (crossings policy since1 rs)).
    replace (n + Z.of_nat (S (length rs))) with (n + 1 + Z.of_nat (length rs)) by lia.
    by rewrite Z.add_assoc.
  - rewrite Ha2, Ha. by destruct rs as [|r' rs'] using rev_ind; [|rewrite app_comm_cons, !last_snoc].
  - destruct Hex as (X1 & X2 & X3 & X4 & X5). unfold expected. rewrite !fmap_cons. cbn [first_only].
    rewrite X1, X2, X3, X4, X5, Hf, Hw, D1, D2, D3, D4, D5, !(andb_comm crossed). done.
Qed.
End window.

(** C13. The rolling window is exact.  Under a valid, enabled Focus Loss policy, any
    series of valid reports of increasing sequence, at database times that do not
    move backwards, is accepted, and a report crosses the threshold exactly when it
    qualifies and, with it, as many qualifying reports as the policy counts lie in
    the policy's window since the last crossing.  A Flag (and a notification of the
    managers) is created at the first crossing only, a warning at the first crossing
    of a warning policy only, and every crossing suspends exactly under a suspending
    policy.  The gap count is the number of sequences never reported, and every
    episode a crossing consumed is retained as evidence (100 at most) or counted as
    overflow. *)
Theorem focus_window_exact policy rs :
  FocusLossPolicy_Validate policy = Ok tt → fp_Enabled policy = true → reports_from 0 0 rs →
  ∃ t ds, record_all policy rs (mkFocusTables initialRow [] []) = Ok (t, ds) ∧
    expected policy false false (crossings policy [] rs) ds ∧
    er_UnresolvedMissingCount (ft_row t) =
      default 0 (rp_Sequence <$> last rs) - Z.of_nat (length rs) ∧
    Z.of_nat (length (ft_evidence t)) ≤ 100 ∧
    Z.of_nat (length (ft_evidence t)) + er_OverflowCount (ft_row t) =
      fp_IncidentCount policy * count_true (crossings policy [] rs).
Proof.
  intros Hp He Hrs. apply FocusLossPolicy_Validate_spec in Hp.
  destruct (record_run policy Hp He rs 0 [] 0 0 (mkFocusTables initialRow [] [])) as
    (t & ds & prev & since & Hall & Hi & Ha & Hex); [|done|].
  { pose proof Hp as (_ & _ & _ & Hc & _). split; cbn; try done; lia. }
  exists t, ds. split; [done|]. split; [done|]. destruct Hi as [_ _ _ _ Hm _ [Hr Hcap] _ Ht _].
  rewrite Hm, Ha. cbn in *. unfold FocusLossMaximumEvidenceEpisodes in Hcap. split_and!; lia.
Qed.

(** ** Samples *)

Definition sample_policy : FocusLossPolicy :=
  mkFocusLossPolicy true (2 * Second) 2 (5 * Minute) IntegrityOutcomeFlagAndSuspend.
Definition sample_report (sequence duration second : Z) : FocusReport :=
  mkFocusReport sample_id sample_id sample_id 1 sequence duration FocusLossSourceWindowBlur
    (at_second second).
(** Too short; in the window; past the window of the first; crossing. *)
Definition sample_reports : list FocusReport :=
  [sample_report 1 1500 100; sample_report 2 2000 110; sample_report 5 3000 500;
   sample_report 6 4000 600].

Lemma sample_reports_good : reports_from 0 0 sample_reports.
Proof.
  cbn. unfold good_report, normalized. cbn.
  unfold int64_max, Second, FocusLossMaximumDurationMilliseconds, Hour, Minute, Second, Millisecond.
  split_and!; try done; vm_compute; done.
Qed.

Lemma focus_window_exact_witness :
  ∃ t ds, record_all sample_policy sample_reports (mkFocusTables initialRow [] []) = Ok (t, ds) ∧
    expected sample_policy false false (crossings sample_policy [] sample_reports) ds ∧
    er_UnresolvedMissingCount (ft_row t) = 2 ∧ Z.of_nat (length (ft_evidence t)) ≤ 100 ∧
    Z.of_nat (length (ft_evidence t)) + er_OverflowCount (ft_row t) = 2 * 1.
Proof.
  apply (focus_window_exact sample_policy sample_reports).
  - vm_compute. reflexivity.
  - reflexivity.
  - apply sample_reports_good.
Defined.

Example sample_crossings : crossings sample_policy [] sample_reports = [false; false; false; true].
Proof. vm_compute. reflexivity. Qed.
