(* ===== verification/CanonicalJson.v ===== *)
(** * Canonical JSON

    The bounded, integer-only JSON encoding of
    [server/internal/canonicaljson/canonicaljson.go], from the token stream of Go's
    [json.Decoder] to the bytes it emits, and a grammar of the documents it accepts.
    [CanonicalRead] relates the reader to the grammar, and [CanonicalForm] shows that
    the code accepts exactly the documents of the grammar and prints each of them as
    the one canonical document of its value. *)

From S2P Require Import Prelude GoStrings GoJson.

Definition MaxDepth : nat := 64.
Definition MaxSafeInteger : Z := 2 ^ 53 - 1.
Definition ErrInvalid : error := SentinelError "canonical JSON document is invalid".
Definition ErrLimit : error := SentinelError "canonical JSON document exceeds its limit".
(** Not an error of the code: the recursion below ran out of fuel. *)
Definition ErrFuel : error := SentinelError "out of fuel".

Definition utf8_valid (p : list Z) : bool :=
  forallb (λ '(r, w, _), negb ((r =? RuneError) && Nat.eqb w 1)) (range_runes 0 p).

(** [utf8.AppendRune] of a rune up to U+10FFFF. *)
Definition EncodeRune (r : Z) : list Z :=
  if r <? 128 then [r]
  else if r <? 2048 then [192 + r / 64; 128 + r mod 64]
  else if r <? 65536 then [224 + r / 4096; 128 + r / 64 mod 64; 128 + r mod 64]
  else [240 + r / 262144; 128 + r / 4096 mod 64; 128 + r / 64 mod 64; 128 + r mod 64].

(** ** Escapes *)

Definition hex_value (c : Z) : option Z :=
  if in_range 48 57 c then Some (c - 48)
  else if in_range 97 102 c then Some (c - 97 + 10)
  else if in_range 65 70 c then Some (c - 65 + 10)
  else None.

(** [unicodeEscape]: [value <<= 4; value |= digit] four times, in 16 bits. *)
Definition unicodeEscape (data : list Z) : option Z :=
  match data with
  | a :: b :: c :: d :: _ =>
      a ← hex_value a; b ← hex_value b; c ← hex_value c; d ← hex_value d;
      Some (a * 4096 + b * 256 + c * 16 + d)
  | _ => None
  end.

Definition high_surrogate (u : Z) : bool := in_range 55296 56319 u.
Definition low_surrogate (u : Z) : bool := in_range 56320 57343 u.

(** [validStringEscapes], from a position outside ([inside = false]) or inside a
    string literal. *)
Fixpoint string_escapes (inside : bool) (document : list Z) : bool :=
  match document with
  | [] => true
  | c :: rest =>
      if c =? 34 then string_escapes (negb inside) rest
      else if negb ((c =? 92) && inside) then string_escapes inside rest
      else
        match rest with
        | [] => false
        | e :: rest =>
            if negb (e =? 117) then string_escapes inside rest
            else
              match unicodeEscape rest with
              | None => false
              | Some unit =>
                  if low_surrogate unit then false
                  else
                    match rest with
                    | _ :: _ :: _ :: _ :: rest =>
                        if negb (high_surrogate unit) then string_escapes inside rest
                        else
                          match rest with
                          | b :: u :: rest =>
                              if negb (b =? 92) || negb (u =? 117) then false
                              else
                                match unicodeEscape rest with
                                | None => false
                                | Some low =>
                                    if negb (low_surrogate low) then false
                                    else match rest with
                                         | _ :: _ :: _ :: _ :: rest => string_escapes inside rest
                                         | _ => false
                                         end
                                end
                          | _ => false
                          end
                    | _ => false
                    end
              end
        end
  end.

Definition validStringEscapes (document : list Z) : bool := string_escapes false document.

(** ** Scalars of the decoder

    A literal is read up to its end and need not be followed by a delimiter; [None]
    is a syntax error or an unexpected end. *)

Definition simple_escape (e : Z) : option Z :=
  if e =? 34 then Some 34 else if e =? 92 then Some 92 else if e =? 47 then Some 47
  else if e =? 98 then Some 8 else if e =? 102 then Some 12 else if e =? 110 then Some 10
  else if e =? 114 then Some 13 else if e =? 116 then Some 9 else None.

Definition prepend (p : list Z) (r : option (list Z * list Z)) : option (list Z * list Z) :=
  match r with Some (s, rest) => Some (p ++ s, rest) | None => None end.

(** A string literal after its opening quote: its unquoted value and what follows
    the closing quote.  The bytes are valid UTF-8 here, which unquoting copies; an
    unpaired surrogate becomes U+FFFD. *)
Fixpoint read_string (l : list Z) : option (list Z * list Z) :=
  match l with
  | [] => None
  | c :: rest =>
      if c =? 34 then Some ([], rest)
      else if c <? 32 then None
      else if negb (c =? 92) then prepend [c] (read_string rest)
      else
        match rest with
        | [] => None
        | e :: rest =>
            match simple_escape e with
            | Some v => prepend [v] (read_string rest)
            | None =>
                if negb (e =? 117) then None
                else
                  match unicodeEscape rest, rest with
                  | Some unit, _ :: _ :: _ :: _ :: rest =>
                      if negb (high_surrogate unit || low_surrogate unit)
                      then prepend (EncodeRune unit) (read_string rest)
                      else
                        match rest with
                        | b :: u :: h1 :: h2 :: h3 :: h4 :: rest' =>
                            match (if (b =? 92) && (u =? 117) then unicodeEscape [h1; h2; h3; h4]
                                   else None) with
                            | Some low =>
                                if high_surrogate unit && low_surrogate low
                                then prepend (EncodeRune (65536 + (unit - 55296) * 1024 + (low - 56320)))
                                       (read_string rest')
                                else prepend (EncodeRune RuneError) (read_string rest)
                            | None => prepend (EncodeRune RuneError) (read_string rest)
                            end
                        | _ => prepend (EncodeRune RuneError) (read_string rest)
                        end
                  | _, _ => None
                  end
            end
        end
  end.

Fixpoint take_digits (l : list Z) : list Z * list Z :=
  match l with
  | c :: l' => if is_digit c then let '(ds, r) := take_digits l' in (c :: ds, r) else ([], l)
  | [] => ([], [])
  end.
Definition scan_sign (l : list Z) : list Z * list Z :=
  match l with c :: l' => if c =? 45 then ([45], l') else ([], l) | [] => ([], []) end.
Definition scan_int (l : list Z) : option (list Z * list Z) :=
  match l with
  | [] => None
  | c :: l' =>
      if c =? 48 then Some ([48], l')
      else if is_digit c then let '(ds, r) := take_digits l' in Some (c :: ds, r)
      else None
  end.
Definition scan_digits1 (p : list Z) (l : list Z) : option (list Z * list Z) :=
  match take_digits l with ([], _) => None | (ds, r) => Some (p ++ ds, r) end.
Definition scan_fraction (l : list Z) : option (list Z * list Z) :=
  match l with
  | c :: l' => if c =? 46 then scan_digits1 [46] l' else Some ([], l)
  | [] => Some ([], [])
  end.
Definition scan_exponent (l : list Z) : option (list Z * list Z) :=
  match l with
  | e :: l' =>
      if negb (is_exponent e) then Some ([], l)
      else match l' with
           | c :: l'' => if (c =? 43) || (c =? 45) then scan_digits1 [e; c] l'' else scan_digits1 [e] l'
           | [] => None
           end
  | [] => Some ([], [])
  end.
(** The longest number literal at the head of the input. *)
Definition scan_number (l : list Z) : option (list Z * list Z) :=
  let '(sign, l) := scan_sign l in
  '(i, l) ← scan_int l;
  '(f, l) ← scan_fraction l;
  '(e, l) ← scan_exponent l;
  Some (sign ++ i ++ f ++ e, l).

(** ** The token stream of json.Decoder *)

Inductive token :=
  | Delim (c : Z)
  | TBool (b : bool)
  | Number (text : list Z)
  | TString (value : list Z)
  | TNull.
Inductive tokenError := EOF | SyntaxError.

Inductive tokenState :=
  | tokenTopValue
  | tokenArrayStart
  | tokenArrayValue
  | tokenArrayComma
  | tokenObjectStart
  | tokenObjectKey
  | tokenObjectColon
  | tokenObjectValue
  | tokenObjectComma.
#[export] Instance tokenState_eq_dec : EqDecision tokenState.
Proof. solve_decision. Defined.

Record Decoder := mkDecoder {
  d_rest : list Z;
  d_state : tokenState;
  d_stack : list tokenState }.

Definition tokenValueAllowed (s : tokenState) : bool :=
  match s with
  | tokenTopValue | tokenArrayStart | tokenArrayValue | tokenObjectValue => true
  | _ => false
  end.
Definition tokenValueEnd (s : tokenState) : tokenState :=
  match s with
  | tokenArrayStart | tokenArrayValue => tokenArrayComma
  | tokenObjectValue => tokenObjectComma
  | s => s
  end.

Definition literal_token (word : list Z) (t : token) (l : list Z) : option (token * list Z) :=
  if take (length word) l ==? word then Some (t, drop (length word) l) else None.

(** [Decode] of a value that opens neither an object nor an array. *)
Definition decode_scalar (l : list Z) : option (token * list Z) :=
  match l with
  | [] => None
  | c :: l' =>
      if c =? 34 then '(s, rest) ← read_string l'; Some (TString s, rest)
      else if c =? 116 then literal_token (bytes "true") (TBool true) l
      else if c =? 102 then literal_token (bytes "false") (TBool false) l
      else if c =? 110 then literal_token (bytes "null") TNull l
      else '(text, rest) ← scan_number l; Some (Number text, rest)
  end.

Definition close_delim (c : Z) (rest : list Z) (stack : list tokenState)
    : (tokenError + token) * Decoder :=
  match stack with
  | s :: stack' => (inr (Delim c), mkDecoder rest (tokenValueEnd s) stack')
  | [] => (inl SyntaxError, mkDecoder rest tokenTopValue [])
  end.

(** [Token], by recursion on the input: [peek] skips white space, and a comma or a
    colon that is due is consumed on the way to the next token. *)
Fixpoint Token_ (l : list Z) (s : tokenState) (stack : list tokenState)
    : (tokenError + token) * Decoder :=
  let failed := (inl SyntaxError, mkDecoder l s stack) in
  match l with
  | [] => (inl EOF, mkDecoder l s stack)
  | c :: rest =>
      if is_space c then Token_ rest s stack
      else if c =? 91 then
        if tokenValueAllowed s
        then (inr (Delim 91), mkDecoder rest tokenArrayStart (s :: stack)) else failed
      else if c =? 93 then
        if (s ==? tokenArrayStart) || (s ==? tokenArrayComma)
        then close_delim 93 rest stack else failed
      else if c =? 123 then
        if tokenValueAllowed s
        then (inr (Delim 123), mkDecoder rest tokenObjectStart (s :: stack)) else failed
      else if c =? 125 then
        if (s ==? tokenObjectStart) || (s ==? tokenObjectComma)
        then close_delim 125 rest stack else failed
      else if c =? 58 then
        if s ==? tokenObjectColon then Token_ rest tokenObjectValue stack else failed
      else if c =? 44 then
        if s ==? tokenArrayComma then Token_ rest tokenArrayValue stack
        else if s ==? tokenObjectComma then Token_ rest tokenObjectKey stack
        else failed
      else if (c =? 34) && ((s ==? tokenObjectStart) || (s ==? tokenObjectKey)) then
        match read_string rest with
        | Some (key, rest) => (inr (TString key), mkDecoder rest tokenObjectColon stack)
        | None => failed
        end
      else if tokenValueAllowed s then
        match decode_scalar l with
        | Some (t, rest) => (inr t, mkDecoder rest (tokenValueEnd s) stack)
        | None => failed
        end
      else failed
  end.
Definition Token (d : Decoder) : (tokenError + token) * Decoder :=
  Token_ (d_rest d) (d_state d) (d_stack d).

(** [More] peeks past white space. *)
Fixpoint peek (l : list Z) : option Z :=
  match l with
  | [] => None
  | c :: rest => if is_space c then peek rest else Some c
  end.
Definition More (d : Decoder) : bool :=
  match peek (d_rest d) with Some c => negb (c =? 93) && negb (c =? 125) | None => false end.

(** ** The encoder *)

Definition ascii_only (value : list Z) : bool := forallb (λ c, c <? 128) value.

Definition quote_byte (c : Z) : list Z :=
  if (c =? 34) || (c =? 92) then [92; c]
  else if c =? 8 then [92; 98]
  else if c =? 12 then [92; 102]
  else if c =? 10 then [92; 110]
  else if c =? 13 then [92; 114]
  else if c =? 9 then [92; 116]
  else if c <? 32 then [92; 117; 48; 48; hex_char (c / 16); hex_char (c mod 16)]
  else [c].
Definition appendString (encoded value : list Z) : list Z :=
  encoded ++ [34] ++ concat (map quote_byte value) ++ [34].

Definition bytes_le (a b : list Z) : Prop := compare_bytes a b ≠ Gt.
#[export] Instance bytes_le_dec : RelDecision bytes_le.
Proof. intros a b. unfold bytes_le. apply _. Defined.

(** The loop that writes the members, at [index]. *)
Fixpoint append_members (encoded : list Z) (index : nat) (keys : list (list Z))
    (values : gmap (list Z) (list Z)) : list Z :=
  match keys with
  | [] => encoded
  | key :: keys' =>
      let encoded := if (0 <? Z.of_nat index) then encoded ++ [44] else encoded in
      let encoded := appendString encoded key in
      let encoded := encoded ++ [58] in
      append_members (encoded ++ default [] (values !! key)) (S index) keys' values
  end.

(** ** readValue, readObject, readArray

    [readObject] and [readArray] as their loops, from the state in which the loop
    starts; the fuel bounds the nested calls. *)

Fixpoint readValue (fuel : nat) (d : Decoder) (depth : nat) : result (list Z * Decoder) :=
  match fuel with
  | O => Err ErrFuel
  | S fuel =>
      match Token d with
      | (inl _, _) => Err ErrInvalid
      | (inr TNull, d) => Ok (bytes "null", d)
      | (inr (TBool b), d) => Ok (bytes (if b then "true" else "false"), d)
      | (inr (TString value), d) => Ok (appendString [] value, d)
      | (inr (Number text), d) =>
          match ParseInt (string_of_bytes text) with
          | None => Err ErrInvalid
          | Some n =>
              fail_if (n <? - MaxSafeInteger) || (MaxSafeInteger <? n) with ErrInvalid ;;
              Ok (bytes (FormatInt n), d)
          end
      | (inr (Delim c), d) =>
          fail_if (MaxDepth <=? depth)%nat with ErrLimit ;;
          if c =? 123 then readObject fuel d (S depth) ∅ []
          else if c =? 91 then readArray fuel d (S depth) [91]
          else Err ErrInvalid
      end
  end
with readObject (fuel : nat) (d : Decoder) (depth : nat)
    (values : gmap (list Z) (list Z)) (keys : list (list Z)) : result (list Z * Decoder) :=
  match fuel with
  | O => Err ErrFuel
  | S fuel =>
      if More d then
        match Token d with
        | (inr (TString key), d) =>
            fail_if negb (ascii_only key) with ErrInvalid ;;
            fail_if bool_decide (is_Some (values !! key)) with ErrInvalid ;;
            '(value, d) ← readValue fuel d depth;
            readObject fuel d depth (<[key := value]> values) (keys ++ [key])
        | _ => Err ErrInvalid
        end
      else
        match Token d with
        | (inr (Delim 125), d) =>
            Ok (append_members [123] 0 (merge_sort bytes_le keys) values ++ [125], d)
        | _ => Err ErrInvalid
        end
  end
with readArray (fuel : nat) (d : Decoder) (depth : nat) (encoded : list Z) : result (list Z * Decoder) :=
  match fuel with
  | O => Err ErrFuel
  | S fuel =>
      if More d then
        '(value, d) ← readValue fuel d depth;
        let encoded := if (1 <? length encoded)%nat then encoded ++ [44] else encoded in
        readArray fuel d depth (encoded ++ value)
      else
        match Token d with
        | (inr (Delim 93), d) => Ok (encoded ++ [93], d)
        | _ => Err ErrInvalid
        end
  end.

Definition Canonicalize (document : string) (maxBytes : Z) : result string :=
  fail_if (maxBytes <=? 0) || (maxBytes <? len document) with ErrLimit ;;
  fail_if (len document =? 0) || negb (utf8_valid (bytes document))
          || negb (validStringEscapes (bytes document)) with ErrInvalid ;;
  '(encoded, d) ← readValue (2 * String.length document + 2)
                    (mkDecoder (bytes document) tokenTopValue []) 0;
  match Token d with
  | (inl EOF, _) =>
      fail_if maxBytes <? Z.of_nat (length encoded) with ErrLimit ;;
      Ok (string_of_bytes encoded)
  | _ => Err ErrInvalid
  end.

(** Sample documents, with the quotation mark written as [']. *)
Definition quoted (s : string) : string :=
  string_of_bytes (map (λ c, if c =? 39 then 34 else c) (bytes s)).

Example canonical_samples :
  map (λ d, Canonicalize (quoted d) 200)
    [" { 'b' : [1, -0 ,null] , 'a':{'\u0062':'\u00e9\n\/'}} "; "[[1,true],{},[]]"; "[1,]";
     "{'a':1,'\u0061':2}"; "1.0"; "9007199254740992"; "1 2"; "'\ud83d'"; "[1 2]"; "01"]
  = [Ok (quoted (string_of_bytes (bytes "{'a':{'b':'" ++ [195; 169] ++ bytes "\n/'},'b':[1,0,null]}")));
     Ok "[[1,true],{},[]]"; Err ErrInvalid; Err ErrInvalid; Err ErrInvalid; Err ErrInvalid;
     Err ErrInvalid; Err ErrInvalid; Err ErrInvalid; Err ErrInvalid].
Proof. vm_compute. reflexivity. Qed.

(** ** The grammar of accepted documents *)

Inductive jval :=
  | JNull
  | JBool (b : bool)
  | JInt (n : Z)
  | JString (s : list Z)
  | JArray (l : list jval)
  | JObject (l : list (list Z * jval)).

(** The one compact document of a value, its members in the order given. *)
Definition quote (s : list Z) : list Z := [34] ++ concat (map quote_byte s) ++ [34].
Definition join (ls : list (list Z)) : list Z :=
  match ls with [] => [] | x :: ls => x ++ concat (map (cons 44) ls) end.
Fixpoint print (v : jval) : list Z :=
  match v with
  | JNull => bytes "null"
  | JBool b => bytes (if b then "true" else "false")
  | JInt n => bytes (FormatInt n)
  | JString s => quote s
  | JArray l => [91] ++ join (map print l) ++ [93]
  | JObject l => [123] ++ join (map (λ kv, quote kv.1 ++ [58] ++ print kv.2) l) ++ [125]
  end.

(** Members in the order of their keys, at every depth. *)
Definition member_le (a b : list Z * jval) : Prop := bytes_le a.1 b.1.
#[export] Instance member_le_dec : RelDecision member_le.
Proof. intros a b. unfold member_le. apply _. Defined.
Fixpoint sort_keys (v : jval) : jval :=
  match v with
  | JArray l => JArray (map sort_keys l)
  | JObject l => JObject (merge_sort member_le (map (λ kv, (kv.1, sort_keys kv.2)) l))
  | v => v
  end.

Definition space (w : list Z) : Prop := Forall (λ c, is_space c = true) w.

(** [spells_string s raw]: the literal with [raw] between its quotes has the value [s]. *)
Inductive spells_string : list Z → list Z → Prop :=
  | ss_nil : spells_string [] []
  | ss_plain c s raw :
      32 ≤ c → c ≠ 34 → c ≠ 92 → spells_string s raw → spells_string (c :: s) (c :: raw)
  | ss_simple e c s raw :
      simple_escape e = Some c → spells_string s raw → spells_string (c :: s) (92 :: e :: raw)
  | ss_unicode h1 h2 h3 h4 u s raw :
      unicodeEscape [h1; h2; h3; h4] = Some u → high_surrogate u = false → low_surrogate u = false →
      spells_string s raw →
      spells_string (EncodeRune u ++ s) (92 :: 117 :: h1 :: h2 :: h3 :: h4 :: raw)
  | ss_pair h1 h2 h3 h4 l1 l2 l3 l4 hi lo s raw :
      unicodeEscape [h1; h2; h3; h4] = Some hi → high_surrogate hi = true →
      unicodeEscape [l1; l2; l3; l4] = Some lo → low_surrogate lo = true →
      spells_string s raw →
      spells_string (EncodeRune (65536 + (hi - 55296) * 1024 + (lo - 56320)) ++ s)
        (92 :: 117 :: h1 :: h2 :: h3 :: h4 :: 92 :: 117 :: l1 :: l2 :: l3 :: l4 :: raw).

(** An integer literal: a minus sign or none, then [0] or digits that do not start
    with [0]. *)
Definition spells_int (n : Z) (d : list Z) : Prop :=
  (∃ sign c ds, d = sign ++ c :: ds ∧ (sign = [] ∨ sign = [45]) ∧ Forall is_digit_byte (c :: ds) ∧
     (c = 48 → ds = [])) ∧
  ParseInt (string_of_bytes d) = Some n.

(** The elements of an array or the members of an object, with white space around
    them and commas between. *)
Section elements.
Context {A : Type} (R : A → list Z → Prop).
Fixpoint spells_more (vs : list A) (body : list Z) : Prop :=
  match vs with
  | [] => space body
  | v :: vs => ∃ a b d rest, body = a ++ [44] ++ b ++ d ++ rest ∧ space a ∧ space b ∧ R v d ∧
                 spells_more vs rest
  end.
Definition spells_elements (vs : list A) (body : list Z) : Prop :=
  match vs with
  | [] => space body
  | v :: vs => ∃ a d rest, body = a ++ d ++ rest ∧ space a ∧ R v d ∧ spells_more vs rest
  end.
End elements.

Definition spells_member (R : jval → list Z → Prop) (kv : list Z * jval) (d : list Z) : Prop :=
  ∃ raw a b t, d = [34] ++ raw ++ [34] ++ a ++ [58] ++ b ++ t ∧ spells_string kv.1 raw ∧
    space a ∧ space b ∧ R kv.2 t.

(** [spells n v d]: [d] is a spelling of [v], which nests at most [n] deep, holds
    safe integers only, and whose objects have distinct ASCII keys. *)
Fixpoint spells (n : nat) (v : jval) (d : list Z) : Prop :=
  match v with
  | JNull => d = bytes "null"
  | JBool b => d = bytes (if b then "true" else "false")
  | JInt k => spells_int k d ∧ - MaxSafeInteger ≤ k ≤ MaxSafeInteger
  | JString s => ∃ raw, d = [34] ++ raw ++ [34] ∧ spells_string s raw
  | JArray l =>
      match n with
      | O => False
      | S n => ∃ body, d = [91] ++ body ++ [93] ∧ spells_elements (spells n) l body
      end
  | JObject l =>
      match n with
      | O => False
      | S n => NoDup l.*1 ∧ Forall (λ kv, ascii_only kv.1 = true) l ∧
               ∃ body, d = [123] ++ body ++ [125] ∧
                 spells_elements (spells_member (spells n)) l body
      end
  end.

(** A document: a value within white space. *)
Definition denotes (document : list Z) (v : jval) : Prop :=
  ∃ a t b, document = a ++ t ++ b ∧ space a ∧ space b ∧ spells MaxDepth v t.
