(* ===== verification/CanonicalRead.v ===== *)
(** * Reading canonical JSON

    The token reader of [CanonicalJson] against the grammar: what it reads is a
    spelling of the value it emits (soundness), every spelling is read
    (completeness), and the fuel of the model never runs out. *)

From S2P Require Import Prelude GoStrings GoJson CanonicalJson.

(** ** White space *)

Lemma space_not_special c :
  is_space c = true → c ≠ 34 ∧ c ≠ 92 ∧ c ≠ 44 ∧ c ≠ 58 ∧ c ≠ 91 ∧ c ≠ 93 ∧ c ≠ 123 ∧ c ≠ 125.
Proof. unfold is_space. intros H. to_prop. lia. Qed.

Lemma space_app a b : space (a ++ b) ↔ space a ∧ space b.
Proof. apply Forall_app. Qed.

Lemma Token_space w l s stack : space w → Token_ (w ++ l) s stack = Token_ l s stack.
Proof. induction 1 as [|c w Hc _ IH]; [done|]. cbn. by rewrite Hc. Qed.
Lemma peek_space w l : space w → peek (w ++ l) = peek l.
Proof. induction 1 as [|c w Hc _ IH]; [done|]. cbn. by rewrite Hc. Qed.
Lemma string_escapes_outside c l :
  c ≠ 34 → string_escapes false (c :: l) = string_escapes false l.
Proof. intros H. cbn. by rewrite (proj2 (Z.eqb_neq _ _) H), andb_false_r. Qed.
Lemma string_escapes_plain w l :
  Forall (λ c, c ≠ 34) w → string_escapes false (w ++ l) = string_escapes false l.
Proof.
  induction 1 as [|c w Hc _ IH]; [done|]. by rewrite <-app_comm_cons, string_escapes_outside.
Qed.
Lemma string_escapes_space w l : space w → string_escapes false (w ++ l) = string_escapes false l.
Proof.
  intros H. apply string_escapes_plain. eapply Forall_impl; [exact H|]. intros c Hc.
  apply space_not_special in Hc. tauto.
Qed.

(** The input up to its first significant byte. *)
Lemma skip_space l :
  ∃ w l', l = w ++ l' ∧ space w ∧ (l' = [] ∨ ∃ c l'', l' = c :: l'' ∧ is_space c = false).
Proof.
  induction l as [|c l (w & l' & -> & Hw & Hl)]; [by exists [], []; repeat constructor; left|].
  destruct (is_space c) eqn:Hc.
  - exists (c :: w), l'. split; [done|]. split; [by constructor|done].
  - exists [], (c :: w ++ l'). split; [done|]. split; [constructor|]. right. eauto.
Qed.

(** ** String literals *)

Lemma unicodeEscape_four l u :
  unicodeEscape l = Some u →
  ∃ a b c d l', l = a :: b :: c :: d :: l' ∧ unicodeEscape [a; b; c; d] = Some u.
Proof. destruct l as [|a [|b [|c [|d l]]]]; try done. intros H. by exists a, b, c, d, l. Qed.
Lemma unicodeEscape_app a b c d l : unicodeEscape (a :: b :: c :: d :: l) = unicodeEscape [a; b; c; d].
Proof. done. Qed.

Lemma read_string_sound l s rest :
  read_string l = Some (s, rest) → string_escapes true l = true →
  ∃ raw, l = raw ++ 34 :: rest ∧ spells_string s raw ∧ string_escapes false rest = true.
Proof.
  revert s. induction l as [l IH] using (induction_ltof1 _ length). unfold ltof in IH. intros s.
  assert (step : ∀ p v l', (length l' < length l)%nat →
    (∀ s' raw, spells_string s' raw → spells_string (v ++ s') (p ++ raw)) → l = p ++ l' →
    prepend v (read_string l') = Some (s, rest) → string_escapes true l' = true →
    ∃ raw, l = raw ++ 34 :: rest ∧ spells_string s raw ∧ string_escapes false rest = true).
  { intros p v l' Hlen Hs -> Hr He. destruct (read_string l') as [[s' r']|] eqn:E; [|done].
    injection Hr as <- ->. destruct (IH l' Hlen s' E He) as (raw & -> & Hraw & Hrest).
    exists (p ++ raw). rewrite <-app_assoc. eauto. }
  destruct l as [|c l]; [by cbn|]. cbn -[unicodeEscape EncodeRune]. rewrite andb_true_r.
  destruct (c =? 34) eqn:E34; to_prop.
  { subst c. intros [= <- ->] He. exists []. repeat split; [constructor|done]. }
  destruct (c <? 32) eqn:E32; [done|]. destruct (c =? 92) eqn:E92; to_prop; cbn [negb].
  2: { intros Hr He. eapply (step [c] [c] l); [cbn; lia| |done|exact Hr|exact He].
       intros. by apply ss_plain. }
  subst c. destruct l as [|e l]; [done|].
  destruct (simple_escape e) as [v|] eqn:Ev.
  { assert (He : e ≠ 117) by (intros ->; done). rewrite (proj2 (Z.eqb_neq _ _) He). cbn [negb].
    intros Hr He'. eapply (step [92; e] [v] l); [cbn; lia| |done|exact Hr|exact He'].
    intros. by apply ss_simple. }
  destruct (e =? 117) eqn:Ee; to_prop; [subst e|done]. cbn [negb].
  destruct (unicodeEscape l) as [u|] eqn:Eu; [|done].
  apply unicodeEscape_four in Eu as (h1 & h2 & h3 & h4 & l' & -> & Eu).
  destruct (low_surrogate u) eqn:El; [by rewrite orb_true_r; intros _ ?|]. rewrite orb_false_r.
  destruct (high_surrogate u) eqn:Eh; cbn [negb].
  2: { intros Hr He. eapply (step [92; 117; h1; h2; h3; h4] (EncodeRune u) l');
         [cbn; lia| |done|exact Hr|exact He]. intros. by eapply ss_unicode. }
  destruct l' as [|b [|v l']]; [by intros _ ?..|].
  destruct (b =? 92) eqn:Eb; [|by intros _ ?]. destruct (v =? 117) eqn:Ew; [|by intros _ ?]. to_prop. subst.
  destruct (unicodeEscape l') as [lo|] eqn:Elo; [|by intros _ ?].
  apply unicodeEscape_four in Elo as (l1 & l2 & l3 & l4 & l'' & -> & Elo).
  cbn -[unicodeEscape EncodeRune]. rewrite Elo. destruct (low_surrogate lo) eqn:Ell; [|by intros _ ?].
  intros Hr He.
  eapply (step [92; 117; h1; h2; h3; h4; 92; 117; l1; l2; l3; l4] (EncodeRune _) l'');
    [cbn; lia| |done|exact Hr|exact He]. intros. by eapply ss_pair.
Qed.

Lemma read_string_complete s raw rest :
  spells_string s raw → read_string (raw ++ 34 :: rest) = Some (s, rest).
Proof.
  induction 1 as [|c s raw ??? _ IH|e c s raw He _ IH|h1 h2 h3 h4 u s raw Hu Hh Hl _ IH
    |h1 h2 h3 h4 l1 l2 l3 l4 hi lo s raw Hhi Hh Hlo Hl _ IH]; cbn -[unicodeEscape EncodeRune]; [done| | | |].
  - rewrite (proj2 (Z.eqb_neq c 34)), (proj2 (Z.ltb_ge c 32)), (proj2 (Z.eqb_neq c 92)) by done.
    cbn. by rewrite IH.
  - by rewrite He, IH.
  - by rewrite unicodeEscape_app, Hu, Hh, Hl, IH.
  - rewrite unicodeEscape_app, Hhi, Hh, Hlo, Hl. cbn -[EncodeRune]. by rewrite IH.
Qed.

Lemma string_escapes_literal s raw rest :
  spells_string s raw → string_escapes true (raw ++ 34 :: rest) = string_escapes false rest.
Proof.
  induction 1 as [|c s raw ??? _ IH|e c s raw He _ IH|h1 h2 h3 h4 u s raw Hu Hh Hl _ IH
    |h1 h2 h3 h4 l1 l2 l3 l4 hi lo s raw Hhi Hh Hlo Hl _ IH]; cbn -[unicodeEscape EncodeRune]; [done| | | |].
  - by rewrite (proj2 (Z.eqb_neq c 34)), (proj2 (Z.eqb_neq c 92)).
  - assert (Hu : e ≠ 117) by (intros ->; done). by rewrite (proj2 (Z.eqb_neq _ _) Hu).
  - by rewrite unicodeEscape_app, Hu, Hh, Hl.
  - assert (Hn : low_surrogate hi = false).
    { unfold high_surrogate, low_surrogate, in_range in *. to_prop. lia. }
    by rewrite unicodeEscape_app, Hhi, Hn, Hh, unicodeEscape_app, Hlo, Hl.
Qed.

(** ** Number literals *)

Lemma is_digit_spec c : is_digit c = true ↔ is_digit_byte c.
Proof. unfold is_digit, in_range, is_digit_byte. to_prop. done. Qed.

Lemma take_digits_split l ds r :
  take_digits l = (ds, r) → l = ds ++ r ∧ Forall is_digit_byte ds.
Proof.
  revert ds r. induction l as [|c l IH]; intros ds r; cbn; [by intros [= <- <-]|].
  destruct (is_digit c) eqn:Ec; [|by intros [= <- <-]].
  destruct (take_digits l) as [ds' r']. intros [= <- <-].
  destruct (IH ds' r' eq_refl) as [-> H]. split; [done|]. constructor; [by apply is_digit_spec|done].
Qed.

(** What may follow a number. *)
Definition ends_number (rest : list Z) : Prop :=
  match rest with [] => True | c :: _ => is_digit c = false ∧ c ≠ 46 ∧ is_exponent c = false end.

Lemma take_digits_app ds rest :
  Forall is_digit_byte ds → ends_number rest → take_digits (ds ++ rest) = (ds, rest).
Proof.
  induction 1 as [|c ds Hc _ IH]; intros Hr; cbn.
  - destruct rest as [|c rest]; [done|]. cbn. by destruct Hr as (-> & _ & _).
  - apply is_digit_spec in Hc. by rewrite Hc, IH.
Qed.

Lemma parse_digits_stuck a x b acc :
  is_digit x = false → parse_digits acc (a ++ x :: b) = None.
Proof.
  intros Hx. revert acc. induction a as [|c a IH]; intros acc; cbn.
  - unfold digit_value. unfold is_digit in Hx. by rewrite Hx.
  - destruct (digit_value c); [apply IH|done].
Qed.

Lemma ParseInt_stuck sign c a x b :
  (sign = [] ∨ sign = [45]) → is_digit_byte c → is_digit x = false →
  Forall is_byte (sign ++ c :: a ++ x :: b) →
  ParseInt (string_of_bytes (sign ++ c :: a ++ x :: b)) = None.
Proof.
  intros Hs Hc Hx Hb. unfold ParseInt. rewrite bytes_string_of_bytes by done.
  pose proof (parse_digits_stuck (c :: a) x b 0 Hx) as Hp.
  rewrite <-app_comm_cons in Hp. destruct Hs as [->| ->]; cbn [app]; [|by rewrite Hp].
  unfold is_digit_byte in Hc.
  assert (Hcs : c = 48 ∨ c = 49 ∨ c = 50 ∨ c = 51 ∨ c = 52 ∨ c = 53 ∨ c = 54 ∨ c = 55 ∨ c = 56 ∨
    c = 57) by lia.
  by destruct_or! Hcs; subst c; rewrite Hp.
Qed.

#[export] Hint Extern 0 (is_byte _) => (unfold is_byte; lia) : core.
Lemma digit_is_byte c : is_digit_byte c → is_byte c.
Proof. unfold is_digit_byte, is_byte. lia. Qed.

Lemma scan_digits1_split p l ds r :
  scan_digits1 p l = Some (ds, r) →
  ∃ ds', ds = p ++ ds' ∧ l = ds' ++ r ∧ Forall is_digit_byte ds'.
Proof.
  unfold scan_digits1. destruct (take_digits l) as [[|c ds'] r'] eqn:E; [done|]. intros [= <- <-].
  apply take_digits_split in E as [-> ?]. eauto.
Qed.

(** The optional parts start with a byte that is no digit. *)
Definition optional_part (f : list Z) : Prop :=
  f = [] ∨ ∃ x f', f = x :: f' ∧ is_digit x = false ∧ Forall is_byte f.

Lemma scan_fraction_split l f r :
  scan_fraction l = Some (f, r) → l = f ++ r ∧ optional_part f.
Proof.
  unfold scan_fraction. destruct l as [|c l]; [intros [= <- <-]; by split; [|left]|].
  destruct (c =? 46) eqn:Ec; [|intros [= <- <-]; by split; [|left]].
  intros (ds & -> & -> & Hds)%scan_digits1_split. to_prop. subst c. split; [done|]. right.
  exists 46, ds. repeat split. constructor; [by unfold is_byte|].
  eapply Forall_impl; [exact Hds|apply digit_is_byte].
Qed.

Lemma scan_exponent_split l f r :
  scan_exponent l = Some (f, r) → l = f ++ r ∧ optional_part f.
Proof.
  unfold scan_exponent. destruct l as [|c l]; [intros [= <- <-]; by split; [|left]|].
  destruct (is_exponent c) eqn:Ec; cbn [negb]; [|intros [= <- <-]; by split; [|left]].
  assert (Hx : is_digit c = false ∧ is_byte c).
  { unfold is_exponent, is_digit, in_range, is_byte in *. to_prop. lia. }
  destruct Hx as [Hd Hb]. destruct l as [|s l]; [by cbn|].
  destruct ((s =? 43) || (s =? 45)) eqn:Es; intros (ds & -> & Hl & Hds)%scan_digits1_split.
  - rewrite Hl. split; [done|]. right. exists c, (s :: ds). repeat split; [done|].
    constructor; [done|]. constructor; [unfold is_byte; to_prop; lia|].
    eapply Forall_impl; [exact Hds|apply digit_is_byte].
  - rewrite Hl. split; [done|]. right. exists c, ds. repeat split; [done|].
    constructor; [done|]. eapply Forall_impl; [exact Hds|apply digit_is_byte].
Qed.

Lemma scan_sign_split l sign r :
  scan_sign l = (sign, r) → l = sign ++ r ∧ (sign = [] ∨ sign = [45]).
Proof.
  unfold scan_sign. destruct l as [|c l]; [intros [= <- <-]; auto|].
  destruct (c =? 45) eqn:E; intros [= <- <-]; to_prop; subst; auto.
Qed.

Lemma scan_int_split l i r :
  scan_int l = Some (i, r) →
  l = i ++ r ∧ ∃ c ds, i = c :: ds ∧ Forall is_digit_byte i ∧ (c = 48 → ds = []).
Proof.
  unfold scan_int. destruct l as [|c l]; [done|]. destruct (c =? 48) eqn:E0; to_prop.
  - subst c. intros [= <- <-]. split; [done|]. exists 48, []. repeat split.
    constructor; [by unfold is_digit_byte|constructor].
  - destruct (is_digit c) eqn:Ed; [|done]. destruct (take_digits l) as [ds r'] eqn:E. intros [= <- <-].
    apply take_digits_split in E as [-> Hds]. split; [done|]. exists c, ds. repeat split; [|by intros ->].
    constructor; [by apply is_digit_spec|done].
Qed.

Lemma scan_number_split l text rest :
  scan_number l = Some (text, rest) →
  l = text ++ rest ∧ ∃ sign c ds f e,
    text = sign ++ (c :: ds) ++ f ++ e ∧ (sign = [] ∨ sign = [45]) ∧
    Forall is_digit_byte (c :: ds) ∧ (c = 48 → ds = []) ∧ optional_part f ∧ optional_part e.
Proof.
  unfold scan_number. destruct (scan_sign l) as [sign l1] eqn:Es.
  destruct (scan_int l1) as [[i l2]|] eqn:Ei; [|done].
  destruct (scan_fraction l2) as [[f l3]|] eqn:Ef; [cbn|by cbn; rewrite Ef].
  rewrite Ef. cbn. destruct (scan_exponent l3) as [[e l4]|] eqn:Ee; cbn; [|done].
  intros [= <- <-]. apply scan_sign_split in Es as [-> ?].
  apply scan_int_split in Ei as [-> (c & ds & -> & ? & ?)].
  apply scan_fraction_split in Ef as [-> ?]. apply scan_exponent_split in Ee as [-> ?].
  split; [by rewrite <-!app_assoc|]. by exists sign, c, ds, f, e.
Qed.

Lemma scan_number_sound l text rest n :
  scan_number l = Some (text, rest) → ParseInt (string_of_bytes text) = Some n →
  l = text ++ rest ∧ spells_int n text.
Proof.
  intros (-> & sign & c & ds & f & e & -> & Hs & Hd & H0 & Hf & He)%scan_number_split Hp.
  split; [done|]. split; [|done].
  assert (Hb : Forall is_byte (sign ++ c :: ds)).
  { apply Forall_app_2; [destruct Hs as [-> | ->]; auto|].
    eapply Forall_impl; [exact Hd|apply digit_is_byte]. }
  assert (Hc : is_digit_byte c) by by apply Forall_cons in Hd as [? _].
  assert (stuck : ∀ x t, is_digit x = false → Forall is_byte (x :: t) → f ++ e = x :: t → False).
  { intros x t Hx Ht E. rewrite E, <-app_comm_cons, ParseInt_stuck in Hp; try done.
    rewrite app_comm_cons, app_assoc. by apply Forall_app_2. }
  assert (Hnil : f = [] ∧ e = []).
  { destruct Hf as [->|(x & f' & -> & Hx & Hfb)].
    - destruct He as [->|(x & e' & -> & Hx & Heb)]; [done|]. by destruct (stuck x e').
    - destruct (stuck x (f' ++ e)); [done| |done].
      rewrite app_comm_cons. apply Forall_app_2; [done|].
      destruct He as [->|(? & ? & -> & _ & ?)]; [constructor|done]. }
  destruct Hnil as [-> ->]. exists sign, c, ds. by rewrite app_nil_r.
Qed.

Lemma scan_number_complete n text rest :
  spells_int n text → ends_number rest → scan_number (text ++ rest) = Some (text, rest).
Proof.
  intros [(sign & c & ds & -> & Hs & Hd & H0) _] Hr. unfold scan_number.
  apply Forall_cons in Hd as [Hc Hds]. pose proof Hc as Hc'. unfold is_digit_byte in Hc'.
  assert (Es : scan_sign ((sign ++ c :: ds) ++ rest) = (sign, (c :: ds) ++ rest)).
  { destruct Hs as [->| ->]; cbn; [|done]. by rewrite (proj2 (Z.eqb_neq c 45)) by lia. }
  assert (Ei : scan_int ((c :: ds) ++ rest) = Some (c :: ds, rest)).
  { cbn. destruct (c =? 48) eqn:E0; to_prop; [subst c; by rewrite H0|].
    apply is_digit_spec in Hc. by rewrite Hc, take_digits_app. }
  assert (Ef : scan_fraction rest = Some ([], rest)).
  { destruct rest as [|x rest]; [done|]. destruct Hr as (_ & Hx & _). cbn.
    by rewrite (proj2 (Z.eqb_neq x 46)). }
  assert (Ee : scan_exponent rest = Some ([], rest)).
  { destruct rest as [|x rest]; [done|]. destruct Hr as (_ & _ & Hx). cbn. by rewrite Hx. }
  rewrite Es, Ei. cbn. rewrite Ef. cbn. rewrite Ee. cbn. by rewrite app_nil_r.
Qed.

(** ** Spellings leave the escape scan outside of literals *)

Definition neutral (d : list Z) : Prop :=
  ∀ rest, string_escapes false (d ++ rest) = string_escapes false rest.

Lemma neutral_app a b : neutral a → neutral b → neutral (a ++ b).
Proof. intros Ha Hb rest. by rewrite <-app_assoc, Ha, Hb. Qed.
Lemma neutral_plain w : Forall (λ c, c ≠ 34) w → neutral w.
Proof. intros H rest. by apply string_escapes_plain. Qed.
Lemma neutral_space w : space w → neutral w.
Proof. intros H rest. by apply string_escapes_space. Qed.
Lemma neutral_literal s raw : spells_string s raw → neutral ([34] ++ raw ++ [34]).
Proof.
  intros H rest. rewrite <-!app_assoc. cbn [app]. cbn. by eapply string_escapes_literal.
Qed.
Lemma neutral_one c : c ≠ 34 → neutral [c].
Proof. intros H. apply neutral_plain. by repeat constructor. Qed.
Lemma neutral_int n d : spells_int n d → neutral d.
Proof.
  intros [(sign & c & ds & -> & Hs & Hd & _) _]. apply neutral_app.
  - destruct Hs as [-> | ->]; [by intros rest|by apply neutral_one].
  - apply neutral_plain. eapply Forall_impl; [exact Hd|]. unfold is_digit_byte. lia.
Qed.

Create HintDb spell.
#[export] Hint Resolve neutral_app neutral_space neutral_one neutral_literal neutral_int : spell.

Section elements_neutral.
Context {A : Type} (R : A → list Z → Prop) (HR : ∀ v d, R v d → neutral d).

Lemma spells_more_neutral vs body : spells_more R vs body → neutral body.
Proof.
  revert body. induction vs as [|v vs IH]; intros body; cbn; [apply neutral_space|].
  intros (a & b & d & rest & -> & Ha & Hb & Hd & Hrest). change (44 :: b ++ d ++ rest) with ([44] ++ b ++ d ++ rest).
  repeat apply neutral_app; eauto with spell.
Qed.
Lemma spells_elements_neutral vs body : spells_elements R vs body → neutral body.
Proof.
  destruct vs as [|v vs]; cbn; [apply neutral_space|]. intros (a & d & rest & -> & Ha & Hd & Hrest).
  repeat apply neutral_app; eauto using spells_more_neutral with spell.
Qed.
End elements_neutral.

Lemma spells_member_neutral R kv d :
  (∀ v d, R v d → neutral d) → spells_member R kv d → neutral d.
Proof.
  intros HR (raw & a & b & t & -> & Hk & Ha & Hb & Ht).
  replace ([34] ++ raw ++ [34] ++ a ++ [58] ++ b ++ t)
    with (([34] ++ raw ++ [34]) ++ a ++ [58] ++ b ++ t) by by rewrite <-!app_assoc.
  apply neutral_app; [by eapply neutral_literal|].
  repeat apply neutral_app; eauto with spell.
Qed.

Lemma spells_neutral n v d : spells n v d → neutral d.
Proof.
  revert v d. induction n as [|n IH]; intros v d; destruct v as [|b|k|s|l|l]; cbn; try done;
    try (intros ->; apply neutral_plain; destruct b; by repeat constructor);
    try (intros ->; apply neutral_plain; by repeat constructor);
    try (intros [H _]; eauto with spell; fail);
    try (intros (raw & -> & H); change (neutral ([34] ++ raw ++ [34])); eauto with spell; fail).
  - intros (body & -> & H). apply (neutral_app [91]); [by apply neutral_one|].
    apply neutral_app; [|by apply neutral_one]. by eapply spells_elements_neutral.
  - intros (_ & _ & body & -> & H). apply (neutral_app [123]); [by apply neutral_one|].
    apply neutral_app; [|by apply neutral_one].
    eapply spells_elements_neutral; [|exact H]. intros kv d. by apply spells_member_neutral.
Qed.

(** ** The encoder writes the sorted members *)

#[export] Instance bytes_le_trans : Transitive bytes_le.
Proof. intros a b c. apply compare_bytes_trans. Qed.
#[export] Instance bytes_le_total : Total bytes_le.
Proof.
  intros a b. unfold bytes_le. rewrite (compare_bytes_opp a b). destruct (compare_bytes a b); auto.
Qed.
Lemma bytes_le_antisym a b : bytes_le a b → bytes_le b a → a = b.
Proof.
  unfold bytes_le. rewrite (compare_bytes_opp a b), <-compare_bytes_eq. by destruct (compare_bytes a b).
Qed.
#[export] Instance member_le_trans : Transitive member_le.
Proof. intros a b c. apply bytes_le_trans. Qed.
#[export] Instance member_le_total : Total member_le.
Proof. intros a b. apply bytes_le_total. Qed.

Lemma appendString_quote encoded s : appendString encoded s = encoded ++ quote s.
Proof. done. Qed.

Definition member_text (k v : list Z) : list Z := quote k ++ [58] ++ v.

Lemma append_members_text encoded i keys values :
  let texts := map (λ k, member_text k (default [] (values !! k))) keys in
  append_members encoded i keys values =
    encoded ++ (if Nat.eqb i 0 then join texts else concat (map (cons 44) texts)).
Proof.
  revert encoded i. induction keys as [|k keys IH]; intros encoded i; cbn [append_members map].
  { by destruct i; rewrite app_nil_r. }
  rewrite IH, appendString_quote. unfold member_text. destruct i; cbn [Nat.eqb Z.of_nat Z.ltb Z.compare]; cbn [map join concat app];
    repeat (rewrite <-?app_assoc; cbn [app]).
  - done.
  - rewrite (proj2 (Z.ltb_lt _ _)) by lia. by rewrite <-app_assoc.
Qed.

Lemma sorted_keys (ms : list (list Z * jval)) :
  merge_sort bytes_le ms.*1 = (merge_sort member_le ms).*1.
Proof.
  apply (StronglySorted_unique_strong bytes_le).
  - intros. by apply bytes_le_antisym.
  - apply (StronglySorted_merge_sort bytes_le).
  - pose proof (StronglySorted_merge_sort member_le ms) as H.
    induction H as [|m l _ IH Hm]; [constructor|]. constructor; [done|]. by apply Forall_fmap.
  - by rewrite !merge_sort_Permutation.
Qed.

(** The printed members of an object. *)
Definition printed (ms : list (list Z * jval)) : list (list Z * list Z) :=
  map (λ kv, (kv.1, print (sort_keys kv.2))) ms.

Lemma printed_keys ms : (printed ms).*1 = ms.*1.
Proof. unfold printed. rewrite <-list_fmap_compose. done. Qed.

Lemma append_members_sorted ms :
  NoDup ms.*1 →
  append_members [123] 0 (merge_sort bytes_le (printed ms).*1) (list_to_map (printed ms)) ++ [125]
  = print (sort_keys (JObject ms)).
Proof.
  intros Hnd. rewrite append_members_text. cbn [print sort_keys Nat.eqb].
  rewrite <-app_assoc. f_equal. f_equal. f_equal.
  set (ms' := map (λ kv, (kv.1, sort_keys kv.2)) ms).
  assert (Hk : (printed ms).*1 = ms'.*1).
  { rewrite printed_keys. unfold ms'. by rewrite <-list_fmap_compose. }
  rewrite Hk, sorted_keys, <-list_fmap_compose. apply map_ext_in.
  intros [k v] Hin%list_elem_of_In. rewrite merge_sort_Permutation in Hin.
  unfold ms' in Hin. apply list_elem_of_fmap in Hin as ([k' v'] & [= -> ->] & Hin). cbn.
  rewrite (elem_of_list_to_map_1 _ _ (print (sort_keys v'))); [done|by rewrite printed_keys|].
  apply list_elem_of_fmap. by exists (k', v').
Qed.

(** ** Reading: soundness *)

(** What [Token] passes over on the way to a value, and the state it then is in. *)
Definition value_prefix (s : tokenState) (p : list Z) : Prop :=
  match s with
  | tokenTopValue | tokenArrayStart | tokenArrayValue | tokenObjectValue => space p
  | tokenArrayComma => ∃ a b, p = a ++ [44] ++ b ∧ space a ∧ space b
  | tokenObjectColon => ∃ a b, p = a ++ [58] ++ b ∧ space a ∧ space b
  | _ => False
  end.
Definition value_state (s : tokenState) : tokenState :=
  match s with
  | tokenArrayComma => tokenArrayValue
  | tokenObjectColon => tokenObjectValue
  | s => s
  end.
Definition expects_value (s : tokenState) : bool := tokenValueAllowed (value_state s).

(** The token at a value: an opening bracket or a scalar. *)
Definition value_token (s : tokenState) (stack : list tokenState) (l : list Z) (t : token) (d : Decoder)
    : Prop :=
  (t = Delim 91 ∧ ∃ rest, l = 91 :: rest ∧ d = mkDecoder rest tokenArrayStart (s :: stack)) ∨
  (t = Delim 123 ∧ ∃ rest, l = 123 :: rest ∧ d = mkDecoder rest tokenObjectStart (s :: stack)) ∨
  ∃ rest, decode_scalar l = Some (t, rest) ∧ d = mkDecoder rest (tokenValueEnd s) stack.

(** The first significant byte decides the token. *)
Lemma Token_nonspace c l s stack :
  is_space c = false → Token_ (c :: l) s stack =
  let failed := (inl SyntaxError, mkDecoder (c :: l) s stack) in
      if c =? 91 then
        if tokenValueAllowed s
        then (inr (Delim 91), mkDecoder l tokenArrayStart (s :: stack)) else failed
      else if c =? 93 then
        if (s ==? tokenArrayStart) || (s ==? tokenArrayComma)
        then close_delim 93 l stack else failed
      else if c =? 123 then
        if tokenValueAllowed s
        then (inr (Delim 123), mkDecoder l tokenObjectStart (s :: stack)) else failed
      else if c =? 125 then
        if (s ==? tokenObjectStart) || (s ==? tokenObjectComma)
        then close_delim 125 l stack else failed
      else if c =? 58 then
        if s ==? tokenObjectColon then Token_ l tokenObjectValue stack else failed
      else if c =? 44 then
        if s ==? tokenArrayComma then Token_ l tokenArrayValue stack
        else if s ==? tokenObjectComma then Token_ l tokenObjectKey stack
        else failed
      else if (c =? 34) && ((s ==? tokenObjectStart) || (s ==? tokenObjectKey)) then
        match read_string l with
        | Some (key, rest) => (inr (TString key), mkDecoder rest tokenObjectColon stack)
        | None => failed
        end
      else if tokenValueAllowed s then
        match decode_scalar (c :: l) with
        | Some (t, rest) => (inr t, mkDecoder rest (tokenValueEnd s) stack)
        | None => failed
        end
      else failed.
Proof. intros H. cbn -[decode_scalar read_string]. by rewrite H. Qed.

Ltac case_byte c k :=
  let E := fresh "E" in destruct (c =? k) eqn:E; [apply Z.eqb_eq in E; subst c|].

Lemma Token_at_value s l stack t d :
  tokenValueAllowed s = true → Token_ l s stack = (inr t, d) → t ≠ Delim 93 → t ≠ Delim 125 →
  ∃ w l', l = w ++ l' ∧ space w ∧ value_token s stack l' t d.
Proof.
  intros Hs Ht H93 H125.
  destruct (skip_space l) as (w & l' & -> & Hw & Hl'). rewrite Token_space in Ht by done.
  exists w, l'. split; [done|]. split; [done|]. destruct Hl' as [->|(c & l & -> & Hc)]; [done|].
  rewrite Token_nonspace in Ht by done. cbv zeta in Ht. rewrite Hs in Ht.
  case_byte c 91. { injection Ht as <- <-. left. eauto. }
  case_byte c 93.
  { destruct (_ || _); [|done]. unfold close_delim in Ht. destruct stack; [done|]. by injection Ht as <- _. }
  case_byte c 123. { injection Ht as <- <-. right. left. eauto. }
  case_byte c 125.
  { destruct (_ || _); [|done]. unfold close_delim in Ht. destruct stack; [done|]. by injection Ht as <- _. }
  case_byte c 58. { rewrite bool_decide_false in Ht by (by intros ->). done. }
  case_byte c 44. { rewrite !bool_decide_false in Ht by (by intros ->). done. }
  rewrite !(bool_decide_false (s = _)) in Ht by (by intros ->). rewrite andb_false_r in Ht.
  destruct (decode_scalar (c :: l)) as [[t' rest]|] eqn:Es; [|done]. injection Ht as <- <-.
  right. right. eauto.
Qed.

Lemma Token_to_value s l stack t d :
  expects_value s = true → Token_ l s stack = (inr t, d) → t ≠ Delim 93 → t ≠ Delim 125 →
  ∃ p l', l = p ++ l' ∧ value_prefix s p ∧ value_token (value_state s) stack l' t d.
Proof.
  intros Hs Ht H93 H125. destruct (tokenValueAllowed s) eqn:Ha.
  { destruct (Token_at_value s l stack t d) as (w & l' & -> & Hw & Hv); [done..|]. exists w, l'.
    destruct s; try discriminate Ha; done. }
  destruct (skip_space l) as (w & l' & -> & Hw & Hl'). rewrite Token_space in Ht by done.
  destruct Hl' as [->|(c & l & -> & Hc)]; [done|]. rewrite Token_nonspace in Ht by done.
  cbv zeta in Ht. rewrite Ha in Ht.
  assert (close : ∀ k x st, k = 93 ∨ k = 125 → close_delim k x st = (inr t, d) → False).
  { intros k x [|s' st] Hk Hx; [done|]. injection Hx as <- _. destruct Hk; subst; congruence. }
  assert (next : ∀ c', tokenValueAllowed (value_state s) = true →
    Token_ l (value_state s) stack = (inr t, d) →
    (∀ a b, space a → space b → value_prefix s (a ++ [c'] ++ b)) →
    ∃ p l', w ++ c' :: l = p ++ l' ∧ value_prefix s p ∧ value_token (value_state s) stack l' t d).
  { intros c' Hv Hn Hp. apply Token_at_value in Hn as (w' & l' & -> & Hw' & Ht'); [|done..].
    exists (w ++ [c'] ++ w'), l'. split; [by rewrite <-!app_assoc|]. auto. }
  case_byte c 91; [done|]. case_byte c 93; [destruct (_ || _); [exfalso; eauto|done]|].
  case_byte c 123; [done|]. case_byte c 125; [destruct (_ || _); [exfalso; eauto|done]|].
  case_byte c 58. { case_bool_decide; [subst s|done]. apply (next 58); [done..|]. cbn. eauto. }
  case_byte c 44.
  { case_bool_decide; [subst s; apply (next 44); [done..|]; cbn; by eauto|].
    case_bool_decide; [by subst s|done]. }
  rewrite !(bool_decide_false (s = _)) in Ht by (by intros ->). by rewrite andb_false_r in Ht.
Qed.

(** Reading a key, which a comma precedes except at the start. *)
Definition key_prefix (s : tokenState) (p : list Z) : Prop :=
  match s with
  | tokenObjectStart | tokenObjectKey => space p
  | tokenObjectComma => ∃ a b, p = a ++ [44] ++ b ∧ space a ∧ space b
  | _ => False
  end.

Lemma Token_at_key s l stack t d :
  s = tokenObjectStart ∨ s = tokenObjectKey → Token_ l s stack = (inr t, d) → t ≠ Delim 125 →
  ∃ w l' k rest, l = w ++ 34 :: l' ∧ space w ∧ read_string l' = Some (k, rest) ∧ t = TString k ∧
    d = mkDecoder rest tokenObjectColon stack.
Proof.
  intros Hs Ht H125. destruct (skip_space l) as (w & l' & -> & Hw & Hl'). rewrite Token_space in Ht by done.
  destruct Hl' as [->|(c & l & -> & Hc)]; [done|]. rewrite Token_nonspace in Ht by done. cbv zeta in Ht.
  assert (Ha : tokenValueAllowed s = false) by by destruct Hs; subst. rewrite Ha in Ht.
  case_byte c 91; [done|].
  case_byte c 93; [rewrite !bool_decide_false in Ht by (by destruct Hs; subst); done|].
  case_byte c 123; [done|].
  case_byte c 125.
  { destruct (_ || _); [|done]. unfold close_delim in Ht. destruct stack; [done|]. by injection Ht as <- _. }
  case_byte c 58; [rewrite !bool_decide_false in Ht by (by destruct Hs; subst); done|].
  case_byte c 44; [rewrite !bool_decide_false in Ht by (by destruct Hs; subst); done|].
  destruct (_ && _) eqn:Eq; [|done]. apply andb_true_iff in Eq as [->%Z.eqb_eq _].
  destruct (read_string l) as [[k rest]|] eqn:Er; [|done]. injection Ht as <- <-. by exists w, l, k, rest.
Qed.

Lemma Token_to_key s l stack t d :
  s = tokenObjectStart ∨ s = tokenObjectComma → Token_ l s stack = (inr t, d) → t ≠ Delim 125 →
  ∃ p l' k rest, l = p ++ 34 :: l' ∧ key_prefix s p ∧ read_string l' = Some (k, rest) ∧ t = TString k ∧
    d = mkDecoder rest tokenObjectColon stack.
Proof.
  intros [->| ->] Ht H125.
  { apply Token_at_key in Ht as (w & l' & k & rest & ?); [|auto..]. by exists w, l', k, rest. }
  destruct (skip_space l) as (w & l' & -> & Hw & Hl'). rewrite Token_space in Ht by done.
  destruct Hl' as [->|(c & l & -> & Hc)]; [done|]. rewrite Token_nonspace in Ht by done.
  cbn [tokenValueAllowed] in Ht. cbv zeta in Ht.
  case_byte c 91; [done|]. case_byte c 93; [done|]. case_byte c 123; [done|].
  case_byte c 125. { cbn in Ht. unfold close_delim in Ht. destruct stack; [done|]. by injection Ht as <- _. }
  case_byte c 58; [done|]. case_byte c 44.
  { rewrite bool_decide_false, bool_decide_true in Ht by done.
    apply Token_at_key in Ht as (w' & l' & k & rest & -> & Hw' & ?); [|auto..].
    exists (w ++ [44] ++ w'), l', k, rest. rewrite <-!app_assoc. split; [done|]. split; [|done]. cbn. eauto. }
  rewrite !(bool_decide_false (_ = _)) in Ht by done. by rewrite andb_false_r in Ht.
Qed.

(** The end of an array or an object. *)
Lemma Token_close c s l stack d :
  c = 93 ∨ c = 125 → Token_ l s stack = (inr (Delim c), d) → (∀ c', peek l = Some c' → c' = 93 ∨ c' = 125) →
  ∃ w rest s0 stack', l = w ++ c :: rest ∧ space w ∧ stack = s0 :: stack' ∧
    d = mkDecoder rest (tokenValueEnd s0) stack'.
Proof.
  intros Hk Ht Hpeek. destruct (skip_space l) as (w & l' & -> & Hw & Hl').
  rewrite Token_space in Ht by done. rewrite peek_space in Hpeek by done.
  destruct Hl' as [->|(c0 & l & -> & Hc)]; [done|]. rewrite Token_nonspace in Ht by done.
  assert (close : ∀ k, close_delim k l stack = (inr (Delim c), d) → k = c ∧ ∃ s0 stack', stack = s0 :: stack' ∧
    d = mkDecoder l (tokenValueEnd s0) stack').
  { intros k. destruct stack as [|s0 st]; [done|]. intros [= -> <-]. eauto. }
  destruct (Hpeek c0) as [->| ->]; [cbn; by rewrite Hc|..]; cbn -[close_delim] in Ht;
    (destruct (_ || _); [|done]); apply close in Ht as [<- (s0 & st & -> & ->)]; eauto 10.
Qed.

#[global] Arguments MaxDepth : simpl never.

Lemma literal_token_sound word t l t' rest :
  literal_token word t l = Some (t', rest) → t' = t ∧ l = word ++ rest.
Proof.
  unfold literal_token. case_bool_decide as H; [|done]. intros [= <- <-]. split; [done|].
  by rewrite <-H at 1; rewrite take_drop.
Qed.

Lemma decode_scalar_sound l t rest :
  decode_scalar l = Some (t, rest) → string_escapes false l = true →
  match t with
  | TNull => l = bytes "null" ++ rest
  | TBool b => l = bytes (if b then "true" else "false") ++ rest
  | TString s => ∃ raw, l = ([34] ++ raw ++ [34]) ++ rest ∧ spells_string s raw
  | Number text => scan_number l = Some (text, rest)
  | Delim _ => False
  end.
Proof.
  unfold decode_scalar. destruct l as [|c l]; [done|]. intros Hd He. case_byte c 34.
  { destruct (read_string l) as [[s r]|] eqn:Er; [|done]. injection Hd as <- <-.
    apply read_string_sound in Er as (raw & -> & Hs & _); [|done]. exists raw.
    split; [|done]. by rewrite <-!app_assoc. }
  case_byte c 116; [by apply literal_token_sound in Hd as [-> ?]|].
  case_byte c 102; [by apply literal_token_sound in Hd as [-> ?]|].
  case_byte c 110; [by apply literal_token_sound in Hd as [-> ?]|].
  destruct (scan_number (c :: l)) as [[x r]|] eqn:Es; [|done]. by injection Hd as <- <-.
Qed.

Lemma value_prefix_neutral s p : value_prefix s p → neutral p.
Proof.
  destruct s; cbn; try done; try apply neutral_space; intros (a & b & -> & ? & ?);
    (apply neutral_app; [by apply neutral_space|]);
    (apply (neutral_app [_]); [by apply neutral_one|by apply neutral_space]).
Qed.
Lemma key_prefix_neutral s p : key_prefix s p → neutral p.
Proof.
  destruct s; cbn; try done; try apply neutral_space; intros (a & b & -> & ? & ?);
    (apply neutral_app; [by apply neutral_space|]);
    (apply (neutral_app [_]); [by apply neutral_one|by apply neutral_space]).
Qed.

Lemma FormatInt_nonempty n : bytes (FormatInt n) ≠ [].
Proof.
  intros H. assert (Hl : String.length (FormatInt n) = 0%nat) by by rewrite <-length_bytes, H.
  destruct (FormatInt n) eqn:E; [|done]. unfold FormatInt in E. destruct (n <? 0); [done|].
  destruct (digits 19 n []) eqn:Ed; [by apply (digits_nonempty 18 n)|done].
Qed.
Lemma print_nonempty v : (0 < length (print v))%nat.
Proof.
  destruct v as [|[]|n|s|l|l]; cbn; rewrite ?length_app; cbn; try lia.
  pose proof (FormatInt_nonempty n). destruct (bytes (FormatInt n)); [done|cbn; lia].
Qed.

Definition value_sound (fuel : nat) : Prop := ∀ l s stack depth out d,
  readValue fuel (mkDecoder l s stack) depth = Ok (out, d) → expects_value s = true →
  string_escapes false l = true →
  ∃ p t rest v, l = p ++ t ++ rest ∧ value_prefix s p ∧ spells (MaxDepth - depth) v t ∧
    out = print (sort_keys v) ∧ d = mkDecoder rest (tokenValueEnd (value_state s)) stack.

Definition array_sound (fuel : nat) : Prop := ∀ l s s0 stack depth enc out d,
  readArray fuel (mkDecoder l s (s0 :: stack)) depth enc = Ok (out, d) →
  (s = tokenArrayStart ∧ enc = [91]) ∨ (s = tokenArrayComma ∧ (1 < length enc)%nat) →
  string_escapes false l = true →
  ∃ body rest vs, l = body ++ 93 :: rest ∧ d = mkDecoder rest (tokenValueEnd s0) stack ∧
    if s ==? tokenArrayStart
    then spells_elements (spells (MaxDepth - depth)) vs body ∧
         out = enc ++ join (map (print ∘ sort_keys) vs) ++ [93]
    else spells_more (spells (MaxDepth - depth)) vs body ∧
         out = enc ++ concat (map (cons 44) (map (print ∘ sort_keys) vs)) ++ [93].

Definition object_sound (fuel : nat) : Prop := ∀ l s s0 stack depth prev out d,
  readObject fuel (mkDecoder l s (s0 :: stack)) depth (list_to_map prev) prev.*1 = Ok (out, d) →
  s = tokenObjectStart ∨ s = tokenObjectComma → NoDup prev.*1 → string_escapes false l = true →
  ∃ body rest ms, l = body ++ 125 :: rest ∧ d = mkDecoder rest (tokenValueEnd s0) stack ∧
    NoDup (prev ++ printed ms).*1 ∧ Forall (λ kv, ascii_only kv.1 = true) ms ∧
    out = append_members [123] 0 (merge_sort bytes_le (prev ++ printed ms).*1)
            (list_to_map (prev ++ printed ms)) ++ [125] ∧
    if s ==? tokenObjectStart
    then spells_elements (spells_member (spells (MaxDepth - depth))) ms body
    else spells_more (spells_member (spells (MaxDepth - depth))) ms body.

Lemma depth_left depth : (depth < MaxDepth)%nat → (MaxDepth - depth = S (MaxDepth - S depth))%nat.
Proof. lia. Qed.

Lemma readValue_sound fuel : array_sound fuel → object_sound fuel → value_sound (S fuel).
Proof.
  intros IHa IHo l s stack depth out d Hr Hs He. cbn -[ParseInt FormatInt] in Hr. unfold Token in Hr. cbn in Hr.
  destruct (Token_ l s stack) as [[|t] d'] eqn:Et; [done|].
  assert (H93 : t ≠ Delim 93). { intros ->. cbn in Hr. by destruct (_ <=? _)%nat. }
  assert (H125 : t ≠ Delim 125). { intros ->. cbn in Hr. by destruct (_ <=? _)%nat. }
  apply Token_to_value in Et as (p & l' & -> & Hp & Ht); [|done..].
  rewrite (value_prefix_neutral s p Hp) in He.
  destruct Ht as [(-> & rest & -> & ->)|[(-> & rest & -> & ->)|(rest & Hd & ->)]].
  - cbn in Hr. apply ok_fail_if in Hr as [Hdepth%Nat.leb_gt Hr].
    rewrite string_escapes_outside in He by done.
    destruct (IHa _ _ _ _ _ _ _ _ Hr) as (body & rest' & vs & -> & -> & Hv); [by left|done|].
    rewrite bool_decide_true in Hv by done. destruct Hv as [Hv ->].
    exists p, ([91] ++ body ++ [93]), rest', (JArray vs). rewrite <-!app_assoc. split; [done|]. split; [done|].
    rewrite (depth_left depth) by done. split; [by exists body|]. cbn. by rewrite map_map.
  - cbn in Hr. apply ok_fail_if in Hr as [Hdepth%Nat.leb_gt Hr].
    rewrite string_escapes_outside in He by done.
    destruct (IHo _ _ _ _ _ [] _ _ Hr) as (body & rest' & ms & -> & -> & Hnd & Hk & -> & Hm);
      [by left|constructor|done|].
    rewrite bool_decide_true in Hm by done. cbn [app] in Hnd |- *. rewrite printed_keys in Hnd.
    exists p, ([123] ++ body ++ [125]), rest', (JObject ms). rewrite <-!app_assoc. split; [done|]. split; [done|].
    rewrite (depth_left depth) by done. split; [repeat split; [done|done|by exists body]|].
    by rewrite append_members_sorted.
  - apply decode_scalar_sound in Hd; [|done]. destruct t as [c|b|text|value|].
    + done.
    + injection Hr as <- <-. subst l'. eexists p, _, rest, (JBool b). split; [done|]. by destruct (MaxDepth - depth)%nat.
    + destruct (ParseInt _) as [n|] eqn:En; [|done]. apply ok_fail_if in Hr as [Hn [= <- <-]].
      destruct (scan_number_sound _ _ _ _ Hd En) as [-> Hi]. exists p, text, rest, (JInt n).
      split; [done|]. split; [done|]. split; [|done].
      assert (spells_int n text ∧ - MaxSafeInteger ≤ n ≤ MaxSafeInteger) by (to_prop; split; [done|lia]).
      by destruct (MaxDepth - depth)%nat.
    + injection Hr as <- <-. destruct Hd as (raw & -> & Hv).
      exists p, ([34] ++ raw ++ [34]), rest, (JString value). split; [done|]. split; [done|].
      assert (∃ raw', [34] ++ raw ++ [34] = [34] ++ raw' ++ [34] ∧ spells_string value raw') by eauto.
      by destruct (MaxDepth - depth)%nat.
    + injection Hr as <- <-. subst l'. eexists p, _, rest, JNull. split; [done|]. by destruct (MaxDepth - depth)%nat.
Qed.

Lemma peek_more l s stack c :
  More (mkDecoder l s stack) = false → peek l = Some c → c = 93 ∨ c = 125.
Proof. unfold More. cbn. intros H E. rewrite E in H. to_prop. lia. Qed.

Lemma readArray_sound fuel : value_sound fuel → array_sound fuel → array_sound (S fuel).
Proof.
  intros IHv IHa l s s0 stack depth enc out d Hr Hs He. cbn -[Nat.ltb] in Hr.
  destruct (More _) eqn:Em.
  - inv_run Hr. destruct v as [value d']. rename H into Hv.
    destruct (IHv _ _ _ _ _ _ Hv) as (p & t & rest & v & -> & Hp & Ht & -> & ->);
      [by destruct Hs as [[-> _]|[-> _]]|done|].
    rewrite (value_prefix_neutral _ _ Hp), (spells_neutral _ _ _ Ht) in He.
    assert (Hst : tokenValueEnd (value_state s) = tokenArrayComma) by by destruct Hs as [[-> _]|[-> _]].
    rewrite Hst in Hr. pose proof (print_nonempty (sort_keys v)) as Hne.
    destruct (IHa _ _ _ _ _ _ _ _ Hr) as (body & rest' & vs & -> & -> & Hb); [right; split; [done|]|done|].
    1: { rewrite length_app. destruct Hs as [[_ ->]|[_ ?]]; destruct (_ <? _)%nat; rewrite ?length_app; cbn; lia. }
    rewrite bool_decide_false in Hb by done. destruct Hb as [Hb ->].
    exists (p ++ t ++ body), rest', (v :: vs). rewrite <-!app_assoc. split; [done|]. split; [done|].
    destruct Hs as [[-> ->]|[-> Henc]].
    + rewrite bool_decide_true by done. split; [by exists p, t, body|]. cbn. by rewrite <-!app_assoc.
    + rewrite bool_decide_false by done. destruct Hp as (a & b & -> & Ha & Hb').
      split; [exists a, b, t, body; by rewrite <-!app_assoc|]. rewrite (proj2 (Nat.ltb_lt _ _)) by done.
      cbn. by rewrite <-!app_assoc.
  - destruct (Token_ _ _ _) as [[|[c| | | |]] d'] eqn:Et; try done.
    assert (c = 93) as -> by (destruct c as [|c|c]; try done; by repeat (destruct c as [c|c|]; try done)).
    injection Hr as <- <-.
    apply Token_close in Et as (w & rest & s1 & st & -> & Hw & [= <- <-] & ->); [|by left|].
    2: { intros c'. by eapply peek_more. }
    exists w, rest, []. split; [done|]. split; [done|]. by destruct (_ ==? _).
Qed.

Lemma readObject_sound fuel : value_sound fuel → object_sound fuel → object_sound (S fuel).
Proof.
  intros IHv IHo l s s0 stack depth prev out d Hr Hs Hnd He. cbn in Hr.
  destruct (More _) eqn:Em.
  - destruct (Token_ _ _ _) as [[|[c|b|x|key|]] d'] eqn:Et; try done.
    apply ok_fail_if in Hr as [Hascii Hr]. apply ok_fail_if in Hr as [Hnew Hr].
    apply negb_false_iff in Hascii. apply bool_decide_eq_false in Hnew.
    apply Token_to_key in Et as (p & l' & k & rest & -> & Hp & Hk & [= <-] & ->); [|done..].
    rewrite (key_prefix_neutral _ _ Hp) in He. cbn in He.
    destruct (read_string_sound _ _ _ Hk He) as (raw & -> & Hraw & He').
    inv_run Hr. destruct v as [value d']. rename H into Hv.
    destruct (IHv _ _ _ _ _ _ Hv) as (q & t & rest' & v & -> & Hq & Ht & -> & ->); [done..|].
    rewrite (value_prefix_neutral _ _ Hq), (spells_neutral _ _ _ Ht) in He'.
    assert (Hfresh : key ∉ prev.*1) by by apply not_elem_of_list_to_map_2, eq_None_not_Some.
    assert (Hnd' : NoDup (prev ++ [(key, print (sort_keys v))]).*1).
    { rewrite fmap_app. apply NoDup_app. split; [done|]. split; [|apply NoDup_singleton].
      cbn. intros k' Hk' ->%list_elem_of_singleton. done. }
    rewrite <-list_to_map_snoc in Hr by done.
    change (prev.*1 ++ [key]) with (prev.*1 ++ [(key, print (sort_keys v))].*1) in Hr. rewrite <-fmap_app in Hr.
    destruct (IHo _ _ _ _ _ _ _ _ Hr) as (body & rest & ms & -> & -> & Hnd'' & Hks & -> & Hb);
      [by right|done..|]. rewrite bool_decide_false in Hb by done. destruct Hq as (a & b & -> & Ha & Hb').
    assert (Hm : spells_member (spells (MaxDepth - depth)) (key, v) ([34] ++ raw ++ [34] ++ a ++ [58] ++ b ++ t))
      by by exists raw, a, b, t.
    exists (p ++ ([34] ++ raw ++ [34] ++ a ++ [58] ++ b ++ t) ++ body), rest, ((key, v) :: ms).
    rewrite <-app_assoc in Hnd'' |- *. cbn [app] in Hnd''. split; [cbn; repeat (rewrite <-!app_assoc; cbn); done|].
    do 2 (split; [done|]). split; [by constructor|]. split; [by rewrite <-app_assoc|].
    destruct Hs as [->| ->].
    + rewrite bool_decide_true by done. by eexists p, _, body.
    + rewrite bool_decide_false by done. destruct Hp as (a' & b' & -> & ? & ?).
      exists a', b', ([34] ++ raw ++ [34] ++ a ++ [58] ++ b ++ t), body.
      split; [by rewrite <-!app_assoc|done].
  - destruct (Token_ _ _ _) as [[|[c| | | |]] d'] eqn:Et; try done.
    assert (c = 125) as -> by (destruct c as [|c|c]; try done; by repeat (destruct c as [c|c|]; try done)).
    injection Hr as <- <-.
    apply Token_close in Et as (w & rest & s1 & st & -> & Hw & [= <- <-] & ->); [|by right|].
    2: { intros c'. by eapply peek_more. }
    exists w, rest, []. do 2 (split; [done|]). rewrite app_nil_r. repeat (split; [done|]). by destruct (_ ==? _).
Qed.

Lemma read_sound fuel : value_sound fuel ∧ array_sound fuel ∧ object_sound fuel.
Proof.
  induction fuel as [|fuel (IHv & IHa & IHo)].
  { by repeat split; intros ????*. }
  split; [by apply readValue_sound|]. split; [by apply readArray_sound|by apply readObject_sound].
Qed.

(** ** Reading: completeness *)

(** What may follow a value inside a document. *)
Definition follows (rest : list Z) : Prop :=
  match rest with [] => True | c :: _ => is_space c = true ∨ c = 44 ∨ c = 93 ∨ c = 125 end.

Lemma follows_ends rest : follows rest → ends_number rest.
Proof.
  destruct rest as [|c rest]; [done|]. cbn. unfold is_space, is_digit, in_range, is_exponent.
  intros H. destruct_or! H; to_prop; lia.
Qed.
Lemma follows_space w rest : space w → follows rest → follows (w ++ rest).
Proof. destruct 1; cbn; auto. Qed.
Lemma follows_more {A} (R : A → list Z → Prop) vs body c rest :
  spells_more R vs body → c = 93 ∨ c = 125 → follows (body ++ c :: rest).
Proof.
  destruct vs as [|v vs]; cbn; intros Hb Hc.
  - apply follows_space; [done|]. cbn. tauto.
  - destruct Hb as (a & b & d & r & -> & Ha & _). rewrite <-app_assoc. apply follows_space; [done|].
    cbn. auto.
Qed.

(** The first byte of a spelling. *)
Definition starts_value (t : list Z) : Prop :=
  ∃ c t', t = c :: t' ∧ is_space c = false ∧ c ≠ 93 ∧ c ≠ 125 ∧ c ≠ 58 ∧ c ≠ 44.

Lemma spells_starts n v t : spells n v t → starts_value t.
Proof.
  destruct v as [|b|k|s|l|l], n as [|n]; cbn; try done; unfold starts_value.
  1,2: intros ->; by eexists _, _.
  1,2: intros ->; destruct b; by eexists _, _.
  1,2: intros [[(sign & c & ds & -> & [-> | ->] & [Hc _]%Forall_cons & _) _] _];
    [|by eexists _, _]; unfold is_digit_byte, is_space in *; eexists _, _; split; [done|];
    rewrite !orb_false_iff, !Z.eqb_neq; lia.
  1,2: intros (raw & -> & _); by eexists _, _.
  - intros (body & -> & _). by eexists _, _.
  - intros (_ & _ & body & -> & _). by eexists _, _.
Qed.

Lemma Token_prefix s p l stack :
  value_prefix s p → Token_ (p ++ l) s stack = Token_ l (value_state s) stack.
Proof.
  destruct s; cbn; try done; try (intros; by apply Token_space); intros (a & b & -> & Ha & Hb);
    rewrite <-!app_assoc, Token_space by done; cbn -[Token_]; rewrite Token_nonspace by done; cbn -[Token_];
    by apply Token_space.
Qed.

Lemma literal_token_complete word t rest : literal_token word t (word ++ rest) = Some (t, rest).
Proof. unfold literal_token. by rewrite take_app_length, bool_decide_true, drop_app_length. Qed.

(** A scalar spelled at the input is the next token. *)
Lemma Token_scalar s stack t rest tok :
  tokenValueAllowed s = true → starts_value t → (∀ c t', t = c :: t' → c ≠ 91 ∧ c ≠ 123) →
  decode_scalar (t ++ rest) = Some (tok, rest) →
  Token_ (t ++ rest) s stack = (inr tok, mkDecoder rest (tokenValueEnd s) stack).
Proof.
  intros Hs (c & t' & -> & Hc & ? & ? & ? & ?) Hopen Hd. destruct (Hopen c t') as [? ?]; [done|].
  cbn [app] in *. rewrite Token_nonspace by done. cbv zeta.
  rewrite !(proj2 (Z.eqb_neq c _)) by done. rewrite Hs, Hd.
  rewrite !(bool_decide_false (s = _)) by (by intros ->). by rewrite andb_false_r.
Qed.

Definition value_complete (n : nat) : Prop := ∀ v t s stack depth p rest fuel,
  spells n v t → (n + depth = MaxDepth)%nat → expects_value s = true → value_prefix s p → follows rest →
  (2 * length (p ++ t ++ rest) + 2 ≤ fuel)%nat →
  readValue fuel (mkDecoder (p ++ t ++ rest) s stack) depth =
    Ok (print (sort_keys v), mkDecoder rest (tokenValueEnd (value_state s)) stack).

Lemma peek_starts w t rest : space w → starts_value t → ∃ c, peek (w ++ t ++ rest) = Some c ∧ c ≠ 93 ∧ c ≠ 125.
Proof.
  intros Hw (c & t' & -> & Hc & ? & ? & _). rewrite peek_space by done. exists c. cbn. by rewrite Hc.
Qed.

Lemma More_value s p t rest stack :
  (s = tokenArrayStart ∨ s = tokenArrayComma) → value_prefix s p → starts_value t →
  More (mkDecoder (p ++ t ++ rest) s stack) = true.
Proof.
  intros Hs Hp Ht. unfold More. cbn [d_rest].
  assert (∃ c, peek (p ++ t ++ rest) = Some c ∧ c ≠ 93 ∧ c ≠ 125) as (c & -> & ? & ?).
  { destruct Hs as [->| ->]; [by apply peek_starts|]. destruct Hp as (a & b & -> & Ha & _).
    exists 44. rewrite <-!app_assoc, peek_space by done. done. }
  by rewrite !(proj2 (Z.eqb_neq c _)) by done.
Qed.

Lemma More_end c w rest s stack :
  (c = 93 ∨ c = 125) → space w → More (mkDecoder (w ++ c :: rest) s stack) = false.
Proof. intros Hc Hw. unfold More. cbn [d_rest]. rewrite peek_space by done. by destruct Hc; subst. Qed.

Ltac len_lia :=
  repeat match goal with
  | H : context [length (_ ++ _)] |- _ => rewrite length_app in H
  | |- context [length (_ ++ _)] => rewrite length_app
  | H : context [length (_ :: _)] |- _ => progress cbn [length] in H
  | |- context [length (_ :: _)] => progress cbn [length]
  end; lia.

Lemma starts_length t : starts_value t → (0 < length t)%nat.
Proof. intros (c & t' & -> & _). cbn. lia. Qed.

Section loops.
Context (n depth : nat) (Hv : value_complete n) (Hdepth : (n + depth = MaxDepth)%nat).
Context (s0 : tokenState) (stack : list tokenState).

(** One iteration of the array loop. *)
Lemma readArray_step fuel s p v t rest enc :
  (s = tokenArrayStart ∨ s = tokenArrayComma) → value_prefix s p → spells n v t → follows rest →
  (2 * length (p ++ t ++ rest) + 3 ≤ S fuel)%nat →
  readArray (S fuel) (mkDecoder (p ++ t ++ rest) s (s0 :: stack)) depth enc =
  readArray fuel (mkDecoder rest tokenArrayComma (s0 :: stack)) depth
    ((if (1 <? length enc)%nat then enc ++ [44] else enc) ++ print (sort_keys v)).
Proof.
  intros Hs Hp Ht Hf Hfuel. cbn -[More readValue Nat.ltb].
  rewrite More_value by eauto using spells_starts.
  rewrite (Hv v t) by (done || lia || by destruct Hs; subst). cbn -[Nat.ltb].
  by destruct Hs; subst.
Qed.

Lemma readArray_end fuel s w rest enc :
  (s = tokenArrayStart ∨ s = tokenArrayComma) → space w →
  readArray (S fuel) (mkDecoder (w ++ 93 :: rest) s (s0 :: stack)) depth enc =
  Ok (enc ++ [93], mkDecoder rest (tokenValueEnd s0) stack).
Proof.
  intros Hs Hw. cbn -[More]. rewrite More_end by auto. unfold Token. cbn [d_rest d_state d_stack].
  rewrite Token_space by done. by destruct Hs; subst.
Qed.

Lemma readArray_more vs body rest fuel enc :
  spells_more (spells n) vs body → (1 < length enc)%nat →
  (2 * length (body ++ 93%Z :: rest) + 3 ≤ fuel)%nat →
  readArray fuel (mkDecoder (body ++ 93 :: rest) tokenArrayComma (s0 :: stack)) depth enc =
  Ok (enc ++ concat (map (cons 44) (map (print ∘ sort_keys) vs)) ++ [93],
      mkDecoder rest (tokenValueEnd s0) stack).
Proof.
  revert body fuel enc. induction vs as [|v vs IH]; intros body fuel enc Hb Henc Hfuel;
    (destruct fuel as [|fuel]; [lia|]).
  { rewrite readArray_end by auto. done. }
  destruct Hb as (a & b & t & r & -> & Ha & Hb & Ht & Hr).
  assert (Hl : (0 < length t)%nat) by eauto using starts_length, spells_starts.
  replace ((a ++ [44] ++ b ++ t ++ r) ++ 93 :: rest) with ((a ++ [44] ++ b) ++ t ++ r ++ 93 :: rest) in *
    by by rewrite <-!app_assoc.
  rewrite (readArray_step fuel _ (a ++ [44] ++ b) v t) by (done || auto || (cbn; eauto) || eauto using follows_more).
  rewrite (proj2 (Nat.ltb_lt _ _)) by done. rewrite IH; [|done|len_lia|].
  2: len_lia.
  cbn. by rewrite <-!app_assoc.
Qed.

Lemma readArray_complete vs body rest fuel :
  spells_elements (spells n) vs body → (2 * length (body ++ 93%Z :: rest) + 3 ≤ fuel)%nat →
  readArray fuel (mkDecoder (body ++ 93 :: rest) tokenArrayStart (s0 :: stack)) depth [91] =
  Ok (print (sort_keys (JArray vs)), mkDecoder rest (tokenValueEnd s0) stack).
Proof.
  destruct fuel as [|fuel]; [lia|]. destruct vs as [|v vs]; intros Hb Hfuel.
  { by rewrite readArray_end by auto. }
  destruct Hb as (a & t & r & -> & Ha & Ht & Hr).
  assert (Hl : (0 < length t)%nat) by eauto using starts_length, spells_starts.
  replace ((a ++ t ++ r) ++ 93 :: rest) with (a ++ t ++ r ++ 93 :: rest) in * by by rewrite <-!app_assoc.
  rewrite (readArray_step fuel _ a v t) by (done || auto || eauto using follows_more).
  cbn [length Nat.ltb Nat.leb]. pose proof (print_nonempty (sort_keys v)).
  rewrite (readArray_more vs); [|done|len_lia|].
  2: len_lia.
  cbn. repeat (rewrite <-?app_assoc; cbn). by rewrite !map_map.
Qed.

(** One iteration of the object loop. *)
Lemma readObject_step fuel s p kv t rest prev :
  (s = tokenObjectStart ∨ s = tokenObjectComma) → key_prefix s p →
  spells_member (spells n) kv t → follows rest → ascii_only kv.1 = true → kv.1 ∉ prev.*1 →
  (2 * length (p ++ t ++ rest) + 3 ≤ S fuel)%nat →
  readObject (S fuel) (mkDecoder (p ++ t ++ rest) s (s0 :: stack)) depth (list_to_map prev) prev.*1 =
  readObject fuel (mkDecoder rest tokenObjectComma (s0 :: stack)) depth
    (list_to_map (prev ++ [(kv.1, print (sort_keys kv.2))])) (prev ++ [(kv.1, print (sort_keys kv.2))]).*1.
Proof.
  intros Hs Hp (raw & a & b & t' & -> & Hk & Ha & Hb & Ht) Hf Hascii Hnew Hfuel.
  assert (Hm : ∀ l, More (mkDecoder (p ++ 34 :: l) s (s0 :: stack)) = true).
  { intros l. unfold More. cbn [d_rest]. destruct Hs as [->| ->]; cbn in Hp; [by rewrite peek_space|].
    destruct Hp as (a' & b' & -> & Ha' & _). by rewrite <-!app_assoc, peek_space. }
  set (l1 := a ++ [58] ++ b ++ t' ++ rest).
  assert (Et : Token_ (p ++ 34 :: raw ++ 34 :: l1) s (s0 :: stack) =
    (inr (TString kv.1), mkDecoder l1 tokenObjectColon (s0 :: stack))).
  { pose proof (read_string_complete kv.1 raw l1 Hk) as Hrs.
    destruct Hs as [->| ->]; cbn in Hp.
    - rewrite Token_space by done. rewrite Token_nonspace by done. cbn -[read_string]. by rewrite Hrs.
    - destruct Hp as (a' & b' & -> & Ha' & Hb'). rewrite <-!app_assoc, Token_space by done.
      cbn [app]. rewrite Token_nonspace by done. cbn -[Token_].
      rewrite bool_decide_false, bool_decide_true, Token_space by done. rewrite Token_nonspace by done. cbn -[read_string]. by rewrite Hrs. }
  replace (p ++ ([34] ++ raw ++ [34] ++ a ++ [58] ++ b ++ t') ++ rest) with (p ++ 34 :: raw ++ 34 :: l1) in *
    by (unfold l1; by rewrite <-!app_assoc).
  cbn -[More readValue list_to_map ascii_only]. rewrite Hm. unfold Token. cbn [d_rest d_state d_stack].
  rewrite Et, Hascii. cbn -[readValue list_to_map].
  rewrite bool_decide_false by (rewrite <-eq_None_not_Some; by apply not_elem_of_list_to_map_1).
  unfold l1. replace (a ++ [58] ++ b ++ t' ++ rest) with ((a ++ [58] ++ b) ++ t' ++ rest)
    by by rewrite <-!app_assoc.
  rewrite (Hv kv.2 t'); [|done|done|done|by exists a, b|done|unfold l1 in Hfuel; len_lia].
  cbn -[list_to_map]. rewrite list_to_map_snoc by done. by rewrite fmap_app.
Qed.

Lemma readObject_end fuel s w rest prev :
  (s = tokenObjectStart ∨ s = tokenObjectComma) → space w →
  readObject (S fuel) (mkDecoder (w ++ 125 :: rest) s (s0 :: stack)) depth (list_to_map prev) prev.*1 =
  Ok (append_members [123] 0 (merge_sort bytes_le prev.*1) (list_to_map prev) ++ [125],
      mkDecoder rest (tokenValueEnd s0) stack).
Proof.
  intros Hs Hw. cbn -[More list_to_map append_members]. rewrite More_end by auto. unfold Token.
  cbn [d_rest d_state d_stack]. rewrite Token_space by done. by destruct Hs; subst.
Qed.

Lemma spells_member_starts R kv t : spells_member R kv t → starts_value t.
Proof. intros (raw & a & b & t' & -> & _). by eexists 34, _. Qed.

Lemma readObject_more ms body rest fuel prev :
  spells_more (spells_member (spells n)) ms body → NoDup (prev ++ printed ms).*1 →
  Forall (λ kv, ascii_only kv.1 = true) ms → (2 * length (body ++ 125%Z :: rest) + 3 ≤ fuel)%nat →
  readObject fuel (mkDecoder (body ++ 125 :: rest) tokenObjectComma (s0 :: stack)) depth
    (list_to_map prev) prev.*1 =
  Ok (append_members [123] 0 (merge_sort bytes_le (prev ++ printed ms).*1)
        (list_to_map (prev ++ printed ms)) ++ [125], mkDecoder rest (tokenValueEnd s0) stack).
Proof.
  revert body fuel prev. induction ms as [|kv ms IH]; intros body fuel prev Hb Hnd Hk Hfuel;
    (destruct fuel as [|fuel]; [lia|]).
  { rewrite readObject_end by auto. by rewrite app_nil_r. }
  destruct Hb as (a & b & t & r & -> & Ha & Hb & Ht & Hr). apply Forall_cons in Hk as [Hkv Hk].
  assert (Hl : (0 < length t)%nat) by eauto using starts_length, spells_member_starts.
  replace ((a ++ [44] ++ b ++ t ++ r) ++ 125 :: rest) with ((a ++ [44] ++ b) ++ t ++ r ++ 125 :: rest) in *
    by by rewrite <-!app_assoc.
  assert (Hnew : kv.1 ∉ prev.*1).
  { rewrite fmap_app in Hnd. apply NoDup_app in Hnd as (_ & Hd & _). intros Hin. apply (Hd _ Hin). by left. }
  rewrite (readObject_step fuel _ (a ++ [44] ++ b) kv t) by (done || auto || (cbn; eauto) || eauto using follows_more).
  rewrite (IH r) by (done || (by rewrite <-app_assoc) || len_lia). by rewrite <-app_assoc.
Qed.

Lemma readObject_complete ms body rest fuel :
  spells_elements (spells_member (spells n)) ms body → NoDup ms.*1 →
  Forall (λ kv, ascii_only kv.1 = true) ms → (2 * length (body ++ 125%Z :: rest) + 3 ≤ fuel)%nat →
  readObject fuel (mkDecoder (body ++ 125 :: rest) tokenObjectStart (s0 :: stack)) depth ∅ [] =
  Ok (print (sort_keys (JObject ms)), mkDecoder rest (tokenValueEnd s0) stack).
Proof.
  intros Hb Hnd Hk Hfuel. rewrite <-append_members_sorted by done. destruct fuel as [|fuel]; [lia|].
  destruct ms as [|kv ms]; [by rewrite (readObject_end fuel _ _ _ []) by auto|].
  destruct Hb as (a & t & r & -> & Ha & Ht & Hr). apply Forall_cons in Hk as [Hkv Hk].
  assert (Hl : (0 < length t)%nat) by eauto using starts_length, spells_member_starts.
  replace ((a ++ t ++ r) ++ 125 :: rest) with (a ++ t ++ r ++ 125 :: rest) in * by by rewrite <-!app_assoc.
  rewrite (readObject_step fuel _ a kv t _ []) by (done || auto || eauto using follows_more || apply not_elem_of_nil).
  rewrite (readObject_more ms); [done|done| |done|len_lia].
  rewrite <-printed_keys in Hnd. exact Hnd.
Qed.
End loops.

(** The token of a scalar, and that it is read back. *)
Definition scalar_token (v : jval) (t : list Z) : option token :=
  match v with
  | JNull => Some TNull
  | JBool b => Some (TBool b)
  | JInt _ => Some (Number t)
  | JString s => Some (TString s)
  | _ => None
  end.

(** The spellings of scalars, at any depth. *)
Definition spells_scalar (v : jval) (t : list Z) : Prop :=
  match v with
  | JNull => t = bytes "null"
  | JBool b => t = bytes (if b then "true" else "false")
  | JInt k => spells_int k t ∧ - MaxSafeInteger ≤ k ≤ MaxSafeInteger
  | JString s => ∃ raw, t = [34] ++ raw ++ [34] ∧ spells_string s raw
  | _ => False
  end.
Lemma spells_scalar_of n v t tok : spells n v t → scalar_token v t = Some tok → spells_scalar v t.
Proof. by destruct n, v. Qed.
Lemma spells_of_scalar n v t : spells_scalar v t → spells n v t.
Proof. by destruct n, v. Qed.

Lemma decode_scalar_complete n v t tok rest :
  spells n v t → scalar_token v t = Some tok → follows rest →
  decode_scalar (t ++ rest) = Some (tok, rest) ∧ (∀ c t', t = c :: t' → c ≠ 91 ∧ c ≠ 123).
Proof.
  intros Hv Ht Hf. assert (Hv0 : spells_scalar v t) by by eapply spells_scalar_of. clear Hv.
  destruct v as [|b|k|s|l|l]; try done; injection Ht as <-; unfold spells_scalar in Hv0.
  - subst t. split; [apply (literal_token_complete (bytes "null"))|by intros ?? [= <- _]].
  - subst t. destruct b; (split; [|by intros ?? [= <- _]]);
      [apply (literal_token_complete (bytes "true"))|apply (literal_token_complete (bytes "false"))].
  - destruct Hv0 as [Hv0 _]. pose proof (scan_number_complete k t rest Hv0 (follows_ends _ Hf)) as Hn.
    assert (∃ c t', t = c :: t' ∧ 45 ≤ c ≤ 57) as (c & t' & -> & Hc).
    { destruct Hv0 as [(sign & c & ds & -> & [-> | ->] & [Hc _]%Forall_cons & _) _];
        unfold is_digit_byte in *; eexists _, _; (split; [done|lia]). }
    split; [|intros ?? [= <- _]; lia]. cbn -[scan_number] in *.
    rewrite !(proj2 (Z.eqb_neq c _)) by lia. by rewrite Hn.
  - destruct Hv0 as (raw & -> & Hs). split; [|by intros ?? [= <- _]].
    rewrite <-!app_assoc. cbn -[read_string]. by rewrite (read_string_complete s).
Qed.

Lemma readValue_scalar n v t tok s stack depth p rest fuel :
  spells n v t → scalar_token v t = Some tok → expects_value s = true → value_prefix s p → follows rest →
  readValue (S fuel) (mkDecoder (p ++ t ++ rest) s stack) depth =
    Ok (print (sort_keys v), mkDecoder rest (tokenValueEnd (value_state s)) stack).
Proof.
  intros Hv Ht Hs Hp Hf. destruct (decode_scalar_complete n v t tok rest Hv Ht Hf) as [Hd Ho].
  assert (Htok : Token (mkDecoder (p ++ t ++ rest) s stack) =
    (inr tok, mkDecoder rest (tokenValueEnd (value_state s)) stack)).
  { unfold Token. cbn [d_rest d_state d_stack]. rewrite Token_prefix by done.
    by apply Token_scalar; [|eapply spells_starts| |]. }
  cbn -[Token ParseInt FormatInt]. rewrite Htok.
  destruct v as [|b|k|x|l|l]; try done; injection Ht as <-; try done.
  destruct (spells_scalar_of n (JInt k) t _ Hv eq_refl) as [[_ ->] Hk]. rewrite !(proj2 (Z.ltb_ge _ _)) by lia. done.
Qed.

Lemma value_complete_all n : value_complete n.
Proof.
  induction n as [|n IH]; intros v t s stack depth p rest fuel Hv Hd Hs Hp Hf Hfuel;
    (destruct fuel as [|fuel]; [lia|]);
    destruct (scalar_token v t) as [tok|] eqn:Etok;
    try (by eapply readValue_scalar); destruct v as [| | | |vs|ms]; try done; cbn in Hv.
  - destruct Hv as (body & -> & Hb).
    replace ((91 :: body ++ [93]) ++ rest) with (91 :: body ++ 93 :: rest) in * by (cbn; by rewrite <-app_assoc).
    cbn -[Token_ readArray sort_keys print Nat.leb]. unfold Token. cbn [d_rest d_state d_stack].
    rewrite Token_prefix, Token_nonspace by done. cbn -[readArray sort_keys print Nat.leb]. unfold expects_value in Hs.
    rewrite Hs, (proj2 (Nat.leb_gt _ _)) by lia. cbn -[readArray sort_keys print].
    apply (readArray_complete n (S depth)); [done|lia|done|len_lia].
  - destruct Hv as (Hnd & Hk & body & -> & Hb).
    replace ((123 :: body ++ [125]) ++ rest) with (123 :: body ++ 125 :: rest) in * by (cbn; by rewrite <-app_assoc).
    cbn -[Token_ readObject sort_keys print Nat.leb]. unfold Token. cbn [d_rest d_state d_stack].
    rewrite Token_prefix, Token_nonspace by done. cbn -[readObject sort_keys print Nat.leb]. unfold expects_value in Hs.
    rewrite Hs, (proj2 (Nat.leb_gt _ _)) by lia. cbn -[readObject sort_keys print].
    apply (readObject_complete n (S depth)); [done|lia|done|done|done|len_lia].
Qed.

(** ** The fuel is enough *)

Lemma not_fuel {A} (r : result A) (c : bool) (e : error) :
  e ≠ ErrFuel → r ≠ Err ErrFuel → (fail_if c with e ;; r) ≠ Err ErrFuel.
Proof. intros He Hr. destruct c; [|done]. unfold mthrow, result_throw. congruence. Qed.

Definition value_fuel (fuel : nat) : Prop := ∀ l s stack depth,
  expects_value s = true → string_escapes false l = true → (2 * length l + 2 ≤ fuel)%nat →
  readValue fuel (mkDecoder l s stack) depth ≠ Err ErrFuel.
Definition array_fuel (fuel : nat) : Prop := ∀ l s s0 stack depth enc,
  (s = tokenArrayStart ∧ enc = [91]) ∨ (s = tokenArrayComma ∧ (1 < length enc)%nat) →
  string_escapes false l = true → (2 * length l + 3 ≤ fuel)%nat →
  readArray fuel (mkDecoder l s (s0 :: stack)) depth enc ≠ Err ErrFuel.
Definition object_fuel (fuel : nat) : Prop := ∀ l s s0 stack depth values keys,
  s = tokenObjectStart ∨ s = tokenObjectComma →
  string_escapes false l = true → (2 * length l + 3 ≤ fuel)%nat →
  readObject fuel (mkDecoder l s (s0 :: stack)) depth values keys ≠ Err ErrFuel.

Lemma readValue_fuel fuel : array_fuel fuel → object_fuel fuel → value_fuel (S fuel).
Proof.
  intros IHa IHo l s stack depth Hs He Hfuel. cbn -[ParseInt FormatInt Token]. unfold Token. cbn [d_rest d_state d_stack].
  destruct (Token_ l s stack) as [[|t] d] eqn:Et; [done|].
  destruct t as [c|b|x|y|]; try done.
  2: { destruct (ParseInt _); [by apply not_fuel|done]. }
  apply not_fuel; [done|]. destruct (c =? 123) eqn:Ec; [|destruct (c =? 91) eqn:Ec'; [|done]]; to_prop; subst c.
  - apply Token_to_value in Et as (p & l' & -> & Hp & [[? _]|[(_ & rest & -> & ->)|(rest & Hd & ->)]]); [done| | |done..].
    + rewrite (value_prefix_neutral _ _ Hp), string_escapes_outside in He by done. apply IHo; [by left|done|len_lia].
    + rewrite (value_prefix_neutral _ _ Hp) in He. by apply decode_scalar_sound in Hd.
  - apply Token_to_value in Et as (p & l' & -> & Hp & [(_ & rest & -> & ->)|[[? _]|(rest & Hd & ->)]]); [|done| |done..].
    + rewrite (value_prefix_neutral _ _ Hp), string_escapes_outside in He by done. apply IHa; [by left|done|len_lia].
    + rewrite (value_prefix_neutral _ _ Hp) in He. by apply decode_scalar_sound in Hd.
Qed.

Lemma bind_not_fuel {A B} (r : result A) (k : A → result B) :
  r ≠ Err ErrFuel → (∀ a, r = Ok a → k a ≠ Err ErrFuel) → (r ≫= k) ≠ Err ErrFuel.
Proof. destruct r as [a|e]; cbn; [auto|congruence]. Qed.

Lemma value_consumes fuel l s stack depth out d :
  readValue fuel (mkDecoder l s stack) depth = Ok (out, d) → expects_value s = true →
  string_escapes false l = true →
  ∃ rest, d = mkDecoder rest (tokenValueEnd (value_state s)) stack ∧ (length rest < length l)%nat ∧
    string_escapes false rest = true ∧ (0 < length out)%nat.
Proof.
  intros Hr Hs He. destruct (read_sound fuel) as [Hv _].
  destruct (Hv _ _ _ _ _ _ Hr Hs He) as (p & t & rest & v & -> & Hp & Ht & -> & ->). exists rest.
  pose proof (starts_length _ (spells_starts _ _ _ Ht)).
  rewrite (value_prefix_neutral _ _ Hp), (spells_neutral _ _ _ Ht) in He.
  repeat split; [len_lia|done|apply print_nonempty].
Qed.

Lemma readArray_fuel fuel : value_fuel fuel → array_fuel fuel → array_fuel (S fuel).
Proof.
  intros IHv IHa l s s0 stack depth enc Hs He Hfuel. cbn -[Nat.ltb More Token].
  assert (Hx : expects_value s = true) by by destruct Hs as [[-> _]|[-> _]].
  destruct (More _).
  - apply bind_not_fuel; [apply IHv; [done|done|lia]|]. intros [value d] Hr.
    apply value_consumes in Hr as (rest & -> & Hlen & He' & Hne); [|done..].
    replace (tokenValueEnd (value_state s)) with tokenArrayComma by by destruct Hs as [[-> _]|[-> _]].
    apply IHa; [right; split; [done|]|done|lia].
    destruct Hs as [[_ ->]|[_ ?]]; destruct (_ <? _)%nat; len_lia.
  - destruct (Token _) as [[|[c| | | |]] d']; try done. by repeat case_match.
Qed.

Lemma readObject_fuel fuel : value_fuel fuel → object_fuel fuel → object_fuel (S fuel).
Proof.
  intros IHv IHo l s s0 stack depth values keys Hs He Hfuel. cbn -[More Token]. unfold Token. cbn [d_rest d_state d_stack].
  destruct (More _).
  - destruct (Token_ _ _ _) as [[|[c|b|x|key|]] d'] eqn:Et; try done.
    apply not_fuel; [done|]. apply not_fuel; [done|].
    apply Token_to_key in Et as (p & l' & k & rest & -> & Hp & Hk & [= <-] & ->); [|done..].
    rewrite (key_prefix_neutral _ _ Hp) in He. cbn in He.
    destruct (read_string_sound _ _ _ Hk He) as (raw & -> & Hraw & He').
    apply bind_not_fuel; [apply IHv; [done|done|len_lia]|]. intros [value d] Hr.
    apply value_consumes in Hr as (rest' & -> & Hlen & He'' & Hne); [|done..].
    apply IHo; [by right|done|len_lia].
  - destruct (Token_ _ _ _) as [[|[c| | | |]] d']; try done. by repeat case_match.
Qed.

Lemma read_fuel fuel : value_fuel fuel ∧ array_fuel fuel ∧ object_fuel fuel.
Proof.
  induction fuel as [|fuel (IHv & IHa & IHo)].
  { split; [|split]; red; intros; lia. }
  split; [by apply readValue_fuel|]. split; [by apply readArray_fuel|by apply readObject_fuel].
Qed.

Definition reader_error (e : error) : Prop := e = ErrFuel ∨ e = ErrInvalid ∨ e = ErrLimit.
Definition reads_errors (fuel : nat) : Prop :=
  (∀ d depth e, readValue fuel d depth = Err e → reader_error e) ∧
  (∀ d depth enc e, readArray fuel d depth enc = Err e → reader_error e) ∧
  (∀ d depth values keys e, readObject fuel d depth values keys = Err e → reader_error e).

Lemma reader_errors fuel : reads_errors fuel.
Proof.
  unfold reads_errors, reader_error. induction fuel as [|fuel (IHv & IHa & IHo)].
  { repeat split; cbn; intros; left; congruence. }
  repeat split; intros d depth **; match goal with H : _ = Err _ |- _ => rename H into Hr end.
  - cbn -[ParseInt FormatInt Token] in Hr.
    destruct (Token d) as [[|[c|b|x|y|]] d']; try (injection Hr as <-; by auto); try done.
    + destruct (_ <=? _)%nat; [injection Hr as <-; by auto|].
      destruct (c =? 123); [by eapply IHo|]. destruct (c =? 91); [by eapply IHa|]. injection Hr as <-. auto.
    + destruct (ParseInt _); [destruct (_ || _)|]; try (injection Hr as <-; by auto). done.
  - cbn -[Token More Nat.ltb] in Hr. destruct (More d).
    + destruct (readValue fuel d depth) as [[value d']|e'] eqn:E; cbn -[Nat.ltb] in Hr; [by eapply IHa|].
      injection Hr as <-. by eapply IHv.
    + destruct (Token d) as [[|[c|b|x|y|]] d']; try (injection Hr as <-; by auto).
      repeat case_match; try done; injection Hr as <-; auto.
  - cbn -[Token More] in Hr. destruct (More d).
    + destruct (Token d) as [[|[c|b|x|y|]] d']; try (injection Hr as <-; by auto).
      destruct (negb _); [injection Hr as <-; by auto|]. case_bool_decide; [injection Hr as <-; by auto|].
      destruct (readValue fuel d' depth) as [[value d'']|e'] eqn:E; cbn in Hr; [by eapply IHo|].
      injection Hr as <-. by eapply IHv.
    + destruct (Token d) as [[|[c|b|x|y|]] d']; try (injection Hr as <-; by auto).
      repeat case_match; try done; injection Hr as <-; auto.
Qed.
