(* ===== verification/CanonicalForm.v ===== *)
(** * Canonical JSON documents

    The documents [Canonicalize] emits: valid UTF-8, spellings of their values,
    fixed points of the code, and different for different values. *)

From S2P Require Import Prelude GoStrings GoJson CanonicalJson CanonicalRead.

(** ** Valid UTF-8 *)

Lemma range_runes_skip k p : range_runes k p = range_runes 0 (drop k p).
Proof. revert p. induction k as [|k IH]; intros [|b p]; [done..|]. cbn [range_runes drop]. apply IH. Qed.

Lemma utf8_cons b p :
  utf8_valid (b :: p) = let '(r, w) := DecodeRune (b :: p) in
    negb ((r =? RuneError) && Nat.eqb w 1) && utf8_valid (drop (pred w) p).
Proof.
  unfold utf8_valid. cbn [range_runes]. destruct (DecodeRune (b :: p)) as [r w]. cbn [forallb].
  by rewrite range_runes_skip.
Qed.

(** [transparent p]: a sequence of whole characters, which validity ignores. *)
Definition transparent (p : list Z) : Prop := ∀ t, utf8_valid (p ++ t) = utf8_valid t.

Lemma transparent_app a b : transparent a → transparent b → transparent (a ++ b).
Proof. intros Ha Hb t. by rewrite <-app_assoc, Ha, Hb. Qed.
Lemma transparent_ascii c : c < 128 → transparent [c].
Proof.
  intros Hc t. cbn [app]. rewrite utf8_cons. cbn [DecodeRune]. rewrite (proj2 (Z.ltb_lt _ _)) by done.
  unfold RuneError. rewrite (proj2 (Z.eqb_neq _ _)) by lia. cbn. done.
Qed.
Lemma transparent_ascii_list p : Forall (λ c, c < 128) p → transparent p.
Proof.
  induction 1 as [|c p Hc _ IH]; [by intros t|]. apply (transparent_app [c]); [by apply transparent_ascii|done].
Qed.
Lemma transparent_valid p : transparent p → utf8_valid p = true.
Proof. intros H. by rewrite <-(app_nil_r p), H. Qed.

(** A rune and its width: either an invalid byte or a whole character. *)
Lemma DecodeRune_shape p :
  p ≠ [] → (DecodeRune p = (RuneError, 1%nat)) ∨
  ∃ r chunk rest, p = chunk ++ rest ∧ chunk ≠ [] ∧ DecodeRune p = (r, length chunk) ∧
    (r ≠ RuneError ∨ length chunk ≠ 1%nat) ∧
    (∀ t, DecodeRune (chunk ++ t) = (r, length chunk)) ∧
    ((∃ c, chunk = [c] ∧ c < 128) ∨ Forall (λ c, 128 ≤ c < 256) chunk).
Proof.
  destruct p as [|b0 p]; [done|]. intros _. cbn [DecodeRune].
  destruct (b0 <? 128) eqn:E0; to_prop.
  { right. exists b0, [b0], p. repeat split; [done|left; unfold RuneError; lia| |left; eauto].
    intros t. cbn. by rewrite (proj2 (Z.ltb_lt _ _)). }
  destruct (in_range 194 223 b0) eqn:E2.
  { destruct p as [|b1 p]; [by left|]. destruct (continuation b1) eqn:C1; [|by left]. right.
    eexists _, [b0; b1], p. repeat split; [done|by right| |right].
    - intros t. cbn. by rewrite (proj2 (Z.ltb_ge _ _)), E2, C1 by done.
    - unfold continuation, in_range in *. to_prop. repeat constructor; lia. }
  destruct (in_range 224 239 b0) eqn:E3.
  { destruct p as [|b1 [|b2 p]]; [by left..|]. cbv zeta. destruct (_ && _) eqn:C; [|by left]. right.
    eexists _, [b0; b1; b2], p. repeat split; [done|by right| |right].
    - intros t. cbn [app DecodeRune]. cbv zeta. by rewrite (proj2 (Z.ltb_ge _ _)), E2, E3, C by done.
    - apply andb_true_iff in C as [C1 C2]. unfold continuation, in_range in *.
      destruct (b0 =? 224), (b0 =? 237); to_prop; repeat constructor; lia. }
  destruct (in_range 240 244 b0) eqn:E4; [|by left].
  destruct p as [|b1 [|b2 [|b3 p]]]; [by left..|]. cbv zeta. destruct (_ && _) eqn:C; [|by left]. right.
  eexists _, [b0; b1; b2; b3], p. repeat split; [done|by right| |right].
  - intros t. cbn [app DecodeRune]. cbv zeta. by rewrite (proj2 (Z.ltb_ge _ _)), E2, E3, E4, C by done.
  - apply andb_true_iff in C as [[C1 C2]%andb_true_iff C3]. unfold continuation, in_range in *.
    destruct (b0 =? 240), (b0 =? 244); to_prop; repeat constructor; lia.
Qed.

(** Whole characters, each byte in range. *)
Inductive text : list Z → Prop :=
  | text_nil : text []
  | text_ascii c s : 0 ≤ c < 128 → text s → text (c :: s)
  | text_multi chunk s :
      Forall (λ c, 128 ≤ c < 256) chunk → transparent chunk → text s → text (chunk ++ s).

Lemma text_bytes s : text s → Forall is_byte s ∧ transparent s.
Proof.
  induction 1 as [|c s Hc _ [IHb IHt]|chunk s Hc Ht _ [IHb IHt]]; [by split; [|intros t]| |].
  - split; [by constructor; [unfold is_byte; lia|]|].
    apply (transparent_app [c]); [apply transparent_ascii; lia|done].
  - split; [|by apply transparent_app]. apply Forall_app_2; [|done].
    eapply Forall_impl; [exact Hc|]. unfold is_byte. lia.
Qed.

Lemma transparent_wide chunk r :
  (1 < length chunk)%nat → (∀ t, DecodeRune (chunk ++ t) = (r, length chunk)) → transparent chunk.
Proof.
  intros Hl Hd t. specialize (Hd t). destruct chunk as [|b chunk]; [cbn in Hl; lia|].
  cbn [app] in *. rewrite utf8_cons, Hd. cbn [length pred] in *.
  rewrite (proj2 (Nat.eqb_neq _ _)), andb_false_r by lia. cbn. by rewrite drop_app_length.
Qed.

Ltac div_lia := Z.div_mod_to_equations; lia.

Lemma text_EncodeRune u s :
  0 ≤ u ≤ 1114111 → high_surrogate u = false → low_surrogate u = false → text s → text (EncodeRune u ++ s).
Proof.
  intros Hu Hh Hl Hs. unfold EncodeRune.
  assert (Hsur : u < 55296 ∨ 57343 < u) by (unfold high_surrogate, low_surrogate, in_range in *; to_prop; lia).
  destruct (u <? 128) eqn:E1; to_prop; [by apply text_ascii; [lia|]|].
  destruct (u <? 2048) eqn:E2; to_prop.
  { apply text_multi; [repeat constructor; div_lia| |done].
    eapply transparent_wide; [cbn; lia|]. intros t. cbn [app DecodeRune].
    rewrite (proj2 (Z.ltb_ge _ _)) by div_lia. unfold continuation, in_range.
    rewrite !(proj2 (Z.leb_le _ _)) by div_lia. done. }
  destruct (u <? 65536) eqn:E3; to_prop.
  { apply text_multi; [repeat constructor; div_lia| |done].
    eapply transparent_wide; [cbn; lia|]. intros t. cbn [app DecodeRune]. cbv zeta.
    rewrite (proj2 (Z.ltb_ge _ _)) by div_lia. unfold continuation, in_range.
    rewrite (proj2 (Z.leb_gt (224 + u / 4096) 223)) by div_lia. rewrite andb_false_r.
    rewrite (proj2 (Z.leb_le 224 (224 + u / 4096))), (proj2 (Z.leb_le (224 + u / 4096) 239)) by div_lia. cbn [andb].
    rewrite (proj2 (Z.leb_le (if _ =? 224 then _ else _) _)) by (case_match; to_prop; div_lia).
    rewrite (proj2 (Z.leb_le _ (if _ =? 237 then _ else _))) by (case_match; to_prop; div_lia).
    rewrite !(proj2 (Z.leb_le _ _)) by div_lia. done. }
  apply text_multi; [repeat constructor; div_lia| |done].
  eapply transparent_wide; [cbn; lia|]. intros t. cbn [app DecodeRune]. cbv zeta.
  rewrite (proj2 (Z.ltb_ge _ _)) by div_lia. unfold continuation, in_range.
  rewrite (proj2 (Z.leb_gt (240 + u / 262144) 223)), (proj2 (Z.leb_gt (240 + u / 262144) 239)) by div_lia.
  rewrite !andb_false_r.
  rewrite (proj2 (Z.leb_le 240 (240 + u / 262144))), (proj2 (Z.leb_le (240 + u / 262144) 244)) by div_lia. cbn [andb].
  rewrite (proj2 (Z.leb_le (if _ =? 240 then _ else _) _)) by (case_match; to_prop; div_lia).
  rewrite (proj2 (Z.leb_le _ (if _ =? 244 then _ else _))) by (case_match; to_prop; div_lia).
  rewrite !(proj2 (Z.leb_le _ _)) by div_lia. done.
Qed.

Lemma hex_value_range c v : hex_value c = Some v → 0 ≤ v < 16 ∧ c < 128.
Proof.
  unfold hex_value, in_range. intros H. split_ifs; try done; injection H as <-; to_prop; lia.
Qed.
Lemma unicodeEscape_range a b c d u :
  unicodeEscape [a; b; c; d] = Some u → 0 ≤ u < 65536 ∧ Forall (λ c, c < 128) [a; b; c; d].
Proof.
  cbn. destruct (hex_value a) eqn:Ea, (hex_value b) eqn:Eb, (hex_value c) eqn:Ec, (hex_value d) eqn:Ed;
    cbn; try done. intros [= <-].
  apply hex_value_range in Ea, Eb, Ec, Ed. split; [lia|]. repeat constructor; lia.
Qed.
Lemma simple_escape_range e c : simple_escape e = Some c → 0 ≤ c < 128 ∧ e < 128.
Proof. unfold simple_escape. intros H. split_ifs; try done; injection H as <-; to_prop; lia. Qed.

(** A literal spells the bytes above the ASCII range as they are. *)
Lemma spells_string_wide chunk s raw :
  Forall (λ c, 128 ≤ c < 256) chunk → spells_string s (chunk ++ raw) →
  ∃ s', s = chunk ++ s' ∧ spells_string s' raw.
Proof.
  intros Hc. revert s. induction Hc as [|c chunk Hc _ IH]; intros s; cbn [app]; [eauto|].
  intros H. inversion H as [|? s' ? ? ? ? Hs|e ? ? ? He|? ? ? ? ? ? ? Hu|]; subst; try lia.
  destruct (IH _ Hs) as (s'' & -> & ?). eauto.
Qed.

Lemma chunk_in_literal chunk rest raw tail :
  Forall (λ c, 128 ≤ c < 256) chunk → chunk ++ rest = raw ++ 34 :: tail →
  ∃ raw', raw = chunk ++ raw' ∧ rest = raw' ++ 34 :: tail.
Proof.
  intros Hc. revert raw. induction Hc as [|c chunk Hc _ IH]; intros raw E; [by exists raw|].
  destruct raw as [|c' raw]; cbn in E; injection E as E1 E; [lia|subst c'].
  destruct (IH _ E) as (raw' & -> & ->). eauto.
Qed.

Lemma utf8_ascii_cons c q : c < 128 → utf8_valid (c :: q) = utf8_valid q.
Proof. intros Hc. apply (transparent_ascii c Hc q). Qed.
Lemma utf8_ascii_prefix p q : Forall (λ c, c < 128) p → utf8_valid (p ++ q) = true → utf8_valid q = true.
Proof. intros Hp. by rewrite transparent_ascii_list. Qed.
Lemma Forall_app_tail {A} (p q : list A) (P : A → Prop) : Forall P (p ++ q) → Forall P q.
Proof. by intros [_ ?]%Forall_app. Qed.

Lemma literal_text s raw rest :
  spells_string s raw → Forall is_byte raw → utf8_valid (raw ++ 34 :: rest) = true →
  text s ∧ utf8_valid rest = true.
Proof.
  revert s. induction raw as [raw IH] using (induction_ltof1 _ length). unfold ltof in IH.
  intros s Hs Hb Hu. inversion Hs as [E1 E2|c s' raw' H32 H34 H92 Hs' E1 E2|e c s' raw' He Hs' E1 E2
    |h1 h2 h3 h4 u s' raw' Eu Hh Hl Hs' E1 E2|h1 h2 h3 h4 l1 l2 l3 l4 hi lo s' raw' Ehi Hh Elo Hl Hs' E1 E2]; subst.
  - split; [constructor|]. by rewrite <-(utf8_ascii_cons 34).
  - apply Forall_cons in Hb as [Hc Hb]. cbn [app] in Hu.
    destruct (DecodeRune_shape (c :: raw' ++ 34 :: rest)) as
      [Hd|(r & chunk & tail & Heq & Hne & Hd & Hw & Ht & Hch)]; [done| |].
    { rewrite utf8_cons, Hd in Hu. done. }
    destruct Hch as [(c0 & -> & Hc0)|Hwide].
    + injection Heq as <- <-. rewrite (utf8_ascii_cons c) in Hu by done.
      destruct (IH raw' ltac:(cbn; lia) s' Hs' Hb Hu) as [? ?]. split; [|done].
      constructor; [unfold is_byte in Hc; lia|done].
    + change (c :: raw' ++ 34 :: rest) with ((c :: raw') ++ 34 :: rest) in Heq.
      symmetry in Heq. destruct (chunk_in_literal _ _ _ _ Hwide Heq) as (raw'' & Hraw & ->).
      assert (Htr : transparent chunk).
      { destruct chunk as [|x [|y chunk]]; [done| |eapply transparent_wide; [cbn; lia|done]].
        destruct Hw as [Hw|Hw]; [|done]. intros t. cbn [app]. rewrite utf8_cons.
        specialize (Ht t). cbn [app] in Ht. rewrite Ht. cbn. by rewrite (proj2 (Z.eqb_neq _ _) Hw). }
      change (c :: raw' ++ 34 :: rest) with ((c :: raw') ++ 34 :: rest) in Hu.
      rewrite Hraw, <-app_assoc, Htr in Hu. rewrite Hraw in Hs.
      destruct (spells_string_wide chunk _ _ Hwide Hs) as (s'' & E & Hs'').
      assert (Hb2 : Forall is_byte (chunk ++ raw'')) by (rewrite <-Hraw; by constructor).
      apply Forall_app in Hb2 as [_ Hb2].
      destruct (IH raw'' ltac:(rewrite Hraw, length_app; destruct chunk; [done|cbn; lia]) s'' Hs'' Hb2 Hu).
      split; [|done]. rewrite E. by apply text_multi.
  - apply simple_escape_range in He as [? ?].
    apply (utf8_ascii_prefix [92; e] (raw' ++ _)) in Hu; [|repeat constructor; lia].
    destruct (IH raw' ltac:(cbn; lia) s' Hs' (Forall_app_tail [92; e] _ _ Hb) Hu). split; [by constructor|done].
  - apply unicodeEscape_range in Eu as [? Hasc].
    apply (utf8_ascii_prefix [92; 117; h1; h2; h3; h4] (raw' ++ _)) in Hu; [|by do 2 (constructor; [lia|])].
    destruct (IH raw' ltac:(cbn; lia) s' Hs' (Forall_app_tail [92; 117; h1; h2; h3; h4] _ _ Hb) Hu).
    split; [apply text_EncodeRune; [lia|done..]|done].
  - apply unicodeEscape_range in Ehi as [? Hasc]. apply unicodeEscape_range in Elo as [? Hasc'].
    apply (utf8_ascii_prefix [92; 117; h1; h2; h3; h4; 92; 117; l1; l2; l3; l4] (raw' ++ _)) in Hu.
    2: { apply (Forall_app_2 _ [92; 117] (_ :: _)); [repeat constructor; lia|].
         apply (Forall_app_2 _ [h1; h2; h3; h4]); [done|]. by do 2 (constructor; [lia|]). }
    destruct (IH raw' ltac:(cbn; lia) s' Hs'
      (Forall_app_tail [92; 117; h1; h2; h3; h4; 92; 117; l1; l2; l3; l4] _ _ Hb) Hu).
    unfold high_surrogate, low_surrogate, in_range in Hh, Hl. to_prop.
    split; [apply text_EncodeRune; unfold high_surrogate, low_surrogate, in_range; [lia| |
      |done]; to_prop; lia|done].
Qed.

(** ** Well-formed values *)

(** The values of documents that nest at most [n] deep. *)
Fixpoint well_formed (n : nat) (v : jval) : Prop :=
  match v with
  | JNull | JBool _ => True
  | JInt k => - MaxSafeInteger ≤ k ≤ MaxSafeInteger
  | JString s => text s
  | JArray l => match n with O => False | S n => Forall (well_formed n) l end
  | JObject l =>
      match n with
      | O => False
      | S n => NoDup l.*1 ∧ Forall (λ kv, Forall (λ c, 0 ≤ c < 128) kv.1 ∧ well_formed n kv.2) l
      end
  end.

(** Spelled in valid UTF-8: [wf] of the value, and what follows stays valid. *)
Definition spelled_wf {A} (R : A → list Z → Prop) (wf : A → Prop) : Prop := ∀ v t rest,
  R v t → Forall is_byte t → utf8_valid (t ++ rest) = true → wf v ∧ utf8_valid rest = true.

Lemma utf8_space w rest : space w → utf8_valid (w ++ rest) = utf8_valid rest.
Proof.
  intros Hw. apply transparent_ascii_list. eapply Forall_impl; [exact Hw|]. unfold is_space. intros c Hc.
  to_prop. lia.
Qed.

Lemma spells_more_wf {A} (R : A → list Z → Prop) wf vs body rest :
  spelled_wf R wf → spells_more R vs body → Forall is_byte body → utf8_valid (body ++ rest) = true →
  Forall wf vs ∧ utf8_valid rest = true.
Proof.
  intros HR. revert body. induction vs as [|v vs IH]; intros body Hb Hby Hu.
  { by rewrite utf8_space in Hu. }
  destruct Hb as (a & b & t & r & -> & Ha & Hb & Ht & Hr).
  apply Forall_app in Hby as [_ [_ [_ [Hbt Hbr]%Forall_app]%Forall_app]%Forall_cons].
  rewrite <-app_assoc, utf8_space in Hu by done. cbn [app] in Hu. rewrite utf8_ascii_cons in Hu by done.
  rewrite <-!app_assoc, utf8_space in Hu by done.
  destruct (HR _ _ _ Ht Hbt Hu) as [Hv Hu']. destruct (IH _ Hr Hbr Hu') as [Hvs Hrest].
  split; [by constructor|done].
Qed.

Lemma spells_elements_wf {A} (R : A → list Z → Prop) wf vs body rest :
  spelled_wf R wf → spells_elements R vs body → Forall is_byte body → utf8_valid (body ++ rest) = true →
  Forall wf vs ∧ utf8_valid rest = true.
Proof.
  intros HR. destruct vs as [|v vs]; intros Hb Hby Hu.
  { by rewrite utf8_space in Hu. }
  destruct Hb as (a & t & r & -> & Ha & Ht & Hr).
  apply Forall_app in Hby as [_ [Hbt Hbr]%Forall_app].
  rewrite <-!app_assoc, utf8_space in Hu by done.
  destruct (HR _ _ _ Ht Hbt Hu) as [Hv Hu'].
  destruct (spells_more_wf R wf vs r rest HR Hr Hbr Hu') as [Hvs Hrest]. split; [by constructor|done].
Qed.

Lemma literal_wf s raw rest :
  spells_string s raw → Forall is_byte ([34] ++ raw ++ [34]) →
  utf8_valid (([34] ++ raw ++ [34]) ++ rest) = true → text s ∧ utf8_valid rest = true.
Proof.
  intros Hs Hb Hu. rewrite <-!app_assoc in Hu. cbn [app] in *. rewrite utf8_ascii_cons in Hu by done.
  apply Forall_cons in Hb as [_ [Hb _]%Forall_app]. by eapply literal_text.
Qed.

Lemma spells_int_ascii k t : spells_int k t → Forall (λ c, 0 ≤ c < 128) t.
Proof.
  intros [(sign & c & ds & -> & Hs & Hd & _) _]. apply Forall_app_2.
  - destruct Hs as [-> | ->]; repeat constructor; lia.
  - eapply Forall_impl; [exact Hd|]. unfold is_digit_byte. lia.
Qed.

Lemma spelled_member_wf n :
  spelled_wf (spells n) (well_formed n) →
  spelled_wf (spells_member (spells n)) (λ kv, text kv.1 ∧ well_formed n kv.2).
Proof.
  intros HR [k v] d rest (raw & a & b & t & -> & Hk & Ha & Hb & Ht) Hby Hu. cbn in Hk, Ht |- *.
  replace ([34] ++ raw ++ [34] ++ a ++ [58] ++ b ++ t)
    with (([34] ++ raw ++ [34]) ++ a ++ [58] ++ b ++ t) in * by by rewrite <-!app_assoc.
  apply Forall_app in Hby as [Hbk Hby]. rewrite <-app_assoc in Hu.
  destruct (literal_wf _ _ _ Hk Hbk Hu) as [Hkt Hu'].
  rewrite <-app_assoc, utf8_space in Hu' by done. cbn [app] in Hu'. rewrite utf8_ascii_cons in Hu' by done.
  rewrite <-app_assoc, utf8_space in Hu' by done.
  apply Forall_app in Hby as [_ [_ [_ Hbt]%Forall_app]%Forall_cons].
  destruct (HR _ _ _ Ht Hbt Hu'). done.
Qed.

Lemma scalar_wf n v t rest :
  spells_scalar v t → Forall is_byte t → utf8_valid (t ++ rest) = true →
  well_formed n v ∧ utf8_valid rest = true.
Proof.
  intros Hv Hb Hu.
  assert (ascii : Forall (λ c, 0 ≤ c < 128) t → utf8_valid rest = true).
  { intros Ha. eapply utf8_ascii_prefix; [|exact Hu]. eapply Forall_impl; [exact Ha|]. cbn. lia. }
  destruct v as [|b|k|s|l|l]; cbn in Hv; try done.
  - subst t. split; [by destruct n|]. apply ascii. by vm_compute; repeat constructor.
  - subst t. split; [by destruct n|]. apply ascii. by destruct b; vm_compute; repeat constructor.
  - destruct Hv as [Hi Hk]. split; [by destruct n|]. by eapply ascii, spells_int_ascii.
  - destruct Hv as (raw & -> & Hs). destruct (literal_wf _ _ _ Hs Hb Hu). by destruct n.
Qed.

Lemma ascii_only_text k : ascii_only k = true → Forall is_byte k → Forall (λ c, 0 ≤ c < 128) k.
Proof.
  induction k as [|c k IH]; intros Ha Hb; [constructor|]. cbn in Ha. apply andb_true_iff in Ha as [Hc Ha].
  apply Forall_cons in Hb as [Hcb Hb]. constructor; [unfold is_byte in Hcb; to_prop; lia|by apply IH].
Qed.

Lemma spells_wf n : spelled_wf (spells n) (well_formed n).
Proof.
  induction n as [|n IH]; intros v t rest Hv Hb Hu;
    (destruct (scalar_token v t) as [tok|] eqn:Etok;
     [by eapply scalar_wf; [eapply spells_scalar_of|..]|]); destruct v as [| | | |l|l]; try done.
  - destruct Hv as (body & -> & Hl). rewrite <-!app_assoc in Hu. cbn [app] in *.
    rewrite utf8_ascii_cons in Hu by done. apply Forall_cons in Hb as [_ [Hb _]%Forall_app].
    destruct (spells_elements_wf _ _ _ _ _ IH Hl Hb Hu) as [Hvs Hrest]. by rewrite utf8_ascii_cons in Hrest.
  - destruct Hv as (Hnd & Hk & body & -> & Hl). rewrite <-!app_assoc in Hu. cbn [app] in *.
    rewrite utf8_ascii_cons in Hu by done. apply Forall_cons in Hb as [_ [Hb _]%Forall_app].
    destruct (spells_elements_wf _ _ _ _ _ (spelled_member_wf n IH) Hl Hb Hu) as [Hvs Hrest].
    rewrite utf8_ascii_cons in Hrest by done. split; [|done]. split; [done|].
    rewrite Forall_forall in *. intros kv Hkv. destruct (Hvs kv Hkv) as [Ht ?]. split; [|done].
    apply ascii_only_text; [by apply Hk|by apply text_bytes].
Qed.

(** ** The canonical document is a spelling of its value *)

Lemma hex_char_value d : 0 ≤ d < 16 → hex_value (hex_char d) = Some d.
Proof.
  intros Hd. unfold hex_value, hex_char, in_range. destruct (d <? 10) eqn:E; to_prop.
  - rewrite !(proj2 (Z.leb_le _ _)) by lia. cbn. f_equal. lia.
  - rewrite (proj2 (Z.leb_gt (87 + d) 57)), andb_false_r by lia.
    rewrite !(proj2 (Z.leb_le _ _)) by lia. cbn. f_equal. lia.
Qed.

Lemma quote_byte_spells c s raw :
  is_byte c → spells_string s raw → spells_string (c :: s) (quote_byte c ++ raw).
Proof.
  unfold is_byte. intros Hc Hs. unfold quote_byte.
  destruct ((c =? 34) || (c =? 92)) eqn:E1.
  { apply ss_simple; [|done]. to_prop. by destruct E1; subst. }
  case_byte c 8; [by apply ss_simple|]. case_byte c 12; [by apply ss_simple|].
  case_byte c 10; [by apply ss_simple|]. case_byte c 13; [by apply ss_simple|].
  case_byte c 9; [by apply ss_simple|]. to_prop. destruct (c <? 32) eqn:E32; to_prop.
  - assert (He : EncodeRune c = [c]) by (unfold EncodeRune; by rewrite (proj2 (Z.ltb_lt c 128)) by lia).
    change (c :: s) with ([c] ++ s). rewrite <-He. cbn [app]. apply ss_unicode; [| | |done].
    + cbn -[hex_value hex_char]. rewrite !hex_char_value by div_lia. cbn. f_equal. div_lia.
    + unfold high_surrogate, in_range. to_prop. lia.
    + unfold low_surrogate, in_range. to_prop. lia.
  - apply ss_plain; [lia|tauto..|done].
Qed.

Lemma quote_spells s : Forall is_byte s → spells_string s (concat (map quote_byte s)).
Proof. induction 1 as [|c s Hc _ IH]; [constructor|]. cbn. by apply quote_byte_spells. Qed.

(** Whole characters, as bytes. *)
Definition clean (p : list Z) : Prop := Forall is_byte p ∧ transparent p.
Lemma clean_app a b : clean a → clean b → clean (a ++ b).
Proof. intros [? ?] [? ?]. split; [by apply Forall_app_2|by apply transparent_app]. Qed.
Lemma clean_ascii p : Forall (λ c, 0 ≤ c < 128) p → clean p.
Proof.
  intros H. split; [|apply transparent_ascii_list]; (eapply Forall_impl; [exact H|]); unfold is_byte; cbn; lia.
Qed.
Lemma clean_concat ps : Forall clean ps → clean (concat ps).
Proof. induction 1; [by apply clean_ascii|]. by apply clean_app. Qed.

Lemma quote_byte_ascii c : 0 ≤ c < 128 → Forall (λ c, 0 ≤ c < 128) (quote_byte c).
Proof.
  intros Hc. unfold quote_byte. split_ifs; repeat constructor; try lia;
    unfold hex_char; case_match; to_prop; div_lia.
Qed.
Lemma quote_byte_wide c : 128 ≤ c → quote_byte c = [c].
Proof.
  intros Hc. unfold quote_byte. rewrite !(proj2 (Z.eqb_neq c _)) by lia.
  cbn. by rewrite (proj2 (Z.ltb_ge _ _)) by lia.
Qed.

Lemma quote_clean s : text s → clean (concat (map quote_byte s)).
Proof.
  induction 1 as [|c s Hc _ IH|chunk s Hc Ht _ IH]; [by apply clean_ascii| |].
  - cbn. apply clean_app; [by apply clean_ascii, quote_byte_ascii|done].
  - rewrite map_app, concat_app. apply clean_app; [|done].
    assert (concat (map quote_byte chunk) = chunk) as ->.
    { clear Ht IH. induction Hc as [|c chunk ? _ IH]; [done|]. cbn. by rewrite quote_byte_wide, IH by lia. }
    split; [|done]. eapply Forall_impl; [exact Hc|]. unfold is_byte. lia.
Qed.

Lemma digits_leading fuel n acc :
  0 < n < 10 ^ Z.of_nat fuel → ∃ c ds, digits fuel n acc = c :: ds ∧ c ≠ 48.
Proof.
  revert n acc. induction fuel as [|fuel IH]; intros n acc Hn; [cbn in Hn; lia|].
  rewrite Nat2Z.inj_succ, Z.pow_succ_r in Hn by lia. cbn [digits].
  destruct (n / 10 =? 0) eqn:E; to_prop.
  - eexists _, _. split; [done|]. div_lia.
  - apply IH. split; [div_lia|]. apply Z.div_lt_upper_bound; lia.
Qed.

Lemma FormatInt_spells n : - MaxSafeInteger ≤ n ≤ MaxSafeInteger → spells_int n (bytes (FormatInt n)).
Proof.
  unfold MaxSafeInteger. intros Hn. split.
  2: { rewrite string_of_bytes_bytes. apply ParseInt_FormatInt. unfold in_int64, int64_min, int64_max. lia. }
  assert (digits_ok : ∀ k, 0 < k ≤ 2 ^ 53 - 1 → ∃ c ds, digits 19 k [] = c :: ds ∧
    Forall is_digit_byte (c :: ds) ∧ (c = 48 → ds = [])).
  { intros k Hk. destruct (digits_leading 19 k []) as (c & ds & E & Hc); [unfold Z.of_nat; cbn; lia|].
    exists c, ds. split; [done|]. split; [rewrite <-E; by apply digits_bytes|done]. }
  assert (Hb : ∀ k, Forall is_byte (digits 19 k [])).
  { intros k. eapply Forall_impl; [by apply (digits_bytes 19 k [])|]. apply digit_is_byte. }
  unfold FormatInt. destruct (n <? 0) eqn:E; to_prop; rewrite bytes_string_of_bytes by auto.
  - destruct (digits_ok (- n)) as (c & ds & -> & ? & ?); [lia|]. exists [45], c, ds. auto.
  - destruct (decide (n = 0)) as [->|Hne].
    { exists [], 48, []. repeat split; [by left|]. constructor; [unfold is_digit_byte; lia|constructor]. }
    destruct (digits_ok n) as (c & ds & -> & ? & ?); [lia|]. exists [], c, ds. auto.
Qed.

Section printed_elements.
Context {A : Type} (R : A → list Z → Prop) (f : A → list Z).

Lemma printed_more vs :
  Forall (λ v, R v (f v)) vs → spells_more R vs (concat (map (cons 44) (map f vs))).
Proof.
  induction 1 as [|v vs Hv _ IH]; [constructor|]. cbn. exists [], [], (f v), (concat (map (cons 44) (map f vs))).
  by repeat split; try constructor.
Qed.
Lemma printed_elements vs : Forall (λ v, R v (f v)) vs → spells_elements R vs (join (map f vs)).
Proof.
  destruct 1 as [|v vs Hv Hvs]; [constructor|]. cbn. exists [], (f v), (concat (map (cons 44) (map f vs))).
  repeat split; [constructor|done|by apply printed_more].
Qed.
Lemma clean_join vs : Forall (λ v, clean (f v)) vs → clean (join (map f vs)).
Proof.
  destruct 1 as [|v vs Hv Hvs]; [by apply clean_ascii|]. cbn. apply clean_app; [done|]. apply clean_concat.
  induction Hvs; [constructor|]. cbn. constructor; [|done].
  apply (clean_app [44]); [by apply clean_ascii; constructor|done].
Qed.
End printed_elements.

Lemma clean_byte c : 0 ≤ c < 128 → clean [c].
Proof. intros. apply clean_ascii. by constructor. Qed.

Lemma clean_quote s : text s → clean (quote s).
Proof. intros H. unfold quote. repeat apply clean_app; [by apply clean_byte|by apply quote_clean|by apply clean_byte]. Qed.

Lemma ascii_text k : Forall (λ c, 0 ≤ c < 128) k → text k.
Proof. induction 1; by constructor. Qed.

Lemma print_scalar v tok t n :
  scalar_token v t = Some tok → well_formed n v → spells_scalar v (print v) ∧ clean (print v).
Proof.
  intros Hs Hv. destruct v as [|b|k|s|l|l]; try done.
  - split; [done|]. apply clean_ascii. by vm_compute; repeat constructor.
  - split; [done|]. apply clean_ascii. by destruct b; vm_compute; repeat constructor.
  - assert (Hk : - MaxSafeInteger ≤ k ≤ MaxSafeInteger) by by destruct n.
    split; [split; [by apply FormatInt_spells|done]|].
    by eapply clean_ascii, spells_int_ascii, FormatInt_spells.
  - assert (Ht : text s) by by destruct n.
    split; [|by apply clean_quote]. exists (concat (map quote_byte s)).
    split; [done|]. by apply quote_spells, text_bytes.
Qed.

Lemma print_spells n v : well_formed n v → spells n v (print v) ∧ clean (print v).
Proof.
  revert v. induction n as [|n IH]; intros v Hv;
    (destruct (scalar_token v []) as [tok|] eqn:Etok;
     [destruct (print_scalar _ _ _ _ Etok Hv); by split; [apply spells_of_scalar|]|]);
    destruct v as [| | | |l|l]; try done; cbn in Hv.
  - split.
    + exists (join (map print l)). split; [done|]. apply printed_elements.
      eapply Forall_impl; [exact Hv|]. intros v Hw. by apply IH.
    + cbn. apply (clean_app [91]); [by apply clean_byte|]. apply clean_app; [|by apply clean_byte].
      apply clean_join. eapply Forall_impl; [exact Hv|]. intros v Hw. by apply IH.
  - destruct Hv as [Hnd Hv]. split.
    + split; [done|]. split.
      { eapply Forall_impl; [exact Hv|]. intros kv [Hk _]. cbn in *. unfold ascii_only. apply forallb_forall.
        intros c Hc%list_elem_of_In. rewrite Forall_forall in Hk. apply Hk in Hc. to_prop. lia. }
      exists (join (map (λ kv, quote kv.1 ++ [58] ++ print kv.2) l)). split; [done|].
      apply printed_elements. eapply Forall_impl; [exact Hv|]. intros [k v] [Hk Hw]. cbn in *.
      exists (concat (map quote_byte k)), [], [], (print v). unfold quote.
      split; [by rewrite <-!app_assoc|]. repeat split; try constructor; [|by apply IH].
      by apply quote_spells, text_bytes, ascii_text.
    + cbn -[quote app]. apply clean_app; [by apply clean_byte|]. apply clean_app; [|by apply clean_byte].
      apply clean_join. eapply Forall_impl; [exact Hv|]. intros [k v] [Hk Hw]. cbn [fst snd] in *.
      apply clean_app; [by apply clean_quote, ascii_text|]. apply (clean_app [58]); [by apply clean_byte|by apply IH].
Qed.

(** ** Sorted values *)

Lemma sort_keys_members (l : list (list Z * jval)) :
  NoDup l.*1 → (∀ kv, kv ∈ l → sort_keys (sort_keys kv.2) = sort_keys kv.2) →
  sort_keys (sort_keys (JObject l)) = sort_keys (JObject l).
Proof.
  intros Hnd IH. cbn. f_equal. set (ms := map (λ kv, (kv.1, sort_keys kv.2)) l).
  assert (Hid : map (λ kv, (kv.1, sort_keys kv.2)) (merge_sort member_le ms) = merge_sort member_le ms).
  { rewrite <-(map_id (merge_sort member_le ms)) at 2. apply map_ext_in. intros kv Hin%list_elem_of_In.
    rewrite merge_sort_Permutation in Hin. apply list_elem_of_fmap in Hin as (kv' & -> & Hin).
    cbn. by rewrite IH. }
  rewrite Hid. apply (StronglySorted_unique_strong member_le).
  - intros [k v] [k' v'] Hin Hin' H1 H2. cbn in *. assert (k = k') as <- by by apply bytes_le_antisym.
    repeat rewrite merge_sort_Permutation in Hin. repeat rewrite merge_sort_Permutation in Hin'.
    assert (Hms : NoDup ms.*1) by (unfold ms; by rewrite <-list_fmap_compose).
    pose proof (elem_of_list_to_map_1 (M := gmap (list Z)) ms k v Hms Hin) as E.
    rewrite (elem_of_list_to_map_1 (M := gmap (list Z)) ms k v' Hms Hin') in E. by injection E as ->.
  - apply (StronglySorted_merge_sort member_le).
  - apply (StronglySorted_merge_sort member_le).
  - by rewrite merge_sort_Permutation.
Qed.

Lemma sort_keys_wf n v :
  well_formed n v → well_formed n (sort_keys v) ∧ sort_keys (sort_keys v) = sort_keys v.
Proof.
  revert v. induction n as [|n IH]; intros v Hv; destruct v as [|b|k|s|l|l]; try done; cbn in Hv.
  - assert (Hl : Forall (well_formed n) (map sort_keys l) ∧ map sort_keys (map sort_keys l) = map sort_keys l).
    { induction Hv as [|v l Hv _ [IHl IHe]]; [done|]. destruct (IH v Hv) as [? He].
      split; [by constructor|]. cbn. by rewrite He, IHe. }
    destruct Hl as [? He]. split; [done|]. cbn. by rewrite He.
  - destruct Hv as [Hnd Hv]. rewrite Forall_forall in Hv. split.
    + cbn. split; [by rewrite merge_sort_Permutation, <-list_fmap_compose|].
      rewrite merge_sort_Permutation. apply Forall_forall. intros kv Hin.
      apply list_elem_of_fmap in Hin as (kv' & -> & Hin). destruct (Hv kv' Hin). split; [done|]. by apply IH.
    + apply sort_keys_members; [done|]. intros kv Hin. by apply IH, Hv.
Qed.

(** ** Canonical documents identify their values *)

Definition element_inj {A} (f : A → list Z) (P : A → Prop) : Prop := ∀ v v' r r',
  P v → P v' → f v ++ r = f v' ++ r' → follows r → follows r' → v = v' ∧ r = r'.

Lemma more_inj {A} (f : A → list Z) P vs vs' c r r' :
  element_inj f P → c = 93 ∨ c = 125 → Forall P vs → Forall P vs' →
  concat (map (cons 44) (map f vs)) ++ c :: r = concat (map (cons 44) (map f vs')) ++ c :: r' →
  vs = vs' ∧ r = r'.
Proof.
  intros Hf Hc Hvs. revert vs'.
  assert (Hfollow : ∀ (ws : list A) x, follows (concat (map (cons 44) (map f ws)) ++ c :: x)).
  { intros [|w ws] x; cbn; tauto. }
  induction Hvs as [|v vs Hv _ IH]; intros vs' Hvs' E; destruct Hvs' as [|v' vs' Hv' Hvs']; cbn in E.
  - by injection E as ->.
  - injection E as -> _. lia.
  - injection E as <- _. lia.
  - rewrite <-!app_assoc in E. injection E as E. destruct (Hf _ _ _ _ Hv Hv' E (Hfollow _ _) (Hfollow _ _)) as [-> E'].
    destruct (IH vs' Hvs' E') as [-> ->]. done.
Qed.

Lemma join_inj {A} (f : A → list Z) P vs vs' c r r' :
  element_inj f P → (∀ v, P v → starts_value (f v)) → c = 93 ∨ c = 125 → Forall P vs → Forall P vs' →
  join (map f vs) ++ c :: r = join (map f vs') ++ c :: r' → vs = vs' ∧ r = r'.
Proof.
  intros Hf Hst Hc Hvs Hvs' E.
  assert (Hfollow : ∀ (ws : list A) x, follows (concat (map (cons 44) (map f ws)) ++ c :: x)).
  { intros [|w ws] x; cbn; tauto. }
  destruct Hvs as [|v vs Hv Hvs], Hvs' as [|v' vs' Hv' Hvs']; cbn in E.
  - by injection E as ->.
  - destruct (Hst v' Hv') as (x & t & Ht & _ & ? & ? & _). rewrite Ht in E. injection E as -> _. lia.
  - destruct (Hst v Hv) as (x & t & Ht & _ & ? & ? & _). rewrite Ht in E. injection E as <- _. lia.
  - rewrite <-!app_assoc in E. destruct (Hf _ _ _ _ Hv Hv' E (Hfollow _ _) (Hfollow _ _)) as [-> E'].
    destruct (more_inj f P vs vs' c r r' Hf Hc Hvs Hvs' E') as [-> ->]. done.
Qed.

Lemma scalar_token_inj v v' tok :
  scalar_token v (print v) = Some tok → scalar_token v' (print v') = Some tok →
  spells_scalar v (print v) → spells_scalar v' (print v') → v = v'.
Proof.
  destruct v, v'; try done; intros Hv Hv' Hp Hp'; injection Hv as <-; injection Hv' as Ht; try congruence.
  destruct Hp as [[_ Hp] _], Hp' as [[_ Hp'] _]. cbn [print] in *. congruence.
Qed.

Lemma scalar_token_any v t t' tok : scalar_token v t = Some tok → ∃ tok', scalar_token v t' = Some tok'.
Proof. destruct v; try done; eauto. Qed.

(** A scalar and a container differ in their first byte. *)
Lemma print_head n v r :
  well_formed n v → match v with
  | JArray l => print v ++ r = 91 :: join (map print l) ++ 93 :: r
  | JObject l => print v ++ r = 123 :: join (map (λ kv, quote kv.1 ++ [58] ++ print kv.2) l) ++ 125 :: r
  | _ => ∃ c t, print v ++ r = c :: t ∧ c ≠ 91 ∧ c ≠ 123
  end.
Proof.
  intros Hv. destruct (scalar_token v (print v)) as [tok|] eqn:Et.
  - destruct (print_scalar _ _ _ _ Et Hv) as [Hs _].
    destruct (decode_scalar_complete n v (print v) tok [] (spells_of_scalar n v _ Hs) Et I) as [_ Ho].
    destruct (spells_starts n v _ (spells_of_scalar n v _ Hs)) as (c & t & E & _).
    destruct v; try done; exists c, (t ++ r); rewrite E; by split; [|apply (Ho c t)].
  - destruct v; try done; cbn -[quote app]; rewrite <-!app_assoc; done.
Qed.

Lemma print_inj_scalar n v v' tok r r' :
  well_formed n v → well_formed n v' → scalar_token v (print v) = Some tok →
  print v ++ r = print v' ++ r' → follows r → follows r' → v = v' ∧ r = r'.
Proof.
  intros Hv Hv' Et E Hr Hr'. destruct (print_scalar _ _ _ _ Et Hv) as [Hs _].
  destruct (scalar_token v' (print v')) as [tok'|] eqn:Et'.
  - destruct (print_scalar _ _ _ _ Et' Hv') as [Hs' _].
    destruct (decode_scalar_complete n v _ tok r (spells_of_scalar _ _ _ Hs) Et Hr) as [Hd _].
    destruct (decode_scalar_complete n v' _ tok' r' (spells_of_scalar _ _ _ Hs') Et' Hr') as [Hd' _].
    rewrite E, Hd' in Hd. injection Hd as -> ->. by split; [eapply scalar_token_inj|].
  - pose proof (print_head n v r Hv) as Hh. pose proof (print_head n v' r' Hv') as Hh'.
    destruct v; try done; destruct Hh as (c & t & Hh & ? & ?); rewrite Hh in E;
      destruct v'; try done; rewrite Hh' in E; injection E as -> _; done.
Qed.

Lemma member_inj n :
  element_inj print (well_formed n) →
  element_inj (λ kv, quote kv.1 ++ [58] ++ print kv.2)
    (λ kv, Forall (λ c, 0 ≤ c < 128) kv.1 ∧ well_formed n kv.2).
Proof.
  intros IH [k v] [k' v'] r r' [Hk Hv] [Hk' Hv'] E Hr Hr'. cbn [fst snd] in *. unfold quote in E.
  rewrite <-!app_assoc in E. cbn [app] in E. injection E as E.
  pose proof (read_string_complete k _ (58 :: print v ++ r) (quote_spells k (proj1 (text_bytes k (ascii_text k Hk))))) as R.
  rewrite E, (read_string_complete k') in R by by apply quote_spells, text_bytes, ascii_text.
  injection R as <- R. by destruct (IH _ _ _ _ Hv Hv' (eq_sym R) Hr Hr') as [-> ->].
Qed.

Lemma print_starts n v : well_formed n v → starts_value (print v).
Proof. intros Hv. eapply spells_starts. by apply (print_spells n). Qed.

Lemma print_inj n : element_inj print (well_formed n).
Proof.
  induction n as [|n IH]; intros v v' r r' Hv Hv' E Hr Hr';
    (destruct (scalar_token v (print v)) as [tok|] eqn:Et; [by eapply print_inj_scalar|]);
    (destruct (scalar_token v' (print v')) as [tok'|] eqn:Et';
      [symmetry in E; by destruct (print_inj_scalar _ v' v tok' r' r Hv' Hv Et' E) as [-> ->]|]);
    pose proof (print_head _ v r Hv) as Hh; pose proof (print_head _ v' r' Hv') as Hh';
    destruct v as [| | | |l|l], v' as [| | | |l'|l']; try done; rewrite Hh, Hh' in E; try discriminate E;
    injection E as E; cbn in Hv, Hv'.
  - apply (join_inj _ (well_formed n)) in E as [-> ->]; try done; [apply print_starts|by left].
  - apply (join_inj _ _ _ _ _ _ _ (member_inj n IH)) in E as [-> ->]; try done; [|by right|apply Hv|apply Hv'].
    intros kv _. by eexists 34, _.
Qed.

(** ** Theorems *)

Lemma spelled_document document a t b v :
  document = a ++ t ++ b → space a → space b → spells MaxDepth v t → Forall is_byte document →
  utf8_valid document = true → well_formed MaxDepth v.
Proof.
  intros -> Ha Hb Hv Hby Hu. rewrite utf8_space in Hu by done.
  apply Forall_app in Hby as [_ [Hbt _]%Forall_app]. by destruct (spells_wf _ _ _ _ Hv Hbt Hu).
Qed.

Lemma Token_end b : space b → Token (mkDecoder b tokenTopValue []) = (inl EOF, mkDecoder [] tokenTopValue []).
Proof. intros Hb. unfold Token. cbn. rewrite <-(app_nil_r b), Token_space by done. done. Qed.

Lemma Token_EOF l s stack d : Token_ l s stack = (inl EOF, d) → s = tokenTopValue → space l.
Proof.
  intros Ht ->. destruct (skip_space l) as (w & l' & -> & Hw & Hl). rewrite Token_space in Ht by done.
  destruct Hl as [->|(c & l & -> & Hc)]; [by rewrite app_nil_r|].
  rewrite Token_nonspace in Ht by done. cbn -[decode_scalar read_string] in Ht.
  by repeat case_match.
Qed.

(** Every error of the reader is documented. *)
Lemma read_errors document :
  validStringEscapes document = true → ∀ e,
  readValue (2 * length document + 2) (mkDecoder document tokenTopValue []) 0 = Err e →
  e = ErrInvalid ∨ e = ErrLimit.
Proof.
  intros He e Hr. destruct (read_fuel (2 * length document + 2)) as [Hf _].
  destruct (reader_errors (2 * length document + 2)) as [Hv _].
  destruct (Hv _ _ _ Hr) as [->|?]; [|done]. exfalso. by apply (Hf document tokenTopValue [] 0%nat).
Qed.

Lemma len_bytes s : len s = Z.of_nat (length (bytes s)).
Proof. unfold len. by rewrite length_bytes. Qed.

Lemma Canonicalize_sound document maxBytes out :
  Canonicalize document maxBytes = Ok out →
  len document ≤ maxBytes ∧ len out ≤ maxBytes ∧ utf8_valid (bytes document) = true ∧
  ∃ v, denotes (bytes document) v ∧ bytes out = print (sort_keys v) ∧ well_formed MaxDepth v.
Proof.
  unfold Canonicalize. intros H. apply ok_fail_if in H as [Hlim H]. apply ok_fail_if in H as [Hval H].
  apply ok_bind in H as ([encoded d] & Hr & H). to_prop. destruct Hval as [[Hne Hu] He].
  destruct (read_sound (2 * String.length document + 2)) as [Hs _].
  destruct (Hs _ _ _ _ _ _ Hr eq_refl He) as (a & t & b & v & Hdoc & Ha & Hv & -> & ->).
  cbn [value_state tokenValueEnd] in H. unfold Token in H. cbn [d_rest d_state d_stack] in H.
  destruct (Token_ b tokenTopValue []) as [[[]|] d'] eqn:Et; try done.
  apply Token_EOF in Et; [|done]. apply ok_fail_if in H as [Hout [= <-]]. to_prop.
  replace (MaxDepth - 0)%nat with MaxDepth in Hv by lia.
  assert (Hwf : well_formed MaxDepth v) by (eapply spelled_document; eauto using bytes_is_byte).
  destruct (print_spells _ _ (proj1 (sort_keys_wf _ _ Hwf))) as [_ [Hb _]].
  rewrite (len_bytes (string_of_bytes _)), bytes_string_of_bytes by done. split; [lia|]. split; [lia|]. split; [done|].
  exists v. repeat split; [|done]. by exists a, t, b.
Qed.

Lemma denotes_read document v :
  denotes document v → ∃ b, space b ∧
    readValue (2 * length document + 2) (mkDecoder document tokenTopValue []) 0 =
      Ok (print (sort_keys v), mkDecoder b tokenTopValue []).
Proof.
  intros (a & t & b & -> & Ha & Hb & Hv). exists b. split; [done|].
  apply (value_complete_all MaxDepth); [done|lia|done|done| |lia].
  rewrite <-(app_nil_r b). by apply follows_space.
Qed.

Lemma denotes_escapes document v :
  denotes document v → validStringEscapes document = true ∧ (0 < length document)%nat.
Proof.
  intros (a & t & b & -> & Ha & Hb & Hv). pose proof (starts_length _ (spells_starts _ _ _ Hv)).
  split; [|len_lia].
  unfold validStringEscapes. rewrite string_escapes_space, (spells_neutral _ _ _ Hv) by done.
  by rewrite <-(app_nil_r b), string_escapes_space.
Qed.

Lemma Canonicalize_complete document maxBytes v :
  len document ≤ maxBytes → Z.of_nat (length (print (sort_keys v))) ≤ maxBytes →
  utf8_valid (bytes document) = true → denotes (bytes document) v →
  Canonicalize document maxBytes = Ok (string_of_bytes (print (sort_keys v))).
Proof.
  intros Hlim Hout Hu Hd. unfold Canonicalize.
  destruct (denotes_escapes _ _ Hd) as [He Hpos]. destruct (denotes_read _ _ Hd) as (b & Hb & Hr).
  rewrite length_bytes in Hr, Hpos.
  rewrite (proj2 (Z.leb_gt maxBytes 0)), (proj2 (Z.ltb_ge maxBytes _)) by (unfold len in *; lia).
  rewrite (proj2 (Z.eqb_neq (len document) 0)), Hu, He by (unfold len in *; lia). cbn [orb negb].
  rewrite Hr. cbn -[print sort_keys Token]. rewrite Token_end by done. by rewrite (proj2 (Z.ltb_ge _ _)).
Qed.

(** C14. [Canonicalize] accepts exactly the documents of the grammar: a document is
    accepted when it is valid UTF-8 and spells, within white space, a value that
    nests at most 64 deep, holds safe integers only and has distinct ASCII keys in
    each object, and neither the document nor the output exceeds the limit; the
    output is then the compact document of that value with its members in key
    order.  So two spellings of one value give the same bytes. *)
Theorem canonicalize_exact document maxBytes out :
  Canonicalize document maxBytes = Ok out ↔
  len document ≤ maxBytes ∧ len out ≤ maxBytes ∧ utf8_valid (bytes document) = true ∧
  ∃ v, denotes (bytes document) v ∧ bytes out = print (sort_keys v).
Proof.
  split.
  - intros (? & ? & ? & v & ? & ? & _)%Canonicalize_sound. eauto 6.
  - intros (? & Hout & ? & v & ? & Hp). rewrite len_bytes, Hp in Hout.
    rewrite (Canonicalize_complete _ _ v), <-Hp, string_of_bytes_bytes by done. done.
Qed.

Lemma print_denotes v : well_formed MaxDepth v → denotes (print v) v ∧ clean (print v).
Proof.
  intros [Hs Hc]%print_spells. split; [|done]. exists [], (print v), [].
  rewrite app_nil_r. repeat split; [constructor..|done].
Qed.

Lemma Canonicalize_print v maxBytes :
  well_formed MaxDepth v → sort_keys v = v → Z.of_nat (length (print v)) ≤ maxBytes →
  Canonicalize (string_of_bytes (print v)) maxBytes = Ok (string_of_bytes (print v)).
Proof.
  intros Hv Hsort Hmax. destruct (print_denotes v Hv) as [Hd [Hb Ht]].
  rewrite <-Hsort at 2. apply Canonicalize_complete; rewrite ?len_bytes, ?bytes_string_of_bytes, ?Hsort by done;
    [done..|by apply transparent_valid|done].
Qed.

(** Round trip: the compact document of a well-formed value whose members are in
    key order is its own canonical form, and it denotes that value alone; every
    document that [Canonicalize] maps to it denotes the value up to the order of
    members. *)
Theorem canonical_roundtrip v maxBytes :
  well_formed MaxDepth v → sort_keys v = v → Z.of_nat (length (print v)) ≤ maxBytes →
  Canonicalize (string_of_bytes (print v)) maxBytes = Ok (string_of_bytes (print v)) ∧
  ∀ document, Canonicalize document maxBytes = Ok (string_of_bytes (print v)) →
    (∃ v', denotes (bytes document) v') ∧ ∀ v', denotes (bytes document) v' → sort_keys v' = v.
Proof.
  intros Hv Hsort Hmax. split; [by apply Canonicalize_print|]. intros document Hc.
  destruct (print_denotes v Hv) as [_ [Hb _]].
  destruct (Canonicalize_sound _ _ _ Hc) as (Hl & Ho & Hu & v0 & Hd0 & Hp & Hw0). split; [eauto|].
  rewrite bytes_string_of_bytes in Hp by done. intros v' Hd.
  assert (Hw' : well_formed MaxDepth v').
  { destruct Hd as (a & t & b & Hdoc & ? & ? & ?). eapply spelled_document; eauto using bytes_is_byte. }
  destruct (denotes_read _ _ Hd0) as (b & _ & Hr). destruct (denotes_read _ _ Hd) as (b' & _ & Hr').
  rewrite Hr' in Hr. injection Hr as Hr _.
  destruct (print_inj MaxDepth (sort_keys v') v [] []) as [-> _]; [by apply sort_keys_wf|done| |done..].
  by rewrite Hr, <-Hp.
Qed.

Definition sample_value : jval :=
  JObject [([97], JArray [JInt 1; JNull; JInt (-7)]); ([98], JObject [([99], JString [120])])].
Lemma sample_value_wf n : well_formed (S (S (S n))) sample_value.
Proof.
  assert (Hk : ∀ k, 0 ≤ k < 128 → Forall (λ c, 0 ≤ c < 128) [k]) by (intros; by constructor).
  assert (Hi : ∀ n k, - 10 ≤ k ≤ 10 → well_formed n (JInt k)) by (intros [] k ?; cbn; unfold MaxSafeInteger; lia).
  split; [apply NoDup_cons_2; [set_solver|]; apply NoDup_singleton|].
  repeat apply Forall_cons_2; [split; [apply Hk; cbn; lia|]..|apply Forall_nil_2]; cbn [snd].
  - change (Forall (well_formed (S n)) [JInt 1; JNull; JInt (-7)]).
    repeat (apply Forall_cons_2; [first [exact I|apply Hi; lia]|]). apply Forall_nil_2.
  - split; [apply NoDup_singleton|]. apply Forall_cons_2; [|apply Forall_nil_2].
    split; [apply Hk; cbn; lia|]. apply text_ascii; [lia|apply text_nil].
Qed.
Lemma canonical_roundtrip_witness :
  Canonicalize (string_of_bytes (print sample_value)) 64 = Ok (quoted "{'a':[1,null,-7],'b':{'c':'x'}}").
Proof.
  pose proof (canonical_roundtrip sample_value 64 (sample_value_wf 61)) as [H _];
    [reflexivity|by vm_compute|exact H].
Defined.

(** The canonical form is a fixed point, and the code always decides: whatever the
    document, [Canonicalize] either returns bytes that it maps to themselves, or one
    of its two documented errors (in particular the fuel of the model never runs
    out). *)
Theorem canonicalize_idempotent document maxBytes :
  match Canonicalize document maxBytes with
  | Ok out => Canonicalize out maxBytes = Ok out
  | Err e => e = ErrInvalid ∨ e = ErrLimit
  end.
Proof.
  destruct (Canonicalize document maxBytes) as [out|e] eqn:Hc.
  - apply Canonicalize_sound in Hc as (_ & Ho & _ & v & _ & Hp & Hw).
    destruct (sort_keys_wf _ _ Hw) as [Hs Hi]. rewrite len_bytes, Hp in Ho.
    rewrite <-(string_of_bytes_bytes out), Hp. by apply Canonicalize_print.
  - revert Hc. unfold Canonicalize. destruct (_ || _); [intros [= <-]; by right|].
    destruct (_ || _ || _) eqn:Hv; [intros [= <-]; by left|]. to_prop. destruct Hv as [_ He].
    pose proof (read_errors (bytes document) He) as Hr. rewrite length_bytes in Hr.
    destruct (readValue _ _ _) as [[encoded d]|e'] eqn:Er; cbn -[Token].
    + destruct (Token d) as [[[]|] d'] eqn:Et; [|intros [= <-]; by left..].
      destruct (_ <? _); [intros [= <-]; by right|done].
    + intros [= <-]. by apply Hr.
Qed.
