(* ===== verification/AppErrors.v ===== *)
(** * Application errors and the presentation of store failures

    Models [server/app/apperror]: the fluent construction of application errors, the
    search of an error chain, and [StoreTable], the one translation of store failures
    into application codes. *)

From S2P Require Import Prelude GoStrings ModelError.

(** ** Application errors *)

(** [New]; it panics on an empty code, which [translate_coded] excludes. *)
Definition New (code : string) : error := AppError code ∅ None.
Definition WithField (e : error) (key value : string) : error :=
  match e with AppError code fields cause => AppError code (<[key := value]> fields) cause | e => e end.
Definition WithFields (e : error) (added : gmap string string) : error :=
  match e with AppError code fields cause => AppError code (added ∪ fields) cause | e => e end.
Definition Wrap (e cause : error) : error :=
  match e with AppError code fields _ => AppError code fields (Some cause) | e => e end.
Definition Invalid (code field : string) : error := WithField (New code) "field" field.

(** The chain [errors.As] and [errors.Is] walk: the error and its causes. *)
Fixpoint chain (e : error) : list error :=
  e :: match e with
       | ValidationError _ _ _ _ _ (Some c) | AppError _ _ (Some c) | StoreError _ _ _ (Some c) => chain c
       | WrappedError _ c | PersistedStateError _ _ c => chain c
       | _ => []
       end.

Fixpoint find_map {A B} (f : A → option B) (l : list A) : option B :=
  match l with
  | [] => None
  | x :: l => match f x with Some b => Some b | None => find_map f l end
  end.

(** [As]: code and fields of the first application error. *)
Definition As (e : error) : option (string * gmap string string) :=
  find_map (λ e, match e with AppError code fields _ => Some (code, fields) | _ => None end) (chain e).
Definition Is (e : error) (code : string) : bool :=
  match As e with Some (got, _) => got ==? code | None => false end.
Definition CodeOf (e : error) (fallback : string) : string :=
  match As e with Some (code, _) => code | None => fallback end.

(** [errors.As(err, &target)] for a store error: what it names. *)
Definition As_store (kind : StoreErrorKind) (e : error) : option (string * string) :=
  find_map (λ e, match e with
                 | StoreError k resource detail _ => if k ==? kind then Some (resource, detail) else None
                 | _ => None
                 end) (chain e).

(** The sentinel a row that does not rehydrate answers to. *)
Definition ErrInvalidState : string := "invalid persisted state".

(** ** Store tables *)

Inductive StoreKind :=
  | StoreNotFound
  | StoreConflict
  | StoreReference
  | StoreInvalidInput
  | StoreSentinel
  | StoreKind_other.

Record StoreRule := mkStoreRule {
  sr_Kind : StoreKind;
  sr_Entity : string;
  sr_Constraint : string;
  sr_Sentinel : option string;
  sr_Code : string }.

Record StoreTable := mkStoreTable {
  st_Rules : list StoreRule;
  st_Constraints : gmap string string;
  st_NotFound : string;
  st_Conflict : string;
  st_Reference : string;
  st_Invalid : string;
  st_InvalidField : string;
  st_Unavailable : string;
  st_Fields : gmap string string }.
#[export] Instance StoreTable_eta : Eta StoreTable := λ t, mkStoreTable (st_Rules t) (st_Constraints t)
  (st_NotFound t) (st_Conflict t) (st_Reference t) (st_Invalid t) (st_InvalidField t) (st_Unavailable t) (st_Fields t).

Definition selects (r : StoreRule) (entity constraint : string) : bool :=
  ((sr_Entity r ==? "") || (sr_Entity r ==? entity))
  && ((sr_Constraint r ==? "") || (sr_Constraint r ==? constraint)).

Definition matches_rule (r : StoreRule) (e : error) : bool :=
  let typed kind blank :=
    match As_store kind e with
    | Some (resource, detail) => selects r resource (if blank : bool then "" else detail)
    | None => false
    end in
  match sr_Kind r with
  | StoreNotFound => typed ErrNotFound true
  | StoreConflict => typed ErrConflict false
  | StoreReference => typed ErrReference false
  | StoreInvalidInput => typed ErrInvalidInput false
  | StoreSentinel =>
      match sr_Sentinel r with
      | None => false
      | Some message =>
          existsb (λ e, match e with
                        | SentinelError m => m ==? message
                        | PersistedStateError _ _ _ => message ==? ErrInvalidState
                        | _ => false
                        end) (chain e)
      end
  | StoreKind_other => false
  end.

Definition or_unavailable (t : StoreTable) (code : string) : string :=
  if code ==? "" then st_Unavailable t else code.

Definition found {A} (o : option A) : bool := match o with Some _ => true | None => false end.

Definition table_code (t : StoreTable) (e : error) : string * string :=
  match find_map (λ rule, if matches_rule rule e then Some (sr_Code rule) else None) (st_Rules t) with
  | Some code => (code, "")
  | None =>
      match As_store ErrConflict e with
      | Some (_, constraint) =>
          match st_Constraints t !! constraint with
          | Some code => (code, "")
          | None => (or_unavailable t (st_Conflict t), "")
          end
      | None =>
          if found (As_store ErrNotFound e) then (or_unavailable t (st_NotFound t), "")
          else if found (As_store ErrReference e) then (or_unavailable t (st_Reference t), "")
          else if found (As_store ErrInvalidInput e) && (st_Invalid t !=? "") then (st_Invalid t, st_InvalidField t)
          else (st_Unavailable t, "")
      end
  end.

(** [Translate]; the error is [None] when nil. *)
Definition Translate (t : StoreTable) (err : option error) : error :=
  match err with
  | None => WithFields (New (st_Unavailable t)) (st_Fields t)
  | Some e =>
      if found (As e) then e
      else if found (As_store ErrIdempotencyConflict e) then Wrap (New "idempotency.conflict") e
      else if found (As_store ErrIdempotencyInProgress e) then Wrap (New "idempotency.in_progress") e
      else
        let '(code, field) := table_code t e in
        let failure := WithFields (New code) (st_Fields t) in
        let failure := if field !=? "" then WithField failure "field" field else failure in
        Wrap failure e
  end.

Definition With (t : StoreTable) (rules : list StoreRule) : StoreTable := t <| st_Rules := rules ++ st_Rules t |>.

(** [Conflicts]; a map iterates by ascending constraint once its keys are sorted. *)
Definition constraint_le (a b : string * string) : Prop := Compare a.1 b.1 ≠ Gt.
#[export] Instance constraint_le_dec : RelDecision constraint_le.
Proof. intros a b. unfold constraint_le. apply _. Defined.
Definition Conflicts (entity : string) (codes : gmap string string) : list StoreRule :=
  map (λ '(constraint, code), mkStoreRule StoreConflict entity constraint None code)
    (merge_sort constraint_le (map_to_list codes)).

Definition AdministrationStoreTable (resource conflict invalid : string) (constraints : gmap string string) : StoreTable :=
  mkStoreTable [] constraints "resource.not_found" conflict invalid invalid "" "administration.unavailable"
    {["resource" := resource]}.

(** ** Every failure is presented by a code of the table *)

Definition table_codes (t : StoreTable) : list string :=
  map sr_Code (st_Rules t) ++ map snd (map_to_list (st_Constraints t))
  ++ filter (λ c, c ≠ "") [st_NotFound t; st_Conflict t; st_Reference t; st_Invalid t] ++ [st_Unavailable t].

Lemma find_map_Some {A B} (f : A → option B) l b : find_map f l = Some b → ∃ a, a ∈ l ∧ f a = Some b.
Proof.
  induction l as [|x l IH]; cbn; [done|]. destruct (f x) eqn:E; [intros [= <-]; set_solver|].
  intros (a & Ha & Hf)%IH. set_solver.
Qed.

Lemma or_unavailable_codes t c :
  c ∈ [st_NotFound t; st_Conflict t; st_Reference t; st_Invalid t] → or_unavailable t c ∈ table_codes t.
Proof.
  intros Hc. unfold or_unavailable, table_codes. rewrite !elem_of_app. case_bool_decide as E; [set_solver|].
  do 2 right. left. by apply list_elem_of_filter.
Qed.

Lemma table_code_codes t e :
  (table_code t e).1 ∈ table_codes t ∧ ((table_code t e).2 = "" ∨ (table_code t e).2 = st_InvalidField t).
Proof.
  unfold table_code. destruct (find_map _ (st_Rules t)) as [code|] eqn:Er.
  { apply find_map_Some in Er as (r & Hr & Hm). destruct (matches_rule r e); simplify_eq. split; [|by left].
    unfold table_codes. rewrite elem_of_app. left. cbn [fst]. by apply (list_elem_of_fmap_2 sr_Code). }
  destruct (As_store ErrConflict e) as [[resource constraint]|].
  { destruct (st_Constraints t !! constraint) as [code|] eqn:Ec.
    - split; [|by left]. unfold table_codes. rewrite !elem_of_app. right. left.
      apply list_elem_of_fmap. exists (constraint, code). split; [done|]. by apply elem_of_map_to_list.
    - split; [|by left]. apply or_unavailable_codes. set_solver. }
  destruct (found _); [split; [apply or_unavailable_codes; set_solver|by left]|].
  destruct (found _); [split; [apply or_unavailable_codes; set_solver|by left]|].
  destruct (_ && _) eqn:Ei; cbn [fst snd].
  - split; [|by right]. to_prop. destruct Ei as [_ Ei]. pose proof (or_unavailable_codes t (st_Invalid t)) as H.
    unfold or_unavailable in H. rewrite (bool_decide_false _ Ei) in H. apply H. set_solver.
  - split; [|by left]. unfold table_codes. set_solver.
Qed.


