(* ===== verification/Actions.v ===== *)
(** * Actions and resources

    Models [server/model/authorization.go]: the closed vocabulary of actions, the
    registry that says which resources an action accepts and which scopes may grant
    it, and the predicates over it. *)

From S2P Require Import Prelude GoStrings Ident ModelError.

(** ** Vocabulary *)

Definition Action : Type := string.

Definition ActionInstitutionManage : Action := "institution.manage".
Definition ActionRoleManage : Action := "role.manage".
Definition ActionAuditView : Action := "audit.view".
Definition ActionAcademicAuditView : Action := "academic_audit.view".
Definition ActionUserView : Action := "user.view".
Definition ActionUserManage : Action := "user.manage".
Definition ActionUserProfilePictureManage : Action := "user.profile_picture.manage".
Definition ActionSessionView : Action := "session.view".
Definition ActionSessionManage : Action := "session.manage".
Definition ActionDesktopRegistrationRevoke : Action := "desktop_registration.revoke".
Definition ActionJobView : Action := "job.view".
Definition ActionJobManage : Action := "job.manage".
Definition ActionMailView : Action := "mail.view".
Definition ActionMailManage : Action := "mail.manage".
Definition ActionMailRekey : Action := "mail.rekey".
Definition ActionMFARekey : Action := "mfa.rekey".
Definition ActionExamCreate : Action := "exam.create".
Definition ActionExamCreateOverride : Action := "exam.create.override".
Definition ActionExamView : Action := "exam.view".
Definition ActionExamViewOverride : Action := "exam.view.override".
Definition ActionExamManage : Action := "exam.manage".
Definition ActionExamManageOverride : Action := "exam.manage.override".
Definition ActionExamPublish : Action := "exam.publish".
Definition ActionExamPublishOverride : Action := "exam.publish.override".
Definition ActionExamSittingCreate : Action := "exam.sitting.create".
Definition ActionExamSittingCreateOverride : Action := "exam.sitting.create.override".
Definition ActionExamSittingView : Action := "exam.sitting.view".
Definition ActionExamSittingViewOverride : Action := "exam.sitting.view.override".
Definition ActionExamSittingManage : Action := "exam.sitting.manage".
Definition ActionExamSittingManageOverride : Action := "exam.sitting.manage.override".
Definition ActionExamSittingParticipate : Action := "exam.sitting.participate".
Definition ActionExamAttemptBrowserActivityView : Action := "exam.attempt.browser_activity.view".
Definition ActionSubmissionView : Action := "submission.view".
Definition ActionSubmissionViewOverride : Action := "submission.view.override".
Definition ActionSubmissionReview : Action := "submission.review".
Definition ActionSubmissionReviewOverride : Action := "submission.review.override".
Definition ActionSubmissionRelease : Action := "submission.release".
Definition ActionSubmissionReleaseOverride : Action := "submission.release.override".
Definition ActionExamRecordsComplete : Action := "exam.records.complete".
Definition ActionExamRecordsCompleteOverride : Action := "exam.records.complete.override".
Definition ActionExamRecordsExport : Action := "exam.records.export".
Definition ActionExamRecordsExportOverride : Action := "exam.records.export.override".
Definition ActionExamRecordsHold : Action := "exam.records.hold".
Definition ActionExamRecordsHoldOverride : Action := "exam.records.hold.override".
Definition ActionRetentionHoldRelease : Action := "retention_hold.release".
Definition ActionAcademicUnitView : Action := "academic_unit.view".
Definition ActionAcademicUnitManage : Action := "academic_unit.manage".
Definition ActionAcademicUnitMembersView : Action := "academic_unit.members.view".
Definition ActionAcademicUnitMembersManage : Action := "academic_unit.members.manage".
Definition ActionAcademicPeriodView : Action := "academic_period.view".
Definition ActionAcademicPeriodManage : Action := "academic_period.manage".
Definition ActionProgrammeView : Action := "programme.view".
Definition ActionProgrammeManage : Action := "programme.manage".
Definition ActionProgrammeLevelView : Action := "programme_level.view".
Definition ActionProgrammeLevelManage : Action := "programme_level.manage".
Definition ActionClassView : Action := "class.view".
Definition ActionClassManage : Action := "class.manage".
Definition ActionClassMembersView : Action := "class.members.view".
Definition ActionClassMembersManage : Action := "class.members.manage".
Definition ActionAcademicProgressionManage : Action := "academic.progression.manage".
Definition ActionAccessPolicyView : Action := "access_policy.view".
Definition ActionAccessPolicyManage : Action := "access_policy.manage".
Definition ActionDesktopCompatibilityPolicyManage : Action := "desktop_compatibility_policy.manage".
Definition ActionRetentionPolicyView : Action := "retention_policy.view".
Definition ActionRetentionPolicyManage : Action := "retention_policy.manage".
Definition ActionRetentionCleanupManage : Action := "retention_cleanup.manage".
Definition ActionUserMFAReset : Action := "user.mfa.reset".
Definition ActionInvitationView : Action := "invitation.view".
Definition ActionInvitationCreate : Action := "invitation.create".
Definition ActionInvitationManage : Action := "invitation.manage".
Definition ActionOnboardingBatchView : Action := "onboarding_batch.view".
Definition ActionOnboardingBatchManage : Action := "onboarding_batch.manage".
Definition ActionExternalIdentityManage : Action := "external_identity.manage".
Definition ActionRoleView : Action := "role.view".
Definition ActionRoleBindingView : Action := "role_binding.view".
Definition ActionRoleBindingManage : Action := "role_binding.manage".

Inductive ResourceType :=
  | ResourceInstitution
  | ResourceAcademicUnit
  | ResourceProgramme
  | ResourceProgrammeLevel
  | ResourceAcademicPeriod
  | ResourceClass
  | ResourceUser
  | ResourceExam
  | ResourceExamSitting
  | ResourceSubmission
  | ResourceMailDelivery
  | ResourceType_other (raw : string).
#[export] Instance ResourceType_eq_dec : EqDecision ResourceType.
Proof. solve_decision. Defined.

Record Resource := mkResource {
  r_Type : ResourceType;
  r_ID : string }.

Inductive RoleScopeType :=
  | RoleScopeInstitution
  | RoleScopeAcademicUnit
  | RoleScopeClass
  | RoleScopeType_other (raw : string).
#[export] Instance RoleScopeType_eq_dec : EqDecision RoleScopeType.
Proof. solve_decision. Defined.

Definition RoleScopeType_IsValid (st : RoleScopeType) : bool :=
  match st with
  | RoleScopeInstitution | RoleScopeAcademicUnit | RoleScopeClass => true
  | RoleScopeType_other _ => false
  end.

(** ** The registry *)

Record ActionDefinition := mkActionDefinition {
  ad_Action : Action;
  ad_ResourceType : ResourceType;
  ad_CompatibleResourceTypes : list ResourceType;
  ad_InheritInstitutionScope : bool;
  ad_InheritAcademicUnitScopes : bool;
  ad_RelationshipOnly : bool;
  ad_PersonalAccessTokenForbidden : bool;
  ad_SystemAdministratorOnly : bool;
  ad_AcademicAudit : bool }.

Definition AcceptsResource (d : ActionDefinition) (resourceType : ResourceType) : bool :=
  (ad_ResourceType d ==? resourceType)
  || existsb (λ t, t ==? resourceType) (ad_CompatibleResourceTypes d).

Definition SupportsRoleScope (d : ActionDefinition) (scopeType : RoleScopeType) : bool :=
  match scopeType with
  | RoleScopeInstitution => ad_InheritInstitutionScope d
  | RoleScopeAcademicUnit => ad_InheritAcademicUnitScopes d
  | RoleScopeClass => AcceptsResource d ResourceClass
  | RoleScopeType_other _ => false
  end.

(** One row per entry of the map literal, in three parts.  The flags are, in order:
    inherits from the institution, inherits from academic units, relationship only,
    token forbidden, administrator only, academic audit. *)
Definition administration_rows : list ActionDefinition :=
  [ mkActionDefinition ActionInstitutionManage ResourceInstitution [] true false false false false false
  ; mkActionDefinition ActionRoleManage ResourceInstitution [] true false false true false false
  ; mkActionDefinition ActionRoleView ResourceInstitution [] true false false true false false
  ; mkActionDefinition ActionRoleBindingView ResourceInstitution [ResourceAcademicUnit; ResourceClass] true true false true false true
  ; mkActionDefinition ActionRoleBindingManage ResourceInstitution [ResourceAcademicUnit; ResourceClass] true true false true false true
  ; mkActionDefinition ActionAuditView ResourceInstitution [] true false false false false false
  ; mkActionDefinition ActionAcademicAuditView ResourceAcademicUnit [] true true false false false true
  ; mkActionDefinition ActionUserView ResourceUser [] true true false false false true
  ; mkActionDefinition ActionUserManage ResourceUser [] true false false false false false
  ; mkActionDefinition ActionUserProfilePictureManage ResourceUser [] true false false false false false
  ; mkActionDefinition ActionSessionView ResourceUser [] true false false false false false
  ; mkActionDefinition ActionSessionManage ResourceUser [] true false false false false false
  ; mkActionDefinition ActionDesktopRegistrationRevoke ResourceUser [] false false true true false false
  ; mkActionDefinition ActionJobView ResourceInstitution [] true false false false false false
  ; mkActionDefinition ActionJobManage ResourceInstitution [] true false false false false false
  ; mkActionDefinition ActionMailView ResourceInstitution [] true false false false false false
  ; mkActionDefinition ActionMailManage ResourceInstitution [] true false false false false false
  ; mkActionDefinition ActionMailRekey ResourceInstitution [] true false false true false false
  ; mkActionDefinition ActionMFARekey ResourceInstitution [] true false false true false false ].
Definition exam_rows : list ActionDefinition :=
  [ mkActionDefinition ActionExamCreate ResourceAcademicUnit [] true true false false false false
  ; mkActionDefinition ActionExamCreateOverride ResourceAcademicUnit [] true true false false false false
  ; mkActionDefinition ActionExamView ResourceExam [] true true false false false false
  ; mkActionDefinition ActionExamViewOverride ResourceExam [] true true false false false false
  ; mkActionDefinition ActionExamManage ResourceExam [] true true false false false false
  ; mkActionDefinition ActionExamManageOverride ResourceExam [] true true false false false false
  ; mkActionDefinition ActionExamPublish ResourceExam [] true true false false false false
  ; mkActionDefinition ActionExamPublishOverride ResourceExam [] true true false false false false
  ; mkActionDefinition ActionExamSittingCreate ResourceExam [] true true false false false false
  ; mkActionDefinition ActionExamSittingCreateOverride ResourceExam [] true true false false false false
  ; mkActionDefinition ActionExamSittingView ResourceExamSitting [] true true false false false false
  ; mkActionDefinition ActionExamSittingViewOverride ResourceExamSitting [] true true false false false false
  ; mkActionDefinition ActionExamSittingManage ResourceExamSitting [] true true false false false false
  ; mkActionDefinition ActionExamSittingManageOverride ResourceExamSitting [] true true false false false false
  ; mkActionDefinition ActionExamSittingParticipate ResourceExamSitting [] false false true false false false
  ; mkActionDefinition ActionExamAttemptBrowserActivityView ResourceExamSitting [] true true false false false false
  ; mkActionDefinition ActionSubmissionView ResourceSubmission [] true true false false false false
  ; mkActionDefinition ActionSubmissionViewOverride ResourceSubmission [] true true false false false false
  ; mkActionDefinition ActionSubmissionReview ResourceSubmission [] true true false false false false
  ; mkActionDefinition ActionSubmissionReviewOverride ResourceSubmission [] true true false false false false
  ; mkActionDefinition ActionSubmissionRelease ResourceSubmission [] true true false false false false
  ; mkActionDefinition ActionSubmissionReleaseOverride ResourceSubmission [] true true false false false false
  ; mkActionDefinition ActionExamRecordsComplete ResourceExam [ResourceExamSitting; ResourceSubmission] true true false true false false
  ; mkActionDefinition ActionExamRecordsCompleteOverride ResourceExam [ResourceExamSitting; ResourceSubmission] true true false true false false
  ; mkActionDefinition ActionExamRecordsExport ResourceExam [ResourceExamSitting; ResourceSubmission] true true false true false false
  ; mkActionDefinition ActionExamRecordsExportOverride ResourceExam [ResourceExamSitting; ResourceSubmission] true true false true false false
  ; mkActionDefinition ActionExamRecordsHold ResourceExam [ResourceExamSitting; ResourceSubmission] true true false true false false
  ; mkActionDefinition ActionExamRecordsHoldOverride ResourceExam [ResourceExamSitting; ResourceSubmission] true true false true false false
  ; mkActionDefinition ActionRetentionHoldRelease ResourceExam [ResourceExamSitting; ResourceSubmission] true true false true true false ].
Definition academic_rows : list ActionDefinition :=
  [ mkActionDefinition ActionAcademicUnitView ResourceAcademicUnit [ResourceInstitution] true true false false false true
  ; mkActionDefinition ActionAcademicUnitManage ResourceAcademicUnit [ResourceInstitution] true true false false false true
  ; mkActionDefinition ActionAcademicUnitMembersView ResourceAcademicUnit [] true true false false false true
  ; mkActionDefinition ActionAcademicUnitMembersManage ResourceAcademicUnit [] true true false false false true
  ; mkActionDefinition ActionAcademicPeriodView ResourceAcademicPeriod [] true true false false false true
  ; mkActionDefinition ActionAcademicPeriodManage ResourceAcademicPeriod [] true true false false false true
  ; mkActionDefinition ActionProgrammeView ResourceProgramme [ResourceAcademicUnit] true true false false false true
  ; mkActionDefinition ActionProgrammeManage ResourceProgramme [ResourceAcademicUnit] true true false false false true
  ; mkActionDefinition ActionProgrammeLevelView ResourceProgrammeLevel [ResourceProgramme] true true false false false true
  ; mkActionDefinition ActionProgrammeLevelManage ResourceProgrammeLevel [ResourceProgramme] true true false false false true
  ; mkActionDefinition ActionClassView ResourceClass [ResourceProgrammeLevel; ResourceAcademicUnit] true true false false false true
  ; mkActionDefinition ActionClassManage ResourceClass [ResourceProgrammeLevel] true true false false false true
  ; mkActionDefinition ActionClassMembersView ResourceClass [] true true false false false true
  ; mkActionDefinition ActionClassMembersManage ResourceClass [] true true false false false true
  ; mkActionDefinition ActionAcademicProgressionManage ResourceClass [] true true false false false true
  ; mkActionDefinition ActionAccessPolicyView ResourceInstitution [] true false false true false false
  ; mkActionDefinition ActionAccessPolicyManage ResourceInstitution [] true false false true false false
  ; mkActionDefinition ActionRetentionPolicyView ResourceInstitution [] true false false true false false
  ; mkActionDefinition ActionRetentionPolicyManage ResourceInstitution [] true false false true true false
  ; mkActionDefinition ActionRetentionCleanupManage ResourceInstitution [] true false false true true false
  ; mkActionDefinition ActionUserMFAReset ResourceUser [] true false false true true false
  ; mkActionDefinition ActionDesktopCompatibilityPolicyManage ResourceInstitution [] true false false true true false
  ; mkActionDefinition ActionInvitationView ResourceInstitution [ResourceAcademicUnit; ResourceClass] true true false false false true
  ; mkActionDefinition ActionInvitationCreate ResourceInstitution [ResourceAcademicUnit; ResourceClass] true true false false false true
  ; mkActionDefinition ActionInvitationManage ResourceInstitution [ResourceAcademicUnit; ResourceClass] true true false false false true
  ; mkActionDefinition ActionOnboardingBatchView ResourceInstitution [ResourceAcademicUnit; ResourceClass] true true false false false true
  ; mkActionDefinition ActionOnboardingBatchManage ResourceInstitution [ResourceAcademicUnit; ResourceClass] true true false false false true
  ; mkActionDefinition ActionExternalIdentityManage ResourceUser [] true false false true false false ].
Definition action_rows : list ActionDefinition := administration_rows ++ exam_rows ++ academic_rows.

(** The map literal, as the list of its entries; its keys are distinct
    ([action_rows_NoDup]). *)
Definition actionDefinitions : list (string * ActionDefinition) := map (λ d, (ad_Action d, d)) action_rows.

Definition DefinitionForAction (action : Action) : option ActionDefinition :=
  snd <$> List.find (λ entry, fst entry ==? action) actionDefinitions.

(** [AllActions]: collected from the map, then sorted. *)
Definition string_le (a b : string) : Prop := Compare a b ≠ Gt.
#[export] Instance string_le_dec : RelDecision string_le.
Proof. intros a b. unfold string_le. apply _. Defined.
Definition AllActions : list string :=
  merge_sort string_le
    (omap (λ '(action, d), if ad_RelationshipOnly d then None else Some action)
       actionDefinitions).

Definition IsSystemAdministratorAction (action : string) : bool :=
  match DefinitionForAction action with
  | Some d => negb (ad_RelationshipOnly d)
  | None => false
  end.
Definition IsKnownAction (action : string) : bool :=
  match DefinitionForAction action with Some _ => true | None => false end.
Definition IsGrantableAction (action : string) : bool :=
  match DefinitionForAction action with
  | Some d => negb (ad_RelationshipOnly d) && negb (ad_SystemAdministratorOnly d)
  | None => false
  end.
Definition IsPersonalAccessTokenAction (action : string) : bool :=
  match DefinitionForAction action with
  | Some d => negb (ad_RelationshipOnly d) && negb (ad_SystemAdministratorOnly d)
              && negb (ad_PersonalAccessTokenForbidden d)
  | None => false
  end.

Definition Resource_Validate (r : Resource) : result unit :=
  fail_if negb (IsValidOpaqueID (r_ID r))
    with invalidModelError "resource" "id" "must be a valid identifier" "" ;;
  match r_Type r with
  | ResourceType_other _ =>
      mthrow (invalidModelError "resource" "type" "has an unknown value" ("id=" +:+ r_ID r))
  | _ => Ok tt
  end.

(** ** Facts *)

(** Every entry is filed under its own action. *)
Lemma action_rows_NoDup : NoDup (map ad_Action action_rows).
Proof. by apply (bool_decide_unpack _); vm_compute. Qed.

Lemma DefinitionForAction_row action d :
  DefinitionForAction action = Some d → ad_Action d = action ∧ d ∈ action_rows.
Proof.
  unfold DefinitionForAction. destruct (List.find _ _) as [[key def]|] eqn:E; [|done]. intros [= <-].
  apply List.find_some in E as [Hin Hkey]. cbn [fst snd] in *. to_prop. subst key.
  apply list_elem_of_In, list_elem_of_fmap in Hin as (def' & [= -> ->] & Hin). done.
Qed.
#[global] Arguments DefinitionForAction : simpl never.
