(* ===== verification/Roles.v ===== *)
(** * Roles, Role Bindings and request principals

    Models [server/model/role.go], [server/model/role_binding.go],
    [server/model/named.go], [server/model/principal.go] and the text helpers they use:
    the data an authorization decision reads, with its validation and its lifecycle
    operations. *)

From S2P Require Import Prelude GoTime GoStrings Ident ModelError CanonicalJson Actions.

(** ** Text *)

Definition blocked_runes : list Z :=
  [832; 833; 6051; 6099; 8232; 8233; 8234; 8235; 8236; 8237; 8238; 8294; 8295; 8296; 8297;
   65529; 65530; 65531].
(** [SanitizeUnicode]: [strings.Map] drops the blocked runes and re-encodes the
    others, an invalid byte as U+FFFD. *)
Definition SanitizeUnicode (value : string) : string :=
  string_of_bytes
    (concat (map (λ '(r, _, _), if existsb (Z.eqb r) blocked_runes then [] else EncodeRune r)
               (runes value))).

Definition lower_letter (c : Z) : bool := in_range 97 122 c.
Definition decimal (c : Z) : bool := in_range 48 57 c.
Definition upper_letter (c : Z) : bool := in_range 65 90 c.

(** [first rest*] over bytes. *)
Definition matches (first rest : Z → bool) (value : string) : bool :=
  match bytes value with
  | [] => false
  | c :: l => first c && forallb rest l
  end.

Definition NameMaxLength : Z := 64.
Definition DisplayNameMaxRunes : Z := 128.
Definition DescriptionMaxRunes : Z := 1024.
Definition validName : string → bool :=
  matches (λ c, lower_letter c || decimal c)
    (λ c, lower_letter c || decimal c || (c =? 95) || (c =? 45)).

Definition validateNamed (modelName id name displayName description : string) : result unit :=
  let details := "id=" +:+ id in
  fail_if (len name =? 0) || (NameMaxLength <? len name) || negb (validName name)
    with invalidModelError modelName "name"
           "must contain only lowercase letters, numbers, hyphens, and underscores" details ;;
  fail_if (RuneCountInString displayName =? 0) || (DisplayNameMaxRunes <? RuneCountInString displayName)
    with invalidModelError modelName "display_name" "has an invalid length" details ;;
  fail_if DescriptionMaxRunes <? RuneCountInString description
    with invalidModelError modelName "description" "is too long" details ;;
  Ok tt.

Definition validateEffectiveInterval (modelName details : string) (startsAt : Time) (endsAt : OptionalTime)
    : result unit :=
  fail_if Time_IsZero startsAt with invalidModelError modelName "start_at" "must be set" details ;;
  fail_if ot_Valid endsAt && negb (Time_After (ot_Time endsAt) startsAt)
    with invalidModelError modelName "end_at" "must be after start_at" details ;;
  Ok tt.

(** ** Roles *)

Definition RolePermissionMaxLength : Z := 128.
Definition RolePermissionMaxCount : Z := 256.
Definition SystemAdministratorRoleName : string := "system_admin".

(** The regular expression of permissions: at least two dotted words, each a lower
    case letter followed by lower case letters, digits and underscores. *)
Definition permission_word : string → bool :=
  matches lower_letter (λ c, lower_letter c || decimal c || (c =? 95)).
Definition validPermission (value : string) : bool :=
  let words := split_byte "."%char value in
  (2 <=? Z.of_nat (length words)) && forallb permission_word words.

Record Role := mkRole {
  ro_ID : ID;
  ro_CreatedAt : Time;
  ro_UpdatedAt : Time;
  ro_ArchivedAt : OptionalTime;
  ro_Name : string;
  ro_DisplayName : string;
  ro_Description : string;
  ro_Permissions : list string;
  ro_BuiltIn : bool }.
#[export] Instance Role_eta : Eta Role := λ r, mkRole (ro_ID r) (ro_CreatedAt r) (ro_UpdatedAt r)
  (ro_ArchivedAt r) (ro_Name r) (ro_DisplayName r) (ro_Description r) (ro_Permissions r) (ro_BuiltIn r).

Record RolePatch := mkRolePatch {
  rp_DisplayName : option string;
  rp_Description : option string;
  rp_Permissions : option (list string) }.

Definition RolePatch_IsEmpty (p : option RolePatch) : bool :=
  match p with
  | None => true
  | Some p => match rp_DisplayName p, rp_Description p, rp_Permissions p with
              | None, None, None => true
              | _, _, _ => false
              end
  end.

Definition Role_Patch (r : option Role) (patch : option RolePatch) : option Role :=
  match r, patch with
  | Some r, Some patch =>
      let r := match rp_DisplayName patch with Some v => r <| ro_DisplayName := v |> | None => r end in
      let r := match rp_Description patch with Some v => r <| ro_Description := v |> | None => r end in
      Some (match rp_Permissions patch with Some v => r <| ro_Permissions := v |> | None => r end)
  | _, _ => r
  end.

Definition sanitizeRole (r : Role) : Role :=
  r <| ro_Name := SanitizeUnicode (ro_Name r) |> <| ro_DisplayName := SanitizeUnicode (ro_DisplayName r) |>
    <| ro_Description := SanitizeUnicode (ro_Description r) |>.

Definition Role_PrepareCreate (r : Role) (id : ID) (at_ : Time) : Role :=
  let at_ := TimeUTC at_ in
  sanitizeRole (r <| ro_ID := id |> <| ro_CreatedAt := at_ |> <| ro_UpdatedAt := at_ |>
                  <| ro_ArchivedAt := noTime |>).
Definition Role_PrepareUpdate (r : Role) (at_ : Time) : Role :=
  sanitizeRole (r <| ro_UpdatedAt := TimeUTC at_ |>).

(** The permission loop with its [seen] set. *)
Fixpoint permissions_scan (details : string) (seen : gset string) (permissions : list string) : result unit :=
  match permissions with
  | [] => Ok tt
  | permission :: rest =>
      fail_if (RolePermissionMaxLength <? len permission) || negb (validPermission permission)
        with invalidModelError "role" "permissions" "contains an invalid action" details ;;
      fail_if bool_decide (permission ∈ seen)
        with invalidModelError "role" "permissions" "contains a duplicate action" details ;;
      permissions_scan details ({[permission]} ∪ seen) rest
  end.

Definition Role_Validate (p : option Role) : result unit :=
  match p with
  | None => mthrow (invalidModelError "role" "value" "is required" "")
  | Some r =>
      fail_if negb (ID_IsValid (ro_ID r))
        with invalidModelError "role" "id" "must be a valid identifier" "" ;;
      let details := "id=" +:+ ro_ID r in
      fail_if Time_IsZero (ro_CreatedAt r) || Time_IsZero (ro_UpdatedAt r)
        with invalidModelError "role" "created_at" "must be set" details ;;
      fail_if Time_Before (ro_UpdatedAt r) (ro_CreatedAt r)
        with invalidModelError "role" "updated_at" "must not precede created_at" details ;;
      fail_if ot_Valid (ro_ArchivedAt r) && Time_Before (ot_Time (ro_ArchivedAt r)) (ro_CreatedAt r)
        with invalidModelError "role" "archived_at" "must not precede created_at" details ;;
      _ ← validateNamed "role" (ro_ID r) (ro_Name r) (ro_DisplayName r) (ro_Description r);
      fail_if RolePermissionMaxCount <? Z.of_nat (length (ro_Permissions r))
        with invalidModelError "role" "permissions" "contains too many values" details ;;
      permissions_scan details ∅ (ro_Permissions r)
  end.

Definition Role_IsArchived (r : Role) : bool := ot_Valid (ro_ArchivedAt r).

(** [Archive] changes the role and then reports its validation. *)
Definition Role_Archive (at_ : Time) : Method Role unit :=
  r ← deref (invalidModelError "role" "" "role is nil" "");
  let at_ := TimeUTC at_ in
  fail_if Time_IsZero at_ with invalidModelError "role" "" "role archive time is required" "" ;;
  fail_if Role_IsArchived r with invalidModelError "role" "" "role is already archived" "" ;;
  fail_if ro_BuiltIn r with invalidModelError "role" "" "built-in role cannot be archived" "" ;;
  let r := r <| ro_ArchivedAt := OptionalTimeFrom at_ |> <| ro_UpdatedAt := at_ |> in
  _ ← assign r;
  try (Role_Validate (Some r)).

(** ** Role Bindings *)

Record RoleBinding := mkRoleBinding {
  rb_ID : ID;
  rb_CreatedAt : Time;
  rb_UpdatedAt : Time;
  rb_ArchivedAt : OptionalTime;
  rb_UserID : ID;
  rb_RoleID : ID;
  rb_OriginInvitationID : ID;
  rb_OriginAcademicUnitMemberID : ID;
  rb_ScopeType : RoleScopeType;
  rb_ScopeID : string;
  rb_StartsAt : Time;
  rb_EndsAt : OptionalTime }.
#[export] Instance RoleBinding_eta : Eta RoleBinding := λ b, mkRoleBinding (rb_ID b) (rb_CreatedAt b)
  (rb_UpdatedAt b) (rb_ArchivedAt b) (rb_UserID b) (rb_RoleID b) (rb_OriginInvitationID b)
  (rb_OriginAcademicUnitMemberID b) (rb_ScopeType b) (rb_ScopeID b) (rb_StartsAt b) (rb_EndsAt b).

Definition RoleBinding_PrepareCreate (b : RoleBinding) (id : ID) (at_ : Time) : RoleBinding :=
  let at_ := TimeUTC at_ in
  let b := b <| rb_ID := id |> <| rb_CreatedAt := at_ |> <| rb_UpdatedAt := at_ |> <| rb_ArchivedAt := noTime |> in
  if Time_IsZero (rb_StartsAt b) then b <| rb_StartsAt := at_ |>
  else b <| rb_StartsAt := TimeUTC (rb_StartsAt b) |>.
Definition RoleBinding_PrepareUpdate (b : RoleBinding) (at_ : Time) : RoleBinding :=
  b <| rb_UpdatedAt := TimeUTC at_ |>.

Definition rb_error (field reason details : string) : error := invalidModelError "role_binding" field reason details.

Definition RoleBinding_Validate (p : option RoleBinding) : result unit :=
  match p with
  | None => mthrow (rb_error "value" "is required" "")
  | Some b =>
      fail_if negb (ID_IsValid (rb_ID b)) with rb_error "id" "must be a valid identifier" "" ;;
      let details := "id=" +:+ rb_ID b in
      fail_if Time_IsZero (rb_CreatedAt b) || Time_IsZero (rb_UpdatedAt b)
        with rb_error "created_at" "must be set" details ;;
      fail_if Time_Before (rb_UpdatedAt b) (rb_CreatedAt b)
        with rb_error "updated_at" "must not precede created_at" details ;;
      fail_if ot_Valid (rb_ArchivedAt b) && Time_Before (ot_Time (rb_ArchivedAt b)) (rb_CreatedAt b)
        with rb_error "archived_at" "must not precede created_at" details ;;
      fail_if negb (ID_IsValid (rb_UserID b)) with rb_error "user_id" "must be a valid identifier" details ;;
      fail_if negb (ID_IsValid (rb_RoleID b)) with rb_error "role_id" "must be a valid identifier" details ;;
      fail_if negb (ID_IsZero (rb_OriginInvitationID b)) && negb (ID_IsValid (rb_OriginInvitationID b))
        with rb_error "origin_invitation_id" "must be empty or a valid identifier" details ;;
      fail_if ID_IsValid (rb_OriginAcademicUnitMemberID b)
              && (negb (ID_IsValid (rb_OriginInvitationID b)) || (rb_ScopeType b !=? RoleScopeAcademicUnit))
        with rb_error "origin_package"
               "membership provenance requires one complete Academic Unit Invitation package" details ;;
      fail_if ID_IsValid (rb_OriginInvitationID b) && (rb_ScopeType b !=? RoleScopeAcademicUnit)
              && (rb_ScopeType b !=? RoleScopeInstitution)
        with rb_error "origin_package"
               "Invitation provenance requires an Academic Unit or Institution scope" details ;;
      fail_if negb (RoleScopeType_IsValid (rb_ScopeType b))
        with rb_error "scope_type" "has an unknown value" details ;;
      fail_if negb (IsValidOpaqueID (rb_ScopeID b))
        with rb_error "scope_id" "must be a valid identifier" details ;;
      validateEffectiveInterval "role_binding" details (rb_StartsAt b) (rb_EndsAt b)
  end.

Definition RoleBinding_IsArchived (b : RoleBinding) : bool := ot_Valid (rb_ArchivedAt b).

Definition RoleBinding_IsActiveAt (p : option RoleBinding) (now : Time) : bool :=
  match p with
  | None => false
  | Some b =>
      if RoleBinding_IsArchived b then false
      else
        let now := TimeUTC now in
        if Time_After (rb_StartsAt b) now then false
        else if ot_Valid (rb_EndsAt b) && negb (Time_Before now (ot_Time (rb_EndsAt b))) then false
        else true
  end.

Definition RoleBinding_End (at_ : Time) : Method RoleBinding unit :=
  b ← deref (rb_error "" "role binding is nil" "");
  let at_ := TimeUTC at_ in
  fail_if ot_Valid (rb_EndsAt b) with rb_error "" "role binding already ended" "" ;;
  let b := b <| rb_EndsAt := OptionalTimeFrom at_ |> <| rb_UpdatedAt := at_ |> in
  _ ← assign b;
  try (RoleBinding_Validate (Some b)).
