(* ===== verification/DesktopRelease.v ===== *)
(** * Desktop releases and the compatibility policy

    Models [server/model/desktop_compatibility.go]: the semantic-version text of
    Desktop releases with its comparison, and the revisioned compatibility policy of
    an Institution.  The comparison, which works on the identifiers as strings, is
    shown to be the precedence of semantic versioning on the numbers they denote. *)

From S2P Require Import Prelude GoTime GoStrings Ident ModelError AppErrors Actions Roles.

Definition DesktopReleaseMaxBytes : Z := 64.
Definition DesktopBuildIDMaxBytes : Z := 128.
Definition DesktopCompatibilityPolicyRevokedBuildMaxCount : Z := 256.
Definition DesktopCompatibilityPolicyMessageMaxRunes : Z := 500.
Definition DesktopCompatibilityPolicyMessageMaxBytes : Z := 2 * 1024.
Definition ErrDesktopCompatibilityPolicyRevisionConflict : error :=
  SentinelError "desktop compatibility policy revision conflict".
Definition errDesktopCompatibilityPolicyInvalid : error :=
  SentinelError "desktop compatibility policy is invalid".

(** ** Platform vocabulary *)

Inductive DesktopPlatform :=
  | DesktopPlatformDarwin
  | DesktopPlatformWindows
  | DesktopPlatformLinux
  | DesktopPlatform_other (raw : string).
#[export] Instance DesktopPlatform_eq_dec : EqDecision DesktopPlatform.
Proof. solve_decision. Defined.
Definition DesktopPlatform_IsValid (p : DesktopPlatform) : bool :=
  match p with DesktopPlatform_other _ => false | _ => true end.

Inductive DesktopArchitecture :=
  | DesktopArchitectureARM64
  | DesktopArchitectureX64
  | DesktopArchitecture_other (raw : string).
#[export] Instance DesktopArchitecture_eq_dec : EqDecision DesktopArchitecture.
Proof. solve_decision. Defined.
Definition DesktopArchitecture_IsValid (a : DesktopArchitecture) : bool :=
  match a with DesktopArchitecture_other _ => false | _ => true end.

Inductive DesktopAvailability :=
  | DesktopAvailabilityReady
  | DesktopAvailabilityMaintenance
  | DesktopAvailability_other (raw : string).
#[export] Instance DesktopAvailability_eq_dec : EqDecision DesktopAvailability.
Proof. solve_decision. Defined.
Definition DesktopAvailability_IsValid (a : DesktopAvailability) : bool :=
  match a with DesktopAvailability_other _ => false | _ => true end.

Definition letter_or_digit (c : Z) : bool := decimal c || upper_letter c || lower_letter c.
Definition validDesktopBuildIdentity : string → bool :=
  matches letter_or_digit (λ c, letter_or_digit c || (c =? 46) || (c =? 95) || (c =? 45)).
Definition validBoundedDesktopIdentity (value : string) (maximum : Z) : bool :=
  (value !=? "") && (len value <=? maximum) && validDesktopBuildIdentity value.
Definition IsValidDesktopBuildID (value : string) : bool :=
  validBoundedDesktopIdentity value DesktopBuildIDMaxBytes.

(** ** Releases *)

(** [strings.Cut] on a one-byte separator: what precedes its first occurrence, what
    follows, and whether it occurs. *)
Fixpoint Cut (sep : ascii) (s : string) : string * string * bool :=
  match s with
  | EmptyString => (EmptyString, EmptyString, false)
  | String a s' =>
      if Ascii.eqb a sep then (EmptyString, s', true)
      else let '(before, after, found) := Cut sep s' in (String a before, after, found)
  end.

Definition isSemanticNumericIdentifier (value : string) : bool :=
  (value !=? "") && forallb decimal (bytes value).
Definition hasSemanticLeadingZero (value : string) : bool :=
  (1 <? len value) && match bytes value with c :: _ => c =? 48 | [] => false end.

Definition validSemanticIdentifiers (value : string) (build : bool) : bool :=
  if value ==? "" then false
  else forallb
    (λ identifier,
       (identifier !=? "") && forallb (λ c, letter_or_digit c || (c =? 45)) (bytes identifier)
       && negb (negb build && isSemanticNumericIdentifier identifier && hasSemanticLeadingZero identifier))
    (split_byte "."%char value).

Record parsedDesktopRelease := mkRelease {
  pr_core : string * string * string;
  pr_prerelease : list string }.

Definition core_identifier (value : string) : bool :=
  isSemanticNumericIdentifier value && negb (hasSemanticLeadingZero value).

Definition parseDesktopRelease (value : string) : option parsedDesktopRelease :=
  if (value ==? "") || (DesktopReleaseMaxBytes <? len value) || HasPrefix value "v" then None
  else
    let '(precedence, build, hasBuild) := Cut "+"%char value in
    if hasBuild && (negb (validSemanticIdentifiers build true)
                    || existsb (Z.eqb 43) (bytes build)) then None
    else
      let '(core, prerelease, hasPrerelease) := Cut "-"%char precedence in
      if hasPrerelease && negb (validSemanticIdentifiers prerelease false) then None
      else
        match split_byte "."%char core with
        | [major; minor; patch] =>
            if core_identifier major && core_identifier minor && core_identifier patch then
              Some (mkRelease (major, minor, patch)
                      (if hasPrerelease then split_byte "."%char prerelease else []))
            else None
        | _ => None
        end.

Definition IsValidDesktopRelease (value : string) : bool :=
  if (value ==? "") || (DesktopReleaseMaxBytes <? len value) || HasPrefix value "v" then false
  else match parseDesktopRelease value with Some _ => true | None => false end.

Definition sign (c : comparison) : Z := match c with Lt => -1 | Eq => 0 | Gt => 1 end.

Definition compareSemanticNumericIdentifier (left right : string) : Z :=
  if len left <? len right then -1
  else if len right <? len left then 1
  else if bool_decide (Compare left right = Lt) then -1
  else if bool_decide (Compare left right = Gt) then 1
  else 0.

(** The loop over the common prefix, then the lengths. *)
Fixpoint compare_prerelease (left right : list string) : Z :=
  match left, right with
  | l :: left', r :: right' =>
      let next := compare_prerelease left' right' in
      let leftNumeric := isSemanticNumericIdentifier l in
      let rightNumeric := isSemanticNumericIdentifier r in
      if leftNumeric && rightNumeric then
        let comparison := compareSemanticNumericIdentifier l r in
        if comparison !=? 0 then comparison else next
      else if leftNumeric then -1
      else if rightNumeric then 1
      else if bool_decide (Compare l r = Lt) then -1
      else if bool_decide (Compare l r = Gt) then 1
      else next
  | [], [] => 0
  | [], _ :: _ => -1
  | _ :: _, [] => 1
  end.

Definition compare_core (left right : string * string * string) : Z :=
  let '(a, b, c) := left in
  let '(a', b', c') := right in
  let major := compareSemanticNumericIdentifier a a' in
  if major !=? 0 then major
  else
    let minor := compareSemanticNumericIdentifier b b' in
    if minor !=? 0 then minor else compareSemanticNumericIdentifier c c'.

Definition CompareDesktopReleases (left right : string) : result Z :=
  match parseDesktopRelease left, parseDesktopRelease right with
  | Some l, Some r =>
      let core := compare_core (pr_core l) (pr_core r) in
      if core !=? 0 then Ok core
      else
        match pr_prerelease l, pr_prerelease r with
        | [], [] => Ok 0
        | [], _ :: _ => Ok 1
        | _ :: _, [] => Ok (-1)
        | pl, pr => Ok (compare_prerelease pl pr)
        end
  | _, _ => mthrow (invalidModelError "desktop_compatibility" "" "desktop release is invalid" "")
  end.

(** ** The precedence of semantic versions *)

Inductive identifier :=
  | Numeric (n : Z)
  | Text (s : string).

(** The number a digit string denotes. *)
Definition digits_value (acc : Z) (l : list Z) : Z := foldl (λ n c, 10 * n + (c - 48)) acc l.
Definition denote_number (s : string) : Z := digits_value 0 (bytes s).
Definition denote_identifier (s : string) : identifier :=
  if isSemanticNumericIdentifier s then Numeric (denote_number s) else Text s.

Definition lexico (c : comparison) (d : comparison) : comparison := match c with Eq => d | c => c end.

(** Numbers order by value and below all text; text orders by bytes. *)
Definition identifier_order (a b : identifier) : comparison :=
  match a, b with
  | Numeric n, Numeric m => n ?= m
  | Numeric _, Text _ => Lt
  | Text _, Numeric _ => Gt
  | Text s, Text t => Compare s t
  end.
Fixpoint identifiers_order (a b : list identifier) : comparison :=
  match a, b with
  | [], [] => Eq
  | [], _ :: _ => Lt
  | _ :: _, [] => Gt
  | x :: a, y :: b => lexico (identifier_order x y) (identifiers_order a b)
  end.

Record version := mkVersion {
  v_major : Z;
  v_minor : Z;
  v_patch : Z;
  v_prerelease : list identifier }.

Definition denote_release (r : parsedDesktopRelease) : version :=
  let '(a, b, c) := pr_core r in
  mkVersion (denote_number a) (denote_number b) (denote_number c) (map denote_identifier (pr_prerelease r)).

(** A release without prerelease identifiers follows those with. *)
Definition prerelease_order (a b : list identifier) : comparison :=
  match a, b with
  | [], [] => Eq
  | [], _ => Gt
  | _, [] => Lt
  | a, b => identifiers_order a b
  end.
Definition precedence (a b : version) : comparison :=
  lexico (v_major a ?= v_major b)
    (lexico (v_minor a ?= v_minor b)
       (lexico (v_patch a ?= v_patch b) (prerelease_order (v_prerelease a) (v_prerelease b)))).

(** *** It is a total order *)

(** A three-way comparison that orders its values. *)
Class Order {A} (cmp : A → A → comparison) : Prop := {
  order_eq : ∀ a b, cmp a b = Eq ↔ a = b;
  order_opp : ∀ a b, cmp b a = CompOpp (cmp a b);
  order_trans : ∀ a b c, cmp a b = Lt → cmp b c = Lt → cmp a c = Lt }.

#[export] Instance Z_Order : Order Z.compare.
Proof.
  split; [apply Z.compare_eq_iff|intros; apply Z.compare_antisym|].
  intros a b c. rewrite !Z.compare_lt_iff. lia.
Qed.
#[export] Instance string_Order : Order Compare.
Proof.
  split; [apply Compare_eq|intros; apply compare_bytes_opp|]. intros a b c H1 H2.
  assert (H : Compare a c ≠ Gt) by (eapply (compare_bytes_trans _ (bytes b)); unfold Compare in *; congruence).
  destruct (Compare a c) eqn:E; [|done|done]. apply Compare_eq in E as ->.
  unfold Compare in *. rewrite compare_bytes_opp, H1 in H2. done.
Qed.
#[export] Instance identifier_Order : Order identifier_order.
Proof.
  split.
  - intros [n|s] [m|t]; cbn; rewrite ?Z.compare_eq_iff, ?Compare_eq; split; congruence.
  - intros [n|s] [m|t]; cbn; try done; [apply Z.compare_antisym|apply (order_opp (cmp := Compare))].
  - intros [n|s] [m|t] [k|u]; cbn; try done; apply order_trans.
Qed.

Lemma lexico_Lt c d : lexico c d = Lt ↔ c = Lt ∨ (c = Eq ∧ d = Lt).
Proof. destruct c; cbn; split; intuition congruence. Qed.
Lemma lexico_Eq c d : lexico c d = Eq ↔ c = Eq ∧ d = Eq.
Proof. destruct c; cbn; split; intuition congruence. Qed.
Lemma lexico_opp c d : lexico (CompOpp c) (CompOpp d) = CompOpp (lexico c d).
Proof. by destruct c. Qed.

#[export] Instance identifiers_Order : Order identifiers_order.
Proof.
  assert (Heq : ∀ a b, identifiers_order a b = Eq ↔ a = b).
  { induction a as [|x a IH]; intros [|y b]; cbn; rewrite ?lexico_Eq, ?order_eq, ?IH; split; try done;
      [by intros [-> ->]|by intros [= -> ->]]. }
  split; [done| |].
  - induction a as [|x a IH]; intros [|y b]; cbn; try done.
    by rewrite (order_opp x y), (IH b), lexico_opp.
  - induction a as [|x a IH]; intros [|y b] [|z c]; cbn; try done.
    rewrite !lexico_Lt, !order_eq. pose proof (order_trans (cmp := identifier_order)).
    intros [H1|[-> H1]] [H2|[<- H2]]; eauto.
Qed.
#[export] Instance prerelease_Order : Order prerelease_order.
Proof.
  split.
  - intros [|x a] [|y b]; cbn [prerelease_order]; rewrite ?order_eq; split; try done.
  - intros [|x a] [|y b]; cbn [prerelease_order]; try done. apply order_opp.
  - intros [|x a] [|y b] [|z c]; cbn [prerelease_order]; try done. apply order_trans.
Qed.
#[export] Instance precedence_Order : Order precedence.
Proof.
  split.
  - intros [] []. unfold precedence. cbn. rewrite !lexico_Eq, !order_eq. split; [by intros (-> & -> & -> & ->)|].
    by intros [= -> -> -> ->].
  - intros [] []. unfold precedence. cbn. rewrite <-!lexico_opp.
    f_equal; [apply Z.compare_antisym|]. f_equal; [apply Z.compare_antisym|].
    f_equal; [apply Z.compare_antisym|]. apply order_opp.
  - intros [] [] []. unfold precedence. cbn. rewrite !lexico_Lt, !order_eq.
    pose proof (order_trans (cmp := Z.compare)). pose proof (order_trans (cmp := prerelease_order)).
    intros H1 H2. destruct H1 as [?|(-> & [?|(-> & [?|(-> & ?)])])], H2 as [?|(<- & [?|(<- & [?|(<- & ?)])])];
      eauto 8.
Qed.

(** *** Identifiers compare as the numbers they denote *)

Lemma decimal_digits l : forallb decimal l = true → Forall is_digit_byte l.
Proof.
  induction l as [|c l IH]; cbn; [constructor|]. rewrite andb_true_iff. intros [Hc Hl].
  constructor; [|by apply IH]. unfold decimal, in_range, is_digit_byte in *. to_prop. lia.
Qed.

Lemma digits_value_bounds l acc :
  Forall is_digit_byte l → acc * 10 ^ Z.of_nat (length l) ≤ digits_value acc l < (acc + 1) * 10 ^ Z.of_nat (length l).
Proof.
  intros Hl. revert acc. induction Hl as [|c l Hc _ IH]; intros acc; cbn [digits_value foldl length]; [lia|].
  rewrite Nat2Z.inj_succ, Z.pow_succ_r by lia. specialize (IH (10 * acc + (c - 48))).
  unfold is_digit_byte in Hc. fold (digits_value (10 * acc + (c - 48)) l). nia.
Qed.

(** Digit strings of one length order as their values. *)
Lemma compare_digits a b acc :
  Forall is_digit_byte a → Forall is_digit_byte b → length a = length b →
  compare_bytes a b = (digits_value acc a ?= digits_value acc b).
Proof.
  intros Ha. revert b acc. induction Ha as [|x a Hx Ha IH]; intros b acc Hb Hlen.
  { destruct b; [|done]. by rewrite Z.compare_refl. }
  destruct Hb as [|y b Hy Hb]; [done|]. cbn in Hlen. injection Hlen as Hlen.
  cbn [compare_bytes digits_value foldl].
  fold (digits_value (10 * acc + (x - 48)) a) (digits_value (10 * acc + (y - 48)) b).
  destruct (Z.compare_spec x y) as [->|Hlt|Hgt]; [by apply IH|symmetry..].
  - apply Z.compare_lt_iff. pose proof (digits_value_bounds a (10 * acc + (x - 48)) Ha).
    pose proof (digits_value_bounds b (10 * acc + (y - 48)) Hb). rewrite Hlen in *.
    pose proof (Z.pow_pos_nonneg 10 (Z.of_nat (length b))). nia.
  - apply Z.compare_gt_iff. pose proof (digits_value_bounds a (10 * acc + (x - 48)) Ha).
    pose proof (digits_value_bounds b (10 * acc + (y - 48)) Hb). rewrite Hlen in *.
    pose proof (Z.pow_pos_nonneg 10 (Z.of_nat (length b))). nia.
Qed.

(** A longer string without leading zero is larger. *)
Lemma shorter_smaller a b :
  Forall is_digit_byte a → Forall is_digit_byte b → (length a < length b)%nat → (0 < length a)%nat →
  (∀ c l, b = c :: l → c ≠ 48) → digits_value 0 a < digits_value 0 b.
Proof.
  intros Ha Hb Hlen Hne Hlead. pose proof (digits_value_bounds a 0 Ha) as [_ Hu].
  destruct Hb as [|c b Hc Hb]; [cbn in Hlen; lia|]. specialize (Hlead c b eq_refl).
  cbn [digits_value foldl]. fold (digits_value (10 * 0 + (c - 48)) b).
  pose proof (digits_value_bounds b (10 * 0 + (c - 48)) Hb) as [Hl _]. cbn [length] in Hlen.
  assert (10 ^ Z.of_nat (length a) ≤ 10 ^ Z.of_nat (length b)) by (apply Z.pow_le_mono_r; lia).
  unfold is_digit_byte in Hc. nia.
Qed.

Lemma numeric_identifier s :
  core_identifier s = true →
  Forall is_digit_byte (bytes s) ∧ (0 < length (bytes s))%nat ∧
  ((1 < length (bytes s))%nat → ∀ c l, bytes s = c :: l → c ≠ 48).
Proof.
  unfold core_identifier, isSemanticNumericIdentifier, hasSemanticLeadingZero. intros H. to_prop.
  destruct H as [[Hne Hd] Hz]. split; [by apply decimal_digits|]. rewrite length_bytes. split.
  { destruct s; [done|cbn; lia]. }
  intros Hl c l E ->. rewrite E in Hz. unfold len in Hz. to_prop. intuition lia.
Qed.

Lemma compareSemanticNumericIdentifier_spec left right :
  core_identifier left = true → core_identifier right = true →
  compareSemanticNumericIdentifier left right = sign (denote_number left ?= denote_number right).
Proof.
  intros (Hl & Hl0 & Hlz)%numeric_identifier (Hr & Hr0 & Hrz)%numeric_identifier.
  unfold compareSemanticNumericIdentifier, denote_number, len. rewrite <-!length_bytes.
  destruct (_ <? _) eqn:E1; to_prop.
  { rewrite (proj2 (Z.compare_lt_iff _ _)); [done|]. apply shorter_smaller; try done; [lia|]. apply Hrz. lia. }
  destruct (Z.of_nat (length (bytes right)) <? _) eqn:E2; to_prop.
  { rewrite (proj2 (Z.compare_gt_iff _ _)); [done|]. apply shorter_smaller; try done; [lia|]. apply Hlz. lia. }
  unfold Compare. rewrite (compare_digits _ _ 0) by (done || lia).
  by destruct (_ ?= _).
Qed.

(** *** The releases *)

(** What parsing guarantees of prerelease identifiers. *)
Definition good_identifier (s : string) : Prop :=
  isSemanticNumericIdentifier s = true → core_identifier s = true.

Lemma parse_spec value r :
  parseDesktopRelease value = Some r →
  (let '(a, b, c) := pr_core r in core_identifier a = true ∧ core_identifier b = true ∧ core_identifier c = true) ∧
  Forall good_identifier (pr_prerelease r).
Proof.
  unfold parseDesktopRelease. destruct (_ || _ || _); [done|].
  destruct (Cut _ value) as [[prec build] hasBuild]. destruct (hasBuild && _); [done|].
  destruct (Cut _ prec) as [[core pre] hasPre]. destruct (hasPre && _) eqn:Ep; [done|].
  destruct (split_byte _ core) as [|a [|b [|c [|]]]]; try done.
  destruct (core_identifier a && core_identifier b && core_identifier c) eqn:Ec; [|done]. intros [= <-]. cbn. to_prop. split; [tauto|].
  destruct hasPre; [|constructor]. destruct Ep as [Ep|Ep]; [done|].
  unfold validSemanticIdentifiers in Ep. destruct (pre ==? ""); [done|].
  apply Forall_forall. intros s Hs. rewrite forallb_forall in Ep. apply list_elem_of_In, Ep in Hs.
  unfold good_identifier, core_identifier. intros Hn. rewrite Hn in Hs |- *. to_prop. intuition congruence.
Qed.

Lemma sign_lexico c d : (if sign c !=? 0 then sign c else sign d) = sign (lexico c d).
Proof. by destruct c. Qed.

Lemma compare_core_spec l r :
  (let '(a, b, c) := l in core_identifier a = true ∧ core_identifier b = true ∧ core_identifier c = true) →
  (let '(a, b, c) := r in core_identifier a = true ∧ core_identifier b = true ∧ core_identifier c = true) →
  let '(a, b, c) := l in let '(a', b', c') := r in
  compare_core l r = sign (lexico (denote_number a ?= denote_number a')
    (lexico (denote_number b ?= denote_number b') (denote_number c ?= denote_number c'))).
Proof.
  destruct l as [[a b] c], r as [[a' b'] c']. intros (Ha & Hb & Hc) (Ha' & Hb' & Hc'). unfold compare_core.
  rewrite !compareSemanticNumericIdentifier_spec by done. by rewrite !sign_lexico.
Qed.

Lemma compare_prerelease_spec l r :
  Forall good_identifier l → Forall good_identifier r →
  compare_prerelease l r = sign (identifiers_order (map denote_identifier l) (map denote_identifier r)).
Proof.
  intros Hl. revert r. induction Hl as [|x l Hx _ IH]; intros r Hr; destruct Hr as [|y r Hy Hr]; [done..|].
  cbn [compare_prerelease map identifiers_order]. rewrite (IH r Hr). unfold denote_identifier.
  destruct (isSemanticNumericIdentifier x) eqn:Ex, (isSemanticNumericIdentifier y) eqn:Ey; cbn [andb identifier_order].
  - rewrite compareSemanticNumericIdentifier_spec by auto. apply sign_lexico.
  - done.
  - done.
  - destruct (Compare x y); done.
Qed.

Lemma CompareDesktopReleases_spec left right l r :
  parseDesktopRelease left = Some l → parseDesktopRelease right = Some r →
  CompareDesktopReleases left right = Ok (sign (precedence (denote_release l) (denote_release r))).
Proof.
  unfold CompareDesktopReleases. intros El Er. rewrite El, Er.
  apply parse_spec in El as [Hlc Hlp]. apply parse_spec in Er as [Hrc Hrp].
  destruct l as [[[a b] c] pl], r as [[[a' b'] c'] pr]. cbn [pr_core pr_prerelease] in *.
  pose proof (compare_core_spec (a, b, c) (a', b', c') Hlc Hrc) as Hcore. cbv beta iota in Hcore. rewrite Hcore.
  unfold precedence. cbn [denote_release v_major v_minor v_patch v_prerelease pr_core pr_prerelease].
  destruct (denote_number a ?= _); cbn [lexico sign]; [|done..].
  destruct (denote_number b ?= _); cbn [lexico sign]; [|done..].
  destruct (denote_number c ?= _); cbn [lexico sign]; [|done..]. cbn -[compare_prerelease map identifiers_order].
  destruct pl as [|x pl], pr as [|y pr]; try done. by rewrite compare_prerelease_spec.
Qed.

(** The order of Desktop releases is the precedence of semantic versions: two
    texts that parse compare as the versions they denote, by the numbers of their
    core, releases after their prereleases, prerelease identifiers left to right
    with numbers by value and below text, and build metadata ignored; the outcome
    is 0 exactly when the two denote the same version.  A text that does not parse
    is refused. *)
Theorem desktop_release_precedence left right :
  match parseDesktopRelease left, parseDesktopRelease right with
  | Some l, Some r =>
      CompareDesktopReleases left right = Ok (sign (precedence (denote_release l) (denote_release r))) ∧
      (CompareDesktopReleases left right = Ok 0 ↔ denote_release l = denote_release r)
  | _, _ => is_ok (CompareDesktopReleases left right) = false
  end.
Proof.
  destruct (parseDesktopRelease left) as [l|] eqn:El, (parseDesktopRelease right) as [r|] eqn:Er;
    try (unfold CompareDesktopReleases; by rewrite El, ?Er).
  rewrite (CompareDesktopReleases_spec _ _ _ _ El Er). split; [done|].
  rewrite <-(order_eq (cmp := precedence)). by destruct (precedence _ _).
Qed.

(** ** The compatibility policy *)

Record DesktopCompatibilityPolicySettings := mkPolicySettings {
  ds_MinimumDesktopRelease : string;
  ds_RevokedDesktopBuildIDs : list string;
  ds_AdministratorMessage : string;
  ds_Availability : DesktopAvailability;
  ds_RetryAt : OptionalTime }.

Record DesktopCompatibilityPolicy := mkCompatibilityPolicy {
  dc_InstitutionID : ID;
  dc_Revision : Z;
  dc_MinimumDesktopRelease : string;
  dc_RevokedDesktopBuildIDs : list string;
  dc_AdministratorMessage : string;
  dc_Availability : DesktopAvailability;
  dc_RetryAt : OptionalTime;
  dc_CreatedAt : Time;
  dc_UpdatedAt : Time }.

Definition NewInitialDesktopCompatibilityPolicy (institutionID : ID) (at_ : Time) : DesktopCompatibilityPolicy :=
  let at_ := TimeUTC at_ in
  mkCompatibilityPolicy institutionID 1 "" [] "" DesktopAvailabilityReady noTime at_ at_.

Definition Policy_Settings (p : DesktopCompatibilityPolicy) : DesktopCompatibilityPolicySettings :=
  mkPolicySettings (dc_MinimumDesktopRelease p) (dc_RevokedDesktopBuildIDs p) (dc_AdministratorMessage p)
    (dc_Availability p) (dc_RetryAt p).

(** The loop over the revoked builds: valid and strictly ascending. *)
Fixpoint builds_ascend (previous : string) (ids : list string) : bool :=
  match ids with
  | [] => true
  | id :: rest => IsValidDesktopBuildID id && bool_decide (Compare previous id = Lt) && builds_ascend id rest
  end.

Definition PolicySettings_Validate (s : DesktopCompatibilityPolicySettings) : result unit :=
  let invalid := errDesktopCompatibilityPolicyInvalid in
  fail_if negb (DesktopAvailability_IsValid (ds_Availability s))
          || ((ds_Availability s ==? DesktopAvailabilityReady) && ot_Valid (ds_RetryAt s))
          || (ot_Valid (ds_RetryAt s) && Time_IsZero (ot_Time (ds_RetryAt s))) with invalid ;;
  fail_if (ds_MinimumDesktopRelease s !=? "") && negb (IsValidDesktopRelease (ds_MinimumDesktopRelease s))
    with invalid ;;
  fail_if DesktopCompatibilityPolicyRevokedBuildMaxCount <? Z.of_nat (length (ds_RevokedDesktopBuildIDs s))
    with invalid ;;
  fail_if negb (builds_ascend "" (ds_RevokedDesktopBuildIDs s)) with invalid ;;
  let message := ds_AdministratorMessage s in
  fail_if (message !=? TrimSpace message) || (DesktopCompatibilityPolicyMessageMaxBytes <? len message)
          || (DesktopCompatibilityPolicyMessageMaxRunes <? RuneCountInString message)
          || negb (ValidString message) with invalid ;;
  fail_if existsb (λ '(r, _, _), IsControl r) (runes message) with invalid ;;
  Ok tt.

Definition Policy_Validate (p : option DesktopCompatibilityPolicy) : result unit :=
  match p with
  | None => mthrow errDesktopCompatibilityPolicyInvalid
  | Some p =>
      fail_if negb (ID_IsValid (dc_InstitutionID p)) || (dc_Revision p <? 1)
              || Time_IsZero (dc_CreatedAt p) || Time_IsZero (dc_UpdatedAt p)
              || Time_Before (dc_UpdatedAt p) (dc_CreatedAt p)
              || (ot_Valid (dc_RetryAt p) && negb (Time_After (ot_Time (dc_RetryAt p)) (dc_UpdatedAt p)))
        with errDesktopCompatibilityPolicyInvalid ;;
      PolicySettings_Validate (Policy_Settings p)
  end.

Definition same_settings (p : DesktopCompatibilityPolicy) (s : DesktopCompatibilityPolicySettings) : bool :=
  (dc_MinimumDesktopRelease p ==? ds_MinimumDesktopRelease s)
  && (dc_RevokedDesktopBuildIDs p ==? ds_RevokedDesktopBuildIDs s)
  && (dc_AdministratorMessage p ==? ds_AdministratorMessage s)
  && (dc_Availability p ==? ds_Availability s)
  && Bool.eqb (ot_Valid (dc_RetryAt p)) (ot_Valid (ds_RetryAt s))
  && (negb (ot_Valid (dc_RetryAt p)) || Time_Equal (ot_Time (dc_RetryAt p)) (ot_Time (ds_RetryAt s))).

Definition Policy_Replace (expectedRevision : Z) (s : DesktopCompatibilityPolicySettings) (at_ : Time)
    : Method DesktopCompatibilityPolicy unit :=
  let invalid := errDesktopCompatibilityPolicyInvalid in
  p ← deref invalid;
  fail_if negb (is_ok (Policy_Validate (Some p))) || negb (is_ok (PolicySettings_Validate s)) || Time_IsZero at_
    with invalid ;;
  fail_if expectedRevision !=? dc_Revision p with ErrDesktopCompatibilityPolicyRevisionConflict ;;
  let at_ := TimeUTC at_ in
  fail_if Time_Before at_ (dc_UpdatedAt p)
          || (ot_Valid (ds_RetryAt s) && negb (Time_After (ot_Time (ds_RetryAt s)) at_)) with invalid ;;
  if same_settings p s then mret tt
  else
    let p := mkCompatibilityPolicy (dc_InstitutionID p) (int64_succ (dc_Revision p))
      (ds_MinimumDesktopRelease s) (ds_RevokedDesktopBuildIDs s) (ds_AdministratorMessage s)
      (ds_Availability s) (OptionalTime_UTC (ds_RetryAt s)) (dc_CreatedAt p) at_ in
    _ ← assign p;
    try (Policy_Validate (Some p)).

(** ** The admission decision

    [desktopBuildCatalog.evaluate] of [server/app/desktop_compatibility.go], over the
    fields of a build tuple it reads. *)

Record DesktopBuildTuple := mkBuildTuple {
  bt_DesktopRelease : string;
  bt_DesktopBuildID : string;
  bt_Platform : DesktopPlatform;
  bt_Architecture : DesktopArchitecture;
  bt_RealtimeProtocol : Z }.

Record DesktopCompatibilityQuery := mkQuery {
  dq_DesktopRelease : string;
  dq_DesktopBuildID : string;
  dq_Platform : string;
  dq_Architecture : string;
  dq_RealtimeProtocol : Z }.

Inductive DesktopCompatibilityState :=
  | DesktopCompatibilityCompatible
  | DesktopCompatibilityUpdateRequired
  | DesktopCompatibilityServerIncompatible
  | DesktopCompatibilityUnsupportedTarget
  | DesktopCompatibilityState_zero.

Record DesktopCompatibilityResult := mkCompatibilityResult {
  dr_Availability : DesktopAvailability;
  dr_RetryAt : OptionalTime;
  dr_Compatibility : DesktopCompatibilityState;
  dr_Reason : string;
  dr_MinimumDesktopRelease : string;
  dr_MaximumDesktopRelease : string;
  dr_MinimumRealtimeProtocol : Z;
  dr_MaximumRealtimeProtocol : Z;
  dr_AdministratorMessage : string }.
#[export] Instance CompatibilityResult_eta : Eta DesktopCompatibilityResult := λ r,
  mkCompatibilityResult (dr_Availability r) (dr_RetryAt r) (dr_Compatibility r) (dr_Reason r)
    (dr_MinimumDesktopRelease r) (dr_MaximumDesktopRelease r) (dr_MinimumRealtimeProtocol r)
    (dr_MaximumRealtimeProtocol r) (dr_AdministratorMessage r).

Definition Platform_string (p : DesktopPlatform) : string :=
  match p with
  | DesktopPlatformDarwin => "darwin"
  | DesktopPlatformWindows => "win32"
  | DesktopPlatformLinux => "linux"
  | DesktopPlatform_other raw => raw
  end.
Definition Architecture_string (a : DesktopArchitecture) : string :=
  match a with
  | DesktopArchitectureARM64 => "arm64"
  | DesktopArchitectureX64 => "x64"
  | DesktopArchitecture_other raw => raw
  end.

Definition validDesktopTargetSelector (value : string) : bool :=
  (len value <=? 32)
  && matches (λ c, lower_letter c || decimal c) (λ c, lower_letter c || decimal c || (c =? 95) || (c =? 45)) value.

Definition validateDesktopCompatibilityQuery (q : DesktopCompatibilityQuery) : result unit :=
  fail_if negb (IsValidDesktopRelease (dq_DesktopRelease q) && IsValidDesktopBuildID (dq_DesktopBuildID q)
                && validDesktopTargetSelector (dq_Platform q) && validDesktopTargetSelector (dq_Architecture q)
                && (0 <? dq_RealtimeProtocol q))
    with New "request.invalid" ;;
  Ok tt.

(** [comparison, _ := CompareDesktopReleases(...)]. *)
Definition compare_releases (left right : string) : Z := ok_or 0 (CompareDesktopReleases left right).

(** The loop over the other entries of the target. *)
Definition widen (b : string * string * Z * Z) (entry : DesktopBuildTuple) : string * string * Z * Z :=
  let '(minimumRelease, maximumRelease, minimumRealtime, maximumRealtime) := b in
  let release := bt_DesktopRelease entry in
  (if compare_releases release minimumRelease <? 0 then release else minimumRelease,
   if 0 <? compare_releases release maximumRelease then release else maximumRelease,
   Z.min minimumRealtime (bt_RealtimeProtocol entry), Z.max maximumRealtime (bt_RealtimeProtocol entry)).

Definition desktopCompatibilityBounds (policy : DesktopCompatibilityPolicy) (first : DesktopBuildTuple)
    (entries : list DesktopBuildTuple) : DesktopCompatibilityResult :=
  let '(minimumRelease, maximumRelease, minimumRealtime, maximumRealtime) :=
    foldl widen (bt_DesktopRelease first, bt_DesktopRelease first,
                 bt_RealtimeProtocol first, bt_RealtimeProtocol first) entries in
  let minimumRelease :=
    if (dc_MinimumDesktopRelease policy !=? "")
       && (0 <? compare_releases (dc_MinimumDesktopRelease policy) minimumRelease)
    then dc_MinimumDesktopRelease policy else minimumRelease in
  mkCompatibilityResult (dc_Availability policy) (dc_RetryAt policy) DesktopCompatibilityState_zero ""
    minimumRelease maximumRelease minimumRealtime maximumRealtime "".

(** [slices.BinarySearch]: the half-open interval [i, j) halves until it is empty. *)
Fixpoint search (fuel : nat) (x : list string) (target : string) (i j : nat) : nat :=
  match fuel with
  | O => i
  | S fuel =>
      if (i <? j)%nat then
        let h := ((i + j) / 2)%nat in
        if bool_decide (Compare (default "" (x !! h)) target = Lt) then search fuel x target (S h) j
        else search fuel x target i h
      else i
  end.
Definition BinarySearch (x : list string) (target : string) : nat * bool :=
  let i := search (length x) x target 0 (length x) in
  (i, bool_decide (x !! i = Some target)).

(** The answer to a target that has builds: the early returns after the bounds. *)
Definition evaluate_target (policy : DesktopCompatibilityPolicy) (query : DesktopCompatibilityQuery)
    (first : DesktopBuildTuple) (others : list DesktopBuildTuple) : DesktopCompatibilityResult :=
  let result := (desktopCompatibilityBounds policy first others)
                  <| dr_AdministratorMessage := dc_AdministratorMessage policy |> in
  let answer state reason := result <| dr_Compatibility := state |> <| dr_Reason := reason |> in
  if compare_releases (dq_DesktopRelease query) (dr_MinimumDesktopRelease result) <? 0 then
    answer DesktopCompatibilityUpdateRequired "release_too_old"
  else if 0 <? compare_releases (dq_DesktopRelease query) (dr_MaximumDesktopRelease result) then
    answer DesktopCompatibilityServerIncompatible "release_too_new"
  else if dq_RealtimeProtocol query <? dr_MinimumRealtimeProtocol result then
    answer DesktopCompatibilityUpdateRequired "realtime_protocol_too_old"
  else if dr_MaximumRealtimeProtocol result <? dq_RealtimeProtocol query then
    answer DesktopCompatibilityServerIncompatible "realtime_protocol_too_new"
  else if snd (BinarySearch (dc_RevokedDesktopBuildIDs policy) (dq_DesktopBuildID query)) then
    answer DesktopCompatibilityUpdateRequired "build_revoked"
  else if existsb (λ entry, (bt_DesktopBuildID entry ==? dq_DesktopBuildID query)
                            && (bt_DesktopRelease entry ==? dq_DesktopRelease query)
                            && (bt_RealtimeProtocol entry ==? dq_RealtimeProtocol query)) (first :: others)
  then answer DesktopCompatibilityCompatible "compatible"
  else answer DesktopCompatibilityServerIncompatible "build_unrecognized".

Definition has_target (query : DesktopCompatibilityQuery) (entry : DesktopBuildTuple) : Prop :=
  Platform_string (bt_Platform entry) = dq_Platform query ∧
  Architecture_string (bt_Architecture entry) = dq_Architecture query.
#[export] Instance has_target_dec query entry : Decision (has_target query entry).
Proof. unfold has_target. apply _. Defined.

Definition catalog_evaluate (entries : list DesktopBuildTuple) (policy : option DesktopCompatibilityPolicy)
    (query : DesktopCompatibilityQuery) : result DesktopCompatibilityResult :=
  _ ← validateDesktopCompatibilityQuery query;
  match policy with
  | None => mthrow (New "desktop_compatibility_policy.unavailable")
  | Some policy =>
      fail_if negb (is_ok (Policy_Validate (Some policy)))
        with New "desktop_compatibility_policy.unavailable" ;;
      match filter (has_target query) entries with
      | [] => Ok (mkCompatibilityResult (dc_Availability policy) (dc_RetryAt policy)
                    DesktopCompatibilityUnsupportedTarget "unsupported_target" "" "" 0 0
                    (dc_AdministratorMessage policy))
      | first :: others => Ok (evaluate_target policy query first others)
      end
  end.

(** *** Releases under their order *)

Definition version_of (release : string) : option version := denote_release <$> parseDesktopRelease release.
Definition release_le (left right : string) : Prop := compare_releases left right ≤ 0.

Lemma valid_release value : IsValidDesktopRelease value = true → ∃ v, version_of value = Some v.
Proof.
  unfold IsValidDesktopRelease, version_of. destruct (_ || _ || _); [done|].
  destruct (parseDesktopRelease value); cbn; [eauto|done].
Qed.

Lemma compare_releases_spec a b v w :
  version_of a = Some v → version_of b = Some w → compare_releases a b = sign (precedence v w).
Proof.
  unfold version_of, compare_releases. intros Ha Hb.
  destruct (parseDesktopRelease a) eqn:Ea, (parseDesktopRelease b) eqn:Eb; try done. cbn in *. simplify_eq.
  by rewrite (CompareDesktopReleases_spec _ _ _ _ Ea Eb).
Qed.

Lemma not_Gt_trans {A} (cmp : A → A → comparison) `{!Order cmp} a b c :
  cmp a b ≠ Gt → cmp b c ≠ Gt → cmp a c ≠ Gt.
Proof.
  intros H1 H2. destruct (cmp a b) eqn:E1; [apply order_eq in E1 as ->; done| |done].
  destruct (cmp b c) eqn:E2; [apply order_eq in E2 as ->; congruence| |done].
  by rewrite (order_trans a b c).
Qed.

Section release_order.
Context (a b c : string).
Context (Ha : IsValidDesktopRelease a = true) (Hb : IsValidDesktopRelease b = true)
        (Hc : IsValidDesktopRelease c = true).

Lemma release_le_trans : release_le a b → release_le b c → release_le a c.
Proof.
  destruct (valid_release a Ha) as [u Hu], (valid_release b Hb) as [v Hv], (valid_release c Hc) as [w Hw].
  unfold release_le. rewrite (compare_releases_spec a b u v), (compare_releases_spec b c v w),
    (compare_releases_spec a c u w) by done. intros H1 H2.
  pose proof (not_Gt_trans precedence u v w).
  destruct (precedence u v), (precedence v w), (precedence u w); cbn in *; lia || (exfalso; naive_solver).
Qed.
Lemma compare_releases_opp : compare_releases b a = - compare_releases a b.
Proof.
  destruct (valid_release a Ha) as [u Hu], (valid_release b Hb) as [v Hv].
  rewrite (compare_releases_spec a b u v), (compare_releases_spec b a v u), (order_opp u v) by done.
  by destruct (precedence u v).
Qed.
End release_order.

Lemma release_le_refl a : IsValidDesktopRelease a = true → release_le a a.
Proof.
  intros [u Hu]%valid_release. unfold release_le. rewrite (compare_releases_spec a a u u) by done.
  by rewrite (proj2 (order_eq u u) eq_refl).
Qed.

(** *** The bounds of a target hold its builds *)

Definition within (b : string * string * Z * Z) (e : DesktopBuildTuple) : Prop :=
  let '(minimumRelease, maximumRelease, minimumRealtime, maximumRealtime) := b in
  release_le minimumRelease (bt_DesktopRelease e) ∧ release_le (bt_DesktopRelease e) maximumRelease ∧
  minimumRealtime ≤ bt_RealtimeProtocol e ≤ maximumRealtime.
Definition valid_bounds (b : string * string * Z * Z) : Prop :=
  IsValidDesktopRelease (b.1.1.1) = true ∧ IsValidDesktopRelease (b.1.1.2) = true.
Definition valid_entry (e : DesktopBuildTuple) : Prop := IsValidDesktopRelease (bt_DesktopRelease e) = true.

Lemma widen_within b e d :
  valid_bounds b → valid_entry e → valid_entry d → within b d ∨ d = e → valid_bounds (widen b e) ∧ within (widen b e) d.
Proof.
  destruct b as [[[lo hi] rlo] rhi]. intros [Hlo Hhi] He Hd Hin. unfold valid_entry, valid_bounds in *. cbn in Hlo, Hhi.
  pose proof (release_le_refl _ He) as Hrefl.
  pose proof (compare_releases_opp _ _ He Hlo) as Hol. pose proof (compare_releases_opp _ _ He Hhi) as Hoh.
  unfold widen, within in *. split.
  { cbn. destruct (_ <? 0), (0 <? _); done. }
  destruct Hin as [(H1 & H2 & H3)| ->].
  - split_and!; [| |lia..].
    + destruct (_ <? 0) eqn:E; [|done]. apply (release_le_trans _ lo); try done. unfold release_le. to_prop. lia.
    + destruct (0 <? _) eqn:E; [|done]. apply (release_le_trans _ hi); try done. unfold release_le. to_prop. lia.
  - split_and!; [| |lia..].
    + destruct (_ <? 0) eqn:E; [done|]. unfold release_le. to_prop. lia.
    + destruct (0 <? _) eqn:E; [done|]. unfold release_le. to_prop. lia.
Qed.

Lemma bounds_within b entries d :
  valid_bounds b → Forall valid_entry entries → valid_entry d → within b d ∨ d ∈ entries →
  valid_bounds (foldl widen b entries) ∧ within (foldl widen b entries) d.
Proof.
  intros Hb Hentries Hd. revert b Hb. induction Hentries as [|e entries He _ IH]; intros b Hb Hin; cbn.
  { destruct Hin as [Hin|Hin]; [done|]. by apply elem_of_nil in Hin. }
  rewrite elem_of_cons in Hin.
  destruct (widen_within b e e Hb He He (or_intror eq_refl)) as [Hw _]. apply IH; [done|].
  destruct Hin as [Hin|[->|Hin]]; [left; by apply widen_within; auto|left; by apply widen_within; auto|by right].
Qed.

(** *** Revocation lookup finds exactly the listed builds *)

Lemma ascending_lookup {A} (R : A → A → Prop) l i j a b :
  StronglySorted R l → l !! i = Some a → l !! j = Some b → (i < j)%nat → R a b.
Proof.
  intros Hs. revert i j. induction Hs as [|c l _ IH Hc]; intros [|i] [|j] Ha Hb Hij; try done; try lia; cbn in *.
  - simplify_eq. eapply Forall_lookup_1; eauto.
  - eapply IH; eauto; lia.
Qed.

Lemma search_spec fuel x target i j :
  StronglySorted (λ a b, Compare a b = Lt) x → (i ≤ j ≤ length x)%nat → (j - i ≤ fuel)%nat →
  (∀ k a, x !! k = Some a → (k < i)%nat → Compare a target = Lt) →
  (∀ k a, x !! k = Some a → (j ≤ k)%nat → Compare a target ≠ Lt) →
  let m := search fuel x target i j in
  (∀ k a, x !! k = Some a → (k < m)%nat → Compare a target = Lt) ∧
  (∀ k a, x !! k = Some a → (m ≤ k)%nat → Compare a target ≠ Lt).
Proof.
  intros Hs. revert i j. induction fuel as [|fuel IH]; intros i j Hij Hf Hlo Hhi; cbn [search].
  { assert (i = j) as -> by lia. done. }
  destruct (Nat.ltb_spec i j) as [Hlt|Hge].
  2:{ assert (i = j) as -> by lia. done. }
  pose proof (Nat.div_lt_upper_bound (i + j) 2 j ltac:(lia) ltac:(lia)) as Hh2.
  pose proof (Nat.div_le_lower_bound (i + j) 2 i ltac:(lia) ltac:(lia)) as Hh1.
  set (h := ((i + j) / 2)%nat) in *.
  destruct (lookup_lt_is_Some_2 x h) as [b Hb]; [lia|]. rewrite Hb. change (default "" (Some b)) with b.
  case_bool_decide as Hc; apply IH; try lia; try done; intros k a Hk Hkl.
  - destruct (decide (k = h)) as [->|]; [congruence|]. apply (order_trans a b target); [|done].
    apply (ascending_lookup _ x k h _ _ Hs); first [done|lia].
  - destruct (decide (k = h)) as [->|]; [congruence|]. intros Ha. apply Hc, (order_trans b a target); [|done].
    apply (ascending_lookup _ x h k _ _ Hs); first [done|lia].
Qed.

Lemma BinarySearch_spec x target :
  StronglySorted (λ a b, Compare a b = Lt) x → snd (BinarySearch x target) = true ↔ target ∈ x.
Proof.
  intros Hs. unfold BinarySearch. cbn [snd]. rewrite bool_decide_eq_true.
  destruct (search_spec (length x) x target 0 (length x) Hs) as [Hlo Hhi]; try lia.
  { intros k a Hk Hl. apply lookup_lt_Some in Hk. lia. }
  split; [apply list_elem_of_lookup_2|]. intros [k Hk]%list_elem_of_lookup_1.
  assert (Hself : Compare target target = Eq) by by apply Compare_eq.
  set (m := search _ _ _ _ _) in *. destruct (decide (k = m)) as [->|]; [done|]. exfalso.
  destruct (decide (k < m)%nat) as [Hl|Hl]; [specialize (Hlo _ _ Hk Hl); congruence|].
  destruct (lookup_lt_is_Some_2 x m) as [b Hb]; [apply lookup_lt_Some in Hk; lia|].
  apply (Hhi m b Hb ltac:(lia)). apply (ascending_lookup _ x m k _ _ Hs); first [done|lia].
Qed.

Lemma builds_ascend_sorted previous ids :
  builds_ascend previous ids = true →
  Forall (λ id, Compare previous id = Lt) ids ∧ StronglySorted (λ a b, Compare a b = Lt) ids.
Proof.
  revert previous. induction ids as [|id ids IH]; intros previous; cbn [builds_ascend]; [repeat constructor|].
  rewrite !andb_true_iff, bool_decide_eq_true. intros [[_ Hp] [Hf Hs]%IH]. split; [|by constructor].
  constructor; [done|]. eapply Forall_impl; [exact Hf|]. intros a Ha. by apply (order_trans previous id a).
Qed.

(** *** Admission *)

Definition exact_build (query : DesktopCompatibilityQuery) (entry : DesktopBuildTuple) : Prop :=
  bt_DesktopBuildID entry = dq_DesktopBuildID query ∧
  bt_DesktopRelease entry = dq_DesktopRelease query ∧
  bt_RealtimeProtocol entry = dq_RealtimeProtocol query.

(** What the policy leaves of a build of the catalog. *)
Definition permitted (policy : DesktopCompatibilityPolicy) (query : DesktopCompatibilityQuery) : Prop :=
  dq_DesktopBuildID query ∉ dc_RevokedDesktopBuildIDs policy ∧
  (dc_MinimumDesktopRelease policy = "" ∨
   release_le (dc_MinimumDesktopRelease policy) (dq_DesktopRelease query)).

Lemma desktopCompatibilityBounds_spec policy first others d :
  (dc_MinimumDesktopRelease policy = "" ∨ IsValidDesktopRelease (dc_MinimumDesktopRelease policy) = true) →
  Forall valid_entry (first :: others) → d ∈ first :: others →
  let result := desktopCompatibilityBounds policy first others in
  ((compare_releases (bt_DesktopRelease d) (dr_MinimumDesktopRelease result) <? 0) = false ↔
     dc_MinimumDesktopRelease policy = "" ∨ release_le (dc_MinimumDesktopRelease policy) (bt_DesktopRelease d)) ∧
  release_le (bt_DesktopRelease d) (dr_MaximumDesktopRelease result) ∧
  dr_MinimumRealtimeProtocol result ≤ bt_RealtimeProtocol d ≤ dr_MaximumRealtimeProtocol result.
Proof.
  intros Hmin Hall Hd. pose proof (proj1 (Forall_forall _ _) Hall d Hd) as Hvd.
  apply Forall_cons_1 in Hall as [Hfirst Hothers]. unfold desktopCompatibilityBounds.
  set (b := (bt_DesktopRelease first, bt_DesktopRelease first, bt_RealtimeProtocol first, bt_RealtimeProtocol first)).
  assert (Hb : within b d ∨ d ∈ others).
  { apply elem_of_cons in Hd as [->|Hd]; [left|by right]. repeat split; try lia; by apply release_le_refl. }
  destruct (bounds_within b others d) as [[Hlo Hhi] Hin]; [done..|].
  destruct (foldl widen b others) as [[[lo hi] rlo] rhi]. cbn in Hlo, Hhi. destruct Hin as (H1 & H2 & H3).
  split; [|done]. cbn [dr_MinimumDesktopRelease]. unfold valid_entry in Hvd.
  pose proof (compare_releases_opp _ _ Hlo Hvd) as Ho. unfold release_le in H1.
  destruct (decide (dc_MinimumDesktopRelease policy = "")) as [Hempty|Hne].
  { rewrite Hempty. change ("" !=? "") with false. cbn [andb]. rewrite Z.ltb_ge. split; [by left|lia]. }
  destruct Hmin as [|Hmin]; [done|]. pose proof (compare_releases_opp _ _ Hmin Hvd) as Hom.
  rewrite (bool_decide_false _ Hne). cbn [negb andb].
  destruct (0 <? _) eqn:E; rewrite Z.ltb_ge; to_prop.
  - unfold release_le. split; [intros; right; lia|]. intros [|]; [done|lia].
  - split; [|lia]. intros _. right. by apply (release_le_trans _ lo).
Qed.

Lemma Policy_Validate_spec policy :
  Policy_Validate (Some policy) = Ok tt →
  (dc_MinimumDesktopRelease policy = "" ∨ IsValidDesktopRelease (dc_MinimumDesktopRelease policy) = true) ∧
  StronglySorted (λ a b, Compare a b = Lt) (dc_RevokedDesktopBuildIDs policy).
Proof.
  cbn [Policy_Validate]. unfold PolicySettings_Validate. rewrite !ok_fail_if.
  intros (_ & _ & Hm & _ & Ha & _). cbn [ds_MinimumDesktopRelease ds_RevokedDesktopBuildIDs Policy_Settings] in *.
  split; [|by apply negb_false_iff, builds_ascend_sorted in Ha as [_ ?]].
  apply andb_false_iff in Hm as [Hm|Hm]; [left|right]; to_prop; done.
Qed.

Lemma evaluate_target_spec policy query first others :
  Policy_Validate (Some policy) = Ok tt → Forall valid_entry (first :: others) →
  (dr_Compatibility (evaluate_target policy query first others) = DesktopCompatibilityCompatible ↔
     (∃ entry, entry ∈ first :: others ∧ exact_build query entry) ∧ permitted policy query) ∧
  dr_Compatibility (evaluate_target policy query first others) ≠ DesktopCompatibilityUnsupportedTarget.
Proof.
  intros [Hmin Hrev]%Policy_Validate_spec Hvalid. unfold evaluate_target, permitted.
  set (exact := λ entry, (bt_DesktopBuildID entry ==? dq_DesktopBuildID query)
    && (bt_DesktopRelease entry ==? dq_DesktopRelease query)
    && (bt_RealtimeProtocol entry ==? dq_RealtimeProtocol query)).
  assert (Hexact : (∃ e, e ∈ first :: others ∧ exact_build query e) ↔ existsb exact (first :: others) = true).
  { rewrite existsb_exists. unfold exact_build, exact. split; intros (e & He & Hx); exists e;
      (split; [by apply list_elem_of_In|]); to_prop; tauto. }
  rewrite Hexact, <-(BinarySearch_spec _ _ Hrev).
  pose proof (λ d, desktopCompatibilityBounds_spec policy first others d Hmin Hvalid) as Hspec.
  destruct (desktopCompatibilityBounds policy first others) as [av rt st why lo hi rlo rhi msg]. cbn in Hspec.
  cbn -[BinarySearch existsb exact compare_releases Z.ltb].
  destruct (existsb exact (first :: others)) eqn:Ex.
  2:{ split; [split; [|by intros [? _]]|];
        repeat match goal with |- context [if ?c then _ else _] => destruct c end; done. }
  clear Hexact. apply existsb_exists in Ex as (d & Hd & Hx). unfold exact in Hx. to_prop. destruct Hx as [[_ Hr] Hp].
  destruct (Hspec d) as (Hlo & Hhi & Hrt); [by apply list_elem_of_In|]. clear Hspec. rewrite Hr, Hp in *.
  unfold release_le in Hhi.
  rewrite <-Hlo, (proj2 (Z.ltb_ge _ _) Hhi), (proj2 (Z.ltb_ge _ _) (proj1 Hrt)), (proj2 (Z.ltb_ge _ _) (proj2 Hrt)).
  destruct (compare_releases _ lo <? 0), (BinarySearch _ _).2; cbn [dr_Compatibility]; intuition done.
Qed.

(** A Desktop is admitted exactly when its declared build is one of the catalog:
    for a valid query and policy, over a catalog whose releases are valid, evaluation
    always answers, and answers compatible if and only if the catalog holds the
    declared build (target, build, release and protocol all equal), its release is
    not older than the minimum of the policy, and the build is not revoked; it answers
    unsupported target if and only if no build of the catalog has the target. *)
Theorem desktop_compatible_iff entries policy query :
  Forall valid_entry entries →
  validateDesktopCompatibilityQuery query = Ok tt → Policy_Validate (Some policy) = Ok tt →
  ∃ result, catalog_evaluate entries (Some policy) query = Ok result ∧
    (dr_Compatibility result = DesktopCompatibilityCompatible ↔
       (∃ entry, entry ∈ entries ∧ has_target query entry ∧ exact_build query entry) ∧ permitted policy query) ∧
    (dr_Compatibility result = DesktopCompatibilityUnsupportedTarget ↔
       ∀ entry, entry ∈ entries → ¬ has_target query entry).
Proof.
  intros Hentries Hq Hp. unfold catalog_evaluate. rewrite Hq. cbn [mbind result_bind]. rewrite Hp. cbn [is_ok negb].
  pose proof (list_elem_of_filter (has_target query) entries) as Hmatching.
  assert (Hvalid : Forall valid_entry (filter (has_target query) entries)).
  { apply Forall_forall. intros e [_ He]%Hmatching. by eapply Forall_forall. }
  destruct (filter _ entries) as [|first others]; eexists; (split; [done|]).
  - cbn [dr_Compatibility]. setoid_rewrite elem_of_nil in Hmatching. naive_solver.
  - destruct (evaluate_target_spec policy query first others Hp Hvalid) as [Hc Hu]. rewrite Hc.
    pose proof (proj1 (Hmatching first) (list_elem_of_here _ _)). setoid_rewrite Hmatching. split; [|naive_solver].
    split; intros [(e & ? & ?) ?]; (split; [|done]); exists e; tauto.
Qed.

Definition demo_build : DesktopBuildTuple :=
  mkBuildTuple "2.10.0" "build-42" DesktopPlatformLinux DesktopArchitectureX64 3.
Definition demo_policy : DesktopCompatibilityPolicy :=
  mkCompatibilityPolicy sample_id 1 "2.9.0-rc.1" ["build-07"] "" DesktopAvailabilityReady noTime
    (at_second 1) (at_second 1).
Definition demo_query : DesktopCompatibilityQuery := mkQuery "2.10.0" "build-42" "linux" "x64" 3.

Lemma desktop_compatible_iff_witness :
  ∃ result, catalog_evaluate [demo_build] (Some demo_policy) demo_query = Ok result ∧
    dr_Compatibility result = DesktopCompatibilityCompatible.
Proof.
  destruct (desktop_compatible_iff [demo_build] demo_policy demo_query) as (result & He & Hc & _).
  - by repeat constructor.
  - by vm_compute.
  - by vm_compute.
  - exists result. split; [exact He|]. apply Hc. split.
    + exists demo_build. repeat split; by apply list_elem_of_here.
    + split; [set_solver|]. right. by vm_compute.
Defined.
