(* ===== verification/Principal.v ===== *)
(** * Principals

    Models [server/model/principal.go] and the key thumbprints of
    [server/model/desktop_registration.go]: the authentication context of a request
    and its consistency for the credential that established it. *)

From S2P Require Import Prelude GoTime GoStrings Ident ModelError Actions Roles DesktopRelease.

(** ** Unpadded URL-safe base64 *)

Definition sextet_of (c : Z) : option Z :=
  if upper_letter c then Some (c - 65)
  else if lower_letter c then Some (c - 97 + 26)
  else if decimal c then Some (c - 48 + 52)
  else if c =? 45 then Some 62
  else if c =? 95 then Some 63
  else None.
Definition sextet_char (v : Z) : Z :=
  if v <? 26 then v + 65
  else if v <? 52 then v - 26 + 97
  else if v <? 62 then v - 52 + 48
  else if v =? 62 then 45
  else 95.

(** Four sextets are three bytes; a final group of two or three is one or two bytes,
    its unused low bits ignored; a single trailing sextet is corrupt. *)
Fixpoint join_sextets (l : list Z) : option (list Z) :=
  match l with
  | [] => Some []
  | [_] => None
  | [a; b] => Some [Z.lor (Z.shiftl a 2) (Z.shiftr b 4)]
  | [a; b; c] =>
      Some [Z.lor (Z.shiftl a 2) (Z.shiftr b 4); Z.land (Z.lor (Z.shiftl b 4) (Z.shiftr c 2)) 255]
  | a :: b :: c :: d :: rest =>
      bytes ← join_sextets rest;
      Some (Z.lor (Z.shiftl a 2) (Z.shiftr b 4)
            :: Z.land (Z.lor (Z.shiftl b 4) (Z.shiftr c 2)) 255
            :: Z.land (Z.lor (Z.shiftl c 6) d) 255 :: bytes)
  end.
Fixpoint split_sextets (l : list Z) : list Z :=
  match l with
  | [] => []
  | [x] => [Z.shiftr x 2; Z.land (Z.shiftl x 4) 63]
  | [x; y] => [Z.shiftr x 2; Z.land (Z.lor (Z.shiftl x 4) (Z.shiftr y 4)) 63; Z.land (Z.shiftl y 2) 63]
  | x :: y :: z :: rest =>
      Z.shiftr x 2 :: Z.land (Z.lor (Z.shiftl x 4) (Z.shiftr y 4)) 63
      :: Z.land (Z.lor (Z.shiftl y 2) (Z.shiftr z 6)) 63 :: Z.land z 63 :: split_sextets rest
  end.

(** [DecodeString] skips carriage returns and newlines. *)
Definition DecodeString (value : string) : option (list Z) :=
  sextets ← mapM sextet_of (filter (λ c, c ≠ 10 ∧ c ≠ 13) (bytes value));
  join_sextets sextets.
Definition EncodeToString (data : list Z) : string :=
  string_of_bytes (map sextet_char (split_sextets data)).

Definition DPoPKeyThumbprintLength : Z := 43.
Definition IsValidDPoPKeyThumbprint (value : string) : bool :=
  if len value !=? DPoPKeyThumbprintLength then false
  else match DecodeString value with
       | Some decoded => (length decoded =? 32)%nat && (EncodeToString decoded ==? value)
       | None => false
       end.

(** ** Vocabulary *)

Inductive SessionClientType :=
  | SessionClientDesktop
  | SessionClientCLI
  | SessionClientWeb
  | SessionClientType_other (raw : string).
#[export] Instance SessionClientType_eq_dec : EqDecision SessionClientType.
Proof. solve_decision. Defined.
Definition SessionClientType_IsValid (ct : SessionClientType) : bool :=
  match ct with SessionClientType_other _ => false | _ => true end.

Inductive AuthenticationStrength :=
  | AuthenticationSingleFactor
  | AuthenticationMultiFactor
  | AuthenticationStrength_other (raw : string).
#[export] Instance AuthenticationStrength_eq_dec : EqDecision AuthenticationStrength.
Proof. solve_decision. Defined.
Definition AuthenticationStrength_IsValid (s : AuthenticationStrength) : bool :=
  match s with AuthenticationStrength_other _ => false | _ => true end.

Inductive CredentialType :=
  | CredentialSessionAccess
  | CredentialPersonalAccessToken
  | CredentialType_other (raw : string).
#[export] Instance CredentialType_eq_dec : EqDecision CredentialType.
Proof. solve_decision. Defined.

Definition IdentityProviderMaxLength : Z := 64.
Definition IsValidIdentityProviderID (value : string) : bool :=
  (0 <? len value) && (len value <=? IdentityProviderMaxLength)
  && matches (λ c, lower_letter c || decimal c)
       (λ c, lower_letter c || decimal c || (c =? 46) || (c =? 95) || (c =? 45)) value.

(** ** Principals *)

Record Principal := mkPrincipal {
  p_UserID : ID;
  p_AuthenticationGeneration : Z;
  p_MFARecoveryRequired : bool;
  p_SessionID : ID;
  p_CredentialID : ID;
  p_CredentialType : CredentialType;
  p_AuthenticationMethod : string;
  p_AuthenticationProviderID : string;
  p_ExternalIdentityID : ID;
  p_AuthenticationStrength : AuthenticationStrength;
  p_ClientType : SessionClientType;
  p_DesktopRegistrationID : ID;
  p_DPoPKeyThumbprint : string;
  p_RegisteredDesktopKey : bool;
  p_DesktopRelease : string;
  p_DesktopBuildID : string;
  p_DesktopPlatform : DesktopPlatform;
  p_DesktopArchitecture : DesktopArchitecture;
  p_DesktopRealtimeProtocol : Z;
  p_AuthenticatedAt : Time;
  p_ReauthenticatedAt : OptionalTime;
  p_MFACompletedAt : OptionalTime;
  p_CredentialScopes : list string;
  p_AcademicUnitID : ID }.
#[export] Instance Principal_eta : Eta Principal := λ p, mkPrincipal (p_UserID p) (p_AuthenticationGeneration p)
  (p_MFARecoveryRequired p) (p_SessionID p) (p_CredentialID p) (p_CredentialType p) (p_AuthenticationMethod p)
  (p_AuthenticationProviderID p) (p_ExternalIdentityID p) (p_AuthenticationStrength p) (p_ClientType p)
  (p_DesktopRegistrationID p) (p_DPoPKeyThumbprint p) (p_RegisteredDesktopKey p) (p_DesktopRelease p)
  (p_DesktopBuildID p) (p_DesktopPlatform p) (p_DesktopArchitecture p) (p_DesktopRealtimeProtocol p)
  (p_AuthenticatedAt p) (p_ReauthenticatedAt p) (p_MFACompletedAt p) (p_CredentialScopes p) (p_AcademicUnitID p).

Definition principal_error (reason : string) : error := invalidModelError "principal" "" reason "".

Definition no_desktop (p : Principal) : bool :=
  ID_IsZero (p_DesktopRegistrationID p) && (p_DPoPKeyThumbprint p ==? "") && (p_DesktopRelease p ==? "")
  && (p_DesktopBuildID p ==? "") && (p_DesktopPlatform p ==? DesktopPlatform_other "")
  && (p_DesktopArchitecture p ==? DesktopArchitecture_other "") && (p_DesktopRealtimeProtocol p =? 0).

(** The scope loop with its [seen] set. *)
Fixpoint scopes_scan (seen : gset string) (scopes : list string) : result unit :=
  match scopes with
  | [] => Ok tt
  | scope :: rest =>
      fail_if negb (IsPersonalAccessTokenAction scope)
        with principal_error "personal access token scope is invalid" ;;
      fail_if bool_decide (scope ∈ seen) with principal_error "personal access token scope is duplicated" ;;
      scopes_scan ({[scope]} ∪ seen) rest
  end.

Definition validateSession (p : Principal) : result unit :=
  fail_if negb (ID_IsValid (p_SessionID p)) || negb (AuthenticationStrength_IsValid (p_AuthenticationStrength p))
          || Time_IsZero (p_AuthenticatedAt p) || negb (length (p_CredentialScopes p) =? 0)%nat
          || negb (ID_IsZero (p_AcademicUnitID p))
    with principal_error "session principal is invalid" ;;
  fail_if p_RegisteredDesktopKey p
          && ((p_ClientType p !=? SessionClientDesktop) || negb (ID_IsValid (p_DesktopRegistrationID p))
              || negb (IsValidDPoPKeyThumbprint (p_DPoPKeyThumbprint p))
              || negb (IsValidDesktopRelease (p_DesktopRelease p))
              || negb (IsValidDesktopBuildID (p_DesktopBuildID p))
              || negb (DesktopPlatform_IsValid (p_DesktopPlatform p))
              || negb (DesktopArchitecture_IsValid (p_DesktopArchitecture p))
              || (p_DesktopRealtimeProtocol p <? 1))
    with principal_error "registered Desktop-key principal is invalid" ;;
  fail_if negb (p_RegisteredDesktopKey p) && negb (no_desktop p)
    with principal_error "unproved Desktop-key principal is invalid" ;;
  fail_if ((p_AuthenticationMethod p ==? "password")
           && ((p_AuthenticationProviderID p !=? "") || negb (ID_IsZero (p_ExternalIdentityID p))))
          || ((p_AuthenticationMethod p !=? "password")
              && (negb (IsValidIdentityProviderID (p_AuthenticationProviderID p))
                  || negb (ID_IsValid (p_ExternalIdentityID p))))
    with principal_error "session principal authentication provider is invalid" ;;
  fail_if ot_Valid (p_ReauthenticatedAt p) && Time_Before (ot_Time (p_ReauthenticatedAt p)) (p_AuthenticatedAt p)
    with principal_error "session principal reauthentication is invalid" ;;
  Ok tt.

Definition validateToken (p : Principal) : result unit :=
  fail_if negb (ID_IsZero (p_SessionID p)) || (p_AuthenticationStrength p !=? AuthenticationStrength_other "")
          || p_MFARecoveryRequired p || negb (p_AuthenticationGeneration p =? 0)
          || (p_AuthenticationProviderID p !=? "") || negb (ID_IsZero (p_ExternalIdentityID p))
          || negb (Time_IsZero (p_AuthenticatedAt p)) || ot_Valid (p_ReauthenticatedAt p)
          || ot_Valid (p_MFACompletedAt p) || (p_ClientType p !=? SessionClientCLI)
          || p_RegisteredDesktopKey p || negb (no_desktop p) || (length (p_CredentialScopes p) =? 0)%nat
          || (negb (ID_IsZero (p_AcademicUnitID p)) && negb (ID_IsValid (p_AcademicUnitID p)))
    with principal_error "personal access token principal is invalid" ;;
  scopes_scan ∅ (p_CredentialScopes p).

Definition validateIdentity (p : Principal) : result unit :=
  fail_if p_AuthenticationGeneration p <? 0
    with principal_error "principal authentication generation is invalid" ;;
  fail_if negb (ID_IsValid (p_UserID p)) || negb (ID_IsValid (p_CredentialID p))
          || (p_AuthenticationMethod p ==? "") || negb (SessionClientType_IsValid (p_ClientType p))
    with principal_error "principal identity is invalid" ;;
  match p_CredentialType p with
  | CredentialSessionAccess => validateSession p
  | CredentialPersonalAccessToken => validateToken p
  | CredentialType_other _ => mthrow (principal_error "principal credential type is invalid")
  end.

Definition Principal_Validate (p : Principal) : result unit :=
  fail_if p_MFARecoveryRequired p with principal_error "principal is restricted to MFA reenrollment" ;;
  validateIdentity p.

Definition ValidateMFARecovery (p : Principal) : result unit :=
  fail_if p_MFARecoveryRequired p
          && ((p_AuthenticationGeneration p <=? 0) || (p_ClientType p !=? SessionClientWeb)
              || (p_CredentialType p !=? CredentialSessionAccess))
    with principal_error "MFA recovery principal is invalid" ;;
  validateIdentity p.

Definition HasStrongAuthentication (p : Principal) : bool := p_AuthenticationStrength p ==? AuthenticationMultiFactor.
Definition HasRegisteredDesktopKey (p : Principal) : bool :=
  p_RegisteredDesktopKey p && (p_ClientType p ==? SessionClientDesktop)
  && ID_IsValid (p_DesktopRegistrationID p) && IsValidDPoPKeyThumbprint (p_DPoPKeyThumbprint p).

Definition LastAuthenticationAt (p : Principal) : Time :=
  let latest := p_AuthenticatedAt p in
  let latest := if ot_Valid (p_ReauthenticatedAt p) && Time_After (ot_Time (p_ReauthenticatedAt p)) latest
                then ot_Time (p_ReauthenticatedAt p) else latest in
  if ot_Valid (p_MFACompletedAt p) && Time_After (ot_Time (p_MFACompletedAt p)) latest
  then ot_Time (p_MFACompletedAt p) else latest.

(** [Time.Sub] saturates at the ends of [Duration]. *)
Definition Time_Sub (t u : Time) : Z := Z.max int64_min (Z.min int64_max (t_ns t - t_ns u)).

Definition IsRecentlyAuthenticated (p : Principal) (now : Time) (maximumAge : Z) : bool :=
  if maximumAge <=? 0 then false
  else
    let authenticatedAt := LastAuthenticationAt p in
    let now := TimeUTC now in
    negb (Time_IsZero authenticatedAt) && negb (Time_After authenticatedAt now)
    && (Time_Sub now authenticatedAt <=? maximumAge).

#[global] Arguments Principal_Validate : simpl never.
#[global] Arguments validateIdentity : simpl never.

(** ** Facts *)

(** Only a token is bounded to an Academic Unit, and only a token lists actions. *)
Lemma session_unbounded p :
  Principal_Validate p = Ok tt → p_CredentialType p ≠ CredentialPersonalAccessToken →
  p_CredentialType p = CredentialSessionAccess ∧ p_AcademicUnitID p = "" ∧ p_CredentialScopes p = [].
Proof.
  unfold Principal_Validate, validateIdentity. rewrite !ok_fail_if. intros (_ & _ & _ & H) Hc.
  destruct (p_CredentialType p); [|done|done]. unfold validateSession, ID_IsZero in H.
  apply ok_fail_if in H as [H _]. to_prop. destruct H as [[_ Hs] Hu]. split_and!; [done|done|].
  by destruct (p_CredentialScopes p).
Qed.

(** The scopes of a valid token are actions a token may hold. *)
Lemma scopes_scan_ok seen scopes action :
  scopes_scan seen scopes = Ok tt → action ∈ scopes → IsPersonalAccessTokenAction action = true.
Proof.
  revert seen. induction scopes as [|scope scopes IH]; intros seen H Hin; [by apply elem_of_nil in Hin|].
  cbn [scopes_scan] in H. apply ok_fail_if in H as [H1 H]. apply ok_fail_if in H as [_ H].
  apply negb_false_iff in H1. apply elem_of_cons in Hin as [->|Hin]; [done|]. by eapply IH.
Qed.
Lemma token_scopes p action :
  Principal_Validate p = Ok tt → p_CredentialType p = CredentialPersonalAccessToken →
  action ∈ p_CredentialScopes p → IsPersonalAccessTokenAction action = true.
Proof.
  unfold Principal_Validate, validateIdentity. rewrite !ok_fail_if. intros (_ & _ & _ & H) Hc. rewrite Hc in H.
  unfold validateToken in H. apply ok_fail_if in H as [_ H]. by eapply scopes_scan_ok.
Qed.

(** The thumbprint of the empty input is accepted; a letter that would leave bits in
    its unused tail, or a character outside the alphabet, is not. *)
Example thumbprint_samples :
  map IsValidDPoPKeyThumbprint
    ["47DEQpj8HBSa-_TImW-5JCeuQeRkm5NMpJWZG3hSuFU"; "47DEQpj8HBSa-_TImW-5JCeuQeRkm5NMpJWZG3hSuFV";
     "47DEQpj8HBSa+/TImW+5JCeuQeRkm5NMpJWZG3hSuFU"; "47DEQpj8HBSa"] = [true; false; false; false].
Proof. by vm_compute. Qed.
