(* ===== verification/AccessControl.v ===== *)
(** * Access control

    Models [server/app/authorization.go] and [server/app/access_scope.go]: the
    resolution of a resource to its institution and Academic Units, the decision
    whether a principal may perform an action on it, the scope constraints of lists,
    the delegation test, and the audited entry points.  The persistence contracts the
    service receives are a record of operations, and the clock is read once per
    call. *)

From S2P Require Import Prelude GoTime GoStrings Ident ModelError AppErrors Actions Roles DesktopRelease Principal.

(** ** Persistence contracts *)

(** The fields of the stored entities that access control reads. *)
Record Institution := mkInstitution { in_ID : ID; in_ArchivedAt : OptionalTime }.
Record AcademicUnit := mkAcademicUnit {
  au_ID : ID;
  au_ArchivedAt : OptionalTime;
  au_InstitutionID : ID;
  au_ParentID : ID }.
Record AcademicPeriodOwner := mkPeriodOwner { po_InstitutionID : ID; po_AcademicUnitID : ID }.
Record AcademicPeriod := mkAcademicPeriod {
  ap_ID : ID;
  ap_ArchivedAt : OptionalTime;
  ap_Owner : AcademicPeriodOwner }.
Record Programme := mkProgramme { pg_ArchivedAt : OptionalTime; pg_AcademicUnitID : ID }.
Record ProgrammeLevel := mkProgrammeLevel { pl_ArchivedAt : OptionalTime; pl_ProgrammeID : ID }.
Record ClassRow := mkClassRow { cl_ArchivedAt : OptionalTime; cl_AcademicPeriodID : ID }.
Record User := mkUser { us_ArchivedAt : OptionalTime; us_DisabledAt : OptionalTime }.
Record SubmissionOwnership := mkSubmissionOwnership {
  so_SubmissionID : ID;
  so_ExamID : ID;
  so_SittingID : ID;
  so_AttemptID : ID;
  so_AcademicUnitID : ID }.

Definition User_IsActive (u : User) : bool := negb (ot_Valid (us_ArchivedAt u)) && negb (ot_Valid (us_DisabledAt u)).

Definition Owner_Resource (o : AcademicPeriodOwner) : Resource :=
  if ID_IsValid (po_InstitutionID o) then mkResource ResourceInstitution (po_InstitutionID o)
  else mkResource ResourceAcademicUnit (po_AcademicUnitID o).

(** A result whose pointer the code tests for nil is an [option]; the ancestors of a
    unit are its rows, of which none is nil. *)
Record Stores := mkStores {
  Roles_GetByIDs : list ID → result (list Role);
  Bindings_ListActiveByUser : ID → Time → result (list RoleBinding);
  Institutions_Get : ID → result Institution;
  Institutions_GetSingleton : result Institution;
  AcademicUnits_ListAncestors : ID → result (list AcademicUnit);
  Classes_Get : ID → result ClassRow;
  Classes_GetAcademicUnitID : ID → result ID;
  Users_Get : ID → result User;
  Exams_Resolve : ID → result ID;
  Sittings_Resolve : ID → result (option ID);
  Submissions_Resolve : ID → result (option SubmissionOwnership);
  AcademicPeriods_Get : ID → result (option AcademicPeriod);
  Programmes_Get : option (ID → result (option Programme));
  ProgrammeLevels_Get : option (ID → result (option ProgrammeLevel)) }.

(** ** Errors *)

Definition authorizationResourceError (resource : string) (e : error) : error :=
  Translate (mkStoreTable [] ∅ "resource.not_found" "" "" "" "" "authorization.unavailable"
               {["resource" := resource]}) (Some e).
Definition authorizationUnavailableError (e : error) : error := Wrap (New "authorization.unavailable") e.
Definition authorizationDeniedError : error := New "authorization.denied".
Definition invalidTokenAppError : error := New "authentication.token_invalid".
Definition request_invalid : error := New "authorization.request.invalid".
Definition not_found (resource : string) : error := WithField (New "resource.not_found") "resource" resource.

(** [if err != nil { return f(err) }] *)
Definition or_else {A} (f : error → error) (r : result A) : result A :=
  match r with Ok a => Ok a | Err e => Err (f e) end.

(** ** The resolver *)

Record resolvedAuthorizationResource := mkResolved {
  ra_institutionID : ID;
  ra_academicUnitID : gset ID;
  ra_targetAcademicUnitID : ID;
  ra_classID : ID;
  ra_academicPeriodInstitutionOwned : bool }.
#[export] Instance resolved_eta : Eta resolvedAuthorizationResource := λ r, mkResolved (ra_institutionID r)
  (ra_academicUnitID r) (ra_targetAcademicUnitID r) (ra_classID r) (ra_academicPeriodInstitutionOwned r).
Definition unresolved : resolvedAuthorizationResource := mkResolved "" ∅ "" "" false.

Section resolver.
Context (st : Stores).

Definition listScopeAncestors (academicUnitID : ID) (lookupResource notFoundResource : string)
    : result (list AcademicUnit) :=
  units ← or_else (authorizationResourceError lookupResource) (AcademicUnits_ListAncestors st academicUnitID);
  fail_if (length units =? 0)%nat with not_found notFoundResource ;;
  Ok units.

Fixpoint apply_units (units : list AcademicUnit) (notFoundResource : string)
    (resolved : resolvedAuthorizationResource) : result resolvedAuthorizationResource :=
  match units with
  | [] => Ok resolved
  | unit :: rest =>
      fail_if ot_Valid (au_ArchivedAt unit) with not_found notFoundResource ;;
      apply_units rest notFoundResource
        (resolved <| ra_academicUnitID := {[au_ID unit]} ∪ ra_academicUnitID resolved |>)
  end.
Definition applyScopeAncestors (resolved : resolvedAuthorizationResource) (units : list AcademicUnit)
    (target : ID) (notFoundResource : string) : result resolvedAuthorizationResource :=
  apply_units units notFoundResource
    (resolved <| ra_institutionID := from_option au_InstitutionID "" (head units) |>
              <| ra_targetAcademicUnitID := target |>).

Definition resolveAcademicUnitScope (resolved : resolvedAuthorizationResource) (academicUnitID : ID)
    (lookupResource notFoundResource : string) : result resolvedAuthorizationResource :=
  units ← listScopeAncestors academicUnitID lookupResource notFoundResource;
  applyScopeAncestors resolved units academicUnitID notFoundResource.

Definition resolveInstitution (id : ID) : result resolvedAuthorizationResource :=
  institution ← or_else (authorizationResourceError "institution") (Institutions_Get st id);
  fail_if ot_Valid (in_ArchivedAt institution) with not_found "institution" ;;
  Ok (unresolved <| ra_institutionID := in_ID institution |>).

Definition resolveAcademicUnit (id : ID) : result resolvedAuthorizationResource :=
  units ← or_else (authorizationResourceError "academic_unit") (AcademicUnits_ListAncestors st id);
  fail_if (length units =? 0)%nat with not_found "academic_unit" ;;
  applyScopeAncestors unresolved units id "academic_unit".

Definition resolveAcademicPeriod (id : ID) : result resolvedAuthorizationResource :=
  period ← or_else (authorizationResourceError "academic_period") (AcademicPeriods_Get st id);
  match period with
  | None => mthrow (not_found "academic_period")
  | Some period =>
      fail_if ot_Valid (ap_ArchivedAt period) with not_found "academic_period" ;;
      let owner := ap_Owner period in
      if ID_IsValid (po_InstitutionID owner) then
        institution ← or_else (authorizationResourceError "academic_period_institution")
                        (Institutions_Get st (po_InstitutionID owner));
        fail_if ot_Valid (in_ArchivedAt institution) with not_found "academic_period" ;;
        Ok (unresolved <| ra_institutionID := in_ID institution |>
                       <| ra_academicPeriodInstitutionOwned := true |>)
      else
        resolveAcademicUnitScope unresolved (po_AcademicUnitID owner) "academic_period_academic_unit"
          "academic_period"
  end.

Definition live_programme (id : ID) (lookup notFound : string) (get : ID → result (option Programme))
    : result Programme :=
  programme ← or_else (authorizationResourceError lookup) (get id);
  match programme with
  | None => mthrow (not_found notFound)
  | Some programme =>
      fail_if ot_Valid (pg_ArchivedAt programme) with not_found notFound ;;
      Ok programme
  end.

Definition resolveProgramme (id : ID) : result resolvedAuthorizationResource :=
  match Programmes_Get st with
  | None => mthrow (authorizationUnavailableError (SentinelError "Programme persistence is required"))
  | Some get =>
      programme ← live_programme id "programme" "programme" get;
      resolveAcademicUnitScope unresolved (pg_AcademicUnitID programme) "programme_academic_unit" "programme"
  end.

Definition resolveProgrammeLevel (id : ID) : result resolvedAuthorizationResource :=
  match ProgrammeLevels_Get st, Programmes_Get st with
  | Some getLevel, Some get =>
      level ← or_else (authorizationResourceError "programme_level") (getLevel id);
      match level with
      | None => mthrow (not_found "programme_level")
      | Some level =>
          fail_if ot_Valid (pl_ArchivedAt level) with not_found "programme_level" ;;
          programme ← live_programme (pl_ProgrammeID level) "programme_level_programme" "programme_level" get;
          resolveAcademicUnitScope unresolved (pg_AcademicUnitID programme) "programme_level_academic_unit"
            "programme_level"
      end
  | _, _ => mthrow (authorizationUnavailableError (SentinelError "Programme Level persistence is required"))
  end.

Definition resolveClass (id : ID) : result resolvedAuthorizationResource :=
  class ← or_else (authorizationResourceError "class") (Classes_Get st id);
  fail_if ot_Valid (cl_ArchivedAt class) with not_found "class" ;;
  academicUnitID ← or_else (authorizationResourceError "class") (Classes_GetAcademicUnitID st id);
  units ← listScopeAncestors academicUnitID "class_academic_unit" "class";
  resolved ← applyScopeAncestors (unresolved <| ra_classID := id |>) units academicUnitID "class";
  periodScope ← or_else (λ e, if Is e "resource.not_found" then not_found "class" else e)
                  (resolveAcademicPeriod (cl_AcademicPeriodID class));
  fail_if ra_institutionID periodScope !=? ra_institutionID resolved with not_found "class" ;;
  fail_if negb (ra_academicPeriodInstitutionOwned periodScope)
          && bool_decide (ra_targetAcademicUnitID periodScope ∉ ra_academicUnitID resolved)
    with not_found "class" ;;
  Ok resolved.

Definition resolveExam (id : ID) : result resolvedAuthorizationResource :=
  academicUnitID ← or_else (authorizationResourceError "exam") (Exams_Resolve st id);
  resolveAcademicUnitScope unresolved academicUnitID "exam_academic_unit" "exam".

Definition resolveExamSitting (id : ID) : result resolvedAuthorizationResource :=
  snapshot ← or_else (authorizationResourceError "exam_sitting") (Sittings_Resolve st id);
  match snapshot with
  | None => mthrow (authorizationUnavailableError
                      (SentinelError "Exam Sitting persistence returned no projection"))
  | Some examID =>
      academicUnitID ← or_else (authorizationResourceError "exam_sitting_exam") (Exams_Resolve st examID);
      resolveAcademicUnitScope unresolved academicUnitID "exam_sitting_academic_unit" "exam_sitting"
  end.

Definition resolveSubmission (id : ID) : result resolvedAuthorizationResource :=
  let invalid := SentinelError "Submission persistence returned no ownership projection" in
  id ← or_else (Wrap request_invalid) (parseID id (invalidModelError "id" "" "invalid submission_id" ""));
  ownership ← or_else (authorizationResourceError "submission") (Submissions_Resolve st id);
  match ownership with
  | None => mthrow (authorizationUnavailableError invalid)
  | Some o =>
      fail_if (so_SubmissionID o !=? id) || negb (ID_IsValid (so_ExamID o)) || negb (ID_IsValid (so_SittingID o))
              || negb (ID_IsValid (so_AttemptID o)) || negb (ID_IsValid (so_AcademicUnitID o))
        with authorizationUnavailableError invalid ;;
      resolveAcademicUnitScope unresolved (so_AcademicUnitID o) "submission_academic_unit" "submission"
  end.

Definition singleton_institution : result ID :=
  institution ← or_else (authorizationResourceError "institution") (Institutions_GetSingleton st);
  fail_if ot_Valid (in_ArchivedAt institution) with not_found "institution" ;;
  Ok (in_ID institution).

Definition resolveUser (id : ID) : result resolvedAuthorizationResource :=
  user ← or_else (authorizationResourceError "user") (Users_Get st id);
  fail_if negb (User_IsActive user) with not_found "user" ;;
  institutionID ← singleton_institution;
  Ok (unresolved <| ra_institutionID := institutionID |>).

Definition resolve (resource : Resource) : result resolvedAuthorizationResource :=
  let id := r_ID resource in
  match r_Type resource with
  | ResourceInstitution => resolveInstitution id
  | ResourceAcademicUnit => resolveAcademicUnit id
  | ResourceAcademicPeriod => resolveAcademicPeriod id
  | ResourceProgramme => resolveProgramme id
  | ResourceProgrammeLevel => resolveProgrammeLevel id
  | ResourceClass => resolveClass id
  | ResourceExam => resolveExam id
  | ResourceExamSitting => resolveExamSitting id
  | ResourceSubmission => resolveSubmission id
  | ResourceUser => resolveUser id
  | ResourceMailDelivery | ResourceType_other _ => mthrow request_invalid
  end.
End resolver.

(** ** The decision *)

Definition personalAccessTokenAllows (principal : Principal) (action : Action) (resource : Resource)
    (resolved : resolvedAuthorizationResource) : bool :=
  if negb (existsb (λ scope, scope ==? action) (p_CredentialScopes principal)) then false
  else if ID_IsZero (p_AcademicUnitID principal) then true
  else
    match r_Type resource with
    | ResourceAcademicUnit | ResourceProgramme | ResourceProgrammeLevel | ResourceAcademicPeriod
    | ResourceClass | ResourceExam =>
        if (r_Type resource ==? ResourceAcademicPeriod) && ra_academicPeriodInstitutionOwned resolved
        then action ==? ActionAcademicPeriodView
        else bool_decide (p_AcademicUnitID principal ∈ ra_academicUnitID resolved)
    | _ => false
    end.

Definition roleBindingApplies (binding : RoleBinding) (definition : ActionDefinition) (resource : Resource)
    (resolved : resolvedAuthorizationResource) : bool :=
  match rb_ScopeType binding with
  | RoleScopeInstitution =>
      ad_InheritInstitutionScope definition && (rb_ScopeID binding ==? ra_institutionID resolved)
  | RoleScopeAcademicUnit =>
      if negb (ad_InheritAcademicUnitScopes definition) then false
      else if (r_Type resource ==? ResourceAcademicPeriod) && ra_academicPeriodInstitutionOwned resolved
      then ad_Action definition ==? ActionAcademicPeriodView
      else bool_decide (rb_ScopeID binding ∈ ra_academicUnitID resolved)
  | RoleScopeClass => (r_Type resource ==? ResourceClass) && (rb_ScopeID binding ==? ra_classID resolved)
  | RoleScopeType_other _ => false
  end.

(** The roles named by the bindings, each once, in their order: the [seen] loop. *)
Fixpoint role_ids (seen : gset ID) (bindings : list RoleBinding) : list ID :=
  match bindings with
  | [] => []
  | binding :: rest =>
      if bool_decide (rb_RoleID binding ∈ seen) then role_ids seen rest
      else rb_RoleID binding :: role_ids ({[rb_RoleID binding]} ∪ seen) rest
  end.

Definition permissions_by_role (roles : list Role) : gmap ID (gset string) :=
  foldl (λ m role, <[ro_ID role := list_to_set (ro_Permissions role)]> m) ∅ roles.

Definition self_service (principal : Principal) (action : Action) (resource : Resource) : bool :=
  ((action ==? ActionUserView) || (action ==? ActionUserProfilePictureManage))
  && (p_UserID principal ==? r_ID resource).

(** The scopes a principal holds for an action. *)
Record authorizedScopeConstraint := mkConstraint {
  sc_InstitutionID : ID;
  sc_InstitutionWide : bool;
  sc_AcademicUnitRootIDs : list ID;
  sc_ClassIDs : list ID }.

(** The constraint under construction: its two fields and the two sets. *)
Record Scopes := mkScopes {
  sp_InstitutionID : ID;
  sp_InstitutionWide : bool;
  sp_unitRoots : gset ID;
  sp_classIDs : gset ID }.
#[export] Instance Scopes_eta : Eta Scopes := λ s,
  mkScopes (sp_InstitutionID s) (sp_InstitutionWide s) (sp_unitRoots s) (sp_classIDs s).
Definition noScopes : Scopes := mkScopes "" false ∅ ∅.

Definition sorted_ids (s : gset ID) : list ID := merge_sort string_le (elements s).

Definition protectedDelegationAction (action : Action) : bool :=
  bool_decide (action ∈ [ActionInstitutionManage; ActionRoleManage; ActionRoleBindingManage;
                         ActionAccessPolicyManage; ActionExternalIdentityManage]).

Definition delegationConstraintContains (constraint : authorizedScopeConstraint) (target : Resource)
    (resolved : resolvedAuthorizationResource) (strictParent : bool) : bool :=
  if sc_InstitutionWide constraint then true
  else
    match r_Type target with
    | ResourceAcademicUnit =>
        existsb (λ rootID, bool_decide (rootID ∈ ra_academicUnitID resolved)
                           && (negb strictParent || (rootID !=? r_ID target)))
          (sc_AcademicUnitRootIDs constraint)
    | ResourceClass =>
        (negb strictParent && existsb (λ id, id ==? r_ID target) (sc_ClassIDs constraint))
        || existsb (λ rootID, bool_decide (rootID ∈ ra_academicUnitID resolved))
             (sc_AcademicUnitRootIDs constraint)
    | _ => false
    end.

Definition roleScopeResource (scopeType : RoleScopeType) (scopeID : string) : result Resource :=
  let invalid := WithField (New "request.invalid") "field" "role_binding" in
  fail_if negb (IsValidOpaqueID scopeID) with invalid ;;
  match scopeType with
  | RoleScopeInstitution => Ok (mkResource ResourceInstitution scopeID)
  | RoleScopeAcademicUnit => Ok (mkResource ResourceAcademicUnit scopeID)
  | RoleScopeClass => Ok (mkResource ResourceClass scopeID)
  | RoleScopeType_other _ => mthrow invalid
  end.

Section service.
Context (st : Stores) (now : Time).

Definition evaluateResolved (principal : Principal) (action : Action) (resource : Resource)
    (definition : ActionDefinition) (resolved : resolvedAuthorizationResource) : result bool :=
  if (p_CredentialType principal ==? CredentialPersonalAccessToken)
     && negb (personalAccessTokenAllows principal action resource resolved) then Ok false
  else if self_service principal action resource then Ok true
  else
    bindings ← or_else authorizationUnavailableError (Bindings_ListActiveByUser st (p_UserID principal) (TimeUTC now));
    roles ← or_else authorizationUnavailableError (Roles_GetByIDs st (role_ids ∅ bindings));
    let permissionByRole := permissions_by_role roles in
    Ok (existsb (λ binding, roleBindingApplies binding definition resource resolved
                            && bool_decide (action ∈ default ∅ (permissionByRole !! rb_RoleID binding)))
          bindings).

Definition activeBindingGrants (principal : Principal) (action : Action) (at_ : Time)
    : result (list RoleBinding * gmap ID bool) :=
  bindings ← or_else authorizationUnavailableError (Bindings_ListActiveByUser st (p_UserID principal) (TimeUTC at_));
  fail_if (256 <? length bindings)%nat
    with authorizationUnavailableError (SentinelError "active binding bound exceeded") ;;
  roles ← or_else authorizationUnavailableError (Roles_GetByIDs st (role_ids ∅ bindings));
  Ok (bindings,
      foldl (λ m role, <[ro_ID role := existsb (λ p, p ==? action) (ro_Permissions role)]> m) ∅ roles).

Definition accumulateBindingScope (principal : Principal) (definition : ActionDefinition) (binding : RoleBinding)
    (acc : Scopes) : result Scopes :=
  let outside resolved :=
    negb (ID_IsZero (p_AcademicUnitID principal))
    && bool_decide (p_AcademicUnitID principal ∉ ra_academicUnitID resolved) in
  match rb_ScopeType binding with
  | RoleScopeInstitution =>
      if negb (ad_InheritInstitutionScope definition) then Ok acc
      else
        resolved ← resolve st (mkResource ResourceInstitution (rb_ScopeID binding));
        let acc := acc <| sp_InstitutionID := ra_institutionID resolved |> in
        Ok (if ID_IsZero (p_AcademicUnitID principal) then acc <| sp_InstitutionWide := true |>
            else acc <| sp_unitRoots := {[p_AcademicUnitID principal]} ∪ sp_unitRoots acc |>)
  | RoleScopeAcademicUnit =>
      if negb (ad_InheritAcademicUnitScopes definition) then Ok acc
      else
        resolved ← resolve st (mkResource ResourceAcademicUnit (rb_ScopeID binding));
        if outside resolved then Ok acc
        else Ok (acc <| sp_InstitutionID := ra_institutionID resolved |>
                     <| sp_unitRoots := {[rb_ScopeID binding]} ∪ sp_unitRoots acc |>)
  | RoleScopeClass =>
      if negb (AcceptsResource definition ResourceClass) then Ok acc
      else
        resolved ← resolve st (mkResource ResourceClass (rb_ScopeID binding));
        if outside resolved then Ok acc
        else Ok (acc <| sp_InstitutionID := ra_institutionID resolved |>
                     <| sp_classIDs := {[rb_ScopeID binding]} ∪ sp_classIDs acc |>)
  | RoleScopeType_other _ => Ok acc
  end.

Fixpoint accumulate (principal : Principal) (definition : ActionDefinition) (grants : gmap ID bool)
    (bindings : list RoleBinding) (acc : Scopes) : result Scopes :=
  match bindings with
  | [] => Ok acc
  | binding :: rest =>
      if negb (default false (grants !! rb_RoleID binding)) then accumulate principal definition grants rest acc
      else
        acc ← accumulateBindingScope principal definition binding acc;
        accumulate principal definition grants rest acc
  end.

Definition authorizedScopesAt (principal : Principal) (action : Action) (resourceType : ResourceType) (at_ : Time)
    : result authorizedScopeConstraint :=
  fail_if negb (is_ok (Principal_Validate principal)) with invalidTokenAppError ;;
  match DefinitionForAction action with
  | None => mthrow request_invalid
  | Some definition =>
      fail_if negb (AcceptsResource definition resourceType) with request_invalid ;;
      if (p_CredentialType principal ==? CredentialPersonalAccessToken)
         && (ad_PersonalAccessTokenForbidden definition
             || negb (existsb (λ scope, scope ==? action) (p_CredentialScopes principal)))
      then Ok (mkConstraint "" false [] [])
      else
        '(bindings, grants) ← activeBindingGrants principal action at_;
        acc ← accumulate principal definition grants bindings noScopes;
        Ok (mkConstraint (sp_InstitutionID acc) (sp_InstitutionWide acc)
              (sorted_ids (sp_unitRoots acc)) (sorted_ids (sp_classIDs acc)))
  end.
Definition authorizedScopes (principal : Principal) (action : Action) (resourceType : ResourceType) :=
  authorizedScopesAt principal action resourceType now.

Definition academicPeriodCoarseAuthority (principal : Principal) (action : Action)
    : result (bool * resolvedAuthorizationResource) :=
  constraint ← authorizedScopes principal action ResourceAcademicPeriod;
  if sc_InstitutionWide constraint || (0 <? length (sc_AcademicUnitRootIDs constraint))%nat then
    Ok (true, unresolved)
  else
    institution ← or_else (authorizationResourceError "institution") (Institutions_GetSingleton st);
    Ok (false, unresolved <| ra_institutionID := in_ID institution |>).

Definition evaluate (principal : Principal) (action : Action) (resource : Resource)
    : result (bool * resolvedAuthorizationResource) :=
  fail_if negb (is_ok (Principal_Validate principal)) with invalidTokenAppError ;;
  match DefinitionForAction action with
  | None => mthrow request_invalid
  | Some definition =>
      fail_if negb (is_ok (Resource_Validate resource)) || negb (AcceptsResource definition (r_Type resource))
        with request_invalid ;;
      fail_if ad_RelationshipOnly definition with request_invalid ;;
      if (p_CredentialType principal ==? CredentialPersonalAccessToken)
         && ad_PersonalAccessTokenForbidden definition then Ok (false, unresolved)
      else
        let decide_resolved :=
          resolved ← resolve st resource;
          allowed ← evaluateResolved principal action resource definition resolved;
          Ok (allowed, resolved) in
        if r_Type resource ==? ResourceAcademicPeriod then
          '(allowed, coarse) ← academicPeriodCoarseAuthority principal action;
          if (allowed : bool) then decide_resolved else Ok (false, coarse)
        else decide_resolved
  end.

Definition Can (principal : Principal) (action : Action) (resource : Resource) : result bool :=
  '(allowed, _) ← evaluate principal action resource; Ok allowed.

(** ** Delegation *)

Fixpoint delegate_actions (principal : Principal) (scopeType : RoleScopeType) (target : Resource)
    (resolvedTarget : resolvedAuthorizationResource) (actions : list string) : result bool :=
  match actions with
  | [] => Ok true
  | value :: rest =>
      match DefinitionForAction value with
      | None => Ok false
      | Some definition =>
          if ad_RelationshipOnly definition then Ok false
          else
            constraint ← authorizedScopes principal (ad_Action definition) (ad_ResourceType definition);
            let strictParent := protectedDelegationAction (ad_Action definition)
                                && (scopeType !=? RoleScopeInstitution) in
            if negb (delegationConstraintContains constraint target resolvedTarget strictParent) then Ok false
            else delegate_actions principal scopeType target resolvedTarget rest
      end
  end.
Definition canDelegateActionsAtScope (principal : Principal) (actions : list string) (scopeType : RoleScopeType)
    (scopeID : string) : result bool :=
  target ← roleScopeResource scopeType scopeID;
  resolvedTarget ← resolve st target;
  delegate_actions principal scopeType target resolvedTarget actions.

End service.

(** ** The audited entry points *)

Record RequestMetadata := mkRequestMetadata { rm_RequestID : string; rm_IPAddress : string; rm_UserAgent : string }.
Record Invocation := mkInvocation { iv_Principal : Principal; iv_Metadata : RequestMetadata }.

Inductive AuditStatus := AuditStatusSuccess | AuditStatusFail.

Record AuditEvent := mkAuditEvent {
  ae_ActorID : ID;
  ae_SessionID : ID;
  ae_Action : string;
  ae_Resource : Resource;
  ae_ScopeType : RoleScopeType;
  ae_ScopeID : string;
  ae_Status : AuditStatus;
  ae_RequestID : string;
  ae_NodeID : string;
  ae_ClientType : SessionClientType;
  ae_AuthMethod : string;
  ae_IPAddress : string;
  ae_UserAgent : string;
  ae_ErrorCode : string }.

Definition authorizationAuditScope (resource : Resource) (resolved : resolvedAuthorizationResource)
    : RoleScopeType * string :=
  match r_Type resource with
  | ResourceInstitution | ResourceUser => (RoleScopeInstitution, ra_institutionID resolved)
  | ResourceAcademicUnit => (RoleScopeAcademicUnit, r_ID resource)
  | ResourceAcademicPeriod =>
      if ra_targetAcademicUnitID resolved ==? "" then (RoleScopeInstitution, ra_institutionID resolved)
      else (RoleScopeAcademicUnit, ra_targetAcademicUnitID resolved)
  | ResourceProgramme | ResourceProgrammeLevel | ResourceExam | ResourceExamSitting | ResourceSubmission =>
      (RoleScopeAcademicUnit, ra_targetAcademicUnitID resolved)
  | ResourceClass => (RoleScopeClass, r_ID resource)
  | ResourceMailDelivery | ResourceType_other _ => (RoleScopeType_other "", "")
  end.

(** The durable log of decisions; [Save] appends to it or fails. *)
Definition AuditLog : Type := list AuditEvent.
Record Auditor := mkAuditor {
  NodeID : string;
  Audits_Save : option (AuditEvent → AuditLog → result AuditLog) }.

(** Computations over the log: a failure keeps what was recorded before it. *)
Definition Audited (A : Type) : Type := AuditLog → AuditLog * result A.
#[export] Instance audited_ret : MRet Audited := λ A a log, (log, Ok a).
#[export] Instance audited_bind : MBind Audited := λ A B f m log,
  match m log with
  | (log', Ok a) => f a log'
  | (log', Err e) => (log', Err e)
  end.
#[export] Instance audited_throw : MThrow error Audited := λ A e log, (log, Err e).
Definition reads {A} (r : result A) : Audited A := λ log, (log, r).

Section audited.
Context (st : Stores) (now : Time) (audit : Auditor).

Definition decision_event (principal : Principal) (action : string) (resource : Resource)
    (scopeType : RoleScopeType) (scopeID : string) (metadata : RequestMetadata) (allowed : bool) : AuditEvent :=
  mkAuditEvent (p_UserID principal) (p_SessionID principal) action resource scopeType scopeID
    (if allowed then AuditStatusSuccess else AuditStatusFail) (rm_RequestID metadata) (NodeID audit)
    (p_ClientType principal) (p_AuthenticationMethod principal) (rm_IPAddress metadata) (rm_UserAgent metadata)
    (if allowed then "" else "authorization.denied").

Definition recordDecision (principal : Principal) (action : string) (resource : Resource)
    (scopeType : RoleScopeType) (scopeID : string) (metadata : RequestMetadata) (allowed : bool) : Audited unit :=
  λ log,
    match Audits_Save audit with
    | None => (log, Err (Wrap (New "authorization.unavailable") (StoreError ErrNotFound "audit_store" "" None)))
    | Some save =>
        match save (decision_event principal action resource scopeType scopeID metadata allowed) log with
        | Ok log' => (log', Ok tt)
        | Err e => (log, Err (Wrap (New "authorization.unavailable") e))
        end
    end.
Definition RecordAuthorizationDecision := recordDecision.

Definition authorizeCurrentStateWithScope (principal : Principal) (action : Action) (resource : Resource)
    (metadata : RequestMetadata) : Audited (RoleScopeType * string) :=
  '(allowed, resolved) ← reads (evaluate st now principal action resource);
  let '(scopeType, scopeID) := authorizationAuditScope resource resolved in
  _ ← RecordAuthorizationDecision principal action resource scopeType scopeID metadata allowed;
  fail_if negb allowed with authorizationDeniedError ;;
  mret (scopeType, scopeID).

Definition authorizeCurrentState (principal : Principal) (action : Action) (resource : Resource)
    (metadata : RequestMetadata) : Audited unit :=
  _ ← authorizeCurrentStateWithScope principal action resource metadata; mret tt.
Definition Authorize (invocation : Invocation) (action : Action) (resource : Resource) : Audited unit :=
  authorizeCurrentState (iv_Principal invocation) action resource (iv_Metadata invocation).
Definition AuthorizeWithScope (invocation : Invocation) (action : Action) (resource : Resource)
    : Audited (RoleScopeType * string) :=
  authorizeCurrentStateWithScope (iv_Principal invocation) action resource (iv_Metadata invocation).

Definition RecordDenial (invocation : Invocation) (action : Action) (resource : Resource) (unitID : ID)
    : Audited unit :=
  RecordAuthorizationDecision (iv_Principal invocation) action resource RoleScopeAcademicUnit unitID
    (iv_Metadata invocation) false.

(** A denial recorded against the institution. *)
Definition deny_at_institution (invocation : Invocation) (action : Action) : Audited unit :=
  institution ← reads (or_else (authorizationResourceError "institution") (Institutions_GetSingleton st));
  _ ← RecordAuthorizationDecision (iv_Principal invocation) action
        (mkResource ResourceInstitution (in_ID institution)) RoleScopeInstitution (in_ID institution)
        (iv_Metadata invocation) false;
  mthrow authorizationDeniedError.

Definition any_scope (constraint : authorizedScopeConstraint) : bool :=
  sc_InstitutionWide constraint || (0 <? length (sc_AcademicUnitRootIDs constraint))%nat
  || (0 <? length (sc_ClassIDs constraint))%nat.

Definition AuthorizePreflight (invocation : Invocation) (action : Action) (resourceType : ResourceType)
    : Audited unit :=
  constraint ← reads (authorizedScopes st now (iv_Principal invocation) action resourceType);
  if any_scope constraint then mret tt else deny_at_institution invocation action.
Definition authorizeRoleBindingPreflight (invocation : Invocation) (action : Action) : Audited unit :=
  constraint ← reads (authorizedScopes st now (iv_Principal invocation) action ResourceInstitution);
  if any_scope constraint then mret tt else deny_at_institution invocation action.

Definition authorizeRoleBindingScope (invocation : Invocation) (action : Action) (scopeType : RoleScopeType)
    (scopeID : string) : Audited Resource :=
  resource ← reads (roleScopeResource scopeType scopeID);
  _ ← Authorize invocation action resource;
  mret resource.

Definition authorizeAcademicPeriodPreflight (invocation : Invocation) (action : Action) (resource : Resource)
    : Audited unit :=
  fail_if (r_Type resource !=? ResourceAcademicPeriod) || negb (is_ok (Resource_Validate resource))
    with request_invalid ;;
  '(allowed, resolved) ← reads (academicPeriodCoarseAuthority st now (iv_Principal invocation) action);
  if (allowed : bool) then mret tt
  else
    _ ← RecordAuthorizationDecision (iv_Principal invocation) action resource RoleScopeInstitution
          (ra_institutionID resolved) (iv_Metadata invocation) false;
    mthrow authorizationDeniedError.

Definition authorizeUserAccountState (invocation : Invocation) (userID : string) : Audited unit :=
  let principal := iv_Principal invocation in
  let resource := mkResource ResourceUser userID in
  fail_if negb (is_ok (Principal_Validate principal)) with invalidTokenAppError ;;
  match DefinitionForAction ActionUserManage with
  | None => mthrow request_invalid
  | Some definition =>
      fail_if negb (is_ok (Resource_Validate resource)) || negb (AcceptsResource definition ResourceUser)
        with request_invalid ;;
      user ← reads (or_else (authorizationResourceError "user") (Users_Get st userID));
      fail_if ot_Valid (us_ArchivedAt user) with not_found "user" ;;
      institutionID ← reads (singleton_institution st);
      let resolved := unresolved <| ra_institutionID := institutionID |> in
      allowed ← reads (evaluateResolved st now principal ActionUserManage resource definition resolved);
      _ ← RecordAuthorizationDecision principal ActionUserManage resource RoleScopeInstitution institutionID
            (iv_Metadata invocation) allowed;
      fail_if negb allowed with authorizationDeniedError ;;
      mret tt
  end.

Definition AuthorizeAcademicPeriodList (invocation : Invocation) : Audited (ID * bool * list ID) :=
  let principal := iv_Principal invocation in
  constraint ← reads (authorizedScopes st now principal ActionAcademicPeriodView ResourceAcademicPeriod);
  institution ← reads (or_else (authorizationResourceError "institution") (Institutions_GetSingleton st));
  let allowed := sc_InstitutionWide constraint || (0 <? length (sc_AcademicUnitRootIDs constraint))%nat in
  _ ← RecordAuthorizationDecision principal ActionAcademicPeriodView
        (mkResource ResourceInstitution (in_ID institution)) RoleScopeInstitution (in_ID institution)
        (iv_Metadata invocation) allowed;
  fail_if negb allowed with authorizationDeniedError ;;
  mret (in_ID institution, sc_InstitutionWide constraint, sc_AcademicUnitRootIDs constraint).

(** *** User visibility *)

Record UserVisibilityScope := mkUserVisibility {
  uv_InstitutionWide : bool;
  uv_AcademicUnitRootIDs : list ID;
  uv_ClassMemberInstitutionWide : bool;
  uv_ClassMemberAcademicUnitRootIDs : list ID;
  uv_ClassIDs : list ID;
  uv_ActiveAt : Time }.

Definition userVisibilityScope (principal : Principal) : result UserVisibilityScope :=
  let decisionAt := TimeUTC now in
  userScope ← authorizedScopesAt st principal ActionUserView ResourceUser decisionAt;
  classScope ← authorizedScopesAt st principal ActionClassMembersView ResourceClass decisionAt;
  Ok (mkUserVisibility (sc_InstitutionWide userScope) (sc_AcademicUnitRootIDs userScope)
        (sc_InstitutionWide classScope) (sc_AcademicUnitRootIDs classScope) (sc_ClassIDs classScope) decisionAt).

Definition ActionUserSearch : string := "user.search".
Definition RecordUserSearchDecision (principal : Principal) := recordDecision principal ActionUserSearch.

Definition authorizeUserSearch (invocation : Invocation) : Audited UserVisibilityScope :=
  let principal := iv_Principal invocation in
  visibility ← reads (userVisibilityScope principal);
  institution ← reads (or_else (authorizationResourceError "institution") (Institutions_GetSingleton st));
  let some (ids : list ID) := (0 <? length ids)%nat in
  let allowed := uv_InstitutionWide visibility || uv_ClassMemberInstitutionWide visibility
                 || some (uv_ClassIDs visibility) || some (uv_AcademicUnitRootIDs visibility)
                 || some (uv_ClassMemberAcademicUnitRootIDs visibility) in
  let '(scopeType, scopeID) :=
    match uv_AcademicUnitRootIDs visibility, uv_ClassMemberAcademicUnitRootIDs visibility, uv_ClassIDs visibility with
    | root :: _, _, _ => (RoleScopeAcademicUnit, root)
    | [], root :: _, _ => (RoleScopeAcademicUnit, root)
    | [], [], class :: _ => (RoleScopeClass, class)
    | [], [], [] => (RoleScopeInstitution, in_ID institution)
    end in
  _ ← RecordUserSearchDecision principal (mkResource ResourceInstitution (in_ID institution)) scopeType scopeID
        (iv_Metadata invocation) allowed;
  fail_if negb allowed with authorizationDeniedError ;;
  mret visibility.

(** The match of a user against a visibility scope is a query of the user store. *)
Context (Users_MatchVisibility : ID → UserVisibilityScope → result (RoleScopeType * string)).

Definition authorizeUserRead (invocation : Invocation) (userID : string) : Audited bool :=
  let principal := iv_Principal invocation in
  let userResource := mkResource ResourceUser userID in
  visibility ← reads (userVisibilityScope principal);
  if uv_InstitutionWide visibility then
    _ ← authorizeCurrentState principal ActionUserView userResource (iv_Metadata invocation);
    mret true
  else
    let some (ids : list ID) := (0 <? length ids)%nat in
    scope ← reads (
      if uv_ClassMemberInstitutionWide visibility || some (uv_AcademicUnitRootIDs visibility)
         || some (uv_ClassMemberAcademicUnitRootIDs visibility) || some (uv_ClassIDs visibility)
      then or_else authorizationUnavailableError (Users_MatchVisibility userID visibility)
      else Ok (RoleScopeType_other "", ""));
    let allowed := ((fst scope ==? RoleScopeAcademicUnit) || (fst scope ==? RoleScopeClass))
                   && IsValidOpaqueID (snd scope) in
    institution ← reads (or_else (authorizationResourceError "institution") (Institutions_GetSingleton st));
    let '(scopeType, scopeID) := if allowed then scope else (RoleScopeInstitution, in_ID institution) in
    _ ← RecordAuthorizationDecision principal ActionUserView userResource scopeType scopeID
          (iv_Metadata invocation) allowed;
    fail_if negb allowed with authorizationDeniedError ;;
    mret false.

End audited.
