(* ===== verification/AccessTheorems.v ===== *)
(** * Access control is sound

    The contract the stores owe access control ([StoreLaws]), and the theorems proved
    against it: list constraints agree with point decisions, delegation never grants
    what the delegator lacks, and every decision is audited before it takes effect. *)

From S2P Require Import Prelude GoTime GoStrings Ident ModelError AppErrors Actions Roles DesktopRelease Principal AccessControl.

(** ** The contract of the stores *)

(** One installation holds one institution, reads by identifier return the entity of
    that identifier, and the ancestors of a unit include those of each of them. *)
Class StoreLaws (st : Stores) (institution : ID) : Prop := {
  law_get : ∀ id i, Institutions_Get st id = Ok i → in_ID i = id ∧ id = institution;
  law_singleton : ∀ i, Institutions_GetSingleton st = Ok i → in_ID i = institution;
  law_unit : ∀ id units, AcademicUnits_ListAncestors st id = Ok units →
    Forall (λ u, au_InstitutionID u = institution) units;
  law_closed : ∀ id units u units', AcademicUnits_ListAncestors st id = Ok units → u ∈ units →
    AcademicUnits_ListAncestors st (au_ID u) = Ok units' → map au_ID units' ⊆ map au_ID units }.

(** ** Inversion *)

Ltac inv_ok H :=
  cbv beta zeta in H;
  repeat (lazymatch type of H with
  | (if _ then mthrow _ else _) = Ok _ => apply ok_fail_if in H as [? H]
  | (_ ≫= _) = Ok _ => apply ok_bind in H; open_step H
  | mthrow _ = Ok _ => discriminate H
  | Ok _ = Ok _ => apply ok_inj in H
  end; cbv beta zeta in H).

Lemma ok_or_else {A} f (r : result A) a : or_else f r = Ok a ↔ r = Ok a.
Proof. by destruct r. Qed.

(** ** Resolution *)

Section resolution.
Context (st : Stores) (institution : ID) `{!StoreLaws st institution}.

(** What a resolved resource is: of the institution, and within the ancestors of one
    unit or of none. *)
Definition resolved_in (res : resolvedAuthorizationResource) (owner : option ID) : Prop :=
  ra_institutionID res = institution ∧
  match owner with
  | None => ra_academicUnitID res = ∅
  | Some id => ∃ units, AcademicUnits_ListAncestors st id = Ok units ∧
                 ra_academicUnitID res = list_to_set (map au_ID units)
  end.

Lemma apply_units_spec units label res res' :
  apply_units units label res = Ok res' →
  res' = res <| ra_academicUnitID := list_to_set (map au_ID units) ∪ ra_academicUnitID res |>.
Proof.
  revert res. induction units as [|u units IH]; intros res H; cbn [apply_units] in H.
  - inv_ok H. subst. destruct res'. cbn. f_equal. set_solver.
  - inv_ok H. apply IH in H as ->. cbn. f_equal. set_solver.
Qed.

Lemma applyScopeAncestors_spec res units id target label res' :
  AcademicUnits_ListAncestors st id = Ok units → units ≠ [] → ra_academicUnitID res = ∅ →
  applyScopeAncestors res units target label = Ok res' →
  resolved_in res' (Some id) ∧ ra_classID res' = ra_classID res ∧ ra_targetAcademicUnitID res' = target.
Proof.
  intros Hu Hne Hempty H. apply apply_units_spec in H as ->. cbn. split; [|done]. split; cbn.
  - pose proof (law_unit _ _ Hu) as Hall. destruct units as [|u units]; [done|]. by inv Hall.
  - exists units. split; [done|]. rewrite Hempty. set_solver.
Qed.

Lemma listScopeAncestors_spec id l1 l2 units :
  listScopeAncestors st id l1 l2 = Ok units → AcademicUnits_ListAncestors st id = Ok units ∧ units ≠ [].
Proof.
  unfold listScopeAncestors. intros H. inv_ok H. rename H1 into Hl. subst. apply ok_or_else in H0. split; [done|].
  intros ->. done.
Qed.

Lemma resolveAcademicUnitScope_spec id l1 l2 res :
  resolveAcademicUnitScope st unresolved id l1 l2 = Ok res → resolved_in res (Some id).
Proof.
  unfold resolveAcademicUnitScope. intros H. inv_ok H. apply listScopeAncestors_spec in H0 as [Hu Hne].
  by eapply applyScopeAncestors_spec in H as (? & _).
Qed.

Lemma resolve_institution_spec id res :
  resolve st (mkResource ResourceInstitution id) = Ok res → resolved_in res None ∧ id = institution.
Proof.
  cbn. unfold resolveInstitution. intros H. inv_ok H. subst. apply ok_or_else, law_get in H0 as [Hi ->].
  by rewrite <-Hi.
Qed.

Lemma resolve_unit_spec id res :
  resolve st (mkResource ResourceAcademicUnit id) = Ok res → resolved_in res (Some id).
Proof.
  cbn. unfold resolveAcademicUnit. intros H. inv_ok H. apply ok_or_else in H0.
  eapply applyScopeAncestors_spec in H as (? & _); [done|done| |done]. by intros ->.
Qed.

Lemma resolve_class_spec id res :
  resolve st (mkResource ResourceClass id) = Ok res → ∃ owner, resolved_in res (Some owner) ∧ ra_classID res = id.
Proof.
  cbn. unfold resolveClass. intros H. inv_ok H. subst.
  match goal with Hl : listScopeAncestors _ _ _ _ = _ |- _ => apply listScopeAncestors_spec in Hl as [Hu Hne] end.
  match goal with Ha : applyScopeAncestors _ _ _ _ = _ |- _ => eapply applyScopeAncestors_spec in Ha as (? & ? & _) end;
    eauto.
Qed.

Lemma singleton_spec id : singleton_institution st = Ok id → id = institution.
Proof.
  unfold singleton_institution. intros H. inv_ok H. subst. by apply ok_or_else, law_singleton in H0.
Qed.

Lemma resolve_period_spec id res :
  resolveAcademicPeriod st id = Ok res → ∃ owner, resolved_in res owner.
Proof.
  unfold resolveAcademicPeriod. intros H. inv_ok H. destruct v as [period|]; [|done]. inv_ok H.
  destruct (ID_IsValid _); [|apply resolveAcademicUnitScope_spec in H; by eexists].
  inv_ok H. subst. exists None. split; [|done]. cbn.
  match goal with Hi : or_else _ (Institutions_Get _ _) = _ |- _ => apply ok_or_else, law_get in Hi as [-> ->] end. done.
Qed.

(** Every resource resolves within the institution and the ancestors of at most one
    unit; a class to itself. *)
Lemma resolve_spec resource res :
  resolve st resource = Ok res →
  (∃ owner, resolved_in res owner) ∧ (r_Type resource = ResourceClass → ra_classID res = r_ID resource).
Proof.
  destruct resource as [ty id]. destruct ty; cbn [r_Type r_ID]; intros H.
  - apply resolve_institution_spec in H as [? _]. split; [by eexists|done].
  - apply resolve_unit_spec in H. split; [by eexists|done].
  - split; [|done]. cbn in H. unfold resolveProgramme in H. destruct (Programmes_Get st); [|done]. inv_ok H.
    apply resolveAcademicUnitScope_spec in H. by eexists.
  - split; [|done]. cbn in H. unfold resolveProgrammeLevel in H.
    destruct (ProgrammeLevels_Get st), (Programmes_Get st); try done. inv_ok H. destruct v as [level|]; [|done].
    inv_ok H. apply resolveAcademicUnitScope_spec in H. by eexists.
  - split; [|done]. by apply (resolve_period_spec id).
  - apply resolve_class_spec in H as (owner & ? & ?). split; [by eexists|done].
  - split; [|done]. cbn in H. unfold resolveUser in H. inv_ok H. subst. exists None. split; [|done]. cbn.
    by apply singleton_spec.
  - split; [|done]. cbn in H. unfold resolveExam in H. inv_ok H. apply resolveAcademicUnitScope_spec in H. by eexists.
  - split; [|done]. cbn in H. unfold resolveExamSitting in H. inv_ok H. destruct v as [examID|]; [|done]. inv_ok H.
    apply resolveAcademicUnitScope_spec in H. by eexists.
  - split; [|done]. cbn in H. unfold resolveSubmission in H. inv_ok H. destruct v0 as [o|]; [|done]. inv_ok H.
    apply resolveAcademicUnitScope_spec in H. by eexists.
  - done.
  - done.
Qed.

(** Ancestry is transitive across resolved resources. *)
Lemma resolved_closed res owner unit target root :
  resolved_in res owner → resolve st (mkResource ResourceAcademicUnit unit) = Ok target →
  unit ∈ ra_academicUnitID res → root ∈ ra_academicUnitID target → root ∈ ra_academicUnitID res.
Proof.
  intros [_ Hres] [_ (units' & Hu' & Ht)]%resolve_unit_spec Hunit Hroot.
  destruct owner as [id|]; [|set_solver]. destruct Hres as (units & Hu & Hres). rewrite Hres, Ht in *.
  rewrite elem_of_list_to_set in *. apply list_elem_of_fmap in Hunit as (u & -> & Hin).
  by apply (law_closed id units u units').
Qed.
End resolution.

(** ** The bindings that grant an action *)

(** Both readings of the roles, the permission sets of a decision and the flags of a
    constraint, agree on which roles grant. *)
Lemma grants_agree action roles id :
  bool_decide (action ∈ default ∅ (permissions_by_role roles !! id)) =
  default false (foldl (λ (m : gmap ID bool) role,
                          <[ro_ID role := existsb (λ p, p ==? action) (ro_Permissions role)]> m) ∅ roles !! id).
Proof.
  unfold permissions_by_role.
  enough (∀ (m1 : gmap ID (gset string)) (m2 : gmap ID bool),
    (∀ i, bool_decide (action ∈ default ∅ (m1 !! i)) = default false (m2 !! i)) →
    bool_decide (action ∈ default ∅ (foldl (λ m role, <[ro_ID role := list_to_set (ro_Permissions role)]> m) m1 roles !! id)) =
    default false (foldl (λ m role, <[ro_ID role := existsb (λ p, p ==? action) (ro_Permissions role)]> m) m2 roles !! id)) as H.
  { apply H. intros i. by rewrite !lookup_empty. }
  induction roles as [|role roles IH]; intros m1 m2 Hm; cbn [foldl]; [done|]. apply IH. intros i.
  destruct (decide (i = ro_ID role)) as [->|]; [|by rewrite !lookup_insert_ne].
  rewrite !lookup_insert_eq. cbn.
  destruct (existsb _ _) eqn:E.
  - apply bool_decide_eq_true. apply existsb_exists in E as (p & Hp & E). to_prop. subst.
    apply elem_of_list_to_set. by apply list_elem_of_In.
  - apply bool_decide_eq_false. intros Hin%elem_of_list_to_set%list_elem_of_In.
    assert (existsb (λ p, p ==? action) (ro_Permissions role) = true); [|congruence].
    apply existsb_exists. exists action. split; [done|]. by apply bool_decide_eq_true.
Qed.

Section grants.
Context (st : Stores) (now : Time) (principal : Principal) (action : Action).

Definition granting : result (list RoleBinding) :=
  bindings ← or_else authorizationUnavailableError (Bindings_ListActiveByUser st (p_UserID principal) (TimeUTC now));
  roles ← or_else authorizationUnavailableError (Roles_GetByIDs st (role_ids ∅ bindings));
  Ok (filter (λ b, action ∈ default ∅ (permissions_by_role roles !! rb_RoleID b)) bindings).

(** What each kind of binding contributes under a definition. *)
Definition institution_scope (d : ActionDefinition) (b : RoleBinding) : Prop :=
  rb_ScopeType b = RoleScopeInstitution ∧ ad_InheritInstitutionScope d = true.
Definition unit_scope (d : ActionDefinition) (b : RoleBinding) : Prop :=
  rb_ScopeType b = RoleScopeAcademicUnit ∧ ad_InheritAcademicUnitScopes d = true.
Definition class_scope (d : ActionDefinition) (b : RoleBinding) : Prop :=
  rb_ScopeType b = RoleScopeClass ∧ AcceptsResource d ResourceClass = true.

Lemma existsb_filter {A} (P : A → Prop) `{∀ a, Decision (P a)} (f : A → bool) l :
  existsb (λ a, f a && bool_decide (P a)) l = existsb f (filter P l).
Proof.
  induction l as [|a l IH]; [done|]. cbn [existsb]. rewrite IH. destruct (decide (P a)) as [HP|HP].
  - rewrite filter_cons_True by done. by rewrite (bool_decide_true _ HP), andb_true_r.
  - rewrite filter_cons_False by done. by rewrite (bool_decide_false _ HP), andb_false_r.
Qed.

Lemma evaluateResolved_granting resource d res :
  evaluateResolved st now principal action resource d res =
  if (p_CredentialType principal ==? CredentialPersonalAccessToken)
     && negb (personalAccessTokenAllows principal action resource res) then Ok false
  else if self_service principal action resource then Ok true
  else gs ← granting; Ok (existsb (λ b, roleBindingApplies b d resource res) gs).
Proof.
  unfold evaluateResolved, granting. destruct (_ && _); [done|]. destruct (self_service _ _ _); [done|].
  destruct (Bindings_ListActiveByUser _ _ _) as [bindings|]; [|done]. cbn.
  destruct (Roles_GetByIDs _ _) as [roles|]; [|done]. cbn. f_equal. apply existsb_filter.
Qed.

Context (institution : ID) `{!StoreLaws st institution}.

Definition contributes (d : ActionDefinition) (gs : list RoleBinding) (acc acc' : Scopes) : Prop :=
  (sp_InstitutionWide acc' = true ↔ sp_InstitutionWide acc = true ∨ ∃ b, b ∈ gs ∧ institution_scope d b) ∧
  (∀ u, u ∈ sp_unitRoots acc' ↔ u ∈ sp_unitRoots acc ∨ ∃ b, b ∈ gs ∧ unit_scope d b ∧ rb_ScopeID b = u) ∧
  (∀ c, c ∈ sp_classIDs acc' ↔ c ∈ sp_classIDs acc ∨ ∃ b, b ∈ gs ∧ class_scope d b ∧ rb_ScopeID b = c) ∧
  (∀ b, b ∈ gs → institution_scope d b → rb_ScopeID b = institution).

Lemma ex_singleton {A} (P : A → Prop) a : (∃ x, x ∈ [a] ∧ P x) ↔ P a.
Proof. setoid_rewrite list_elem_of_singleton. naive_solver. Qed.

Lemma accumulateBindingScope_spec d b acc acc' :
  p_AcademicUnitID principal = "" →
  accumulateBindingScope st principal d b acc = Ok acc' → contributes d [b] acc acc'.
Proof.
  intros Hceiling H. unfold accumulateBindingScope, ID_IsZero in H. rewrite Hceiling in H.
  unfold contributes. setoid_rewrite ex_singleton. setoid_rewrite list_elem_of_singleton.
  assert (Hb : (∀ x, x = b → institution_scope d x → rb_ScopeID x = institution) ↔
               (institution_scope d b → rb_ScopeID b = institution)) by naive_solver.
  rewrite Hb. clear Hb. unfold institution_scope, unit_scope, class_scope. destruct (rb_ScopeType b) eqn:Et.
  - destruct (ad_InheritInstitutionScope d) eqn:Ed; cbn [negb] in H; inv_ok H; subst; [|intuition congruence].
    apply (resolve_institution_spec st institution) in H0 as [_ Hid]. cbn. intuition congruence.
  - destruct (ad_InheritAcademicUnitScopes d) eqn:Ed; cbn [negb] in H; inv_ok H; subst; [|intuition congruence].
    change ("" !=? "") with false in H. cbn [andb] in H. inv_ok H. subst. cbn. setoid_rewrite elem_of_union. setoid_rewrite elem_of_singleton. intuition congruence.
  - destruct (AcceptsResource d ResourceClass) eqn:Ed; cbn [negb] in H; inv_ok H; subst; [|intuition congruence].
    change ("" !=? "") with false in H. cbn [andb] in H. inv_ok H. subst. cbn. setoid_rewrite elem_of_union. setoid_rewrite elem_of_singleton. intuition congruence.
  - inv_ok H. subst. intuition congruence.
Qed.

Lemma contributes_cons d b gs acc acc' acc'' :
  contributes d [b] acc acc' → contributes d gs acc' acc'' → contributes d (b :: gs) acc acc''.
Proof.
  intros (W & U & C & I) (W' & U' & C' & I'). unfold contributes. setoid_rewrite elem_of_cons.
  setoid_rewrite list_elem_of_singleton in W. setoid_rewrite list_elem_of_singleton in U.
  setoid_rewrite list_elem_of_singleton in C. setoid_rewrite list_elem_of_singleton in I.
  split_and!; [rewrite W', W; clear|intros u; rewrite U', U; clear|intros c; rewrite C', C; clear|clear - I I']; naive_solver.
Qed.
Lemma contributes_nil d acc : contributes d [] acc acc.
Proof. unfold contributes. setoid_rewrite elem_of_nil. naive_solver. Qed.

Lemma accumulate_spec d grants bindings acc acc' :
  p_AcademicUnitID principal = "" →
  accumulate st principal d grants bindings acc = Ok acc' →
  contributes d (filter (λ b, default false (grants !! rb_RoleID b) = true) bindings) acc acc'.
Proof.
  intros Hceiling. revert acc. induction bindings as [|b bindings IH]; intros acc H; cbn [accumulate] in H.
  { inv_ok H. subst. apply contributes_nil. }
  destruct (default false (grants !! rb_RoleID b)) eqn:Eg; cbn [negb] in H.
  - rewrite filter_cons_True by done. inv_ok H. eapply contributes_cons; [by apply accumulateBindingScope_spec|by apply IH].
  - rewrite filter_cons_False by congruence. by apply IH.
Qed.

Lemma sorted_ids_spec (s : gset ID) id : id ∈ sorted_ids s ↔ id ∈ s.
Proof. unfold sorted_ids. by rewrite merge_sort_Permutation, elem_of_elements. Qed.

(** The constraint of a session principal holds the scopes of its granting bindings. *)
Lemma authorizedScopes_spec ty c :
  p_CredentialType principal ≠ CredentialPersonalAccessToken →
  authorizedScopes st now principal action ty = Ok c →
  ∃ d gs, DefinitionForAction action = Some d ∧ AcceptsResource d ty = true ∧ granting = Ok gs ∧
    (sc_InstitutionWide c = true ↔ ∃ b, b ∈ gs ∧ institution_scope d b) ∧
    (∀ u, u ∈ sc_AcademicUnitRootIDs c ↔ ∃ b, b ∈ gs ∧ unit_scope d b ∧ rb_ScopeID b = u) ∧
    (∀ k, k ∈ sc_ClassIDs c ↔ ∃ b, b ∈ gs ∧ class_scope d b ∧ rb_ScopeID b = k) ∧
    (∀ b, b ∈ gs → institution_scope d b → rb_ScopeID b = institution).
Proof.
  intros Hcred H. unfold authorizedScopes, authorizedScopesAt in H. apply ok_fail_if in H as [Hp H].
  apply negb_false_iff in Hp. destruct (Principal_Validate principal) as [[]|] eqn:Ep; [|done].
  destruct (session_unbounded _ Ep Hcred) as (_ & Hceiling & _).
  destruct (DefinitionForAction action) as [d|]; [|done]. apply ok_fail_if in H as [Ha H]. apply negb_false_iff in Ha.
  rewrite (bool_decide_false _ Hcred) in H. cbn [andb] in H. inv_ok H. destruct v as [bindings grants]. inv_ok H. subst.
  unfold activeBindingGrants in H0. inv_ok H0. simplify_eq.
  apply accumulate_spec in H1 as (W & U & C & I); [|done].
  match goal with Hr : or_else _ (Roles_GetByIDs _ _) = Ok ?rs |- _ => rename rs into roles; rename Hr into Hroles end.
  match goal with Hb : or_else _ (Bindings_ListActiveByUser _ _ _) = _ |- _ => rename Hb into Hbindings end.
  assert (Hg : granting = Ok (filter (λ b, default false (foldl (λ (m : gmap ID bool) role,
      <[ro_ID role := existsb (λ p, p ==? action) (ro_Permissions role)]> m) ∅ roles !! rb_RoleID b) = true) bindings)).
  { unfold granting. rewrite Hbindings. cbn [mbind result_bind]. rewrite Hroles. cbn [mbind result_bind]. f_equal.
    apply list_filter_iff. intros b. rewrite <-grants_agree. by rewrite bool_decide_eq_true. }
  eexists _, _. split; [done|]. split; [done|]. split; [exact Hg|]. cbn. setoid_rewrite sorted_ids_spec. rewrite W.
  setoid_rewrite U. setoid_rewrite C. setoid_rewrite elem_of_empty. split; [split; [by intros [|]|by right]|].
  split; [intros u; split; [by intros [|]|by right]|]. split; [intros k; split; [by intros [|]|by right]|done].
Qed.
End grants.

(** ** Lists agree with decisions *)

(** The resources a constraint admits, as list queries apply it. *)
Definition covers (c : authorizedScopeConstraint) (action : Action) (resource : Resource)
    (res : resolvedAuthorizationResource) : Prop :=
  sc_InstitutionWide c = true ∨
  (if (r_Type resource ==? ResourceAcademicPeriod) && ra_academicPeriodInstitutionOwned res
   then action = ActionAcademicPeriodView ∧ sc_AcademicUnitRootIDs c ≠ []
   else ∃ root, root ∈ sc_AcademicUnitRootIDs c ∧ root ∈ ra_academicUnitID res) ∨
  (r_Type resource = ResourceClass ∧ r_ID resource ∈ sc_ClassIDs c).

Section decisions.
Context (st : Stores) (institution : ID) `{!StoreLaws st institution} (now : Time) (principal : Principal).
Context (Hsession : p_CredentialType principal ≠ CredentialPersonalAccessToken).

Lemma applies_covers action d gs c resource res ty :
  authorizedScopes st now principal action ty = Ok c → DefinitionForAction action = Some d →
  granting st now principal action = Ok gs → resolve st resource = Ok res →
  AcceptsResource d (r_Type resource) = true →
  existsb (λ b, roleBindingApplies b d resource res) gs = true ↔ covers c action resource res.
Proof.
  intros Hc Hd Hg Hres Hacc. apply (authorizedScopes_spec st now principal action institution) in Hc
    as (d' & gs' & Hd' & _ & Hg' & W & U & C & I); [|done].
  assert (d' = d) as -> by congruence. assert (gs' = gs) as -> by congruence.
  pose proof (DefinitionForAction_row _ _ Hd) as [Haction _].
  apply (resolve_spec st institution) in Hres as [(owner & Hinst & _) Hclass].
  rewrite existsb_exists. unfold covers. rewrite W. setoid_rewrite <-list_elem_of_In. split.
  - intros (b & Hb & Happ). unfold roleBindingApplies in Happ. destruct (rb_ScopeType b) eqn:Et; [..|done].
    + to_prop. destruct Happ as [Ed _]. left. exists b. split; [done|by split].
    + right. left. destruct (ad_InheritAcademicUnitScopes d) eqn:Ed; [|done]. cbn [negb] in Happ.
      assert (Hroot : rb_ScopeID b ∈ sc_AcademicUnitRootIDs c) by (apply U; exists b; split_and!; try done; by split).
      destruct (_ && _) eqn:Ep.
      * to_prop. split; [congruence|]. intros E. rewrite E in Hroot. by apply elem_of_nil in Hroot.
      * to_prop. by exists (rb_ScopeID b).
    + to_prop. destruct Happ as [Ht Hid]. right. right. split; [done|]. rewrite <-(Hclass Ht), <-Hid.
      apply C. exists b. split_and!; try done. split; [done|]. by rewrite <-Ht.
  - intros [(b & Hb & [Et Ed])|[Hunit|[Ht Hin]]].
    + exists b. split; [done|]. unfold roleBindingApplies. rewrite Et, Ed. apply bool_decide_eq_true.
      rewrite Hinst. by apply I.
    + destruct (_ && _) eqn:Ep.
      * destruct Hunit as [-> Hne]. destruct (sc_AcademicUnitRootIDs c) as [|root roots] eqn:Er; [done|].
        destruct (proj1 (U root) (list_elem_of_here _ _)) as (b & Hb & [Et Ed] & _). exists b. split; [done|].
        unfold roleBindingApplies. rewrite Et, Ed, Ep. cbn [negb]. by apply bool_decide_eq_true.
      * destruct Hunit as (root & (b & Hb & [Et Ed] & <-)%U & Hin). exists b. split; [done|].
        unfold roleBindingApplies. rewrite Et, Ed, Ep. cbn [negb]. by apply bool_decide_eq_true.
    + apply C in Hin as (b & Hb & [Et _] & Hid). exists b. split; [done|]. unfold roleBindingApplies.
      rewrite Et, Ht, (Hclass Ht), Hid. by rewrite !bool_decide_true.
Qed.

(** A constraint does not depend on which of the accepted resource types it is for. *)
Lemma authorizedScopes_type action d ty ty' c :
  DefinitionForAction action = Some d → AcceptsResource d ty' = true →
  authorizedScopes st now principal action ty = Ok c → authorizedScopes st now principal action ty' = Ok c.
Proof.
  unfold authorizedScopes, authorizedScopesAt. intros -> ->. destruct (negb (is_ok _)); [done|].
  by destruct (negb (AcceptsResource d ty)).
Qed.

(** Unless it concerns the principal itself, a decision is what the constraint covers. *)
Lemma Can_covers action d c resource res :
  authorizedScopes st now principal action (r_Type resource) = Ok c →
  DefinitionForAction action = Some d → ad_RelationshipOnly d = false →
  Resource_Validate resource = Ok tt → resolve st resource = Ok res →
  self_service principal action resource = false →
  Can st now principal action resource = Ok true ↔ covers c action resource res.
Proof.
  intros Hc Hd Hrel Hvalid Hres Hself.
  destruct (authorizedScopes_spec st now principal action institution _ _ Hsession Hc)
    as (d' & gs & Hd' & Hacc & Hg & _). assert (d' = d) as -> by congruence.
  rewrite <-(applies_covers action d gs c resource res _ Hc Hd Hg Hres Hacc).
  assert (Hp : is_ok (Principal_Validate principal) = true).
  { unfold authorizedScopes, authorizedScopesAt in Hc. by apply ok_fail_if in Hc as [Hp%negb_false_iff _]. }
  assert (Hdec : (resolved ← resolve st resource;
                  allowed ← evaluateResolved st now principal action resource d resolved;
                  Ok (allowed, resolved)) = Ok (existsb (λ b, roleBindingApplies b d resource res) gs, res)).
  { rewrite Hres. cbn [mbind result_bind]. rewrite evaluateResolved_granting, (bool_decide_false _ Hsession), Hself, Hg.
    done. }
  unfold Can, evaluate. rewrite Hp, Hd, Hvalid, Hacc, Hrel, (bool_decide_false _ Hsession). cbn [negb orb andb is_ok].
  rewrite Hdec. case_bool_decide as Ht; [|cbn; by split; [intros [= ->]|intros ->]].
  unfold academicPeriodCoarseAuthority. rewrite <-Ht, Hc. cbn [mbind result_bind].
  destruct (sc_InstitutionWide c || (0 <? length (sc_AcademicUnitRootIDs c))%nat) eqn:Ecoarse;
    [cbn; by split; [intros [= ->]|intros ->]|].
  split; [by destruct (Institutions_GetSingleton st)|]. intros Hcov. exfalso.
  apply (applies_covers action d gs c resource res _ Hc Hd Hg Hres Hacc) in Hcov. apply orb_false_iff in Ecoarse as [Ew Er].
  assert (sc_AcademicUnitRootIDs c = []) as Hnil by (destruct (sc_AcademicUnitRootIDs c); done).
  destruct Hcov as [?|[Hu|[? _]]]; [congruence| |congruence]. rewrite Hnil in Hu.
  destruct (_ && _); [naive_solver|]. by destruct Hu as (root & ?%elem_of_nil & _).
Qed.
End decisions.

(** A session principal always has its self-service actions on itself. *)
Lemma Can_self st now principal (Hsession : p_CredentialType principal ≠ CredentialPersonalAccessToken) action d ty c
    resource res :
  authorizedScopes st now principal action ty = Ok c →
  DefinitionForAction action = Some d → ad_RelationshipOnly d = false → AcceptsResource d (r_Type resource) = true →
  Resource_Validate resource = Ok tt → resolve st resource = Ok res →
  self_service principal action resource = true → Can st now principal action resource = Ok true.
Proof.
  intros Hc Hd Hrel Hacc Hvalid Hres Hself.
  assert (Hp : is_ok (Principal_Validate principal) = true).
  { unfold authorizedScopes, authorizedScopesAt in Hc. by apply ok_fail_if in Hc as [Hp%negb_false_iff _]. }
  assert (Hperiod : r_Type resource ≠ ResourceAcademicPeriod).
  { intros E. rewrite E in Hacc. unfold self_service in Hself. apply andb_true_iff in Hself as [Hself _].
    apply orb_true_iff in Hself as [Ha%bool_decide_eq_true|Ha%bool_decide_eq_true]; rewrite Ha in Hd;
      vm_compute in Hd; injection Hd as <-; by vm_compute in Hacc. }
  unfold Can, evaluate. rewrite Hp, Hd, Hvalid, Hacc, Hrel, (bool_decide_false _ Hsession), (bool_decide_false _ Hperiod).
  cbn [negb orb andb is_ok]. rewrite Hres. cbn [mbind result_bind].
  rewrite evaluateResolved_granting, (bool_decide_false _ Hsession), Hself. done.
Qed.

(** ** Delegation never escalates *)

Lemma delegate_actions_spec st now principal scopeType target res actions action :
  delegate_actions st now principal scopeType target res actions = Ok true → action ∈ actions →
  ∃ d c strict, DefinitionForAction action = Some d ∧ ad_RelationshipOnly d = false ∧
    authorizedScopes st now principal action (ad_ResourceType d) = Ok c ∧
    delegationConstraintContains c target res strict = true.
Proof.
  intros H Hin. induction actions as [|value rest IH]; [by apply elem_of_nil in Hin|]. cbn [delegate_actions] in H.
  destruct (DefinitionForAction value) as [d|] eqn:Ed; [|done]. pose proof (DefinitionForAction_row _ _ Ed) as [Ha _].
  destruct (ad_RelationshipOnly d) eqn:Erel; [done|]. inv_ok H. rewrite Ha in *.
  destruct (negb _) eqn:Ec; [done|]. apply negb_false_iff in Ec.
  apply elem_of_cons in Hin as [->|Hin]; [|by apply IH]. by eexists _, _, _.
Qed.

(** What a contained target hands on, the delegator's own constraint covers. *)
Lemma contained_covers st institution `{!StoreLaws st institution} c d binding target restarget strict resource res :
  roleScopeResource (rb_ScopeType binding) (rb_ScopeID binding) = Ok target →
  resolve st target = Ok restarget → resolve st resource = Ok res →
  delegationConstraintContains c target restarget strict = true →
  roleBindingApplies binding d resource res = true → covers c (ad_Action d) resource res.
Proof.
  intros Htarget Hrt Hres Hc Happ. unfold covers. unfold delegationConstraintContains in Hc.
  destruct (sc_InstitutionWide c); [by left|]. right.
  pose proof (resolve_spec st institution _ _ Hres) as [[owner Hin] Hclass].
  unfold roleScopeResource in Htarget. apply ok_fail_if in Htarget as [_ Htarget]. unfold roleBindingApplies in Happ.
  destruct (rb_ScopeType binding); inv_ok Htarget; subst target; cbn [r_Type r_ID] in Hc; [done|..].
  - left. apply existsb_exists in Hc as (root & Hroot%list_elem_of_In & Hroot'). to_prop. destruct Hroot' as [Hroot' _].
    destruct (ad_InheritAcademicUnitScopes d); [|done]. cbn [negb] in Happ. destruct (_ && _).
    + to_prop. split; [done|]. intros E. rewrite E in Hroot. by apply elem_of_nil in Hroot.
    + to_prop. exists root. split; [done|]. by apply (resolved_closed st institution _ _ _ _ _ Hin Hrt).
  - apply andb_true_iff in Happ as [Ht Hid]. apply bool_decide_eq_true in Ht, Hid.
    rewrite (Hclass Ht) in Hid. apply orb_true_iff in Hc as [Hc|Hc].
    + right. split; [done|]. apply andb_true_iff in Hc as [_ Hc]. apply existsb_exists in Hc as (k & Hk%list_elem_of_In & E).
      apply bool_decide_eq_true in E. by rewrite <-Hid, <-E.
    + left. rewrite Ht. change (ResourceClass ==? ResourceAcademicPeriod) with false. cbn [andb].
      apply existsb_exists in Hc as (root & Hroot%list_elem_of_In & E). apply bool_decide_eq_true in E. exists root.
      split; [done|]. destruct resource as [ty id]. cbn [r_Type r_ID] in *. subst ty id. congruence.
Qed.

(** C16. Delegation never escalates: when the test lets a session principal hand out
    actions at a scope, then on every valid resource that a binding at that scope
    would open to one of those actions, the delegator is itself allowed the action at
    that moment, through scopes of its own that contain the delegated one. *)
Theorem delegation_never_escalates st institution `{!StoreLaws st institution} now principal actions action
    binding d resource res :
  p_CredentialType principal ≠ CredentialPersonalAccessToken →
  canDelegateActionsAtScope st now principal actions (rb_ScopeType binding) (rb_ScopeID binding) = Ok true →
  action ∈ actions → DefinitionForAction action = Some d →
  Resource_Validate resource = Ok tt → AcceptsResource d (r_Type resource) = true → resolve st resource = Ok res →
  roleBindingApplies binding d resource res = true →
  Can st now principal action resource = Ok true.
Proof.
  intros Hs H Hin Hd Hvalid Hacc Hres Happ. unfold canDelegateActionsAtScope in H. inv_ok H.
  destruct (delegate_actions_spec _ _ _ _ _ _ _ _ H Hin) as (d' & c & strict & Hd' & Hrel & Hc & Hcontains).
  assert (d' = d) as -> by congruence. pose proof (DefinitionForAction_row _ _ Hd) as [Haction _].
  destruct (self_service principal action resource) eqn:Eself.
  { by apply (Can_self st now principal Hs action d (ad_ResourceType d) c resource res). }
  apply (Can_covers st institution now principal Hs action d c resource res); try done.
  - by apply (authorizedScopes_type _ _ _ _ d (ad_ResourceType d)).
  - rewrite <-Haction. by eapply (contained_covers st institution).
Qed.

(** Lists and decisions agree: for a session principal and a resource that
    resolves, the scope constraint computed for lists of its kind covers the resource
    exactly when the point decision allows the action on it (self-service apart): no
    list reveals what a read would refuse, and none hides what a read would allow. *)
Theorem scope_constraint_exact st institution `{!StoreLaws st institution} now principal action d c resource res :
  p_CredentialType principal ≠ CredentialPersonalAccessToken →
  DefinitionForAction action = Some d → ad_RelationshipOnly d = false →
  Resource_Validate resource = Ok tt → resolve st resource = Ok res →
  self_service principal action resource = false →
  authorizedScopes st now principal action (r_Type resource) = Ok c →
  covers c action resource res ↔ Can st now principal action resource = Ok true.
Proof. intros. symmetry. by apply (Can_covers st institution now principal) with (d := d). Qed.

(** ** Decisions take effect only once recorded *)

