(* ===== verification/AccessStore.v ===== *)
(** * The tables behind access control

    The queries that access control relies on, over tables: the active bindings of a
    user and the live roles of a set ([server/store/sqlstore/role_binding_store.go],
    [role_store.go]) and the recursive ancestor query of Academic Units
    ([academic_unit_store.go]).  They keep the contract [StoreLaws], and over them a
    decision is exactly what the stored bindings and roles say. *)

From S2P Require Import Prelude GoTime GoStrings Ident ModelError AppErrors Actions Roles DesktopRelease Principal AccessControl AccessTheorems.

(** ** Tables *)

(** Rows by primary key.  Rows read back are the entities written; the order of a
    result set, which the database collation decides, is that of the table. *)
Record Database := mkDatabase {
  db_institution : Institution;
  db_units : gmap ID AcademicUnit;
  db_roles : list Role;
  db_bindings : list RoleBinding;
  db_classes : gmap ID (ClassRow * ID);
  db_users : gmap ID User;
  db_periods : gmap ID AcademicPeriod;
  db_exams : gmap ID ID;
  db_sittings : gmap ID ID;
  db_submissions : gmap ID SubmissionOwnership;
  db_programmes : gmap ID Programme;
  db_levels : gmap ID ProgrammeLevel }.

(** The [WHERE] clause of [ListActiveByUser]. *)
Definition active_row (userID : ID) (at_ : Time) (b : RoleBinding) : bool :=
  (rb_UserID b ==? userID) && negb (ot_Valid (rb_ArchivedAt b))
  && negb (Time_After (rb_StartsAt b) at_)
  && (negb (ot_Valid (rb_EndsAt b)) || Time_After (ot_Time (rb_EndsAt b)) at_).
Definition ListActiveByUser (db : Database) (userID : ID) (at_ : Time) : result (list RoleBinding) :=
  let at_ := TimeUTC at_ in
  Ok (filter (λ b, active_row userID at_ b = true) (db_bindings db)).

Definition GetByIDs (db : Database) (ids : list ID) : result (list Role) :=
  if (length ids =? 0)%nat then Ok []
  else Ok (filter (λ role, ro_ID role ∈ ids ∧ ot_Valid (ro_ArchivedAt role) = false) (db_roles db)).

(** The recursive query: the live unit of an identifier, then that of its parent. *)
Fixpoint ancestors (units : gmap ID AcademicUnit) (fuel : nat) (id : ID) : list AcademicUnit :=
  match fuel with
  | O => []
  | S fuel =>
      match units !! id with
      | Some unit => if ot_Valid (au_ArchivedAt unit) then [] else unit :: ancestors units fuel (au_ParentID unit)
      | None => []
      end
  end.
Definition ListAncestors (db : Database) (id : ID) : result (list AcademicUnit) :=
  match ancestors (db_units db) (size (db_units db)) id with
  | [] => mthrow (StoreError ErrNotFound "academic_unit" id None)
  | units => Ok units
  end.

(** A read by primary key, of the part [f] of the row. *)
Definition row {A B} (table : gmap ID A) (resource : string) (f : A → B) (id : ID) : result B :=
  match table !! id with Some a => Ok (f a) | None => mthrow (StoreError ErrNotFound resource id None) end.

Definition database_stores (db : Database) : Stores :=
  mkStores (GetByIDs db) (ListActiveByUser db)
    (λ id, if in_ID (db_institution db) ==? id then Ok (db_institution db)
           else mthrow (StoreError ErrNotFound "institution" id None))
    (Ok (db_institution db)) (ListAncestors db)
    (row (db_classes db) "class" fst) (row (db_classes db) "class" snd)
    (row (db_users db) "user" id) (row (db_exams db) "exam" id)
    (row (db_sittings db) "exam_sitting" Some) (row (db_submissions db) "submission" Some)
    (row (db_periods db) "academic_period" Some)
    (Some (row (db_programmes db) "programme" Some)) (Some (row (db_levels db) "programme_level" Some)).

(** Keys identify rows, units belong to the institution, and parents form no cycle:
    what the schema and the writers of the tables maintain. *)
Record well_formed_db (db : Database) : Prop := {
  wf_key : ∀ id u, db_units db !! id = Some u → au_ID u = id;
  wf_institution : ∀ id u, db_units db !! id = Some u → au_InstitutionID u = in_ID (db_institution db);
  wf_acyclic : ∃ rank : ID → nat, ∀ id u p, db_units db !! id = Some u →
    db_units db !! au_ParentID u = Some p → (rank (au_ParentID u) < rank id)%nat;
  wf_roles : NoDup (map ro_ID (db_roles db)) }.

(** ** The ancestor query *)

Section ancestry.
Context (db : Database) (Hwf : well_formed_db db).
Notation units := (db_units db).

Lemma ancestors_cons fuel id u us :
  ancestors units fuel id = u :: us →
  ∃ fuel', fuel = S fuel' ∧ units !! id = Some u ∧ us = ancestors units fuel' (au_ParentID u).
Proof.
  destruct fuel as [|fuel]; [done|]. cbn. destruct (units !! id) as [v|]; [|done].
  destruct (ot_Valid _); [done|]. intros [= -> <-]. eauto.
Qed.

Lemma ancestors_elem fuel id u : u ∈ ancestors units fuel id → units !! au_ID u = Some u.
Proof.
  revert id. induction fuel as [|fuel IH]; intros id Hin; [by apply elem_of_nil in Hin|]. cbn in Hin.
  destruct (units !! id) as [v|] eqn:E; [|by apply elem_of_nil in Hin].
  destruct (ot_Valid _); [by apply elem_of_nil in Hin|].
  apply elem_of_cons in Hin as [->|Hin]; [|by eapply IH]. by rewrite (wf_key db Hwf id v E).
Qed.

(** Ranks fall along a chain, so it repeats no unit and is no longer than the table. *)
Lemma ancestors_NoDup fuel id : NoDup (map au_ID (ancestors units fuel id)).
Proof.
  destruct (wf_acyclic db Hwf) as [rank Hrank].
  enough (NoDup (map au_ID (ancestors units fuel id)) ∧
          Forall (λ u, (rank (au_ID u) ≤ rank id)%nat) (ancestors units fuel id)) by tauto.
  revert id. induction fuel as [|fuel IH]; intros id; cbn; [repeat constructor|].
  destruct (units !! id) as [u|] eqn:E; [|repeat constructor].
  destruct (ot_Valid _); [repeat constructor|]. destruct (IH (au_ParentID u)) as [Hnd Hle].
  pose proof (wf_key db Hwf id u E) as Hid.
  assert (Hlt : Forall (λ v, (rank (au_ID v) < rank id)%nat) (ancestors units fuel (au_ParentID u))).
  { destruct (ancestors units fuel (au_ParentID u)) as [|v vs] eqn:Ea; [constructor|].
    apply ancestors_cons in Ea as (fuel' & -> & Ev & ->). pose proof (Hrank id u v E Ev).
    eapply Forall_impl; [exact Hle|]. cbn. intros w Hw. lia. }
  split.
  - cbn. rewrite Hid. constructor; [|done]. intros (v & Hv & Hin)%list_elem_of_fmap.
    rewrite Forall_forall in Hlt. specialize (Hlt v Hin). rewrite <-Hv in Hlt. lia.
  - constructor; [by rewrite Hid|]. eapply Forall_impl; [exact Hlt|]. cbn. lia.
Qed.

Lemma ancestors_length fuel id : (length (ancestors units fuel id) ≤ size units)%nat.
Proof.
  rewrite <-(length_map au_ID). rewrite <-size_dom.
  rewrite <-(size_list_to_set (C := gset ID)) by apply ancestors_NoDup.
  apply subseteq_size. intros i Hi. apply elem_of_list_to_set, list_elem_of_fmap in Hi as (u & -> & Hu).
  apply elem_of_dom. by eexists; eapply ancestors_elem.
Qed.

Lemma ancestors_stable fuel id :
  (length (ancestors units (S fuel) id) ≤ fuel)%nat → ancestors units (S fuel) id = ancestors units fuel id.
Proof.
  revert id. induction fuel as [|fuel IH]; intros id Hlen.
  { revert Hlen. destruct (ancestors units 1 id); cbn; [done|lia]. }
  cbn [ancestors] in Hlen |- *. destruct (units !! id) as [u|]; [|done]. destruct (ot_Valid _); [done|].
  f_equal. apply IH. cbn [length ancestors] in Hlen |- *. lia.
Qed.

(** The size of the table is enough fuel. *)
Lemma ancestors_enough fuel id :
  (size units ≤ fuel)%nat → ancestors units fuel id = ancestors units (size units) id.
Proof.
  intros Hle. induction Hle as [|fuel Hle IH]; [done|]. rewrite <-IH. apply ancestors_stable.
  pose proof (ancestors_length (S fuel) id). lia.
Qed.

Lemma ancestors_suffix fuel id u :
  u ∈ ancestors units fuel id →
  ∃ k, ∀ m, map au_ID (ancestors units m (au_ID u)) ⊆ map au_ID (ancestors units (m + k) id).
Proof.
  revert id. induction fuel as [|fuel IH]; intros id Hin; [by apply elem_of_nil in Hin|]. cbn in Hin.
  destruct (units !! id) as [v|] eqn:E; [|by apply elem_of_nil in Hin].
  destruct (ot_Valid (au_ArchivedAt v)) eqn:Ev; [by apply elem_of_nil in Hin|].
  apply elem_of_cons in Hin as [->|Hin].
  { exists 0%nat. intros m. by rewrite Nat.add_0_r, (wf_key db Hwf id v E). }
  destruct (IH _ Hin) as [k Hk]. exists (S k). intros m. rewrite Nat.add_succ_r. cbn [ancestors]. rewrite E, Ev.
  cbn [map]. specialize (Hk m). set_solver.
Qed.

#[export] Instance database_laws : StoreLaws (database_stores db) (in_ID (db_institution db)).
Proof.
  assert (Hlist : ∀ id us, ListAncestors db id = Ok us → us = ancestors units (size units) id).
  { unfold ListAncestors. intros id us. by destruct (ancestors _ _ _); intros [=]. }
  split.
  - intros id i. cbn. case_bool_decide as E; [|done]. intros [= <-]. by rewrite E.
  - by intros i [= <-].
  - intros id us ->%Hlist. apply Forall_forall. intros u Hu%ancestors_elem. by eapply wf_institution.
  - intros id us u us' ->%Hlist Hu ->%Hlist. destruct (ancestors_suffix _ _ _ Hu) as [k Hk].
    specialize (Hk (size units)). by rewrite (ancestors_enough (size units + k) id) in Hk by lia.
Qed.
End ancestry.

(** ** The decision, read off the tables *)

Lemma active_row_spec userID at_ b :
  active_row userID (TimeUTC at_) b = true ↔ rb_UserID b = userID ∧ RoleBinding_IsActiveAt (Some b) at_ = true.
Proof.
  unfold active_row, RoleBinding_IsActiveAt, RoleBinding_IsArchived, Time_Before, Time_After.
  rewrite !andb_true_iff, bool_decide_eq_true.
  destruct (ot_Valid (rb_ArchivedAt b)), (_ <? t_ns (rb_StartsAt b)), (ot_Valid (rb_EndsAt b)); cbn;
    try (intuition done); destruct (_ <? _); cbn; intuition done.
Qed.

Lemma role_ids_spec seen bindings id :
  id ∈ role_ids seen bindings ↔ id ∉ seen ∧ ∃ b, b ∈ bindings ∧ rb_RoleID b = id.
Proof.
  revert seen. induction bindings as [|b bindings IH]; intros seen; cbn [role_ids].
  { setoid_rewrite elem_of_nil. naive_solver. }
  setoid_rewrite elem_of_cons. case_bool_decide as Hb.
  - rewrite IH. naive_solver.
  - rewrite elem_of_cons, IH. destruct (decide (id = rb_RoleID b)) as [->|Hne]; [naive_solver|set_solver].
Qed.

Lemma permissions_by_role_spec roles id action :
  NoDup (map ro_ID roles) →
  action ∈ default ∅ (permissions_by_role roles !! id) ↔
  ∃ role, role ∈ roles ∧ ro_ID role = id ∧ action ∈ ro_Permissions role.
Proof.
  unfold permissions_by_role. induction roles as [|role roles IH] using rev_ind.
  { cbn. rewrite lookup_empty. cbn. setoid_rewrite elem_of_nil. split; [set_solver|naive_solver]. }
  rewrite map_app, foldl_app. intros (Hnd & Hnew & _)%NoDup_app. cbn [foldl].
  setoid_rewrite elem_of_app. setoid_rewrite list_elem_of_singleton.
  destruct (decide (id = ro_ID role)) as [->|Hne].
  - rewrite lookup_insert_eq. cbn. rewrite elem_of_list_to_set. split; [by exists role; eauto|].
    intros (r & [Hr| ->] & Hid & Hp); [|done]. destruct (Hnew (ro_ID r)); [by apply list_elem_of_fmap_2|].
    rewrite Hid. by apply list_elem_of_here.
  - rewrite lookup_insert_ne by done. rewrite IH by done. naive_solver.
Qed.

(** Some active binding of the principal reaches the resource with a live role that
    holds the action. *)
Definition role_grants (db : Database) (now : Time) (principal : Principal) (action : Action)
    (d : ActionDefinition) (resource : Resource) (res : resolvedAuthorizationResource) : Prop :=
  ∃ b role, b ∈ db_bindings db ∧ rb_UserID b = p_UserID principal ∧ RoleBinding_IsActiveAt (Some b) now = true ∧
    roleBindingApplies b d resource res = true ∧
    role ∈ db_roles db ∧ ro_ID role = rb_RoleID b ∧ Role_IsArchived role = false ∧ action ∈ ro_Permissions role.

(** The conditions under which an action is allowed; all else is denied. *)
Definition authorized (db : Database) (now : Time) (principal : Principal) (action : Action) (resource : Resource) : Prop :=
  ∃ d res, DefinitionForAction action = Some d ∧ ad_RelationshipOnly d = false ∧
    AcceptsResource d (r_Type resource) = true ∧ resolve (database_stores db) resource = Ok res ∧
    (p_CredentialType principal = CredentialPersonalAccessToken →
       ad_PersonalAccessTokenForbidden d = false ∧ personalAccessTokenAllows principal action resource res = true) ∧
    (self_service principal action resource = true ∨ role_grants db now principal action d resource res).

Lemma NoDup_fmap_filter {A} (P : A → Prop) `{∀ a, Decision (P a)} (f : A → ID) l :
  NoDup (map f l) → NoDup (map f (filter P l)).
Proof.
  induction l as [|a l IH]; [done|]. cbn [map]. intros [Ha Hnd]%NoDup_cons. destruct (decide (P a)).
  - rewrite filter_cons_True by done. cbn [map]. constructor; [|by apply IH].
    intros (x & Hx & Hin)%list_elem_of_fmap. apply Ha. rewrite Hx. apply list_elem_of_fmap_2.
    by apply list_elem_of_filter in Hin as [_ Hin].
  - rewrite filter_cons_False by done. by apply IH.
Qed.

Lemma granting_spec db now principal action d resource res :
  well_formed_db db →
  ∃ gs, granting (database_stores db) now principal action = Ok gs ∧
    (existsb (λ b, roleBindingApplies b d resource res) gs = true ↔ role_grants db now principal action d resource res).
Proof.
  intros Hwf. unfold granting. cbn [database_stores Bindings_ListActiveByUser Roles_GetByIDs]. unfold ListActiveByUser.
  cbn [or_else mbind result_bind]. set (bs := filter _ (db_bindings db)).
  assert (Hbs : ∀ b, b ∈ bs ↔ (rb_UserID b = p_UserID principal ∧ RoleBinding_IsActiveAt (Some b) now = true) ∧ b ∈ db_bindings db).
  { intros b. unfold bs. rewrite list_elem_of_filter, TimeUTC_idemp, active_row_spec. done. }
  clearbody bs.
  assert (Hroles : ∃ roles, GetByIDs db (role_ids ∅ bs) = Ok roles ∧ NoDup (map ro_ID roles) ∧
    ∀ role, role ∈ roles ↔ (∃ b, b ∈ bs ∧ rb_RoleID b = ro_ID role) ∧ Role_IsArchived role = false ∧ role ∈ db_roles db).
  { pose proof (role_ids_spec ∅ bs) as Hids. unfold GetByIDs. destruct (_ =? 0)%nat eqn:E.
    - exists []. split_and!; [done|constructor|]. apply Nat.eqb_eq, length_zero_iff_nil in E. rewrite E in Hids.
      intros role. specialize (Hids (ro_ID role)). rewrite elem_of_nil in *. set_solver.
    - eexists. split_and!; [done|apply NoDup_fmap_filter, (wf_roles db Hwf)|]. intros role.
      rewrite list_elem_of_filter, Hids. set_solver. }
  destruct Hroles as (roles & -> & Hnd & Hroles). cbn [or_else mbind result_bind]. eexists. split; [done|].
  rewrite existsb_exists. setoid_rewrite <-list_elem_of_In. setoid_rewrite list_elem_of_filter.
  setoid_rewrite (permissions_by_role_spec roles _ action Hnd). unfold role_grants. split.
  - intros (b & [(role & Hr & Hid & Hp) Hb] & Happ). apply Hbs in Hb as [[Hu Ha] Hb].
    apply Hroles in Hr as (_ & Hlive & Hr). exists b, role. split_and!; done.
  - intros (b & role & Hb & Hu & Ha & Happ & Hr & Hid & Hlive & Hp). exists b.
    assert (Hb' : b ∈ bs) by (by apply Hbs). split; [|done]. split; [|done]. exists role. split_and!; try done.
    apply Hroles. split_and!; try done. by exists b.
Qed.

Lemma evaluateResolved_spec db now principal action d resource res :
  well_formed_db db →
  evaluateResolved (database_stores db) now principal action resource d res = Ok true ↔
  (p_CredentialType principal = CredentialPersonalAccessToken →
     personalAccessTokenAllows principal action resource res = true) ∧
  (self_service principal action resource = true ∨ role_grants db now principal action d resource res).
Proof.
  intros Hwf. destruct (granting_spec db now principal action d resource res Hwf) as (gs & Hg & Hspec).
  rewrite evaluateResolved_granting, Hg, <-Hspec. cbn [mbind result_bind].
  destruct (personalAccessTokenAllows _ _ _ _), (self_service _ _ _), (existsb _ gs);
    case_bool_decide; cbn; naive_solver.
Qed.


(** ** An installation *)

Definition unit_id : ID := "wndrfg8ejkmcpqxot1uwisza3y".
Definition child_id : ID := "kndrfg8ejkmcpqxot1uwisza3y".
Definition teacher_id : ID := "tndrfg8ejkmcpqxot1uwisza3y".

(** A faculty with a department, and a teacher bound to the faculty. *)
Definition sample_units : gmap ID AcademicUnit :=
  {[ unit_id := mkAcademicUnit unit_id noTime sample_id "";
     child_id := mkAcademicUnit child_id noTime sample_id unit_id ]}.
Definition sample_role : Role :=
  mkRole sample_id (at_second 1) (at_second 1) noTime "teacher" "" "" [ActionAcademicUnitView] false.
Definition sample_binding : RoleBinding :=
  mkRoleBinding sample_id (at_second 1) (at_second 1) noTime teacher_id sample_id "" "" RoleScopeAcademicUnit unit_id
    (at_second 1) noTime.
Definition sample_db : Database :=
  mkDatabase (mkInstitution sample_id noTime) sample_units [sample_role] [sample_binding] ∅ ∅ ∅ ∅ ∅ ∅ ∅ ∅.

Lemma sample_db_well_formed : well_formed_db sample_db.
Proof.
  assert (Hu : ∀ id u, sample_units !! id = Some u →
    (id = unit_id ∧ u = mkAcademicUnit unit_id noTime sample_id "") ∨
    (id = child_id ∧ u = mkAcademicUnit child_id noTime sample_id unit_id)).
  { intros id u. unfold sample_units. rewrite lookup_insert_Some, lookup_singleton_Some. naive_solver. }
  split.
  - by intros id u [[-> ->]|[-> ->]]%Hu.
  - by intros id u [[-> ->]|[-> ->]]%Hu.
  - exists (λ id, if id ==? child_id then 1%nat else 0%nat). intros id u p [[-> ->]|[-> ->]]%Hu Hp; [by vm_compute in Hp|].
    vm_compute. lia.
  - cbn. apply NoDup_singleton.
Qed.

Definition session_of (user : ID) : Principal :=
  mkPrincipal user 0 false sample_id sample_id CredentialSessionAccess "password" "" "" AuthenticationSingleFactor
    SessionClientWeb "" "" false "" "" (DesktopPlatform_other "") (DesktopArchitecture_other "") 0 (at_second 1) noTime
    noTime [] "".
Definition token_of (user : ID) (scopes : list string) (ceiling : ID) : Principal :=
  mkPrincipal user 0 false "" sample_id CredentialPersonalAccessToken "personal_access_token" "" ""
    (AuthenticationStrength_other "") SessionClientCLI "" "" false "" "" (DesktopPlatform_other "")
    (DesktopArchitecture_other "") 0 zeroTime noTime noTime scopes ceiling.

Definition department : Resource := mkResource ResourceAcademicUnit child_id.


Definition department_resolved : resolvedAuthorizationResource :=
  ok_or unresolved (resolve (database_stores sample_db) department).
Definition unit_view : ActionDefinition :=
  mkActionDefinition ActionAcademicUnitView ResourceAcademicUnit [] true true false false false true.

Lemma delegation_never_escalates_witness :
  Can (database_stores sample_db) (at_second 9) (session_of teacher_id) ActionAcademicUnitView department = Ok true.
Proof.
  apply (delegation_never_escalates (database_stores sample_db) sample_id (StoreLaws0 := database_laws sample_db sample_db_well_formed)
    (at_second 9) (session_of teacher_id)
    [ActionAcademicUnitView] ActionAcademicUnitView sample_binding
    (default unit_view (DefinitionForAction ActionAcademicUnitView)) department department_resolved);
    try by vm_compute.
  by apply list_elem_of_here.
Defined.

Lemma scope_constraint_exact_witness :
  covers (ok_or (mkConstraint "" false [] [])
            (authorizedScopes (database_stores sample_db) (at_second 9) (session_of teacher_id) ActionAcademicUnitView
               ResourceAcademicUnit)) ActionAcademicUnitView department department_resolved.
Proof.
  apply (scope_constraint_exact (database_stores sample_db) sample_id (StoreLaws0 := database_laws sample_db sample_db_well_formed)
    (at_second 9) (session_of teacher_id)
    ActionAcademicUnitView (default unit_view (DefinitionForAction ActionAcademicUnitView))); by vm_compute.
Defined.

(** An audit store that always appends. *)
Definition appending : Auditor := mkAuditor "node" (Some (λ event log, Ok (log ++ [event]))).
Definition sample_invocation : Invocation := mkInvocation (session_of teacher_id) (mkRequestMetadata "r" "ip" "agent").


(** A token bounded to the department, whose user is bound to the faculty above it,
    may view the department, yet the constraint for lists leaves it nothing: the scope
    of a binding above the ceiling is dropped rather than narrowed to the ceiling, as
    the scope of an institution binding is. *)
Theorem token_ceiling_drops_wider_binding :
  let token := token_of teacher_id [ActionAcademicUnitView] child_id in
  Can (database_stores sample_db) (at_second 9) token ActionAcademicUnitView department = Ok true ∧
  authorizedScopes (database_stores sample_db) (at_second 9) token ActionAcademicUnitView ResourceAcademicUnit =
    Ok (mkConstraint "" false [] []).
Proof. by vm_compute. Qed.
