(* ===== verification/SqlTx.v ===== *)
(** * Transactions of the PostgreSQL adapter

    Models [server/store/sqlstore/transaction_execution.go] and the shared helpers of
    the adapter: rehydration of rows ([rehydration.go]), the clamp of instants
    ([time.go]) and the statements the stores are written with.  A table is a finite
    map from primary keys to rows; a transaction body runs on a snapshot it owns, so an
    error leaves the tables as they were. *)

From S2P Require Import Prelude GoTime GoStrings ModelError.

(** ** Bodies *)

Definition Tx (S A : Type) : Type := S → result (S * A).

#[export] Instance tx_ret {S} : MRet (Tx S) := λ A a db, Ok (db, a).
#[export] Instance tx_bind {S} : MBind (Tx S) := λ A B f m db,
  match m db with Ok (db', a) => f a db' | Err e => Err e end.
#[export] Instance tx_throw {S} : MThrow error (Tx S) := λ A e db, Err e.

(** A read of the current tables, a write, and an error-returning call. *)
Definition query {S A} (f : S → A) : Tx S A := λ db, Ok (db, f db).
Definition exec {S} (f : S → S) : Tx S unit := λ db, Ok (f db, tt).
Definition check {S A} (r : result A) : Tx S A := λ db,
  match r with Ok a => Ok (db, a) | Err e => Err e end.

(** Refuse when the current tables satisfy the test. *)
Definition refuse_if {S} (f : S → bool) (e : error) : Tx S unit := λ db, if f db then Err e else Ok (db, tt).

(** ** Lifecycle *)

(** What the driver answers: [begin] may fail, and so may [commit], in which case the
    server may or may not have applied the transaction. *)
Inductive commit_outcome :=
  | Commits
  | CommitFails (e : error) (applied : bool).
Record driver := mkDriver { dr_begin : option error; dr_commit : commit_outcome }.
Definition healthy : driver := mkDriver None Commits.

Record sqlTransactionPolicy (A : Type) := mkPolicy {
  beginError : error → error;
  commit : bool;
  commitError : A → error → error }.
Arguments mkPolicy {_} _ _ _.
Arguments beginError {_} _ _.
Arguments commit {_} _.
Arguments commitError {_} _ _ _.

Definition executeSQLTransaction {S A} (d : driver) (policy : sqlTransactionPolicy A) (body : Tx S A) (db : S)
    : S * result A :=
  match dr_begin d with
  | Some e => (db, Err (beginError policy e))
  | None =>
      match body db with
      | Err e => (db, Err e)
      | Ok (db', a) =>
          if negb (commit policy) then (db, Ok a)
          else match dr_commit d with
               | Commits => (db', Ok a)
               | CommitFails e applied => (if applied then db' else db, Err (commitError policy a e))
               end
      end
  end.

Definition rawSQLTransactionPolicy {A} (commit : bool) (commitError : A → error → error) : sqlTransactionPolicy A :=
  mkPolicy (λ e, e) commit commitError.

Definition runSQLTransaction {S A} (d : driver) (operation : string) (body : Tx S A) (db : S) : S * result A :=
  executeSQLTransaction d
    (mkPolicy (WrappedError ("begin " +:+ operation)) true (λ _, WrappedError ("commit " +:+ operation))) body db.

(** ** Rows *)

Definition invalidPersistedState (entity field : string) (cause : error) : error :=
  PersistedStateError entity field cause.

Definition validatePersistedModel {A} (entity : string) (Validate : A → result unit) (value : A) : result unit :=
  match Validate value with
  | Ok _ => Ok tt
  | Err e =>
      let field := match As_ValidationError e with
                   | Some (ValidationError _ f _ _ _ _) => if f ==? "" then "value" else f
                   | _ => "value"
                   end in
      Err (invalidPersistedState entity field e)
  end.

(** [sql.ErrNoRows], translated. *)
Definition ErrNoRows : error := SentinelError "sql: no rows in result set".
Definition not_found (resource id : string) : error := StoreError ErrNotFound resource id (Some ErrNoRows).

(** [tx.Get]: the first row of a selection. *)
Definition get_row {A} (resource id : string) (rows : list A) : result A :=
  match rows with [] => mthrow (not_found resource id) | a :: _ => Ok a end.
Definition requireAffected (affected : nat) (resource id : string) : result unit :=
  fail_if (affected =? 0)%nat with not_found resource id ;; Ok tt.

(** [UTCTime]: a row keeps UTC microseconds. *)
Definition UTCTime (value : Time) : Time := TimeUTC value.

(** [GREATEST] and [LEAST] of instants that are not null. *)
Definition greatest (a b : Time) : Time := if Time_Before a b then b else a.
Definition least (a b : Time) : Time := if Time_Before b a then b else a.
(** [GREATEST] ignores nulls. *)
Definition greatest_opt (a : OptionalTime) (b : Time) : OptionalTime :=
  mkOptionalTime (if ot_Valid a then greatest (ot_Time a) b else b) true.

Definition latestTime (persisted requested : Time) : Time :=
  if Time_After requested persisted then UTCTime requested else UTCTime persisted.
Definition transitionInstant (databaseNow : Time) (floors : list Time) : Time :=
  foldl (λ at_ floor, let floor := UTCTime floor in if Time_After floor at_ then floor else at_)
    (UTCTime databaseNow) floors.

Section tables.
Context {K : Type} `{Countable K} {A : Type}.
Implicit Types (p : A → bool) (f : A → A) (t : gmap K A).

(** [SELECT ... WHERE], in the order of the table. *)
Definition select p t : list A := filter (λ a, p a = true) (snd <$> map_to_list t).
(** [UPDATE ... SET ... WHERE] and the number of rows it affects. *)
Definition set_where p f t : gmap K A := (λ a, if p a then f a else a) <$> t.
Definition affected p t : nat := length (select p t).
Definition delete_where p t : gmap K A := filter (λ kv, p kv.2 = false) t.

Lemma select_spec p t a : a ∈ select p t ↔ p a = true ∧ ∃ k, t !! k = Some a.
Proof.
  unfold select. rewrite list_elem_of_filter, list_elem_of_fmap. split.
  - intros (Hp & [k v] & -> & Hin%elem_of_map_to_list). eauto.
  - intros (Hp & k & Hk). split; [done|]. exists (k, a). by rewrite elem_of_map_to_list.
Qed.

Lemma select_nil p t : select p t = [] ↔ ∀ k a, t !! k = Some a → p a = false.
Proof.
  split.
  - intros E k a Hk. destruct (p a) eqn:Ep; [|done]. exfalso.
    apply (not_elem_of_nil a). rewrite <-E. apply select_spec. eauto.
  - intros Hall. apply elem_of_nil_inv. intros a (Hp & k & Hk)%select_spec. by rewrite (Hall k a Hk) in Hp.
Qed.

(** A selection that at most one row satisfies. *)
Lemma select_unique p t k a :
  t !! k = Some a → p a = true →
  (∀ k' a', t !! k' = Some a' → p a' = true → k' = k) →
  select p t = [a].
Proof.
  intros Hk Hp Huniq. apply Permutation_singleton_r. unfold select.
  rewrite <-(insert_delete_id t k a) by done.
  rewrite map_to_list_insert by apply lookup_delete_eq. rewrite fmap_cons. cbn [snd].
  rewrite filter_cons_True by done. f_equiv. apply Permutation_nil_r, elem_of_nil_inv.
  intros b (Hb & ([k' b'] & -> & Hin)%list_elem_of_fmap)%list_elem_of_filter.
  apply elem_of_map_to_list in Hin. apply lookup_delete_Some in Hin as [Hne Hin].
  by destruct Hne; eapply eq_sym, Huniq.
Qed.

Lemma get_row_ok resource id p t a :
  get_row resource id (select p t) = Ok a → p a = true ∧ ∃ k, t !! k = Some a.
Proof.
  destruct (select p t) as [|b l] eqn:E; [done|]. intros [= ->]. apply select_spec. rewrite E. apply list_elem_of_here.
Qed.

Lemma lookup_set_where p f t k a :
  set_where p f t !! k = Some a ↔ ∃ b, t !! k = Some b ∧ a = if p b then f b else b.
Proof.
  unfold set_where. rewrite lookup_fmap. destruct (t !! k) as [b|]; cbn; [|naive_solver].
  split; [intros [= <-]; eauto|by intros (? & [= <-] & ->)].
Qed.
Lemma lookup_set_where_None p f t k : set_where p f t !! k = None ↔ t !! k = None.
Proof. unfold set_where. rewrite lookup_fmap. by destruct (t !! k). Qed.

Lemma lookup_delete_where p t k a : delete_where p t !! k = Some a ↔ t !! k = Some a ∧ p a = false.
Proof. unfold delete_where. by rewrite map_lookup_filter_Some. Qed.

Lemma requireAffected_ok p t resource id :
  requireAffected (affected p t) resource id = Ok tt ↔ ∃ k a, t !! k = Some a ∧ p a = true.
Proof.
  unfold requireAffected, affected. destruct (select p t) as [|a l] eqn:E; cbn.
  - split; [done|]. intros (k & a & Hk & Hp). rewrite select_nil in E. by rewrite (E k a Hk) in Hp.
  - split; [|done]. intros _. assert (a ∈ select p t) as (? & k & ?)%select_spec by (rewrite E; apply list_elem_of_here). eauto.
Qed.
End tables.

(** ** Runs of bodies *)

Section tx_runs.
Context {S A B : Type}.

Lemma tx_bind_ok (m : Tx S A) (k : A → Tx S B) db r :
  (m ≫= k) db = Ok r ↔ ∃ db' a, m db = Ok (db', a) ∧ k a db' = Ok r.
Proof.
  unfold mbind, tx_bind. destruct (m db) as [[db' a]|e]; split; [eauto|by intros (? & ? & [= <- <-] & ?)|done|by intros (? & ? & ? & ?)].
Qed.
Lemma tx_fail_if (c : bool) (e : error) (m : Tx S A) db r :
  (fail_if c with e ;; m) db = Ok r ↔ c = false ∧ m db = Ok r.
Proof. destruct c; cbn; split; [done|by intros []|done|by intros []]. Qed.
Lemma tx_query (f : S → A) (k : A → Tx S B) db r : (query f ≫= k) db = Ok r ↔ k (f db) db = Ok r.
Proof. done. Qed.
Lemma tx_exec (f : S → S) (k : unit → Tx S B) db r : (exec f ≫= k) db = Ok r ↔ k tt (f db) = Ok r.
Proof. done. Qed.
Lemma tx_check (x : result A) (k : A → Tx S B) db r : (check x ≫= k) db = Ok r ↔ ∃ a, x = Ok a ∧ k a db = Ok r.
Proof. destruct x; cbn; split; [eauto|by intros (? & [= <-] & ?)|done|by intros (? & ? & ?)]. Qed.
Lemma tx_ret_ok (a : A) (db : S) r : (mret a : Tx S A) db = Ok r ↔ r = (db, a).
Proof. unfold mret, tx_ret. split; [by intros [= <-]|by intros ->]. Qed.

(** The tables after a transaction: what the body wrote, or as before; an answer is
    always that of a body whose writes were kept. *)
Lemma runSQLTransaction_cases d operation (body : Tx S A) db db' r :
  runSQLTransaction d operation body db = (db', r) →
  (db' = db ∧ ∃ e, r = Err e) ∨ ∃ a, body db = Ok (db', a) ∧ (r = Ok a ∨ ∃ e, r = Err e).
Proof.
  unfold runSQLTransaction, executeSQLTransaction. cbn [beginError commit commitError negb].
  destruct (dr_begin d); [intros [= <- <-]; eauto|].
  destruct (body db) as [[db1 a]|e] eqn:E; [|intros [= <- <-]; eauto].
  destruct (dr_commit d) as [|e applied]; [intros [= <- <-]; eauto|].
  destruct applied; intros [= <- <-]; eauto 6.
Qed.
Lemma runSQLTransaction_Ok d operation (body : Tx S A) db db' a :
  runSQLTransaction d operation body db = (db', Ok a) → body db = Ok (db', a).
Proof. intros [[-> [e [=]]]|(b & Hb & [[= ->]|[e [=]]])]%runSQLTransaction_cases. done. Qed.
Lemma runSQLTransaction_healthy operation (body : Tx S A) db db' a :
  body db = Ok (db', a) → runSQLTransaction healthy operation body db = (db', Ok a).
Proof. intros E. unfold runSQLTransaction, executeSQLTransaction. cbn. by rewrite E. Qed.
Lemma runSQLTransaction_healthy_Err operation (body : Tx S A) db e :
  body db = Err e → runSQLTransaction healthy operation body db = (db, Err e).
Proof. intros E. unfold runSQLTransaction, executeSQLTransaction. cbn. by rewrite E. Qed.
End tx_runs.

(** A selection depends only on the rows it selects. *)
Lemma select_same {K A} `{Countable K} (p : A → bool) (m m' : gmap K A) :
  (∀ k a, p a = true → m !! k = Some a ↔ m' !! k = Some a) → select p m ≡ₚ select p m'.
Proof.
  intros Hsame.
  assert (Hsel : ∀ t : gmap K A, select p t ≡ₚ snd <$> filter (λ kv, p kv.2 = true) (map_to_list t)).
  { intros t. unfold select. induction (map_to_list t) as [|[k a] l IH]; [done|]. rewrite fmap_cons. cbn [snd].
    rewrite !filter_cons. cbn [snd]. destruct (decide (p a = true)); [rewrite fmap_cons; by f_equiv|done]. }
  rewrite !Hsel. apply fmap_Permutation, NoDup_Permutation; [apply NoDup_filter, NoDup_map_to_list..|].
  intros [k a]. rewrite !list_elem_of_filter, !elem_of_map_to_list. cbn. naive_solver.
Qed.
Lemma select_insert_other {K A} `{Countable K} (p : A → bool) (m : gmap K A) k a :
  m !! k = None → p a = false → select p (<[k := a]> m) ≡ₚ select p m.
Proof.
  intros Hk Hp. apply select_same. intros k' b Hb. destruct (decide (k' = k)) as [->|Hne]; [|by rewrite lookup_insert_ne].
  rewrite lookup_insert_eq, Hk. split; [intros [= ->]; congruence|done].
Qed.
Lemma select_delete_other {K A} `{Countable K} (p q : A → bool) (m : gmap K A) :
  (∀ a, p a = true → q a = false) → select p (delete_where q m) ≡ₚ select p m.
Proof. intros Hpq. apply select_same. intros k a Hp. rewrite lookup_delete_where. naive_solver. Qed.

Lemma refuse_if_ok {S} (f : S → bool) e (t : S) r : refuse_if f e t = Ok r ↔ f t = false ∧ r = (t, tt).
Proof. unfold refuse_if. destruct (f t); split; [done|by intros []|by intros [= <-]|by intros [_ ->]]. Qed.
Lemma check_ok {S A} (x : result A) (t : S) r : check x t = Ok r ↔ ∃ a, x = Ok a ∧ r = (t, a).
Proof. unfold check. destruct x; split; [intros [= <-]; eauto|by intros (? & [= ->] & ->)|done|by intros (? & ? & ?)]. Qed.
Lemma exec_ok {S} (f : S → S) (t : S) r : exec f t = Ok r ↔ r = (f t, tt).
Proof. unfold exec. split; [by intros [= <-]|by intros ->]. Qed.

(** Invert a successful body. *)
Ltac inv_tx H :=
  repeat (first
    [ rewrite tx_query in H
    | rewrite tx_exec in H
    | apply tx_check in H; open_step H
    | apply tx_fail_if in H as [? H]
    | apply tx_ret_ok in H; simplify_eq ];
    cbv beta zeta in H).

(** ** Clamped instants *)

Lemma greatest_ns a b : t_ns (greatest a b) = Z.max (t_ns a) (t_ns b).
Proof. unfold greatest, Time_Before. destruct (t_ns a <? t_ns b) eqn:E; lia. Qed.
Lemma least_ns a b : t_ns (least a b) = Z.min (t_ns a) (t_ns b).
Proof. unfold least, Time_Before. destruct (t_ns b <? t_ns a) eqn:E; lia. Qed.
Lemma latestTime_ns a b : normalized a → normalized b → t_ns (latestTime a b) = Z.max (t_ns a) (t_ns b).
Proof.
  intros Ha Hb. unfold latestTime, UTCTime, Time_After. destruct (t_ns a <? t_ns b) eqn:E;
    rewrite normalized_TimeUTC by done; lia.
Qed.
Lemma transitionInstant_ge databaseNow floors floor :
  floor ∈ floors → t_ns (UTCTime floor) ≤ t_ns (transitionInstant databaseNow floors).
Proof.
  unfold transitionInstant. generalize (UTCTime databaseNow).
  assert (Hmono : ∀ l at_, t_ns at_ ≤ t_ns (foldl (λ at_ floor, let floor := UTCTime floor in
            if Time_After floor at_ then floor else at_) at_ l)).
  { induction l as [|x l IH]; intros at_; cbn; [lia|]. etrans; [|apply IH]. unfold Time_After.
    destruct (_ <? _) eqn:E; lia. }
  induction floors as [|x l IH]; intros at_; [by rewrite elem_of_nil|]. cbn. rewrite elem_of_cons.
  intros [->|Hin]; [|by apply IH]. etrans; [|apply Hmono]. unfold Time_After. destruct (_ <? _) eqn:E; lia.
Qed.
