(* ===== verification/Session.v ===== *)
(** * Sessions and their credentials

    Models [server/model/session.go], [server/model/session_credential.go] and
    [server/model/mfa_recovery.go]: one revocable login, its hashed access and refresh
    credentials, and the authentication generation that fences them. *)

From S2P Require Import Prelude GoTime GoStrings Ident ModelError Actions Roles DesktopRelease Principal.

(** ** Revocation reasons: a closed vocabulary of strings *)

Definition SessionRevocationReason : Type := string.
Definition SessionRevocationUserLogout : SessionRevocationReason := "user_logout".
Definition SessionRevocationUserSession : SessionRevocationReason := "user_session".
Definition SessionRevocationUserAllSessions : SessionRevocationReason := "user_all_sessions".
Definition SessionRevocationAdministratorSession : SessionRevocationReason := "administrator_session".
Definition SessionRevocationAdministratorAllSessions : SessionRevocationReason := "administrator_all_sessions".
Definition SessionRevocationAccountDisabled : SessionRevocationReason := "account_disabled".
Definition SessionRevocationPasswordRemoved : SessionRevocationReason := "password_removed".
Definition SessionRevocationExternalIdentityUnlinked : SessionRevocationReason := "external_identity_unlinked".
Definition SessionRevocationMFAReset : SessionRevocationReason := "mfa_reset".
Definition SessionRevocationPasswordReset : SessionRevocationReason := "password_reset".
Definition SessionRevocationPasswordChanged : SessionRevocationReason := "password_changed".
Definition SessionRevocationEmailChangeUndone : SessionRevocationReason := "email_change_undone".
Definition SessionRevocationRefreshReplay : SessionRevocationReason := "refresh_replay".
Definition SessionRevocationInactiveUser : SessionRevocationReason := "inactive_user".
Definition SessionRevocationAuthenticationAuditFailed : SessionRevocationReason := "authentication_audit_failed".
Definition SessionRevocationDesktopAuthorizationFailed : SessionRevocationReason := "desktop_authorization_failed".
Definition SessionRevocationAccessPolicyChanged : SessionRevocationReason := "access_policy_changed".
Definition SessionRevocationDesktopRegistration : SessionRevocationReason := "desktop_registration_revoked".
Definition SessionRevocationAttemptSessionLock : SessionRevocationReason := "exam_attempt_session_lock".
Definition SessionRevocationExpired : SessionRevocationReason := "expired".

Definition SessionRevocationReason_IsValid (r : SessionRevocationReason) : bool :=
  bool_decide (r ∈ [SessionRevocationUserLogout; SessionRevocationUserSession; SessionRevocationUserAllSessions;
    SessionRevocationAdministratorSession; SessionRevocationAdministratorAllSessions; SessionRevocationAccountDisabled;
    SessionRevocationPasswordRemoved; SessionRevocationExternalIdentityUnlinked; SessionRevocationMFAReset;
    SessionRevocationPasswordReset; SessionRevocationPasswordChanged; SessionRevocationEmailChangeUndone;
    SessionRevocationRefreshReplay; SessionRevocationInactiveUser; SessionRevocationAuthenticationAuditFailed;
    SessionRevocationDesktopAuthorizationFailed; SessionRevocationAccessPolicyChanged;
    SessionRevocationDesktopRegistration; SessionRevocationAttemptSessionLock; SessionRevocationExpired]).
Definition IsSystemWithdrawal (r : SessionRevocationReason) : bool :=
  (r ==? SessionRevocationDesktopAuthorizationFailed) || (r ==? SessionRevocationInactiveUser).
Definition AllSessionRevocationReasons : list SessionRevocationReason :=
  [SessionRevocationAccessPolicyChanged; SessionRevocationAccountDisabled; SessionRevocationAdministratorAllSessions;
   SessionRevocationAdministratorSession; SessionRevocationAuthenticationAuditFailed;
   SessionRevocationDesktopAuthorizationFailed; SessionRevocationDesktopRegistration;
   SessionRevocationEmailChangeUndone; SessionRevocationAttemptSessionLock; SessionRevocationExpired;
   SessionRevocationExternalIdentityUnlinked; SessionRevocationInactiveUser; SessionRevocationPasswordChanged;
   SessionRevocationPasswordRemoved; SessionRevocationMFAReset; SessionRevocationPasswordReset;
   SessionRevocationRefreshReplay; SessionRevocationUserAllSessions; SessionRevocationUserLogout;
   SessionRevocationUserSession].

(** ** Sessions *)

Record Session := mkSession {
  ss_ID : ID;
  ss_CreatedAt : Time;
  ss_UpdatedAt : Time;
  ss_ArchivedAt : OptionalTime;
  ss_UserID : ID;
  ss_AuthenticationGeneration : Z;
  ss_MFARecoveryRequired : bool;
  ss_ClientType : SessionClientType;
  ss_DesktopRegistrationID : ID;
  ss_DPoPKeyThumbprint : string;
  ss_DesktopRelease : string;
  ss_DesktopBuildID : string;
  ss_DesktopPlatform : DesktopPlatform;
  ss_DesktopArchitecture : DesktopArchitecture;
  ss_DesktopRealtimeProtocol : Z;
  ss_DeviceID : string;
  ss_DeviceName : string;
  ss_AuthenticationMethod : string;
  ss_AuthenticationProviderID : string;
  ss_ExternalIdentityID : ID;
  ss_AuthenticationStrength : AuthenticationStrength;
  ss_AuthenticatedAt : Time;
  ss_ReauthenticatedAt : OptionalTime;
  ss_MFACompletedAt : OptionalTime;
  ss_LastActivityAt : Time;
  ss_IdleExpiresAt : Time;
  ss_ExpiresAt : Time;
  ss_RevokedAt : OptionalTime;
  ss_RevocationReason : SessionRevocationReason }.
#[export] Instance Session_eta : Eta Session := λ s, mkSession (ss_ID s) (ss_CreatedAt s) (ss_UpdatedAt s)
  (ss_ArchivedAt s) (ss_UserID s) (ss_AuthenticationGeneration s) (ss_MFARecoveryRequired s) (ss_ClientType s)
  (ss_DesktopRegistrationID s) (ss_DPoPKeyThumbprint s) (ss_DesktopRelease s) (ss_DesktopBuildID s)
  (ss_DesktopPlatform s) (ss_DesktopArchitecture s) (ss_DesktopRealtimeProtocol s) (ss_DeviceID s)
  (ss_DeviceName s) (ss_AuthenticationMethod s) (ss_AuthenticationProviderID s) (ss_ExternalIdentityID s)
  (ss_AuthenticationStrength s) (ss_AuthenticatedAt s) (ss_ReauthenticatedAt s) (ss_MFACompletedAt s)
  (ss_LastActivityAt s) (ss_IdleExpiresAt s) (ss_ExpiresAt s) (ss_RevokedAt s) (ss_RevocationReason s).

Definition SessionDeviceIDMaxLength : Z := 128.
Definition SessionDeviceNameMaxRunes : Z := 128.
Definition SessionRevocationMaxRunes : Z := 256.
Definition SessionAuthenticationMaxLength : Z := 64.

(** [if o.Valid { o = o.UTC() }] *)
Definition utc_if_valid (o : OptionalTime) : OptionalTime := if ot_Valid o then OptionalTime_UTC o else o.

Definition Session_PrepareCreate (s : Session) (id : ID) (at_ : Time) : Session :=
  let at_ := TimeUTC at_ in
  s <| ss_ID := id |>
    <| ss_CreatedAt := at_ |>
    <| ss_UpdatedAt := at_ |>
    <| ss_ArchivedAt := noTime |>
    <| ss_AuthenticatedAt := if Time_IsZero (ss_AuthenticatedAt s) then at_ else TimeUTC (ss_AuthenticatedAt s) |>
    <| ss_LastActivityAt := if Time_IsZero (ss_LastActivityAt s) || Time_Before (ss_LastActivityAt s) at_ then at_
                            else TimeUTC (ss_LastActivityAt s) |>
    <| ss_IdleExpiresAt := TimeUTC (ss_IdleExpiresAt s) |>
    <| ss_ExpiresAt := TimeUTC (ss_ExpiresAt s) |>
    <| ss_MFACompletedAt := utc_if_valid (ss_MFACompletedAt s) |>
    <| ss_ReauthenticatedAt := utc_if_valid (ss_ReauthenticatedAt s) |>
    <| ss_RevokedAt := utc_if_valid (ss_RevokedAt s) |>
    <| ss_DeviceID := SanitizeUnicode (ss_DeviceID s) |>
    <| ss_DeviceName := SanitizeUnicode (ss_DeviceName s) |>
    <| ss_AuthenticationMethod := SanitizeUnicode (ss_AuthenticationMethod s) |>
    <| ss_AuthenticationProviderID := SanitizeUnicode (ss_AuthenticationProviderID s) |>
    <| ss_RevocationReason := SanitizeUnicode (ss_RevocationReason s) |>.

Definition Session_PrepareUpdate (s : Session) (at_ : Time) : Session :=
  s <| ss_UpdatedAt := TimeUTC at_ |>
    <| ss_DeviceID := SanitizeUnicode (ss_DeviceID s) |>
    <| ss_DeviceName := SanitizeUnicode (ss_DeviceName s) |>
    <| ss_AuthenticationMethod := SanitizeUnicode (ss_AuthenticationMethod s) |>
    <| ss_AuthenticationProviderID := SanitizeUnicode (ss_AuthenticationProviderID s) |>
    <| ss_RevocationReason := SanitizeUnicode (ss_RevocationReason s) |>.

Definition session_error (s : Session) (field reason : string) : error :=
  invalidModelError "session" field reason ("id=" +:+ ss_ID s).

Definition validateAuthentication (s : Session) : result unit :=
  let err := session_error s in
  fail_if (len (ss_AuthenticationMethod s) =? 0)
          || (SessionAuthenticationMaxLength <? len (ss_AuthenticationMethod s))
          || negb (validName (ss_AuthenticationMethod s))
    with err "authentication_method" "has an invalid format" ;;
  fail_if (ss_AuthenticationProviderID s ==? "") && (ss_AuthenticationMethod s !=? "password")
    with err "authentication_provider_id" "is required for an external authentication method" ;;
  fail_if (ss_AuthenticationProviderID s !=? "") && negb (IsValidIdentityProviderID (ss_AuthenticationProviderID s))
    with err "authentication_provider_id" "has an invalid format" ;;
  fail_if (ss_AuthenticationProviderID s ==? "") && negb (ID_IsZero (ss_ExternalIdentityID s))
    with err "external_identity_id" "must be empty for local authentication" ;;
  fail_if (ss_AuthenticationProviderID s !=? "") && negb (ID_IsValid (ss_ExternalIdentityID s))
    with err "external_identity_id" "is required for external authentication" ;;
  fail_if negb (AuthenticationStrength_IsValid (ss_AuthenticationStrength s))
    with err "authentication_strength" "has an unknown value" ;;
  fail_if Time_IsZero (ss_AuthenticatedAt s) || Time_After (ss_AuthenticatedAt s) (ss_CreatedAt s)
    with err "authenticated_at" "must be set and not follow create_at" ;;
  fail_if ot_Valid (ss_ReauthenticatedAt s)
          && (Time_Before (ot_Time (ss_ReauthenticatedAt s)) (ss_AuthenticatedAt s)
              || Time_After (ot_Time (ss_ReauthenticatedAt s)) (ss_UpdatedAt s))
    with err "reauthenticated_at" "is inconsistent" ;;
  fail_if (ss_AuthenticationStrength s ==? AuthenticationMultiFactor)
          && (negb (ot_Valid (ss_MFACompletedAt s))
              || Time_Before (ot_Time (ss_MFACompletedAt s)) (ss_AuthenticatedAt s)
              || Time_After (ot_Time (ss_MFACompletedAt s)) (ss_UpdatedAt s))
    with err "mfa_completed_at" "is inconsistent" ;;
  fail_if (ss_AuthenticationStrength s ==? AuthenticationSingleFactor) && ot_Valid (ss_MFACompletedAt s)
    with err "mfa_completed_at" "must be empty for single-factor authentication" ;;
  Ok tt.

Definition validateLifecycle (s : Session) : result unit :=
  let err := session_error s in
  fail_if Time_Before (ss_LastActivityAt s) (ss_CreatedAt s)
    with err "last_activity_at" "must not precede create_at" ;;
  fail_if negb (Time_After (ss_ExpiresAt s) (ss_CreatedAt s))
    with err "expires_at" "must be after create_at" ;;
  fail_if negb (Time_After (ss_IdleExpiresAt s) (ss_LastActivityAt s)) || Time_After (ss_IdleExpiresAt s) (ss_ExpiresAt s)
    with err "idle_expires_at" "must be after last_activity_at and no later than expires_at" ;;
  fail_if ot_Valid (ss_ArchivedAt s) && Time_Before (ot_Time (ss_ArchivedAt s)) (ss_CreatedAt s)
    with err "archived_at" "must not precede created_at" ;;
  fail_if ot_Valid (ss_RevokedAt s) && Time_Before (ot_Time (ss_RevokedAt s)) (ss_CreatedAt s)
    with err "revoked_at" "must not precede create_at" ;;
  fail_if SessionRevocationMaxRunes <? RuneCountInString (ss_RevocationReason s)
    with err "revocation_reason" "is too long" ;;
  fail_if negb (ot_Valid (ss_RevokedAt s)) && (ss_RevocationReason s !=? "")
    with err "revocation_reason" "must be empty when the session is not revoked" ;;
  fail_if ot_Valid (ss_RevokedAt s) && negb (SessionRevocationReason_IsValid (ss_RevocationReason s))
    with err "revocation_reason" "has an unknown value" ;;
  Ok tt.

(** The Desktop binding: complete for a Desktop Session, absent from any other. *)
Definition desktop_bound (s : Session) : bool :=
  ID_IsValid (ss_DesktopRegistrationID s) && IsValidDPoPKeyThumbprint (ss_DPoPKeyThumbprint s)
  && IsValidDesktopRelease (ss_DesktopRelease s) && IsValidDesktopBuildID (ss_DesktopBuildID s)
  && DesktopPlatform_IsValid (ss_DesktopPlatform s) && DesktopArchitecture_IsValid (ss_DesktopArchitecture s)
  && (1 <=? ss_DesktopRealtimeProtocol s).
Definition desktop_unbound (s : Session) : bool :=
  ID_IsZero (ss_DesktopRegistrationID s) && (ss_DPoPKeyThumbprint s ==? "") && (ss_DesktopRelease s ==? "")
  && (ss_DesktopBuildID s ==? "") && (ss_DesktopPlatform s ==? DesktopPlatform_other "")
  && (ss_DesktopArchitecture s ==? DesktopArchitecture_other "") && (ss_DesktopRealtimeProtocol s =? 0).

Definition Session_Validate (s : Session) : result unit :=
  fail_if negb (ID_IsValid (ss_ID s)) with invalidModelError "session" "id" "must be a valid identifier" "" ;;
  let err := session_error s in
  fail_if Time_IsZero (ss_CreatedAt s) || Time_IsZero (ss_UpdatedAt s) with err "created_at" "must be set" ;;
  fail_if Time_Before (ss_UpdatedAt s) (ss_CreatedAt s) with err "updated_at" "must not precede created_at" ;;
  fail_if (ss_AuthenticationGeneration s <? 0)
          || (ss_MFARecoveryRequired s
              && ((ss_AuthenticationGeneration s =? 0) || (ss_ClientType s !=? SessionClientWeb)))
    with err "authentication_generation" "is inconsistent" ;;
  fail_if negb (ID_IsValid (ss_UserID s)) with err "user_id" "must be a valid identifier" ;;
  fail_if negb (SessionClientType_IsValid (ss_ClientType s)) with err "client_type" "has an unknown value" ;;
  fail_if (ss_ClientType s ==? SessionClientDesktop) && negb (desktop_bound s)
    with err "desktop_registration" "is required and valid for a Desktop Session" ;;
  fail_if (ss_ClientType s !=? SessionClientDesktop) && negb (desktop_unbound s)
    with err "desktop_registration" "must be empty for a non-Desktop Session" ;;
  fail_if SessionDeviceIDMaxLength <? len (ss_DeviceID s) with err "device_id" "is too long" ;;
  fail_if SessionDeviceNameMaxRunes <? RuneCountInString (ss_DeviceName s) with err "device_name" "is too long" ;;
  _ ← validateAuthentication s;
  validateLifecycle s.

(** A nil Session is expired. *)
Definition Session_IsExpiredAt (s : option Session) (now : Time) : bool :=
  match s with
  | None => true
  | Some s =>
      let now := TimeUTC now in
      ot_Valid (ss_ArchivedAt s) || ot_Valid (ss_RevokedAt s)
      || negb (Time_Before now (ss_IdleExpiresAt s)) || negb (Time_Before now (ss_ExpiresAt s))
  end.

(** ** Credentials *)

Inductive SessionCredentialKind :=
  | SessionCredentialAccess
  | SessionCredentialRefresh
  | SessionCredentialKind_other (raw : string).
#[export] Instance SessionCredentialKind_eq_dec : EqDecision SessionCredentialKind.
Proof. solve_decision. Defined.
Definition SessionCredentialKind_IsValid (k : SessionCredentialKind) : bool :=
  (k ==? SessionCredentialAccess) || (k ==? SessionCredentialRefresh).

Record SessionCredential := mkSessionCredential {
  cr_ID : ID;
  cr_CreatedAt : Time;
  cr_UpdatedAt : Time;
  cr_ArchivedAt : OptionalTime;
  cr_SessionID : ID;
  cr_Kind : SessionCredentialKind;
  cr_TokenHash : string;
  cr_FamilyID : string;
  cr_ParentID : ID;
  cr_ReplacedByID : ID;
  cr_ExpiresAt : Time;
  cr_UsedAt : OptionalTime;
  cr_RevokedAt : OptionalTime }.
#[export] Instance SessionCredential_eta : Eta SessionCredential := λ c, mkSessionCredential (cr_ID c)
  (cr_CreatedAt c) (cr_UpdatedAt c) (cr_ArchivedAt c) (cr_SessionID c) (cr_Kind c) (cr_TokenHash c)
  (cr_FamilyID c) (cr_ParentID c) (cr_ReplacedByID c) (cr_ExpiresAt c) (cr_UsedAt c) (cr_RevokedAt c).

(** [family] is the identifier drawn by [NewID] when a refresh credential has none. *)
Definition SessionCredential_PrepareCreate (c : SessionCredential) (id : ID) (family : string) (at_ : Time)
    : SessionCredential :=
  let at_ := TimeUTC at_ in
  c <| cr_ID := id |>
    <| cr_CreatedAt := at_ |>
    <| cr_UpdatedAt := at_ |>
    <| cr_ArchivedAt := noTime |>
    <| cr_ExpiresAt := TimeUTC (cr_ExpiresAt c) |>
    <| cr_FamilyID := if (cr_Kind c ==? SessionCredentialRefresh) && (cr_FamilyID c ==? "") then family
                      else cr_FamilyID c |>
    <| cr_UsedAt := utc_if_valid (cr_UsedAt c) |>
    <| cr_RevokedAt := utc_if_valid (cr_RevokedAt c) |>.
Definition SessionCredential_PrepareUpdate (c : SessionCredential) (at_ : Time) : SessionCredential :=
  c <| cr_UpdatedAt := TimeUTC at_ |>.

Definition credential_error (c : SessionCredential) (field reason : string) : error :=
  invalidModelError "session_credential" field reason ("id=" +:+ cr_ID c).

Definition validateRefreshRotation (c : SessionCredential) : result unit :=
  let err := credential_error c in
  fail_if negb (IsValidOpaqueID (cr_FamilyID c)) with err "family_id" "must be a valid identifier for refresh credentials" ;;
  fail_if negb (ID_IsZero (cr_ParentID c)) && negb (ID_IsValid (cr_ParentID c))
    with err "parent_id" "must be a valid identifier" ;;
  fail_if cr_ParentID c ==? cr_ID c with err "parent_id" "must not reference the credential itself" ;;
  fail_if negb (ID_IsZero (cr_ReplacedByID c)) && negb (ID_IsValid (cr_ReplacedByID c))
    with err "replaced_by_id" "must be a valid identifier" ;;
  fail_if cr_ReplacedByID c ==? cr_ID c with err "replaced_by_id" "must not reference the credential itself" ;;
  fail_if negb (ID_IsZero (cr_ReplacedByID c)) && negb (ot_Valid (cr_UsedAt c))
    with err "replaced_by_id" "requires used_at to be set" ;;
  Ok tt.

Definition SessionCredential_Validate (c : SessionCredential) : result unit :=
  fail_if negb (ID_IsValid (cr_ID c)) with invalidModelError "session_credential" "id" "must be a valid identifier" "" ;;
  let err := credential_error c in
  fail_if Time_IsZero (cr_CreatedAt c) || Time_IsZero (cr_UpdatedAt c) with err "created_at" "must be set" ;;
  fail_if Time_Before (cr_UpdatedAt c) (cr_CreatedAt c) with err "updated_at" "must not precede created_at" ;;
  fail_if negb (ID_IsValid (cr_SessionID c)) with err "session_id" "must be a valid identifier" ;;
  fail_if negb (SessionCredentialKind_IsValid (cr_Kind c)) with err "kind" "has an unknown value" ;;
  fail_if negb (IsValidTokenHash (cr_TokenHash c)) with err "token_hash" "has an invalid format" ;;
  fail_if negb (Time_After (cr_ExpiresAt c) (cr_CreatedAt c)) with err "expires_at" "must be after create_at" ;;
  fail_if (cr_Kind c ==? SessionCredentialAccess)
          && ((cr_FamilyID c !=? "") || negb (ID_IsZero (cr_ParentID c)) || negb (ID_IsZero (cr_ReplacedByID c))
              || ot_Valid (cr_UsedAt c))
    with err "kind" "access credentials cannot contain refresh rotation state" ;;
  _ ← (if cr_Kind c ==? SessionCredentialAccess then Ok tt else validateRefreshRotation c);
  fail_if ot_Valid (cr_UsedAt c)
          && (Time_Before (ot_Time (cr_UsedAt c)) (cr_CreatedAt c)
              || negb (Time_Before (ot_Time (cr_UsedAt c)) (cr_ExpiresAt c)))
    with err "used_at" "must be within the credential lifetime" ;;
  fail_if ot_Valid (cr_ArchivedAt c) && Time_Before (ot_Time (cr_ArchivedAt c)) (cr_CreatedAt c)
    with err "archived_at" "must not precede created_at" ;;
  fail_if ot_Valid (cr_RevokedAt c) && Time_Before (ot_Time (cr_RevokedAt c)) (cr_CreatedAt c)
    with err "revoked_at" "must not precede create_at" ;;
  Ok tt.

Definition SessionCredential_IsExpiredAt (c : option SessionCredential) (now : Time) : bool :=
  match c with
  | None => true
  | Some c =>
      let now := TimeUTC now in
      ot_Valid (cr_ArchivedAt c) || ot_Valid (cr_RevokedAt c) || negb (Time_Before now (cr_ExpiresAt c))
  end.

(** ** The recovery fence *)

Record UserMFARecovery := mkUserMFARecovery {
  mr_UserID : ID;
  mr_Generation : Z;
  mr_ResetAt : OptionalTime;
  mr_ReenrollmentRequired : bool;
  mr_UpdatedAt : Time }.

Definition UserMFARecovery_Validate (r : UserMFARecovery) : result unit :=
  fail_if negb (ID_IsValid (mr_UserID r)) || (mr_Generation r <? 0)
          || ((mr_Generation r =? 0)
              && (ot_Valid (mr_ResetAt r) || mr_ReenrollmentRequired r || negb (Time_IsZero (mr_UpdatedAt r))))
          || ((0 <? mr_Generation r)
              && (negb (ot_Valid (mr_ResetAt r)) || Time_IsZero (ot_Time (mr_ResetAt r))
                  || Time_Before (mr_UpdatedAt r) (ot_Time (mr_ResetAt r))))
    with invalidModelError "user_mfa_recovery" "state" "is inconsistent" "" ;;
  Ok tt.

(** ** Facts *)

(** The closed vocabulary is listed completely and without repetition; the list is not
    in the lexical order its comment announces: [mfa_reset] follows [password_removed]. *)
Lemma AllSessionRevocationReasons_exact r :
  SessionRevocationReason_IsValid r = true ↔ r ∈ AllSessionRevocationReasons.
Proof. unfold SessionRevocationReason_IsValid. rewrite bool_decide_eq_true. unfold AllSessionRevocationReasons. set_solver. Qed.
Lemma AllSessionRevocationReasons_NoDup : NoDup AllSessionRevocationReasons.
Proof. by apply (bool_decide_unpack _); vm_compute. Qed.

Lemma AllSessionRevocationReasons_unordered :
  ∃ i a b, AllSessionRevocationReasons !! i = Some a ∧ AllSessionRevocationReasons !! S i = Some b ∧
           (a ?= b)%string = Gt.
Proof. by exists 13%nat, SessionRevocationPasswordRemoved, SessionRevocationMFAReset. Qed.

(** What an accepted credential promises. *)
Lemma SessionCredential_Validate_ok c :
  SessionCredential_Validate c = Ok tt →
  ID_IsValid (cr_ID c) = true ∧ IsValidTokenHash (cr_TokenHash c) = true ∧
  (cr_Kind c = SessionCredentialAccess ∨ cr_Kind c = SessionCredentialRefresh) ∧
  t_ns (cr_CreatedAt c) < t_ns (cr_ExpiresAt c) ∧
  (cr_Kind c = SessionCredentialAccess → cr_ParentID c = "" ∧ cr_ReplacedByID c = "" ∧ ot_Valid (cr_UsedAt c) = false) ∧
  (ID_IsZero (cr_ReplacedByID c) = false → ot_Valid (cr_UsedAt c) = true).
Proof.
  unfold SessionCredential_Validate, SessionCredentialKind_IsValid. cbv zeta. rewrite !ok_fail_if, ok_bind.
  intros (H1 & _ & _ & _ & Hk & Hh & He & Ha & [] & Hr & _).
  unfold ID_IsZero in *. to_prop. split_and!; try done.
  - intros Hka. destruct Ha as [Ha|Ha]; [done|]. tauto.
  - intros Hz. destruct (bool_decide (cr_Kind c = SessionCredentialAccess)) eqn:E; to_prop; [naive_solver|].
    unfold validateRefreshRotation, ID_IsZero in Hr. cbv zeta in Hr. rewrite !ok_fail_if in Hr.
    destruct Hr as (_ & _ & _ & _ & _ & Hr & _). to_prop. naive_solver.
Qed.

Lemma Session_Validate_idle s :
  Session_Validate s = Ok tt → t_ns (ss_LastActivityAt s) < t_ns (ss_IdleExpiresAt s) ≤ t_ns (ss_ExpiresAt s).
Proof.
  unfold Session_Validate, validateLifecycle. cbv zeta. rewrite !ok_fail_if, ok_bind.
  intros (_ & _ & _ & _ & _ & _ & _ & _ & _ & _ & ? & _ & H). rewrite !ok_fail_if in H. to_prop. lia.
Qed.

#[global] Arguments Session_Validate : simpl never.
#[global] Arguments SessionCredential_Validate : simpl never.
#[global] Arguments SessionRevocationReason_IsValid : simpl never.
