(* ===== verification/SessionStore.v ===== *)
(** * The session store

    Models the session tables and the operations that write them:
    [server/store/sqlstore/session_store.go], [session_credential_store.go],
    [session_purge_store.go] and the recovery fence of [mfa_recovery_fence.go].  Each
    operation holds the per-user advisory lock for the length of its transaction, so a
    run is a sequence of whole transactions.  Identifiers drawn by the operations and
    the clocks they read are arguments. *)

From S2P Require Import Prelude GoTime GoStrings Ident ModelError Actions Roles DesktopRelease Principal SqlTx Session.

(** ** Tables *)

Record UserRow := mkUserRow {
  ur_CreatedAt : Time;
  ur_UpdatedAt : Time;
  ur_ArchivedAt : OptionalTime;
  ur_DisabledAt : OptionalTime;
  ur_LastLoginAt : OptionalTime;
  ur_LastActivityAt : OptionalTime }.
#[export] Instance UserRow_eta : Eta UserRow := λ u, mkUserRow (ur_CreatedAt u) (ur_UpdatedAt u)
  (ur_ArchivedAt u) (ur_DisabledAt u) (ur_LastLoginAt u) (ur_LastActivityAt u).

(** Rows by primary key, with the Sessions and the credentials that records outside
    these tables name. *)
Record SessionTables := mkSessionTables {
  tb_users : gmap ID UserRow;
  tb_recovery : gmap ID UserMFARecovery;
  tb_session_refs : gset ID;
  tb_credential_refs : gset ID;
  tb_sessions : gmap ID Session;
  tb_credentials : gmap ID SessionCredential }.
#[export] Instance SessionTables_eta : Eta SessionTables := λ t, mkSessionTables (tb_users t) (tb_recovery t)
  (tb_session_refs t) (tb_credential_refs t) (tb_sessions t) (tb_credentials t).

Notation Db := (Tx SessionTables).

(** [UPDATE sessions] and [UPDATE session_credentials]. *)
Definition update_sessions (p : Session → bool) (f : Session → Session) (db : SessionTables) : SessionTables :=
  db <| tb_sessions := set_where p f (tb_sessions db) |>.
Definition update_credentials (p : SessionCredential → bool) (f : SessionCredential → SessionCredential)
    (db : SessionTables) : SessionTables :=
  db <| tb_credentials := set_where p f (tb_credentials db) |>.

(** Conditions and assignments the statements share. *)
Definition session_live (s : Session) : bool := negb (ot_Valid (ss_ArchivedAt s)) && negb (ot_Valid (ss_RevokedAt s)).
Definition credential_live (c : SessionCredential) : bool :=
  negb (ot_Valid (cr_ArchivedAt c)) && negb (ot_Valid (cr_RevokedAt c)).
Definition revoke_session_row (at_ : Time) (reason : SessionRevocationReason) (s : Session) : Session :=
  s <| ss_UpdatedAt := greatest (ss_UpdatedAt s) at_ |>
    <| ss_RevokedAt := mkOptionalTime (greatest (ss_CreatedAt s) at_) true |>
    <| ss_RevocationReason := reason |>.
Definition revoke_credential_row (at_ : Time) (c : SessionCredential) : SessionCredential :=
  c <| cr_UpdatedAt := greatest (cr_UpdatedAt c) at_ |>
    <| cr_RevokedAt := mkOptionalTime (greatest (cr_CreatedAt c) at_) true |>.

(** Rehydration validates a row. *)
Definition sessionRow_model (row : Session) : result Session :=
  _ ← validatePersistedModel "session" Session_Validate row; Ok row.
Definition sessionCredentialRow_model (row : SessionCredential) : result SessionCredential :=
  _ ← validatePersistedModel "session_credential" SessionCredential_Validate row; Ok row.

(** ** Inserts *)

Definition constraint_error (kind : StoreErrorKind) (resource constraint : string) : error :=
  StoreError kind resource constraint (Some (SentinelError ("pq: " +:+ constraint))).

(** [insertSessionCredential] with the keys of the table; the CHECK constraints follow
    from the validation that precedes every insert. *)
Definition insertSessionCredential (c : SessionCredential) : Db unit :=
  db ← query id;
  let refuse kind constraint :=
    WrappedError "save session credential" (constraint_error kind "session_credential" constraint) in
  fail_if bool_decide (is_Some (tb_credentials db !! cr_ID c))
    with refuse ErrConflict "session_credentials_pkey" ;;
  fail_if negb (length (select (λ c', cr_TokenHash c' ==? cr_TokenHash c) (tb_credentials db)) =? 0)%nat
    with refuse ErrConflict "session_credentials_token_hash_key" ;;
  fail_if negb (bool_decide (is_Some (tb_sessions db !! cr_SessionID c)))
    with refuse ErrReference "session_credentials_session_id_fkey" ;;
  fail_if negb (ID_IsZero (cr_ParentID c)) && negb (bool_decide (is_Some (tb_credentials db !! cr_ParentID c)))
    with refuse ErrReference "session_credentials_parent_id_fkey" ;;
  exec (λ db, db <| tb_credentials := <[cr_ID c := c]> (tb_credentials db) |>).

Definition insertSession (s : Session) : Db unit :=
  db ← query id;
  let refuse kind constraint := WrappedError "save session" (constraint_error kind "session" constraint) in
  fail_if bool_decide (is_Some (tb_sessions db !! ss_ID s)) with refuse ErrConflict "sessions_pkey" ;;
  fail_if negb (bool_decide (is_Some (tb_users db !! ss_UserID s))) with refuse ErrReference "sessions_user_id_fkey" ;;
  exec (λ db, db <| tb_sessions := <[ss_ID s := s]> (tb_sessions db) |>).

(** ** Issuance *)

Definition credential_input (field : string) : error := StoreError ErrInvalidInput "session_credential" field None.
Definition session_input (field : string) : error := StoreError ErrInvalidInput "session" field None.

(** The loop of [prepareInitialSessionCredentials] with its [kinds] map; [draws] are the
    identifier and the family each iteration draws. *)
Fixpoint prepare_credentials (session : Session) (at_ : Time) (kinds : list SessionCredentialKind)
    (credentials : list (option SessionCredential)) (draws : list (ID * string))
    : result (list SessionCredentialKind * list SessionCredential) :=
  match credentials, draws with
  | [], _ => Ok (kinds, [])
  | None :: _, _ => mthrow (credential_input "value")
  | Some credential :: credentials, draws =>
      fail_if negb (ID_IsZero (cr_ID credential)) with credential_input "id" ;;
      let '(id, family) := default ("", "") (head draws) in
      let candidate := SessionCredential_PrepareCreate (credential <| cr_SessionID := ss_ID session |>) id family at_ in
      _ ← SessionCredential_Validate candidate;
      fail_if Time_After (cr_ExpiresAt candidate) (ss_ExpiresAt session) with credential_input "expires_at" ;;
      fail_if bool_decide (cr_Kind candidate ∈ kinds) with credential_input "kind" ;;
      '(kinds, prepared) ← prepare_credentials session at_ (cr_Kind candidate :: kinds) credentials (tail draws);
      Ok (kinds, candidate :: prepared)
  end.
Definition prepareInitialSessionCredentials (session : Session) (credentials : list (option SessionCredential))
    (draws : list (ID * string)) (at_ : Time) : result (list SessionCredential) :=
  fail_if negb (length credentials =? 2)%nat with session_input "credentials" ;;
  '(kinds, prepared) ← prepare_credentials session at_ [] credentials draws;
  fail_if negb (bool_decide (SessionCredentialAccess ∈ kinds)) || negb (bool_decide (SessionCredentialRefresh ∈ kinds))
    with session_input "credentials" ;;
  Ok prepared.

Definition active_session (userID : ID) (at_ : Time) (s : Session) : bool :=
  (ss_UserID s ==? userID) && session_live s && Time_After (ss_IdleExpiresAt s) at_ && Time_After (ss_ExpiresAt s) at_.

Fixpoint each {S A} (f : A → Tx S unit) (l : list A) : Tx S unit :=
  match l with [] => mret tt | a :: l => _ ← f a; each f l end.

Definition user_live (u : UserRow) : bool := negb (ot_Valid (ur_ArchivedAt u)) && negb (ot_Valid (ur_DisabledAt u)).

(** [UPDATE users] of a login. *)
Definition record_login (id : ID) (at_ : Time) (db : SessionTables) : SessionTables :=
  db <| tb_users := alter (λ u, if user_live u then
        u <| ur_UpdatedAt := greatest (ur_UpdatedAt u) at_ |>
          <| ur_LastLoginAt := greatest_opt (ur_LastLoginAt u) (greatest (ur_CreatedAt u) at_) |>
          <| ur_LastActivityAt := greatest_opt (ur_LastActivityAt u) (greatest (ur_CreatedAt u) at_) |>
      else u) id (tb_users db) |>.

Definition insertIssuedSession (candidate : Session) (prepared : list SessionCredential) (maximumActive : Z) : Db unit :=
  db ← query id;
  let active := Z.of_nat (affected (active_session (ss_UserID candidate) (ss_CreatedAt candidate)) (tb_sessions db)) in
  fail_if maximumActive <=? active with StoreError ErrConflict "session" "sessions_maximum_per_user" None ;;
  _ ← insertSession candidate;
  _ ← each insertSessionCredential prepared;
  users ← query tb_users;
  _ ← check (match users !! ss_UserID candidate with
             | Some u => fail_if negb (user_live u) with not_found "user" (ss_UserID candidate) ;; Ok tt
             | None => mthrow (not_found "user" (ss_UserID candidate))
             end);
  exec (record_login (ss_UserID candidate) (ss_CreatedAt candidate)).

(** [saveSession]: [issuance] is the answer of [requireSessionIssuance] (sign-in method,
    recovery, password proof, Attempt lock and external identity) and [audit] that of
    the completion of the audit event; both concern other tables. *)
Definition saveSession (issuance audit : result unit) (candidate : Session) (prepared : list SessionCredential)
    (maximumActive : Z) : Db (Session * list SessionCredential) :=
  _ ← check issuance;
  _ ← insertIssuedSession candidate prepared maximumActive;
  _ ← check audit;
  mret (candidate, prepared).

Record PasswordCredentialProof := mkPasswordCredentialProof { pp_ID : ID; pp_Revision : Z }.
Definition PasswordCredentialProof_IsValid (p : PasswordCredentialProof) : bool :=
  ID_IsValid (pp_ID p) && (0 <? pp_Revision p).

Record SessionCreation := mkSessionCreation {
  in_Session : option Session;
  in_Credentials : list (option SessionCredential);
  in_MaximumActive : Z;
  in_PasswordProof : PasswordCredentialProof;
  in_AuditEventID : ID;
  in_AuditAt : Time }.

(** [Save]: [id] and [draws] are the identifiers drawn, [at_] the node's clock. *)
Definition Save (d : driver) (issuance audit : result unit) (id : ID) (draws : list (ID * string)) (at_ : Time)
    (input : option SessionCreation) (db : SessionTables) : SessionTables * result (Session * list SessionCredential) :=
  let prepare : result (SessionCreation * Session * list SessionCredential) :=
    match input with
    | Some input =>
      match in_Session input with
      | Some session =>
        fail_if negb (ID_IsValid (in_AuditEventID input)) || Time_IsZero (in_AuditAt input) with session_input "audit" ;;
        let proof := in_PasswordProof input in
        fail_if (ss_AuthenticationMethod session ==? "password") && negb (PasswordCredentialProof_IsValid proof)
          with SentinelError "password credential has changed" ;;
        fail_if (ss_AuthenticationMethod session !=? "password")
                && negb (ID_IsZero (pp_ID proof) && (pp_Revision proof =? 0))
          with session_input "password_proof" ;;
        fail_if negb (ID_IsZero (ss_ID session)) with session_input "id" ;;
        fail_if in_MaximumActive input <? 1 with session_input "maximum_active" ;;
        let candidate := Session_PrepareCreate session id (TimeUTC at_) in
        _ ← Session_Validate candidate;
        prepared ← prepareInitialSessionCredentials candidate (in_Credentials input) draws (TimeUTC at_);
        Ok (input, candidate, prepared)
      | None => mthrow (session_input "value")
      end
    | None => mthrow (session_input "value")
    end in
  match prepare with
  | Err e => (db, Err e)
  | Ok (input, candidate, prepared) =>
      runSQLTransaction d "session save" (saveSession issuance audit candidate prepared (in_MaximumActive input)) db
  end.

(** ** Activity and revocation *)

Record SessionActivityUpdate := mkSessionActivityUpdate {
  ua_ID : ID;
  ua_LastActivityAt : Time;
  ua_IdleExpiresAt : Time }.

(** [UpdateActivity] is one statement outside a transaction; [d] answers for it. *)
Definition UpdateActivity (d : driver) (input : SessionActivityUpdate) (db : SessionTables)
    : SessionTables * result unit :=
  let activityAt := TimeUTC (ua_LastActivityAt input) in
  let idleAt := TimeUTC (ua_IdleExpiresAt input) in
  let p s := (ss_ID s ==? ua_ID input) && session_live s
             && Time_After (ss_IdleExpiresAt s) activityAt && Time_After (ss_ExpiresAt s) activityAt in
  let f s := s <| ss_UpdatedAt := greatest (ss_UpdatedAt s) activityAt |>
               <| ss_LastActivityAt := activityAt |>
               <| ss_IdleExpiresAt := least idleAt (ss_ExpiresAt s) |> in
  match dr_begin d with
  | Some e => (db, Err (WrappedError "update session activity" e))
  | None => (update_sessions p f db, requireAffected (affected p (tb_sessions db)) "session" (ua_ID input))
  end.

Definition selectActiveTokenHashes (sessionID : ID) : Db (list string) :=
  query (λ db, cr_TokenHash <$> select (λ c, (cr_SessionID c ==? sessionID) && credential_live c) (tb_credentials db)).

Definition revokeOneUserSessionAt (id userID : ID) (at_ : Time) (reason : SessionRevocationReason) : Db (list string) :=
  let at_ := TimeUTC at_ in
  let p s := (ss_ID s ==? id) && (ss_UserID s ==? userID) && session_live s in
  matched ← query (λ db, select p (tb_sessions db));
  _ ← check (get_row "session" id matched);
  hashes ← selectActiveTokenHashes id;
  count ← query (λ db, affected p (tb_sessions db));
  _ ← exec (update_sessions p (revoke_session_row at_ reason));
  _ ← check (requireAffected count "session" id);
  _ ← exec (update_credentials (λ c, (cr_SessionID c ==? id) && credential_live c) (revoke_credential_row at_));
  mret hashes.
Definition revokeOneUserSession (id userID : ID) (revokedAt : Time) (reason : SessionRevocationReason)
    : Db (list string) :=
  revokeOneUserSessionAt id userID (TimeUTC revokedAt) reason.

Record SessionWithdrawal := mkSessionWithdrawal {
  sw_ID : ID;
  sw_UserID : ID;
  sw_RevokedAt : Time;
  sw_Reason : SessionRevocationReason }.
Definition Withdraw (d : driver) (input : SessionWithdrawal) (db : SessionTables) : SessionTables * result (list string) :=
  if negb (IsSystemWithdrawal (sw_Reason input)) then (db, mthrow (session_input "revocation_reason"))
  else runSQLTransaction d "session revocation"
         (revokeOneUserSession (sw_ID input) (sw_UserID input) (sw_RevokedAt input) (sw_Reason input)) db.

(** [session.RevokedAt] and [session.UpdatedAt] of the answer, as the statements wrote them. *)
Definition revoked_answer (session : Session) (at_ : Time) (reason : SessionRevocationReason) : Session :=
  session <| ss_UpdatedAt := if Time_Before (ss_UpdatedAt session) at_ then at_ else ss_UpdatedAt session |>
          <| ss_RevokedAt := OptionalTimeFrom (latestTime (ss_CreatedAt session) at_) |>
          <| ss_RevocationReason := reason |>.

Record SessionExpiryEnforcementResult := mkSessionExpiryEnforcementResult {
  ee_Session : Session;
  ee_TokenHashes : list string;
  ee_Expired : bool }.
Definition EnforceExpiry (d : driver) (id userID : ID) (at_ : Time) (db : SessionTables)
    : SessionTables * result SessionExpiryEnforcementResult :=
  let at_ := TimeUTC at_ in
  if negb (ID_IsValid id) || negb (ID_IsValid userID) || negb (Time_After at_ (UnixMilli 0))
  then (db, mthrow (session_input "expiry"))
  else runSQLTransaction d "session expiry enforcement" (
    rows ← query (λ db, select (λ s, (ss_ID s ==? id) && (ss_UserID s ==? userID) && session_live s) (tb_sessions db));
    row ← check (get_row "session" id rows);
    session ← check (sessionRow_model row);
    if negb (Session_IsExpiredAt (Some session) at_) then mret (mkSessionExpiryEnforcementResult session [] false)
    else hashes ← revokeOneUserSessionAt id userID at_ SessionRevocationExpired;
         mret (mkSessionExpiryEnforcementResult (revoked_answer session at_ SessionRevocationExpired) hashes true)) db.

(** [revokeUserSessionsExceptAt]: the Sessions of the user but [keep], none when empty. *)
Definition revokeUserSessionsExceptAt (userID keep : ID) (at_ : Time) (reason : SessionRevocationReason)
    : Db (list Session * list string) :=
  let at_ := TimeUTC at_ in
  let p s := (ss_UserID s ==? userID) && session_live s && ((keep ==? "") || (ss_ID s !=? keep)) in
  let joined db c := credential_live c
                     && match tb_sessions db !! cr_SessionID c with Some s => p s | None => false end in
  hashes ← query (λ db, cr_TokenHash <$> select (joined db) (tb_credentials db));
  rows ← query (λ db, select p (tb_sessions db));
  _ ← exec (λ db, update_credentials (joined db) (revoke_credential_row at_) db);
  _ ← exec (update_sessions p (revoke_session_row at_ reason));
  mret (rows, hashes).
Definition revokedSessionModelsAt (rows : list Session) (at_ : Time) (reason : SessionRevocationReason)
    : result (list Session) :=
  let at_ := TimeUTC at_ in
  mapM (λ row, session ← sessionRow_model row; Ok (revoked_answer session at_ reason)) rows.

(** ** The recovery fence *)

Definition getMFARecoveryState (userID : ID) : Db UserMFARecovery :=
  fail_if negb (ID_IsValid userID) with StoreError ErrInvalidInput "user_mfa_recovery" "user_id" None ;;
  db ← query id;
  _ ← check (match tb_users db !! userID with
             | Some u => fail_if negb (user_live u) with not_found "user_mfa_recovery" userID ;; Ok tt
             | None => mthrow (not_found "user_mfa_recovery" userID)
             end);
  let state := match tb_recovery db !! userID with
               | Some r => mkUserMFARecovery userID (mr_Generation r) (mr_ResetAt r) (mr_ReenrollmentRequired r)
                             (TimeUTC (mr_UpdatedAt r))
               | None => mkUserMFARecovery userID 0 noTime false zeroTime
               end in
  _ ← check (UserMFARecovery_Validate state);
  mret state.
Definition ErrAuthenticationGenerationChanged : error := SentinelError "authentication generation changed".
Definition requireSessionAuthenticationGeneration (session : Session) : Db unit :=
  state ← getMFARecoveryState (ss_UserID session);
  fail_if negb (ss_AuthenticationGeneration session =? mr_Generation state)
          || negb (Bool.eqb (ss_MFARecoveryRequired session) (mr_ReenrollmentRequired state))
    with ErrAuthenticationGenerationChanged ;;
  mret tt.

(** [currentSessionRecoveryPredicate] *)
Definition current_recovery (db : SessionTables) (s : Session) : bool :=
  let row := tb_recovery db !! ss_UserID s in
  (ss_AuthenticationGeneration s =? default 0 (mr_Generation <$> row))
  && Bool.eqb (ss_MFARecoveryRequired s) (default false (mr_ReenrollmentRequired <$> row)).

Definition GetSessionByTokenHash (db : SessionTables) (tokenHash : string) (kind : SessionCredentialKind)
    : result (SessionCredential * Session) :=
  credentialRow ← get_row "session_credential" tokenHash
    (select (λ c, (cr_TokenHash c ==? tokenHash) && (cr_Kind c ==? kind) && negb (ot_Valid (cr_ArchivedAt c)))
       (tb_credentials db));
  sessionRow ← get_row "session" (cr_SessionID credentialRow)
    (select (λ s, (ss_ID s ==? cr_SessionID credentialRow) && negb (ot_Valid (ss_ArchivedAt s)) && current_recovery db s)
       (tb_sessions db));
  credential ← sessionCredentialRow_model credentialRow;
  session ← sessionRow_model sessionRow;
  Ok (credential, session).

(** ** Rotation *)

Record SessionRotation := mkSessionRotation {
  sr_Session : Session;
  sr_AccessCredential : option SessionCredential;
  sr_RefreshCredential : option SessionCredential;
  sr_RevokedAccessHashes : list string;
  sr_ReplayDetected : bool;
  sr_Expired : bool }.

(** The refresh credential a token hash names. *)
Definition refresh_row (tokenHash : string) (c : SessionCredential) : bool :=
  (cr_TokenHash c ==? tokenHash) && (cr_Kind c ==? SessionCredentialRefresh) && negb (ot_Valid (cr_ArchivedAt c)).

(** The first query, which only names the owner to lock, joins the unarchived Session. *)
Definition lockRefreshCredentialSession (tokenHash : string) : Db (SessionCredential * Session) :=
  owners ← query (λ db, select (λ c, refresh_row tokenHash c
      && match tb_sessions db !! cr_SessionID c with Some s => negb (ot_Valid (ss_ArchivedAt s)) | None => false end)
      (tb_credentials db));
  _ ← check (get_row "session_credential" tokenHash owners);
  currentRows ← query (λ db, select (refresh_row tokenHash) (tb_credentials db));
  currentRow ← check (get_row "session_credential" tokenHash currentRows);
  current ← check (sessionCredentialRow_model currentRow);
  sessionRows ← query (λ db, select (λ s, (ss_ID s ==? cr_SessionID current) && negb (ot_Valid (ss_ArchivedAt s)))
                               (tb_sessions db));
  lockedSessionRow ← check (get_row "session" (cr_SessionID current) sessionRows);
  session ← check (sessionRow_model lockedSessionRow);
  mret (current, session).

Definition selectActiveAccessHashes (sessionID : ID) : Db (list string) :=
  query (λ db, cr_TokenHash <$> select (λ c, (cr_SessionID c ==? sessionID) && (cr_Kind c ==? SessionCredentialAccess)
                                             && credential_live c) (tb_credentials db)).

Definition revokeReplayedSession (session : Session) (now : Time) : Db (Session * list string) :=
  hashes ← selectActiveAccessHashes (ss_ID session);
  _ ← exec (update_credentials (λ c, (cr_SessionID c ==? ss_ID session) && credential_live c) (revoke_credential_row now));
  _ ← exec (update_sessions (λ s, (ss_ID s ==? ss_ID session) && session_live s)
              (revoke_session_row now SessionRevocationRefreshReplay));
  mret (revoked_answer session now SessionRevocationRefreshReplay, hashes).

Definition expireRotatingSession (session : Session) (now : Time) : Db SessionRotation :=
  hashes ← revokeOneUserSessionAt (ss_ID session) (ss_UserID session) now SessionRevocationExpired;
  mret (mkSessionRotation (revoked_answer session now SessionRevocationExpired) None None hashes false true).

(** [accessID] and [refreshID] are the identifiers drawn; the family is inherited. *)
Definition prepareRotatedSessionCredentials (access refresh current : SessionCredential) (session : Session)
    (accessID refreshID : ID) (now : Time) : result (SessionCredential * SessionCredential) :=
  let capped c := if Time_After (cr_ExpiresAt c) (ss_ExpiresAt session) then ss_ExpiresAt session else cr_ExpiresAt c in
  let newAccess := access <| cr_SessionID := ss_ID session |> <| cr_Kind := SessionCredentialAccess |>
                          <| cr_ExpiresAt := capped access |> in
  let newAccess := SessionCredential_PrepareCreate newAccess accessID "" now in
  _ ← SessionCredential_Validate newAccess;
  let newRefresh := refresh <| cr_SessionID := ss_ID session |> <| cr_Kind := SessionCredentialRefresh |>
                            <| cr_FamilyID := cr_FamilyID current |> <| cr_ParentID := cr_ID current |>
                            <| cr_ExpiresAt := capped refresh |> in
  let newRefresh := SessionCredential_PrepareCreate newRefresh refreshID "" now in
  _ ← SessionCredential_Validate newRefresh;
  Ok (newAccess, newRefresh).

Definition mark_used (now : Time) (replacement : ID) (c : SessionCredential) : SessionCredential :=
  c <| cr_UpdatedAt := greatest (cr_UpdatedAt c) now |>
    <| cr_UsedAt := mkOptionalTime (greatest (cr_CreatedAt c) now) true |>
    <| cr_ReplacedByID := replacement |>.

Definition replaceRefreshCredential (session : Session) (current newAccess newRefresh : SessionCredential) (now : Time)
    : Db (list string) :=
  revokedHashes ← selectActiveAccessHashes (ss_ID session);
  _ ← exec (update_credentials (λ c, (cr_SessionID c ==? ss_ID session) && (cr_Kind c ==? SessionCredentialAccess)
                                     && credential_live c) (revoke_credential_row now));
  _ ← insertSessionCredential newAccess;
  _ ← insertSessionCredential newRefresh;
  _ ← exec (update_credentials (λ c, (cr_ID c ==? cr_ID current) && negb (ot_Valid (cr_UsedAt c))
                                     && ID_IsZero (cr_ReplacedByID c)) (mark_used now (cr_ID newRefresh)));
  mret revokedHashes.

Definition touchRotatedSession (session : Session) (idleExpiresAt now : Time) : Db Session :=
  let idleAt := if Time_After idleExpiresAt (ss_ExpiresAt session) then ss_ExpiresAt session else idleExpiresAt in
  let session := session <| ss_LastActivityAt := now |> <| ss_IdleExpiresAt := idleAt |>
    <| ss_UpdatedAt := if Time_Before (ss_UpdatedAt session) now then now else ss_UpdatedAt session |> in
  _ ← exec (update_sessions (λ s, (ss_ID s ==? ss_ID session) && negb (ot_Valid (ss_RevokedAt s)))
              (λ s, s <| ss_UpdatedAt := ss_UpdatedAt session |> <| ss_LastActivityAt := ss_LastActivityAt session |>
                      <| ss_IdleExpiresAt := ss_IdleExpiresAt session |>));
  mret session.

Definition credentials_inactive : error := StoreError ErrConflict "session_credential" "session_credentials_inactive" None.

Definition rotateRefreshCredential (tokenHash : string) (access refresh : SessionCredential) (accessID refreshID : ID)
    (now idleExpiresAt : Time) : Db SessionRotation :=
  '(current, session) ← lockRefreshCredentialSession tokenHash;
  _ ← requireSessionAuthenticationGeneration session;
  if ot_Valid (cr_UsedAt current) || negb (ID_IsZero (cr_ReplacedByID current)) then
    '(session, hashes) ← revokeReplayedSession session now;
    mret (mkSessionRotation session None None hashes true false)
  else
    fail_if ot_Valid (ss_RevokedAt session) with credentials_inactive ;;
    if negb (Time_Before now (ss_IdleExpiresAt session)) || negb (Time_Before now (ss_ExpiresAt session)) then
      expireRotatingSession session now
    else
      fail_if SessionCredential_IsExpiredAt (Some current) now with credentials_inactive ;;
      '(newAccess, newRefresh) ← check (prepareRotatedSessionCredentials access refresh current session accessID refreshID now);
      revokedHashes ← replaceRefreshCredential session current newAccess newRefresh now;
      session ← touchRotatedSession session idleExpiresAt now;
      mret (mkSessionRotation session (Some newAccess) (Some newRefresh) revokedHashes false false).

Record SessionRefreshRotation := mkSessionRefreshRotation {
  rr_TokenHash : string;
  rr_Access : option SessionCredential;
  rr_Refresh : option SessionCredential;
  rr_Now : Time;
  rr_IdleExpiresAt : Time }.

Definition RotateRefresh (d : driver) (accessID refreshID : ID) (input : SessionRefreshRotation) (db : SessionTables)
    : SessionTables * result SessionRotation :=
  let now := TimeUTC (rr_Now input) in
  let idleExpiresAt := TimeUTC (rr_IdleExpiresAt input) in
  match rr_Access input, rr_Refresh input with
  | Some access, Some refresh =>
      if negb (ID_IsZero (cr_ID access)) || negb (ID_IsZero (cr_ID refresh)) then (db, mthrow (credential_input "id"))
      else runSQLTransaction d "refresh rotation"
             (rotateRefreshCredential (rr_TokenHash input) access refresh accessID refreshID now idleExpiresAt) db
  | _, _ => (db, mthrow (credential_input "rotation"))
  end.

(** ** Purging *)

Definition MaximumSessionPurgeBatch : Z := 1000.

(** [CURRENT_TIMESTAMP] less a grace of whole milliseconds. *)
Definition purge_cutoff (now : Time) (grace : Z) : Time := Time_Add now (- (Z.quot grace Millisecond * Millisecond)).
(** [LEAST(..., COALESCE(revoked_at, infinity))] *)
Definition earlier (t : Time) (o : OptionalTime) : Time := if ot_Valid o then least t (ot_Time o) else t.
Definition sessionRetiredAt (s : Session) : Time := earlier (least (ss_ExpiresAt s) (ss_IdleExpiresAt s)) (ss_RevokedAt s).
Definition sessionCredentialRetiredAt (c : SessionCredential) : Time := earlier (cr_ExpiresAt c) (cr_RevokedAt c).

(** [sessionUnreferenced] *)
Definition session_unreferenced (db : SessionTables) (id : ID) : bool :=
  bool_decide (id ∉ tb_session_refs db)
  && forallb (λ own, bool_decide (cr_ID own ∉ tb_credential_refs db)
       && forallb (λ other, negb (((cr_ParentID other ==? cr_ID own) || (cr_ReplacedByID other ==? cr_ID own))
                                  && (cr_SessionID other !=? id))) (select (λ _, true) (tb_credentials db)))
       (select (λ c, cr_SessionID c ==? id) (tb_credentials db)).

Record SessionPurgePosition := mkSessionPurgePosition { po_RetiredAt : Time; po_SessionID : ID }.
Record SessionPurge := mkSessionPurge { sp_Grace : Z; sp_Limit : Z; sp_After : SessionPurgePosition }.
Record SessionPurgeResult := mkSessionPurgeResult {
  pu_Examined : Z;
  pu_Sessions : Z;
  pu_Credentials : Z;
  pu_Next : SessionPurgePosition }.

(** The row comparison with the cursor; identifiers compare as bytes. *)
Definition after_position (after : Time) (afterID : ID) (s : Session) : bool :=
  Time_After (sessionRetiredAt s) after
  || (Time_Equal (sessionRetiredAt s) after && match (afterID ?= ss_ID s)%string with Lt => true | _ => false end).

(** [PurgeRetired] of Sessions: [chosen] are the identifiers in the order, and without
    the locked rows, that the database decides; whatever they are, only retired and
    unreferenced Sessions go, at most [limit] of them. *)
Definition purge_sessions (d : driver) (input : option SessionPurge) (now : Time) (chosen : list ID) (db : SessionTables)
    : SessionTables * result SessionPurgeResult :=
  match input with
  | None => (db, mthrow (session_input "purge"))
  | Some input =>
    let cursor := sp_After input in
    if (sp_Grace input <=? 0) || (sp_Limit input <? 1) || (MaximumSessionPurgeBatch <? sp_Limit input)
       || negb (Bool.eqb (Time_IsZero (po_RetiredAt cursor)) (ID_IsZero (po_SessionID cursor)))
       || (negb (ID_IsZero (po_SessionID cursor)) && negb (ID_IsValid (po_SessionID cursor)))
    then (db, mthrow (session_input "purge"))
    else runSQLTransaction d "session purge" (
      let after := if Time_IsZero (po_RetiredAt cursor) then UnixMilli 0 else po_RetiredAt cursor in
      db ← query id;
      let examined := take (Z.to_nat (sp_Limit input)) (omap (λ id, match tb_sessions db !! id with
        | Some s => if Time_Before (sessionRetiredAt s) (purge_cutoff now (sp_Grace input))
                       && after_position after (po_SessionID cursor) s then Some (id, s) else None
        | None => None end) chosen) in
      match last examined with
      | None => mret (mkSessionPurgeResult 0 0 0 (mkSessionPurgePosition zeroTime ""))
      | Some (lastID, lastRow) =>
        let next := mkSessionPurgePosition (TimeUTC (sessionRetiredAt lastRow)) lastID in
        let purgeable := filter (λ id, session_unreferenced db id = true) (map fst examined) in
        let owned c := bool_decide (cr_SessionID c ∈ purgeable) in
        let purged s := bool_decide (ss_ID s ∈ purgeable) in
        _ ← exec (λ db, db <| tb_credentials := delete_where owned (tb_credentials db) |>);
        _ ← exec (λ db, db <| tb_sessions := delete_where purged (tb_sessions db) |>);
        mret (mkSessionPurgeResult (Z.of_nat (length examined)) (Z.of_nat (affected purged (tb_sessions db)))
                (Z.of_nat (affected owned (tb_credentials db))) next)
      end) db
  end.

Definition detach (ids : list ID) (now : Time) (c : SessionCredential) : SessionCredential :=
  c <| cr_ParentID := if bool_decide (cr_ParentID c ∈ ids) then "" else cr_ParentID c |>
    <| cr_ReplacedByID := if bool_decide (cr_ReplacedByID c ∈ ids) then "" else cr_ReplacedByID c |>
    <| cr_UpdatedAt := greatest (cr_UpdatedAt c) now |>.
Definition purge_credentials (d : driver) (input : option (Z * Z)) (now : Time) (chosen : list ID) (db : SessionTables)
    : SessionTables * result Z :=
  match input with
  | None => (db, mthrow (credential_input "purge"))
  | Some (grace, limit) =>
    if (grace <=? 0) || (limit <? 1) || (MaximumSessionPurgeBatch <? limit) then (db, mthrow (credential_input "purge"))
    else runSQLTransaction d "session credential purge" (
      db ← query id;
      let ids := take (Z.to_nat limit) (filter (λ id, match tb_credentials db !! id with
                   | Some c => Time_Before (sessionCredentialRetiredAt c) (purge_cutoff now grace)
                               && bool_decide (id ∉ tb_credential_refs db)
                   | None => false end = true) chosen) in
      let gone c := bool_decide (cr_ID c ∈ ids) in
      _ ← exec (update_credentials (λ c, (bool_decide (cr_ParentID c ∈ ids) || bool_decide (cr_ReplacedByID c ∈ ids))
                                         && negb (gone c)) (detach ids now));
      _ ← exec (λ db, db <| tb_credentials := delete_where gone (tb_credentials db) |>);
      mret (Z.of_nat (affected gone (tb_credentials db)))) db
  end.
