(* ===== verification/SessionTheorems.v ===== *)
(** * Refresh rotation is safe

    The invariant of the session tables and the security of refresh rotation: a refresh
    token is exchanged once, a replay closes its Session for good, and no sequence of
    operations outlives the absolute expiry of a login. *)

From S2P Require Import Prelude GoTime GoStrings Ident ModelError Actions Roles DesktopRelease Principal SqlTx Session SessionStore.

(** ** The invariant *)

Definition unused (c : SessionCredential) : Prop := ot_Valid (cr_UsedAt c) = false.
Definition is_access (c : SessionCredential) : Prop := cr_Kind c = SessionCredentialAccess.
Definition is_refresh (c : SessionCredential) : Prop := cr_Kind c = SessionCredentialRefresh.
Definition replaced_used (c : SessionCredential) : Prop :=
  ID_IsZero (cr_ReplacedByID c) = false → ot_Valid (cr_UsedAt c) = true.

(** At most one credential of a Session satisfies [P]. *)
Definition at_most_one (P : SessionCredential → Prop) (db : SessionTables) : Prop :=
  ∀ id1 id2 c1 c2, tb_credentials db !! id1 = Some c1 → tb_credentials db !! id2 = Some c2 →
    cr_SessionID c1 = cr_SessionID c2 → P c1 → P c2 → id1 = id2.
Definition live_access (c : SessionCredential) : Prop := is_access c ∧ credential_live c = true.
Definition unused_refresh (c : SessionCredential) : Prop := is_refresh c ∧ unused c.

(** Keys name rows and tokens name credentials; a Session has at most one live access
    and one unused refresh credential; a replaced credential is used; nothing outlives
    the absolute expiry of its Session. *)
Record session_wf (db : SessionTables) : Prop := {
  wf_session_key : ∀ id s, tb_sessions db !! id = Some s → ss_ID s = id;
  wf_credential_key : ∀ id c, tb_credentials db !! id = Some c → cr_ID c = id;
  wf_owner : ∀ id c, tb_credentials db !! id = Some c → is_Some (tb_sessions db !! cr_SessionID c);
  wf_hash : ∀ id1 id2 c1 c2, tb_credentials db !! id1 = Some c1 → tb_credentials db !! id2 = Some c2 →
    cr_TokenHash c1 = cr_TokenHash c2 → id1 = id2;
  wf_access : at_most_one live_access db;
  wf_refresh : at_most_one unused_refresh db;
  wf_replaced : ∀ id c, tb_credentials db !! id = Some c → replaced_used c;
  wf_lifetime : ∀ id c s, tb_credentials db !! id = Some c → tb_sessions db !! cr_SessionID c = Some s →
    t_ns (cr_ExpiresAt c) ≤ t_ns (ss_ExpiresAt s);
  wf_idle : ∀ id s, tb_sessions db !! id = Some s → t_ns (ss_IdleExpiresAt s) ≤ t_ns (ss_ExpiresAt s) }.

Lemma session_wf_empty users recovery srefs crefs : session_wf (mkSessionTables users recovery srefs crefs ∅ ∅).
Proof. split; cbn; intros *; rewrite ?lookup_empty; try done. Qed.

(** ** How rows evolve *)

Record credential_evolves (c c' : SessionCredential) : Prop := {
  ce_ID : cr_ID c' = cr_ID c;
  ce_SessionID : cr_SessionID c' = cr_SessionID c;
  ce_Kind : cr_Kind c' = cr_Kind c;
  ce_TokenHash : cr_TokenHash c' = cr_TokenHash c;
  ce_ExpiresAt : cr_ExpiresAt c' = cr_ExpiresAt c;
  ce_ArchivedAt : cr_ArchivedAt c' = cr_ArchivedAt c;
  ce_RevokedAt : ot_Valid (cr_RevokedAt c) = true → ot_Valid (cr_RevokedAt c') = true;
  ce_UsedAt : ot_Valid (cr_UsedAt c) = true → ot_Valid (cr_UsedAt c') = true;
  ce_replaced : replaced_used c → replaced_used c' }.

Record session_evolves (s s' : Session) : Prop := {
  se_ID : ss_ID s' = ss_ID s;
  se_UserID : ss_UserID s' = ss_UserID s;
  se_ExpiresAt : ss_ExpiresAt s' = ss_ExpiresAt s;
  se_ArchivedAt : ss_ArchivedAt s' = ss_ArchivedAt s;
  se_RevokedAt : ot_Valid (ss_RevokedAt s) = true → ot_Valid (ss_RevokedAt s') = true;
  se_idle : t_ns (ss_IdleExpiresAt s) ≤ t_ns (ss_ExpiresAt s) → t_ns (ss_IdleExpiresAt s') ≤ t_ns (ss_ExpiresAt s) }.

#[export] Instance credential_evolves_preorder : PreOrder credential_evolves.
Proof.
  split; [done|]. intros c1 c2 c3 H1 H2. destruct H1, H2. split; try congruence; tauto.
Qed.
#[export] Instance session_evolves_preorder : PreOrder session_evolves.
Proof.
  split; [by split; eauto|]. intros s1 s2 s3 H1 H2. destruct H1, H2. split; try congruence; try tauto.
  intros Hle. rewrite <-se_ExpiresAt0. apply se_idle1. rewrite se_ExpiresAt0. by apply se_idle0.
Qed.

(** A transaction that adds the credentials [new] to the Session [sid], or, when [new]
    is empty, only updates and deletes rows. *)
Record transition (sid : ID) (new : list SessionCredential) (db db' : SessionTables) : Prop := {
  tr_credentials : ∀ id c', tb_credentials db' !! id = Some c' →
    (c' ∈ new ∧ cr_ID c' = id ∧ tb_credentials db !! id = None) ∨
    ∃ c, tb_credentials db !! id = Some c ∧ credential_evolves c c' ∧
         (new ≠ [] → cr_SessionID c = sid →
            (is_access c → credential_live c' = false) ∧ (is_refresh c → ot_Valid (cr_UsedAt c') = true));
  tr_sessions : ∀ id s', tb_sessions db' !! id = Some s' →
    (∃ s, tb_sessions db !! id = Some s ∧ session_evolves s s') ∨
    (new ≠ [] ∧ id = sid ∧ ss_ID s' = sid ∧ tb_sessions db !! id = None ∧
     t_ns (ss_IdleExpiresAt s') ≤ t_ns (ss_ExpiresAt s'));
  tr_owner : ∀ id c', tb_credentials db' !! id = Some c' → is_Some (tb_sessions db' !! cr_SessionID c');
  tr_new : ∀ c, c ∈ new → cr_SessionID c = sid ∧ replaced_used c ∧
    (∀ id c0, tb_credentials db !! id = Some c0 → cr_TokenHash c0 ≠ cr_TokenHash c) ∧
    (∀ s, tb_sessions db' !! sid = Some s → t_ns (cr_ExpiresAt c) ≤ t_ns (ss_ExpiresAt s)) ∧
    (∀ s, tb_sessions db !! sid = Some s → ot_Valid (ss_RevokedAt s) = false);
  tr_distinct : ∀ c1 c2, c1 ∈ new → c2 ∈ new → cr_TokenHash c1 = cr_TokenHash c2 ∨ cr_Kind c1 = cr_Kind c2 → c1 = c2 }.

(** Rows satisfying [P] stay unique when updates only withdraw [P], the additions
    withdraw it from the older rows of their Session, and at most one addition has it. *)
Lemma transition_at_most_one P sid new db db' :
  transition sid new db db' →
  (∀ c c', credential_evolves c c' → P c' → P c) →
  (∀ c c', credential_evolves c c' → (is_access c → credential_live c' = false) →
           (is_refresh c → ot_Valid (cr_UsedAt c') = true) → ¬ P c') →
  (∀ c1 c2, c1 ∈ new → c2 ∈ new → P c1 → P c2 → c1 = c2) →
  at_most_one P db → at_most_one P db'.
Proof.
  intros [Hc _ _ Hn _] Hback Hold Hnew Hone.
  assert (Hcross : ∀ c1' c2 c2', c1' ∈ new → credential_evolves c2 c2' → cr_SessionID c1' = cr_SessionID c2' →
    (new ≠ [] → cr_SessionID c2 = sid → (is_access c2 → credential_live c2' = false) ∧
       (is_refresh c2 → ot_Valid (cr_UsedAt c2') = true)) → ¬ P c2').
  { intros c1' c2 c2' N1 E2 Hss G. destruct (Hn c1' N1) as (Hsid & _).
    rewrite (ce_SessionID c2 c2' E2), Hsid in Hss.
    destruct G as [Ga Gr]; [by intros ->; apply elem_of_nil in N1|done|]. by eapply Hold. }
  intros id1 id2 c1' c2' [(N1 & K1 & _)|(c1 & K1 & E1 & G1)]%Hc [(N2 & K2 & _)|(c2 & K2 & E2 & G2)]%Hc Hss P1 P2.
  - rewrite <-K1, <-K2. by rewrite (Hnew c1' c2').
  - by destruct (Hcross c1' c2 c2').
  - by destruct (Hcross c2' c1 c1').
  - rewrite (ce_SessionID c1 c1' E1), (ce_SessionID c2 c2' E2) in Hss. eapply Hone; eauto.
Qed.

Lemma credential_live_back c c' : credential_evolves c c' → credential_live c' = true → credential_live c = true.
Proof.
  intros E. unfold credential_live. rewrite (ce_ArchivedAt c c' E). pose proof (ce_RevokedAt c c' E) as H.
  destruct (ot_Valid (cr_ArchivedAt c)), (ot_Valid (cr_RevokedAt c)); try done. by rewrite H.
Qed.

Lemma transition_access sid new db db' :
  transition sid new db db' → at_most_one live_access db → at_most_one live_access db'.
Proof.
  intros T. eapply transition_at_most_one; [done|..]; unfold live_access, is_access.
  - intros c c' E. rewrite (ce_Kind c c' E). intros [??]. split; [done|by eapply credential_live_back].
  - intros c c' E Ga _ [Hk Hl]. rewrite (ce_Kind c c' E) in Hk. by rewrite Ga in Hl.
  - intros c1 c2 N1 N2 [K1 _] [K2 _]. eapply tr_distinct; eauto. right. congruence.
Qed.
Lemma transition_refresh sid new db db' :
  transition sid new db db' → at_most_one unused_refresh db → at_most_one unused_refresh db'.
Proof.
  intros T. eapply transition_at_most_one; [done|..]; unfold unused_refresh, is_refresh, unused.
  - intros c c' E. rewrite (ce_Kind c c' E). intros [? Hu]. split; [done|]. pose proof (ce_UsedAt c c' E) as Hm.
    destruct (ot_Valid (cr_UsedAt c)); [|done]. by rewrite Hm in Hu.
  - intros c c' E _ Gr [Hk Hu]. rewrite (ce_Kind c c' E) in Hk. by rewrite Gr in Hu.
  - intros c1 c2 N1 N2 [K1 _] [K2 _]. eapply tr_distinct; eauto. right. congruence.
Qed.

Lemma transition_hash sid new db db' :
  transition sid new db db' → session_wf db →
  ∀ id1 id2 c1 c2, tb_credentials db' !! id1 = Some c1 → tb_credentials db' !! id2 = Some c2 →
    cr_TokenHash c1 = cr_TokenHash c2 → id1 = id2.
Proof.
  intros [Hc _ _ Hn Hd] W id1 id2 c1' c2'
    [(N1 & K1 & _)|(c1 & K1 & E1 & _)]%Hc [(N2 & K2 & _)|(c2 & K2 & E2 & _)]%Hc Hh.
  - rewrite <-K1, <-K2. by rewrite (Hd c1' c2' N1 N2 (or_introl Hh)).
  - exfalso. destruct (Hn c1' N1) as (_ & _ & Hf & _). apply (Hf id2 c2 K2). by rewrite <-(ce_TokenHash c2 c2' E2).
  - exfalso. destruct (Hn c2' N2) as (_ & _ & Hf & _). apply (Hf id1 c1 K1). by rewrite <-(ce_TokenHash c1 c1' E1).
  - eapply (wf_hash db W id1 id2 c1 c2); try done. by rewrite <-(ce_TokenHash c1 c1' E1), <-(ce_TokenHash c2 c2' E2).
Qed.

(** Every transition preserves the invariant. *)
Lemma transition_wf sid new db db' : transition sid new db db' → session_wf db → session_wf db'.
Proof.
  intros T W. pose proof T as [Hc Hs Ho Hn _]. split.
  - intros id s' [(s & Hk & E)|(_ & -> & ? & _)]%Hs; [|done]. rewrite (se_ID s s' E). by eapply wf_session_key.
  - intros id c' [(_ & ? & _)|(c & Hk & E & _)]%Hc; [done|]. rewrite (ce_ID c c' E). by eapply wf_credential_key.
  - done.
  - by eapply transition_hash.
  - by eapply transition_access, wf_access.
  - by eapply transition_refresh, wf_refresh.
  - intros id c' [(N & _)|(c & Hk & E & _)]%Hc; [by apply Hn in N as (_ & ? & _)|].
    by eapply ce_replaced, wf_replaced.
  - intros id c' s' Hk' Hsk. apply Hc in Hk' as [(N & _)|(c & Hk & E & _)].
    + destruct (Hn c' N) as (Hsid & _ & _ & Hle & _). apply Hle. by rewrite <-Hsid.
    + rewrite (ce_ExpiresAt c c' E). rewrite (ce_SessionID c c' E) in Hsk. destruct (wf_owner db W id c Hk) as [s Hs0].
      apply Hs in Hsk as [(s1 & Hs1 & E1)|(_ & _ & _ & Hnone & _)]; [|by rewrite Hs0 in Hnone].
      rewrite (se_ExpiresAt s1 s' E1). eapply wf_lifetime; eauto.
  - intros id s' [(s & Hk & E)|(_ & _ & _ & _ & ?)]%Hs; [|done]. rewrite (se_ExpiresAt s s' E).
    apply (se_idle s s' E). by eapply wf_idle.
Qed.

(** ** Transactions that add nothing *)

Definition owners (db : SessionTables) : Prop :=
  ∀ id c, tb_credentials db !! id = Some c → is_Some (tb_sessions db !! cr_SessionID c).

Record evolution (db db' : SessionTables) : Prop := {
  ev_credentials : ∀ id c', tb_credentials db' !! id = Some c' →
    ∃ c, tb_credentials db !! id = Some c ∧ credential_evolves c c';
  ev_sessions : ∀ id s', tb_sessions db' !! id = Some s' → ∃ s, tb_sessions db !! id = Some s ∧ session_evolves s s';
  ev_owners : owners db → owners db' }.

#[export] Instance evolution_preorder : PreOrder evolution.
Proof.
  split.
  - intros db. split; [intros id c H; by exists c|intros id s H; by exists s|done].
  - intros d1 d2 d3 [C1 S1 O1] [C2 S2 O2]. split; [| |tauto].
    + intros id c3 (c2 & (c1 & H1 & E1)%C1 & E2)%C2. exists c1. split; [done|]. by etrans.
    + intros id s3 (s2 & (s1 & H1 & E1)%S1 & E2)%S2. exists s1. split; [done|]. by etrans.
Qed.

Lemma evolution_transition sid db db' : session_wf db → evolution db db' → transition sid [] db db'.
Proof.
  intros W [C S O]. split.
  - intros id c' (c & ? & ?)%C. right. exists c. by split_and!.
  - intros id s' (s & ? & ?)%S. left. eauto.
  - apply O. intros id c. apply (wf_owner db W).
  - by intros c Hc%elem_of_nil.
  - by intros c1 c2 Hc%elem_of_nil.
Qed.

Definition evolving {A} (m : Db A) : Prop := ∀ db db' a, m db = Ok (db', a) → evolution db db'.

Lemma evolving_ret {A} (a : A) : evolving (mret a : Db A).
Proof. intros db db' b [= <- _]. done. Qed.
Lemma evolving_throw {A} (e : error) : evolving (mthrow e : Db A).
Proof. intros db db' b [=]. Qed.
Lemma evolving_bind {A B} (m : Db A) (k : A → Db B) : evolving m → (∀ a, evolving (k a)) → evolving (m ≫= k).
Proof. intros Hm Hk db db' b (db1 & a & H1 & H2)%tx_bind_ok. etrans; [by eapply Hm|by eapply Hk]. Qed.
Lemma evolving_query {A} (f : SessionTables → A) : evolving (query f).
Proof. intros db db' b [= <- _]. done. Qed.
Lemma evolving_check {A} (r : result A) : evolving (check r).
Proof. intros db db' b. unfold check. destruct r; [by intros [= <- _]|done]. Qed.
Lemma evolving_if {A} (c : bool) (m m' : Db A) : evolving m → evolving m' → evolving (if c then m else m').
Proof. by destruct c. Qed.
Lemma evolving_exec f : (∀ db, evolution db (f db)) → evolving (exec f).
Proof. intros Hf db db' b [= <- _]. apply Hf. Qed.
Lemma evolving_let {A B} (p : A * B) {C} (k : A → B → Db C) :
  (∀ a b, evolving (k a b)) → evolving (let '(a, b) := p in k a b).
Proof. by destruct p. Qed.

Lemma update_sessions_evolution p f db : (∀ s, session_evolves s (f s)) → evolution db (update_sessions p f db).
Proof.
  intros Hf. split; cbn.
  - intros id c ?. by exists c.
  - intros id s' (s & Hs & ->)%lookup_set_where. exists s. split; [done|]. by destruct (p s).
  - intros O id c Hc. cbn in *. destruct (O id c Hc) as [s Hs]. eexists. apply lookup_set_where. eauto.
Qed.
Lemma update_credentials_evolution p f db : (∀ c, credential_evolves c (f c)) → evolution db (update_credentials p f db).
Proof.
  intros Hf. split; cbn.
  - intros id c' (c & Hc & ->)%lookup_set_where. exists c. split; [done|]. by destruct (p c).
  - intros id s ?. by exists s.
  - intros O id c' (c & Hc & ->)%lookup_set_where. cbn in *. destruct (O id c Hc) as [s Hs]. exists s.
    destruct (p c); [|done]. by rewrite (ce_SessionID _ _ (Hf c)).
Qed.

Lemma revoke_session_row_evolves at_ reason s : session_evolves s (revoke_session_row at_ reason s).
Proof. by split. Qed.
Lemma revoke_credential_row_evolves at_ c : credential_evolves c (revoke_credential_row at_ c).
Proof. by split. Qed.
Lemma mark_used_evolves now id c : credential_evolves c (mark_used now id c).
Proof. by split. Qed.
Lemma detach_evolves ids now c : credential_evolves c (detach ids now c).
Proof. split; try done. unfold replaced_used. cbn. by case_bool_decide. Qed.

Create HintDb evolving.
#[export] Hint Resolve evolving_ret evolving_throw evolving_bind evolving_query evolving_check evolving_if
  evolving_exec evolving_let update_sessions_evolution update_credentials_evolution revoke_session_row_evolves
  revoke_credential_row_evolves mark_used_evolves detach_evolves : evolving.

Lemma revokeOneUserSessionAt_evolving id userID at_ reason : evolving (revokeOneUserSessionAt id userID at_ reason).
Proof. unfold revokeOneUserSessionAt, selectActiveTokenHashes. auto 20 with evolving. Qed.
Lemma revokeUserSessionsExceptAt_evolving userID keep at_ reason :
  evolving (revokeUserSessionsExceptAt userID keep at_ reason).
Proof. unfold revokeUserSessionsExceptAt. auto 20 with evolving. Qed.
Lemma revokeReplayedSession_evolving session now : evolving (revokeReplayedSession session now).
Proof. unfold revokeReplayedSession, selectActiveAccessHashes. auto 20 with evolving. Qed.
#[export] Hint Resolve revokeOneUserSessionAt_evolving revokeUserSessionsExceptAt_evolving
  revokeReplayedSession_evolving : evolving.
Lemma expireRotatingSession_evolving session now : evolving (expireRotatingSession session now).
Proof. unfold expireRotatingSession. auto 20 with evolving. Qed.

Lemma evolution_run {A} d operation (m : Db A) db db' r :
  evolving m → runSQLTransaction d operation m db = (db', r) → evolution db db'.
Proof. intros Hm [[-> _]|(a & Ha & _)]%runSQLTransaction_cases; [done|by eapply Hm]. Qed.

(** ** Inserted credentials *)

Record inserted (l : list SessionCredential) (db db' : SessionTables) : Prop := {
  in_old : ∀ id c, tb_credentials db' !! id = Some c →
    (c ∈ l ∧ cr_ID c = id ∧ tb_credentials db !! id = None) ∨ tb_credentials db !! id = Some c;
  in_fresh : ∀ c id c0, c ∈ l → tb_credentials db !! id = Some c0 → cr_TokenHash c0 ≠ cr_TokenHash c;
  in_distinct : ∀ c1 c2, c1 ∈ l → c2 ∈ l → cr_TokenHash c1 = cr_TokenHash c2 → c1 = c2;
  in_kept : ∀ id c, tb_credentials db !! id = Some c → tb_credentials db' !! id = Some c;
  in_there : ∀ c, c ∈ l → tb_credentials db' !! cr_ID c = Some c ∧ is_Some (tb_sessions db !! cr_SessionID c);
  in_sessions : tb_sessions db' = tb_sessions db;
  in_users : tb_users db' = tb_users db ∧ tb_recovery db' = tb_recovery db }.

Lemma insertSessionCredential_ok c db db' u :
  insertSessionCredential c db = Ok (db', u) →
  tb_credentials db !! cr_ID c = None ∧ is_Some (tb_sessions db !! cr_SessionID c) ∧
  (∀ id c0, tb_credentials db !! id = Some c0 → cr_TokenHash c0 ≠ cr_TokenHash c) ∧
  db' = db <| tb_credentials := <[cr_ID c := c]> (tb_credentials db) |>.
Proof.
  unfold insertSessionCredential. intros H. rewrite tx_query in H. rewrite !tx_fail_if in H.
  destruct H as (Hk & Hh & Hs & _ & [= <- _]). cbn [id] in *. to_prop. split_and!; [|done| |done].
  - by apply eq_None_not_Some.
  - intros id c0 Hc Heq. apply Nat.eqb_eq, length_zero_iff_nil in Hh. rewrite select_nil in Hh.
    specialize (Hh id c0 Hc). cbn in Hh. to_prop. done.
Qed.

Lemma each_inserted l db db' u : each insertSessionCredential l db = Ok (db', u) → inserted l db db'.
Proof.
  revert db. induction l as [|c l IH]; intros db.
  { intros [= <- _]. split; [by right|set_solver..|done|set_solver|done|done]. }
  intros (db1 & [] & (Hk & Ho & Hh & ->)%insertSessionCredential_ok & H%IH)%tx_bind_ok.
  destruct H as [Hold Hfresh Hdist Hkept Hthere Hs Hu]. cbn in *. split.
  - intros id c' [(Hin & Hid & Hnone)|Hc]%Hold.
    + apply lookup_insert_None in Hnone as [Hnone _]. left. set_solver.
    + apply lookup_insert_Some in Hc as [[<- <-]|[_ Hc]]; [left; set_solver|by right].
  - intros c' id c0 [->|Hin]%elem_of_cons Hc; [by eapply Hh|]. apply (Hfresh c' id c0 Hin).
    rewrite lookup_insert_ne; [done|congruence].
  - assert (Hne : ∀ c', c' ∈ l → cr_TokenHash c ≠ cr_TokenHash c').
    { intros c' Hin. apply (Hfresh c' (cr_ID c) c Hin). apply lookup_insert_eq. }
    intros c1 c2 [->|H1]%elem_of_cons [->|H2]%elem_of_cons Heq; [done|by destruct (Hne c2)|by destruct (Hne c1)|eauto].
  - intros id c' Hc. apply Hkept. rewrite lookup_insert_ne; [done|congruence].
  - intros c' [->|Hin]%elem_of_cons; [|by apply Hthere]. split; [|done]. apply Hkept, lookup_insert_eq.
  - done.
  - done.
Qed.

(** ** Issuance *)

Lemma prepare_credentials_ok session at_ kinds credentials draws kinds' prepared :
  prepare_credentials session at_ kinds credentials draws = Ok (kinds', prepared) →
  length prepared = length credentials ∧ NoDup (cr_Kind <$> prepared) ∧
  (∀ c, c ∈ prepared → cr_Kind c ∉ kinds ∧ cr_SessionID c = ss_ID session ∧ replaced_used c ∧
        t_ns (cr_ExpiresAt c) ≤ t_ns (ss_ExpiresAt session)) ∧
  map cr_TokenHash prepared = map cr_TokenHash (omap id credentials).
Proof.
  revert kinds draws kinds' prepared. induction credentials as [|[credential|] credentials IH];
    intros kinds draws kinds' prepared H; [|..|by destruct draws].
  { destruct draws; injection H as <- <-; (split_and!; [done|constructor|set_solver|done]). }
  cbn [prepare_credentials] in H. apply ok_fail_if in H as [_ H].
  destruct (default ("", "") (head draws)) as [i family]. cbv zeta in H. set (c := SessionCredential_PrepareCreate _ _ _ _) in *.
  assert (Hc : cr_SessionID c = ss_ID session ∧ cr_TokenHash c = cr_TokenHash credential) by done. clearbody c.
  apply ok_bind in H as ([] & (_ & _ & _ & _ & _ & Hr)%SessionCredential_Validate_ok & H).
  apply ok_fail_if in H as [He H]. apply ok_fail_if in H as [Hk H]. to_prop.
  apply ok_bind in H as ([kinds1 prepared1] & H & [= <- <-]%ok_inj). apply IH in H as (Hl & Hnd & Hall & Hh).
  destruct Hc as [Hc1 Hc2]. split_and!.
  - cbn. by rewrite Hl.
  - rewrite fmap_cons. constructor; [|done]. intros (c' & Heq & Hin)%list_elem_of_fmap.
    destruct (Hall c' Hin) as [Hnot _]. apply Hnot. rewrite <-Heq. apply list_elem_of_here.
  - intros c' [->|Hin]%elem_of_cons; [done|]. destruct (Hall c' Hin) as (Hn & ? & ? & ?). split_and!; try done.
    set_solver.
  - cbn. by rewrite Hc2, Hh.
Qed.

Lemma insertSession_ok s db db' u :
  insertSession s db = Ok (db', u) →
  tb_sessions db !! ss_ID s = None ∧ db' = db <| tb_sessions := <[ss_ID s := s]> (tb_sessions db) |>.
Proof.
  unfold insertSession. intros H. rewrite tx_query in H. rewrite !tx_fail_if in H.
  destruct H as (Hk & _ & [= <- _]). cbn [id] in *. to_prop. split; [|done]. by apply eq_None_not_Some.
Qed.

Lemma insertIssuedSession_ok candidate prepared maximumActive db db' u :
  insertIssuedSession candidate prepared maximumActive db = Ok (db', u) →
  tb_sessions db !! ss_ID candidate = None ∧
  ∃ db1, inserted prepared (db <| tb_sessions := <[ss_ID candidate := candidate]> (tb_sessions db) |>) db1 ∧
         tb_sessions db' = tb_sessions db1 ∧ tb_credentials db' = tb_credentials db1.
Proof.
  unfold insertIssuedSession. intros H. rewrite tx_query in H. rewrite tx_fail_if in H. destruct H as [_ H].
  apply tx_bind_ok in H as (db0 & [] & (Hk & ->)%insertSession_ok & H).
  apply tx_bind_ok in H as (db1 & [] & Hi%each_inserted & H). inv_tx H.
  split; [done|]. by exists db1.
Qed.

Lemma saveSession_transition issuance audit candidate credentials draws at_ prepared maximumActive db db' r :
  session_wf db → Session_Validate candidate = Ok tt →
  prepareInitialSessionCredentials candidate credentials draws at_ = Ok prepared →
  saveSession issuance audit candidate prepared maximumActive db = Ok (db', r) →
  transition (ss_ID candidate) prepared db db'.
Proof.
  intros W Hv Hp H. unfold saveSession in H. inv_tx H.
  apply tx_bind_ok in H as (db0 & [] & (Hnone & db1 & Hi & Hs & Hc)%insertIssuedSession_ok & H). inv_tx H.
  unfold prepareInitialSessionCredentials in Hp. apply ok_fail_if in Hp as [Hlen Hp].
  apply ok_bind in Hp as ([kinds l] & (Hl & Hnd & Hall & _)%prepare_credentials_ok & Hp).
  apply ok_fail_if in Hp as [_ [= ->]%ok_inj]. to_prop. apply Nat.eqb_eq in Hlen.
  assert (Hne : prepared ≠ []) by (intros ->; cbn in Hl; lia). destruct Hi as [Hold Hfresh Hdist Hkept Hthere Hss _].
  cbn in *. split; rewrite ?Hs, ?Hc, ?Hss.
  - intros id c [?|Hk]%Hold; [by left|right]. exists c. split_and!; [done..|]. intros _ Hsid.
    destruct (wf_owner db W id c Hk) as [s Hs0]. by rewrite Hsid, Hnone in Hs0.
  - intros id s [[<- <-]|[_ Hk]]%lookup_insert_Some; [right|left; by exists s].
    apply Session_Validate_idle in Hv. split_and!; [done..|lia].
  - intros id c [(Hin & _)|Hk]%Hold; [by apply Hthere|]. destruct (wf_owner db W id c Hk) as [s Hs0].
    exists s. rewrite lookup_insert_ne; [done|congruence].
  - intros c Hin. destruct (Hall c Hin) as (_ & Hsid & Hr & He). split_and!; try done.
    + intros id c0. by apply Hfresh.
    + intros s. rewrite lookup_insert_eq. by intros [= <-].
    + intros s. by rewrite Hnone.
  - intros c1 c2 H1 H2 [?|Hk]; [by apply Hdist|].
    apply list_elem_of_lookup in H1 as [i Hi1]. apply list_elem_of_lookup in H2 as [j Hj].
    assert (i = j) as ->; [|by simplify_eq].
    eapply (NoDup_lookup _ _ _ (cr_Kind c1) Hnd); [|rewrite Hk]; by rewrite list_lookup_fmap, ?Hi1, ?Hj.
Qed.

(** ** Rotation *)

Lemma lockRefreshCredentialSession_ok tokenHash db db' current session :
  session_wf db → lockRefreshCredentialSession tokenHash db = Ok (db', (current, session)) →
  db' = db ∧ refresh_row tokenHash current = true ∧ SessionCredential_Validate current = Ok tt ∧
  tb_credentials db !! cr_ID current = Some current ∧
  Session_Validate session = Ok tt ∧ ot_Valid (ss_ArchivedAt session) = false ∧
  tb_sessions db !! ss_ID session = Some session ∧ cr_SessionID current = ss_ID session.
Proof.
  intros W H. unfold lockRefreshCredentialSession in H. inv_tx H.
  repeat match goal with
  | H : get_row _ _ (select _ _) = Ok _ |- _ => apply get_row_ok in H as (? & ? & ?)
  | H : sessionRow_model _ = Ok _ |- _ => unfold sessionRow_model, validatePersistedModel in H
  | H : sessionCredentialRow_model _ = Ok _ |- _ => unfold sessionCredentialRow_model, validatePersistedModel in H
  | H : context [match ?v with Ok _ => _ | Err _ => _ end] |- _ => destruct v as [[]|] eqn:?
  end; try done.
  cbn in *. simplify_eq. to_prop.
  match goal with K : SessionCredential_Validate ?c = _, H : _ !! _ = Some ?c |- _ => pose proof (wf_credential_key db W _ _ H) end.
  match goal with K : Session_Validate ?s = _, H : _ !! _ = Some ?s |- _ => pose proof (wf_session_key db W _ _ H) end.
  naive_solver.
Qed.

Lemma getMFARecoveryState_reads userID db db' state : getMFARecoveryState userID db = Ok (db', state) → db' = db.
Proof. unfold getMFARecoveryState. intros H. inv_tx H. done. Qed.
Lemma requireSessionAuthenticationGeneration_reads session db db' u :
  requireSessionAuthenticationGeneration session db = Ok (db', u) → db' = db.
Proof.
  unfold requireSessionAuthenticationGeneration. intros (db1 & state & ->%getMFARecoveryState_reads & H)%tx_bind_ok.
  by inv_tx H.
Qed.

Lemma prepareRotated_ok access refresh current session accessID refreshID now a r :
  prepareRotatedSessionCredentials access refresh current session accessID refreshID now = Ok (a, r) →
  SessionCredential_Validate a = Ok tt ∧ SessionCredential_Validate r = Ok tt ∧
  is_access a ∧ is_refresh r ∧ cr_ID a = accessID ∧ cr_ID r = refreshID ∧
  cr_SessionID a = ss_ID session ∧ cr_SessionID r = ss_ID session ∧
  cr_TokenHash a = cr_TokenHash access ∧ cr_TokenHash r = cr_TokenHash refresh ∧
  cr_ParentID r = cr_ID current ∧
  t_ns (cr_ExpiresAt a) ≤ t_ns (ss_ExpiresAt session) ∧ t_ns (cr_ExpiresAt r) ≤ t_ns (ss_ExpiresAt session).
Proof.
  intros H. unfold prepareRotatedSessionCredentials in H. cbv zeta in H.
  apply ok_bind in H as ([] & Ha & H). apply ok_bind in H as ([] & Hr & [= <- <-]%ok_inj).
  assert (Hcap : ∀ t, t_ns (TimeUTC (if Time_After t (ss_ExpiresAt session) then ss_ExpiresAt session else t)) ≤ t_ns (ss_ExpiresAt session)).
  { intros t. etrans; [apply TimeUTC_le|]. destruct (Time_After t (ss_ExpiresAt session)) eqn:E; to_prop; lia. }
  split_and!; try done; apply Hcap.
Qed.

Lemma transition_touch sid new db db1 p f :
  (∀ id s, tb_sessions db1 !! id = Some s → p s = true → session_evolves s (f s)) →
  transition sid new db db1 → transition sid new db (update_sessions p f db1).
Proof.
  intros Hf [C S O N D].
  assert (Hev : ∀ id s', tb_sessions (update_sessions p f db1) !! id = Some s' →
    ∃ s, tb_sessions db1 !! id = Some s ∧ session_evolves s s').
  { intros id s' (s & Hs & ->)%lookup_set_where. exists s. split; [done|]. destruct (p s) eqn:E; [eauto|done]. }
  split; [done| | | |done].
  - intros id s' (s & Hs & E)%Hev. apply S in Hs as [(s0 & Hs0 & E0)|(? & ? & Hid & ? & Hle)].
    + left. exists s0. split; [done|by etrans].
    + right. split_and!; [done..|by rewrite (se_ID s s' E)|done|]. rewrite (se_ExpiresAt s s' E). by apply (se_idle s s' E).
  - intros id c Hc. destruct (O id c Hc) as [s Hs]. eexists. apply lookup_set_where. eauto.
  - intros c Hc. destruct (N c Hc) as (? & ? & ? & Hle & ?). split_and!; try done.
    intros s' (s & Hs & E)%Hev. rewrite (se_ExpiresAt s s' E). eauto.
Qed.

Lemma evolves_if (b : bool) c c' : credential_evolves c c' → credential_evolves c (if b then c' else c).
Proof. by destruct b. Qed.

Section replacement.
Context (db : SessionTables) (session : Session) (current a r : SessionCredential) (now : Time).
Context (W : session_wf db) (Hcur : tb_credentials db !! cr_ID current = Some current).
Context (Kc : is_refresh current) (Uc : unused current) (Zc : ID_IsZero (cr_ReplacedByID current) = true).
Context (Hs : tb_sessions db !! ss_ID session = Some session) (Hrev : ot_Valid (ss_RevokedAt session) = false).
Context (Sc : cr_SessionID current = ss_ID session).
Context (Ka : is_access a) (Sa : cr_SessionID a = ss_ID session) (Ra : replaced_used a).
Context (Ea : t_ns (cr_ExpiresAt a) ≤ t_ns (ss_ExpiresAt session)).
Context (Kr : is_refresh r) (Sr : cr_SessionID r = ss_ID session) (Rr : replaced_used r).
Context (Er : t_ns (cr_ExpiresAt r) ≤ t_ns (ss_ExpiresAt session)).

Notation revoked_db := (update_credentials (λ c, (cr_SessionID c ==? ss_ID session) &&
  (cr_Kind c ==? SessionCredentialAccess) && credential_live c) (revoke_credential_row now) db).
Notation marks := (λ c : SessionCredential, (cr_ID c ==? cr_ID current) && negb (ot_Valid (cr_UsedAt c))
  && ID_IsZero (cr_ReplacedByID c)).

Lemma replaceRefreshCredential_ok db' hashes :
  replaceRefreshCredential session current a r now db = Ok (db', hashes) →
  ∃ db1, inserted [a; r] revoked_db db1 ∧ db' = update_credentials marks (mark_used now (cr_ID r)) db1.
Proof.
  unfold replaceRefreshCredential, selectActiveAccessHashes. intros H. rewrite tx_query in H. rewrite tx_exec in H.
  apply tx_bind_ok in H as (db1 & [] & H1 & H). apply tx_bind_ok in H as (db2 & [] & H2 & H). inv_tx H.
  exists db2. split; [|done]. apply (each_inserted [a; r] _ db2 tt). apply tx_bind_ok. exists db1, tt.
  split; [done|]. apply tx_bind_ok. by exists db2, tt.
Qed.

(** The older rows of the Session: no access credential stays live, no refresh
    credential unused. *)
Lemma replaced_rows id c c0 :
  tb_credentials db !! id = Some c → tb_credentials revoked_db !! id = Some c0 →
  let c' := if marks c0 then mark_used now (cr_ID r) c0 else c0 in
  credential_evolves c c' ∧
  (cr_SessionID c = ss_ID session →
   (is_access c → credential_live c' = false) ∧ (is_refresh c → ot_Valid (cr_UsedAt c') = true)).
Proof.
  intros Hc (c1 & Hc1 & ->)%lookup_set_where c'. simplify_eq. subst c'. cbv beta. split.
  { etrans; [|apply evolves_if, mark_used_evolves]. apply evolves_if, revoke_credential_row_evolves. }
  intros Hsid. split.
  - intros Hk. rewrite (bool_decide_eq_true_2 (cr_SessionID c = _)), (bool_decide_eq_true_2 (cr_Kind c = _)) by done.
    cbn [andb].
    destruct (credential_live c) eqn:El; (match goal with |- context [if ?b then _ else _] => destruct b end); try done;
      unfold credential_live; cbn; by rewrite ?andb_false_r.
  - intros Hk. rewrite (bool_decide_eq_false_2 (cr_Kind c = SessionCredentialAccess)) by by rewrite Hk.
    rewrite andb_false_r. cbn [andb]. destruct (ot_Valid (cr_UsedAt c)) eqn:Eu.
    + match goal with |- context [if ?b then _ else _] => by destruct b end.
    + assert (id = cr_ID current) as ->.
      { eapply (wf_refresh db W); [done..|congruence|by split|by split]. }
      simplify_eq. by rewrite bool_decide_eq_true_2, Zc.
Qed.

Section inserted_rows.
Context (db1 : SessionTables) (I : inserted [a; r] revoked_db db1).
Notation final := (update_credentials marks (mark_used now (cr_ID r)) db1).

Lemma revoked_row id c : tb_credentials db !! id = Some c →
  ∃ c0, tb_credentials revoked_db !! id = Some c0 ∧ cr_TokenHash c0 = cr_TokenHash c.
Proof.
  intros Hc. eexists. split; [apply lookup_set_where; eauto|].
  by match goal with |- context [if ?b then _ else _] => destruct b end.
Qed.
Lemma new_unmarked c : c ∈ [a; r] → tb_credentials revoked_db !! cr_ID c = None → marks c = false.
Proof.
  intros _ Hnone. cbv beta. rewrite bool_decide_eq_false_2; [done|]. intros Heq.
  destruct (revoked_row _ _ Hcur) as (c0 & H0 & _). by rewrite <-Heq, Hnone in H0.
Qed.

Lemma final_row id c' : tb_credentials final !! id = Some c' →
  (c' ∈ [a; r] ∧ cr_ID c' = id ∧ tb_credentials db !! id = None) ∨
  ∃ c c0, tb_credentials db !! id = Some c ∧ tb_credentials revoked_db !! id = Some c0 ∧
    c' = if marks c0 then mark_used now (cr_ID r) c0 else c0.
Proof.
  intros (c1 & Hc1 & ->)%lookup_set_where. apply (in_old _ _ _ I) in Hc1 as [(Hin & <- & Hnone)|H0].
  - left. rewrite (new_unmarked c1 Hin Hnone). split_and!; try done. by apply lookup_set_where_None in Hnone.
  - right. pose proof H0 as (c & Hc & _)%lookup_set_where. eauto 6.
Qed.

Lemma final_transition : transition (ss_ID session) [a; r] db final.
Proof.
  pose proof (in_sessions _ _ _ I) as Isess. cbn in Isess. split.
  - intros id c' [?|(c & c0 & Hc & H0 & ->)]%final_row; [by left|right]. exists c.
    destruct (replaced_rows id c c0 Hc H0) as [E G]. split_and!; [done..|]. intros _. apply G.
  - intros id s' Hs'. left. exists s'. split; [|done]. by rewrite <-Isess.
  - intros id c' Hc'. cbn. rewrite Isess. apply final_row in Hc' as [(Hin & _)|(c & c0 & Hc & H0 & ->)].
    + exists session. apply elem_of_cons in Hin as [->|Hin]; [by rewrite Sa|].
      apply list_elem_of_singleton in Hin as ->. by rewrite Sr.
    + destruct (replaced_rows id c c0 Hc H0) as [E _]. cbv zeta in E. rewrite (ce_SessionID _ _ E). by apply (wf_owner db W id).
  - intros c Hin. assert (Hfr : ∀ id c0, tb_credentials db !! id = Some c0 → cr_TokenHash c0 ≠ cr_TokenHash c).
    { intros id c0 (c1 & H1 & <-)%revoked_row. by apply (in_fresh _ _ _ I c id c1 Hin). }
    cbn. rewrite Isess, Hs. apply elem_of_cons in Hin as [->|Hin]; [|apply list_elem_of_singleton in Hin as ->];
      (split_and!; [done..|by intros s [= <-]|by intros s [= <-]]).
  - intros c1 c2 H1 H2 [Hh|Hk]; [by apply (in_distinct _ _ _ I)|]. unfold is_access, is_refresh in *. set_solver by congruence.
Qed.

Lemma final_new c : c ∈ [a; r] → tb_credentials final !! cr_ID c = Some c.
Proof.
  intros Hin. destruct (in_there _ _ _ I c Hin) as [Hc _]. apply lookup_set_where. exists c. split; [done|].
  destruct (in_old _ _ _ I _ _ Hc) as [(_ & _ & Hnone)|H0]; [by rewrite (new_unmarked c Hin Hnone)|].
  by destruct (in_fresh _ _ _ I c (cr_ID c) c Hin H0).
Qed.
Lemma final_used : ∃ c', tb_credentials final !! cr_ID current = Some c' ∧ ot_Valid (cr_UsedAt c') = true ∧
  cr_ReplacedByID c' = cr_ID r.
Proof.
  exists (mark_used now (cr_ID r) current). split; [|done]. apply lookup_set_where. exists current. split.
  - apply (in_kept _ _ _ I). apply lookup_set_where. exists current. split; [done|].
    rewrite (bool_decide_eq_false_2 (cr_Kind current = _)) by by rewrite Kc. by rewrite andb_false_r.
  - unfold unused in Uc. by rewrite bool_decide_eq_true_2, Uc, Zc.
Qed.
End inserted_rows.
End replacement.

(** What a rotation that answers does: it only revokes, or it exchanges the unused
    refresh credential of an open Session for a new pair. *)
Definition exchange (tokenHash : string) (current : SessionCredential) (session : Session)
    (a r : SessionCredential) (now : Time) (db db' : SessionTables) : Prop :=
  refresh_row tokenHash current = true ∧ tb_credentials db !! cr_ID current = Some current ∧
  unused current ∧ cr_SessionID current = ss_ID session ∧ tb_sessions db !! ss_ID session = Some session ∧
  session_live session = true ∧
  t_ns now < t_ns (ss_IdleExpiresAt session) ∧ t_ns now < t_ns (ss_ExpiresAt session) ∧
  credential_live current = true ∧ t_ns now < t_ns (cr_ExpiresAt current) ∧
  transition (ss_ID session) [a; r] db db' ∧
  tb_credentials db' !! cr_ID a = Some a ∧ tb_credentials db' !! cr_ID r = Some r ∧
  is_access a ∧ is_refresh r ∧ cr_ParentID r = cr_ID current ∧
  ∃ c', tb_credentials db' !! cr_ID current = Some c' ∧ ot_Valid (cr_UsedAt c') = true ∧ cr_ReplacedByID c' = cr_ID r.

Lemma rotateRefreshCredential_ok tokenHash access refresh accessID refreshID now idle db db' rotation :
  session_wf db → normalized now →
  rotateRefreshCredential tokenHash access refresh accessID refreshID now idle db = Ok (db', rotation) →
  (sr_AccessCredential rotation = None ∧ sr_RefreshCredential rotation = None ∧ evolution db db') ∨
  ∃ current session a r, exchange tokenHash current session a r now db db' ∧
    cr_TokenHash a = cr_TokenHash access ∧ cr_TokenHash r = cr_TokenHash refresh ∧
    sr_AccessCredential rotation = Some a ∧ sr_RefreshCredential rotation = Some r ∧ ss_ID (sr_Session rotation) = ss_ID session ∧
    sr_ReplayDetected rotation = false ∧ sr_Expired rotation = false.
Proof.
  intros W Hnow H. unfold rotateRefreshCredential in H.
  apply tx_bind_ok in H as (db0 & [current session] & Hlock & H).
  apply lockRefreshCredentialSession_ok in Hlock as (-> & Hrow & Vc & Hcur & Vs & Harch & Hs & Hsid); [|done].
  apply tx_bind_ok in H as (db0 & [] & ->%requireSessionAuthenticationGeneration_reads & H).
  destruct (ot_Valid (cr_UsedAt current) || negb (ID_IsZero (cr_ReplacedByID current))) eqn:Euse.
  { left. apply tx_bind_ok in H as (db1 & [s hashes] & He%revokeReplayedSession_evolving & H). by inv_tx H. }
  apply tx_fail_if in H as [Hrev H].
  destruct (negb _ || _) eqn:Eexp.
  { left. pose proof H as He%expireRotatingSession_evolving. unfold expireRotatingSession in H.
    apply tx_bind_ok in H as (db1 & hashes & _ & H). by inv_tx H. }
  apply tx_fail_if in H as [Hlive H]. apply tx_check in H as ([a r] & Hprep & H).
  apply prepareRotated_ok in Hprep as (Va & Vr & Ka & Kr & Ia & Ir & Sa & Sr & Ha & Hr & Hpar & Ea & Er).
  apply tx_bind_ok in H as (db1 & hashes & H1 & H). unfold touchRotatedSession in H.
  apply tx_bind_ok in H as (db2 & s2 & H2 & H). inv_tx H2. inv_tx H.
  unfold SessionCredential_IsExpiredAt in Hlive. rewrite (normalized_TimeUTC now) in Hlive by done.
  unfold refresh_row in Hrow. to_prop.
  destruct Hrow as [[Hh Kc] _], Hlive as [[Hla Hlr] Hle], Eexp as [Hi Hx], Euse as [Uc Zc].
  right. exists current, session, a, r. split; [|done].
  destruct (SessionCredential_Validate_ok a Va) as (_ & _ & _ & _ & _ & Ra).
  destruct (SessionCredential_Validate_ok r Vr) as (_ & _ & _ & _ & _ & Rr).
  apply replaceRefreshCredential_ok in H1 as (db2 & I & ->).
  assert (T : transition (ss_ID session) [a; r] db (update_credentials (λ c, (cr_ID c ==? cr_ID current)
    && negb (ot_Valid (cr_UsedAt c)) && ID_IsZero (cr_ReplacedByID c)) (mark_used now (cr_ID r)) db2))
    by (apply final_transition; try done).
  unfold exchange, refresh_row, session_live, credential_live.
  rewrite Hla, Hlr, Harch, Hrev, !bool_decide_eq_true_2 by done.
  split_and!; try done.
  - apply transition_touch; [|done]. intros id s Hk Hp. to_prop. destruct Hp as [Hid _]. cbn in Hid.
    cbn in Hk. rewrite (in_sessions _ _ _ I) in Hk. cbn in Hk. pose proof (wf_session_key db W id s Hk).
    assert (s = session) as -> by congruence. split; try done. intros _. cbn.
    destruct (Time_After idle _) eqn:E; to_prop; lia.
  - apply (final_new db session current a r now Hcur db2 I). set_solver.
  - apply (final_new db session current a r now Hcur db2 I). set_solver.
  - by apply (final_used db session current a r now).
Qed.
