(* ===== verification/SessionSafety.v ===== *)
(** * Histories of the session store

    Sequences of whole operations on the session tables, and what holds along every one
    of them: the invariant, single use of refresh tokens, closure after a replay, and
    the absolute lifetime of a login. *)

From S2P Require Import Prelude GoTime GoStrings Ident ModelError Actions Roles DesktopRelease Principal SqlTx Session SessionStore SessionTheorems.

(** ** Operations and histories *)

Inductive SessionOp :=
  | OpSave (issuance audit : result unit) (id : ID) (draws : list (ID * string)) (at_ : Time) (input : option SessionCreation)
  | OpUpdateActivity (input : SessionActivityUpdate)
  | OpWithdraw (input : SessionWithdrawal)
  | OpEnforceExpiry (id userID : ID) (at_ : Time)
  | OpRevokeUser (userID keep : ID) (at_ : Time) (reason : SessionRevocationReason)
  | OpRotate (accessID refreshID : ID) (input : SessionRefreshRotation)
  | OpPurgeSessions (input : option SessionPurge) (now : Time) (chosen : list ID)
  | OpPurgeCredentials (input : option (Z * Z)) (now : Time) (chosen : list ID)
  | OpOther (users : gmap ID UserRow) (recovery : gmap ID UserMFARecovery) (session_refs credential_refs : gset ID).

(** The tables after an operation, and the answer of a rotation. *)
Definition session_step (d : driver) (op : SessionOp) (db : SessionTables) : SessionTables * option (result SessionRotation) :=
  match op with
  | OpSave issuance audit id draws at_ input => ((Save d issuance audit id draws at_ input db).1, None)
  | OpUpdateActivity input => ((UpdateActivity d input db).1, None)
  | OpWithdraw input => ((Withdraw d input db).1, None)
  | OpEnforceExpiry id userID at_ => ((EnforceExpiry d id userID at_ db).1, None)
  | OpRevokeUser userID keep at_ reason =>
      ((runSQLTransaction d "user session revocation" (revokeUserSessionsExceptAt userID keep at_ reason) db).1, None)
  | OpRotate accessID refreshID input =>
      let '(db', r) := RotateRefresh d accessID refreshID input db in (db', Some r)
  | OpPurgeSessions input now chosen => ((purge_sessions d input now chosen db).1, None)
  | OpPurgeCredentials input now chosen => ((purge_credentials d input now chosen db).1, None)
  | OpOther users recovery srefs crefs =>
      (db <| tb_users := users |> <| tb_recovery := recovery |> <| tb_session_refs := srefs |>
          <| tb_credential_refs := crefs |>, None)
  end.

Fixpoint session_run (ops : list (driver * SessionOp)) (db : SessionTables) : SessionTables :=
  match ops with [] => db | (d, op) :: ops => session_run ops (session_step d op db).1 end.
Fixpoint session_history (ops : list (driver * SessionOp)) (db : SessionTables)
    : list (SessionOp * option (result SessionRotation)) :=
  match ops with
  | [] => []
  | (d, op) :: ops => (op, (session_step d op db).2) :: session_history ops (session_step d op db).1
  end.

(** The token hashes an operation would store, and the Session it would create. *)
Definition op_hashes (op : SessionOp) : list string :=
  match op with
  | OpSave _ _ _ _ _ (Some input) => map cr_TokenHash (omap id (in_Credentials input))
  | OpRotate _ _ input => map cr_TokenHash (omap id [rr_Access input; rr_Refresh input])
  | _ => []
  end.
Definition op_creates (sid : ID) (op : SessionOp) : Prop :=
  match op with OpSave _ _ id _ _ _ => id = sid | _ => False end.

(** The refresh token a rotation exchanged for a new pair, and the Session it did so for. *)
Definition exchanged_token (e : SessionOp * option (result SessionRotation)) : option string :=
  match e with
  | (OpRotate _ _ input, Some (Ok rotation)) =>
      match sr_RefreshCredential rotation with Some _ => Some (rr_TokenHash input) | None => None end
  | _ => None
  end.
Definition exchanged_session (e : SessionOp * option (result SessionRotation)) : option ID :=
  match e with
  | (OpRotate _ _ _, Some (Ok rotation)) =>
      match sr_RefreshCredential rotation with Some _ => Some (ss_ID (sr_Session rotation)) | None => None end
  | _ => None
  end.

(** ** Every operation is a transition *)

Lemma UpdateActivity_evolution d input db : evolution db (UpdateActivity d input db).1.
Proof.
  unfold UpdateActivity. destruct (dr_begin d); [done|]. cbv zeta. cbn [fst]. apply update_sessions_evolution.
  intros s. split; try done. intros _. cbn. rewrite least_ns. lia.
Qed.

Lemma purge_sessions_evolution d input now chosen db :
  session_wf db → evolution db (purge_sessions d input now chosen db).1.
Proof.
  intros W. unfold purge_sessions. destruct input as [input|]; [|done]. cbv zeta. destruct (_ || _); [done|].
  destruct (runSQLTransaction _ _ _ db) as [db' r] eqn:E. cbn [fst].
  apply runSQLTransaction_cases in E as [[-> _]|(ids & H & _)]; [done|].
  rewrite tx_query in H. destruct (last _) as [[lastID lastRow]|]; inv_tx H; [|done]. split; cbn.
  - intros id c [Hc _]%lookup_delete_where. by exists c.
  - intros id s [Hs _]%lookup_delete_where. by exists s.
  - intros O id c [Hc Hp]%lookup_delete_where. destruct (O id c Hc) as [s Hs]. exists s.
    apply lookup_delete_where. split; [done|]. by rewrite (wf_session_key db W _ _ Hs).
Qed.

Lemma purge_credentials_evolution d input now chosen db :
  evolution db (purge_credentials d input now chosen db).1.
Proof.
  unfold purge_credentials. destruct input as [[grace limit]|]; [|done]. destruct (_ || _); [done|].
  destruct (runSQLTransaction _ _ _ db) as [db' r] eqn:E. cbn [fst].
  apply runSQLTransaction_cases in E as [[-> _]|(ids & H & _)]; [done|]. inv_tx H.
  etrans; [apply update_credentials_evolution, detach_evolves|]. split; cbn.
  - intros id c [Hc _]%lookup_delete_where. by exists c.
  - intros id s Hs. by exists s.
  - intros O id c [Hc _]%lookup_delete_where. eauto.
Qed.

(** What an operation adds, if anything: credentials with the hashes it was given, to a
    Session it creates or to one that is open. *)
Definition adds (op : SessionOp) (db db' : SessionTables) : Prop :=
  ∃ sid new, transition sid new db db' ∧ (∀ c, c ∈ new → cr_TokenHash c ∈ op_hashes op) ∧
    (new ≠ [] → tb_sessions db !! sid = None → op_creates sid op).

Lemma adds_nothing op db db' : session_wf db → evolution db db' → adds op db db'.
Proof. intros W E. exists "", []. split; [by apply evolution_transition|]. split; [set_solver|done]. Qed.

Lemma adds_run {A} d operation (m : Db A) op db :
  session_wf db → evolving m → adds op db (runSQLTransaction d operation m db).1.
Proof.
  intros W Hm. apply adds_nothing; [done|]. destruct (runSQLTransaction d operation m db) as [db' r] eqn:E.
  by eapply evolution_run.
Qed.

Lemma Save_adds d issuance audit id draws at_ input db :
  session_wf db →
  adds (OpSave issuance audit id draws at_ input) db (Save d issuance audit id draws at_ input db).1.
Proof.
  intros W. unfold Save. cbv zeta. match goal with |- context [match ?p with Ok _ => _ | Err _ => _ end] => destruct p as [[[i s] l]|] eqn:E end;
    [|by apply adds_nothing].
  destruct input as [input|]; [|done]. destruct (in_Session input) as [session|]; [|done].
  rewrite !ok_fail_if in E. destruct E as (_ & _ & _ & _ & _ & E). apply ok_bind in E as ([] & Hv & E).
  apply ok_bind in E as (prepared & Hp & [= -> <- ->]%ok_inj).
  destruct (runSQLTransaction _ _ _ db) as [db' r] eqn:E. cbn [fst].
  apply runSQLTransaction_cases in E as [[-> _]|(x & H & _)]; [by apply adds_nothing|].
  exists id, l. split; [by eapply (saveSession_transition _ _ _ _ _ _ _ _ _ _ _ W Hv Hp)|]. split; [|done].
  unfold prepareInitialSessionCredentials in Hp. apply ok_fail_if in Hp as [_ Hp].
  apply ok_bind in Hp as ([kinds l'] & (_ & _ & _ & Hh)%prepare_credentials_ok & Hp).
  apply ok_fail_if in Hp as [_ [= ->]%ok_inj]. cbn. rewrite <-Hh. intros c Hc. by apply list_elem_of_fmap_2.
Qed.

Lemma RotateRefresh_adds d accessID refreshID input db :
  session_wf db → adds (OpRotate accessID refreshID input) db (RotateRefresh d accessID refreshID input db).1.
Proof.
  intros W. unfold RotateRefresh. destruct (rr_Access input) as [access|] eqn:Ea, (rr_Refresh input) as [refresh|] eqn:Er;
    try by apply adds_nothing. destruct (_ || _); [by apply adds_nothing|].
  destruct (runSQLTransaction _ _ _ db) as [db' r] eqn:E. cbn [fst].
  apply runSQLTransaction_cases in E as [[-> _]|(rotation & H & _)]; [by apply adds_nothing|].
  apply rotateRefreshCredential_ok in H as [(_ & _ & H)|(current & session & a & r' & X & Ha & Hr & _)];
    [by apply adds_nothing| |done|apply TimeUTC_normalized].
  destruct X as (_ & _ & _ & _ & Hs & _ & _ & _ & _ & _ & T & _). exists (ss_ID session), [a; r']. split; [done|].
  split; [|by rewrite Hs]. cbn. rewrite Ea, Er. cbn. rewrite <-Ha, <-Hr. set_solver.
Qed.

Lemma session_step_adds d op db : session_wf db → adds op db (session_step d op db).1.
Proof.
  intros W. destruct op as [? ? ? ? ? ?|input|input|id userID at_|userID keep at_ reason|accessID refreshID input|? ? ?|? ? ?|u rec s c];
    cbn [session_step fst].
  - by apply Save_adds.
  - apply adds_nothing; [done|apply UpdateActivity_evolution].
  - unfold Withdraw, revokeOneUserSession. destruct (negb _); [by apply adds_nothing|]. apply adds_run; auto with evolving.
  - unfold EnforceExpiry. cbv zeta. destruct (_ || _); [by apply adds_nothing|]. apply adds_run; auto 20 with evolving.
  - apply adds_run; auto with evolving.
  - pose proof (RotateRefresh_adds d accessID refreshID input db W) as H.
    by destruct (RotateRefresh d accessID refreshID input db).
  - apply adds_nothing; [done|by apply purge_sessions_evolution].
  - apply adds_nothing; [done|apply purge_credentials_evolution].
  - apply adds_nothing; [done|]. split; cbn; [intros ? x ?; by exists x..|done].
Qed.

Lemma session_step_wf d op db : session_wf db → session_wf (session_step d op db).1.
Proof. intros W. destruct (session_step_adds d op db W) as (sid & new & T & _). by eapply transition_wf. Qed.

(** ** Along a history *)

(** [P] holds along a history when every operation that satisfies [Q] keeps it. *)
Lemma session_run_invariant (P : SessionTables → Prop) (Q : SessionOp → Prop) ops db :
  (∀ d op db, session_wf db → Q op → P db → P (session_step d op db).1) →
  session_wf db → Forall (λ o, Q o.2) ops → P db → session_wf (session_run ops db) ∧ P (session_run ops db).
Proof.
  intros Hstep. revert db. induction ops as [|[d op] ops IH]; intros db W HQ HP; [done|].
  apply Forall_cons in HQ as [H1 H2]. cbn. apply IH; [by apply session_step_wf|done|by apply Hstep].
Qed.

(** A token all of whose refresh credentials are used. *)
Definition spent (h : string) (db : SessionTables) : Prop :=
  ∀ id c, tb_credentials db !! id = Some c → cr_TokenHash c = h → is_refresh c → ot_Valid (cr_UsedAt c) = true.
Definition stored (h : string) (db : SessionTables) : Prop := ∃ id c, tb_credentials db !! id = Some c ∧ cr_TokenHash c = h.

Lemma spent_step h d op db :
  session_wf db → h ∉ op_hashes op → spent h db → spent h (session_step d op db).1.
Proof.
  intros W Hh Hs. destruct (session_step_adds d op db W) as (sid & new & T & Hnew & _).
  intros id c' [(Hin & _)|(c & Hc & E & _)]%(tr_credentials _ _ _ _ T) Heq Hk.
  - destruct Hh. rewrite <-Heq. by apply Hnew.
  - rewrite (ce_TokenHash _ _ E) in Heq. unfold is_refresh in Hk. rewrite (ce_Kind _ _ E) in Hk.
    eapply ce_UsedAt; [done|]. by eapply Hs.
Qed.

Lemma stored_step h d op db :
  session_wf db → stored h (session_step d op db).1 → stored h db ∨ h ∈ op_hashes op.
Proof.
  intros W. pose proof (session_step_adds d op db W) as (sid & new & T & Hnew & _). intros (id & c' & Hc' & Hh).
  apply (tr_credentials _ _ _ _ T) in Hc' as [(Hin & _)|(c & Hc & E & _)]; [right; rewrite <-Hh; by apply Hnew|left].
  exists id, c. by rewrite <-Hh, (ce_TokenHash _ _ E).
Qed.

(** An exchange, read off an answered rotation. *)
Lemma exchanged_step d op db h :
  session_wf db → exchanged_token (op, (session_step d op db).2) = Some h →
  ∃ accessID refreshID input current session a r,
    op = OpRotate accessID refreshID input ∧ rr_TokenHash input = h ∧
    exchange h current session a r (TimeUTC (rr_Now input)) db (session_step d op db).1 ∧
    exchanged_session (op, (session_step d op db).2) = Some (ss_ID session).
Proof.
  intros W H. destruct op as [| | | | |accessID refreshID input| | |]; try done. cbn [session_step] in *.
  destruct (RotateRefresh d accessID refreshID input db) as [db' res] eqn:E. cbn [snd fst exchanged_token] in *.
  destruct res as [rotation|]; [|done]. destruct (sr_RefreshCredential rotation) as [r0|] eqn:Er0; [|done].
  injection H as <-. unfold RotateRefresh in E.
  destruct (rr_Access input) as [access|], (rr_Refresh input) as [refresh|]; try done.
  destruct (_ || _); [done|]. apply runSQLTransaction_Ok in E.
  apply rotateRefreshCredential_ok in E as [(_ & H & _)|(current & session & a & r' & X & Ha & Hr & _ & _ & Hid & _)];
    [congruence| |done|apply TimeUTC_normalized].
  exists accessID, refreshID, input, current, session, a, r'. split_and!; [done..|]. cbn. by rewrite Er0, Hid.
Qed.

Lemma exchange_spends h current session a r now db db' :
  session_wf db → exchange h current session a r now db db' → stored h db ∧ ¬ spent h db ∧ spent h db'.
Proof.
  intros W (Hrow & Hcur & Hun & _ & _ & _ & _ & _ & _ & _ & T & _ & _ & _ & _ & _ & c1 & Hc1 & Hu1 & _).
  unfold refresh_row in Hrow. to_prop. destruct Hrow as [[Hh Hk] _]. split_and!.
  - by exists (cr_ID current), current.
  - intros Hs. unfold unused in Hun. by rewrite (Hs _ _ Hcur Hh Hk) in Hun.
  - intros id c Hc Heq _. pose proof (transition_wf _ _ _ _ T W) as W'.
    assert (cr_TokenHash c1 = h) as Hh1.
    { destruct (tr_credentials _ _ _ _ T _ _ Hc1) as [(_ & _ & Hnone)|(c0 & H0 & E & _)]; [by rewrite Hcur in Hnone|].
      rewrite Hcur in H0. injection H0 as <-. by rewrite (ce_TokenHash _ _ E). }
    assert (id = cr_ID current) as -> by (eapply (wf_hash _ W'); [done..|congruence]). congruence.
Qed.

Lemma spent_never_exchanged h ops db :
  session_wf db → spent h db → Forall (λ o, h ∉ op_hashes o.2) ops → h ∉ omap exchanged_token (session_history ops db).
Proof.
  revert db. induction ops as [|[d op] ops IH]; intros db W Hs Hops; [by apply not_elem_of_nil|].
  apply Forall_cons in Hops as [Hop Hops]. cbn [session_history omap list_omap]. intros Hin.
  assert (h ∉ omap exchanged_token (session_history ops (session_step d op db).1)) as Hlater.
  { apply IH; [by apply session_step_wf|by apply spent_step|done]. }
  destruct (exchanged_token _) as [h'|] eqn:E; [|done]. apply elem_of_cons in Hin as [<-|]; [|done].
  apply exchanged_step in E as (? & ? & ? & current & session & a & r & _ & _ & X & _); [|done].
  apply exchange_spends in X as (_ & Hns & _); [by apply Hns|done].
Qed.

(** ** Presented tokens *)

(** A token hash that names a refresh credential of a Session which both rehydrate and
    whose authentication generation is current. *)
Record presented (h : string) (db : SessionTables) (c : SessionCredential) (s : Session) : Prop := {
  pr_row : tb_credentials db !! cr_ID c = Some c;
  pr_refresh : refresh_row h c = true;
  pr_valid : SessionCredential_Validate c = Ok tt;
  pr_session : tb_sessions db !! cr_SessionID c = Some s;
  pr_archived : ot_Valid (ss_ArchivedAt s) = false;
  pr_session_valid : Session_Validate s = Ok tt;
  pr_generation : requireSessionAuthenticationGeneration s db = Ok (db, tt) }.

Lemma presented_session_id h db c s : session_wf db → presented h db c s → cr_SessionID c = ss_ID s.
Proof. intros W P. symmetry. apply (wf_session_key db W _ _ (pr_session _ _ _ _ P)). Qed.

Lemma presented_locks h db c s :
  session_wf db → presented h db c s → lockRefreshCredentialSession h db = Ok (db, (c, s)).
Proof.
  intros W P. pose proof P as [Hc Hr Hv Hs Ha Hsv _]. pose proof (presented_session_id h db c s W P) as Hid.
  assert (Huniq : ∀ k c', tb_credentials db !! k = Some c' → refresh_row h c' = true → k = cr_ID c).
  { intros k c' Hk Hr'. eapply (wf_hash db W); [done..|]. unfold refresh_row in *. to_prop. intuition congruence. }
  unfold lockRefreshCredentialSession.
  rewrite tx_query, (select_unique _ (tb_credentials db) (cr_ID c) c Hc);
    [|by rewrite Hr, Hs, Ha|intros k c' Hk Hp; apply andb_true_iff in Hp as [Hp _]; eauto].
  rewrite tx_check. eexists. split; [done|]. rewrite tx_query, (select_unique _ (tb_credentials db) (cr_ID c) c Hc); [|done..].
  rewrite tx_check. eexists. split; [done|]. rewrite tx_check. exists c.
  split; [by unfold sessionCredentialRow_model, validatePersistedModel; rewrite Hv|].
  rewrite tx_query, (select_unique _ (tb_sessions db) (ss_ID s) s);
    [|by rewrite <-Hid|by rewrite Hid, Ha, bool_decide_eq_true_2|].
  - rewrite tx_check. eexists. split; [done|]. rewrite tx_check. exists s.
    split; [by unfold sessionRow_model, validatePersistedModel; rewrite Hsv|done].
  - intros k s' Hk Hp. to_prop. destruct Hp as [Hp _]. by rewrite <-(wf_session_key db W k s' Hk), Hp, Hid.
Qed.

(** A Session no credential of which can be used again. *)
Definition closed (sid : ID) (db : SessionTables) : Prop :=
  (∀ s, tb_sessions db !! sid = Some s → ot_Valid (ss_RevokedAt s) = true) ∧
  (∀ id c, tb_credentials db !! id = Some c → cr_SessionID c = sid → credential_live c = false).

Lemma closed_step sid d op db :
  session_wf db → ¬ op_creates sid op → closed sid db → closed sid (session_step d op db).1.
Proof.
  intros W Hop [Hs Hc]. destruct (session_step_adds d op db W) as (sid' & new & T & _ & Hnew).
  destruct T as [TC TS TO TN _]. split.
  - intros s' [(s & Hk & E)|(Hne & -> & _ & Hnone & _)]%TS; [eapply se_RevokedAt; [done|eauto]|].
    by destruct Hop; apply Hnew.
  - intros id c' Hk' Hsid. apply TC in Hk' as [(Hin & Hid & _)|(c & Hk & E & _)].
    + destruct (TN c' Hin) as (Hs' & _ & _ & _ & Hopen). rewrite Hsid in Hs'. subst sid'.
      destruct (tb_sessions db !! sid) as [s|] eqn:Es; [|destruct Hop; apply Hnew; [by intros ->; apply elem_of_nil in Hin|done]].
      pose proof (Hopen s eq_refl) as Ho. by rewrite (Hs s eq_refl) in Ho.
    + rewrite (ce_SessionID _ _ E) in Hsid. pose proof (credential_live_back c c' E) as Hback.
      rewrite (Hc id c Hk Hsid) in Hback. destruct (credential_live c'); [by discriminate Hback|done].
Qed.

Lemma closed_never_exchanged sid ops db :
  session_wf db → closed sid db → Forall (λ o, ¬ op_creates sid o.2) ops →
  sid ∉ omap exchanged_session (session_history ops db).
Proof.
  revert db. induction ops as [|[d op] ops IH]; intros db W Hcl Hops; [by apply not_elem_of_nil|].
  apply Forall_cons in Hops as [Hop Hops]. cbn [session_history omap list_omap]. intros Hin.
  assert (sid ∉ omap exchanged_session (session_history ops (session_step d op db).1)) as Hlater.
  { apply IH; [by apply session_step_wf|by apply closed_step|done]. }
  destruct (exchanged_session _) as [sid'|] eqn:E; [|done]. apply elem_of_cons in Hin as [<-|]; [|done].
  assert (∃ h, exchanged_token (op, (session_step d op db).2) = Some h) as [h Hh].
  { unfold exchanged_session, exchanged_token in *. destruct op; try done. destruct (session_step _ _ _) as [? [[rotation|]|]]; try done.
    cbn in *. destruct (sr_RefreshCredential rotation); [eauto|done]. }
  apply exchanged_step in Hh as (? & ? & ? & current & session & a & r & _ & _ & X & Hsid); [|done].
  rewrite E in Hsid. injection Hsid as ->.
  destruct X as (_ & _ & _ & _ & Hs & Hl & _). destruct Hcl as [Hcs _]. unfold session_live in Hl.
  by rewrite (Hcs session Hs), andb_false_r in Hl.
Qed.

(** Revoking the live credentials of a Session whose row is revoked closes it. *)
Lemma revoke_credentials_closes sid at_ db :
  (∀ s, tb_sessions db !! sid = Some s → ot_Valid (ss_RevokedAt s) = true) →
  closed sid (update_credentials (λ c, (cr_SessionID c ==? sid) && credential_live c) (revoke_credential_row at_) db).
Proof.
  intros Hs. split; [done|]. intros id c' (c & Hc & ->)%lookup_set_where Hsid.
  assert (cr_SessionID c = sid) as Hc0 by (by match type of Hsid with context [if ?b then _ else _] => destruct b end).
  rewrite bool_decide_eq_true_2 by done. cbn [andb]. destruct (credential_live c) eqn:El; [|done].
  unfold credential_live. cbn. by rewrite andb_false_r.
Qed.

Lemma revokeReplayedSession_closes s now db :
  session_wf db → tb_sessions db !! ss_ID s = Some s → ot_Valid (ss_ArchivedAt s) = false →
  ∃ db' s' hashes, revokeReplayedSession s now db = Ok (db', (s', hashes)) ∧ closed (ss_ID s) db'.
Proof.
  intros W Hs Ha. do 3 eexists. split; [done|]. set (db1 := update_credentials _ _ db). split; cbn.
  - intros s' (s0 & H0 & ->)%lookup_set_where. rewrite Hs in H0. injection H0 as <-.
    rewrite bool_decide_eq_true_2 by done. unfold session_live. rewrite Ha. cbn.
    by destruct (ot_Valid (ss_RevokedAt s)) eqn:E.
  - intros id c Hc. apply (proj2 (revoke_credentials_closes (ss_ID s) now (update_sessions (λ _, true)
      (revoke_session_row now "") db) ltac:(intros ? (? & _ & ->)%lookup_set_where; done)) id c Hc).
Qed.

Lemma revokeOneUserSessionAt_closes s at_ reason db :
  session_wf db → tb_sessions db !! ss_ID s = Some s → session_live s = true →
  ∃ db' hashes, revokeOneUserSessionAt (ss_ID s) (ss_UserID s) at_ reason db = Ok (db', hashes) ∧ closed (ss_ID s) db'.
Proof.
  intros W Hs Hl. set (p := λ s', (ss_ID s' ==? ss_ID s) && (ss_UserID s' ==? ss_UserID s) && session_live s').
  assert (Hp : p s = true) by (unfold p; by rewrite !bool_decide_eq_true_2, Hl).
  assert (Hsel : select p (tb_sessions db) = [s]).
  { apply (select_unique _ _ (ss_ID s)); [done..|]. intros k s' Hk Hp'. unfold p in Hp'. to_prop.
    destruct Hp' as [[Hid _] _]. by rewrite <-(wf_session_key db W k s' Hk). }
  do 2 eexists. split.
  { unfold revokeOneUserSessionAt, selectActiveTokenHashes. cbv zeta. fold p. rewrite tx_query, tx_check. eexists.
    split; [by rewrite Hsel|]. rewrite !tx_query, tx_exec, tx_check. exists tt.
    split; [apply requireAffected_ok; eauto|]. rewrite tx_exec. done. }
  apply revoke_credentials_closes. intros s' (s0 & H0 & ->)%lookup_set_where. rewrite Hs in H0. injection H0 as <-.
  by rewrite Hp.
Qed.

(** What a presented token is due, from the rows alone. *)
Inductive verdict :=
  | Replayed
  | Inactive
  | Expired
  | Refused (e : error)
  | Exchanged (a r : SessionCredential).
Definition rotation_verdict (accessID refreshID : ID) (access refresh c : SessionCredential) (s : Session) (now : Time) : verdict :=
  if ot_Valid (cr_UsedAt c) then Replayed
  else if ot_Valid (ss_RevokedAt s) then Inactive
  else if (t_ns (ss_IdleExpiresAt s) <=? t_ns now) then Expired
  else if ot_Valid (cr_RevokedAt c) || (t_ns (cr_ExpiresAt c) <=? t_ns now) then Inactive
  else match prepareRotatedSessionCredentials access refresh c s accessID refreshID now with
       | Err e => Refused e
       | Ok (a, r) => Exchanged a r
       end.

(** The drawn identifiers and hashes are new. *)
Definition drawn_fresh (accessID refreshID : ID) (access refresh : SessionCredential) (db : SessionTables) : Prop :=
  accessID ≠ refreshID ∧ tb_credentials db !! accessID = None ∧ tb_credentials db !! refreshID = None ∧
  cr_TokenHash access ≠ cr_TokenHash refresh ∧ ¬ stored (cr_TokenHash access) db ∧ ¬ stored (cr_TokenHash refresh) db.

Lemma insertSessionCredential_run c db :
  tb_credentials db !! cr_ID c = None → ¬ stored (cr_TokenHash c) db → is_Some (tb_sessions db !! cr_SessionID c) →
  (ID_IsZero (cr_ParentID c) = true ∨ is_Some (tb_credentials db !! cr_ParentID c)) →
  insertSessionCredential c db = Ok (db <| tb_credentials := <[cr_ID c := c]> (tb_credentials db) |>, tt).
Proof.
  intros Hk Hh Hs Hp. unfold insertSessionCredential. rewrite tx_query, !tx_fail_if. cbn [id]. split_and!; [..|done].
  - apply bool_decide_eq_false_2. rewrite Hk. by intros [].
  - apply negb_false_iff, Nat.eqb_eq, length_zero_iff_nil, select_nil. intros k c' Hc'.
    apply bool_decide_eq_false_2. intros Heq. apply Hh. by exists k, c'.
  - by rewrite bool_decide_eq_true_2.
  - destruct Hp as [->|Hp]; [done|]. by rewrite (bool_decide_eq_true_2 _ Hp), andb_false_r.
Qed.

Lemma replaceRefreshCredential_run s c a r now db :
  tb_credentials db !! cr_ID c = Some c → is_Some (tb_sessions db !! ss_ID s) →
  cr_SessionID a = ss_ID s → cr_SessionID r = ss_ID s → ID_IsZero (cr_ParentID a) = true → cr_ParentID r = cr_ID c →
  drawn_fresh (cr_ID a) (cr_ID r) a r db →
  ∃ db' hashes, replaceRefreshCredential s c a r now db = Ok (db', hashes).
Proof.
  intros Hc Hs Sa Sr Pa Pr (Hne & Ha & Hr & Hhne & Hha & Hhr).
  set (p := λ c', (cr_SessionID c' ==? ss_ID s) && (cr_Kind c' ==? SessionCredentialAccess) && credential_live c').
  set (db0 := update_credentials p (revoke_credential_row now) db).
  assert (Hst : ∀ h, stored h db0 → stored h db).
  { intros h (k & c' & (c0 & Hk & ->)%lookup_set_where & <-). exists k, c0. split; [done|]. by destruct (p c0). }
  do 2 eexists. unfold replaceRefreshCredential, selectActiveAccessHashes. rewrite tx_query, tx_exec, tx_bind_ok. fold p. fold db0.
  do 2 eexists. split.
  { apply insertSessionCredential_run; [by apply lookup_set_where_None|by intros ?%Hst|by rewrite Sa|by left]. }
  rewrite tx_bind_ok. do 2 eexists. split.
  { apply insertSessionCredential_run; cbn.
    - rewrite lookup_insert_ne by done. by apply lookup_set_where_None.
    - intros (k & c' & Hk & Hh). cbn in Hk. apply lookup_insert_Some in Hk as [[_ <-]|[_ Hk]]; [done|].
      apply Hhr, Hst. by exists k, c'.
    - by rewrite Sr.
    - right. rewrite Pr. apply lookup_insert_is_Some. destruct (decide (cr_ID a = cr_ID c)) as [|Hn]; [by left|right].
      split; [done|]. eexists. apply lookup_set_where. eauto. }
  rewrite tx_exec. done.
Qed.

(** The body of a rotation, case by case. *)
Lemma rotate_decided h accessID refreshID access refresh c s now idle db :
  session_wf db → presented h db c s → normalized now → drawn_fresh accessID refreshID access refresh db →
  let run := rotateRefreshCredential h access refresh accessID refreshID now idle db in
  match rotation_verdict accessID refreshID access refresh c s now with
  | Replayed => ∃ db' rotation, run = Ok (db', rotation) ∧ sr_ReplayDetected rotation = true ∧
      sr_AccessCredential rotation = None ∧ sr_RefreshCredential rotation = None ∧ closed (ss_ID s) db'
  | Inactive => run = Err credentials_inactive
  | Expired => ∃ db' rotation, run = Ok (db', rotation) ∧ sr_Expired rotation = true ∧
      sr_AccessCredential rotation = None ∧ sr_RefreshCredential rotation = None ∧ closed (ss_ID s) db'
  | Refused e => run = Err e
  | Exchanged a r => ∃ db' rotation, run = Ok (db', rotation) ∧ sr_AccessCredential rotation = Some a ∧
      sr_RefreshCredential rotation = Some r
  end.
Proof.
  intros W P Hnow F. pose proof (presented_session_id h db c s W P) as Hsid.
  pose proof (pr_session _ _ _ _ P) as Hs. rewrite Hsid in Hs. pose proof (pr_archived _ _ _ _ P) as Ha.
  pose proof (wf_replaced db W _ _ (pr_row _ _ _ _ P)) as Hrep. pose proof (wf_idle db W _ _ Hs) as Hidle.
  assert (Harch : ot_Valid (cr_ArchivedAt c) = false).
  { pose proof (pr_refresh _ _ _ _ P) as Hr. unfold refresh_row in Hr. to_prop. tauto. }
  unfold rotation_verdict, rotateRefreshCredential, mbind, tx_bind.
  rewrite (presented_locks h db c s W P), (pr_generation _ _ _ _ P).
  destruct (ot_Valid (cr_UsedAt c)) eqn:Eu; cbn [orb].
  { destruct (revokeReplayedSession_closes s now db W Hs Ha) as (db' & s' & hashes & -> & Hcl). eauto 10. }
  assert (ID_IsZero (cr_ReplacedByID c) = true) as Ez.
  { destruct (ID_IsZero (cr_ReplacedByID c)) eqn:E; [done|]. by rewrite Hrep in Eu. }
  rewrite Ez. cbn [negb]. destruct (ot_Valid (ss_RevokedAt s)) eqn:Er; [done|].
  destruct (t_ns (ss_IdleExpiresAt s) <=? t_ns now) eqn:Ei.
  { assert (Time_Before now (ss_IdleExpiresAt s) = false) as -> by (to_prop; lia). cbn [negb orb].
    unfold expireRotatingSession, mbind, tx_bind.
    destruct (revokeOneUserSessionAt_closes s now SessionRevocationExpired db W Hs) as (db' & hashes & -> & Hcl);
      [unfold session_live; by rewrite Ha, Er|]. eauto 10. }
  assert (Time_Before now (ss_IdleExpiresAt s) = true) as -> by (to_prop; lia).
  assert (Time_Before now (ss_ExpiresAt s) = true) as -> by (to_prop; lia). cbn [negb orb].
  assert (SessionCredential_IsExpiredAt (Some c) now = ot_Valid (cr_RevokedAt c) || (t_ns (cr_ExpiresAt c) <=? t_ns now)) as ->.
  { unfold SessionCredential_IsExpiredAt. rewrite Harch, (normalized_TimeUTC now) by done. cbn [orb]. f_equal.
    unfold Time_Before. by rewrite Z.leb_antisym. }
  destruct (_ || _); [done|]. unfold check.
  destruct (prepareRotatedSessionCredentials _ _ _ _ _ _ _) as [[a r]|e] eqn:Ep; [|done].
  apply prepareRotated_ok in Ep as (Va & _ & Ka & _ & Ia & Ir & Sa & Sr & Hha & Hhr & Hpar & _).
  destruct (replaceRefreshCredential_run s c a r now db) as (db' & hashes & ->);
    [apply P|by rewrite Hs|done|done| |done|by unfold drawn_fresh; rewrite Ia, Ir, Hha, Hhr|].
  - destruct (SessionCredential_Validate_ok a Va) as (_ & _ & _ & _ & Hz & _). destruct (Hz Ka) as [Hz' _].
    unfold ID_IsZero. by rewrite Hz'.
  - unfold touchRotatedSession, mbind, tx_bind. cbn. eauto 10.
Qed.

(** ** Theorems *)

(** C22. Whatever sequence of sign-ins, activity, revocations, rotations and purges runs,
    failures included, the session tables stay sound: a Session has at most one live
    access credential and one unused refresh credential, a token names one credential,
    and no credential or idle deadline outlives the absolute expiry of its Session. *)
Theorem session_tables_sound (ops : list (driver * SessionOp)) (db : SessionTables) :
  session_wf db → session_wf (session_run ops db).
Proof.
  intros W. apply (session_run_invariant (λ _, True) (λ _, True)); [done..| |done]. by apply Forall_forall.
Qed.

(** C19. No refresh token is exchanged twice: in every history in which the stored and the
    drawn token hashes are all different, as hashes of random tokens are, the tokens
    exchanged for a new pair are pairwise different. *)
Theorem refresh_token_single_use (ops : list (driver * SessionOp)) (db : SessionTables) :
  session_wf db → NoDup (concat (map (λ o, op_hashes o.2) ops)) →
  (∀ h, h ∈ concat (map (λ o, op_hashes o.2) ops) → ¬ stored h db) →
  NoDup (omap exchanged_token (session_history ops db)).
Proof.
  revert db. induction ops as [|[d op] ops IH]; intros db W Hnd Hfresh; [constructor|].
  cbn [map concat snd] in Hnd, Hfresh. apply NoDup_app in Hnd as (_ & Hdis & Hnd).
  assert (Hlater : NoDup (omap exchanged_token (session_history ops (session_step d op db).1))).
  { apply IH; [by apply session_step_wf|done|]. intros h Hin [Hst|Hop]%stored_step; [|by apply (Hdis h)|done].
    by apply (Hfresh h); [apply elem_of_app; right|]. }
  cbn [session_history omap list_omap]. destruct (exchanged_token _) as [h|] eqn:E; [|done].
  apply exchanged_step in E as (? & ? & ? & current & session & a & r & _ & _ & X & _); [|done].
  apply exchange_spends in X as (Hst & _ & Hsp); [|done]. constructor; [|done].
  apply spent_never_exchanged; [by apply session_step_wf|done|]. apply Forall_forall. intros o Ho Hin.
  apply (Hfresh h); [|done]. apply elem_of_app. right. apply list_elem_of_In, in_concat. exists (op_hashes o.2).
  split; [|by apply list_elem_of_In]. apply in_map_iff. exists o. split; [done|by apply list_elem_of_In].
Qed.

(** What presenting a refresh token does is decided by the rows: a used token closes
    its Session, a revoked Session or credential refuses it, an elapsed Session is closed
    as expired, and otherwise the pair asked for is issued, the token marked used and the
    previous access credential revoked; a refusal leaves every table as it was. *)
Theorem refresh_rotation_decided (db : SessionTables) (c : SessionCredential) (s : Session)
    (input : SessionRefreshRotation) (accessID refreshID : ID) (access refresh : SessionCredential) :
  session_wf db → presented (rr_TokenHash input) db c s →
  rr_Access input = Some access → rr_Refresh input = Some refresh → cr_ID access = "" → cr_ID refresh = "" →
  drawn_fresh accessID refreshID access refresh db →
  let now := TimeUTC (rr_Now input) in
  let '(db', answer) := RotateRefresh healthy accessID refreshID input db in
  match rotation_verdict accessID refreshID access refresh c s now with
  | Replayed => (∃ rotation, answer = Ok rotation ∧ sr_ReplayDetected rotation = true ∧
      sr_RefreshCredential rotation = None) ∧ closed (ss_ID s) db'
  | Inactive => answer = Err credentials_inactive ∧ db' = db
  | Expired => (∃ rotation, answer = Ok rotation ∧ sr_Expired rotation = true ∧
      sr_RefreshCredential rotation = None) ∧ closed (ss_ID s) db'
  | Refused e => answer = Err e ∧ db' = db
  | Exchanged a r => (∃ rotation, answer = Ok rotation ∧ sr_AccessCredential rotation = Some a ∧
      sr_RefreshCredential rotation = Some r) ∧ exchange (rr_TokenHash input) c s a r now db db'
  end.
Proof.
  intros W P Ea Er Za Zr F. unfold RotateRefresh. rewrite Ea, Er. unfold ID_IsZero. rewrite Za, Zr.
  change (negb (bool_decide ("" = ""))) with false. cbn [orb]. set (now := TimeUTC (rr_Now input)).
  assert (Hnow : normalized now) by apply TimeUTC_normalized.
  pose proof (rotate_decided (rr_TokenHash input) accessID refreshID access refresh c s now (TimeUTC (rr_IdleExpiresAt input))
    db W P Hnow F) as H. cbv zeta in H.
  destruct (rotation_verdict accessID refreshID access refresh c s now) as [| | |e|a r].
  - destruct H as (db' & rotation & E & ? & _ & ? & ?). rewrite (runSQLTransaction_healthy _ _ _ _ _ E). eauto 6.
  - by rewrite (runSQLTransaction_healthy_Err _ _ _ _ H).
  - destruct H as (db' & rotation & E & ? & _ & ? & ?). rewrite (runSQLTransaction_healthy _ _ _ _ _ E). eauto 6.
  - by rewrite (runSQLTransaction_healthy_Err _ _ _ _ H).
  - destruct H as (db' & rotation & E & H1 & H2). rewrite (runSQLTransaction_healthy _ _ _ _ _ E). split; [by eauto|].
    apply rotateRefreshCredential_ok in E as [(Hn & _)|(c' & s' & a' & r' & X & _ & _ & H1' & H2' & _)]; [congruence| |done|done].
    rewrite H1 in H1'. rewrite H2 in H2'. injection H1' as <-. injection H2' as <-.
    assert (c' = c ∧ s' = s) as [-> ->]; [|done]. destruct X as (Hrow & Hc' & _ & Hsid & Hs' & _).
    pose proof (pr_refresh _ _ _ _ P) as Hrow0. unfold refresh_row in Hrow, Hrow0. to_prop.
    destruct Hrow as [[Hh _] _], Hrow0 as [[Hh0 _] _].
    assert (cr_ID c' = cr_ID c) as Hid by (eapply (wf_hash db W); [done|apply P|congruence]).
    pose proof (pr_row _ _ _ _ P) as Hc. rewrite <-Hid, Hc' in Hc. injection Hc as ->. split; [done|].
    pose proof (pr_session _ _ _ _ P) as Hs. rewrite Hsid, Hs' in Hs. by injection Hs.
Qed.

(** C20. Presenting a refresh token a second time closes its Session for good: the answer
    reports the replay and carries no credentials, and whatever runs later, short of
    creating a Session with the same identifier, every credential of that Session stays
    unusable and none of its tokens is ever exchanged again. *)
Theorem replay_closes_session (db : SessionTables) (c : SessionCredential) (s : Session)
    (input : SessionRefreshRotation) (accessID refreshID : ID) (access refresh : SessionCredential)
    (ops : list (driver * SessionOp)) :
  session_wf db → presented (rr_TokenHash input) db c s → ot_Valid (cr_UsedAt c) = true →
  rr_Access input = Some access → rr_Refresh input = Some refresh → cr_ID access = "" → cr_ID refresh = "" →
  Forall (λ o, ¬ op_creates (ss_ID s) o.2) ops →
  ∃ db' rotation, RotateRefresh healthy accessID refreshID input db = (db', Ok rotation) ∧
    sr_ReplayDetected rotation = true ∧ sr_AccessCredential rotation = None ∧ sr_RefreshCredential rotation = None ∧
    closed (ss_ID s) (session_run ops db') ∧
    ss_ID s ∉ omap exchanged_session (session_history ops db').
Proof.
  intros W P Hu Ea Er Za Zr Hops.
  pose proof (presented_session_id _ db c s W P) as Hsid. pose proof (pr_session _ _ _ _ P) as Hs. rewrite Hsid in Hs.
  destruct (revokeReplayedSession_closes s (TimeUTC (rr_Now input)) db W Hs (pr_archived _ _ _ _ P))
    as (db' & s' & hashes & Hr & Hcl).
  assert (E : RotateRefresh healthy accessID refreshID input db = (db', Ok (mkSessionRotation s' None None hashes true false))).
  { unfold RotateRefresh. rewrite Ea, Er. unfold ID_IsZero. rewrite Za, Zr. change (negb (bool_decide ("" = ""))) with false.
    cbn [orb]. apply runSQLTransaction_healthy. unfold rotateRefreshCredential, mbind, tx_bind.
    rewrite (presented_locks _ db c s W P), (pr_generation _ _ _ _ P), Hu. cbn [orb]. by rewrite Hr. }
  assert (W' : session_wf db').
  { pose proof (session_step_wf healthy (OpRotate accessID refreshID input) db W) as W'. cbn in W'. by rewrite E in W'. }
  do 2 eexists. split_and!; [done..| |].
  - apply (session_run_invariant (closed (ss_ID s)) (λ op, ¬ op_creates (ss_ID s) op)); [|done..].
    intros d op db0 W0 Hop. by apply closed_step.
  - by apply closed_never_exchanged.
Qed.

(** C21. A login ends at the absolute expiry fixed when it was created: whatever runs
    later, and however often its refresh tokens are exchanged, from that instant on every
    credential that still resolves to the Session is expired, and so is the Session. *)
Theorem session_lifetime_absolute (db : SessionTables) (s : Session) (ops : list (driver * SessionOp)) (now : Time)
    (tokenHash : string) (kind : SessionCredentialKind) (c' : SessionCredential) (s' : Session) :
  session_wf db → tb_sessions db !! ss_ID s = Some s → Forall (λ o, ¬ op_creates (ss_ID s) o.2) ops →
  t_ns (ss_ExpiresAt s) ≤ t_ns (TimeUTC now) →
  GetSessionByTokenHash (session_run ops db) tokenHash kind = Ok (c', s') → ss_ID s' = ss_ID s →
  Session_IsExpiredAt (Some s') now = true ∧ SessionCredential_IsExpiredAt (Some c') now = true.
Proof.
  intros W Hs Hops Hnow Hget Hid.
  destruct (session_run_invariant (λ db, ∀ s', tb_sessions db !! ss_ID s = Some s' → ss_ExpiresAt s' = ss_ExpiresAt s)
    (λ op, ¬ op_creates (ss_ID s) op) ops db) as [W' Hexp]; [|done|done|by rewrite Hs; intros s0 [= <-]|].
  { intros d op db0 W0 Hop H0. pose proof (session_step_adds d op db0 W0) as (sid & new & T & _ & Hnew). intros s1 H1.
    apply (tr_sessions _ _ _ _ T) in H1 as [(s0 & Hs0 & E)|(Hne & <- & _ & Hnone & _)];
      [by rewrite (se_ExpiresAt _ _ E), (H0 s0 Hs0)|]. by destruct Hop; apply Hnew. }
  set (db' := session_run ops db) in *. unfold GetSessionByTokenHash in Hget.
  apply ok_bind in Hget as (c0 & (Hp & k & Hk)%get_row_ok & Hget). apply ok_bind in Hget as (s0 & (Hq & k' & Hk')%get_row_ok & Hget).
  unfold sessionCredentialRow_model, sessionRow_model in Hget.
  apply ok_bind in Hget as (c1 & H1 & Hget). apply ok_bind in H1 as ([] & _ & [= ->]%ok_inj).
  apply ok_bind in Hget as (s1 & H1 & Hget). apply ok_bind in H1 as ([] & _ & [= ->]%ok_inj).
  injection Hget as -> ->. to_prop. destruct Hq as [[Hown _] _].
  pose proof (wf_session_key db' W' _ _ Hk') as <-. rewrite Hid in Hk'. rewrite Hown in Hid.
  pose proof (Hexp s' Hk') as He. pose proof (wf_idle db' W' _ _ Hk').
  assert (t_ns (cr_ExpiresAt c') ≤ t_ns (ss_ExpiresAt s')) by (eapply (wf_lifetime db' W' k); [done|by rewrite Hid]).
  unfold Session_IsExpiredAt, SessionCredential_IsExpiredAt, Time_Before. rewrite He in *.
  rewrite !(proj2 (Z.ltb_ge _ _)) by lia. cbn [negb]. by rewrite !orb_true_r.
Qed.

(** ** Witnesses *)

Definition sample_session_id : ID := "bbbbbbbbbbbbbbbbbbbbbbbbbb".
Definition sample_access_id : ID := "nnnnnnnnnnnnnnnnnnnnnnnnnn".
Definition sample_refresh_id : ID := "dddddddddddddddddddddddddd".
Definition sample_next_access_id : ID := "rrrrrrrrrrrrrrrrrrrrrrrrrr".
Definition sample_next_refresh_id : ID := "ffffffffffffffffffffffffff".
Definition hash_of_digit (a : ascii) : string := string_of_bytes (repeat (Z.of_nat (nat_of_ascii a)) 64).

Definition sample_login : Session :=
  mkSession "" zeroTime zeroTime noTime sample_id 0 false SessionClientWeb "" "" "" "" (DesktopPlatform_other "")
    (DesktopArchitecture_other "") 0 "" "" "password" "" "" AuthenticationSingleFactor zeroTime noTime noTime zeroTime
    (at_second 2000) (at_second 10000) noTime "".
Definition sample_credential (kind : SessionCredentialKind) (hash : ascii) (expires : Z) : SessionCredential :=
  mkSessionCredential "" zeroTime zeroTime noTime "" kind (hash_of_digit hash) "" "" "" (at_second expires) noTime noTime.

Definition sample_save : SessionOp :=
  OpSave (Ok tt) (Ok tt) sample_session_id [(sample_access_id, ""); (sample_refresh_id, sample_revision_id)] (at_second 1000)
    (Some (mkSessionCreation (Some sample_login)
       [Some (sample_credential SessionCredentialAccess "a" 1500); Some (sample_credential SessionCredentialRefresh "b" 9000)]
       5 (mkPasswordCredentialProof sample_id 1) sample_id (at_second 1000))).
Definition sample_rotation (access refresh : ascii) (now : Z) : SessionRefreshRotation :=
  mkSessionRefreshRotation (hash_of_digit "b") (Some (sample_credential SessionCredentialAccess access (now + 500)))
    (Some (sample_credential SessionCredentialRefresh refresh 20000)) (at_second now) (at_second (now + 1000)).
Definition sample_rotate : SessionOp := OpRotate sample_next_access_id sample_next_refresh_id (sample_rotation "c" "d" 1600).
Definition sample_replay : SessionOp := OpRotate sample_id sample_revision_id (sample_rotation "e" "f" 1700).

Definition sample_tables : SessionTables :=
  mkSessionTables {[ sample_id := mkUserRow (at_second 10) (at_second 10) noTime noTime noTime noTime ]} ∅ ∅ ∅ ∅ ∅.
Definition open_tables : SessionTables := session_run [(healthy, sample_save)] sample_tables.
Definition rotated_tables : SessionTables := session_run [(healthy, sample_rotate)] open_tables.
Definition row_of (db : SessionTables) (id : ID) : SessionCredential :=
  default (sample_credential SessionCredentialAccess "a" 0) (tb_credentials db !! id).
Definition session_of (db : SessionTables) : Session := default sample_login (tb_sessions db !! sample_session_id).

Lemma open_tables_wf : session_wf open_tables.
Proof. apply session_step_wf, session_wf_empty. Qed.
Lemma rotated_tables_wf : session_wf rotated_tables.
Proof. apply session_step_wf, open_tables_wf. Qed.

Lemma open_stored h : stored h open_tables → h ∈ [hash_of_digit "a"; hash_of_digit "b"].
Proof.
  intros (id & c & Hc & <-).
  assert (Hall : Forall (λ kv, cr_TokenHash kv.2 ∈ [hash_of_digit "a"; hash_of_digit "b"])
    (map_to_list (tb_credentials open_tables))) by (apply (bool_decide_unpack _); vm_compute; exact I).
  rewrite Forall_forall in Hall. apply (Hall (id, c)). by apply elem_of_map_to_list.
Qed.

Lemma session_tables_sound_witness :
  session_wf (session_run [(healthy, sample_save); (healthy, sample_rotate)] sample_tables) ∧
  size (tb_credentials (session_run [(healthy, sample_save); (healthy, sample_rotate)] sample_tables)) = 4%nat.
Proof. split; [apply session_tables_sound, session_wf_empty|vm_compute; reflexivity]. Defined.

Lemma refresh_token_single_use_witness :
  omap exchanged_token (session_history [(healthy, sample_rotate); (healthy, sample_replay)] open_tables) = [hash_of_digit "b"] ∧
  NoDup (omap exchanged_token (session_history [(healthy, sample_rotate); (healthy, sample_replay)] open_tables)).
Proof.
  split; [vm_compute; reflexivity|]. apply refresh_token_single_use; [apply open_tables_wf| |].
  - apply (bool_decide_unpack _). vm_compute. exact I.
  - intros h Hin Hst%open_stored.
    assert (Hd : Forall (λ h, h ∉ concat (map (λ o, op_hashes o.2) [(healthy, sample_rotate); (healthy, sample_replay)]))
      [hash_of_digit "a"; hash_of_digit "b"]) by (apply (bool_decide_unpack _); vm_compute; exact I).
    rewrite Forall_forall in Hd. by apply (Hd h).
Defined.

Lemma sample_presented : presented (hash_of_digit "b") open_tables (row_of open_tables sample_refresh_id) (session_of open_tables).
Proof. split; vm_compute; reflexivity. Qed.
Lemma sample_presented_again :
  presented (hash_of_digit "b") rotated_tables (row_of rotated_tables sample_refresh_id) (session_of rotated_tables).
Proof. split; vm_compute; reflexivity. Qed.

Lemma replay_closes_session_witness :
  ∃ db' rotation, RotateRefresh healthy sample_id sample_revision_id (sample_rotation "e" "f" 1700) rotated_tables = (db', Ok rotation) ∧
    sr_ReplayDetected rotation = true ∧ sr_AccessCredential rotation = None ∧ sr_RefreshCredential rotation = None ∧
    closed sample_session_id (session_run [(healthy, sample_rotate)] db') ∧
    sample_session_id ∉ omap exchanged_session (session_history [(healthy, sample_rotate)] db').
Proof.
  apply (replay_closes_session rotated_tables (row_of rotated_tables sample_refresh_id) (session_of rotated_tables)
    (sample_rotation "e" "f" 1700) sample_id sample_revision_id (sample_credential SessionCredentialAccess "e" 2200)
    (sample_credential SessionCredentialRefresh "f" 20000) [(healthy, sample_rotate)]);
    [apply rotated_tables_wf|apply sample_presented_again|vm_compute; reflexivity|reflexivity|reflexivity|reflexivity|reflexivity|].
  repeat constructor. by intros [].
Defined.

Lemma sample_drawn_fresh :
  drawn_fresh sample_next_access_id sample_next_refresh_id (sample_credential SessionCredentialAccess "c" 2100)
    (sample_credential SessionCredentialRefresh "d" 20000) open_tables.
Proof.
  split_and!; try (vm_compute; done); intros Hst%open_stored; revert Hst; apply (bool_decide_unpack _); vm_compute; exact I.
Qed.

Lemma refresh_rotation_decided_witness :
  let '(db', answer) := RotateRefresh healthy sample_next_access_id sample_next_refresh_id (sample_rotation "c" "d" 1600) open_tables in
  (∃ rotation, answer = Ok rotation ∧
     sr_AccessCredential rotation = Some (row_of rotated_tables sample_next_access_id) ∧
     sr_RefreshCredential rotation = Some (row_of rotated_tables sample_next_refresh_id)) ∧
  exchange (hash_of_digit "b") (row_of open_tables sample_refresh_id) (session_of open_tables)
    (row_of rotated_tables sample_next_access_id) (row_of rotated_tables sample_next_refresh_id)
    (TimeUTC (at_second 1600)) open_tables db'.
Proof.
  pose proof (refresh_rotation_decided open_tables (row_of open_tables sample_refresh_id) (session_of open_tables)
    (sample_rotation "c" "d" 1600) sample_next_access_id sample_next_refresh_id (sample_credential SessionCredentialAccess "c" 2100)
    (sample_credential SessionCredentialRefresh "d" 20000) open_tables_wf sample_presented eq_refl eq_refl eq_refl eq_refl
    sample_drawn_fresh) as H.
  cbv zeta in H. destruct (RotateRefresh _ _ _ _ _) as [db' answer].
  assert (E : rotation_verdict sample_next_access_id sample_next_refresh_id (sample_credential SessionCredentialAccess "c" 2100)
    (sample_credential SessionCredentialRefresh "d" 20000) (row_of open_tables sample_refresh_id) (session_of open_tables)
    (TimeUTC (rr_Now (sample_rotation "c" "d" 1600))) =
    Exchanged (row_of rotated_tables sample_next_access_id) (row_of rotated_tables sample_next_refresh_id))
    by (vm_compute; reflexivity).
  rewrite E in H. exact H.
Defined.

Lemma session_lifetime_absolute_witness :
  let db := session_run [(healthy, sample_rotate)] open_tables in
  Session_IsExpiredAt (Some (session_of db)) (at_second 10000) = true ∧
  SessionCredential_IsExpiredAt (Some (row_of db sample_next_refresh_id)) (at_second 10000) = true.
Proof.
  cbv zeta. apply (session_lifetime_absolute open_tables (session_of open_tables) [(healthy, sample_rotate)] (at_second 10000)
    (hash_of_digit "d") SessionCredentialRefresh); [apply open_tables_wf|vm_compute; reflexivity| |vm_compute; discriminate|vm_compute; reflexivity|vm_compute; reflexivity].
  repeat constructor. by intros [].
Defined.

(** A rotation on a node whose clock is behind that of the node that created the
    Session records activity before the Session's creation; the row is then refused by
    every later read. *)
Lemma rotation_behind_creation_unreadable :
  let '(db', answer) := RotateRefresh healthy sample_next_access_id sample_next_refresh_id (sample_rotation "c" "d" 999) open_tables in
  is_ok answer = true ∧ is_ok (GetSessionByTokenHash open_tables (hash_of_digit "b") SessionCredentialRefresh) = true ∧
  is_ok (GetSessionByTokenHash db' (hash_of_digit "d") SessionCredentialRefresh) = false.
Proof. vm_compute. auto. Qed.
