(* ===== verification/GoMarshal.v ===== *)
(** * json.Marshal of encoding/json

    The compact encoding that Go's standard library writes for structs, slices, strings,
    booleans and integers: members in the order of the struct's fields, and strings with the
    characters that are special in HTML escaped.  [encodeCanonicalExamDocument] of
    [server/model/exam_policy.go] passes it through the canonical form. *)

From S2P Require Import Prelude GoStrings GoJson CanonicalJson CanonicalRead CanonicalForm Sha256.

(** ** Strings *)

Definition htmlSafe (c : Z) : bool :=
  in_range 32 127 c && negb (existsb (Z.eqb c) (bytes "&<>\" ++ [34])).
Definition unicode_escape (c : Z) : list Z := bytes "\u00" ++ [hex_char (c / 16); hex_char (c mod 16)].
Definition marshal_ascii (c : Z) : list Z :=
  if htmlSafe c then [c]
  else if (c =? 92) || (c =? 34) then [92; c]
  else if c =? 8 then bytes "\b"
  else if c =? 12 then bytes "\f"
  else if c =? 10 then bytes "\n"
  else if c =? 13 then bytes "\r"
  else if c =? 9 then bytes "\t"
  else unicode_escape c.
Definition marshal_rune (x : Z * nat * Z) : list Z :=
  let '(r, width, first) := x in
  if first <? 128 then marshal_ascii first
  else if (r =? RuneError) && Nat.eqb width 1 then bytes "\ufffd"
  else if (r =? 8232) || (r =? 8233) then bytes "\u202" ++ [hex_char (r mod 16)]
  else EncodeRune r.
Definition marshal_string (s : list Z) : list Z :=
  [34] ++ concat (map marshal_rune (range_runes 0 s)) ++ [34].

(** ** Values

    [JObject] stands for a struct with its members in field order, [JArray] for a slice that
    is not nil. *)
Fixpoint Marshal (v : jval) : list Z :=
  match v with
  | JNull => bytes "null"
  | JBool b => bytes (if b then "true" else "false")
  | JInt n => bytes (FormatInt n)
  | JString s => marshal_string s
  | JArray l => [91] ++ join (map Marshal l) ++ [93]
  | JObject l => [123] ++ join (map (λ kv, marshal_string kv.1 ++ [58] ++ Marshal kv.2) l) ++ [125]
  end.

Definition encodeCanonicalExamDocument (value : jval) : result string :=
  let encoded := string_of_bytes (Marshal value) in
  Canonicalize encoded (len encoded).

Definition SHA256Fingerprint (data : string) : string := "sha256:" +:+ hex_encode (sha256 (bytes data)).

(** ** The encoding spells its value *)

Lemma marshal_string_ascii s : ascii_bytes s →
  marshal_string s = [34] ++ concat (map marshal_ascii s) ++ [34].
Proof.
  intros Hs. unfold marshal_string. do 2 f_equal. rewrite range_runes_ascii, map_map by done. f_equal.
  apply map_ext_in. intros c Hc%list_elem_of_In. unfold ascii_bytes in Hs. rewrite Forall_forall in Hs.
  specialize (Hs c Hc). cbn. by rewrite (proj2 (Z.ltb_lt c 128)) by lia.
Qed.

Lemma marshal_ascii_spells c s raw :
  0 ≤ c < 128 → spells_string s raw → spells_string (c :: s) (marshal_ascii c ++ raw).
Proof.
  intros Hc Hs. unfold marshal_ascii. destruct (htmlSafe c) eqn:E.
  { unfold htmlSafe in E. apply andb_true_iff in E as [Hr He]. apply negb_true_iff in He. unfold in_range in Hr.
    change (bytes "&<>\" ++ [34]) with [38; 60; 62; 92; 34] in He. cbn in He. to_prop. apply ss_plain; [lia..|done]. }
  destruct ((c =? 92) || (c =? 34)) eqn:E1; [apply ss_simple; [to_prop; by destruct E1; subst|done]|].
  destruct (c =? 8) eqn:E8; [apply Z.eqb_eq in E8 as ->; by apply ss_simple|].
  destruct (c =? 12) eqn:E12; [apply Z.eqb_eq in E12 as ->; by apply ss_simple|].
  destruct (c =? 10) eqn:E10; [apply Z.eqb_eq in E10 as ->; by apply ss_simple|].
  destruct (c =? 13) eqn:E13; [apply Z.eqb_eq in E13 as ->; by apply ss_simple|].
  destruct (c =? 9) eqn:E9; [apply Z.eqb_eq in E9 as ->; by apply ss_simple|].
  assert (He : EncodeRune c = [c]) by (unfold EncodeRune; by rewrite (proj2 (Z.ltb_lt c 128)) by lia).
  change (c :: s) with ([c] ++ s). rewrite <-He. apply ss_unicode; [| | |done].
  - cbn -[hex_value hex_char]. rewrite !hex_char_value by div_lia.
    change (hex_value (byte_of_ascii "0")) with (Some 0). cbn. f_equal. div_lia.
  - unfold high_surrogate, in_range. apply andb_false_iff. left. apply Z.leb_gt. lia.
  - unfold low_surrogate, in_range. apply andb_false_iff. left. apply Z.leb_gt. lia.
Qed.
Lemma ascii_cases (P : Z → bool) : forallb P (seqZ 0 128) = true → ∀ c, 0 ≤ c < 128 → P c = true.
Proof. rewrite forallb_forall. intros H c Hc. apply H, list_elem_of_In, elem_of_seqZ. lia. Qed.
Lemma marshal_ascii_range c : 0 ≤ c < 128 → ascii_bytes (marshal_ascii c).
Proof.
  intros Hc. apply (ascii_cases (λ c, forallb (in_range 0 127) (marshal_ascii c))) in Hc; [|by vm_compute].
  rewrite forallb_forall in Hc. apply Forall_forall. intros x Hx%list_elem_of_In%Hc. unfold in_range in Hx. to_prop. lia.
Qed.
Lemma marshal_string_spells s : ascii_bytes s →
  (∃ raw, marshal_string s = [34] ++ raw ++ [34] ∧ spells_string s raw) ∧ ascii_bytes (marshal_string s).
Proof.
  intros Hs. rewrite marshal_string_ascii by done. split.
  - exists (concat (map marshal_ascii s)). split; [done|].
    induction Hs as [|c s Hc _ IH]; [constructor|]. cbn. by apply marshal_ascii_spells.
  - unfold ascii_bytes. rewrite !Forall_app. split_and!; [by repeat constructor| |by repeat constructor].
    induction Hs as [|c s Hc _ IH]; [constructor|]. cbn. apply Forall_app. split; [by apply marshal_ascii_range|done].
Qed.

(** Values whose strings are ASCII, with distinct member names, at most [n] deep. *)
Fixpoint ascii_value (n : nat) (v : jval) : Prop :=
  match v with
  | JNull | JBool _ => True
  | JInt k => - MaxSafeInteger ≤ k ≤ MaxSafeInteger
  | JString s => ascii_bytes s
  | JArray l => match n with O => False | S n => Forall (ascii_value n) l end
  | JObject l =>
      match n with
      | O => False
      | S n => NoDup l.*1 ∧ Forall (λ kv, ascii_bytes kv.1 ∧ ascii_value n kv.2) l
      end
  end.

Lemma ascii_value_wf n v : ascii_value n v → well_formed n v.
Proof.
  revert v. induction n as [|n IH]; intros [| | |s|l|l] Hv; try done; cbn in *; try by apply ascii_text.
  - eapply Forall_impl; [exact Hv|]. apply IH.
  - destruct Hv as [Hnd Hv]. split; [done|]. eapply Forall_impl; [exact Hv|]. intros kv [Hk Hw]. split; [done|by apply IH].
Qed.

Lemma ascii_join {A} (f : A → list Z) vs : Forall (λ v, ascii_bytes (f v)) vs → ascii_bytes (join (map f vs)).
Proof.
  destruct 1 as [|v vs Hv Hvs]; [constructor|]. cbn. apply Forall_app. split; [done|].
  induction Hvs as [|w ws Hw _ IH]; [constructor|]. cbn. constructor; [lia|]. apply Forall_app. by split.
Qed.
Lemma ascii_within a b s : 0 ≤ a < 128 → 0 ≤ b < 128 → ascii_bytes s → ascii_bytes ([a] ++ s ++ [b]).
Proof. intros Ha Hb Hs. apply Forall_app. split; [by constructor|]. apply Forall_app. split; [done|by constructor]. Qed.

Lemma Marshal_spells n v : ascii_value n v → spells n v (Marshal v) ∧ ascii_bytes (Marshal v).
Proof.
  revert v. induction n as [|n IH]; intros [|b|k|s|l|l] Hv; try done; cbn [Marshal] in *.
  1,5: by split; [|vm_compute; repeat constructor].
  1,4: by split; [|destruct b; vm_compute; repeat constructor].
  1,3: by split; [split; [apply FormatInt_spells|]|eapply spells_int_ascii, FormatInt_spells].
  1,2: by apply marshal_string_spells.
  - cbn [ascii_value] in Hv. split.
    + exists (join (map Marshal l)). split; [done|]. apply printed_elements. eapply Forall_impl; [exact Hv|].
      intros v Hw. by apply IH.
    + apply ascii_within; [lia..|]. apply ascii_join. eapply Forall_impl; [exact Hv|]. intros v Hw. by apply IH.
  - destruct Hv as [Hnd Hv]. split.
    + split; [done|]. split.
      { eapply Forall_impl; [exact Hv|]. intros kv [Hk _]. unfold ascii_only. apply forallb_forall.
        intros c Hc%list_elem_of_In. unfold ascii_bytes in Hk. rewrite Forall_forall in Hk. apply Hk in Hc. to_prop. lia. }
      exists (join (map (λ kv, marshal_string kv.1 ++ [58] ++ Marshal kv.2) l)). split; [done|].
      apply printed_elements. eapply Forall_impl; [exact Hv|]. intros [k v] [Hk Hw]. cbn [fst snd] in *.
      destruct (marshal_string_spells k Hk) as [(raw & -> & Hraw) _].
      exists raw, [], [], (Marshal v). split; [by rewrite <-!app_assoc|]. repeat split; try constructor; [done|by apply IH].
    + apply ascii_within; [lia..|]. apply ascii_join. eapply Forall_impl; [exact Hv|]. intros [k v] [Hk Hw].
      cbn [fst snd] in *. apply Forall_app. split; [by apply marshal_string_spells|]. constructor; [lia|by apply IH].
Qed.

(** The length of the compact document does not grow when its members are sorted and the
    HTML escapes are undone. *)
Lemma quote_shorter s : ascii_bytes s → (length (quote s) ≤ length (marshal_string s))%nat.
Proof.
  intros Hs. rewrite marshal_string_ascii by done. unfold quote. rewrite !length_app. apply Nat.add_le_mono_l, Nat.add_le_mono_r.
  induction Hs as [|c s Hc _ IH]; [done|]. cbn. rewrite !length_app. apply Nat.add_le_mono; [|done].
  apply (ascii_cases (λ c, length (quote_byte c) <=? length (marshal_ascii c))%nat) in Hc; [|by vm_compute]. by apply Nat.leb_le.
Qed.

(** The members of a compact object or array and the separators between them. *)
Lemma join_length {A} (f : A → list Z) vs : length (join (map f vs)) = (sum_list_with (λ v, S (length (f v))) vs - 1)%nat.
Proof.
  destruct vs as [|v vs]; [done|]. cbn [map join sum_list_with]. rewrite length_app.
  assert (H : length (concat (map (cons 44) (map f vs))) = sum_list_with (λ v, S (length (f v))) vs).
  { induction vs as [|w vs IH]; [done|]. cbn. rewrite length_app, IH. lia. }
  lia.
Qed.
Lemma sum_list_Permutation {A} (f : A → nat) l k : l ≡ₚ k → sum_list_with f l = sum_list_with f k.
Proof. induction 1; cbn; lia. Qed.
Lemma sum_list_map {A B} (g : A → B) (f : B → nat) l : sum_list_with f (map g l) = sum_list_with (λ x, f (g x)) l.
Proof. induction l; cbn; congruence. Qed.
Lemma sum_list_le {A} (f g : A → nat) l : Forall (λ x, f x ≤ g x)%nat l → (sum_list_with f l ≤ sum_list_with g l)%nat.
Proof. induction 1; cbn; lia. Qed.

Lemma canonical_shorter n v : ascii_value n v → (length (print (sort_keys v)) ≤ length (Marshal v))%nat.
Proof.
  revert v. induction n as [|n IH]; intros [| | |s|l|l] Hv; try done; cbn [sort_keys print Marshal]; try by apply quote_shorter.
  - rewrite !length_app, !join_length, sum_list_map. cbn [length].
    assert (H : (sum_list_with (λ v, S (length (print (sort_keys v)))) l ≤ sum_list_with (λ v, S (length (Marshal v))) l)%nat).
    { apply sum_list_le. eapply Forall_impl; [exact Hv|]. intros v Hw%IH. lia. }
    lia.
  - destruct Hv as [_ Hv]. rewrite !length_app, !join_length.
    rewrite (sum_list_Permutation _ _ _ (merge_sort_Permutation member_le _)), sum_list_map. cbn [length fst snd].
    assert (H : (sum_list_with (λ kv, S (length (quote kv.1 ++ [58%Z] ++ print (sort_keys kv.2)))) l ≤
                 sum_list_with (λ kv, S (length (marshal_string kv.1 ++ [58%Z] ++ Marshal kv.2))) l)%nat).
    { apply sum_list_le. eapply Forall_impl; [exact Hv|]. intros kv [Hk%quote_shorter Hw%IH].
      rewrite !length_app. cbn [length]. lia. }
    lia.
Qed.

(** The canonical document of an ASCII value: it is produced, and it determines the value up
    to the order of members. *)
Lemma encode_canonical v : ascii_value MaxDepth v →
  encodeCanonicalExamDocument v = Ok (string_of_bytes (print (sort_keys v))).
Proof.
  intros Hv. destruct (Marshal_spells _ _ Hv) as [Hs Ha]. pose proof (canonical_shorter _ _ Hv) as Hl.
  assert (Hb : bytes (string_of_bytes (Marshal v)) = Marshal v).
  { apply bytes_string_of_bytes. eapply Forall_impl; [exact Ha|]. unfold is_byte. cbn. lia. }
  unfold encodeCanonicalExamDocument. cbv zeta. apply Canonicalize_complete; rewrite ?len_bytes, ?Hb; [lia..| |].
  - apply transparent_valid, transparent_ascii_list. eapply Forall_impl; [exact Ha|]. cbn. lia.
  - exists [], (Marshal v), []. rewrite app_nil_r. repeat split; [constructor..|done].
Qed.
Lemma encode_canonical_inj v w out :
  ascii_value MaxDepth v → ascii_value MaxDepth w →
  encodeCanonicalExamDocument v = Ok out → encodeCanonicalExamDocument w = Ok out → sort_keys v = sort_keys w.
Proof.
  intros Hv Hw. rewrite !encode_canonical by done. intros [= <-] [= E].
  pose proof (ascii_value_wf _ _ Hv) as Wv. pose proof (ascii_value_wf _ _ Hw) as Ww.
  destruct (sort_keys_wf _ _ Wv) as [Sv _], (sort_keys_wf _ _ Ww) as [Sw _].
  apply (f_equal bytes) in E.
  rewrite !bytes_string_of_bytes in E by (apply print_denotes; done).
  destruct (print_inj MaxDepth (sort_keys v) (sort_keys w) [] []) as [? _]; [done|done| |done..].
  by rewrite !app_nil_r.
Qed.
