(* ===== verification/BrowserUrl.v ===== *)
(** * Browser URLs

    Models [server/model/browser_url.go]: the canonical origin, path prefix and location
    of the embedded browser, with the part of Go's [net/url] it reads them through.  The
    canonical forms are fixed points: a host, a port and a path have one spelling, which
    holds no dot segment and no encoded separator. *)

From S2P Require Import Prelude GoStrings ModelError Workspace.

(** ** Strings *)

Definition code (a : ascii) : Z := byte_of_ascii a.
Fixpoint contains_byte (p : Z → bool) (s : string) : bool :=
  match s with EmptyString => false | String a s' => p (code a) || contains_byte p s' end.
(** [strings.ContainsAny] of one-byte characters. *)
Definition ContainsAny (s chars : string) : bool := contains_byte (λ c, existsb (Z.eqb c) (bytes chars)) s.
(** The text before the first byte satisfying [p], and the text from it on. *)
Fixpoint span_until (p : Z → bool) (s : string) : string * string :=
  match s with
  | EmptyString => (EmptyString, EmptyString)
  | String a s' => if p (code a) then (EmptyString, s)
                   else let '(x, y) := span_until p s' in (String a x, y)
  end.
Definition tail_of (s : string) : string := match s with EmptyString => EmptyString | String _ s' => s' end.
(** [strings.Cut] at a byte. *)
Definition Cut (c : Z) (s : string) : string * string :=
  let '(x, y) := span_until (Z.eqb c) s in (x, tail_of y).
(** The text before and after the last byte [c]. *)
Fixpoint cut_last (c : Z) (s : string) : option (string * string) :=
  match s with
  | EmptyString => None
  | String a s' =>
      match cut_last c s' with
      | Some (x, y) => Some (String a x, y)
      | None => if c =? code a then Some (EmptyString, s') else None
      end
  end.
Fixpoint HasSuffix (s suffix : string) : bool :=
  (s ==? suffix) || match s with EmptyString => false | String _ s' => HasSuffix s' suffix end.
Definition TrimSuffixByte (c : Z) (s : string) : string :=
  match cut_last c s with Some (x, EmptyString) => x | _ => s end.
Definition all_bytes (p : Z → bool) (s : string) : bool := negb (contains_byte (λ c, negb (p c)) s).

(** ** net/url *)

(** What the callers read of a parsed URL; the path is the text as written, whose
    escapes are well formed. *)
Record URL := mkURL { u_Scheme : string; u_User : bool; u_Host : string; u_Path : string }.

(** [getScheme]: [None] when the scheme is missing before a colon. *)
Fixpoint getScheme (first : bool) (s : string) : option (option (string * string)) :=
  match s with
  | EmptyString => Some None
  | String a s' =>
      let c := code a in
      let more := match getScheme false s' with
                  | Some (Some (scheme, rest)) => Some (Some (String a scheme, rest))
                  | r => r
                  end in
      if in_range 97 122 c || in_range 65 90 c then more
      else if in_range 48 57 c || (c =? 43) || (c =? 45) || (c =? 46) then if first then Some None else more
      else if c =? 58 then if first then None else Some (Some (EmptyString, s'))
      else Some None
  end.

(** [unescape] of a path or fragment succeeds: every percent sign opens a triplet. *)
Fixpoint escapes_valid (s : string) : bool :=
  match s with
  | EmptyString => true
  | String a s' =>
      (if code a =? 37 then
         match s' with
         | String h (String l _) => hex_digit (code h) && hex_digit (code l)
         | _ => false
         end
       else true) && escapes_valid s'
  end.

(** [shouldEscape] of an ASCII byte of a host. *)
Definition escapes_in_host (c : Z) : bool :=
  negb (alnum c || existsb (Z.eqb c) (bytes "!$&'()*+,;=:[]<>-_.~" ++ [34])).
Definition unhex (c : Z) : Z :=
  if in_range 48 57 c then c - 48 else if in_range 97 102 c then c - 97 + 10 else if in_range 65 70 c then c - 65 + 10 else 0.
(** [unescape] of a host: only an escaped percent sign or bytes above ASCII may be
    written with escapes. *)
Fixpoint unescape_host (s : string) : option string :=
  match s with
  | EmptyString => Some EmptyString
  | String a s' =>
      let c := code a in
      if c =? 37 then
        match s' with
        | String h (String l rest) =>
            if negb (hex_digit (code h)) || negb (hex_digit (code l)) then None
            else if (unhex (code h) <? 8) && negb ((code h =? 50) && (code l =? 53)) then None
            else String (ascii_of_byte (16 * unhex (code h) + unhex (code l))) <$> unescape_host rest
        | _ => None
        end
      else if (c <? 128) && escapes_in_host c then None
      else String a <$> unescape_host s'
  end.
(** [validOptionalPort], of the text from the colon on. *)
Definition validOptionalPort (port : string) : bool :=
  match port with
  | EmptyString => true
  | String a digits => (code a =? 58) && all_bytes (in_range 48 57) digits
  end.

(** [parseHost]; an IP literal in brackets is kept as written: the callers refuse every
    host with a bracket. *)
Definition parseHost (host : string) : option string :=
  if HasPrefix host "[" then
    match cut_last 93 host with
    | None => None
    | Some (_, colonPort) => if validOptionalPort colonPort then Some host else None
    end
  else
    match cut_last 58 host with
    | Some (name, port) =>
        if contains_byte (Z.eqb 58) name || negb (all_bytes (in_range 48 57) port) then None else unescape_host host
    | None => unescape_host host
    end.
(** [parseAuthority]: whether there is user information, which the callers refuse, and
    the host after the last at sign. *)
Definition parseAuthority (authority : string) : option (bool * string) :=
  match cut_last 64 authority with
  | Some (_, host) => host ← parseHost host; Some (true, host)
  | None => host ← parseHost authority; Some (false, host)
  end.

Definition ctl_byte (c : Z) : bool := (c <? 32) || (c =? 127).

(** [url.Parse], before the fragment is looked at. *)
Definition url_parse (u : string) : option URL :=
  if contains_byte ctl_byte u then None
  else if u ==? "*" then Some (mkURL "" false "" "*")
  else
    split ← getScheme true u;
    let '(scheme, rest) := match split with Some (scheme, rest) => (ToLower scheme, rest) | None => ("", u) end in
    let '(rest, _) := Cut 63 rest in
    if negb (HasPrefix rest "/") && (scheme !=? "") then Some (mkURL scheme false "" "")
    else if negb (HasPrefix rest "/") && contains_byte (Z.eqb 58) (Cut 47 rest).1 then None
    else
      '(user, host, path) ←
        (if ((scheme !=? "") || negb (HasPrefix rest "///")) && HasPrefix rest "//" then
           let '(authority, path) := span_until (Z.eqb 47) (tail_of (tail_of rest)) in
           '(user, host) ← parseAuthority authority; Some (user, host, path)
         else Some (false, "", rest));
      if escapes_valid path then Some (mkURL scheme user host path) else None.
Definition url_Parse (rawURL : string) : option URL :=
  let '(u, frag) := Cut 35 rawURL in
  parsed ← url_parse u;
  if escapes_valid frag then Some parsed else None.

(** [Hostname] and [Port] of a host without brackets. *)
Definition splitHostPort (hostPort : string) : string * string :=
  match cut_last 58 hostPort with
  | Some (host, port) => if all_bytes (in_range 48 57) port then (host, port) else (hostPort, "")
  | None => (hostPort, "")
  end.
Definition Hostname (u : URL) : string := (splitHostPort (u_Host u)).1.
Definition Port (u : URL) : string := (splitHostPort (u_Host u)).2.

(** ** Text checks *)

Definition BrowserPolicyOriginMaximumBytes : Z := 2048.
Definition BrowserPolicyPathMaximumBytes : Z := 2048.
Definition BrowserNavigationMaximumCharacters : Z := 8192.
Definition browserLocationMaximumPathBytes : Z := 9 * BrowserNavigationMaximumCharacters.

Definition url_error (reason : string) : error := invalidModelError "browser_url" "" reason "".

Definition invalidBrowserURLText (value : string) : bool :=
  (value ==? "") || negb (ValidString value) || contains_byte (Z.eqb 92) value
  || existsb (λ '(r, _, _), (r <? 32) || (r =? 127)) (runes value).
Definition browserASCII (value : string) : bool := all_bytes (λ c, c <? 128) value.
Definition browserStringLength (value : string) : Z :=
  foldr (λ '(r, _, _) n, n + 1 + (if 65535 <? r then 1 else 0)) 0 (runes value).
Definition fromHex (value : Z) : Z :=
  if in_range 48 57 value then value - 48
  else if in_range 97 102 value then value - 97 + 10
  else if in_range 65 70 value then value - 65 + 10
  else -1.

(** ** Paths *)

Definition browserDotSegment (value : string) : Z :=
  let v := ToLower value in
  if (v ==? ".") || (v ==? "%2e") then 1
  else if (v ==? "..") || (v ==? ".%2e") || (v ==? "%2e.") || (v ==? "%2e%2e") then 2
  else 0.

(** The escape loop: malformed triplets and encoded separators are refused. *)
Fixpoint check_escapes (value : string) : result unit :=
  match value with
  | EmptyString => Ok tt
  | String a rest =>
      if negb (code a =? 37) then check_escapes rest
      else match rest with
           | String h (String l rest) =>
               let high := fromHex (code h) in
               let low := fromHex (code l) in
               fail_if (high <? 0) || (low <? 0) with url_error "malformed percent encoding" ;;
               let decoded := Z.lor (Z.shiftl high 4) low in
               fail_if (decoded =? 47) || (decoded =? 92) with url_error "encoded path separator is forbidden" ;;
               check_escapes rest
           | _ => mthrow (url_error "malformed percent encoding")
           end
  end.

(** The segment loop. *)
Fixpoint remove_dots (selected segments : list string) : list string :=
  match segments with
  | [] => selected
  | segment :: rest =>
      let dot := browserDotSegment segment in
      let selected := if dot =? 2 then removelast selected else selected in
      let selected := if dot =? 0 then selected ++ [segment]
                      else match rest with [] => selected ++ [""] | _ => selected end in
      remove_dots selected rest
  end.

Definition hex_upper (d : Z) : ascii := ascii_of_byte (if d <? 10 then 48 + d else 55 + d).
Definition escaped_byte (c : Z) : bool :=
  (c <=? 32) || (126 <? c) || existsb (Z.eqb c) (34 :: bytes "<>`{}").
Fixpoint encode_path (raw : string) : string :=
  match raw with
  | EmptyString => EmptyString
  | String a rest =>
      if escaped_byte (code a)
      then String "%" (String (hex_upper (Z.shiftr (code a) 4)) (String (hex_upper (Z.land (code a) 15)) (encode_path rest)))
      else String a (encode_path rest)
  end.

Definition canonicalBrowserPath (value : string) : result string :=
  fail_if (value ==? "") || negb (HasPrefix value "/") || invalidBrowserURLText value || ContainsAny value "?#"
    with url_error "invalid browser pathname" ;;
  _ ← check_escapes value;
  Ok (encode_path (String slash (join_slash (remove_dots [] (split_byte slash (tail_of value)))))).

Definition CanonicalizeBrowserPolicyPath (value : string) : result string :=
  fail_if (BrowserPolicyPathMaximumBytes <? len value) || negb (browserASCII value) || (value ==? "")
          || negb (HasPrefix value "/") || HasPrefix value "//" || invalidBrowserURLText value || ContainsAny value "?#"
    with url_error "path prefix must be a bounded ASCII absolute path without query or fragment" ;;
  fail_if match canonicalBrowserPath value with Ok canonical => canonical !=? value | Err _ => true end
    with url_error "path prefix requires forbidden normalization" ;;
  fail_if existsb (λ segment, negb (browserDotSegment segment =? 0)) (split_byte slash value)
    with url_error "path prefix contains a dot segment" ;;
  let value := if value !=? "/" then TrimSuffixByte 47 value else value in
  fail_if (value !=? "/") && HasSuffix value "/" with url_error "path prefix has multiple trailing slashes" ;;
  Ok value.

(** ** Hosts *)

Definition digit_in (radix c : Z) : option Z :=
  let d := fromHex c in if (0 <=? d) && (d <? radix) then Some d else None.
(** [strconv.ParseUint(digits, radix, 32)] *)
Fixpoint parse_uint32 (radix acc : Z) (digits : string) : option Z :=
  match digits with
  | EmptyString => Some acc
  | String a rest =>
      d ← digit_in radix (code a);
      let n := acc * radix + d in
      if n <? 2 ^ 32 then parse_uint32 radix n rest else None
  end.
(** One part of a numeric host. *)
Definition parse_ipv4_part (part : string) : option Z :=
  if part ==? "" then None
  else
    let '(radix, digits) :=
      if (2 <=? len part) && (HasPrefix part "0x" || HasPrefix part "0X") then (16, tail_of (tail_of part))
      else if (2 <=? len part) && HasPrefix part "0" then (8, tail_of part)
      else (10, part) in
    parse_uint32 radix 0 (if digits ==? "" then "0" else digits).

Definition numeric_host_error : error := url_error "numeric host is invalid".

Definition ipv4_string (address : Z) : string :=
  FormatInt (Z.land (Z.shiftr address 24) 255) +:+ "." +:+ FormatInt (Z.land (Z.shiftr address 16) 255) +:+ "."
  +:+ FormatInt (Z.land (Z.shiftr address 8) 255) +:+ "." +:+ FormatInt (Z.land address 255).

Definition canonicalBrowserIPv4 (host : string) : result string :=
  let parts := split_byte "." host in
  let parts := if (1 <? length parts)%nat && (default "" (last parts) ==? "") then removelast parts else parts in
  fail_if (length parts <? 1)%nat || (4 <? length parts)%nat with numeric_host_error ;;
  numbers ← match mapM parse_ipv4_part parts with Some numbers => Ok numbers | None => mthrow numeric_host_error end;
  let init := removelast numbers in
  let final := default 0 (last numbers) in
  fail_if existsb (λ n, 255 <? n) init with numeric_host_error ;;
  fail_if Z.shiftl 1 (8 * (5 - Z.of_nat (length numbers))) <=? final with numeric_host_error ;;
  Ok (ipv4_string (foldl Z.add final (imap (λ i n, Z.shiftl n (8 * (3 - Z.of_nat i))) init))).

Definition browserNumericHost (host : string) : bool :=
  let host := TrimSuffixByte 46 host in
  let final := match cut_last 46 host with Some (_, y) => y | None => host end in
  if final ==? "" then false
  else if HasPrefix final "0x" || HasPrefix final "0X" then all_bytes hex_digit (tail_of (tail_of final))
  else all_bytes (in_range 48 57) final.

Definition host_char (c : Z) : bool := in_range 97 122 c || in_range 48 57 c || (c =? 45).
Definition bad_label (label : string) : bool :=
  (len label <? 1) || (63 <? len label) || HasPrefix label "-" || HasSuffix label "-" || HasPrefix label "xn--".

(** The label loop, which stops at the first fault. *)
Fixpoint check_labels (labels : list string) : result unit :=
  match labels with
  | [] => Ok tt
  | label :: labels =>
      fail_if bad_label label with url_error "host label is unsupported or invalid" ;;
      fail_if negb (all_bytes host_char label) with url_error "host label is invalid" ;;
      check_labels labels
  end.

Definition canonicalBrowserHostPortWithDefault (parsed : URL) (defaultPort : string) : result (string * string) :=
  let host := Hostname parsed in
  fail_if (host ==? "") || (253 <? len host) || negb (browserASCII host) || HasSuffix host "."
          || ContainsAny (u_Host parsed) "[]" || HasSuffix (u_Host parsed) ":"
    with url_error "host is unsupported or invalid" ;;
  let host := ToLower host in
  _ ← check_labels (split_byte "." host);
  host ← (if browserNumericHost host then canonicalBrowserIPv4 host else Ok host);
  let port := Port parsed in
  if port ==? "" then Ok (host, port)
  else
    fail_if match ParseInt port with
            | Some number => (number <? 1) || (65535 <? number) || (FormatInt number !=? port)
            | None => true
            end with url_error "port is invalid" ;;
    Ok (host, if port ==? defaultPort then "" else port).

Definition browserHostPort (host port : string) : string := if port !=? "" then host +:+ ":" +:+ port else host.

Definition canonicalizeBrowserPolicyRuleOrigin (value : string) (httpException : bool) : result string :=
  fail_if (BrowserPolicyOriginMaximumBytes <? len value) || negb (browserASCII value) || invalidBrowserURLText value
    with url_error "origin contains forbidden characters or exceeds its limit" ;;
  let '(scheme, port) := if httpException then ("http", "80") else ("https", "443") in
  match url_Parse value with
  | None => mthrow (url_error "origin does not match its explicit network scheme")
  | Some parsed =>
      fail_if (u_Scheme parsed !=? scheme) || (u_Host parsed ==? "") || u_User parsed || ContainsAny value "?#"
              || ((u_Path parsed !=? "") && (u_Path parsed !=? "/"))
        with url_error "origin does not match its explicit network scheme" ;;
      '(host, port) ← canonicalBrowserHostPortWithDefault parsed port;
      Ok (scheme +:+ "://" +:+ browserHostPort host port)
  end.
Definition CanonicalizeBrowserPolicyOrigin (value : string) : result string :=
  canonicalizeBrowserPolicyRuleOrigin value false.

(** ** Locations *)

Record BrowserLocation := mkBrowserLocation {
  bl_Scheme : string;
  bl_Host : string;
  bl_Port : string;
  bl_Path : string }.
#[export] Instance BrowserLocation_eq_dec : EqDecision BrowserLocation.
Proof. solve_decision. Defined.

(** The original pathname, after the first [://] up to a query or fragment. *)
Fixpoint after_scheme (s : string) : string :=
  match s with
  | EmptyString => EmptyString
  | String _ s' => if HasPrefix s "://" then tail_of (tail_of s') else after_scheme s'
  end.
Definition raw_path (value : string) : string :=
  let stop c := (c =? 63) || (c =? 35) in
  let '(_, rest) := span_until (λ c, (c =? 47) || stop c) (after_scheme value) in
  if HasPrefix rest "/" then (span_until stop rest).1 else "/".

Definition CanonicalizeBrowserLocation (value : string) : result BrowserLocation :=
  fail_if invalidBrowserURLText value || (BrowserNavigationMaximumCharacters <? browserStringLength value)
    with url_error "URL contains forbidden characters or exceeds its limit" ;;
  match url_Parse value with
  | None => mthrow (url_error "URL must be absolute HTTP or HTTPS")
  | Some parsed =>
      fail_if ((u_Scheme parsed !=? "https") && (u_Scheme parsed !=? "http")) || (u_Host parsed ==? "") || u_User parsed
        with url_error "URL must be absolute HTTP or HTTPS" ;;
      let defaultPort := if u_Scheme parsed ==? "http" then "80" else "443" in
      '(host, port) ← canonicalBrowserHostPortWithDefault parsed defaultPort;
      urlPath ← canonicalBrowserPath (raw_path value);
      Ok (mkBrowserLocation (u_Scheme parsed) host port urlPath)
  end.

Definition location_error (reason : string) : error := invalidModelError "browser_location" "" reason "".
Definition validateNetwork (l : BrowserLocation) (scheme defaultPort : string) : result unit :=
  fail_if (bl_Scheme l !=? scheme) || (bl_Host l ==? "") || (ToLower (bl_Host l) !=? bl_Host l)
          || contains_byte (Z.eqb 92) (bl_Host l) || ContainsAny (bl_Host l) "/?#@"
          || (browserLocationMaximumPathBytes <? len (bl_Path l))
    with location_error "invalid minimized Browser Activity location" ;;
  match url_Parse (scheme +:+ "://" +:+ browserHostPort (bl_Host l) (bl_Port l)) with
  | None => mthrow (location_error "invalid minimized Browser Activity authority")
  | Some parsed =>
      fail_if match canonicalBrowserHostPortWithDefault parsed defaultPort with
              | Ok (host, port) => (host !=? bl_Host l) || (port !=? bl_Port l)
              | Err _ => true
              end with location_error "non-canonical Browser Activity authority" ;;
      fail_if match canonicalBrowserPath (bl_Path l) with
              | Ok canonicalPath => canonicalPath !=? bl_Path l
              | Err _ => true
              end with location_error "non-canonical Browser Activity path" ;;
      Ok tt
  end.
Definition BrowserLocation_Validate (l : BrowserLocation) : result unit :=
  if bl_Scheme l ==? "http" then validateNetwork l "http" "80" else validateNetwork l "https" "443".

(** ** Canonical paths *)

Lemma string_app_cons a s t : String a s +:+ t = String a (s +:+ t).
Proof. done. Qed.

(** Induction on strings that may consume three bytes at a time. *)
Lemma string_length_ind (P : string → Prop) :
  (∀ s, (∀ t, (String.length t < String.length s)%nat → P t) → P s) → ∀ s, P s.
Proof.
  intros H s. remember (String.length s) as n eqn:E. revert s E.
  induction n as [n IH] using lt_wf_ind. intros s ->. apply H. intros t Ht. by eapply IH.
Qed.

Lemma encode_path_app s t : encode_path (s +:+ t) = encode_path s +:+ encode_path t.
Proof. induction s as [|a s IH]; [done|]. rewrite string_app_cons. cbn. rewrite IH. by destruct (escaped_byte _). Qed.
Lemma encode_path_join segs : encode_path (join_slash segs) = join_slash (map encode_path segs).
Proof.
  induction segs as [|w ws IH]; [done|]. destruct ws as [|w' ws]; [done|]. rewrite join_cons by done.
  cbn [map] in *. rewrite (join_cons (encode_path w)) by done. rewrite encode_path_app. cbn [encode_path]. by rewrite IH.
Qed.

(** A byte the encoding writes as it is. *)
Definition plain (c : Z) : bool := negb (escaped_byte c).
Lemma encode_path_plain s : forallb plain (bytes (encode_path s)) = true.
Proof.
  induction s as [|a s IH]; [done|]. cbn [encode_path]. destruct (escaped_byte (code a)) eqn:E; cbn [bytes forallb].
  - rewrite IH, andb_true_r. clear E IH. destruct a as [[] [] [] [] [] [] [] []]; vm_compute; reflexivity.
  - rewrite IH, andb_true_r. unfold plain, code in *. by rewrite E.
Qed.
Lemma plain_encode_path s : forallb plain (bytes s) = true → encode_path s = s.
Proof.
  induction s as [|a s IH]; [done|]. cbn [bytes forallb encode_path]. intros [Ha Hs]%andb_true_iff.
  unfold plain in Ha. apply negb_true_iff in Ha. unfold code. by rewrite Ha, IH.
Qed.

(** The bytes of an encoding: those of the text, a percent sign, or hexadecimal digits. *)
Lemma encode_path_bytes s b :
  b ∈ bytes (encode_path s) → b ∈ bytes s ∨ b = 37 ∨ hex_digit b = true.
Proof.
  induction s as [|a s IH]; [set_solver|]. cbn [encode_path bytes].
  destruct (escaped_byte (code a)); cbn [bytes]; rewrite !elem_of_cons.
  - intros [->|[->|[->|Hb]]]; [by right; left|right; right..|].
    + clear. destruct a as [[] [] [] [] [] [] [] []]; vm_compute; reflexivity.
    + clear. destruct a as [[] [] [] [] [] [] [] []]; vm_compute; reflexivity.
    + destruct (IH Hb) as [?|?]; [left; by right|by right].
  - intros [->|Hb]; [by left; left|]. destruct (IH Hb) as [?|?]; [left; by right|by right].
Qed.
Lemma encode_path_avoids c s : c ≠ 37 → hex_digit c = false → c ∉ bytes s → c ∉ bytes (encode_path s).
Proof. intros H1 H2 H3 [?|[?|Hh]]%encode_path_bytes; [done..|]. by rewrite Hh in H2. Qed.

(** *** Escapes *)

Lemma check_escapes_cons a s : code a ≠ 37 → check_escapes (String a s) = check_escapes s.
Proof. intros H. cbn. by rewrite (proj2 (Z.eqb_neq _ _) H). Qed.

(** What a triplet decodes to, when it is acceptable. *)
Definition triplet (h l : ascii) : Prop :=
  0 ≤ fromHex (code h) ∧ 0 ≤ fromHex (code l) ∧
  Z.lor (Z.shiftl (fromHex (code h)) 4) (fromHex (code l)) ≠ 47 ∧
  Z.lor (Z.shiftl (fromHex (code h)) 4) (fromHex (code l)) ≠ 92.
Lemma check_escapes_triplet s :
  check_escapes (String "%" s) = Ok tt ↔
  ∃ h l rest, s = String h (String l rest) ∧ triplet h l ∧ check_escapes rest = Ok tt.
Proof.
  cbn [check_escapes]. change (negb (code "%" =? 37)) with false. cbn iota.
  destruct s as [|h [|l rest]]; [split; [done|by intros (?&?&?&?&_)]..|]. cbv zeta.
  rewrite !ok_fail_if. unfold triplet. to_prop. split.
  - intros (H1 & H2 & H3). exists h, l, rest. intuition lia.
  - intros (h' & l' & rest' & [= <- <- <-] & (H1 & H2 & H3 & H4) & H5). intuition lia.
Qed.

Lemma code_percent a : code a = 37 → a = "%"%char.
Proof. apply (byte_of_ascii_inj a "%"). Qed.

Lemma check_escapes_app w s :
  check_escapes (w +:+ String slash s) = Ok tt ↔ check_escapes w = Ok tt ∧ check_escapes s = Ok tt.
Proof.
  revert w. apply string_length_ind. intros w IH. destruct w as [|a w].
  { change ("" +:+ String slash s) with (String slash s). rewrite check_escapes_cons by done. cbn. tauto. }
  rewrite string_app_cons. destruct (decide (code a = 37)) as [->%code_percent|Ha].
  - rewrite !check_escapes_triplet. destruct w as [|h [|l rest]].
    + split; [|by intros ((?&?&?&?&_)&_)]. intros (h & l & rest & Heq & (Hh & _) & _).
      change ("" +:+ String slash s) with (String slash s) in Heq. injection Heq as <- _. by vm_compute in Hh.
    + split; [|by intros ((?&?&?&?&_)&_)]. intros (h' & l & rest & Heq & (_ & Hl & _) & _).
      change (String h "" +:+ String slash s) with (String h (String slash s)) in Heq. injection Heq as <- <- _.
      by vm_compute in Hl.
    + rewrite !string_app_cons. split.
      * intros (h' & l' & rest' & [= <- <- <-] & Ht & Hc). apply IH in Hc as [H1 H2]; [|cbn; lia]. eauto 8.
      * intros ((h' & l' & rest' & [= <- <- <-] & Ht & Hc) & Hs). exists h, l, (rest +:+ String slash s).
        split_and!; [done..|]. apply IH; [cbn; lia|done].
  - rewrite !check_escapes_cons by done. apply IH. cbn. lia.
Qed.

Lemma check_escapes_join segs :
  check_escapes (join_slash segs) = Ok tt ↔ Forall (λ w, check_escapes w = Ok tt) segs.
Proof.
  induction segs as [|w ws IH]; [by split|]. destruct ws as [|w' ws].
  { change (join_slash [w]) with w. rewrite Forall_singleton. done. }
  rewrite join_cons by done. rewrite check_escapes_app, IH, (Forall_cons _ w). tauto.
Qed.

Lemma triplet_encoded a : escaped_byte (code a) = true →
  triplet (hex_upper (Z.shiftr (code a) 4)) (hex_upper (Z.land (code a) 15)).
Proof.
  destruct a as [[] [] [] [] [] [] [] []]; vm_compute; intros E;
    first [discriminate E|repeat split; intros X; discriminate X].
Qed.
Lemma triplet_plain h l : triplet h l → escaped_byte (code h) = false ∧ escaped_byte (code l) = false.
Proof.
  assert (H : ∀ a, 0 ≤ fromHex (code a) → escaped_byte (code a) = false).
  { intros a. destruct a as [[] [] [] [] [] [] [] []]; vm_compute; intros; congruence. }
  intros (Hh & Hl & _). auto.
Qed.

Lemma check_escapes_encode w : check_escapes w = Ok tt → check_escapes (encode_path w) = Ok tt.
Proof.
  revert w. apply (string_length_ind (λ w, check_escapes w = Ok tt → check_escapes (encode_path w) = Ok tt)).
  intros [|a w] IH; [done|]. destruct (decide (code a = 37)) as [->%code_percent|Ha].
  - intros (h & l & rest & -> & Ht & Hc)%check_escapes_triplet. destruct (triplet_plain h l Ht) as [Eh El].
    cbn [encode_path]. rewrite Eh, El. change (escaped_byte (code "%")) with false. cbn iota.
    apply check_escapes_triplet. do 3 eexists. split_and!; [done..|]. apply IH; [cbn; lia|done].
  - rewrite check_escapes_cons by done. intros Hc. cbn [encode_path].
    destruct (escaped_byte (code a)) eqn:Ea.
    + apply check_escapes_triplet. do 3 eexists. split_and!; [done|by apply triplet_encoded|]. apply IH; [cbn; lia|done].
    + rewrite check_escapes_cons by done. apply IH; [cbn; lia|done].
Qed.

(** *** Dot segments *)

(** Every percent sign of a lower-case text opens an encoded dot. *)
Fixpoint dot_escapes (f : string) : bool :=
  match f with
  | EmptyString => true
  | String a s => (if code a =? 37 then HasPrefix s "2e" else true) && dot_escapes s
  end.

Lemma encode_path_reflects_dots w f : ToLower (encode_path w) = f → dot_escapes f = true → ToLower w = f.
Proof.
  revert f. induction w as [|a w IH]; intros f <-; [done|]. cbn [encode_path].
  destruct (escaped_byte (code a)) eqn:Ea; cbn [ToLower dot_escapes].
  - intros [H _]%andb_true_iff. exfalso. revert H Ea. clear.
    destruct a as [[] [] [] [] [] [] [] []]; vm_compute; congruence.
  - intros [_ H]%andb_true_iff. f_equal. by apply IH.
Qed.

Lemma encode_path_dotless w : browserDotSegment w = 0 → browserDotSegment (encode_path w) = 0.
Proof.
  intros Hw. unfold browserDotSegment in Hw |- *.
  assert (Hf : ∀ f, dot_escapes f = true → bool_decide (ToLower w = f) = false → bool_decide (ToLower (encode_path w) = f) = false).
  { intros f Hf Hne. apply bool_decide_eq_false_2. intros Heq. apply bool_decide_eq_false in Hne. apply Hne.
    by apply encode_path_reflects_dots. }
  destruct ((ToLower w ==? ".") || _) eqn:E1; [done|]. destruct (_ || (ToLower w ==? "%2e%2e")) eqn:E2; [done|].
  apply orb_false_iff in E1 as [? ?]. rewrite !orb_false_iff in E2. destruct E2 as [[[? ?] ?] ?].
  by rewrite !Hf by done.
Qed.

Lemma Forall_removelast {A} (P : A → Prop) l : Forall P l → Forall P (removelast l).
Proof. induction 1 as [|x l Hx Hl IH]; [done|]. cbn. destruct l; [done|]. by constructor. Qed.

(** The loop keeps non-dot segments of the text and may end with an empty one. *)
Lemma remove_dots_Forall (P : string → Prop) selected segments :
  P "" → Forall P selected → Forall (λ w, browserDotSegment w = 0 → P w) segments → Forall P (remove_dots selected segments).
Proof.
  intros H0. revert selected. induction segments as [|w ws IH]; intros selected Hs Hw; [done|].
  apply Forall_cons in Hw as [Hw Hws]. cbn [remove_dots]. cbv zeta. apply IH; [|done].
  assert (Hs' : Forall P (if browserDotSegment w =? 2 then removelast selected else selected))
    by (destruct (_ =? 2); [by apply Forall_removelast|done]).
  destruct (browserDotSegment w =? 0) eqn:E; [apply Forall_app; split; [done|]|].
  - constructor; [|done]. apply Hw. by apply Z.eqb_eq.
  - destruct ws; [apply Forall_app; split; [done|by constructor]|done].
Qed.
Lemma remove_dots_plain selected segments :
  Forall (λ w, browserDotSegment w = 0) segments → remove_dots selected segments = selected ++ segments.
Proof.
  intros H. revert selected. induction H as [|w ws Hw Hws IH]; intros selected; cbn [remove_dots]; [by rewrite app_nil_r|].
  rewrite Hw. cbn. by rewrite IH, <-app_assoc.
Qed.
Lemma remove_dots_nonempty selected segments : segments ≠ [] → remove_dots selected segments ≠ [].
Proof.
  revert selected. induction segments as [|w ws IH]; intros selected; [done|]. intros _. cbn [remove_dots]. cbv zeta.
  destruct ws as [|w' ws]; [|by apply IH]. cbn [remove_dots].
  destruct (_ =? 0); destruct (_ =? 2); cbn; by intros [_ ?]%app_eq_nil.
Qed.

(** *** Text *)

Lemma runes_ascii s : forallb (λ c, c <? 128) (bytes s) = true → runes s = map (λ c, (c, 1%nat, c)) (bytes s).
Proof.
  unfold runes. induction (bytes s) as [|c p IH]; [done|]. cbn [forallb]. intros [Hc Hp]%andb_true_iff.
  cbn [range_runes map DecodeRune]. rewrite Hc. cbn [pred]. by rewrite IH.
Qed.

Lemma plain_range c : plain c = true → 33 ≤ c ≤ 126.
Proof. unfold plain, escaped_byte. to_prop. intros [[? ?] _]. lia. Qed.

Lemma contains_byte_spec p s : contains_byte p s = true ↔ ∃ c, c ∈ bytes s ∧ p c = true.
Proof.
  induction s as [|a s IH]; cbn [contains_byte bytes]; [split; [done|set_solver]|].
  rewrite orb_true_iff, IH. unfold code. set_solver.
Qed.
Lemma contains_byte_false p s : contains_byte p s = false ↔ ∀ c, c ∈ bytes s → p c = false.
Proof.
  rewrite <-not_true_iff_false, contains_byte_spec. split.
  - intros H c Hc. apply not_true_iff_false. intros Hp. apply H. eauto.
  - intros H (c & Hc & Hp). by rewrite (H c Hc) in Hp.
Qed.

Lemma plain_text_valid s :
  s ≠ "" → forallb plain (bytes s) = true → 92 ∉ bytes s → invalidBrowserURLText s = false.
Proof.
  intros Hne Hp Hb. assert (Hall : ∀ c, c ∈ bytes s → 33 ≤ c ≤ 126).
  { intros c Hc. apply plain_range. rewrite forallb_forall in Hp. by apply Hp, list_elem_of_In. }
  assert (Hr : runes s = map (λ c, (c, 1%nat, c)) (bytes s)).
  { apply runes_ascii, forallb_forall. intros c Hc%list_elem_of_In. apply Hall in Hc. lia. }
  unfold invalidBrowserURLText, ValidString. rewrite Hr, bool_decide_eq_false_2 by done. cbn [orb].
  rewrite !orb_false_iff. split_and!.
  - apply negb_false_iff, forallb_forall. intros [[r w] c] (c' & [= <- <- <-] & Hc%list_elem_of_In)%in_map_iff.
    apply Hall in Hc. unfold RuneError. rewrite (proj2 (Z.eqb_neq c' 65533)) by lia. done.
  - apply contains_byte_false. intros c Hc. apply Z.eqb_neq. by intros <-.
  - apply not_true_iff_false. rewrite existsb_exists.
    intros ([[r w] c] & (c' & [= <- <- <-] & Hc%list_elem_of_In)%in_map_iff & Hbad). apply Hall in Hc. to_prop. lia.
Qed.

Lemma ContainsAny_false s chars : ContainsAny s chars = false ↔ ∀ c, c ∈ bytes chars → c ∉ bytes s.
Proof.
  unfold ContainsAny. rewrite contains_byte_false. split.
  - intros H c Hc Hs. specialize (H c Hs). rewrite <-not_true_iff_false, existsb_exists in H. apply H.
    exists c. split; [by apply list_elem_of_In|apply Z.eqb_refl].
  - intros H c Hc. apply not_true_iff_false. rewrite existsb_exists. intros (c' & Hc' & <-%Z.eqb_eq).
    by apply (H c); [apply list_elem_of_In|].
Qed.

(** *** The canonical form *)

Record canonical_segment (w : string) : Prop := {
  cs_slash : byte_of_ascii slash ∉ bytes w;
  cs_dot : browserDotSegment w = 0;
  cs_escapes : check_escapes w = Ok tt;
  cs_plain : forallb plain (bytes w) = true;
  cs_text : 92 ∉ bytes w ∧ 63 ∉ bytes w ∧ 35 ∉ bytes w }.
Definition canonical_path (segs : list string) (path : string) : Prop :=
  segs ≠ [] ∧ Forall canonical_segment segs ∧ path = String slash (join_slash segs).

Lemma split_bytes c s w b : w ∈ split_byte c s → b ∈ bytes w → b ∈ bytes s.
Proof.
  revert w. induction s as [|a s IH]; intros w; cbn [split_byte bytes].
  { rewrite list_elem_of_singleton. by intros ->. }
  destruct (Ascii.eqb a c); [rewrite elem_of_cons; intros [->|Hw] Hb; [set_solver|]; right; by eapply IH|].
  destruct (split_byte c s) as [|w0 ws] eqn:E; [rewrite list_elem_of_singleton; intros ->; set_solver|].
  rewrite !elem_of_cons. intros [->|Hw] Hb.
  - cbn in Hb. apply elem_of_cons in Hb as [->|Hb]; [by left|right]. eapply IH; [by left|done].
  - right. eapply IH; [by right|done].
Qed.

Lemma HasPrefix_slash value : HasPrefix value "/" = true → value = String slash (tail_of value).
Proof.
  unfold HasPrefix. intros H. destruct value as [|a v]; [done|]. cbn [tail_of]. f_equal.
  destruct a as [[] [] [] [] [] [] [] []]; cbn in H; first [congruence|reflexivity].
Qed.

Lemma canonicalBrowserPath_form value path :
  canonicalBrowserPath value = Ok path → ∃ segs, canonical_path segs path.
Proof.
  unfold canonicalBrowserPath. rewrite ok_fail_if, ok_bind. intros (Hg & [] & Hc & [= <-]%ok_inj).
  rewrite !orb_false_iff, negb_false_iff in Hg. destruct Hg as [[[_ Hslash] Htext] Hany].
  apply HasPrefix_slash in Hslash. set (v := tail_of value) in *. rewrite Hslash in Hc, Htext, Hany.
  rewrite check_escapes_cons in Hc by done. rewrite <-(join_split v) in Hc. apply check_escapes_join in Hc.
  assert (Hbytes : ∀ b, b ∈ [92; 63; 35] → b ∉ bytes v).
  { intros b Hb Hin. unfold invalidBrowserURLText in Htext. rewrite !orb_false_iff in Htext.
    destruct Htext as [[_ Hback] _]. rewrite contains_byte_false in Hback. rewrite ContainsAny_false in Hany.
    rewrite !elem_of_cons in Hb. destruct Hb as [->|[->|[->|[]%elem_of_nil]]].
    - by specialize (Hback 92 (list_elem_of_further _ _ _ Hin)).
    - apply (Hany 63); [set_solver|by right].
    - apply (Hany 35); [set_solver|by right]. }
  set (sel := remove_dots [] (split_byte slash v)).
  assert (Hsel : Forall (λ w, byte_of_ascii slash ∉ bytes w ∧ browserDotSegment w = 0 ∧ check_escapes w = Ok tt ∧
    ∀ b, b ∈ [92; 63; 35] → b ∉ bytes w) sel).
  { apply remove_dots_Forall; [split_and!; [set_solver|done|done|set_solver]|done|].
    pose proof (split_no_sep slash v) as Hsep. rewrite Forall_forall in *. intros w Hw Hd. split_and!; eauto.
    intros b Hb Hin. eapply (Hbytes b Hb), split_bytes; eauto. }
  exists (map encode_path sel). split_and!.
  - assert (sel ≠ []) by apply remove_dots_nonempty, split_nonempty. by destruct sel.
  - apply Forall_fmap. eapply Forall_impl; [exact Hsel|]. intros w (H1 & H2 & H3 & H4). split.
    + by apply encode_path_avoids.
    + by apply encode_path_dotless.
    + by apply check_escapes_encode.
    + apply encode_path_plain.
    + split_and!; apply encode_path_avoids; try done; apply H4; set_solver.
  - cbn [encode_path]. change (escaped_byte (code slash)) with false. cbn iota. by rewrite encode_path_join.
Qed.

Lemma canonical_path_bytes segs path b :
  canonical_path segs path → b ∈ bytes path → plain b = true ∧ b ≠ 92 ∧ b ≠ 63 ∧ b ≠ 35.
Proof.
  intros (_ & Hs & ->). cbn [bytes]. rewrite elem_of_cons. intros [->|[->|He]%join_bytes]; [done..|].
  rewrite Exists_exists in He. destruct He as (w & Hw & Hb). rewrite Forall_forall in Hs.
  destruct (Hs w Hw) as [_ _ _ Hp (H1 & H2 & H3)]. rewrite forallb_forall in Hp.
  split; [by apply Hp, list_elem_of_In|]. split_and!; congruence.
Qed.

Lemma canonical_path_fixed segs path : canonical_path segs path → canonicalBrowserPath path = Ok path.
Proof.
  intros Hp. pose proof (canonical_path_bytes segs path) as Hb. pose proof Hp as (Hne & Hs & Heq).
  assert (Hplain : forallb plain (bytes path) = true).
  { apply forallb_forall. intros b Hin%list_elem_of_In. by apply Hb. }
  assert (Hcheck : check_escapes path = Ok tt).
  { rewrite Heq, check_escapes_cons by done. apply check_escapes_join.
    eapply Forall_impl; [exact Hs|]. intros w Hw. apply Hw. }
  unfold canonicalBrowserPath. rewrite ok_fail_if. split.
  - rewrite (plain_text_valid path); [|by rewrite Heq|done|intros Hin; by destruct (Hb 92 Hp Hin) as (_ & ? & _)].
    rewrite (proj2 (ContainsAny_false path "?#")).
    + rewrite Heq, bool_decide_eq_false_2 by done. by destruct (join_slash segs).
    + intros c Hc Hin. destruct (Hb c Hp Hin) as (_ & _ & H1 & H2). change (bytes "?#") with [63; 35] in Hc. set_solver.
  - rewrite Hcheck. cbn [mbind result_bind]. f_equal. rewrite <-(plain_encode_path path Hplain) at 2. f_equal.
    rewrite Heq at 2. f_equal. f_equal. rewrite Heq. cbn [tail_of]. rewrite split_join; [|done|].
    + rewrite remove_dots_plain; [done|]. eapply Forall_impl; [exact Hs|]. intros w Hw. apply Hw.
    + eapply Forall_impl; [exact Hs|]. intros w Hw. apply Hw.
Qed.

(** A canonical browser path is a fixed point and can be read segment by segment: it
    is absolute and printable, no segment of it is a dot segment in any spelling, and no
    escape of it is malformed or hides a separator. *)
Theorem browser_path_canonical (value path : string) :
  canonicalBrowserPath value = Ok path →
  canonicalBrowserPath path = Ok path ∧
  (∃ segments, path = String slash (join_slash segments) ∧ split_byte slash path = "" :: segments ∧
     Forall (λ w, browserDotSegment w = 0 ∧ check_escapes w = Ok tt ∧ forallb plain (bytes w) = true) segments).
Proof.
  intros (segs & Hp)%canonicalBrowserPath_form. split; [by eapply canonical_path_fixed|].
  destruct Hp as (Hne & Hs & ->). exists segs. split_and!; [done| |].
  - change (String slash (join_slash segs)) with ("" +:+ String slash (join_slash segs)).
    rewrite split_app_slash by set_solver. f_equal. apply split_join; [done|].
    eapply Forall_impl; [exact Hs|]. intros w Hw. apply Hw.
  - eapply Forall_impl; [exact Hs|]. intros w Hw. split_and!; apply Hw.
Qed.

Lemma browser_path_canonical_witness :
  canonicalBrowserPath "/a/../b//%2e/c%20d/é" = Ok "/b//c%20d/%C3%A9" ∧
  canonicalBrowserPath "/b//c%20d/%C3%A9" = Ok "/b//c%20d/%C3%A9".
Proof.
  assert (H : canonicalBrowserPath "/a/../b//%2e/c%20d/é" = Ok "/b//c%20d/%C3%A9") by (vm_compute; reflexivity).
  exact (conj H (proj1 (browser_path_canonical _ _ H))).
Defined.

(** ** Canonical hosts *)

(** *** Cutting *)

Lemma span_until_none p s : (∀ c, c ∈ bytes s → p c = false) → span_until p s = (s, "").
Proof.
  induction s as [|a s IH]; [done|]. intros H. cbn. unfold code. rewrite H by apply list_elem_of_here.
  rewrite IH; [done|]. intros c Hc. apply H. by right.
Qed.
Lemma Cut_none c s : c ∉ bytes s → Cut c s = (s, "").
Proof. intros H. unfold Cut. rewrite span_until_none; [done|]. intros b Hb. apply Z.eqb_neq. by intros ->. Qed.
Lemma cut_last_none c s : c ∉ bytes s → cut_last c s = None.
Proof.
  induction s as [|a s IH]; [done|]. cbn [bytes cut_last]. intros [Hne Hs]%not_elem_of_cons. rewrite IH by done.
  unfold code. by rewrite (proj2 (Z.eqb_neq _ _) Hne).
Qed.
Lemma cut_last_app c a x y : code a = c → c ∉ bytes y → cut_last c (x +:+ String a y) = Some (x, y).
Proof.
  intros Ha Hy. induction x as [|b x IH].
  - change ("" +:+ String a y) with (String a y). cbn [cut_last]. by rewrite cut_last_none, Ha, Z.eqb_refl by done.
  - rewrite string_app_cons. cbn [cut_last]. by rewrite IH.
Qed.
Lemma HasSuffix_spec s t : HasSuffix s t = true ↔ ∃ p, s = p +:+ t.
Proof.
  split.
  - induction s as [|a s IH]; cbn [HasSuffix]; rewrite orb_true_iff, bool_decide_eq_true.
    + intros [<-|[=]]. by exists "".
    + intros [<-|H]; [by exists ""|]. destruct (IH H) as [p ->]. by exists (String a p).
  - intros [p ->]. induction p as [|a p IH].
    + change ("" +:+ t) with t. destruct t; cbn [HasSuffix]; by rewrite bool_decide_eq_true_2.
    + rewrite string_app_cons. cbn [HasSuffix]. by rewrite IH, orb_true_r.
Qed.

Lemma split_app_sep (c : ascii) w s :
  byte_of_ascii c ∉ bytes w → split_byte c (w +:+ String c s) = w :: split_byte c s.
Proof.
  induction w as [|a w IH]; intros H.
  - change ("" +:+ String c s) with (String c s). cbn. by rewrite Ascii.eqb_refl.
  - cbn [bytes] in H. rewrite string_app_cons. cbn [split_byte].
    destruct (Ascii.eqb a c) eqn:E; [apply Ascii.eqb_eq in E; set_solver|]. by rewrite IH by set_solver.
Qed.
Lemma split_one (c : ascii) w : byte_of_ascii c ∉ bytes w → split_byte c w = [w].
Proof.
  induction w as [|a w IH]; intros H; [done|]. cbn [bytes] in H. cbn [split_byte].
  destruct (Ascii.eqb a c) eqn:E; [apply Ascii.eqb_eq in E; set_solver|]. by rewrite IH by set_solver.
Qed.
Lemma split_trailing (c : ascii) p : ∃ l, l ≠ [] ∧ split_byte c (p +:+ String c "") = l ++ [""].
Proof.
  induction p as [|a p (l & Hl & IH)].
  - exists [""]. split; [done|]. change ("" +:+ String c "") with (String c ""). cbn. by rewrite Ascii.eqb_refl.
  - rewrite string_app_cons. cbn [split_byte]. rewrite IH. destruct (Ascii.eqb a c); [by exists ("" :: l)|].
    destruct l as [|w l]; [done|]. by exists (String a w :: l).
Qed.

Lemma all_bytes_spec p s : all_bytes p s = true ↔ ∀ c, c ∈ bytes s → p c = true.
Proof.
  unfold all_bytes. rewrite negb_true_iff, contains_byte_false. by setoid_rewrite negb_false_iff.
Qed.

(** *** Labels and octets *)

Lemma check_labels_ok labels :
  check_labels labels = Ok tt ↔ Forall (λ w, bad_label w = false ∧ all_bytes host_char w = true) labels.
Proof.
  induction labels as [|w ws IH]; [by split|]. cbn [check_labels]. rewrite !ok_fail_if, IH, Forall_cons, negb_false_iff. tauto.
Qed.

(** A host written in its canonical spelling. *)
Record canonical_host (host : string) : Prop := {
  ch_labels : check_labels (split_byte "." host) = Ok tt;
  ch_len : len host ≤ 253;
  ch_numeric : browserNumericHost host = true → canonicalBrowserIPv4 host = Ok host }.

Lemma join_bytes_split (c : ascii) s b : b ∈ bytes s → b = byte_of_ascii c ∨ ∃ w, w ∈ split_byte c s ∧ b ∈ bytes w.
Proof.
  induction s as [|a s IH]; [set_solver|]. cbn [bytes split_byte]. rewrite elem_of_cons.
  destruct (Ascii.eqb a c) eqn:E.
  - apply Ascii.eqb_eq in E as ->. intros [->|Hb]; [by left|]. destruct (IH Hb) as [->|(w & Hw & Hb')]; [by left|].
    right. exists w. split; [by right|done].
  - destruct (split_byte c s) as [|w0 ws]; intros [->|Hb].
    + right. exists (String a ""). split; [by left|by left].
    + destruct (IH Hb) as [->|(w & Hw%elem_of_nil & _)]; [by left|done].
    + right. exists (String a w0). split; [by left|by left].
    + destruct (IH Hb) as [->|(w & [->|Hw]%elem_of_cons & Hb')]; [by left|right..].
      * exists (String a w0). split; [by left|by right].
      * exists w. split; [by right|done].
Qed.

Lemma canonical_host_bytes host b : canonical_host host → b ∈ bytes host → host_char b = true ∨ b = 46.
Proof.
  intros H Hin. destruct (join_bytes_split "." _ _ Hin) as [->|(w & Hw & Hb)]; [by right|left].
  pose proof (proj1 (check_labels_ok _) (ch_labels host H)) as Hl. rewrite Forall_forall in Hl.
  destruct (Hl w Hw) as [_ Hc]. rewrite all_bytes_spec in Hc. by apply Hc.
Qed.
Lemma host_byte_range b : host_char b = true ∨ b = 46 → 45 ≤ b ≤ 122 ∧ (b < 65 ∨ 90 < b) ∧ b ≠ 47 ∧ (b ≤ 57 ∨ 97 ≤ b).
Proof. unfold host_char, in_range. intros [H| ->]; [to_prop|]; lia. Qed.

Lemma canonical_host_nonempty host : canonical_host host → host ≠ "".
Proof. intros H ->. pose proof (ch_labels _ H) as Hl. cbn in Hl. done. Qed.
Lemma canonical_host_suffix host : canonical_host host → HasSuffix host "." = false.
Proof.
  intros H. apply not_true_iff_false. intros [p ->]%HasSuffix_spec. destruct (split_trailing "." p) as (l & _ & Hs).
  pose proof (proj1 (check_labels_ok _) (ch_labels _ H)) as Hl. rewrite Hs in Hl.
  apply Forall_app in Hl as [_ Hl]. apply Forall_singleton in Hl as [Hl _]. done.
Qed.

Lemma ToLower_bytes s : (∀ b, b ∈ bytes s → b < 65 ∨ 90 < b) → ToLower s = s.
Proof.
  induction s as [|a s IH]; [done|]. intros H. cbn. rewrite IH by (intros b Hb; apply H; by right). f_equal.
  unfold lower_ascii, in_range. specialize (H (byte_of_ascii a) (list_elem_of_here _ _)).
  destruct (_ && _) eqn:E; [|done]. to_prop. lia.
Qed.

Lemma octet_facts n : 0 ≤ n < 256 →
  parse_ipv4_part (FormatInt n) = Some n ∧ bad_label (FormatInt n) = false ∧
  all_bytes (in_range 48 57) (FormatInt n) = true ∧ (len (FormatInt n) ≤ 3 ∧ FormatInt n ≠ "").
Proof.
  intros Hn.
  assert (H : forallb (λ n, bool_decide (parse_ipv4_part (FormatInt n) = Some n ∧ bad_label (FormatInt n) = false ∧
    all_bytes (in_range 48 57) (FormatInt n) = true ∧ (len (FormatInt n) ≤ 3 ∧ FormatInt n ≠ ""))) (seqZ 0 256) = true)
    by (vm_compute; reflexivity).
  rewrite forallb_forall in H. specialize (H n). rewrite bool_decide_eq_true in H. apply H, list_elem_of_In, elem_of_seqZ. lia.
Qed.

Definition dotted (a b c d : Z) : string :=
  FormatInt a +:+ "." +:+ FormatInt b +:+ "." +:+ FormatInt c +:+ "." +:+ FormatInt d.
Definition octet (n : Z) : Prop := 0 ≤ n < 256.

Lemma octet_no_dot n : octet n → byte_of_ascii "." ∉ bytes (FormatInt n).
Proof.
  intros Hn. destruct (octet_facts n Hn) as (_ & _ & Hd & _). rewrite all_bytes_spec in Hd.
  intros Hin%Hd. by vm_compute in Hin.
Qed.
Lemma split_dot w s : byte_of_ascii "." ∉ bytes w → split_byte "." (w +:+ "." +:+ s) = w :: split_byte "." s.
Proof. apply split_app_sep. Qed.
Lemma split_dotted a b c d : octet a → octet b → octet c → octet d →
  split_byte "." (dotted a b c d) = [FormatInt a; FormatInt b; FormatInt c; FormatInt d].
Proof.
  intros Ha Hb Hc Hd. unfold dotted.
  rewrite (split_dot (FormatInt a)), (split_dot (FormatInt b)), (split_dot (FormatInt c)) by (by apply octet_no_dot).
  by rewrite split_one by (by apply octet_no_dot).
Qed.
Lemma ipv4_string_dotted x : ∃ a b c d, ipv4_string x = dotted a b c d ∧ octet a ∧ octet b ∧ octet c ∧ octet d.
Proof.
  assert (H : ∀ y, octet (Z.land y 255)).
  { intros y. change 255 with (Z.ones 8). rewrite Z.land_ones by lia. apply Z.mod_pos_bound. lia. }
  do 4 eexists. split; [reflexivity|]. split_and!; apply H.
Qed.

Lemma ipv4_string_octets a b c d : octet a → octet b → octet c → octet d →
  ipv4_string (d + a * 16777216 + b * 65536 + c * 256) = dotted a b c d.
Proof.
  unfold octet. intros Ha Hb Hc Hd. unfold ipv4_string.
  assert (H : ∀ x k n, 0 ≤ k → x / 2 ^ k mod 256 = n → Z.land (Z.shiftr x k) 255 = n).
  { intros x k n Hk <-. change 255 with (Z.ones 8). by rewrite Z.land_ones, Z.shiftr_div_pow2 by lia. }
  rewrite (H _ 24 a), (H _ 16 b), (H _ 8 c); [|lia|..].
  - change 255 with (Z.ones 8). rewrite Z.land_ones by lia. change (2 ^ 8) with 256.
    assert ((d + a * 16777216 + b * 65536 + c * 256) mod 256 = d) as ->; [|done].
    Z.to_euclidean_division_equations; lia.
  - change (2 ^ 8) with 256. Z.to_euclidean_division_equations; lia.
  - lia.
  - change (2 ^ 16) with 65536. Z.to_euclidean_division_equations; lia.
  - lia.
  - change (2 ^ 24) with 16777216. Z.to_euclidean_division_equations; lia.
Qed.

Lemma dotted_ipv4 a b c d : octet a → octet b → octet c → octet d →
  canonicalBrowserIPv4 (dotted a b c d) = Ok (dotted a b c d).
Proof.
  intros Ha Hb Hc Hd. unfold canonicalBrowserIPv4. rewrite split_dotted by done.
  destruct (octet_facts a Ha) as (Pa & _), (octet_facts b Hb) as (Pb & _), (octet_facts c Hc) as (Pc & _),
    (octet_facts d Hd) as (Pd & _ & _ & _ & Nd).
  cbn [length last default from_option]. change ((1 <? 4)%nat) with true. rewrite bool_decide_eq_false_2 by done.
  cbn [andb mapM]. rewrite Pa, Pb, Pc, Pd. cbn. unfold octet in *.
  rewrite !(proj2 (Z.ltb_ge 255 _)) by lia. cbn [orb].
  change (1 ≪ (8 * (5 - Z.of_nat 4))) with 256. rewrite (proj2 (Z.leb_gt 256 d)) by lia.
  rewrite !Z.shiftl_mul_pow2 by lia.
  change (2 ^ (8 * (3 - Z.of_nat 0))) with 16777216. change (2 ^ (8 * (3 - Z.of_nat 1))) with 65536.
  change (2 ^ (8 * (3 - Z.of_nat 2))) with 256. by rewrite ipv4_string_octets.
Qed.

Lemma len_concat s t : len (s +:+ t) = len s + len t.
Proof. unfold len. rewrite <-!length_bytes, bytes_app, length_app. lia. Qed.

Lemma dotted_canonical a b c d : octet a → octet b → octet c → octet d → canonical_host (dotted a b c d).
Proof.
  intros Ha Hb Hc Hd.
  destruct (octet_facts a Ha) as (_ & La & Da & Na & _), (octet_facts b Hb) as (_ & Lb & Db & Nb & _),
    (octet_facts c Hc) as (_ & Lc & Dc & Nc & _), (octet_facts d Hd) as (_ & Ld & Dd & Nd & _).
  assert (Hdig : ∀ s, all_bytes (in_range 48 57) s = true → all_bytes host_char s = true).
  { intros s. rewrite !all_bytes_spec. intros H x Hx. unfold host_char. by rewrite (H x Hx), orb_true_r. }
  split.
  - rewrite split_dotted by done. apply check_labels_ok. repeat constructor; auto.
  - unfold dotted. rewrite !len_concat. change (len ".") with 1. lia.
  - intros _. by apply dotted_ipv4.
Qed.

Lemma canonicalBrowserIPv4_host host host' : canonicalBrowserIPv4 host = Ok host' → canonical_host host'.
Proof.
  unfold canonicalBrowserIPv4. cbv zeta. rewrite ok_fail_if. intros [_ H]. apply ok_bind in H as (numbers & _ & H).
  rewrite !ok_fail_if in H. destruct H as (_ & _ & [= <-]%ok_inj).
  destruct (ipv4_string_dotted (foldl Z.add (default 0 (last numbers))
    (imap (λ i n, Z.shiftl n (8 * (3 - Z.of_nat i))) (removelast numbers)))) as (a & b & c & d & -> & ? & ? & ? & ?).
  by apply dotted_canonical.
Qed.

(** *** Hosts and ports read back *)

Record canonical_port (defaultPort port : string) : Prop := {
  cp_digits : all_bytes (in_range 48 57) port = true;
  cp_value : port ≠ "" → port ≠ defaultPort ∧ ∃ n, ParseInt port = Some n ∧ 1 ≤ n ≤ 65535 ∧ FormatInt n = port;
  cp_len : len port ≤ 5 }.

Lemma port_length n : 1 ≤ n ≤ 65535 → len (FormatInt n) ≤ 5.
Proof.
  intros Hn. unfold FormatInt, len. rewrite (proj2 (Z.ltb_ge n 0)) by lia. rewrite <-length_bytes.
  assert (Hs : ∀ l, length (bytes (string_of_bytes l)) = length l) by (induction l as [|? ? IHl]; cbn; [done|by rewrite IHl]).
  rewrite Hs. clear Hs.
  assert (H : ∀ k m acc, (k ≤ 18)%nat → 0 ≤ m < 10 ^ Z.of_nat (S k) → (length (digits (S k) m acc) ≤ S k + length acc)%nat).
  { induction k as [|k IH]; intros m acc Hk Hm.
    - cbn. destruct (m / 10 =? 0); cbn; lia.
    - cbn [digits] in *. destruct (m / 10 =? 0); [cbn; lia|]. etrans; [apply IH; [lia|]|cbn; lia].
      rewrite Nat2Z.inj_succ, Z.pow_succ_r in Hm by lia. Z.to_euclidean_division_equations; lia. }
  assert (Hstop : ∀ j k m acc, 0 ≤ m < 10 ^ Z.of_nat (S k) → digits (S k + j) m acc = digits (S k) m acc).
  { intros j k. induction k as [|k IH]; intros m acc Hm.
    - cbn. assert (m / 10 = 0) as -> by (apply Z.div_small; cbn in Hm; lia). done.
    - cbn [digits Nat.add] in *. destruct (m / 10 =? 0); [done|]. apply IH.
      rewrite Nat2Z.inj_succ, Z.pow_succ_r in Hm by lia. Z.to_euclidean_division_equations; lia. }
  change 19%nat with (5 + 14)%nat. rewrite (Hstop 14%nat 4%nat n []) by (cbn; lia).
  pose proof (H 4%nat n [] ltac:(lia) ltac:(cbn; lia)). cbn in *. lia.
Qed.

Lemma splitHostPort_digits h : all_bytes (in_range 48 57) (splitHostPort h).2 = true.
Proof.
  unfold splitHostPort. destruct (cut_last 58 h) as [[x y]|]; [|done]. destruct (all_bytes _ y) eqn:E; done.
Qed.
Lemma len_ToLower s : len (ToLower s) = len s.
Proof. unfold len. f_equal. induction s; cbn; congruence. Qed.

Lemma canonicalHostPort_form parsed defaultPort host port :
  canonicalBrowserHostPortWithDefault parsed defaultPort = Ok (host, port) →
  canonical_host host ∧ canonical_port defaultPort port.
Proof.
  unfold canonicalBrowserHostPortWithDefault. cbv zeta. rewrite ok_fail_if. intros [Hg H].
  rewrite !orb_false_iff in Hg. destruct Hg as [[[[[_ Hlen] _] _] _] _].
  apply ok_bind in H as ([] & Hl & H). apply ok_bind in H as (host' & Hh & H).
  assert (Hhost : canonical_host host').
  { destruct (browserNumericHost (ToLower (Hostname parsed))) eqn:En; [by eapply canonicalBrowserIPv4_host|].
    injection Hh as <-. split; [done|rewrite len_ToLower; lia|congruence]. }
  pose proof (splitHostPort_digits (u_Host parsed)) as Hdig. fold (Port parsed) in Hdig.
  destruct (Port parsed ==? "") eqn:Ep.
  { injection H as <- <-. split; [done|]. apply bool_decide_eq_true in Ep. rewrite Ep. by split. }
  apply ok_fail_if in H as [Hn [= <- <-]%ok_inj]. split; [done|]. destruct (ParseInt (Port parsed)) as [n|] eqn:En; [|done].
  to_prop. destruct Hn as [[Hn1 Hn2] Hf]. destruct (Port parsed ==? defaultPort) eqn:Ed; [by split|]. to_prop.
  split; [done| |rewrite <-Hf; apply port_length; lia]. intros _. split; [done|]. exists n. split_and!; [done|lia|lia|done].
Qed.

Lemma unescape_host_plain s :
  (∀ b, b ∈ bytes s → host_char b = true ∨ b = 46 ∨ b = 58) → unescape_host s = Some s.
Proof.
  induction s as [|a s IH]; [done|]. intros H. cbn [unescape_host].
  specialize (IH ltac:(intros b Hb; apply H; by right)). specialize (H (code a) (list_elem_of_here _ _)).
  assert (code a ≠ 37 ∧ escapes_in_host (code a) = false) as [Hp He].
  { clear IH. revert H. unfold host_char, in_range. destruct a as [[] [] [] [] [] [] [] []]; vm_compute; intuition congruence. }
  rewrite (proj2 (Z.eqb_neq _ _) Hp), He, andb_false_r, IH. done.
Qed.

Section read_back.
Context (host port : string) (defaultPort : string).
Context (Hh : canonical_host host) (Hp : canonical_port defaultPort port).

Lemma hostport_bytes b : b ∈ bytes (browserHostPort host port) → host_char b = true ∨ b = 46 ∨ b = 58.
Proof.
  pose proof (canonical_host_bytes host b Hh) as Hb. pose proof (proj1 (all_bytes_spec _ _) (cp_digits _ _ Hp)) as Hd.
  unfold browserHostPort. case_bool_decide; cbn [negb]; [tauto|].
  rewrite !bytes_app, !elem_of_app. change (bytes ":") with [58]. rewrite list_elem_of_singleton.
  intros [?|[->|Hin%Hd]]; [tauto..|]. left. unfold host_char. by rewrite Hin, orb_true_r.
Qed.
Lemma hostport_avoids b : b ∈ bytes (browserHostPort host port) → 45 ≤ b ≤ 122 ∧ b ≠ 47 ∧ b ≠ 63 ∧ b ≠ 64 ∧ b ≠ 91 ∧ b ≠ 92 ∧ b ≠ 93.
Proof.
  intros [H|[->| ->]]%hostport_bytes; [|lia..]. unfold host_char, in_range in H. to_prop. lia.
Qed.
Lemma colon_not_in_host : 58 ∉ bytes host.
Proof. intros H%(canonical_host_bytes host 58 Hh). destruct H as [H|H]; [by vm_compute in H|done]. Qed.
Lemma colon_not_in_port : 58 ∉ bytes port.
Proof. intros H%(proj1 (all_bytes_spec _ _) (cp_digits _ _ Hp)). by vm_compute in H. Qed.

Lemma cut_hostport : cut_last 58 (browserHostPort host port) = if port ==? "" then None else Some (host, port).
Proof.
  unfold browserHostPort. destruct (port ==? "") eqn:E; cbn [negb]; [by apply cut_last_none, colon_not_in_host|].
  apply (cut_last_app 58 ":" host port); [done|apply colon_not_in_port].
Qed.
Lemma splitHostPort_hostport : splitHostPort (browserHostPort host port) = (host, port).
Proof.
  unfold splitHostPort. rewrite cut_hostport. destruct (port ==? "") eqn:E.
  - apply bool_decide_eq_true in E. unfold browserHostPort. by rewrite E.
  - by rewrite (cp_digits _ _ Hp).
Qed.

Lemma parseAuthority_hostport : parseAuthority (browserHostPort host port) = Some (false, browserHostPort host port).
Proof.
  unfold parseAuthority. rewrite cut_last_none by (intros H; apply hostport_avoids in H; lia).
  assert (parseHost (browserHostPort host port) = Some (browserHostPort host port)) as ->; [|done].
  unfold parseHost. assert (HasPrefix (browserHostPort host port) "[" = false) as ->.
  { destruct (browserHostPort host port) as [|a s] eqn:E; [done|].
    pose proof (hostport_avoids (code a)) as Ha. rewrite E in Ha. specialize (Ha (list_elem_of_here _ _)).
    revert Ha. clear. unfold HasPrefix. destruct a as [[] [] [] [] [] [] [] []]; cbn; try reflexivity. vm_compute. lia. }
  rewrite cut_hostport. destruct (port ==? ""); [apply unescape_host_plain, hostport_bytes|].
  rewrite (proj2 (contains_byte_false _ _)), (cp_digits _ _ Hp); [apply unescape_host_plain, hostport_bytes|].
  intros c Hc. apply Z.eqb_neq. intros <-. by apply colon_not_in_host.
Qed.

Lemma canonicalHostPort_fixed scheme path :
  canonicalBrowserHostPortWithDefault (mkURL scheme false (browserHostPort host port) path) defaultPort = Ok (host, port).
Proof.
  unfold canonicalBrowserHostPortWithDefault, Hostname, Port. cbn [u_Host]. rewrite splitHostPort_hostport. cbn [fst snd].
  pose proof (canonical_host_bytes host) as Hb.
  assert (ToLower host = host) as -> by (apply ToLower_bytes; intros b Hin; apply host_byte_range; eauto).
  rewrite ok_fail_if. split.
  - rewrite !orb_false_iff. split_and!.
    + apply bool_decide_eq_false_2. by apply canonical_host_nonempty.
    + pose proof (ch_len host Hh). lia.
    + apply negb_false_iff, all_bytes_spec. intros c Hc. pose proof (host_byte_range c (Hb c Hh Hc)). lia.
    + by apply canonical_host_suffix.
    + apply ContainsAny_false. intros c Hc Hin%hostport_avoids. change (bytes "[]") with [91; 93] in Hc. set_solver by lia.
    + apply not_true_iff_false. intros [p Heq]%HasSuffix_spec. pose proof cut_hostport as Hcut.
      rewrite Heq, (cut_last_app 58 ":" p "") in Hcut by set_solver. by destruct (port ==? "") eqn:E; simplify_eq.
  - rewrite (ch_labels host Hh). cbn [mbind result_bind].
    assert ((if browserNumericHost host then canonicalBrowserIPv4 host else Ok host) = Ok host) as ->.
    { destruct (browserNumericHost host) eqn:E; [by apply ch_numeric|done]. }
    destruct (port ==? "") eqn:E; [done|]. to_prop. destruct (cp_value _ _ Hp E) as (Hd & n & Hn & Hr & Hf).
    rewrite Hn, Hf, (proj2 (Z.ltb_ge n 1)), (proj2 (Z.ltb_ge 65535 n)) by lia.
    rewrite (bool_decide_eq_true_2 (port = port)) by done. cbn [negb orb]. by rewrite bool_decide_eq_false_2.
Qed.
End read_back.

(** *** Origins *)

Definition scheme_of (httpException : bool) : string := if httpException then "http" else "https".
Definition default_port_of (httpException : bool) : string := if httpException then "80" else "443".
(** An origin in its canonical spelling, with the host and port it names. *)
Definition canonical_origin (httpException : bool) (host port origin : string) : Prop :=
  canonical_host host ∧ canonical_port (default_port_of httpException) port ∧
  origin = scheme_of httpException +:+ "://" +:+ browserHostPort host port.

Lemma canonical_origin_bytes ex host port origin b :
  canonical_origin ex host port origin → b ∈ bytes origin → 45 ≤ b ≤ 122 ∧ b ≠ 63 ∧ b ≠ 92 ∧ plain b = true.
Proof.
  intros (Hh & Hp & ->). rewrite !bytes_app, !elem_of_app.
  assert (Hs : b ∈ bytes (scheme_of ex) ∨ b ∈ bytes "://" → 45 ≤ b ≤ 122 ∧ b ≠ 63 ∧ b ≠ 92 ∧ plain b = true).
  { change (bytes "://") with [58; 47; 47]. destruct ex; [change (bytes (scheme_of true)) with [104; 116; 116; 112]|
      change (bytes (scheme_of false)) with [104; 116; 116; 112; 115]]; rewrite !elem_of_cons, !elem_of_nil;
      intros H; decompose [or] H; subst; try done; (split_and!; [lia..|reflexivity]). }
  intros [?|[?|H]]; [tauto..|]. pose proof (hostport_avoids host port _ Hh Hp b H) as Hr. split_and!; [lia..|].
  destruct (hostport_bytes host port _ Hh Hp b H) as [Hc|[->| ->]]; [|done..].
  unfold host_char, in_range in Hc. unfold plain, escaped_byte. apply negb_true_iff.
  rewrite !orb_false_iff. split_and!; [lia..|]. apply not_true_iff_false. rewrite existsb_exists.
  change (bytes "<>`{}") with [60; 62; 96; 123; 125]. intros (c & Hin%list_elem_of_In & ->%Z.eqb_eq).
  rewrite !elem_of_cons, elem_of_nil in Hin. to_prop. lia.
Qed.

Lemma url_Parse_origin ex host port origin :
  canonical_origin ex host port origin →
  url_Parse origin = Some (mkURL (scheme_of ex) false (browserHostPort host port) "").
Proof.
  intros Ho. pose proof (canonical_origin_bytes ex host port origin) as Hb. pose proof Ho as (Hh & Hp & Heq).
  unfold url_Parse. rewrite Cut_none by (intros H; destruct (Hb 35 Ho H); lia). cbn iota. unfold url_parse.
  rewrite (proj2 (contains_byte_false ctl_byte origin))
    by (intros c Hc; destruct (Hb c Ho Hc) as [Hr _]; unfold ctl_byte; apply orb_false_iff; split; to_prop; lia).
  rewrite (bool_decide_eq_false_2 (origin = "*")) by (rewrite Heq; by destruct ex).
  set (rest := String "/" (String "/" (browserHostPort host port))).
  assert (getScheme true origin = Some (Some (scheme_of ex, rest))) as -> by (rewrite Heq; by destruct ex).
  cbn [mbind option_bind]. assert (ToLower (scheme_of ex) = scheme_of ex) as -> by (by destruct ex).
  pose proof (hostport_avoids host port _ Hh Hp) as Ha.
  rewrite Cut_none; [|].
  - assert (HasPrefix rest "/" = true) as -> by (unfold rest; by destruct (browserHostPort host port)).
    assert (HasPrefix rest "//" = true) as -> by (unfold rest; by destruct (browserHostPort host port)).
    assert ((scheme_of ex !=? "") = true) as -> by (by destruct ex). cbn [negb andb orb].
    unfold rest. cbn [tail_of]. rewrite span_until_none.
    + rewrite (parseAuthority_hostport host port _ Hh Hp). done.
    + intros c Hc. apply Z.eqb_neq. apply Ha in Hc. lia.
  - unfold rest. cbn [bytes]. rewrite !not_elem_of_cons. split_and!; [done..|]. intros H%Ha. lia.
Qed.

Lemma canonicalizeOrigin_form value ex origin :
  canonicalizeBrowserPolicyRuleOrigin value ex = Ok origin → ∃ host port, canonical_origin ex host port origin.
Proof.
  unfold canonicalizeBrowserPolicyRuleOrigin. rewrite ok_fail_if. intros [_ H].
  assert ((if ex then ("http", "80") else ("https", "443")) = (scheme_of ex, default_port_of ex)) as E by (by destruct ex).
  rewrite E in H. destruct (url_Parse value) as [parsed|]; [|done]. apply ok_fail_if in H as [_ H].
  apply ok_bind in H as ([host port] & [Hh Hp]%canonicalHostPort_form & [= <-]%ok_inj). by exists host, port.
Qed.

Lemma canonical_origin_fixed ex host port origin :
  canonical_origin ex host port origin → canonicalizeBrowserPolicyRuleOrigin origin ex = Ok origin.
Proof.
  intros Ho. pose proof (canonical_origin_bytes ex host port origin) as Hb. pose proof Ho as (Hh & Hp & Heq).
  unfold canonicalizeBrowserPolicyRuleOrigin. rewrite ok_fail_if. split.
  - rewrite !orb_false_iff. split_and!.
    + rewrite Heq, !len_concat. pose proof (ch_len _ Hh). pose proof (cp_len _ _ Hp).
      assert (len (scheme_of ex) ≤ 5) by (by destruct ex). change (len "://") with 3.
      assert (len (browserHostPort host port) ≤ 253 + 1 + 5).
      { unfold browserHostPort. destruct (negb _); [rewrite !len_concat; change (len ":") with 1|]; lia. }
      unfold BrowserPolicyOriginMaximumBytes. lia.
    + apply negb_false_iff, all_bytes_spec. intros c Hc. destruct (Hb c Ho Hc). lia.
    + apply plain_text_valid; [rewrite Heq; by destruct ex|..].
      * apply forallb_forall. intros c Hc%list_elem_of_In. by destruct (Hb c Ho Hc) as (_ & _ & _ & ?).
      * intros H. by destruct (Hb 92 Ho H) as (_ & _ & ? & _).
  - assert ((if ex then ("http", "80") else ("https", "443")) = (scheme_of ex, default_port_of ex)) as E by (by destruct ex).
    rewrite E, (url_Parse_origin ex host port origin Ho). cbn [u_Scheme u_Host u_User u_Path].
    rewrite ok_fail_if. split.
    + rewrite bool_decide_eq_true_2 by done. rewrite (bool_decide_eq_false_2 (browserHostPort host port = "")).
      * rewrite (proj2 (ContainsAny_false _ _)); [done|]. intros c Hc Hin. destruct (Hb c Ho Hin) as (? & ? & _).
        change (bytes "?#") with [63; 35] in Hc. set_solver by lia.
      * pose proof (canonical_host_nonempty host Hh). unfold browserHostPort. destruct (negb _); [|done]. by destruct host.
    + rewrite (canonicalHostPort_fixed host port _ Hh Hp). cbn. by rewrite Heq.
Qed.

(** *** Path prefixes *)

Lemma HasPrefix_two s : HasPrefix s "//" = true ↔ ∃ t, s = String slash (String slash t).
Proof.
  unfold HasPrefix. split.
  - destruct s as [|a [|b t]]; [done|destruct a as [[] [] [] [] [] [] [] []]; cbn; congruence|].
    intros H. exists t. destruct a as [[] [] [] [] [] [] [] []]; cbn in H; try congruence.
    destruct b as [[] [] [] [] [] [] [] []]; cbn in H; first [congruence|reflexivity].
  - intros [t ->]. by destruct t.
Qed.

(** The text before the last segment. *)
Definition before_last (init : list string) : string := match init with [] => "" | _ => String slash (join_slash init) end.
Lemma path_snoc init w : String slash (join_slash (init ++ [w])) = before_last init +:+ String slash w.
Proof.
  destruct init as [|s init]; [done|]. cbn [before_last]. rewrite string_app_cons. f_equal.
  revert s. induction init as [|s' init IH]; intros s; [done|].
  change ((s :: s' :: init) ++ [w]) with (s :: (s' :: init) ++ [w]). rewrite (join_cons s) by done. rewrite IH.
  rewrite (join_cons s) by done. clear IH. induction s as [|a s IHs]; [done|]. rewrite !string_app_cons. by rewrite IHs.
Qed.
Lemma cut_last_path init w : byte_of_ascii slash ∉ bytes w →
  cut_last 47 (String slash (join_slash (init ++ [w]))) = Some (before_last init, w).
Proof. intros Hw. rewrite path_snoc. by apply cut_last_app. Qed.
Lemma HasSuffix_slash s x w : cut_last 47 s = Some (x, w) → HasSuffix s "/" = true → w = "".
Proof. intros Hc [p ->]%HasSuffix_spec. rewrite (cut_last_app 47 "/" p "") in Hc by set_solver. by simplify_eq. Qed.

(** A stored path prefix: the root, or a canonical path whose last segment is not empty. *)
Definition policy_path (segs : list string) (prefix : string) : Prop :=
  canonical_path segs prefix ∧ (segs = [""] ∨ ∃ init w, segs = init ++ [w] ∧ w ≠ "") ∧
  len prefix ≤ BrowserPolicyPathMaximumBytes ∧ HasPrefix prefix "//" = false.

Lemma policy_path_form value prefix :
  CanonicalizeBrowserPolicyPath value = Ok prefix → ∃ segs, policy_path segs prefix.
Proof.
  unfold CanonicalizeBrowserPolicyPath. rewrite !ok_fail_if. cbv zeta. intros (Hg & Hcan & _ & Htrail & [= <-]%ok_inj).
  rewrite !orb_false_iff in Hg. destruct Hg as [[[[[[Hlen _] _] _] Htwo] _] _].
  destruct (canonicalBrowserPath value) as [canonical|] eqn:Ec; [|done]. to_prop. subst canonical.
  apply canonicalBrowserPath_form in Ec as (segs & Hp).
  destruct (value ==? "/") eqn:Er; cbn [negb] in *.
  { to_prop. subst value. exists segs. split_and!; [done| |lia|done]. left. destruct Hp as (Hne & Hs & Heq).
    injection Heq as Heq. destruct segs as [|w [|w' segs]]; [done|by cbn in Heq; subst|].
    rewrite join_cons in Heq by done. by destruct w. }
  destruct Hp as (Hne & Hs & Heq). destruct (exists_last Hne) as (init & w & ->).
  apply Forall_app in Hs as [Hi Hw]. rewrite Forall_singleton in Hw.
  pose proof (cut_last_path init w (cs_slash w Hw)) as Hcut. rewrite <-Heq in Hcut.
  unfold TrimSuffixByte in *. rewrite Hcut in *. to_prop. destruct w as [|a w].
  - destruct init as [|s init]; [by rewrite Heq in Er|]. cbn [before_last] in *.
    assert (Hval : value = String slash (join_slash (s :: init)) +:+ String slash "").
    { rewrite Heq, (path_snoc (s :: init)). done. }
    exists (s :: init). split_and!.
    + done.
    + destruct (exists_last (l := s :: init) ltac:(done)) as (init' & w' & E). rewrite E in *. right. exists init', w'.
      split; [done|]. intros ->. destruct Htrail as [Ht|Ht]; cbn [negb] in Ht.
      * rewrite Ht in Hval. rewrite Hval in Htwo. done.
      * apply not_true_iff_false in Ht. apply Ht. apply HasSuffix_spec. exists (before_last init'). apply path_snoc.
    + rewrite Hval in Hlen. rewrite len_concat in Hlen. change (len (String slash "")) with 1 in Hlen. lia.
    + apply not_true_iff_false. intros [t Ht]%HasPrefix_two. apply not_true_iff_false in Htwo. apply Htwo, HasPrefix_two.
      rewrite Hval, Ht. by eexists (t +:+ String slash "").
  - exists (init ++ [String a w]). split_and!; [|right; by exists init, (String a w)|lia|done].
    split_and!; [by intros [_ ?]%app_eq_nil|apply Forall_app; split; [done|by constructor]|done].
Qed.

Lemma policy_path_fixed segs prefix : policy_path segs prefix → CanonicalizeBrowserPolicyPath prefix = Ok prefix.
Proof.
  intros (Hp & Hlast & Hlen & Htwo). pose proof (canonical_path_bytes segs prefix) as Hb.
  pose proof (canonical_path_fixed segs prefix Hp) as Hfix. pose proof Hp as (Hne & Hs & Heq).
  unfold canonicalBrowserPath in Hfix. pose proof Hfix as [Hg _]%ok_fail_if. rewrite !orb_false_iff in Hg.
  destruct Hg as [[[Hempty Hslash] Htext] Hany].
  unfold CanonicalizeBrowserPolicyPath. rewrite !ok_fail_if. cbv zeta.
  assert (Htrim : prefix = "/" ∨ prefix ≠ "/" ∧ TrimSuffixByte 47 prefix = prefix ∧ HasSuffix prefix "/" = false).
  { destruct (decide (prefix = "/")) as [|Hn]; [by left|right]. destruct Hlast as [->|(init & w & -> & Hw)]; [done|].
    apply Forall_app in Hs as [_ Hw0]. rewrite Forall_singleton in Hw0.
    pose proof (cut_last_path init w (cs_slash w Hw0)) as Hcut. rewrite <-Heq in Hcut. unfold TrimSuffixByte. rewrite Hcut.
    split_and!; [done|by destruct w|]. apply not_true_iff_false. intros H. by apply Hw, (HasSuffix_slash _ _ _ Hcut). }
  split_and!.
  - rewrite Hempty, Hslash, Htext, Hany, Htwo, (proj2 (Z.ltb_ge _ _) Hlen). cbn [orb]. rewrite !orb_false_r.
    apply negb_false_iff, all_bytes_spec. intros c Hc. destruct (Hb c Hp Hc) as [Hpl _]. apply plain_range in Hpl. lia.
  - rewrite (canonical_path_fixed segs prefix Hp). by rewrite bool_decide_eq_true_2.
  - apply not_true_iff_false. rewrite existsb_exists. intros (w & Hw%list_elem_of_In & Hd).
    assert (Hsplit : split_byte slash prefix = "" :: segs).
    { rewrite Heq. change (String slash (join_slash segs)) with ("" +:+ String slash (join_slash segs)).
      rewrite split_app_slash by set_solver. f_equal. apply split_join; [done|].
      eapply Forall_impl; [exact Hs|]. intros ? Hx. apply Hx. }
    rewrite Hsplit in Hw. apply elem_of_cons in Hw as [->|Hw]; [done|]. rewrite Forall_forall in Hs.
    by rewrite (cs_dot w (Hs w Hw)) in Hd.
  - destruct Htrim as [->|(Hn & -> & Hsuf)]; [done|]. destruct (prefix !=? "/"); by rewrite Hsuf, andb_false_r.
  - destruct Htrim as [->|(Hn & -> & _)]; [done|]. by destruct (prefix !=? "/").
Qed.
