(* ===== verification/BrowserPolicy.v ===== *)
(** * Browser policies

    Models [server/model/browser_policy.go]: the rules that decide which locations an exam
    browser may open, their canonical form, the canonical encoding that is digested and
    delivered, and the selection of the rule that governs a navigation. *)

From S2P Require Import Prelude GoStrings ModelError Workspace GoJson CanonicalJson CanonicalForm GoMarshal DesktopRelease BrowserUrl.

(** ** Data *)

Definition BrowserPolicyMaximumRules : Z := 128.
Definition BrowserPolicyMaximumBytes : Z := 32 * 1024.

(** The string-based enumerations hold any text until they are validated. *)
Definition BrowserPolicyHostMatch : Type := string.
Definition BrowserPolicyHostExact : BrowserPolicyHostMatch := "exact".
Definition BrowserPolicyHostExactAndSubdomains : BrowserPolicyHostMatch := "exact_and_subdomains".
Definition HostMatch_IsValid (v : BrowserPolicyHostMatch) : bool :=
  (v ==? BrowserPolicyHostExact) || (v ==? BrowserPolicyHostExactAndSubdomains).

Definition BrowserPolicyBlockedNavigationOutcome : Type := string.
Definition BrowserPolicyBlockedNavigationRecord : BrowserPolicyBlockedNavigationOutcome := "record".
Definition BrowserPolicyBlockedNavigationIntegrityEvidence : BrowserPolicyBlockedNavigationOutcome := "integrity_evidence".

Record BrowserPolicyRule := mkBrowserPolicyRule {
  RuleID : string;
  Origin : string;
  PathPrefix : string;
  HostMatch : BrowserPolicyHostMatch;
  AllowRedirects : bool;
  BlockedNavigationOutcome : BrowserPolicyBlockedNavigationOutcome;
  InstitutionHTTPException : bool }.
#[export] Instance BrowserPolicyRule_eta : Eta BrowserPolicyRule := λ r, mkBrowserPolicyRule (RuleID r) (Origin r)
  (PathPrefix r) (HostMatch r) (AllowRedirects r) (BlockedNavigationOutcome r) (InstitutionHTTPException r).
#[export] Instance BrowserPolicyRule_eq_dec : EqDecision BrowserPolicyRule.
Proof. solve_decision. Defined.

Record BrowserPolicy := mkBrowserPolicy {
  bp_Enabled : bool;
  bp_StartRuleID : string;
  bp_Rules : list BrowserPolicyRule }.
#[export] Instance BrowserPolicy_eq_dec : EqDecision BrowserPolicy.
Proof. solve_decision. Defined.

Definition DisabledBrowserPolicy : BrowserPolicy := mkBrowserPolicy false "" [].

Definition policy_error (reason : string) : error := invalidModelError "browser_policy" "" reason "".

(** ** The canonical encoding *)

Definition member (name : string) (v : jval) : list Z * jval := (bytes name, v).
Definition json_text (s : string) : jval := JString (bytes s).

(** [browserPolicyRuleWire] and the documents of [EncodeBrowserPolicy], their members in the
    order of the struct fields. *)
Definition browserPolicyRuleWire (r : BrowserPolicyRule) : jval :=
  JObject [member "rule_id" (json_text (RuleID r)); member "origin" (json_text (Origin r));
           member "path_prefix" (json_text (PathPrefix r)); member "host_match" (json_text (HostMatch r));
           member "allow_redirects" (JBool (AllowRedirects r));
           member "blocked_navigation_outcome" (json_text (BlockedNavigationOutcome r));
           member "institution_http_exception" (JBool (InstitutionHTTPException r))].
Definition browserPolicyWire (policy : BrowserPolicy) : jval :=
  if bp_Enabled policy then
    JObject [member "enabled" (JBool true); member "start_rule_id" (json_text (bp_StartRuleID policy));
             member "rules" (JArray (map browserPolicyRuleWire (bp_Rules policy)))]
  else JObject [member "enabled" (JBool false)].

Definition EncodeBrowserPolicy (policy : BrowserPolicy) : result string :=
  fail_if negb (bp_Enabled policy) && ((bp_StartRuleID policy !=? "") || negb (length (bp_Rules policy) =? 0)%nat)
    with policy_error "disabled Browser Policy contains enabled fields" ;;
  match encodeCanonicalExamDocument (browserPolicyWire policy) with
  | Ok encoded =>
      fail_if BrowserPolicyMaximumBytes <? len encoded
        with policy_error "Browser Policy encoding failed or exceeded its limit" ;;
      Ok encoded
  | Err _ => mthrow (policy_error "Browser Policy encoding failed or exceeded its limit")
  end.

Definition BrowserPolicyDigest (policy : BrowserPolicy) : result string :=
  encoded ← EncodeBrowserPolicy policy;
  Ok (SHA256Fingerprint encoded).

(** ** Validation *)

Definition rule_id_byte (c : Z) : bool := in_range 97 122 c || in_range 48 57 c || (c =? 95) || (c =? 45).
Definition validBrowserPolicyRuleID (value : string) : bool :=
  if (len value <? 1) || (64 <? len value) then false else all_bytes rule_id_byte value.

(** [net.ParseIP] of a text without a colon: four decimal fields from 0 to 255 without
    leading zeros.  The host of a canonical origin has no colon. *)
Definition ip_field (field : string) : bool :=
  negb (len field =? 0) && all_bytes (in_range 48 57) field && ((len field =? 1) || negb (HasPrefix field "0"))
  && (len field <=? 3) && match ParseInt field with Some n => n <=? 255 | None => false end.
Definition ParseIP (host : string) : bool :=
  (length (split_byte "." host) =? 4)%nat && forallb ip_field (split_byte "." host).

(** [parsed, _ := url.Parse(origin)]: the origins of a validated rule always parse
    ([url_Parse_origin]). *)
Definition parsed_url (origin : string) : URL := default (mkURL "" false "" "") (url_Parse origin).

Definition match_key (r : BrowserPolicyRule) : string :=
  Origin r +:+ String zero (PathPrefix r +:+ String zero (HostMatch r)).

(** One round of the rule loop, from the identities and match keys seen and the previous
    identity. *)
Definition check_rule (ids matchKeys : gset string) (previous : string) (rule : BrowserPolicyRule) : result unit :=
  fail_if negb (validBrowserPolicyRuleID (RuleID rule))
          || (match Compare (RuleID rule) previous with Gt => false | _ => true end)
          || negb (HostMatch_IsValid (HostMatch rule))
          || negb (existsb (λ o, BlockedNavigationOutcome rule ==? o)
                     [BrowserPolicyBlockedNavigationRecord; BrowserPolicyBlockedNavigationIntegrityEvidence])
    with policy_error "invalid canonical Browser Policy rule" ;;
  fail_if match canonicalizeBrowserPolicyRuleOrigin (Origin rule) (InstitutionHTTPException rule) with
          | Ok origin => origin !=? Origin rule
          | Err _ => true
          end with policy_error "invalid canonical Browser Policy origin" ;;
  fail_if ParseIP (Hostname (parsed_url (Origin rule))) && (HostMatch rule !=? BrowserPolicyHostExact)
    with policy_error "IP Browser Policy rule requires exact host match" ;;
  fail_if match CanonicalizeBrowserPolicyPath (PathPrefix rule) with
          | Ok prefix => prefix !=? PathPrefix rule
          | Err _ => true
          end with policy_error "invalid canonical Browser Policy path" ;;
  fail_if bool_decide (RuleID rule ∈ ids) with policy_error "duplicate Browser Policy rule identity" ;;
  fail_if bool_decide (match_key rule ∈ matchKeys) with policy_error "duplicate Browser Policy match rule" ;;
  Ok tt.
Fixpoint check_rules (ids matchKeys : gset string) (previous : string) (rules : list BrowserPolicyRule)
    : result (gset string) :=
  match rules with
  | [] => Ok ids
  | rule :: rules =>
      _ ← check_rule ids matchKeys previous rule;
      check_rules ({[RuleID rule]} ∪ ids) ({[match_key rule]} ∪ matchKeys) (RuleID rule) rules
  end.

Definition BrowserPolicy_Validate (p : BrowserPolicy) : result unit :=
  if negb (bp_Enabled p) then
    fail_if (bp_StartRuleID p !=? "") || negb (length (bp_Rules p) =? 0)%nat
      with policy_error "disabled Browser Policy contains enabled fields" ;;
    Ok tt
  else
    fail_if negb (validBrowserPolicyRuleID (bp_StartRuleID p)) || (Z.of_nat (length (bp_Rules p)) <? 1)
            || (BrowserPolicyMaximumRules <? Z.of_nat (length (bp_Rules p)))
      with policy_error "invalid enabled Browser Policy" ;;
    ids ← check_rules ∅ ∅ "" (bp_Rules p);
    fail_if negb (bool_decide (bp_StartRuleID p ∈ ids)) with policy_error "Browser Policy start rule does not exist" ;;
    fail_if match EncodeBrowserPolicy p with
            | Ok encoded => BrowserPolicyMaximumBytes <? len encoded
            | Err _ => true
            end with policy_error "Browser Policy exceeds its canonical size limit" ;;
    Ok tt.

(** ** Authoring *)

(** The canonicalizing loop, at [index]. *)
Fixpoint canonical_rules (index : Z) (rules : list BrowserPolicyRule) : result (list BrowserPolicyRule) :=
  match rules with
  | [] => Ok []
  | rule :: rules =>
      match canonicalizeBrowserPolicyRuleOrigin (Origin rule) (InstitutionHTTPException rule) with
      | Err err => mthrow (wrap (policy_error ("browser policy rule " +:+ FormatInt index +:+ " origin")) err)
      | Ok origin =>
          match CanonicalizeBrowserPolicyPath (PathPrefix rule) with
          | Err err => mthrow (wrap (policy_error ("browser policy rule " +:+ FormatInt index +:+ " path")) err)
          | Ok prefix =>
              rest ← canonical_rules (index + 1) rules;
              Ok (rule <| Origin := origin |> <| PathPrefix := prefix |> :: rest)
          end
      end
  end.

(** [slices.SortFunc] by identity.  The order of rules that share an identity is not
    specified by Go; such rules are refused by [Validate]. *)
Definition rule_le (left right : BrowserPolicyRule) : Prop := Compare (RuleID left) (RuleID right) ≠ Gt.
#[export] Instance rule_le_dec : RelDecision rule_le.
Proof. intros a b. unfold rule_le. apply _. Defined.

Definition NewBrowserPolicy (enabled : bool) (startRuleID : string) (rules : list BrowserPolicyRule) : result BrowserPolicy :=
  fail_if (BrowserPolicyMaximumRules <? Z.of_nat (length rules))
          || (negb enabled && ((startRuleID !=? "") || negb (length rules =? 0)%nat))
    with policy_error "invalid Browser Policy fields or rule count" ;;
  rules ← canonical_rules 0 (if enabled then rules else []);
  let policy := mkBrowserPolicy enabled (if enabled then startRuleID else "") (merge_sort rule_le rules) in
  _ ← BrowserPolicy_Validate policy;
  Ok policy.

(** ** Matching *)

Definition browserHostMatches (actual rule : string) (match_ : BrowserPolicyHostMatch) : bool :=
  (actual ==? rule) || ((match_ ==? BrowserPolicyHostExactAndSubdomains) && HasSuffix actual ("." +:+ rule)).
Definition browserPathMatches (actual prefix : string) : bool :=
  (actual ==? prefix) || (prefix ==? "/") || HasPrefix actual (prefix +:+ "/").
Definition browserRulePrecedes (candidate current : BrowserPolicyRule) : bool :=
  if negb (len (PathPrefix candidate) =? len (PathPrefix current))
  then len (PathPrefix current) <? len (PathPrefix candidate)
  else if HostMatch candidate !=? HostMatch current
  then HostMatch candidate ==? BrowserPolicyHostExact
  else
    let candidateHost := Hostname (parsed_url (Origin candidate)) in
    let currentHost := Hostname (parsed_url (Origin current)) in
    if negb (len candidateHost =? len currentHost) then len currentHost <? len candidateHost
    else match Compare (RuleID candidate) (RuleID current) with Lt => true | _ => false end.

(** The tests of the selection loop. *)
Definition rule_matches (location : BrowserLocation) (rule : BrowserPolicyRule) : bool :=
  let parsed := parsed_url (Origin rule) in
  let defaultPort := if u_Scheme parsed ==? "http" then "80" else "443" in
  let '(ruleHost, rulePort) := ok_or ("", "") (canonicalBrowserHostPortWithDefault parsed defaultPort) in
  negb ((u_Scheme parsed !=? bl_Scheme location) || (rulePort !=? bl_Port location)
        || negb (browserHostMatches (bl_Host location) ruleHost (HostMatch rule))
        || negb (browserPathMatches (bl_Path location) (PathPrefix rule))).
Fixpoint select_rule (location : BrowserLocation) (selected : option BrowserPolicyRule) (rules : list BrowserPolicyRule)
    : option BrowserPolicyRule :=
  match rules with
  | [] => selected
  | rule :: rules =>
      if rule_matches location rule
      then select_rule location
             (match selected with
              | None => Some rule
              | Some current => if browserRulePrecedes rule current then Some rule else selected
              end) rules
      else select_rule location selected rules
  end.
Definition matchLocation (p : BrowserPolicy) (location : BrowserLocation) : option BrowserPolicyRule :=
  if negb (bp_Enabled p) then None else select_rule location None (bp_Rules p).

Definition Match (p : BrowserPolicy) (rawURL : string) : result (option BrowserPolicyRule * BrowserLocation) :=
  _ ← BrowserPolicy_Validate p;
  location ← CanonicalizeBrowserLocation rawURL;
  Ok (matchLocation p location, location).
Definition MatchLocation (p : BrowserPolicy) (location : BrowserLocation) : result (option BrowserPolicyRule) :=
  _ ← BrowserPolicy_Validate p;
  _ ← BrowserLocation_Validate location;
  Ok (matchLocation p location).

(** ** The installation's origin and evidence *)

Definition exception_error : error := policy_error "HTTP exception differs from the pinned institution origin".
Fixpoint check_exceptions (institutionOrigin : string) (rules : list BrowserPolicyRule) : result unit :=
  match rules with
  | [] => Ok tt
  | rule :: rules =>
      if negb (InstitutionHTTPException rule) then check_exceptions institutionOrigin rules
      else
        match CanonicalizeBrowserPolicyOrigin institutionOrigin with
        | Err _ => mthrow (policy_error "institution HTTP exception needs a supported HTTPS origin")
        | Ok pin =>
            '(host, port) ← canonicalBrowserHostPortWithDefault (parsed_url pin) "443";
            '(candidateHost, candidatePort) ← canonicalBrowserHostPortWithDefault (parsed_url (Origin rule)) "80";
            fail_if (host !=? candidateHost) || (port !=? candidatePort) with exception_error ;;
            check_exceptions institutionOrigin rules
        end
  end.
Definition ValidateInstitutionOrigin (p : BrowserPolicy) (institutionOrigin : string) : result unit :=
  _ ← BrowserPolicy_Validate p;
  check_exceptions institutionOrigin (bp_Rules p).

Definition MayCreateIntegrityEvidence (p : BrowserPolicy) : bool :=
  if negb (bp_Enabled p) then false
  else existsb (λ rule, BlockedNavigationOutcome rule ==? BrowserPolicyBlockedNavigationIntegrityEvidence) (bp_Rules p).

(** ** Labels and segments *)

Lemma HasPrefix_spec s p : HasPrefix s p = true ↔ ∃ t, s = p +:+ t.
Proof.
  unfold HasPrefix. revert s. induction p as [|a p IH]; intros s.
  - split; [by exists s|by destruct s].
  - destruct s as [|b s]; cbn; [split; [done|by intros [t ?]]|]. destruct (ascii_dec a b) as [->|Hn].
    + rewrite IH. split; intros [t Ht]; exists t; [by rewrite Ht|by injection Ht].
    + split; [done|]. intros [t Ht]. by injection Ht.
Qed.

Section split.
Context (c : ascii).

Lemma split_cons a s : ∃ w ws, split_byte c s = w :: ws ∧
  split_byte c (String a s) = if Ascii.eqb a c then "" :: w :: ws else String a w :: ws.
Proof.
  destruct (split_byte c s) as [|w ws] eqn:E; [by apply split_nonempty in E|]. exists w, ws. split; [done|].
  cbn [split_byte]. by rewrite E.
Qed.
Lemma split_concat p s : split_byte c (p +:+ String c s) = split_byte c p ++ split_byte c s.
Proof.
  induction p as [|a p IH].
  - change ("" +:+ String c s) with (String c s). cbn. by rewrite Ascii.eqb_refl.
  - rewrite string_app_cons. destruct (split_cons a p) as (w & ws & Hp & ->).
    destruct (split_cons a (p +:+ String c s)) as (w' & ws' & Hq & ->). rewrite IH, Hp in Hq. injection Hq as <- <-.
    by destruct (Ascii.eqb a c).
Qed.
Lemma split_inj s t : split_byte c s = split_byte c t → s = t.
Proof.
  revert t. induction s as [|a s IH]; intros [|b t]; [done|..].
  - destruct (split_cons b t) as (w & ws & Ht & ->). by destruct (Ascii.eqb b c).
  - destruct (split_cons a s) as (w & ws & Hs & ->). by destruct (Ascii.eqb a c).
  - destruct (split_cons a s) as (w & ws & Hs & ->). destruct (split_cons b t) as (w' & ws' & Ht & ->).
    destruct (Ascii.eqb a c) eqn:Ea, (Ascii.eqb b c) eqn:Eb; intros [= ]; subst; try done.
    + apply Ascii.eqb_eq in Ea, Eb. subst. f_equal. apply IH. congruence.
    + f_equal. apply IH. congruence.
Qed.

(** Dropping leading or trailing pieces is dropping text up to a separator. *)
Lemma split_suffix t s : split_byte c t `suffix_of` split_byte c s ↔ s = t ∨ ∃ p, s = p +:+ String c t.
Proof.
  split.
  - induction s as [|a s IH].
    + intros [k Hk]. left. apply split_inj. destruct k as [|x k]; [done|]. injection Hk as _ Hk.
      symmetry in Hk. apply app_eq_nil in Hk as [_ Hk]. by apply split_nonempty in Hk.
    + destruct (split_cons a s) as (w & ws & Hs & Hc). rewrite Hc, Hs in *. intros [[|x k] Hk].
      { left. apply split_inj. rewrite Hc. done. }
      destruct (Ascii.eqb a c) eqn:Ea; injection Hk as <- Hk.
      * apply Ascii.eqb_eq in Ea as ->. right. destruct IH as [->|[p ->]]; [by exists k|by exists ""|].
        exists (String c p). by rewrite string_app_cons.
      * destruct IH as [->|[p ->]]; [exists (w :: k); by rewrite Hk| |right; exists (String a p); by rewrite string_app_cons].
        rewrite Hs in Hk. apply (f_equal length) in Hk. rewrite length_app in Hk. cbn in Hk. lia.
  - intros [->|[p ->]]; [done|]. rewrite split_concat. by exists (split_byte c p).
Qed.
Lemma split_prefix t s : split_byte c t `prefix_of` split_byte c s ↔ s = t ∨ ∃ p, s = t +:+ String c p.
Proof.
  split.
  - revert s. induction t as [|a t IH]; intros s.
    + destruct s as [|b s]; [by left|]. destruct (split_cons b s) as (w & ws & Hs & ->). intros [k Hk].
      destruct (Ascii.eqb b c) eqn:Eb; [|by injection Hk]. apply Ascii.eqb_eq in Eb as ->. right. by exists s.
    + destruct (split_cons a t) as (w & ws & Ht & ->). destruct s as [|b s].
      { intros [k Hk]. exfalso. destruct (Ascii.eqb a c); by injection Hk. }
      destruct (split_cons b s) as (w' & ws' & Hs & ->). intros [k Hk].
      destruct (Ascii.eqb a c) eqn:Ea, (Ascii.eqb b c) eqn:Eb; try by injection Hk.
      * apply Ascii.eqb_eq in Ea as ->, Eb as ->. injection Hk as -> ->.
        destruct (IH s) as [->|[p ->]]; [exists k; by rewrite Hs, Ht|by left|right; by exists p].
      * injection Hk as -> -> Hk. destruct (IH s) as [->|[p ->]]; [exists k; by rewrite Hs, Ht, Hk|by left|right; by exists p].
  - intros [->|[p ->]]; [done|]. rewrite split_concat. by exists (split_byte c p).
Qed.
End split.

Definition labels (host : string) : list string := split_byte "." host.
(** The segments of an absolute path; the root has none. *)
Definition path_segments (path : string) : list string := if path ==? "/" then [] else tail (split_byte slash path).

Lemma browserHostMatches_spec actual rule m :
  browserHostMatches actual rule m = true ↔
  actual = rule ∨ (m = BrowserPolicyHostExactAndSubdomains ∧ labels rule `suffix_of` labels actual).
Proof.
  unfold browserHostMatches, labels. rewrite orb_true_iff, andb_true_iff, !bool_decide_eq_true, split_suffix, HasSuffix_spec.
  change ("." +:+ rule) with (String "." rule). split; intuition.
Qed.

Lemma absolute_segments segs path : canonical_path segs path →
  split_byte slash path = "" :: segs ∧ path_segments path = if path ==? "/" then [] else segs.
Proof.
  intros (Hne & Hs & ->). assert (E : split_byte slash (String slash (join_slash segs)) = "" :: segs).
  { change (String slash (join_slash segs)) with ("" +:+ String slash (join_slash segs)).
    rewrite split_app_slash by set_solver. f_equal. apply split_join; [done|].
    eapply Forall_impl; [exact Hs|]. intros w Hw. apply Hw. }
  split; [done|]. unfold path_segments. by rewrite E.
Qed.

Lemma browserPathMatches_spec segs path psegs prefix :
  canonical_path segs path → canonical_path psegs prefix →
  browserPathMatches path prefix = true ↔ path_segments prefix `prefix_of` path_segments path.
Proof.
  intros Hp Hq. destruct (absolute_segments _ _ Hp) as [Ep ->]. destruct (absolute_segments _ _ Hq) as [Eq ->].
  unfold browserPathMatches. destruct (prefix ==? "/") eqn:Er.
  { rewrite orb_true_r. split; [|done]. intros _. apply prefix_nil. }
  rewrite orb_false_r, orb_true_iff, bool_decide_eq_true, HasPrefix_spec.
  assert (Hiff : split_byte slash prefix `prefix_of` split_byte slash path ↔ path = prefix ∨ ∃ t, path = (prefix +:+ "/") +:+ t).
  { rewrite split_prefix. assert (Ha : ∀ t, prefix +:+ String slash t = (prefix +:+ "/") +:+ t).
    { intros t. clear. induction prefix as [|a q IH]; [done|]. rewrite !string_app_cons. by rewrite IH. }
    split; (intros [->|[t ->]]; [by left|right; exists t; by rewrite (Ha t)]). }
  rewrite <-Hiff, Ep, Eq. destruct (path ==? "/") eqn:Es.
  - to_prop. subst path. split; intros [k Hk].
    + exfalso. destruct Hp as (Hne & _ & Hj). injection Hj as Hj. injection Hk as Hk.
      assert (segs = [""]) as -> by (injection Ep as <-; done).
      destruct psegs as [|w psegs]; [by destruct Hq|]. injection Hk as <- Hk. symmetry in Hk. apply app_eq_nil in Hk as [-> ->].
      destruct Hq as (_ & _ & Hq). by rewrite Hq in Er.
    + destruct Hq as (Hne & _). symmetry in Hk. by apply app_eq_nil in Hk as [? _].
  - split; intros [k Hk]; exists k; [by injection Hk|by rewrite Hk].
Qed.

(** ** Validated policies *)

Record valid_rule (r : BrowserPolicyRule) : Prop := {
  vr_id : validBrowserPolicyRuleID (RuleID r) = true;
  vr_match : HostMatch r = BrowserPolicyHostExact ∨ HostMatch r = BrowserPolicyHostExactAndSubdomains;
  vr_outcome : BlockedNavigationOutcome r = BrowserPolicyBlockedNavigationRecord ∨
               BlockedNavigationOutcome r = BrowserPolicyBlockedNavigationIntegrityEvidence;
  vr_origin : ∃ host port, canonical_origin (InstitutionHTTPException r) host port (Origin r);
  vr_path : ∃ segs, policy_path segs (PathPrefix r) }.
Definition id_lt (a b : BrowserPolicyRule) : Prop := Compare (RuleID a) (RuleID b) = Lt.

Lemma check_rule_valid ids keys previous r : check_rule ids keys previous r = Ok tt →
  valid_rule r ∧ Compare previous (RuleID r) = Lt.
Proof.
  unfold check_rule. rewrite !ok_fail_if. intros (Hg & Ho & _ & Hp & _).
  rewrite !orb_false_iff, !negb_false_iff in Hg. destruct Hg as [[[Hid Hc] Hm] Hb].
  destruct (canonicalizeBrowserPolicyRuleOrigin _ _) as [origin|] eqn:Eo; [|done].
  destruct (CanonicalizeBrowserPolicyPath _) as [prefix|] eqn:Ep; [|done]. to_prop. subst. split.
  - split; [done| | | |].
    + unfold HostMatch_IsValid in Hm. by to_prop.
    + cbn in Hb. rewrite orb_false_r in Hb. by to_prop.
    + by eapply canonicalizeOrigin_form.
    + by eapply policy_path_form.
  - rewrite (order_opp (cmp := Compare)). destruct (Compare (RuleID r) previous); done.
Qed.

Lemma check_rules_valid rules ids keys previous ids' :
  check_rules ids keys previous rules = Ok ids' →
  Forall valid_rule rules ∧ Forall (λ r, Compare previous (RuleID r) = Lt) rules ∧ StronglySorted id_lt rules.
Proof.
  revert ids keys previous. induction rules as [|r rules IH]; intros ids keys previous; cbn [check_rules].
  { intros _. split_and!; constructor. }
  rewrite ok_bind. intros ([] & [Hr Hlt]%check_rule_valid & (Hv & Hf & Hs)%IH). split_and!; [by constructor| |by constructor].
  constructor; [done|]. eapply Forall_impl; [exact Hf|]. intros r' Hr'. by eapply order_trans.
Qed.

(** What a validated policy is. *)
Record valid_policy (p : BrowserPolicy) : Prop := {
  vp_rules : Forall valid_rule (bp_Rules p);
  vp_sorted : StronglySorted id_lt (bp_Rules p);
  vp_disabled : bp_Enabled p = false → bp_Rules p = [] ∧ bp_StartRuleID p = "";
  vp_start : bp_Enabled p = true → validBrowserPolicyRuleID (bp_StartRuleID p) = true;
  vp_size : ∃ encoded, EncodeBrowserPolicy p = Ok encoded }.
Lemma Validate_policy p : BrowserPolicy_Validate p = Ok tt → valid_policy p.
Proof.
  unfold BrowserPolicy_Validate. destruct (bp_Enabled p) eqn:E; cbn [negb].
  - rewrite ok_fail_if, ok_bind. intros (Hg & ids & (Hv & _ & Hs)%check_rules_valid & H).
    rewrite !ok_fail_if in H. destruct H as (_ & He & _). to_prop. destruct Hg as [[Hid _] _].
    split; try done; [by rewrite E|]. destruct (EncodeBrowserPolicy p) as [encoded|]; [by exists encoded|done].
  - rewrite ok_fail_if. intros [Hg _]. to_prop. destruct Hg as [Hs Hr]. apply Nat.eqb_eq, length_zero_iff_nil in Hr.
    assert (p = DisabledBrowserPolicy) as -> by (destruct p; cbn in *; by subst).
    split; try done; [constructor..|]. eexists. vm_compute. reflexivity.
Qed.

Lemma valid_policy_ids p r r' : valid_policy p → r ∈ bp_Rules p → r' ∈ bp_Rules p → RuleID r = RuleID r' → r = r'.
Proof.
  intros Hp. generalize (vp_sorted _ Hp). generalize (bp_Rules p). clear.
  induction 1 as [|x l _ IH Hx]; [by rewrite elem_of_nil|]. rewrite !elem_of_cons, Forall_forall in *.
  assert (Hlt : ∀ y, y ∈ l → RuleID x ≠ RuleID y).
  { intros y Hy E. specialize (Hx y Hy). unfold id_lt in Hx. rewrite E in Hx. by rewrite (proj2 (order_eq (cmp := Compare) _ _)) in Hx. }
  intros [->|Hr] [->|Hr'] E; [done|by destruct (Hlt r')|by destruct (Hlt r)|by apply IH].
Qed.

(** ** Selection *)

(** A rule covers a location of its scheme and port, whose host is the rule's own or, when
    subdomains are included, ends in the rule's labels, and whose path starts with the
    segments of the rule's path. *)
Definition covers (r : BrowserPolicyRule) (l : BrowserLocation) : Prop :=
  ∃ host port, canonical_origin (InstitutionHTTPException r) host port (Origin r) ∧
    bl_Scheme l = scheme_of (InstitutionHTTPException r) ∧ bl_Port l = port ∧
    (bl_Host l = host ∨
     HostMatch r = BrowserPolicyHostExactAndSubdomains ∧ labels host `suffix_of` labels (bl_Host l)) ∧
    path_segments (PathPrefix r) `prefix_of` path_segments (bl_Path l).

Definition host_rank (r : BrowserPolicyRule) : Z := if HostMatch r ==? BrowserPolicyHostExact then 0 else 1.
Definition rule_host (r : BrowserPolicyRule) : string := Hostname (parsed_url (Origin r)).

(** Lexicographic orders of pairs. *)
Definition pair_order {A B} (cmp : A → A → comparison) (cmp' : B → B → comparison) (a b : A * B) : comparison :=
  lexico (cmp a.1 b.1) (cmp' a.2 b.2).
#[export] Instance pair_Order {A B} (cmp : A → A → comparison) (cmp' : B → B → comparison) :
  Order cmp → Order cmp' → Order (pair_order cmp cmp').
Proof.
  intros H1 H2. unfold pair_order. split.
  - intros [a b] [a' b']. cbn. rewrite lexico_Eq, !order_eq. split; [by intros [-> ->]|by intros [= -> ->]].
  - intros a b. by rewrite (order_opp a.1), (order_opp a.2), lexico_opp.
  - intros a b c. rewrite !lexico_Lt, !order_eq. intros [L1|[E1 L1]] [L2|[E2 L2]].
    + left. by eapply order_trans.
    + left. by rewrite <-E2.
    + left. by rewrite E1.
    + right. split; [congruence|by eapply order_trans].
Qed.

(** The order of specificity: the longer path, then an exact host, then the longer host, then
    the smaller identity. *)
Definition rule_key (r : BrowserPolicyRule) : Z * (Z * (Z * string)) :=
  (- len (PathPrefix r), (host_rank r, (- len (rule_host r), RuleID r))).
Definition specificity (a b : BrowserPolicyRule) : comparison :=
  pair_order Z.compare (pair_order Z.compare (pair_order Z.compare Compare)) (rule_key a) (rule_key b).
Lemma specificity_eq a b : specificity a b = Eq → RuleID a = RuleID b.
Proof. unfold specificity. rewrite order_eq. unfold rule_key. by intros [=]. Qed.
Lemma specificity_refl a : specificity a a ≠ Gt.
Proof. unfold specificity. rewrite (proj2 (order_eq _ _)) by done. done. Qed.
Lemma specificity_trans a b c : specificity a b ≠ Gt → specificity b c ≠ Gt → specificity a c ≠ Gt.
Proof. unfold specificity. apply not_Gt_trans. apply _. Qed.

Lemma browserRulePrecedes_spec a b : valid_rule a → valid_rule b →
  browserRulePrecedes a b = true ↔ specificity a b = Lt.
Proof.
  intros Ha Hb. unfold browserRulePrecedes, specificity. fold (rule_host a) (rule_host b).
  unfold rule_key, host_rank, pair_order. cbn [fst snd]. rewrite !Z.compare_opp.
  destruct (Z.compare_spec (len (PathPrefix b)) (len (PathPrefix a))) as [E|L|L]; cbn [lexico].
  - rewrite E, Z.eqb_refl. cbn [negb].
    destruct (Z.compare_spec (len (rule_host b)) (len (rule_host a))) as [E'|L'|L'].
    + rewrite E', Z.eqb_refl. cbn [negb lexico].
      destruct (vr_match a Ha) as [->| ->], (vr_match b Hb) as [->| ->]; cbn; by destruct (Compare _ _).
    + rewrite (proj2 (Z.eqb_neq (len (rule_host a)) _)), (proj2 (Z.ltb_lt _ _)) by lia. cbn [negb lexico].
      by destruct (vr_match a Ha) as [->| ->], (vr_match b Hb) as [->| ->].
    + rewrite (proj2 (Z.eqb_neq (len (rule_host a)) _)), (proj2 (Z.ltb_ge _ _)) by lia. cbn [negb lexico].
      by destruct (vr_match a Ha) as [->| ->], (vr_match b Hb) as [->| ->].
  - by rewrite (proj2 (Z.eqb_neq (len (PathPrefix a)) _)), (proj2 (Z.ltb_lt _ _)) by lia.
  - by rewrite (proj2 (Z.eqb_neq (len (PathPrefix a)) _)), (proj2 (Z.ltb_ge _ _)) by lia.
Qed.

Lemma rule_matches_spec r l segs : valid_rule r → canonical_path segs (bl_Path l) → rule_matches l r = true ↔ covers r l.
Proof.
  intros Hr Hp. destruct (vr_path r Hr) as (psegs & Hq & _). destruct (vr_origin r Hr) as (host & port & Ho).
  assert (Hread : ∀ host' port', canonical_origin (InstitutionHTTPException r) host' port' (Origin r) →
    canonicalBrowserHostPortWithDefault (parsed_url (Origin r)) (default_port_of (InstitutionHTTPException r)) = Ok (host', port')
    ∧ u_Scheme (parsed_url (Origin r)) = scheme_of (InstitutionHTTPException r)).
  { intros host' port' H. unfold parsed_url. rewrite (url_Parse_origin _ _ _ _ H). cbn [default from_option]. destruct H as (? & ? & _).
    split; [by apply canonicalHostPort_fixed|done]. }
  destruct (Hread _ _ Ho) as [Hh Hs]. unfold rule_matches. rewrite Hs.
  assert ((if scheme_of (InstitutionHTTPException r) ==? "http" then "80" else "443") = default_port_of (InstitutionHTTPException r)) as ->
    by (by destruct (InstitutionHTTPException r)).
  rewrite Hh. cbn [ok_or]. rewrite negb_true_iff, !orb_false_iff, !negb_false_iff, !bool_decide_eq_true, browserHostMatches_spec.
  rewrite (browserPathMatches_spec _ _ _ _ Hp Hq). split.
  - intros [[[Hsc Hport] Hm] Hpath]. exists host, port. split_and!; [done..|destruct Hm as [?|[? ?]]; tauto|done].
  - intros (host' & port' & Ho' & Hsc & Hport & Hm & Hpath). destruct (Hread _ _ Ho') as [E _]. rewrite E in Hh. injection Hh as -> ->.
    split_and!; [done..|destruct Hm as [?|[? ?]]; tauto|done].
Qed.

Lemma select_rule_spec l rules selected :
  Forall valid_rule rules → (∀ r, selected = Some r → valid_rule r) →
  match select_rule l selected rules with
  | None => selected = None ∧ Forall (λ r, rule_matches l r = false) rules
  | Some r => (selected = Some r ∨ r ∈ rules ∧ rule_matches l r = true) ∧
      ∀ r', (selected = Some r' ∨ r' ∈ rules ∧ rule_matches l r' = true) → specificity r r' ≠ Gt
  end.
Proof.
  intros Hv. revert selected. induction Hv as [|x rules Hx Hv IH]; intros selected Hsel; cbn [select_rule].
  { destruct selected as [r|]; [|by split]. split; [by left|]. intros r' [[= <-]|[[]%elem_of_nil _]].
    apply specificity_refl. }
  destruct (rule_matches l x) eqn:Em.
  2: { specialize (IH selected Hsel). destruct (select_rule l selected rules) as [r|].
       - destruct IH as [H1 H2]. split; [set_solver|]. intros r' [?|[[->|?]%elem_of_cons ?]]; [auto|congruence|auto].
       - destruct IH as [-> H2]. split; [done|by constructor]. }
  set (next := match selected with None => Some x | Some current => if browserRulePrecedes x current then Some x else selected end).
  assert (Hnext : ∃ y, next = Some y ∧ valid_rule y ∧ (selected = Some y ∨ y = x) ∧
    specificity y x ≠ Gt ∧ ∀ z, selected = Some z → specificity y z ≠ Gt).
  { unfold next. destruct selected as [cur|]; [|exists x; split_and!; auto using specificity_refl; done].
    specialize (Hsel cur eq_refl). destruct (browserRulePrecedes x cur) eqn:Ep.
    - apply browserRulePrecedes_spec in Ep; [|done..]. exists x. split_and!; auto using specificity_refl.
      intros z [= <-]. by rewrite Ep.
    - exists cur. split_and!; auto; [|intros z [= <-]; apply specificity_refl]. unfold specificity.
      rewrite order_opp. intros E. assert (specificity x cur = Lt) as Hlt by (unfold specificity; by destruct (pair_order _ _ _ _)).
      apply browserRulePrecedes_spec in Hlt; [congruence|done..]. }
  destruct Hnext as (y & -> & Hy & Hyin & Hyx & Hysel).
  specialize (IH (Some y) ltac:(by intros ? [= <-])). destruct (select_rule l (Some y) rules) as [r|]; destruct IH as [H1 H2]; [|done].
  split; [destruct H1 as [[= <-]|[? ?]]; [destruct Hyin as [?| ->]; set_solver|set_solver]|].
  assert (Hry : specificity r y ≠ Gt) by (apply H2; by left).
  intros r' [Hr'|[[->|Hr']%elem_of_cons Hm]]; [|by eapply specificity_trans|apply H2; by right].
  eapply specificity_trans; [exact Hry|by apply Hysel].
Qed.

(** ** Theorems *)

Lemma location_path l : BrowserLocation_Validate l = Ok tt → ∃ segs, canonical_path segs (bl_Path l).
Proof.
  assert (H : ∀ scheme port, validateNetwork l scheme port = Ok tt → ∃ segs, canonical_path segs (bl_Path l)).
  { intros scheme port. unfold validateNetwork. rewrite ok_fail_if. intros [_ H]. destruct (url_Parse _); [|done].
    rewrite !ok_fail_if in H. destruct H as (_ & Hp & _). destruct (canonicalBrowserPath (bl_Path l)) as [path|] eqn:E; [|done].
    to_prop. subst path. by eapply canonicalBrowserPath_form. }
  unfold BrowserLocation_Validate. destruct (bl_Scheme l ==? "http"); apply H.
Qed.

(** The rule a policy selects for a location. *)
Definition governs (p : BrowserPolicy) (l : BrowserLocation) (selected : option BrowserPolicyRule) : Prop :=
  match selected with
  | None => ∀ r, r ∈ bp_Rules p → ¬ covers r l
  | Some r => r ∈ bp_Rules p ∧ covers r l ∧ ∀ r', r' ∈ bp_Rules p → covers r' l → r' = r ∨ specificity r r' = Lt
  end.

Lemma matchLocation_governs p l segs : valid_policy p → canonical_path segs (bl_Path l) → governs p l (matchLocation p l).
Proof.
  intros Hp Hl. unfold matchLocation, governs. destruct (bp_Enabled p) eqn:E; cbn [negb].
  2: { intros r. rewrite (proj1 (vp_disabled p Hp E)). by intros []%elem_of_nil. }
  pose proof (vp_rules p Hp) as Hv. pose proof (select_rule_spec l (bp_Rules p) None Hv ltac:(done)) as Hs.
  assert (Hm : ∀ r, r ∈ bp_Rules p → rule_matches l r = true ↔ covers r l).
  { intros r Hr. rewrite Forall_forall in Hv. eapply rule_matches_spec; eauto. }
  destruct (select_rule l None (bp_Rules p)) as [r|].
  - destruct Hs as [[|[Hr Hrm]] Hbest]; [done|]. split_and!; [done|by apply Hm|]. intros r' Hr' Hc.
    specialize (Hbest r'). destruct (specificity r r') eqn:Es; [|by right|].
    + left. symmetry. eapply valid_policy_ids; eauto using specificity_eq.
    + exfalso. apply Hbest; [right; split; [done|by apply Hm]|done].
  - destruct Hs as [_ Hs]. intros r Hr Hc%Hm; [|done]. rewrite Forall_forall in Hs. specialize (Hs r Hr). congruence.
Qed.

Lemma governs_unique p l s s' : valid_policy p → governs p l s → governs p l s' → s = s'.
Proof.
  intros Hp. destruct s as [r|], s' as [r'|]; cbn; [|naive_solver..].
  intros (Hr & Hc & Hb) (Hr' & Hc' & Hb'). destruct (Hb r' Hr' Hc') as [->|H1]; [done|].
  destruct (Hb' r Hr Hc) as [->|H2]; [done|]. unfold specificity in *. rewrite order_opp, H1 in H2. done.
Qed.

(** C23. A validated policy decides every valid location, and the decision is the declared one:
    the location is covered by a rule exactly when some rule has its scheme and port, its host
    or a parent domain of it, and a path whose segments begin the location's; among the rules
    that cover it the one selected is strictly the most specific (longest path, exact host
    before subdomains, longest host, smallest identity), so it is the only answer that fits. *)
Theorem browser_match_most_specific (p : BrowserPolicy) (l : BrowserLocation) :
  BrowserPolicy_Validate p = Ok tt → BrowserLocation_Validate l = Ok tt →
  ∃ selected, MatchLocation p l = Ok selected ∧ governs p l selected ∧ ∀ other, governs p l other → other = selected.
Proof.
  intros Hp Hl. exists (matchLocation p l). unfold MatchLocation. rewrite Hp, Hl. cbn [mbind result_bind].
  apply Validate_policy in Hp. apply location_path in Hl as (segs & Hs).
  pose proof (matchLocation_governs p l segs Hp Hs) as Hg. split_and!; [done..|]. intros other Ho. by eapply governs_unique.
Qed.

Definition demo_rule (id origin path match_ : string) (http : bool) : BrowserPolicyRule :=
  mkBrowserPolicyRule id origin path match_ false "record" http.
Definition demo_rules : list BrowserPolicyRule :=
  [demo_rule "docs" "HTTPS://Docs.Example.test:443" "/guide/" "exact_and_subdomains" false;
   demo_rule "api" "https://docs.example.test" "/guide/api" "exact" false;
   demo_rule "lab" "http://lab.example.test:80" "/" "exact" true].
Definition demo_policy : BrowserPolicy := ok_or DisabledBrowserPolicy (NewBrowserPolicy true "docs" demo_rules).
Example demo_match :
  map (λ u, match Match demo_policy u with
            | Ok (selected, location) => Some (option_map RuleID selected, bl_Path location)
            | Err _ => None
            end)
    ["https://v2.docs.example.test/guide/../guide/api/x?q"; "https://docs.example.test/guide/api/x"; "https://docs.example.test/guidebook";
     "http://lab.example.test/a"; "http://docs.example.test/guide"] =
  [Some (Some "docs", "/guide/api/x"); Some (Some "api", "/guide/api/x"); Some (None, "/guidebook");
   Some (Some "lab", "/a"); Some (None, "/guide")].
Proof. vm_compute. reflexivity. Qed.
Lemma browser_match_most_specific_witness :
  ∃ selected, MatchLocation demo_policy (mkBrowserLocation "https" "docs.example.test" "" "/guide/api/x") = Ok selected ∧
    governs demo_policy (mkBrowserLocation "https" "docs.example.test" "" "/guide/api/x") selected.
Proof.
  destruct (browser_match_most_specific demo_policy (mkBrowserLocation "https" "docs.example.test" "" "/guide/api/x"))
    as (selected & H1 & H2 & _); [vm_compute; reflexivity..|].
  exists selected. exact (conj H1 H2).
Defined.

(** *** Authoring *)

(** A rule with its origin and path in canonical spelling. *)
Definition canonical_rule (rule out : BrowserPolicyRule) : Prop :=
  ∃ origin prefix, canonicalizeBrowserPolicyRuleOrigin (Origin rule) (InstitutionHTTPException rule) = Ok origin ∧
    CanonicalizeBrowserPolicyPath (PathPrefix rule) = Ok prefix ∧ out = rule <| Origin := origin |> <| PathPrefix := prefix |>.

Lemma canonical_rules_spec index rules outs : canonical_rules index rules = Ok outs ↔ Forall2 canonical_rule rules outs.
Proof.
  revert index outs. induction rules as [|r rules IH]; intros index outs; cbn [canonical_rules].
  { split; [by intros [= <-]|by intros ->%Forall2_nil_inv_l]. }
  split.
  - destruct (canonicalizeBrowserPolicyRuleOrigin _ _) as [origin|] eqn:Eo; [|done].
    destruct (CanonicalizeBrowserPolicyPath _) as [prefix|] eqn:Ep; [|done]. rewrite ok_bind.
    intros (rest & Hrest%IH & [= <-]%ok_inj). constructor; [by exists origin, prefix|done].
  - intros (out & outs' & (origin & prefix & -> & -> & ->) & Hr & ->)%Forall2_cons_inv_l.
    rewrite (proj2 (IH (index + 1) outs') Hr). done.
Qed.
Lemma valid_rule_canonical r : valid_rule r → canonical_rule r r.
Proof.
  intros Hr. destruct (vr_origin r Hr) as (host & port & Ho). destruct (vr_path r Hr) as (segs & Hp).
  exists (Origin r), (PathPrefix r). rewrite (canonical_origin_fixed _ _ _ _ Ho), (policy_path_fixed _ _ Hp). by destruct r.
Qed.

Lemma Forall2_reorder {A B} (R : A → B → Prop) l k l' :
  Forall2 R l k → l' ≡ₚ l → ∃ k', Forall2 R l' k' ∧ k' ≡ₚ k.
Proof.
  intros HR Hp. symmetry in Hp. revert k HR. induction Hp as [|x l l' _ IH|x y l|l l' l'' _ IH1 _ IH2]; intros k HR.
  - by exists k.
  - apply Forall2_cons_inv_l in HR as (z & k0 & Hz & Hk & ->). destruct (IH k0 Hk) as (k' & ? & ?).
    exists (z :: k'). split; [by constructor|by constructor].
  - apply Forall2_cons_inv_l in HR as (z & k0 & Hz & Hk & ->). apply Forall2_cons_inv_l in Hk as (w & k1 & Hw & Hk & ->).
    exists (w :: z :: k1). split; [by repeat constructor|by constructor].
  - destruct (IH1 k HR) as (k1 & H1 & E1). destruct (IH2 k1 H1) as (k2 & H2 & E2). exists k2. split; [done|by rewrite E2].
Qed.

#[export] Instance rule_le_trans : Transitive rule_le.
Proof. intros a b c. unfold rule_le. apply not_Gt_trans. apply _. Qed.
#[export] Instance rule_le_total : Total rule_le.
Proof. intros a b. unfold rule_le. rewrite (order_opp (cmp := Compare) (RuleID a)). destruct (Compare _ _); cbn; first [by left|by right]. Qed.

Lemma sorted_rules_unique rules p : valid_policy p → rules ≡ₚ bp_Rules p → merge_sort rule_le rules = bp_Rules p.
Proof.
  intros Hp Hperm. pose proof (merge_sort_Permutation rule_le rules) as Hm.
  apply (StronglySorted_unique_strong rule_le).
  - intros a b Ha Hb H1 H2. eapply valid_policy_ids; [done|by rewrite Hm, Hperm in Ha|done|].
    apply Compare_eq. unfold rule_le in *. rewrite (order_opp (cmp := Compare) (RuleID a)) in H2. by destruct (Compare _ _).
  - apply StronglySorted_merge_sort; apply _.
  - generalize (vp_sorted p Hp). clear. induction 1 as [|a l _ IH Ha]; [constructor|]. constructor; [done|].
    eapply Forall_impl; [exact Ha|]. unfold id_lt, rule_le. intros b ->. done.
  - by rewrite Hm.
Qed.

Lemma NewBrowserPolicy_ok enabled start rules p : NewBrowserPolicy enabled start rules = Ok p →
  BrowserPolicy_Validate p = Ok tt ∧ bp_Enabled p = enabled ∧ bp_StartRuleID p = start ∧
  ∃ outs, Forall2 canonical_rule rules outs ∧ outs ≡ₚ bp_Rules p.
Proof.
  unfold NewBrowserPolicy. rewrite ok_fail_if, !ok_bind. intros (Hg & outs & Ho%canonical_rules_spec & H).
  cbv zeta in H. apply ok_bind in H as ([] & Hv & [= <-]%ok_inj). to_prop. destruct Hg as [_ Hg].
  assert (Hrules : (if enabled then rules else []) = rules ∧ (if enabled then start else "") = start).
  { destruct enabled; [done|]. cbn in Hg. destruct Hg as [?|[Hs Hl]]; [done|]. to_prop. by destruct rules. }
  destruct Hrules as [Er Es]. rewrite Er in Ho. split_and!; [done..|]. exists outs. split; [done|]. cbn.
  by rewrite merge_sort_Permutation.
Qed.

(** What [NewBrowserPolicy] returns is canonical: it validates, it holds exactly the
    authored rules with their origins and paths in canonical spelling, it does not depend on
    the order in which they were authored, and building a policy from its own rules gives it
    back. *)
Theorem browser_policy_canonical (enabled : bool) (start : string) (rules : list BrowserPolicyRule) (p : BrowserPolicy) :
  NewBrowserPolicy enabled start rules = Ok p →
  BrowserPolicy_Validate p = Ok tt ∧
  (∃ outs, Forall2 canonical_rule rules outs ∧ outs ≡ₚ bp_Rules p) ∧
  (∀ rules', rules' ≡ₚ rules → NewBrowserPolicy enabled start rules' = Ok p) ∧
  NewBrowserPolicy (bp_Enabled p) (bp_StartRuleID p) (bp_Rules p) = Ok p.
Proof.
  intros Hnew. pose proof (NewBrowserPolicy_ok _ _ _ _ Hnew) as (Hv & <- & <- & outs & Ho & Hperm).
  pose proof (Validate_policy p Hv) as Hp.
  assert (Hbuild : ∀ rules' outs', Forall2 canonical_rule rules' outs' → outs' ≡ₚ bp_Rules p →
    NewBrowserPolicy (bp_Enabled p) (bp_StartRuleID p) rules' = Ok p).
  { intros rules' outs' Ho' Hp'. assert (Hlen : length rules' = length (bp_Rules p)).
    { by rewrite (Forall2_length _ _ _ Ho'), Hp'. }
    unfold NewBrowserPolicy in *. rewrite ok_fail_if in Hnew |- *. destruct Hnew as [Hg _].
    rewrite (Forall2_length _ _ _ Ho), Hperm in Hg. rewrite Hlen. split; [done|].
    assert (Hin : (if bp_Enabled p then rules' else []) = rules').
    { destruct (bp_Enabled p) eqn:E; [done|]. rewrite (proj1 (vp_disabled p Hp E)) in Hlen. by destruct rules'. }
    rewrite Hin, (proj2 (canonical_rules_spec 0 rules' outs') Ho'). cbn [mbind result_bind].
    rewrite (sorted_rules_unique outs' p Hp Hp').
    assert (mkBrowserPolicy (bp_Enabled p) (if bp_Enabled p then bp_StartRuleID p else "") (bp_Rules p) = p) as ->.
    { destruct (bp_Enabled p) eqn:E; [|destruct (vp_disabled p Hp E) as [? Hs]; rewrite <-Hs at 1]; rewrite <-E at 1; by destruct p. }
    by rewrite Hv. }
  split_and!; [done|by exists outs| |].
  - intros rules' Hr. destruct (Forall2_reorder _ _ _ _ Ho Hr) as (outs' & Ho' & Hp'). eapply Hbuild; [done|]. by rewrite Hp'.
  - apply (Hbuild _ (bp_Rules p)); [|done]. apply Forall2_same_length_lookup. split; [done|]. intros i x y Hx Hy.
    rewrite Hx in Hy. injection Hy as <-. apply valid_rule_canonical. eapply (Forall_lookup_1 _ _ _ _ (vp_rules p Hp)), Hx.
Qed.
Lemma browser_policy_canonical_witness :
  NewBrowserPolicy true "docs" demo_rules = Ok demo_policy ∧
  NewBrowserPolicy true "docs" (rev demo_rules) = Ok demo_policy ∧ map RuleID (bp_Rules demo_policy) = ["api"; "docs"; "lab"].
Proof.
  assert (H : NewBrowserPolicy true "docs" demo_rules = Ok demo_policy) by (vm_compute; reflexivity).
  destruct (browser_policy_canonical true "docs" demo_rules demo_policy H) as (_ & _ & Hperm & _).
  split; [exact H|]. split; [apply Hperm; symmetry; apply Permutation_rev|vm_compute; reflexivity].
Defined.

(** *** The encoding *)

Lemma validRuleID_ascii s : validBrowserPolicyRuleID s = true → ascii_bytes (bytes s).
Proof.
  unfold validBrowserPolicyRuleID. destruct (_ || _); [done|]. rewrite all_bytes_spec. intros H. apply Forall_forall.
  intros c Hc%H. unfold rule_id_byte, in_range in Hc. to_prop. lia.
Qed.
Lemma word_ascii s : forallb (in_range 0 127) (bytes s) = true → ascii_bytes (bytes s).
Proof.
  rewrite forallb_forall. intros H. apply Forall_forall. intros c Hc%list_elem_of_In%H. unfold in_range in Hc. to_prop. lia.
Qed.
Lemma text_value n s : ascii_bytes (bytes s) → ascii_value n (json_text s).
Proof. by destruct n. Qed.
Lemma bool_value n b : ascii_value n (JBool b).
Proof. by destruct n. Qed.
(** An object with the given distinct names. *)
Lemma object_value n (l : list (string * jval)) :
  bool_decide (NoDup (map bytes l.*1)) && forallb (λ kv, forallb (in_range 0 127) (bytes kv.1)) l = true →
  Forall (ascii_value n) l.*2 → ascii_value (S n) (JObject (map (λ kv, member kv.1 kv.2) l)).
Proof.
  rewrite andb_true_iff, bool_decide_eq_true, forallb_forall. intros [Hd Hk] Hv. split.
  - assert ((map (λ kv, member kv.1 kv.2) l).*1 = map bytes l.*1) as -> by (rewrite <-!list_fmap_compose; done). done.
  - rewrite Forall_fmap in Hv. apply Forall_fmap. rewrite Forall_forall in *. intros [k v] Hin. cbn. split.
    + by apply word_ascii, (Hk (k, v)), list_elem_of_In.
    + apply (Hv (k, v) Hin).
Qed.

Lemma rule_wire_ascii n r : valid_rule r → ascii_value (S n) (browserPolicyRuleWire r).
Proof.
  intros Hr. destruct (vr_origin r Hr) as (host & port & Ho). destruct (vr_path r Hr) as (segs & Hp & _).
  assert (Horigin : ascii_bytes (bytes (Origin r))).
  { apply Forall_forall. intros c Hc. destruct (canonical_origin_bytes _ _ _ _ _ Ho Hc). lia. }
  assert (Hpath : ascii_bytes (bytes (PathPrefix r))).
  { apply Forall_forall. intros c Hc. destruct (canonical_path_bytes _ _ _ Hp Hc) as [Hc' _]. apply plain_range in Hc'. lia. }
  apply (object_value n [("rule_id", json_text (RuleID r)); ("origin", json_text (Origin r));
    ("path_prefix", json_text (PathPrefix r)); ("host_match", json_text (HostMatch r)); ("allow_redirects", JBool (AllowRedirects r));
    ("blocked_navigation_outcome", json_text (BlockedNavigationOutcome r));
    ("institution_http_exception", JBool (InstitutionHTTPException r))]); [by vm_compute|].
  repeat apply Forall_cons_2; try apply bool_value; try apply text_value; try done; try apply Forall_nil_2.
  - by apply validRuleID_ascii, vr_id.
  - apply word_ascii. by destruct (vr_match r Hr) as [->| ->].
  - apply word_ascii. by destruct (vr_outcome r Hr) as [->| ->].
Qed.
Lemma policy_wire_value n p : valid_policy p → ascii_value (S (S (S n))) (browserPolicyWire p).
Proof.
  intros Hp. unfold browserPolicyWire. destruct (bp_Enabled p) eqn:E.
  - apply (object_value _ [("enabled", JBool true); ("start_rule_id", json_text (bp_StartRuleID p));
      ("rules", JArray (map browserPolicyRuleWire (bp_Rules p)))]); [by vm_compute|].
    repeat apply Forall_cons_2; [apply bool_value|apply text_value, validRuleID_ascii, vp_start; done| |apply Forall_nil_2].
    cbn [fst snd ascii_value]. apply Forall_fmap. eapply Forall_impl; [apply (vp_rules p Hp)|]. apply rule_wire_ascii.
  - apply (object_value _ [("enabled", JBool false)]); [by vm_compute|]. constructor; [apply bool_value|constructor].
Qed.
Lemma policy_wire_ascii p : valid_policy p → ascii_value MaxDepth (browserPolicyWire p).
Proof. apply (policy_wire_value 61). Qed.

(** The documents with their members in key order. *)
Definition sorted_rule (r : BrowserPolicyRule) : jval :=
  JObject [member "allow_redirects" (JBool (AllowRedirects r));
           member "blocked_navigation_outcome" (json_text (BlockedNavigationOutcome r));
           member "host_match" (json_text (HostMatch r)); member "institution_http_exception" (JBool (InstitutionHTTPException r));
           member "origin" (json_text (Origin r)); member "path_prefix" (json_text (PathPrefix r));
           member "rule_id" (json_text (RuleID r))].
Definition sorted_policy (p : BrowserPolicy) : jval :=
  if bp_Enabled p then
    JObject [member "enabled" (JBool true); member "rules" (JArray (map sorted_rule (bp_Rules p)));
             member "start_rule_id" (json_text (bp_StartRuleID p))]
  else JObject [member "enabled" (JBool false)].
Lemma sort_keys_policy p : sort_keys (browserPolicyWire p) = sorted_policy p.
Proof.
  unfold browserPolicyWire, sorted_policy. destruct (bp_Enabled p); [|by vm_compute].
  cbn [sort_keys map fst snd member json_text]. rewrite map_map.
  assert (Hr : ∀ r, sort_keys (browserPolicyRuleWire r) = sorted_rule r) by (intros r; reflexivity).
  rewrite (map_ext _ _ Hr). reflexivity.
Qed.
#[export] Instance sorted_rule_inj : Inj (=) (=) sorted_rule.
Proof. intros [] []. unfold sorted_rule, json_text. cbn. intros [=]. by repeat f_equal; try apply bytes_inj. Qed.
Lemma sorted_policy_inj p q : valid_policy p → valid_policy q → sorted_policy p = sorted_policy q → p = q.
Proof.
  intros Hp Hq. unfold sorted_policy. destruct (bp_Enabled p) eqn:Ep, (bp_Enabled q) eqn:Eq; try done.
  - unfold json_text, member. intros [= Hr Hs%bytes_inj].
    assert (Hrules : bp_Rules p = bp_Rules q) by (apply (inj (fmap (M := list) sorted_rule)), Hr).
    destruct p, q; cbn in *; congruence.
  - intros _. destruct (vp_disabled p Hp Ep) as [? ?], (vp_disabled q Hq Eq) as [? ?]. destruct p, q; cbn in *; congruence.
Qed.

(** C24. The encoding that is digested and delivered is a faithful copy: every validated policy
    has one, of at most 32 KiB, the encoding is itself canonical JSON, and two validated
    policies with the same encoding are the same policy. *)
Theorem browser_policy_encoding_faithful (p q : BrowserPolicy) :
  BrowserPolicy_Validate p = Ok tt → BrowserPolicy_Validate q = Ok tt →
  ∃ encoded, EncodeBrowserPolicy p = Ok encoded ∧ len encoded ≤ BrowserPolicyMaximumBytes ∧
    Canonicalize encoded (len encoded) = Ok encoded ∧ (EncodeBrowserPolicy q = Ok encoded → q = p).
Proof.
  intros Hp%Validate_policy Hq%Validate_policy. destruct (vp_size p Hp) as (encoded & He). exists encoded.
  assert (Hopen : ∀ x, EncodeBrowserPolicy x = Ok encoded →
    encodeCanonicalExamDocument (browserPolicyWire x) = Ok encoded ∧ len encoded ≤ BrowserPolicyMaximumBytes).
  { intros x. unfold EncodeBrowserPolicy. rewrite ok_fail_if. intros [_ H].
    destruct (encodeCanonicalExamDocument _) as [out|]; [|done]. apply ok_fail_if in H as [Hl [= ->]%ok_inj]. to_prop. by split. }
  destruct (Hopen p He) as [Hcp Hl]. split_and!; [done..| |].
  - pose proof (policy_wire_ascii p Hp) as Ha. rewrite encode_canonical in Hcp by done. injection Hcp as <-.
    pose proof (sort_keys_wf _ _ (ascii_value_wf _ _ Ha)) as [Hw Hi]. rewrite len_bytes.
    rewrite bytes_string_of_bytes by (by apply print_denotes). by apply Canonicalize_print.
  - intros He'. destruct (Hopen q He') as [Hcq _].
    pose proof (encode_canonical_inj _ _ _ (policy_wire_ascii q Hq) (policy_wire_ascii p Hp) Hcq Hcp) as E.
    rewrite !sort_keys_policy in E. by apply sorted_policy_inj.
Qed.
Lemma browser_policy_encoding_faithful_witness :
  ∃ encoded, EncodeBrowserPolicy demo_policy = Ok encoded ∧ len encoded ≤ BrowserPolicyMaximumBytes ∧
    (EncodeBrowserPolicy DisabledBrowserPolicy = Ok encoded → DisabledBrowserPolicy = demo_policy).
Proof.
  destruct (browser_policy_encoding_faithful demo_policy DisabledBrowserPolicy) as (encoded & H1 & H2 & _ & H4);
    [vm_compute; reflexivity..|].
  exists encoded. exact (conj H1 (conj H2 H4)).
Defined.

(** *** The installation's origin *)

Lemma parsed_origin ex host port origin : canonical_origin ex host port origin →
  canonicalBrowserHostPortWithDefault (parsed_url origin) (default_port_of ex) = Ok (host, port).
Proof.
  intros Ho. unfold parsed_url. rewrite (url_Parse_origin _ _ _ _ Ho). destruct Ho as (? & ? & _). by apply canonicalHostPort_fixed.
Qed.
Lemma check_exceptions_pinned origin rules r :
  check_exceptions origin rules = Ok tt → r ∈ rules → InstitutionHTTPException r = true →
  ∃ pin host port, CanonicalizeBrowserPolicyOrigin origin = Ok pin ∧ canonical_origin false host port pin ∧
    canonicalBrowserHostPortWithDefault (parsed_url (Origin r)) "80" = Ok (host, port).
Proof.
  intros H Hin He. induction rules as [|x rules IH]; [by apply elem_of_nil in Hin|]. cbn [check_exceptions] in H.
  apply elem_of_cons in Hin as [<-|Hin].
  2: { apply IH; [|done]. destruct (negb (InstitutionHTTPException x)); [done|].
       destruct (CanonicalizeBrowserPolicyOrigin origin); [|done]. rewrite ok_bind in H. destruct H as ([? ?] & _ & H).
       rewrite ok_bind in H. destruct H as ([? ?] & _ & H). by apply ok_fail_if in H as [_ H]. }
  rewrite He in H. cbn [negb] in H. destruct (CanonicalizeBrowserPolicyOrigin origin) as [pin|] eqn:Ep; [|done].
  pose proof Ep as Hc. unfold CanonicalizeBrowserPolicyOrigin in Hc. apply canonicalizeOrigin_form in Hc as (host & port & Ho).
  exists pin, host, port. split_and!; [done..|]. rewrite ok_bind in H. destruct H as ([h q] & Hh & H).
  pose proof (parsed_origin _ _ _ _ Ho) as Hr. cbn [default_port_of] in Hr. rewrite Hr in Hh. injection Hh as <- <-.
  rewrite ok_bind in H. destruct H as ([h' q'] & -> & H). apply ok_fail_if in H as [Hg _]. to_prop. by destruct Hg as [-> ->].
Qed.

(** C25. Plain HTTP stays within the installation: when a policy passes the check against the
    pinned institution origin, every HTTP location it allows is on the pinned host (or below
    it, where the rule includes subdomains) and on the pinned port. *)
Theorem browser_http_confined (p : BrowserPolicy) (origin : string) (l : BrowserLocation) (r : BrowserPolicyRule) :
  ValidateInstitutionOrigin p origin = Ok tt → MatchLocation p l = Ok (Some r) → bl_Scheme l = "http" →
  ∃ pin host port, CanonicalizeBrowserPolicyOrigin origin = Ok pin ∧ canonical_origin false host port pin ∧
    bl_Port l = port ∧ labels host `suffix_of` labels (bl_Host l) ∧
    (HostMatch r = BrowserPolicyHostExact → bl_Host l = host).
Proof.
  unfold ValidateInstitutionOrigin, MatchLocation. rewrite !ok_bind. intros ([] & Hv & Hx) ([] & _ & H) Hs.
  rewrite ok_bind in H. destruct H as ([] & (segs & Hl)%location_path & [= Hm]%ok_inj).
  pose proof (Validate_policy p Hv) as Hp. pose proof (matchLocation_governs p l segs Hp Hl) as Hg. rewrite Hm in Hg.
  destruct Hg as (Hr & (host & port & Ho & Hsc & Hport & Hhost & _) & _).
  assert (He : InstitutionHTTPException r = true).
  { rewrite Hs in Hsc. by destruct (InstitutionHTTPException r). }
  destruct (check_exceptions_pinned _ _ _ Hx Hr He) as (pin & host' & port' & Hpin & Hcan & Hread).
  rewrite He in Ho. apply parsed_origin in Ho. cbn [default_port_of] in Ho. rewrite Hread in Ho. injection Ho as -> ->.
  exists pin, host, port. split_and!; [done..| |].
  - destruct Hhost as [->|[_ ?]]; done.
  - intros E. destruct Hhost as [?|[E' _]]; [done|]. rewrite E in E'. done.
Qed.
Lemma browser_http_confined_witness :
  ∃ pin host port, CanonicalizeBrowserPolicyOrigin "https://LAB.example.test" = Ok pin ∧ canonical_origin false host port pin ∧
    "" = port ∧ labels host `suffix_of` labels "lab.example.test".
Proof.
  destruct (browser_http_confined demo_policy "https://LAB.example.test" (mkBrowserLocation "http" "lab.example.test" "" "/a")
    (demo_rule "lab" "http://lab.example.test" "/" "exact" true)) as (pin & host & port & H1 & H2 & H3 & H4 & _);
    [vm_compute; reflexivity..|].
  exists pin, host, port. exact (conj H1 (conj H2 (conj H3 H4))).
Defined.
