(* ===== verification/Review.v ===== *)
(** * Submission Reviews

    Models [server/model/exam_review.go]: integrity discrepancies, the manager's decision on
    each Integrity Flag, the revision-fenced Review of a sealed Submission with its
    finalization and release, the projection a candidate sees, and the digests that freeze what
    was reviewed. *)

From S2P Require Import Prelude GoTime GoStrings Ident ModelError Sha256 Delivery DeliveryBudget Submission FocusLoss.

Definition IntegrityReviewPrivateRationaleMaximumRunes : Z := 1000.
Definition IntegrityReviewPrivateRationaleMaximumBytes : Z := 4000.
Definition SubmissionReviewPrivateNotesMaximumRunes : Z := 3000.
Definition SubmissionReviewPrivateNotesMaximumBytes : Z := 12000.
Definition SubmissionReviewStudentRemarksMaximumRunes : Z := 8192.
Definition SubmissionReviewStudentRemarksMaximumBytes : Z := 32768.
Definition SubmissionReviewMaximumFlags : Z := 456.
Definition SubmissionReviewMaximumEvidence : Z := 30000.
Definition SubmissionReviewMaximumDiscrepancies : Z := 200.

Definition validBoundedReviewText (value : string) (minimumRunes maximumRunes maximumBytes : Z) : bool :=
  if negb (ValidString value) || (value !=? TrimSpace value) || (maximumBytes <? len value) then false
  else let runes := RuneCountInString value in (minimumRunes <=? runes) && (runes <=? maximumRunes).

(** ** Discrepancies *)

Inductive IntegrityDiscrepancyKind :=
  | IntegrityDiscrepancyLateFocusLoss
  | IntegrityDiscrepancyFocusLossGap
  | IntegrityDiscrepancyBrowserActivityGap
  | IntegrityDiscrepancyCorrectionAcknowledgementMissing
  | IntegrityDiscrepancyKind_other (raw : string).

Definition FocusLossGapReason_IsValid (r : string) : bool :=
  (r ==? "sequence_gap") || (r ==? "source_not_finalized") || (r ==? "sequence_gap_and_source_not_finalized").
Definition SubmissionGapReason_IsClientReason (r : string) : bool :=
  (r ==? "spool_overflow") || (r ==? "spool_corrupt") || (r ==? "spool_key_unavailable") || (r ==? "delivery_incomplete").
Definition SubmissionGapReason_IsValid (r : string) : bool :=
  SubmissionGapReason_IsClientReason r || (r ==? "source_not_finalized").
Definition BrowserActivityGapReason_IsValid (r : string) : bool :=
  (r ==? "prior_source_gap") || SubmissionGapReason_IsValid r.

(** The version 4 UUID of [browserSourceSessionPattern], by position. *)
Definition session_byte (i : nat) (c : Z) : bool :=
  if existsb (Nat.eqb i) [8; 13; 18; 23]%nat then c =? 45
  else if Nat.eqb i 14 then c =? 52
  else if Nat.eqb i 19 then existsb (Z.eqb c) (bytes "89ab")
  else lower_hex c.
Definition BrowserSourceSessionID_IsValid (id : string) : bool :=
  (len id =? 36) && forallb (λ b : bool, b) (imap session_byte (bytes id)).

Record IntegrityDiscrepancy := mkIntegrityDiscrepancy {
  di_ID : ID;
  di_SubmissionID : ID;
  di_AttemptID : ID;
  di_ParticipationID : ID;
  di_Generation : Z;
  di_Kind : IntegrityDiscrepancyKind;
  di_SignalID : ID;
  di_Sequence : Z;
  di_DurationMilliseconds : Z;
  di_Source : FocusLossSource;
  di_MissingBefore : Z;
  di_CorrectionRevisionID : ID;
  di_BrowserSourceSessionID : string;
  di_FinalSequence : option Z;
  di_GapReason : string;
  di_UnresolvedCount : Z;
  di_ReceivedAt : Time }.
#[export] Instance IntegrityDiscrepancy_eta : Eta IntegrityDiscrepancy := λ v, mkIntegrityDiscrepancy (di_ID v)
  (di_SubmissionID v) (di_AttemptID v) (di_ParticipationID v) (di_Generation v) (di_Kind v) (di_SignalID v) (di_Sequence v)
  (di_DurationMilliseconds v) (di_Source v) (di_MissingBefore v) (di_CorrectionRevisionID v) (di_BrowserSourceSessionID v)
  (di_FinalSequence v) (di_GapReason v) (di_UnresolvedCount v) (di_ReceivedAt v).

Definition discrepancy_error (reason : string) : error := invalidModelError "integrity_discrepancy" "" reason "".
Definition IntegrityDiscrepancy_Validate (p : option IntegrityDiscrepancy) : result unit :=
  match p with
  | None => Err (discrepancy_error "invalid Integrity Discrepancy")
  | Some v =>
      fail_if negb (ID_IsValid (di_ID v)) || negb (ID_IsValid (di_SubmissionID v)) || negb (ID_IsValid (di_AttemptID v))
              || negb (ID_IsValid (di_ParticipationID v)) || (di_Generation v <? 1) || Time_IsZero (di_ReceivedAt v)
        with discrepancy_error "invalid Integrity Discrepancy" ;;
      match di_Kind v with
      | IntegrityDiscrepancyLateFocusLoss =>
          fail_if negb (ID_IsValid (di_SignalID v)) || (di_Sequence v <? 1) || (di_DurationMilliseconds v <? 1)
                  || (FocusLossMaximumDurationMilliseconds <? di_DurationMilliseconds v)
                  || negb (FocusLossSource_IsValid (di_Source v)) || (di_MissingBefore v <? 0)
                  || (di_CorrectionRevisionID v !=? "") || (di_BrowserSourceSessionID v !=? "")
                  || bool_decide (is_Some (di_FinalSequence v)) || (di_GapReason v !=? "") || negb (di_UnresolvedCount v =? 0)
            with discrepancy_error "invalid late Focus Loss Integrity Discrepancy" ;;
          Ok tt
      | IntegrityDiscrepancyFocusLossGap =>
          fail_if (di_SignalID v !=? "") || negb (di_Sequence v =? 0) || negb (di_DurationMilliseconds v =? 0)
                  || (di_Source v !=? FocusLossSourceNone) || negb (di_MissingBefore v =? 0)
                  || (di_CorrectionRevisionID v !=? "") || (di_BrowserSourceSessionID v !=? "")
                  || bool_decide (is_Some (di_FinalSequence v)) || negb (FocusLossGapReason_IsValid (di_GapReason v))
                  || (di_UnresolvedCount v <? 1)
            with discrepancy_error "invalid Focus Loss gap Integrity Discrepancy" ;;
          Ok tt
      | IntegrityDiscrepancyBrowserActivityGap =>
          fail_if (di_SignalID v !=? "") || negb (di_Sequence v =? 0) || negb (di_DurationMilliseconds v =? 0)
                  || (di_Source v !=? FocusLossSourceNone) || negb (di_MissingBefore v =? 0)
                  || (di_CorrectionRevisionID v !=? "") || negb (BrowserSourceSessionID_IsValid (di_BrowserSourceSessionID v))
                  || match di_FinalSequence v with Some sequence => sequence <? 1 | None => false end
                  || negb (BrowserActivityGapReason_IsValid (di_GapReason v)) || (di_UnresolvedCount v <? 1)
            with discrepancy_error "invalid Browser Activity gap Integrity Discrepancy" ;;
          Ok tt
      | IntegrityDiscrepancyCorrectionAcknowledgementMissing =>
          fail_if (di_SignalID v !=? "") || negb (di_Sequence v =? 0) || negb (di_DurationMilliseconds v =? 0)
                  || (di_Source v !=? FocusLossSourceNone) || negb (di_MissingBefore v =? 0)
                  || negb (ID_IsValid (di_CorrectionRevisionID v)) || (di_BrowserSourceSessionID v !=? "")
                  || bool_decide (is_Some (di_FinalSequence v)) || (di_GapReason v !=? "") || negb (di_UnresolvedCount v =? 1)
            with discrepancy_error "invalid correction acknowledgement Integrity Discrepancy" ;;
          Ok tt
      | IntegrityDiscrepancyKind_other _ => Err (discrepancy_error "invalid Integrity Discrepancy kind")
      end
  end.
Definition NewIntegrityDiscrepancy (specification : IntegrityDiscrepancy) : result IntegrityDiscrepancy :=
  let value := specification <| di_ReceivedAt := TimeUTC (di_ReceivedAt specification) |> in
  _ ← IntegrityDiscrepancy_Validate (Some value);
  Ok value.

(** ** Decisions *)

Inductive IntegrityReviewOutcome :=
  | IntegrityReviewConfirmed
  | IntegrityReviewDismissed
  | IntegrityReviewInconclusive
  | IntegrityReviewOutcome_other (raw : string).
Definition IntegrityReviewOutcome_IsValid (o : IntegrityReviewOutcome) : bool :=
  match o with IntegrityReviewOutcome_other _ => false | _ => true end.

Record IntegrityReviewDecision := mkIntegrityReviewDecision {
  de_InventoryStale : bool;
  de_ID : ID;
  de_ReviewID : ID;
  de_FlagID : ID;
  de_Outcome : IntegrityReviewOutcome;
  de_Revision : Z;
  de_ActorUserID : ID;
  de_PrivateRationale : string;
  de_DecidedAt : Time }.
#[export] Instance IntegrityReviewDecision_eta : Eta IntegrityReviewDecision := λ d, mkIntegrityReviewDecision
  (de_InventoryStale d) (de_ID d) (de_ReviewID d) (de_FlagID d) (de_Outcome d) (de_Revision d) (de_ActorUserID d)
  (de_PrivateRationale d) (de_DecidedAt d).

Definition decision_error (reason : string) : error := invalidModelError "integrity_review_decision" "" reason "".
Definition IntegrityReviewDecision_Validate (p : option IntegrityReviewDecision) : result unit :=
  fail_if match p with
          | None => true
          | Some d =>
              negb (ID_IsValid (de_ID d)) || negb (ID_IsValid (de_ReviewID d)) || negb (ID_IsValid (de_FlagID d))
              || negb (IntegrityReviewOutcome_IsValid (de_Outcome d)) || (de_Revision d <? 1)
              || negb (ID_IsValid (de_ActorUserID d)) || Time_IsZero (de_DecidedAt d)
              || negb (validBoundedReviewText (de_PrivateRationale d) 1 IntegrityReviewPrivateRationaleMaximumRunes
                         IntegrityReviewPrivateRationaleMaximumBytes)
          end with decision_error "invalid Integrity Review decision" ;;
  Ok tt.
Definition NewIntegrityReviewDecision (id reviewID flagID : ID) (outcome : IntegrityReviewOutcome) (actorID : ID)
    (rationale : string) (at_ : Time) : result IntegrityReviewDecision :=
  let decision := mkIntegrityReviewDecision false id reviewID flagID outcome 1 actorID rationale (TimeUTC at_) in
  _ ← IntegrityReviewDecision_Validate (Some decision);
  Ok decision.
Definition IntegrityReviewDecision_Revise (expectedRevision : Z) (outcome : IntegrityReviewOutcome) (actorID : ID)
    (rationale : string) (at_ : Time) : Method IntegrityReviewDecision unit :=
  let conflict := decision_error "Integrity Review decision revision conflict" in
  d ← deref conflict;
  fail_if negb (is_ok (IntegrityReviewDecision_Validate (Some d))) || negb (de_Revision d =? expectedRevision) with conflict ;;
  let candidate := d <| de_InventoryStale := false |> <| de_Outcome := outcome |>
                     <| de_Revision := int64_succ (de_Revision d) |> <| de_ActorUserID := actorID |>
                     <| de_PrivateRationale := rationale |> <| de_DecidedAt := TimeUTC at_ |> in
  _ ← try (IntegrityReviewDecision_Validate (Some candidate));
  assign candidate.

(** ** Reviews *)

Inductive SubmissionReviewState :=
  | SubmissionReviewDraft
  | SubmissionReviewFinalized
  | SubmissionReviewState_other (raw : string).
#[export] Instance SubmissionReviewState_eq_dec : EqDecision SubmissionReviewState.
Proof. solve_decision. Defined.
Inductive SubmissionReviewReleaseState :=
  | SubmissionReviewWithheld
  | SubmissionReviewReleased
  | SubmissionReviewReleaseState_other (raw : string).
#[export] Instance SubmissionReviewReleaseState_eq_dec : EqDecision SubmissionReviewReleaseState.
Proof. solve_decision. Defined.

Record SubmissionReview := mkSubmissionReview {
  sr_ID : ID;
  sr_SubmissionID : ID;
  sr_State : SubmissionReviewState;
  sr_ReleaseState : SubmissionReviewReleaseState;
  sr_Revision : Z;
  sr_CreatedByUserID : ID;
  sr_ManagerNotes : string;
  sr_StudentRemarksMarkdown : string;
  sr_FlagCount : Z;
  sr_EvidenceCount : Z;
  sr_DiscrepancyCount : Z;
  sr_EvidenceInventoryDigest : string;
  sr_CreatedAt : Time;
  sr_UpdatedAt : Time;
  sr_FinalizedAt : OptionalTime;
  sr_FinalizedByUserID : ID;
  sr_ReleasedAt : OptionalTime;
  sr_ReleasedByUserID : ID }.
#[export] Instance SubmissionReview_eta : Eta SubmissionReview := λ r, mkSubmissionReview (sr_ID r) (sr_SubmissionID r)
  (sr_State r) (sr_ReleaseState r) (sr_Revision r) (sr_CreatedByUserID r) (sr_ManagerNotes r) (sr_StudentRemarksMarkdown r)
  (sr_FlagCount r) (sr_EvidenceCount r) (sr_DiscrepancyCount r) (sr_EvidenceInventoryDigest r) (sr_CreatedAt r)
  (sr_UpdatedAt r) (sr_FinalizedAt r) (sr_FinalizedByUserID r) (sr_ReleasedAt r) (sr_ReleasedByUserID r).

Definition review_error (reason : string) : error := invalidModelError "submission_review" "" reason "".

Definition review_release_check (r : SubmissionReview) : result unit :=
  match sr_ReleaseState r with
  | SubmissionReviewWithheld =>
      fail_if ot_Valid (sr_ReleasedAt r) || negb (ID_IsZero (sr_ReleasedByUserID r))
        with review_error "withheld Submission Review has release metadata" ;;
      Ok tt
  | SubmissionReviewReleased =>
      fail_if negb (ot_Valid (sr_ReleasedAt r)) || Time_Before (ot_Time (sr_ReleasedAt r)) (ot_Time (sr_FinalizedAt r))
              || negb (ID_IsValid (sr_ReleasedByUserID r))
        with review_error "invalid released Submission Review" ;;
      Ok tt
  | SubmissionReviewReleaseState_other _ => Err (review_error "invalid Submission Review release state")
  end.
Definition SubmissionReview_Validate (p : option SubmissionReview) : result unit :=
  match p with
  | None => Err (review_error "invalid Submission Review")
  | Some r =>
      fail_if negb (ID_IsValid (sr_ID r)) || negb (ID_IsValid (sr_SubmissionID r)) || (sr_Revision r <? 1)
              || negb (ID_IsValid (sr_CreatedByUserID r)) || Time_IsZero (sr_CreatedAt r) || Time_IsZero (sr_UpdatedAt r)
              || Time_Before (sr_UpdatedAt r) (sr_CreatedAt r)
              || negb (validBoundedReviewText (sr_ManagerNotes r) 0 SubmissionReviewPrivateNotesMaximumRunes
                         SubmissionReviewPrivateNotesMaximumBytes)
              || negb (validBoundedReviewText (sr_StudentRemarksMarkdown r) 0 SubmissionReviewStudentRemarksMaximumRunes
                         SubmissionReviewStudentRemarksMaximumBytes)
        with review_error "invalid Submission Review" ;;
      match sr_State r with
      | SubmissionReviewDraft =>
          fail_if (sr_ReleaseState r !=? SubmissionReviewWithheld) || negb (sr_FlagCount r =? 0) || negb (sr_EvidenceCount r =? 0)
                  || negb (sr_DiscrepancyCount r =? 0) || (sr_EvidenceInventoryDigest r !=? "") || ot_Valid (sr_FinalizedAt r)
                  || negb (ID_IsZero (sr_FinalizedByUserID r)) || ot_Valid (sr_ReleasedAt r)
                  || negb (ID_IsZero (sr_ReleasedByUserID r))
            with review_error "invalid draft Submission Review" ;;
          Ok tt
      | SubmissionReviewFinalized =>
          fail_if (sr_FlagCount r <? 0) || (SubmissionReviewMaximumFlags <? sr_FlagCount r) || (sr_EvidenceCount r <? 0)
                  || (SubmissionReviewMaximumEvidence <? sr_EvidenceCount r) || (sr_DiscrepancyCount r <? 0)
                  || (SubmissionReviewMaximumDiscrepancies <? sr_DiscrepancyCount r)
                  || negb (validLowerSHA256 (sr_EvidenceInventoryDigest r)) || negb (ot_Valid (sr_FinalizedAt r))
                  || Time_Before (ot_Time (sr_FinalizedAt r)) (sr_CreatedAt r) || negb (ID_IsValid (sr_FinalizedByUserID r))
            with review_error "invalid finalized Submission Review" ;;
          review_release_check r
      | SubmissionReviewState_other _ => Err (review_error "invalid Submission Review state")
      end
  end.
#[global] Arguments SubmissionReview_Validate : simpl never.

Definition NewSubmissionReview (id submissionID actorID : ID) (at_ : Time) : result SubmissionReview :=
  let at_ := TimeUTC at_ in
  let review := mkSubmissionReview id submissionID SubmissionReviewDraft SubmissionReviewWithheld 1 actorID "" "" 0 0 0 ""
                  at_ at_ noTime "" noTime "" in
  _ ← SubmissionReview_Validate (Some review);
  Ok review.

(** The guard the operations on a draft share. *)
Definition draft_guard (r : SubmissionReview) (expectedRevision : Z) : bool :=
  negb (is_ok (SubmissionReview_Validate (Some r))) || (sr_State r !=? SubmissionReviewDraft)
  || negb (sr_Revision r =? expectedRevision).

Definition SubmissionReview_UpdateDraft (expectedRevision : Z) (managerNotes studentRemarks : string) (at_ : Time)
    : Method SubmissionReview unit :=
  r ← deref (review_error "Submission Review cannot be edited");
  fail_if draft_guard r expectedRevision with review_error "Submission Review cannot be edited" ;;
  let candidate := r <| sr_ManagerNotes := managerNotes |> <| sr_StudentRemarksMarkdown := studentRemarks |>
                     <| sr_Revision := int64_succ (sr_Revision r) |> <| sr_UpdatedAt := TimeUTC at_ |> in
  _ ← try (SubmissionReview_Validate (Some candidate));
  assign candidate.
Definition SubmissionReview_TouchDraft (expectedRevision : Z) (at_ : Time) : Method SubmissionReview unit :=
  r ← deref (review_error "Submission Review cannot advance");
  fail_if draft_guard r expectedRevision with review_error "Submission Review cannot advance" ;;
  let candidate := r <| sr_Revision := int64_succ (sr_Revision r) |> <| sr_UpdatedAt := TimeUTC at_ |> in
  _ ← try (SubmissionReview_Validate (Some candidate));
  assign candidate.
Definition SubmissionReview_Finalize (expectedRevision : Z) (actorID : ID) (flagCount evidenceCount discrepancyCount : Z)
    (inventoryDigest : string) (at_ : Time) : Method SubmissionReview unit :=
  r ← deref (review_error "Submission Review cannot be finalized");
  fail_if draft_guard r expectedRevision with review_error "Submission Review cannot be finalized" ;;
  let candidate := r <| sr_State := SubmissionReviewFinalized |> <| sr_Revision := int64_succ (sr_Revision r) |>
                     <| sr_FlagCount := flagCount |> <| sr_EvidenceCount := evidenceCount |>
                     <| sr_DiscrepancyCount := discrepancyCount |> <| sr_EvidenceInventoryDigest := inventoryDigest |>
                     <| sr_FinalizedAt := OptionalTimeFrom at_ |> <| sr_FinalizedByUserID := actorID |>
                     <| sr_UpdatedAt := TimeUTC at_ |> in
  _ ← try (SubmissionReview_Validate (Some candidate));
  assign candidate.
Definition SubmissionReview_Release (expectedRevision : Z) (actorID : ID) (at_ : Time) : Method SubmissionReview unit :=
  r ← deref (review_error "Submission Review cannot be released");
  fail_if negb (is_ok (SubmissionReview_Validate (Some r))) || (sr_State r !=? SubmissionReviewFinalized)
          || (sr_ReleaseState r !=? SubmissionReviewWithheld) || negb (sr_Revision r =? expectedRevision)
    with review_error "Submission Review cannot be released" ;;
  let candidate := r <| sr_ReleaseState := SubmissionReviewReleased |> <| sr_Revision := int64_succ (sr_Revision r) |>
                     <| sr_ReleasedAt := OptionalTimeFrom at_ |> <| sr_ReleasedByUserID := actorID |>
                     <| sr_UpdatedAt := TimeUTC at_ |> in
  _ ← try (SubmissionReview_Validate (Some candidate));
  assign candidate.

Record StudentResult := mkStudentResult {
  st_ReviewID : ID;
  st_SubmissionID : ID;
  st_AttemptID : ID;
  st_CandidateUserID : ID;
  st_StudentRemarksMarkdown : string;
  st_ReleasedAt : Time }.
Definition SubmissionReview_StudentResult (p : option SubmissionReview) (attemptID candidateID : ID) : result StudentResult :=
  match p with
  | None => Err (review_error "Student Result is unavailable")
  | Some r =>
      fail_if negb (is_ok (SubmissionReview_Validate (Some r))) || (sr_State r !=? SubmissionReviewFinalized)
              || (sr_ReleaseState r !=? SubmissionReviewReleased) || negb (ID_IsValid attemptID) || negb (ID_IsValid candidateID)
        with review_error "Student Result is unavailable" ;;
      Ok (mkStudentResult (sr_ID r) (sr_SubmissionID r) attemptID candidateID (sr_StudentRemarksMarkdown r)
            (ot_Time (sr_ReleasedAt r)))
  end.

(** ** Inventories *)

Record IntegrityReviewInventoryFlag := mkInventoryFlag { if_FlagID : ID; if_DecisionID : ID; if_DecisionRevision : Z }.
Record IntegrityReviewInventoryEvidence := mkInventoryEvidence { ie_EvidenceID : ID; ie_FlagID : ID }.
(** [IntegrityReviewInventoryDiscrepancy]: its identity alone. *)
Definition IntegrityReviewInventoryDiscrepancy : Type := ID.

(** [sort.Slice] by identity; Go does not specify the order of equal identities. *)
Definition by_id {A} (id : A → ID) (a b : A) : Prop := Compare (id a) (id b) ≠ Gt.
#[export] Instance by_id_dec {A} (id : A → ID) : RelDecision (by_id id).
Proof. intros a b. unfold by_id. apply _. Defined.

Definition inventory_count (n : nat) : list Z := be_bytes 4 (Z.of_nat n mod 2 ^ 32).
Definition inventory_flag_bytes (i : IntegrityReviewInventoryFlag) : list Z :=
  bytes (if_FlagID i) ++ bytes (if_DecisionID i) ++ PutUint64 (uint64 (if_DecisionRevision i)).
Definition inventory_evidence_bytes (i : IntegrityReviewInventoryEvidence) : list Z :=
  bytes (ie_EvidenceID i) ++ bytes (ie_FlagID i).
(** What is written to the hash. *)
Definition inventory_bytes (flags : list IntegrityReviewInventoryFlag) (evidence : list IntegrityReviewInventoryEvidence)
    (discrepancies : list IntegrityReviewInventoryDiscrepancy) : list Z :=
  bytes "proctor.integrity_review.inventory" ++ [0]
  ++ inventory_count (length flags) ++ (flags ≫= inventory_flag_bytes)
  ++ inventory_count (length evidence) ++ (evidence ≫= inventory_evidence_bytes)
  ++ inventory_count (length discrepancies) ++ (discrepancies ≫= bytes).

Definition inventory_error (reason : string) : error := invalidModelError "exam_review" "" reason "".
Definition IntegrityReviewInventoryDigest (flags : list IntegrityReviewInventoryFlag)
    (evidence : list IntegrityReviewInventoryEvidence) (discrepancies : list IntegrityReviewInventoryDiscrepancy) : result string :=
  fail_if (SubmissionReviewMaximumFlags <? Z.of_nat (length flags))
          || (SubmissionReviewMaximumEvidence <? Z.of_nat (length evidence))
          || (SubmissionReviewMaximumDiscrepancies <? Z.of_nat (length discrepancies))
    with inventory_error "Integrity Review inventory exceeds bounds" ;;
  fail_if existsb (λ i, negb (ID_IsValid (if_FlagID i)) || negb (ID_IsValid (if_DecisionID i)) || (if_DecisionRevision i <? 1)) flags
    with inventory_error "invalid Integrity Review Flag inventory" ;;
  fail_if existsb (λ i, negb (ID_IsValid (ie_EvidenceID i)) || negb (ID_IsValid (ie_FlagID i))) evidence
    with inventory_error "invalid Integrity Review Evidence inventory" ;;
  fail_if existsb (λ i, negb (ID_IsValid i)) discrepancies
    with inventory_error "invalid Integrity Review Discrepancy inventory" ;;
  Ok (hex_encode (sha256 (inventory_bytes (merge_sort (by_id if_FlagID) flags) (merge_sort (by_id ie_EvidenceID) evidence)
                            (merge_sort (by_id id) discrepancies)))).

Definition delivery_bytes (base : string) (browser : BrowserSubmissionSettlement) (deliveryRevision : Z) : list Z :=
  bytes "proctor.integrity_review.delivery" ++ [0] ++ bytes base ++ bytes (bs_State browser) ++ [0]
  ++ ([bs_InventoryRevision browser; bs_SourceCount browser; bs_PendingSourceCount browser; bs_IncompleteSourceCount browser;
       deliveryRevision] ≫= λ v, PutUint64 (uint64 v)).
Definition IntegrityReviewDeliveryDigest (base : string) (browser : BrowserSubmissionSettlement) (deliveryRevision : Z)
    : result string :=
  fail_if negb (validLowerSHA256 base) || negb (is_ok (BrowserSubmissionSettlement_Validate browser))
          || negb (securitySafeInt deliveryRevision)
    with ErrDeliveryInvalid ;;
  Ok (hex_encode (sha256 (delivery_bytes base browser deliveryRevision))).

(** ** Histories of a Review *)

Inductive ReviewOp :=
  | UpdateDraft (expectedRevision : Z) (managerNotes studentRemarks : string) (at_ : Time)
  | TouchDraft (expectedRevision : Z) (at_ : Time)
  | Finalize (expectedRevision : Z) (actorID : ID) (flagCount evidenceCount discrepancyCount : Z) (digest : string) (at_ : Time)
  | Release (expectedRevision : Z) (actorID : ID) (at_ : Time).
Definition review_apply (op : ReviewOp) : Method SubmissionReview unit :=
  match op with
  | UpdateDraft e n s t => SubmissionReview_UpdateDraft e n s t
  | TouchDraft e t => SubmissionReview_TouchDraft e t
  | Finalize e a f v d g t => SubmissionReview_Finalize e a f v d g t
  | Release e a t => SubmissionReview_Release e a t
  end.
(** Operations that succeeded, in order. *)
Inductive review_run : SubmissionReview → list ReviewOp → SubmissionReview → Prop :=
  | run_none r : review_run r [] r
  | run_op r op r' ops r'' :
      review_apply op (Some r) = (Some r', Ok tt) → review_run r' ops r'' → review_run r (op :: ops) r''.

Definition is_edit (op : ReviewOp) : Prop :=
  match op with UpdateDraft _ _ _ _ | TouchDraft _ _ => True | _ => False end.
(** The remarks after the given edits. *)
Fixpoint last_remarks (remarks : string) (ops : list ReviewOp) : string :=
  match ops with
  | UpdateDraft _ _ studentRemarks _ :: ops => last_remarks studentRemarks ops
  | _ :: ops => last_remarks remarks ops
  | [] => remarks
  end.

(** What a Review in each state records of its history. *)
Definition drafted (r0 : SubmissionReview) (edits : list ReviewOp) (r : SubmissionReview) : Prop :=
  Forall is_edit edits ∧ sr_StudentRemarksMarkdown r = last_remarks (sr_StudentRemarksMarkdown r0) edits.
Definition explains (r0 : SubmissionReview) (ops : list ReviewOp) (r : SubmissionReview) : Prop :=
  match sr_State r, sr_ReleaseState r with
  | SubmissionReviewDraft, SubmissionReviewWithheld => drafted r0 ops r
  | SubmissionReviewFinalized, SubmissionReviewWithheld =>
      ∃ edits e a t, ops = edits ++ [Finalize e a (sr_FlagCount r) (sr_EvidenceCount r) (sr_DiscrepancyCount r)
                                       (sr_EvidenceInventoryDigest r) t] ∧ drafted r0 edits r ∧
        sr_FinalizedByUserID r = a ∧ sr_FinalizedAt r = OptionalTimeFrom t
  | SubmissionReviewFinalized, SubmissionReviewReleased =>
      ∃ edits e a t e' a' t', ops = edits ++ [Finalize e a (sr_FlagCount r) (sr_EvidenceCount r) (sr_DiscrepancyCount r)
                                                (sr_EvidenceInventoryDigest r) t; Release e' a' t'] ∧ drafted r0 edits r ∧
        sr_FinalizedByUserID r = a ∧ sr_FinalizedAt r = OptionalTimeFrom t ∧
        sr_ReleasedByUserID r = a' ∧ sr_ReleasedAt r = OptionalTimeFrom t'
  | _, _ => False
  end.
Definition same_review (r0 r : SubmissionReview) : Prop :=
  sr_ID r = sr_ID r0 ∧ sr_SubmissionID r = sr_SubmissionID r0 ∧ sr_CreatedByUserID r = sr_CreatedByUserID r0 ∧
  sr_CreatedAt r = sr_CreatedAt r0.

Lemma review_valid_withheld r : SubmissionReview_Validate (Some r) = Ok tt → sr_State r = SubmissionReviewDraft →
  sr_ReleaseState r = SubmissionReviewWithheld.
Proof.
  unfold SubmissionReview_Validate. rewrite ok_fail_if. intros [_ H] E. rewrite E in H. apply ok_fail_if in H as [H _].
  to_prop. by destruct_and!.
Qed.
Lemma draft_guard_false r e : draft_guard r e = false →
  SubmissionReview_Validate (Some r) = Ok tt ∧ sr_State r = SubmissionReviewDraft ∧ sr_Revision r = e.
Proof.
  unfold draft_guard. intros H. to_prop. destruct H as [[Hv Hs] Hr]. split_and!; [|done..].
  destruct (SubmissionReview_Validate (Some r)) as [[]|]; done.
Qed.
Lemma last_remarks_snoc s ops op : last_remarks s (ops ++ [op]) =
  match op with UpdateDraft _ _ remarks _ => remarks | _ => last_remarks s ops end.
Proof. revert s. induction ops as [|o ops IH]; intros s; [by destruct op|]. cbn. destruct o; by rewrite IH; destruct op. Qed.

Lemma review_step op r r' : review_apply op (Some r) = (Some r', Ok tt) →
  SubmissionReview_Validate (Some r) = Ok tt ∧ SubmissionReview_Validate (Some r') = Ok tt ∧ same_review r r' ∧
  sr_Revision r' = int64_succ (sr_Revision r) ∧
  match op with
  | UpdateDraft e n s t => e = sr_Revision r ∧ sr_State r = SubmissionReviewDraft ∧ sr_State r' = SubmissionReviewDraft ∧
      sr_StudentRemarksMarkdown r' = s
  | TouchDraft e t => e = sr_Revision r ∧ sr_State r = SubmissionReviewDraft ∧ sr_State r' = SubmissionReviewDraft ∧
      sr_StudentRemarksMarkdown r' = sr_StudentRemarksMarkdown r
  | Finalize e a f v d g t => e = sr_Revision r ∧ sr_State r = SubmissionReviewDraft ∧ sr_State r' = SubmissionReviewFinalized ∧
      sr_ReleaseState r' = sr_ReleaseState r ∧ sr_StudentRemarksMarkdown r' = sr_StudentRemarksMarkdown r ∧
      sr_FlagCount r' = f ∧ sr_EvidenceCount r' = v ∧ sr_DiscrepancyCount r' = d ∧ sr_EvidenceInventoryDigest r' = g ∧
      sr_FinalizedByUserID r' = a ∧ sr_FinalizedAt r' = OptionalTimeFrom t
  | Release e a t => e = sr_Revision r ∧ sr_State r = SubmissionReviewFinalized ∧ sr_ReleaseState r = SubmissionReviewWithheld ∧
      ∃ rev upd, r' = r <| sr_ReleaseState := SubmissionReviewReleased |> <| sr_Revision := rev |>
        <| sr_ReleasedAt := OptionalTimeFrom t |> <| sr_ReleasedByUserID := a |> <| sr_UpdatedAt := upd |>
  end.
Proof.
  destruct op; cbn [review_apply]; unfold SubmissionReview_UpdateDraft, SubmissionReview_TouchDraft, SubmissionReview_Finalize,
    SubmissionReview_Release; intros H; inv_run H; apply run_assign in H; injection H as ->.
  1-3: match goal with G : draft_guard _ _ = false |- _ => apply draft_guard_false in G as (? & ? & ?) end;
    split_and!; try done; (split_and!; done).
  to_prop. match goal with G : _ ∧ _ |- _ => destruct G as [[[Hv Hs] Hw] Hr] end.
  split_and!; try done; [by destruct (SubmissionReview_Validate (Some r)) as [[]|]|]. eexists _, _. done.
Qed.

Lemma explains_step r0 pre r op r' : explains r0 pre r → review_apply op (Some r) = (Some r', Ok tt) → explains r0 (pre ++ [op]) r'.
Proof.
  intros He (Hv & Hv' & Hsame & Hrev & Hop)%review_step. pose proof (review_valid_withheld r Hv) as Hw.
  pose proof (review_valid_withheld r' Hv') as Hw'. unfold explains, drafted in *.
  destruct op as [e n s t|e t|e a f v d g t|e a t].
  - destruct Hop as (_ & Hs & Hs' & Hr). rewrite Hs, (Hw Hs) in He. rewrite Hs', (Hw' Hs'). destruct He as [Hed Hrem].
    split; [apply Forall_app; by repeat constructor|]. by rewrite last_remarks_snoc.
  - destruct Hop as (_ & Hs & Hs' & Hr). rewrite Hs, (Hw Hs) in He. rewrite Hs', (Hw' Hs'). destruct He as [Hed Hrem].
    split; [apply Forall_app; by repeat constructor|]. by rewrite last_remarks_snoc, Hr.
  - destruct Hop as (_ & Hs & Hs' & Hrel & Hr & <- & <- & <- & <- & Hby & Hat). rewrite Hs, (Hw Hs) in He.
    rewrite Hs', Hrel, (Hw Hs). destruct He as [Hed Hrem]. exists pre, e, a, t. split_and!; try done. by rewrite Hr.
  - destruct Hop as (_ & Hs & Hrel & rev & upd & ->). cbn. rewrite Hs, Hrel in *.
    destruct He as (edits & e0 & a0 & t0 & -> & Hd & Hby & Hat). exists edits, e0, a0, t0, e, a, t.
    split_and!; try done; [by rewrite <-app_assoc|apply Hd..].
Qed.
Lemma explains_run r0 pre r ops r' : explains r0 pre r → review_run r ops r' → explains r0 (pre ++ ops) r'.
Proof.
  intros He Hr. revert pre He. induction Hr as [r|r op r1 ops r2 Hop _ IH]; intros pre He; [by rewrite app_nil_r|].
  rewrite (cons_middle op pre ops), app_assoc. apply IH. by eapply explains_step.
Qed.
Lemma review_run_keeps r ops r' : SubmissionReview_Validate (Some r) = Ok tt → in_int64 (sr_Revision r) → review_run r ops r' →
  SubmissionReview_Validate (Some r') = Ok tt ∧ same_review r r' ∧ sr_Revision r' = sr_Revision r + Z.of_nat (length ops).
Proof.
  intros Hv Hi Hr. revert Hv Hi. induction Hr as [r|r op r1 ops r2 Hop _ IH]; intros Hv Hi.
  { split_and!; [done..|cbn; lia]. }
  apply review_step in Hop as (_ & Hv1 & Hsame & Hrev & _).
  destruct IH as (Hv2 & Hsame2 & Hrev2); [done|rewrite Hrev; apply int64_succ_in_range|].
  assert (1 ≤ sr_Revision r1).
  { unfold SubmissionReview_Validate in Hv1. apply ok_fail_if in Hv1 as [Hg _]. to_prop. destruct_and!. lia. }
  rewrite Hrev in *. rewrite int64_succ_pos in Hrev2 by done.
  split_and!; [done|unfold same_review in *; destruct_and!; split_and!; congruence|cbn; lia].
Qed.
Lemma NewSubmissionReview_ok id sub actor at_ r : NewSubmissionReview id sub actor at_ = Ok r →
  SubmissionReview_Validate (Some r) = Ok tt ∧ sr_Revision r = 1 ∧ sr_StudentRemarksMarkdown r = "" ∧
  sr_ID r = id ∧ sr_SubmissionID r = sub ∧ explains r [] r.
Proof. unfold NewSubmissionReview. rewrite ok_bind. intros ([] & Hv & [= <-]%ok_inj). repeat split; try done. Qed.


Definition review_start : Time := at_second 1700000000.
Definition demo_digest : string := hex_encode (sha256 []).
Definition new_review : SubmissionReview :=
  ok_or (mkSubmissionReview "" "" SubmissionReviewDraft SubmissionReviewWithheld 0 "" "" "" 0 0 0 "" zeroTime zeroTime noTime "" noTime "")
    (NewSubmissionReview "ybndrfg8ejkmcpqxot1uwisza3" "bndrfg8ejkmcpqxot1uwisza34" "ndrfg8ejkmcpqxot1uwisza345" review_start).
Definition demo_review_ops : list ReviewOp :=
  [UpdateDraft 1 "seen" "Well done" review_start; TouchDraft 2 review_start;
   Finalize 3 "ndrfg8ejkmcpqxot1uwisza345" 1 2 0 demo_digest review_start;
   Release 4 "ndrfg8ejkmcpqxot1uwisza345" (at_second 1700000060)].
Definition run_review (r : SubmissionReview) (ops : list ReviewOp) : SubmissionReview :=
  foldl (λ r op, default r (review_apply op (Some r)).1) r ops.
Definition released_review : SubmissionReview := run_review new_review demo_review_ops.
Lemma demo_review_run : review_run new_review demo_review_ops released_review.
Proof.
  assert (H : ∀ r op ops, review_apply op (Some r) = (Some (run_review r [op]), Ok tt) → review_run (run_review r [op]) ops (run_review (run_review r [op]) ops) →
    review_run r (op :: ops) (run_review r (op :: ops))) by (intros; by eapply run_op).
  unfold released_review, demo_review_ops. repeat (apply H; [vm_compute; reflexivity|]). apply run_none.
Qed.

(** A candidate sees a result only of a released Review, and sees the remarks alone: the
    projection exists exactly when the history of the Review ends in its finalization and its
    release, it carries the remarks of the last edit before the finalization, and the instant
    of the release. *)
Theorem student_result_after_release (id sub actor : ID) (at_ : Time) (r0 : SubmissionReview) (ops : list ReviewOp)
    (r : SubmissionReview) (attemptID candidateID : ID) :
  NewSubmissionReview id sub actor at_ = Ok r0 → review_run r0 ops r →
  ID_IsValid attemptID = true → ID_IsValid candidateID = true →
  ∀ result, SubmissionReview_StudentResult (Some r) attemptID candidateID = Ok result ↔
    ∃ edits e a f v d g t e' a' t', ops = edits ++ [Finalize e a f v d g t; Release e' a' t'] ∧ Forall is_edit edits ∧
      result = mkStudentResult id sub attemptID candidateID (last_remarks "" edits) (TimeUTC t').
Proof.
  intros Hnew Hrun Ha Hc result. pose proof (NewSubmissionReview_ok _ _ _ _ _ Hnew) as (Hv0 & Hrev & Hrem & Hid & Hsub & He).
  destruct (review_run_keeps r0 ops r Hv0) as (Hv & (Hid' & Hsub' & _) & _); [by rewrite Hrev|done|].
  pose proof (explains_run r0 [] r0 ops r He Hrun) as Hex. cbn [app] in Hex. unfold explains, drafted in Hex. rewrite Hrem in Hex.
  unfold SubmissionReview_StudentResult. rewrite Hv, Ha, Hc, ok_fail_if. cbn [is_ok negb orb]. rewrite !orb_false_r.
  split.
  - intros [Hg [= <-]%ok_inj]. to_prop. destruct Hg as [Hs Hrel]. rewrite Hs, Hrel in Hex.
    destruct Hex as (edits & e & a & t & e' & a' & t' & -> & [Hed Hr] & _ & _ & _ & Hat).
    do 11 eexists. split; [done|]. split; [done|]. rewrite Hr, Hat, Hid', Hsub', Hid, Hsub. done.
  - intros (edits & e & a & f & v & d & g & t & e' & a' & t' & Hops & Hed & ->).
    destruct (sr_State r) eqn:Es; [| |done]; destruct (sr_ReleaseState r) eqn:Er; try done.
    + destruct Hex as [Hall _]. rewrite Hops in Hall. exfalso. apply Forall_app in Hall as [_ [Hf _]%Forall_cons]. done.
    + exfalso. destruct Hex as (edits' & e1 & a1 & t1 & Hops' & [Hed' _] & _). rewrite Hops in Hops'.
      change [Finalize e a f v d g t; Release e' a' t'] with ([Finalize e a f v d g t] ++ [Release e' a' t']) in Hops'.
      rewrite app_assoc in Hops'. by apply app_inj_tail in Hops' as [_ ?].
    + destruct Hex as (edits' & e1 & a1 & t1 & e1' & a1' & t1' & Hops' & [Hed' Hr] & _ & _ & _ & Hat). rewrite Hops in Hops'.
      change (edits ++ [Finalize e a f v d g t] ++ [Release e' a' t'] = edits' ++
        [Finalize e1 a1 (sr_FlagCount r) (sr_EvidenceCount r) (sr_DiscrepancyCount r) (sr_EvidenceInventoryDigest r) t1] ++ [Release e1' a1' t1']) in Hops'.
      rewrite !app_assoc in Hops'. apply app_inj_tail in Hops' as [Hops' [= <- <- <-]]. apply app_inj_tail in Hops' as [<- _].
      split; [done|]. rewrite Hr, Hat, Hid', Hsub', Hid, Hsub. done.
Qed.
Lemma student_result_after_release_witness :
  SubmissionReview_StudentResult (Some released_review) "drfg8ejkmcpqxot1uwisza345h" "rfg8ejkmcpqxot1uwisza345h7" =
    Ok (mkStudentResult "ybndrfg8ejkmcpqxot1uwisza3" "bndrfg8ejkmcpqxot1uwisza34" "drfg8ejkmcpqxot1uwisza345h"
          "rfg8ejkmcpqxot1uwisza345h7" "Well done" (TimeUTC (at_second 1700000060))).
Proof.
  apply (student_result_after_release "ybndrfg8ejkmcpqxot1uwisza3" "bndrfg8ejkmcpqxot1uwisza34" "ndrfg8ejkmcpqxot1uwisza345"
    review_start new_review demo_review_ops released_review); [vm_compute; reflexivity|exact demo_review_run|vm_compute; reflexivity..|].
  do 11 eexists. split; [exact (eq_refl (take 2 demo_review_ops ++ drop 2 demo_review_ops))|].
  split; [repeat constructor|vm_compute; reflexivity].
Defined.

(** ** What the digest freezes *)

Lemma id_bytes_inj a b x y : ID_IsValid a = true → ID_IsValid b = true → bytes a ++ x = bytes b ++ y → a = b ∧ x = y.
Proof.
  intros Ha Hb H. assert (Hl : ∀ i, ID_IsValid i = true → length (bytes i) = 26%nat).
  { intros i Hi. unfold ID_IsValid, IsValidOpaqueID in Hi. destruct (len i !=? IDLength) eqn:E; [done|]. to_prop.
    unfold len, IDLength in E. rewrite length_bytes. lia. }
  apply pair_eq_app in H as [H ->]; [|by rewrite !Hl]. by apply bytes_inj in H.
Qed.
Lemma inventory_count_inj n m x y : Z.of_nat n < 2 ^ 32 → Z.of_nat m < 2 ^ 32 → inventory_count n ++ x = inventory_count m ++ y →
  n = m ∧ x = y.
Proof.
  intros Hn Hm H. unfold inventory_count in H. apply pair_eq_app in H as [H ->]; [|by rewrite !be_bytes_length].
  split; [|done]. rewrite !Z.mod_small in H by lia. apply be_bytes_inj in H; [lia|cbn; lia..].
Qed.
(** Items written one after the other are read back when each of them can be. *)
Lemma items_inj {A} (f : A → list Z) (P : A → Prop) l l' x y :
  (∀ a b x y, P a → P b → f a ++ x = f b ++ y → a = b ∧ x = y) → Forall P l → Forall P l' → length l = length l' →
  (l ≫= f) ++ x = (l' ≫= f) ++ y → l = l' ∧ x = y.
Proof.
  intros Hf Hl. revert l'. induction Hl as [|a l Ha _ IH]; intros l' Hl' Hlen H; destruct Hl' as [|b l' Hb Hl']; try done.
  rewrite !bind_cons, <-!app_assoc in H. apply Hf in H as [-> H]; [|done..]. apply IH in H as [-> ->]; [done..|]. by injection Hlen.
Qed.

Definition good_flag (i : IntegrityReviewInventoryFlag) : Prop :=
  ID_IsValid (if_FlagID i) = true ∧ ID_IsValid (if_DecisionID i) = true ∧ 1 ≤ if_DecisionRevision i.
Definition good_evidence (i : IntegrityReviewInventoryEvidence) : Prop :=
  ID_IsValid (ie_EvidenceID i) = true ∧ ID_IsValid (ie_FlagID i) = true.

Lemma flag_bytes_inj a b x y : good_flag a ∧ if_DecisionRevision a ≤ int64_max → good_flag b ∧ if_DecisionRevision b ≤ int64_max →
  inventory_flag_bytes a ++ x = inventory_flag_bytes b ++ y → a = b ∧ x = y.
Proof.
  intros [(H1 & H2 & H3) Ha] [(H1' & H2' & H3') Hb] H. unfold inventory_flag_bytes in H. rewrite <-!app_assoc in H.
  apply id_bytes_inj in H as [E1 H]; [|done..]. apply id_bytes_inj in H as [E2 H]; [|done..].
  apply digest_uint64_inj in H as [E3 ->]; [|unfold in_int64, int64_min; lia..]. destruct a, b; cbn in *; by subst.
Qed.
Lemma evidence_bytes_inj a b x y : good_evidence a → good_evidence b →
  inventory_evidence_bytes a ++ x = inventory_evidence_bytes b ++ y → a = b ∧ x = y.
Proof.
  intros (H1 & H2) (H1' & H2') H. unfold inventory_evidence_bytes in H. rewrite <-!app_assoc in H.
  apply id_bytes_inj in H as [E1 H]; [|done..]. apply id_bytes_inj in H as [E2 ->]; [|done..]. destruct a, b; cbn in *; by subst.
Qed.

Record Inventory := mkInventory {
  in_flags : list IntegrityReviewInventoryFlag;
  in_evidence : list IntegrityReviewInventoryEvidence;
  in_discrepancies : list IntegrityReviewInventoryDiscrepancy }.
(** An inventory the digest accepts. *)
Definition good_inventory (i : Inventory) : Prop :=
  (Z.of_nat (length (in_flags i)) ≤ SubmissionReviewMaximumFlags ∧ Z.of_nat (length (in_evidence i)) ≤ SubmissionReviewMaximumEvidence ∧
   Z.of_nat (length (in_discrepancies i)) ≤ SubmissionReviewMaximumDiscrepancies) ∧
  Forall good_flag (in_flags i) ∧ Forall good_evidence (in_evidence i) ∧ Forall (λ d, ID_IsValid d = true) (in_discrepancies i).
Definition sorted_inventory (i : Inventory) : list Z :=
  inventory_bytes (merge_sort (by_id if_FlagID) (in_flags i)) (merge_sort (by_id ie_EvidenceID) (in_evidence i))
    (merge_sort (by_id id) (in_discrepancies i)).
Definition same_inventory (i j : Inventory) : Prop :=
  in_flags i ≡ₚ in_flags j ∧ in_evidence i ≡ₚ in_evidence j ∧ in_discrepancies i ≡ₚ in_discrepancies j.

Lemma existsb_Forall {A} (b : A → bool) (P : A → Prop) l : (∀ a, b a = false ↔ P a) → existsb b l = false ↔ Forall P l.
Proof.
  intros H. induction l as [|a l IH]; cbn; [split; [constructor|done]|]. by rewrite orb_false_iff, Forall_cons, IH, H.
Qed.
Lemma InventoryDigest_spec i digest :
  IntegrityReviewInventoryDigest (in_flags i) (in_evidence i) (in_discrepancies i) = Ok digest ↔
  good_inventory i ∧ digest = hex_encode (sha256 (sorted_inventory i)).
Proof.
  unfold IntegrityReviewInventoryDigest, good_inventory. rewrite !ok_fail_if.
  rewrite (existsb_Forall _ good_flag), (existsb_Forall _ good_evidence), (existsb_Forall _ (λ d, ID_IsValid d = true)).
  - rewrite !orb_false_iff, !Z.ltb_ge. split.
    + intros ([[? ?] ?] & ? & ? & ? & [= <-]%ok_inj). done.
    + intros (((? & ? & ?) & ? & ? & ?) & ->). done.
  - intros a. apply negb_false_iff.
  - intros a. unfold good_evidence. rewrite orb_false_iff, !negb_false_iff. done.
  - intros a. unfold good_flag. rewrite !orb_false_iff, !negb_false_iff, Z.ltb_ge. tauto.
Qed.

Lemma sorted_inventory_inj i j : good_inventory i → good_inventory j →
  Forall (λ f, if_DecisionRevision f ≤ int64_max) (in_flags i) → Forall (λ f, if_DecisionRevision f ≤ int64_max) (in_flags j) →
  sorted_inventory i = sorted_inventory j → same_inventory i j.
Proof.
  intros ((L1 & L2 & L3) & F1 & E1 & D1) ((M1 & M2 & M3) & F2 & E2 & D2) R1 R2 H.
  unfold SubmissionReviewMaximumFlags, SubmissionReviewMaximumEvidence, SubmissionReviewMaximumDiscrepancies in *.
  assert (G1 := proj2 (Forall_and _ _) (conj F1 R1)). assert (G2 := proj2 (Forall_and _ _) (conj F2 R2)). clear F1 F2 R1 R2.
  unfold sorted_inventory, same_inventory in *.
  pose proof (merge_sort_Permutation (by_id if_FlagID) (in_flags i)) as P1. pose proof (merge_sort_Permutation (by_id if_FlagID) (in_flags j)) as P1'.
  pose proof (merge_sort_Permutation (by_id ie_EvidenceID) (in_evidence i)) as P2. pose proof (merge_sort_Permutation (by_id ie_EvidenceID) (in_evidence j)) as P2'.
  pose proof (merge_sort_Permutation (by_id id) (in_discrepancies i)) as P3. pose proof (merge_sort_Permutation (by_id id) (in_discrepancies j)) as P3'.
  rewrite <-P1 in L1, G1 |- *. rewrite <-P1' in M1, G2 |- *. rewrite <-P2 in L2, E1 |- *. rewrite <-P2' in M2, E2 |- *.
  rewrite <-P3 in L3, D1 |- *. rewrite <-P3' in M3, D2 |- *. clear P1 P1' P2 P2' P3 P3'.
  unfold inventory_bytes in H. apply app_inv_head in H. apply app_inv_head in H.
  apply inventory_count_inj in H as [N1 H]; [|lia..]. apply (items_inj _ _ _ _ _ _ flag_bytes_inj) in H as [-> H]; [|done..].
  apply inventory_count_inj in H as [N2 H]; [|lia..]. apply (items_inj _ _ _ _ _ _ evidence_bytes_inj) in H as [-> H]; [|done..].
  apply inventory_count_inj in H as [N3 H]; [|lia..].
  rewrite <-(app_nil_r (_ ≫= bytes)), <-(app_nil_r (merge_sort (by_id id) (in_discrepancies j) ≫= bytes)) in H.
  apply (items_inj bytes (λ d, ID_IsValid d = true)) in H as [-> _]; [done| |done..].
  intros a b x y Ha Hb. by apply id_bytes_inj.
Qed.

Lemma settlement_state b : BrowserSubmissionSettlement_Validate b = Ok tt →
  bs_State b ∈ ["not_applicable"; "pending"; "incomplete"; "settled"] ∧
  Forall (λ v, 0 ≤ v ≤ maxSafeInt) [bs_InventoryRevision b; bs_SourceCount b; bs_PendingSourceCount b; bs_IncompleteSourceCount b].
Proof.
  unfold BrowserSubmissionSettlement_Validate, securitySafeInt. rewrite !ok_fail_if. intros (Hg & Hs & _). to_prop. destruct_and!.
  split; [rewrite Hs; unfold bs_expected; split_ifs; set_solver|]. repeat (constructor; [lia|]). constructor.
Qed.
(** One of the four states, then a zero byte. *)
Lemma state_inj s s' x y : s ∈ ["not_applicable"; "pending"; "incomplete"; "settled"] →
  s' ∈ ["not_applicable"; "pending"; "incomplete"; "settled"] → bytes s ++ [0] ++ x = bytes s' ++ [0] ++ y → s = s' ∧ x = y.
Proof.
  rewrite !elem_of_cons, !elem_of_nil. intros H H' E. decompose [or] H; decompose [or] H'; try done; subst; cbn in E; by injection E.
Qed.
Lemma safe_in_int64 v : 0 ≤ v ≤ maxSafeInt → in_int64 v.
Proof. unfold maxSafeInt, in_int64, int64_min, int64_max. lia. Qed.

Lemma delivery_bytes_inj base base' b b' rev rev' :
  length (bytes base) = length (bytes base') →
  BrowserSubmissionSettlement_Validate b = Ok tt → BrowserSubmissionSettlement_Validate b' = Ok tt →
  securitySafeInt rev = true → securitySafeInt rev' = true →
  delivery_bytes base b rev = delivery_bytes base' b' rev' → base = base' ∧ b = b' ∧ rev = rev'.
Proof.
  intros Hl [S1 V1]%settlement_state [S2 V2]%settlement_state R1 R2 H. unfold delivery_bytes in H.
  apply app_inv_head in H. apply app_inv_head in H. apply pair_eq_app in H as [->%bytes_inj H]; [|done].
  apply state_inj in H as [Es H]; [|done..].
  assert (Hr : ∀ v, securitySafeInt v = true → in_int64 v).
  { unfold securitySafeInt. intros v Hv. to_prop. apply safe_in_int64. lia. }
  rewrite <-(app_nil_r (_ ≫= _)), <-(app_nil_r ([bs_InventoryRevision b'; _; _; _; _] ≫= _)) in H.
  apply (items_inj _ in_int64) in H as [H _]; [| | | |done].
  - injection H as E1 E2 E3 E4 E5. destruct b, b'; cbn in *. by subst.
  - intros a c x y Ha Hc. by apply digest_uint64_inj.
  - apply (Forall_app _ [_; _; _; _] [rev]). split; [eapply Forall_impl; [exact V1|]; apply safe_in_int64|repeat constructor; by apply Hr].
  - apply (Forall_app _ [_; _; _; _] [rev']). split; [eapply Forall_impl; [exact V2|]; apply safe_in_int64|repeat constructor; by apply Hr].
Qed.

(** Two messages with one SHA-256 digest. *)
Definition collision (m m' : list Z) : Prop := m ≠ m' ∧ sha256 m = sha256 m'.
Lemma hash_cases m m' : hex_encode (sha256 m) = hex_encode (sha256 m') → m = m' ∨ collision m m'.
Proof.
  intros H. destruct (decide (m = m')) as [|Hn]; [by left|right]. split; [done|]. apply hex_encode_inj; [apply sha256_bytes..|done].
Qed.

(** The digest of the inventory, bound to the delivery state. *)
Definition frozen_digest (i : Inventory) (browser : BrowserSubmissionSettlement) (deliveryRevision : Z) : result string :=
  base ← IntegrityReviewInventoryDigest (in_flags i) (in_evidence i) (in_discrepancies i);
  IntegrityReviewDeliveryDigest base browser deliveryRevision.

(** The digest pins down what was reviewed: two finalizations with the same digest saw the
    same Flags with the same decision revisions, the same Evidence, the same discrepancies
    (in whatever order they were read), the same Browser Activity settlement and the same
    delivery revision, unless the bytes hashed are a collision of SHA-256. *)
Theorem review_digest_binding (i j : Inventory) (b c : BrowserSubmissionSettlement) (rev rev' : Z) (digest : string) :
  Forall (λ f, if_DecisionRevision f ≤ int64_max) (in_flags i) → Forall (λ f, if_DecisionRevision f ≤ int64_max) (in_flags j) →
  frozen_digest i b rev = Ok digest → frozen_digest j c rev' = Ok digest →
  (same_inventory i j ∧ b = c ∧ rev = rev') ∨
  collision (sorted_inventory i) (sorted_inventory j) ∨
  collision (delivery_bytes (hex_encode (sha256 (sorted_inventory i))) b rev) (delivery_bytes (hex_encode (sha256 (sorted_inventory j))) c rev').
Proof.
  intros Ri Rj. unfold frozen_digest. rewrite !ok_bind.
  intros (base & [Gi ->]%InventoryDigest_spec & Hi) (base' & [Gj ->]%InventoryDigest_spec & Hj).
  unfold IntegrityReviewDeliveryDigest in *. apply ok_fail_if in Hi as [Gb Hi]. apply ok_fail_if in Hj as [Gc Hj]. to_prop.
  apply ok_inj in Hi, Hj. rewrite <-Hi in Hj. clear Hi digest. rename Hj into E. destruct Gb as [[Sb Vb] Rb], Gc as [[Sc Vc] Rc].
  assert (Hok : ∀ x, is_ok (BrowserSubmissionSettlement_Validate x) = true → BrowserSubmissionSettlement_Validate x = Ok tt).
  { intros x Hx. by destruct (BrowserSubmissionSettlement_Validate x) as [[]|]. }
  assert (Hlen : ∀ s, validLowerSHA256 s = true → length (bytes s) = 64%nat).
  { intros s Hs. unfold validLowerSHA256 in Hs. destruct (_ || _) eqn:El in Hs; [done|]. to_prop. rewrite length_bytes. unfold len in *. lia. }
  destruct (hash_cases _ _ E) as [Hd|Hd]; [|right; right; split; [intros ?; by apply Hd|symmetry; apply Hd]].
  apply delivery_bytes_inj in Hd as (Hbase & -> & ->); [|by rewrite !Hlen|by apply Hok..|done|done].
  symmetry in Hbase. destruct (hash_cases _ _ Hbase) as [Hs|Hc]; [left|by right; left].
  split_and!; [|done..]. by apply sorted_inventory_inj.
Qed.
Definition demo_inventory (order : bool) : Inventory :=
  let a := mkInventoryFlag "ybndrfg8ejkmcpqxot1uwisza3" "bndrfg8ejkmcpqxot1uwisza34" 2 in
  let b := mkInventoryFlag "ndrfg8ejkmcpqxot1uwisza345" "drfg8ejkmcpqxot1uwisza345h" 1 in
  mkInventory (if order then [a; b] else [b; a]) [mkInventoryEvidence "rfg8ejkmcpqxot1uwisza345h7" "ybndrfg8ejkmcpqxot1uwisza3"] [].
Definition demo_settlement : BrowserSubmissionSettlement := mkBrowserSubmissionSettlement "settled" 3 2 0 0.
Lemma review_digest_binding_witness :
  frozen_digest (demo_inventory true) demo_settlement 7 = frozen_digest (demo_inventory false) demo_settlement 7 ∧
  ((same_inventory (demo_inventory true) (demo_inventory false) ∧ demo_settlement = demo_settlement ∧ 7 = 7) ∨
   collision (sorted_inventory (demo_inventory true)) (sorted_inventory (demo_inventory false)) ∨
   collision (delivery_bytes (hex_encode (sha256 (sorted_inventory (demo_inventory true)))) demo_settlement 7)
     (delivery_bytes (hex_encode (sha256 (sorted_inventory (demo_inventory false)))) demo_settlement 7)).
Proof.
  split; [vm_compute; reflexivity|].
  apply (review_digest_binding (demo_inventory true) (demo_inventory false) demo_settlement demo_settlement 7 7
    (ok_or "" (frozen_digest (demo_inventory true) demo_settlement 7))).
  - repeat constructor; vm_compute; discriminate.
  - repeat constructor; vm_compute; discriminate.
  - vm_compute; reflexivity.
  - vm_compute; reflexivity.
Defined.
