(* ===== verification/ReviewStore.v ===== *)
(** * The Review store

    Models [server/store/sqlstore/exam_integrity_review_store.go],
    [exam_integrity_review_finalization_store.go], [delivery_review_inventory.go] and
    [browser_integrity_store.go]: the transactions that decide Flags, edit, finalize, release
    and reopen Reviews, and the arrival of late browser evidence that reopens them.

    [exam_submissions], [exam_attempts] and [exams] are joined into one row per Submission, by
    their foreign keys.  Calls that only touch tables of other components (the audit trail, the
    records of the Sitting, mail, the canonical snapshot) are the answers of [Outside]: they
    succeed or refuse the transaction. *)

From S2P Require Import Prelude GoTime GoStrings Ident ModelError SqlTx Sha256 Delivery DeliveryBudget Submission GoMarshal FocusLoss BrowserUrl BrowserPolicy Review.

(** ** Tables *)

Record SubmissionRow := mkSubmissionRow {
  sw_ID : ID;
  sw_AttemptID : ID;
  sw_ExamID : ID;
  sw_CandidateUserID : ID;
  sw_Sealed : bool;
  sw_IntegrityRetired : bool;
  sw_IntegrityState : string }.
#[export] Instance SubmissionRow_eta : Eta SubmissionRow := λ r, mkSubmissionRow (sw_ID r) (sw_AttemptID r) (sw_ExamID r)
  (sw_CandidateUserID r) (sw_Sealed r) (sw_IntegrityRetired r) (sw_IntegrityState r).
Record ReviewRow := mkReviewRow { rw_Review : SubmissionReview; rw_AttemptID : ID; rw_DeliveryInventoryRevision : Z }.
Record DecisionRow := mkDecisionRow { dw_Decision : IntegrityReviewDecision; dw_AttemptID : ID }.
Record FlagRow := mkFlagRow { fw_ID : ID; fw_AttemptID : ID; fw_Generation : Z }.
Record EvidenceRow := mkEvidenceRow { ew_ID : ID; ew_AttemptID : ID; ew_FlagID : ID }.
Record DiscrepancyRow := mkDiscrepancyRow { xw_ID : ID; xw_SubmissionID : ID }.

Record NativeConditionInventory := mkNativeConditionInventory { nc_Records : Z; nc_Digest : string }.
(** The columns of [exam_attempt_delivery_budgets] that are read or written here. *)
Record BudgetRow := mkBudgetRow {
  bw_Settlement : BrowserSubmissionSettlement;
  bw_ReviewInventoryRevision : Z;
  bw_Native : NativeConditionInventory;
  bw_FlagGroups : Z;
  bw_EvidenceRecords : Z;
  bw_EvidenceBytes : Z }.
#[export] Instance BudgetRow_eta : Eta BudgetRow := λ b, mkBudgetRow (bw_Settlement b) (bw_ReviewInventoryRevision b)
  (bw_Native b) (bw_FlagGroups b) (bw_EvidenceRecords b) (bw_EvidenceBytes b).
Record GroupRow := mkGroupRow {
  gw_FlagID : ID;
  gw_AttemptID : ID;
  gw_ParticipationID : ID;
  gw_PolicyRevisionID : ID;
  gw_RuleID : string;
  gw_RetainedDetails : Z;
  gw_OverflowCount : Z }.
#[export] Instance GroupRow_eta : Eta GroupRow := λ g, mkGroupRow (gw_FlagID g) (gw_AttemptID g) (gw_ParticipationID g)
  (gw_PolicyRevisionID g) (gw_RuleID g) (gw_RetainedDetails g) (gw_OverflowCount g).
Record SourceRow := mkSourceRow { ow_AttemptID : ID; ow_ParticipationID : ID; ow_Generation : Z }.
Record PreparationRow := mkPreparationRow { pw_SubmissionID : ID; pw_ExpectedReviewRevision : Z; pw_ReleaseAt : Time }.
(** The rows of the three inventory tables: Review, finalization revision, item. *)
Inductive InventoryItem :=
  | InventoryFlag (i : IntegrityReviewInventoryFlag)
  | InventoryEvidence (i : IntegrityReviewInventoryEvidence)
  | InventoryDiscrepancy (i : IntegrityReviewInventoryDiscrepancy).

Record ReviewTables := mkReviewTables {
  rt_submissions : gmap ID SubmissionRow;
  rt_managers : gmap ID (gset ID);
  rt_reviews : gmap ID ReviewRow;
  rt_decisions : gmap ID DecisionRow;
  rt_flags : gmap ID FlagRow;
  rt_evidence : gmap ID EvidenceRow;
  rt_discrepancies : gmap ID DiscrepancyRow;
  rt_budgets : gmap ID BudgetRow;
  rt_groups : gmap ID GroupRow;
  rt_sources : gmap string SourceRow;
  rt_overflow : gmap ID Z;
  rt_preparations : gmap ID PreparationRow;
  rt_inventory : list (ID * Z * InventoryItem) }.
#[export] Instance ReviewTables_eta : Eta ReviewTables := λ t, mkReviewTables (rt_submissions t) (rt_managers t) (rt_reviews t)
  (rt_decisions t) (rt_flags t) (rt_evidence t) (rt_discrepancies t) (rt_budgets t) (rt_groups t) (rt_sources t) (rt_overflow t)
  (rt_preparations t) (rt_inventory t).

Definition set_reviews (f : gmap ID ReviewRow → gmap ID ReviewRow) (t : ReviewTables) := t <| rt_reviews := f (rt_reviews t) |>.
Definition set_decisions (f : gmap ID DecisionRow → gmap ID DecisionRow) (t : ReviewTables) := t <| rt_decisions := f (rt_decisions t) |>.

Definition conflict (resource constraint : string) (cause : option error) : error := StoreError ErrConflict resource constraint cause.
Definition review_conflict (constraint : string) : error := conflict "submission_review" constraint None.

(** What the calls outside this file answer. *)
Record Outside := mkOutside {
  out_audit : result unit;
  out_records : result unit;
  out_snapshot : result unit;
  out_mail : result unit;
  out_notice : result unit;
  out_recipient : result Z }.

(** ** Locking and loading *)

(** With [allowArchived], as every Review operation calls it. *)
Definition guardExamSittingManagerExam (examID actorID : ID) (override : bool) : Tx ReviewTables unit :=
  managers ← query (λ t, rt_managers t !! examID);
  match managers with
  | None => mthrow (not_found "exam" examID)
  | Some managers =>
      fail_if negb (bool_decide (actorID ∈ (managers : gset ID))) && negb override with StoreError ErrNotFound "exam_manager" actorID None ;;
      mret tt
  end.
Definition sealed_row (submissionID : ID) (r : SubmissionRow) : bool := (sw_ID r ==? submissionID) && sw_Sealed r.
Definition live_row (submissionID : ID) (r : SubmissionRow) : bool := sealed_row submissionID r && negb (sw_IntegrityRetired r).
Definition lockReviewScope (submissionID actorID : ID) (override : bool) : Tx ReviewTables SubmissionRow :=
  rows ← query (λ t, select (sealed_row submissionID) (rt_submissions t));
  sub ← check (get_row "submission" submissionID rows);
  _ ← guardExamSittingManagerExam (sw_ExamID sub) actorID override;
  rows ← query (λ t, select (live_row submissionID) (rt_submissions t));
  auth ← check (get_row "submission" submissionID rows);
  fail_if sw_ExamID auth !=? sw_ExamID sub
    with invalidPersistedState "submission" "exam_id" (SentinelError "ownership changed while locking") ;;
  mret auth.

Definition of_submission (submissionID : ID) (r : ReviewRow) : bool := sr_SubmissionID (rw_Review r) ==? submissionID.
Definition examSubmissionReviewRow_value (r : ReviewRow) : result SubmissionReview :=
  match SubmissionReview_Validate (Some (rw_Review r)) with
  | Ok _ => Ok (rw_Review r)
  | Err err => Err (invalidPersistedState "submission_review" "value" err)
  end.
Definition loadReviewForMutation (submissionID : ID) : Tx ReviewTables SubmissionReview :=
  rows ← query (λ t, select (of_submission submissionID) (rt_reviews t));
  row ← check (get_row "submission_review" submissionID rows);
  check (examSubmissionReviewRow_value row).
Definition requireLiveSubmissionIntegrity (submissionID : ID) : Tx ReviewTables unit :=
  rows ← query (λ t, select (live_row submissionID) (rt_submissions t));
  _ ← check (get_row "submission" submissionID rows);
  mret tt.

Definition insertReview (review : SubmissionReview) (attemptID : ID) : Tx ReviewTables unit :=
  let refuse (constraint : string) := WrappedError "create Submission Review" (conflict "submission_review" constraint None) in
  _ ← refuse_if (λ t, bool_decide (is_Some (rt_reviews t !! sr_ID review))) (refuse "submission_reviews_pkey");
  _ ← refuse_if (λ t, negb (affected (of_submission (sr_SubmissionID review)) (rt_reviews t) =? 0)%nat)
        (refuse "submission_reviews_submission_id_key");
  exec (set_reviews (<[sr_ID review := mkReviewRow review attemptID 0]>)).
Definition persistReview (review : SubmissionReview) (expected : Z) : Tx ReviewTables unit :=
  row ← query (λ t, rt_reviews t !! sr_ID review);
  match row with
  | Some row =>
      fail_if negb (sr_Revision (rw_Review row) =? expected) with review_conflict "integrity_review_revision" ;;
      exec (set_reviews (<[sr_ID review := mkReviewRow review (rw_AttemptID row) (rw_DeliveryInventoryRevision row)]>))
  | None => mthrow (review_conflict "integrity_review_revision")
  end.

(** A method called on a loaded value. *)
Definition call {S A} (m : Method S A) (v : S) : result S := on_copy m v.

(** ** Decisions and drafts *)

Record DecisionMutation := mkDecisionMutation {
  dm_SubmissionID : ID;
  dm_ReviewID : ID;
  dm_DecisionID : ID;
  dm_FlagID : ID;
  dm_ActorUserID : ID;
  dm_ManagerOverride : bool;
  dm_ExpectedReviewRevision : Z;
  dm_ExpectedRevision : Z;
  dm_Outcome : IntegrityReviewOutcome;
  dm_PrivateRationale : string;
  dm_ChangedAt : Time }.
Definition decision_on (reviewID flagID : ID) (d : DecisionRow) : bool :=
  (de_ReviewID (dw_Decision d) ==? reviewID) && (de_FlagID (dw_Decision d) ==? flagID).
Definition decision_conflict : error := conflict "integrity_review_decision" "integrity_decision_revision" None.
Definition decisionRow_value (r : DecisionRow) : result IntegrityReviewDecision :=
  match IntegrityReviewDecision_Validate (Some (dw_Decision r)) with
  | Ok _ => Ok (dw_Decision r)
  | Err err => Err (invalidPersistedState "integrity_review_decision" "value" err)
  end.

Definition insert_decision (input : DecisionMutation) (reviewID attemptID : ID) : Tx ReviewTables IntegrityReviewDecision :=
  _ ← refuse_if (λ t, negb (affected (decision_on reviewID (dm_FlagID input)) (rt_decisions t) =? 0)%nat) decision_conflict;
  decision ← check (NewIntegrityReviewDecision (dm_DecisionID input) reviewID (dm_FlagID input) (dm_Outcome input)
                      (dm_ActorUserID input) (dm_PrivateRationale input) (dm_ChangedAt input));
  _ ← refuse_if (λ t, bool_decide (is_Some (rt_decisions t !! de_ID decision)))
        (conflict "integrity_review_decision" "integrity_review_decisions_pkey" None);
  _ ← exec (set_decisions (<[de_ID decision := mkDecisionRow decision attemptID]>));
  mret decision.
Definition revise_decision (input : DecisionMutation) (reviewID : ID) : Tx ReviewTables IntegrityReviewDecision :=
  rows ← query (λ t, select (decision_on reviewID (dm_FlagID input)) (rt_decisions t));
  row ← check (match rows with [] => Err ErrNoRows | row :: _ => Ok row end);
  decision ← check (decisionRow_value row);
  decision ← check (call (IntegrityReviewDecision_Revise (dm_ExpectedRevision input) (dm_Outcome input) (dm_ActorUserID input)
                            (dm_PrivateRationale input) (dm_ChangedAt input)) decision);
  _ ← exec (set_decisions (<[de_ID decision := mkDecisionRow decision (dw_AttemptID row)]>));
  mret decision.

(** The Review a decision belongs to: new, or the one that was loaded. *)
Definition decided_review (input : DecisionMutation) (attemptID : ID) : Tx ReviewTables SubmissionReview :=
  if dm_ExpectedReviewRevision input =? 0 then
    review ← check (NewSubmissionReview (dm_ReviewID input) (dm_SubmissionID input) (dm_ActorUserID input) (dm_ChangedAt input));
    _ ← insertReview review attemptID;
    mret review
  else
    review ← loadReviewForMutation (dm_SubmissionID input);
    fail_if (sr_ID review !=? dm_ReviewID input) || negb (sr_Revision review =? dm_ExpectedReviewRevision input)
      with review_conflict "integrity_review_revision" ;;
    mret review.
Definition saveReviewDecision (out : Outside) (input : DecisionMutation) : Tx ReviewTables SubmissionReview :=
  auth ← lockReviewScope (dm_SubmissionID input) (dm_ActorUserID input) (dm_ManagerOverride input);
  review ← decided_review input (sw_AttemptID auth);
  flag ← query (λ t, rt_flags t !! dm_FlagID input);
  fail_if match flag with Some f => fw_AttemptID f !=? sw_AttemptID auth | None => true end
    with StoreError ErrNotFound "integrity_flag" (dm_FlagID input) None ;;
  _ ← (if dm_ExpectedRevision input =? 0 then insert_decision input (sr_ID review) (sw_AttemptID auth)
       else revise_decision input (sr_ID review));
  review ← (if 0 <? dm_ExpectedReviewRevision input then
              match call (SubmissionReview_TouchDraft (dm_ExpectedReviewRevision input) (dm_ChangedAt input)) review with
              | Err err => mthrow (conflict "submission_review" "integrity_review_revision" (Some err))
              | Ok review =>
                  _ ← persistReview review (dm_ExpectedReviewRevision input);
                  mret review
              end
            else mret review);
  _ ← check (out_records out);
  _ ← check (out_audit out);
  mret review.

Record DraftMutation := mkDraftMutation {
  xm_SubmissionID : ID;
  xm_ReviewID : ID;
  xm_ActorUserID : ID;
  xm_ManagerOverride : bool;
  xm_ExpectedRevision : Z;
  xm_ManagerNotes : string;
  xm_StudentRemarksMarkdown : string;
  xm_ChangedAt : Time }.
Definition updateReviewDraft (out : Outside) (input : DraftMutation) : Tx ReviewTables SubmissionReview :=
  auth ← lockReviewScope (xm_SubmissionID input) (xm_ActorUserID input) (xm_ManagerOverride input);
  review ← (if xm_ExpectedRevision input =? 0 then
              review ← check (NewSubmissionReview (xm_ReviewID input) (xm_SubmissionID input) (xm_ActorUserID input) (xm_ChangedAt input));
              let review := review <| sr_ManagerNotes := xm_ManagerNotes input |>
                              <| sr_StudentRemarksMarkdown := xm_StudentRemarksMarkdown input |> in
              _ ← check (SubmissionReview_Validate (Some review));
              _ ← insertReview review (sw_AttemptID auth);
              mret review
            else
              review ← loadReviewForMutation (xm_SubmissionID input);
              fail_if (sr_ID review !=? xm_ReviewID input) || negb (sr_Revision review =? xm_ExpectedRevision input)
                with review_conflict "integrity_review_revision" ;;
              review ← check (call (SubmissionReview_UpdateDraft (xm_ExpectedRevision input) (xm_ManagerNotes input)
                                      (xm_StudentRemarksMarkdown input) (xm_ChangedAt input)) review);
              _ ← persistReview review (xm_ExpectedRevision input);
              mret review);
  _ ← check (out_records out);
  _ ← check (out_audit out);
  mret review.

(** ** Finalization *)

Definition of_attempt {A} (attempt : A → ID) (attemptID : ID) (a : A) : bool := attempt a ==? attemptID.
(** [ORDER BY id LIMIT n] *)
Definition ordered {A} (id : A → ID) (limit : Z) (rows : list A) : list A := take (Z.to_nat limit) (merge_sort (by_id id) rows).

Definition current_decision (reviewID flagID : ID) (d : DecisionRow) : bool :=
  decision_on reviewID flagID d && negb (de_InventoryStale (dw_Decision d)).
(** A Flag with its current decision in the Review, or none ([LEFT JOIN]; a Review has at most
    one decision on a Flag). *)
Definition joined_flag (reviewID : ID) (t : ReviewTables) (f : FlagRow) : FlagRow * option IntegrityReviewDecision :=
  (f, dw_Decision <$> head (select (current_decision reviewID (fw_ID f)) (rt_decisions t))).
Fixpoint flag_items (rows : list (FlagRow * option IntegrityReviewDecision)) : result (list IntegrityReviewInventoryFlag) :=
  match rows with
  | [] => Ok []
  | (f, None) :: _ => Err (review_conflict "integrity_review_incomplete")
  | (f, Some d) :: rows =>
      items ← flag_items rows;
      Ok (mkInventoryFlag (fw_ID f) (de_ID d) (de_Revision d) :: items)
  end.
Definition too_large (n : nat) (maximum : Z) : bool := maximum <? Z.of_nat n.
Definition lockReviewInventoryFlags (reviewID attemptID : ID) : Tx ReviewTables (list IntegrityReviewInventoryFlag) :=
  rows ← query (λ t, map (joined_flag reviewID t) (ordered fw_ID 457 (select (of_attempt fw_AttemptID attemptID) (rt_flags t))));
  fail_if too_large (length rows) SubmissionReviewMaximumFlags with review_conflict "integrity_review_too_large" ;;
  check (flag_items rows).
Definition lockReviewInventoryEvidence (attemptID : ID) : Tx ReviewTables (list IntegrityReviewInventoryEvidence) :=
  rows ← query (λ t, ordered ew_ID 30001 (select (of_attempt ew_AttemptID attemptID) (rt_evidence t)));
  fail_if too_large (length rows) SubmissionReviewMaximumEvidence with review_conflict "integrity_review_too_large" ;;
  mret (map (λ e, mkInventoryEvidence (ew_ID e) (ew_FlagID e)) rows).
Definition lockReviewInventoryDiscrepancies (submissionID : ID) : Tx ReviewTables (list IntegrityReviewInventoryDiscrepancy) :=
  rows ← query (λ t, ordered xw_ID 201 (select (of_attempt xw_SubmissionID submissionID) (rt_discrepancies t)));
  fail_if too_large (length rows) SubmissionReviewMaximumDiscrepancies with review_conflict "integrity_review_too_large" ;;
  mret (map xw_ID rows).

Definition ErrNativeDeliveryInvalid : error := SentinelError "native delivery is invalid".
Definition NewNativeConditionInventory : NativeConditionInventory :=
  mkNativeConditionInventory 0 (SHA256Fingerprint "proctor.native_conditions").
Definition NativeConditionInventory_Validate (v : NativeConditionInventory) : result unit :=
  fail_if (nc_Records v <? 0) || (DeliveryAttemptRecordLimit <? nc_Records v) || negb (IsValidSHA256Fingerprint (nc_Digest v))
          || ((nc_Records v =? 0) && (nc_Digest v !=? nc_Digest NewNativeConditionInventory))
    with ErrNativeDeliveryInvalid ;;
  Ok tt.
(** [strings.TrimPrefix] of the fingerprint leaves the digest in hexadecimal. *)
Definition IntegrityReviewNativeDigest (base : string) (inventory : NativeConditionInventory) : result string :=
  fail_if negb (validLowerSHA256 base) || negb (is_ok (NativeConditionInventory_Validate inventory)) with ErrNativeDeliveryInvalid ;;
  if nc_Records inventory =? 0 then Ok base
  else Ok (hex_encode (sha256 (bytes "proctor.review.native_conditions" ++ [0] ++ bytes base ++ bytes (nc_Digest inventory)
                                 ++ PutUint64 (uint64 (nc_Records inventory))))).

Definition reviewFinalizationDigest (attemptID : ID) (inventory : Inventory) : Tx ReviewTables string :=
  digest ← check (IntegrityReviewInventoryDigest (in_flags inventory) (in_evidence inventory) (in_discrepancies inventory));
  budget ← query (λ t, rt_budgets t !! attemptID);
  match budget with
  | None => mthrow ErrNoRows
  | Some budget =>
      _ ← check (validatePersistedModel "browser_submission" BrowserSubmissionSettlement_Validate (bw_Settlement budget));
      digest ← check (IntegrityReviewDeliveryDigest digest (bw_Settlement budget) (bw_ReviewInventoryRevision budget));
      _ ← check (validatePersistedModel "native_condition" NativeConditionInventory_Validate (bw_Native budget));
      check (IntegrityReviewNativeDigest digest (bw_Native budget))
  end.
Definition inventory_items (i : Inventory) : list InventoryItem :=
  map InventoryFlag (in_flags i) ++ map InventoryEvidence (in_evidence i) ++ map InventoryDiscrepancy (in_discrepancies i).
(** The rows are new: no row of the Review has its next revision. *)
Definition insertReviewInventory (review : SubmissionReview) (inventory : Inventory) : Tx ReviewTables unit :=
  exec (λ t, t <| rt_inventory := rt_inventory t ++ map (λ i, (sr_ID review, int64_succ (sr_Revision review), i)) (inventory_items inventory) |>).

Record FinalizeInput := mkFinalizeInput {
  fm_SubmissionID : ID;
  fm_ReviewID : ID;
  fm_ActorUserID : ID;
  fm_ManagerOverride : bool;
  fm_ExpectedRevision : Z;
  fm_ChangedAt : Time }.
Definition finalizeReview (out : Outside) (input : FinalizeInput) : Tx ReviewTables SubmissionReview :=
  auth ← lockReviewScope (fm_SubmissionID input) (fm_ActorUserID input) (fm_ManagerOverride input);
  review ← loadReviewForMutation (fm_SubmissionID input);
  fail_if (sr_ID review !=? fm_ReviewID input) || negb (sr_Revision review =? fm_ExpectedRevision input)
    with review_conflict "integrity_review_revision" ;;
  fail_if (sw_IntegrityState auth !=? "settled") && (sw_IntegrityState auth !=? "gapped")
    with review_conflict "integrity_review_incomplete" ;;
  flags ← lockReviewInventoryFlags (sr_ID review) (sw_AttemptID auth);
  evidence ← lockReviewInventoryEvidence (sw_AttemptID auth);
  discrepancies ← lockReviewInventoryDiscrepancies (fm_SubmissionID input);
  let inventory := mkInventory flags evidence discrepancies in
  digest ← reviewFinalizationDigest (sw_AttemptID auth) inventory;
  _ ← insertReviewInventory review inventory;
  review ← check (call (SubmissionReview_Finalize (fm_ExpectedRevision input) (fm_ActorUserID input) (Z.of_nat (length flags))
                          (Z.of_nat (length evidence)) (Z.of_nat (length discrepancies)) digest (fm_ChangedAt input)) review);
  _ ← persistReview review (fm_ExpectedRevision input);
  _ ← check (out_snapshot out);
  _ ← check (out_audit out);
  mret review.

(** ** Release *)

Definition resultReleaseInstant (databaseNow : Time) (review : SubmissionReview) : Time :=
  transitionInstant databaseNow [sr_CreatedAt review; sr_UpdatedAt review; ot_Time (sr_FinalizedAt review)].
Definition lockResultReleasePreparation (reviewID : ID) : Tx ReviewTables PreparationRow :=
  row ← query (λ t, rt_preparations t !! reviewID);
  match row with Some row => mret row | None => mthrow (review_conflict "result_release_time") end.
Definition deleteResultReleasePreparation (reviewID : ID) : Tx ReviewTables unit :=
  row ← query (λ t, rt_preparations t !! reviewID);
  match row with
  | Some _ => exec (λ t, t <| rt_preparations := delete reviewID (rt_preparations t) |>)
  | None => mthrow (review_conflict "result_release_time")
  end.

(** The preparation: the release instant, and whether the release already happened. *)
Definition PrepareRelease (now : Time) (submissionID reviewID : ID) (expectedRevision : Z) : Tx ReviewTables (bool * Time) :=
  fail_if negb (ID_IsValid submissionID) || negb (ID_IsValid reviewID) || (expectedRevision <? 1)
    with StoreError ErrInvalidInput "submission_review" "release_preparation" None ;;
  _ ← requireLiveSubmissionIntegrity submissionID;
  review ← loadReviewForMutation submissionID;
  fail_if sr_ID review !=? reviewID with review_conflict "integrity_review_revision" ;;
  let finalized := sr_State review ==? SubmissionReviewFinalized in
  let replayed := finalized && (sr_ReleaseState review ==? SubmissionReviewReleased)
                  && (sr_Revision review =? int64_succ expectedRevision) in
  let fresh := finalized && (sr_ReleaseState review ==? SubmissionReviewWithheld) && (sr_Revision review =? expectedRevision) in
  fail_if negb fresh && negb replayed with review_conflict "integrity_review_state" ;;
  let releaseAt := resultReleaseInstant now review in
  if replayed then mret (true, releaseAt)
  else
    _ ← exec (λ t, match rt_preparations t !! reviewID with
                   | Some _ => t
                   | None => t <| rt_preparations := <[reviewID := mkPreparationRow submissionID expectedRevision releaseAt]> (rt_preparations t) |>
                   end);
    preparation ← lockResultReleasePreparation reviewID;
    fail_if (pw_SubmissionID preparation !=? submissionID) || negb (pw_ExpectedReviewRevision preparation =? expectedRevision)
      with review_conflict "result_release_time" ;;
    mret (false, TimeUTC (pw_ReleaseAt preparation)).

Record ReleaseInput := mkReleaseInput {
  lm_SubmissionID : ID;
  lm_ReviewID : ID;
  lm_ActorUserID : ID;
  lm_ManagerOverride : bool;
  lm_CandidateUserID : ID;
  lm_ExpectedRevision : Z;
  lm_ExpectedRecipientRevision : Z;
  lm_ChangedAt : Time;
  lm_AuditAt : Time }.
Definition releaseReview (out : Outside) (now : Time) (input : ReleaseInput) : Tx ReviewTables SubmissionReview :=
  recipient ← check (out_recipient out);
  auth ← lockReviewScope (lm_SubmissionID input) (lm_ActorUserID input) (lm_ManagerOverride input);
  review ← loadReviewForMutation (lm_SubmissionID input);
  fail_if (sr_ID review !=? lm_ReviewID input) || negb (sr_Revision review =? lm_ExpectedRevision input)
    with review_conflict "integrity_review_revision" ;;
  preparation ← lockResultReleasePreparation (lm_ReviewID input);
  let releaseAt := TimeUTC (pw_ReleaseAt preparation) in
  fail_if (pw_SubmissionID preparation !=? lm_SubmissionID input)
          || negb (pw_ExpectedReviewRevision preparation =? lm_ExpectedRevision input)
          || negb (Time_Equal releaseAt (TimeUTC (lm_AuditAt input))) || negb (Time_Equal releaseAt (lm_ChangedAt input))
          || Time_After releaseAt (resultReleaseInstant now review)
    with review_conflict "result_release_time" ;;
  fail_if (sw_CandidateUserID auth !=? lm_CandidateUserID input) || negb (recipient =? lm_ExpectedRecipientRevision input)
    with review_conflict "result_release_recipient_changed" ;;
  _ ← check (out_mail out);
  review ← match call (SubmissionReview_Release (lm_ExpectedRevision input) (lm_ActorUserID input) releaseAt) review with
           | Err err => mthrow (conflict "submission_review" "integrity_review_state" (Some err))
           | Ok review => mret review
           end;
  _ ← persistReview review (lm_ExpectedRevision input);
  _ ← check (out_audit out);
  _ ← check (out_notice out);
  _ ← deleteResultReleasePreparation (lm_ReviewID input);
  mret review.

Definition released_row (r : ReviewRow) : bool :=
  (sr_State (rw_Review r) ==? SubmissionReviewFinalized) && (sr_ReleaseState (rw_Review r) ==? SubmissionReviewReleased).
Definition result_of (t : ReviewTables) (attemptID candidateID : ID) (r : ReviewRow) : bool :=
  released_row r &&
  match rt_submissions t !! sr_SubmissionID (rw_Review r) with
  | Some sub => (sw_AttemptID sub ==? attemptID) && (sw_CandidateUserID sub ==? candidateID) && negb (sw_IntegrityRetired sub)
  | None => false
  end.
Definition GetReleasedStudentResult (attemptID candidateID : ID) (t : ReviewTables) : result StudentResult :=
  fail_if negb (ID_IsValid attemptID) || negb (ID_IsValid candidateID)
    with StoreError ErrInvalidInput "student_result" "identity" None ;;
  row ← get_row "student_result" attemptID (select (result_of t attemptID candidateID) (rt_reviews t));
  let r := rw_Review row in
  Ok (mkStudentResult (sr_ID r) (sr_SubmissionID r) attemptID candidateID (sr_StudentRemarksMarkdown r)
        (TimeUTC (ot_Time (sr_ReleasedAt r)))).

(** ** Late delivery *)

Definition reopened (now : Time) (delivery : Z) (r : ReviewRow) : ReviewRow :=
  mkReviewRow ((rw_Review r) <| sr_State := SubmissionReviewDraft |> <| sr_ReleaseState := SubmissionReviewWithheld |>
                 <| sr_Revision := sr_Revision (rw_Review r) + 1 |> <| sr_UpdatedAt := greatest (sr_UpdatedAt (rw_Review r)) now |>
                 <| sr_FlagCount := 0 |> <| sr_EvidenceCount := 0 |> <| sr_DiscrepancyCount := 0 |>
                 <| sr_EvidenceInventoryDigest := "" |> <| sr_FinalizedAt := noTime |> <| sr_FinalizedByUserID := "" |>
                 <| sr_ReleasedAt := noTime |> <| sr_ReleasedByUserID := "" |>) (rw_AttemptID r) delivery.
Definition live_attempt (attemptID : ID) (r : SubmissionRow) : bool :=
  (sw_AttemptID r ==? attemptID) && sw_Sealed r && negb (sw_IntegrityRetired r).
Definition invalidateDeliveryReviewInventory (out : Outside) (now : Time) (attemptID : ID) : Tx ReviewTables unit :=
  rows ← query (λ t, select (live_attempt attemptID) (rt_submissions t));
  match rows with
  | [] => mret tt
  | sub :: _ =>
      _ ← exec (λ t, t <| rt_budgets := alter (λ b, b <| bw_ReviewInventoryRevision := bw_ReviewInventoryRevision b + 1 |>)
                            attemptID (rt_budgets t) |>);
      _ ← exec (λ t, set_reviews (set_where (of_submission (sw_ID sub))
                   (reopened now (from_option bw_ReviewInventoryRevision 0 (rt_budgets t !! attemptID)))) t);
      _ ← exec (λ t, t <| rt_preparations := delete_where (λ p, pw_SubmissionID p ==? sw_ID sub) (rt_preparations t) |>);
      check (out_records out)
  end.
Definition staleBrowserGroupDecision (out : Outside) (now : Time) (attemptID flagID : ID) : Tx ReviewTables unit :=
  _ ← invalidateDeliveryReviewInventory out now attemptID;
  exec (set_decisions (set_where (λ d, (de_FlagID (dw_Decision d) ==? flagID) && negb (de_InventoryStale (dw_Decision d)))
                         (λ d, mkDecisionRow ((dw_Decision d) <| de_InventoryStale := true |>) (dw_AttemptID d)))).

(** The fields of a [BrowserActivityEvent] that are read here. *)
Record BrowserEvent := mkBrowserEvent { be_Kind : string; be_PolicyRevisionID : ID; be_MatchedRuleID : option string }.
Definition BrowserActivityBlockedNavigation : string := "blocked_top_level_navigation".
Definition BrowserIntegrityRule (event : BrowserEvent) (policy : BrowserPolicy) : option BrowserPolicyRule :=
  match be_MatchedRuleID event with
  | Some matched =>
      if be_Kind event ==? BrowserActivityBlockedNavigation then
        find (λ rule, (RuleID rule ==? matched)
                      && (BlockedNavigationOutcome rule ==? BrowserPolicyBlockedNavigationIntegrityEvidence)) (bp_Rules policy)
      else None
  | None => None
  end.
Definition BrowserFlagGroupLimit : Z := 256.
Definition BrowserEvidenceRecordLimit : Z := 10000.
Definition BrowserEvidenceByteLimit : Z := 8 * 1024 * 1024.

Definition group_of (attemptID participationID policyRevisionID : ID) (ruleID : string) (g : GroupRow) : bool :=
  (gw_AttemptID g ==? attemptID) && (gw_ParticipationID g ==? participationID)
  && (gw_PolicyRevisionID g ==? policyRevisionID) && (gw_RuleID g ==? ruleID).
Definition set_budget (attemptID : ID) (f : BudgetRow → BudgetRow) (t : ReviewTables) := t <| rt_budgets := alter f attemptID (rt_budgets t) |>.

(** The Flag and group of a rule that has none yet. *)
Definition open_group (flagID attemptID : ID) (owner : SourceRow) (policyRevisionID : ID) (ruleID : string) : Tx ReviewTables GroupRow :=
  _ ← refuse_if (λ t, bool_decide (is_Some (rt_flags t !! flagID))) (conflict "integrity_flag" "integrity_flags_pkey" None);
  let group := mkGroupRow flagID attemptID (ow_ParticipationID owner) policyRevisionID ruleID 0 0 in
  _ ← exec (λ t, t <| rt_flags := <[flagID := mkFlagRow flagID attemptID (ow_Generation owner)]> (rt_flags t) |>);
  _ ← exec (λ t, t <| rt_groups := <[flagID := group]> (rt_groups t) |>);
  _ ← exec (set_budget attemptID (λ b, b <| bw_FlagGroups := bw_FlagGroups b + 1 |>));
  mret group.
(** [detail]: the length of the canonical detail of the event, or why it is refused. *)
Definition keep_detail (attemptID evidenceID : ID) (budget : BudgetRow) (group : GroupRow) (size : Z) : Tx ReviewTables unit :=
  if (gw_RetainedDetails group <? 100) && (bw_EvidenceRecords budget <? BrowserEvidenceRecordLimit)
     && (bw_EvidenceBytes budget + size <=? BrowserEvidenceByteLimit) then
    _ ← refuse_if (λ t, bool_decide (is_Some (rt_evidence t !! evidenceID))) (conflict "integrity_evidence" "integrity_evidence_pkey" None);
    _ ← exec (λ t, t <| rt_evidence := <[evidenceID := mkEvidenceRow evidenceID attemptID (gw_FlagID group)]> (rt_evidence t) |>);
    _ ← exec (λ t, t <| rt_groups := alter (λ g, g <| gw_RetainedDetails := gw_RetainedDetails g + 1 |>) (gw_FlagID group) (rt_groups t) |>);
    exec (set_budget attemptID (λ b, b <| bw_EvidenceRecords := bw_EvidenceRecords b + 1 |> <| bw_EvidenceBytes := bw_EvidenceBytes b + size |>))
  else
    exec (λ t, t <| rt_groups := alter (λ g, g <| gw_OverflowCount := gw_OverflowCount g + 1 |>) (gw_FlagID group) (rt_groups t) |>).

Definition retainBrowserIntegrity (out : Outside) (now : Time) (source : string) (attemptID : ID) (event : BrowserEvent)
    (policy : BrowserPolicy) (flagID evidenceID : ID) (detail : result Z) : Tx ReviewTables unit :=
  match BrowserIntegrityRule event policy with
  | None => mret tt
  | Some rule =>
      retired ← query (λ t, affected (λ s, (sw_AttemptID s ==? attemptID) && sw_IntegrityRetired s) (rt_submissions t));
      if negb (retired =? 0)%nat then mret tt
      else
        owner ← query (λ t, rt_sources t !! source);
        budget ← query (λ t, rt_budgets t !! attemptID);
        match owner, budget with
        | Some owner, Some budget =>
            fail_if ow_AttemptID owner !=? attemptID with ErrNoRows ;;
            groups ← query (λ t, select (group_of attemptID (ow_ParticipationID owner) (be_PolicyRevisionID event) (RuleID rule)) (rt_groups t));
            match groups with
            | [] =>
                if BrowserFlagGroupLimit <=? bw_FlagGroups budget then
                  _ ← exec (λ t, t <| rt_overflow := <[attemptID := from_option id 0 (rt_overflow t !! attemptID) + 1]> (rt_overflow t) |>);
                  invalidateDeliveryReviewInventory out now attemptID
                else
                  group ← open_group flagID attemptID owner (be_PolicyRevisionID event) (RuleID rule);
                  size ← check detail;
                  _ ← keep_detail attemptID evidenceID budget group size;
                  staleBrowserGroupDecision out now attemptID (gw_FlagID group)
            | group :: _ =>
                size ← check detail;
                _ ← keep_detail attemptID evidenceID budget group size;
                staleBrowserGroupDecision out now attemptID (gw_FlagID group)
            end
        | _, _ => mthrow ErrNoRows
        end
  end.

(** ** Retirement *)

(** The statements of [retireSubmissionIntegrity] on the tables of this file; the deletion of a
    Review cascades to its preparation. *)
Definition retireSubmissionIntegrity (submissionID : ID) : Tx ReviewTables unit :=
  attempt ← query (λ t, sw_AttemptID <$> rt_submissions t !! submissionID);
  let of_the_attempt (a : ID) := bool_decide (attempt = Some a) in
  let in_reviews (t : ReviewTables) (reviewID : ID) :=
    bool_decide ((sr_SubmissionID ∘ rw_Review <$> rt_reviews t !! reviewID) = Some submissionID) in
  _ ← exec (λ t, t <| rt_inventory := filter (λ i, in_reviews t i.1.1 = false) (rt_inventory t) |>);
  _ ← exec (λ t, set_decisions (delete_where (λ d, in_reviews t (de_ReviewID (dw_Decision d)))) t);
  _ ← exec (λ t, t <| rt_preparations := delete_where (λ p, pw_SubmissionID p ==? submissionID) (rt_preparations t) |>);
  _ ← exec (set_reviews (delete_where (of_submission submissionID)));
  _ ← exec (λ t, t <| rt_discrepancies := delete_where (λ x, xw_SubmissionID x ==? submissionID) (rt_discrepancies t) |>);
  _ ← exec (λ t, t <| rt_evidence := delete_where (λ e, of_the_attempt (ew_AttemptID e)) (rt_evidence t) |>);
  _ ← exec (λ t, t <| rt_groups := delete_where (λ g, of_the_attempt (gw_AttemptID g)) (rt_groups t) |>);
  _ ← exec (λ t, t <| rt_overflow := filter (λ o, of_the_attempt o.1 = false) (rt_overflow t) |>);
  _ ← exec (λ t, t <| rt_flags := delete_where (λ f, of_the_attempt (fw_AttemptID f)) (rt_flags t) |>);
  exec (λ t, t <| rt_submissions := set_where (λ s, (sw_ID s ==? submissionID) && negb (sw_IntegrityRetired s))
                    (λ s, s <| sw_IntegrityRetired := true |> <| sw_IntegrityState := "retired" |>) (rt_submissions t) |>).
