(* ===== verification/ReviewSafety.v ===== *)
(** * Safety of the Review store

    Every sequence of Review transactions, late deliveries and writes of the other components
    keeps the finalized Reviews complete and current: a result is visible only while every Flag
    of the Attempt has a current decision in the released Review. *)

From S2P Require Import Prelude GoTime GoStrings Ident ModelError SqlTx Sha256 Delivery DeliveryBudget Submission GoMarshal FocusLoss BrowserUrl BrowserPolicy Review ReviewStore.

(** ** The invariant *)

Definition flags_of (t : ReviewTables) (attemptID : ID) : list FlagRow := select (of_attempt fw_AttemptID attemptID) (rt_flags t).
Definition evidence_of (t : ReviewTables) (attemptID : ID) : list EvidenceRow :=
  select (of_attempt ew_AttemptID attemptID) (rt_evidence t).
(** The Review accounts for every Flag and every piece of Evidence of the Attempt, and each
    Flag has a current decision in it. *)
Definition reviewed (t : ReviewTables) (review : SubmissionReview) (attemptID : ID) : Prop :=
  sr_FlagCount review = Z.of_nat (length (flags_of t attemptID)) ∧
  sr_EvidenceCount review = Z.of_nat (length (evidence_of t attemptID)) ∧
  ∀ f, f ∈ flags_of t attemptID → ∃ k d, rt_decisions t !! k = Some d ∧ current_decision (sr_ID review) (fw_ID f) d = true.

(** [except]: an Attempt whose Review is about to be reopened. *)
Record store_inv (except : option ID) (t : ReviewTables) : Prop := {
  so_submissions : ∀ k s, rt_submissions t !! k = Some s → sw_ID s = k;
  so_one_submission : ∀ k s k' s', rt_submissions t !! k = Some s → rt_submissions t !! k' = Some s' →
    sw_AttemptID s = sw_AttemptID s' → k = k';
  so_reviews : ∀ k r, rt_reviews t !! k = Some r → sr_ID (rw_Review r) = k ∧
    ∃ s, rt_submissions t !! sr_SubmissionID (rw_Review r) = Some s ∧ sw_AttemptID s = rw_AttemptID r ∧ sw_Sealed s = true;
  so_one_review : ∀ k r k' r', rt_reviews t !! k = Some r → rt_reviews t !! k' = Some r' →
    sr_SubmissionID (rw_Review r) = sr_SubmissionID (rw_Review r') → k = k';
  so_flags : ∀ k f, rt_flags t !! k = Some f → fw_ID f = k;
  so_decisions : ∀ k d, rt_decisions t !! k = Some d → de_ID (dw_Decision d) = k ∧
    (∃ r, rt_reviews t !! de_ReviewID (dw_Decision d) = Some r ∧ rw_AttemptID r = dw_AttemptID d) ∧
    (∃ f, rt_flags t !! de_FlagID (dw_Decision d) = Some f ∧ fw_AttemptID f = dw_AttemptID d);
  so_groups : ∀ k g, rt_groups t !! k = Some g → ∃ f, rt_flags t !! gw_FlagID g = Some f ∧ fw_AttemptID f = gw_AttemptID g;
  so_current : ∀ k r s, rt_reviews t !! k = Some r → sr_State (rw_Review r) = SubmissionReviewFinalized →
    rt_submissions t !! sr_SubmissionID (rw_Review r) = Some s → sw_IntegrityRetired s = false →
    except ≠ Some (rw_AttemptID r) → reviewed t (rw_Review r) (rw_AttemptID r) }.

Lemma store_inv_weaken t att : store_inv None t → store_inv (Some att) t.
Proof. intros []. split; try done. eauto. Qed.

(** ** Reading *)


Lemma guard_ok examID actorID override t r : guardExamSittingManagerExam examID actorID override t = Ok r → r = (t, tt).
Proof.
  unfold guardExamSittingManagerExam. rewrite tx_query. destruct (rt_managers t !! examID); [|done].
  intros H. inv_tx H. done.
Qed.
Lemma lockReviewScope_ok submissionID actorID override t t' auth : lockReviewScope submissionID actorID override t = Ok (t', auth) →
  t' = t ∧ live_row submissionID auth = true ∧ ∃ k, rt_submissions t !! k = Some auth.
Proof.
  unfold lockReviewScope. intros H. inv_tx H. apply tx_bind_ok in H as (t1 & [] & [= ->]%guard_ok & H). inv_tx H.
  match goal with G : get_row _ _ (select (live_row _) _) = Ok _ |- _ => apply get_row_ok in G end. done.
Qed.
Lemma loadReview_ok submissionID t t' review : loadReviewForMutation submissionID t = Ok (t', review) →
  t' = t ∧ SubmissionReview_Validate (Some review) = Ok tt ∧
  ∃ k row, rt_reviews t !! k = Some row ∧ rw_Review row = review ∧ sr_SubmissionID review = submissionID.
Proof.
  unfold loadReviewForMutation. intros H. inv_tx H. apply check_ok in H as (a & Ha & [= -> ->]).
  match goal with G : get_row _ _ _ = Ok _ |- _ => apply get_row_ok in G as (Hp & k & Hk) end.
  unfold examSubmissionReviewRow_value in Ha. destruct (SubmissionReview_Validate (Some (rw_Review v))) as [[]|] eqn:E; [|done].
  injection Ha as <-. split_and!; [done..|]. unfold of_submission in Hp. to_prop. eauto.
Qed.
Lemma call_ok {S A} (m : Method S A) review review' : call m review = Ok review' →
  ∃ p a, m (Some review) = (p, Ok a) ∧ review' = default review p.
Proof. unfold call, on_copy. destruct (m (Some review)) as [p [a|e]]; [intros [= <-]; eauto|done]. Qed.
Lemma call_review op review review' : call (review_apply op) review = Ok review' →
  review_apply op (Some review) = (Some review', Ok tt).
Proof.
  intros (p & [] & H & ->)%call_ok. rewrite H. assert (is_Some p) as [r' ->]; [|done].
  destruct p; [done|]. exfalso. destruct op; cbn [review_apply] in H;
    unfold SubmissionReview_UpdateDraft, SubmissionReview_TouchDraft, SubmissionReview_Finalize, SubmissionReview_Release in H;
    inv_run H; by apply run_assign in H.
Qed.

Lemma ordered_all {A} (id : A → ID) n (rows : list A) : Z.of_nat (length (ordered id n rows)) < n → ordered id n rows ≡ₚ rows.
Proof.
  unfold ordered. pose proof (merge_sort_Permutation (by_id id) rows) as Hp. rewrite length_take.
  intros H. rewrite take_ge by lia. done.
Qed.
Lemma flag_items_ok rows items : flag_items rows = Ok items →
  length items = length rows ∧ ∀ f o, (f, o) ∈ rows → ∃ d, o = Some d.
Proof.
  revert items. induction rows as [|[f [d|]] rows IH]; intros items; cbn [flag_items].
  - intros [= <-]. split; [done|]. intros f o H%elem_of_nil. done.
  - rewrite ok_bind. intros (l & Hl & [= <-]%ok_inj). destruct (IH l Hl) as [H1 H2]. split; [cbn; lia|].
    intros f' o [[= -> ->]|Hin]%elem_of_cons; eauto.
  - done.
Qed.
Lemma lockFlags_ok reviewID attemptID t t' flags : lockReviewInventoryFlags reviewID attemptID t = Ok (t', flags) →
  t' = t ∧ length flags = length (flags_of t attemptID) ∧
  ∀ f, f ∈ flags_of t attemptID → ∃ k d, rt_decisions t !! k = Some d ∧ current_decision reviewID (fw_ID f) d = true.
Proof.
  unfold lockReviewInventoryFlags. intros H. inv_tx H. apply check_ok in H as (items & Hi & [= -> ->]).
  fold (flags_of t attemptID) in *. match goal with G : too_large _ _ = false |- _ => rename G into Hl end.
  unfold too_large, SubmissionReviewMaximumFlags in Hl. rewrite length_map in Hl. apply Z.ltb_ge in Hl.
  assert (Hp : ordered fw_ID 457 (flags_of t attemptID) ≡ₚ flags_of t attemptID) by (apply ordered_all; lia).
  apply flag_items_ok in Hi as [Hlen Hall]. rewrite length_map in Hlen. split_and!; [done|by rewrite Hlen, Hp|].
  intros f Hf. rewrite <-Hp in Hf. destruct (Hall f (joined_flag reviewID t f).2) as (d & Hd).
  { apply list_elem_of_fmap. by exists f. }
  unfold joined_flag in Hd. cbn in Hd. destruct (select _ (rt_decisions t)) as [|row l] eqn:E; [done|].
  assert (row ∈ select (current_decision reviewID (fw_ID f)) (rt_decisions t)) as (Hc & k & Hk)%select_spec
    by (rewrite E; apply list_elem_of_here). eauto.
Qed.
Lemma lockEvidence_ok attemptID t t' evidence : lockReviewInventoryEvidence attemptID t = Ok (t', evidence) →
  t' = t ∧ length evidence = length (evidence_of t attemptID).
Proof.
  unfold lockReviewInventoryEvidence. intros H. inv_tx H. fold (evidence_of t attemptID) in *.
  match goal with G : too_large _ _ = false |- _ => rename G into Hl end.
  unfold too_large, SubmissionReviewMaximumEvidence in Hl. apply Z.ltb_ge in Hl. split; [done|]. rewrite length_map.
  by rewrite (ordered_all ew_ID 30001) by lia.
Qed.
Lemma lockDiscrepancies_ok submissionID t t' l : lockReviewInventoryDiscrepancies submissionID t = Ok (t', l) → t' = t.
Proof. unfold lockReviewInventoryDiscrepancies. intros H. by inv_tx H. Qed.
Lemma digest_ok attemptID inventory t t' digest : reviewFinalizationDigest attemptID inventory t = Ok (t', digest) → t' = t.
Proof.
  unfold reviewFinalizationDigest. intros H. inv_tx H. destruct (rt_budgets t !! attemptID); [|done]. inv_tx H.
  by apply check_ok in H as (? & _ & [= -> _]).
Qed.

(** ** Writing *)

(** [reviewed] reads the Flags and Evidence of the Attempt and the decisions of the Review. *)
Lemma reviewed_mono t t' review attemptID :
  flags_of t' attemptID ≡ₚ flags_of t attemptID → evidence_of t' attemptID ≡ₚ evidence_of t attemptID →
  (∀ f k d, f ∈ flags_of t attemptID → rt_decisions t !! k = Some d → current_decision (sr_ID review) (fw_ID f) d = true →
     ∃ k' d', rt_decisions t' !! k' = Some d' ∧ current_decision (sr_ID review) (fw_ID f) d' = true) →
  reviewed t review attemptID → reviewed t' review attemptID.
Proof.
  intros Hf He Hd (H1 & H2 & H3). unfold reviewed. rewrite Hf, He. split_and!; [done..|]. intros f Hin. rewrite Hf in Hin.
  destruct (H3 f Hin) as (k & d & Hk & Hc). eauto.
Qed.

Lemma store_inv_frame x t t' : store_inv x t →
  rt_submissions t' = rt_submissions t → rt_reviews t' = rt_reviews t → rt_decisions t' = rt_decisions t →
  rt_flags t' = rt_flags t → rt_evidence t' = rt_evidence t → rt_groups t' = rt_groups t → store_inv x t'.
Proof. destruct t, t'. cbn. intros [] -> -> -> -> -> ->. split; done. Qed.

Lemma put_review x t k r r' : store_inv x t → rt_reviews t !! k = Some r →
  sr_ID (rw_Review r') = sr_ID (rw_Review r) → sr_SubmissionID (rw_Review r') = sr_SubmissionID (rw_Review r) →
  rw_AttemptID r' = rw_AttemptID r →
  (sr_State (rw_Review r') = SubmissionReviewFinalized → reviewed t (rw_Review r') (rw_AttemptID r)) →
  store_inv x (set_reviews <[k := r']> t).
Proof.
  intros [] Hk Hid Hsub Hatt Hrev.
  assert (Hlk : ∀ k' v, <[k := r']> (rt_reviews t) !! k' = Some v → ∃ w, rt_reviews t !! k' = Some w ∧
    sr_ID (rw_Review v) = sr_ID (rw_Review w) ∧ sr_SubmissionID (rw_Review v) = sr_SubmissionID (rw_Review w) ∧
    rw_AttemptID v = rw_AttemptID w).
  { intros k' v. rewrite lookup_insert_Some. intros [[<- <-]|[_ H]]; eauto 6. }
  split; cbn; [done..| | | | | |].
  - intros k' v (w & Hw & -> & -> & ->)%Hlk. eauto.
  - intros k1 v1 k2 v2 (w1 & Hw1 & _ & -> & _)%Hlk (w2 & Hw2 & _ & -> & _)%Hlk. eauto.
  - done.
  - intros k' d Hd. destruct (so_decisions0 k' d Hd) as (H1 & (w & Hw & Hwa) & H3). split_and!; [done| |done].
    destruct (decide (de_ReviewID (dw_Decision d) = k)) as [E|Hne]; [|rewrite lookup_insert_ne by done; eauto].
    rewrite E in *. rewrite lookup_insert_eq. exists r'. split; [done|]. congruence.
  - done.
  - intros k' v s. rewrite lookup_insert_Some. intros [[<- <-]|[_ H]] Hf Hs Hr Hx; [|by eapply so_current0].
    rewrite Hatt. by apply Hrev.
Qed.
Lemma add_review x t review s : store_inv x t → rt_reviews t !! sr_ID review = None →
  (∀ k r, rt_reviews t !! k = Some r → sr_SubmissionID (rw_Review r) ≠ sr_SubmissionID review) →
  rt_submissions t !! sr_SubmissionID review = Some s → sw_Sealed s = true → sr_State review = SubmissionReviewDraft →
  store_inv x (set_reviews <[sr_ID review := mkReviewRow review (sw_AttemptID s) 0]> t).
Proof.
  intros [] Hnew Hone Hs Hsealed Hdraft. split; cbn; [done..| | | | | |].
  - intros k r. rewrite lookup_insert_Some. intros [[<- <-]|[_ H]]; [split; [done|]; cbn; eauto|eauto].
  - intros k r k' r'. rewrite !lookup_insert_Some. intros [[<- <-]|[_ H]] [[<- <-]|[_ H']] E; cbn in E; [done| | |eauto].
    + by destruct (Hone _ _ H').
    + by destruct (Hone _ _ H).
  - done.
  - intros k d Hd. destruct (so_decisions0 k d Hd) as (H1 & (w & Hw & Hwa) & H3). split_and!; [done| |done].
    exists w. rewrite lookup_insert_ne; [done|]. congruence.
  - done.
  - intros k r s'. rewrite lookup_insert_Some. intros [[<- <-]|[_ H]] Hf; [cbn in Hf; congruence|]. by eapply so_current0.
Qed.

(** A write to a decision of a Review that is not finalized. *)
Lemma put_decision x t k d r f : store_inv x t → de_ID (dw_Decision d) = k →
  rt_reviews t !! de_ReviewID (dw_Decision d) = Some r → rw_AttemptID r = dw_AttemptID d →
  sr_State (rw_Review r) ≠ SubmissionReviewFinalized →
  rt_flags t !! de_FlagID (dw_Decision d) = Some f → fw_AttemptID f = dw_AttemptID d →
  (∀ d0, rt_decisions t !! k = Some d0 → de_ReviewID (dw_Decision d0) = de_ReviewID (dw_Decision d)) →
  store_inv x (set_decisions <[k := d]> t).
Proof.
  intros [] Hid Hr Hra Hst Hf Hfa Hold. split; cbn; [done..| |done|].
  - intros k' d'. rewrite lookup_insert_Some. intros [[<- <-]|[_ H]]; [|eauto]. split_and!; eauto.
  - intros k' v s Hv Hfin Hs Hret Hx. destruct (so_reviews0 k' v Hv) as [Hvid _].
    eapply (reviewed_mono t); [done|done| |by eapply so_current0].
    intros f' k1 d1 _ Hd1 Hc. exists k1, d1. split; [|done]. cbn. rewrite lookup_insert_ne; [done|]. intros <-.
    unfold current_decision, decision_on in Hc. to_prop. destruct Hc as [[Hc _] _]. rewrite (Hold d1 Hd1) in Hc. congruence.
Qed.

(** ** Reopening *)

(** No live Review of the Attempt is finalized. *)
Definition undecided (attemptID : ID) (t : ReviewTables) : Prop :=
  ∀ k r s, rt_reviews t !! k = Some r → rw_AttemptID r = attemptID → rt_submissions t !! sr_SubmissionID (rw_Review r) = Some s →
    sw_IntegrityRetired s = false → sr_State (rw_Review r) ≠ SubmissionReviewFinalized.

Lemma reopen_inv x t p now n attemptID : store_inv x t →
  (x = None ∨ x = Some attemptID) →
  (∀ k r s, rt_reviews t !! k = Some r → rw_AttemptID r = attemptID → rt_submissions t !! sr_SubmissionID (rw_Review r) = Some s →
     sw_IntegrityRetired s = false → p r = true) →
  let t' := set_reviews (set_where p (reopened now n)) t in store_inv None t' ∧ undecided attemptID t'.
Proof.
  intros [] Hx Hp t'.
  assert (Hlk : ∀ k v, rt_reviews t' !! k = Some v → ∃ w, rt_reviews t !! k = Some w ∧ v = if p w then reopened now n w else w).
  { intros k v. apply lookup_set_where. }
  assert (Hfields : ∀ w, let v := if p w then reopened now n w else w in sr_ID (rw_Review v) = sr_ID (rw_Review w) ∧
    sr_SubmissionID (rw_Review v) = sr_SubmissionID (rw_Review w) ∧ rw_AttemptID v = rw_AttemptID w).
  { intros w. by destruct (p w). }
  split; [split; cbn; [done..| | |done| |done|]|].
  - intros k v (w & Hw & ->)%Hlk. destruct (Hfields w) as (-> & -> & ->). eauto.
  - intros k1 v1 k2 v2 (w1 & Hw1 & ->)%Hlk (w2 & Hw2 & ->)%Hlk. destruct (Hfields w1) as (_ & -> & _), (Hfields w2) as (_ & -> & _). eauto.
  - intros k d Hd. destruct (so_decisions0 k d Hd) as (H1 & (w & Hw & Hwa) & H3). split_and!; [done| |done].
    exists (if p w then reopened now n w else w). destruct (Hfields w) as (_ & _ & ->). split; [|done].
    apply lookup_set_where. eauto.
  - intros k v s (w & Hw & ->)%Hlk Hfin Hs Hret _. destruct (p w) eqn:E; [done|]. eapply so_current0; [done..|].
    destruct Hx as [-> | ->]; [done|]. intros [= Hatt]. by rewrite (Hp k w s) in E.
  - intros k v s (w & Hw & ->)%Hlk Hatt Hs Hret Hfin. destruct (p w) eqn:E; [done|]. by rewrite (Hp k w s) in E.
Qed.
Lemma invalidate_inv x out now attemptID t t' : store_inv x t → (x = None ∨ x = Some attemptID) →
  invalidateDeliveryReviewInventory out now attemptID t = Ok (t', tt) → store_inv None t' ∧ undecided attemptID t' ∧ rt_flags t' = rt_flags t.
Proof.
  intros Hinv Hx H. unfold invalidateDeliveryReviewInventory in H. inv_tx H.
  assert (Hlive : ∀ k r s, rt_reviews t !! k = Some r → rw_AttemptID r = attemptID →
    rt_submissions t !! sr_SubmissionID (rw_Review r) = Some s → sw_IntegrityRetired s = false →
    s ∈ select (live_attempt attemptID) (rt_submissions t)).
  { intros k r s Hr Hatt Hs Hret. apply select_spec. destruct (so_reviews _ _ Hinv k r Hr) as (_ & s' & Hs' & Hsa & Hseal).
    assert (s' = s) as -> by congruence. split; [|eauto]. unfold live_attempt. rewrite Hseal, Hret, Hsa, Hatt. cbn.
    rewrite !andb_true_r. apply bool_decide_eq_true. done. }
  destruct (select (live_attempt attemptID) (rt_submissions t)) as [|sub rest] eqn:E.
  - apply tx_ret_ok in H as [= ->]. split_and!; [|intros k r s Hr Ha Hs Hret Hf; destruct (elem_of_nil s); eauto|done].
    destruct Hinv. split; [done..|]. intros k r s Hr Hfin Hs Hret _. eapply so_current0; [done..|].
    destruct Hx as [-> | ->]; [done|]. intros [= Ha]. destruct (elem_of_nil s). eauto.
  - inv_tx H. apply check_ok in H as (? & _ & [= -> _]).
    assert (sub ∈ select (live_attempt attemptID) (rt_submissions t)) as (Hsub & ks & Hks)%select_spec by (rewrite E; apply list_elem_of_here).
    unfold live_attempt in Hsub. to_prop. destruct Hsub as [[Hsub _] _].
    match goal with |- context [reopened now ?n] => set (n0 := n) end.
    destruct (reopen_inv x t (of_submission (sw_ID sub)) now n0 attemptID) as [H1 H2]; [done|done| |].
    { intros k r s Hr Ha Hs Hret. unfold of_submission. apply bool_decide_eq_true.
      destruct (so_reviews _ _ Hinv k r Hr) as (_ & s' & Hs' & Hsa & _).
      rewrite (so_submissions _ _ Hinv _ _ Hks). eapply (so_one_submission _ _ Hinv); [done..|]. congruence. }
    split_and!; [by eapply store_inv_frame|exact H2|done].
Qed.
(** A Flag of the Attempt awaits a new decision. *)
Definition redecide (attemptID : ID) (t : ReviewTables) : Prop :=
  ∃ f, f ∈ flags_of t attemptID ∧
    ∀ k d, rt_decisions t !! k = Some d → de_FlagID (dw_Decision d) = fw_ID f → de_InventoryStale (dw_Decision d) = true.
Lemma stale_inv x out now attemptID flagID f t t' : store_inv x t → (x = None ∨ x = Some attemptID) →
  rt_flags t !! flagID = Some f → fw_AttemptID f = attemptID →
  staleBrowserGroupDecision out now attemptID flagID t = Ok (t', tt) →
  store_inv None t' ∧ undecided attemptID t' ∧ redecide attemptID t'.
Proof.
  intros Hinv Hx Hf Hfa H. unfold staleBrowserGroupDecision in H.
  apply tx_bind_ok in H as (t1 & [] & (Hinv1 & Hund & Hfl)%(invalidate_inv x) & [= ->]%exec_ok); [|done..].
  rewrite <-Hfl in Hf. split_and!; [|exact Hund|].
  2:{ exists f. split; [apply select_spec; split; [by apply bool_decide_eq_true|eauto]|]. cbn.
      intros k d (d0 & Hd0 & ->)%lookup_set_where. rewrite (so_flags _ _ Hinv1 _ _ Hf).
      destruct (_ && _) eqn:E; [done|]. intros Hd. apply andb_false_iff in E as [E|E]; to_prop; [congruence|done]. }
  destruct Hinv1. split; cbn; [done..| |done|].
  - intros k d (d0 & Hd0 & ->)%lookup_set_where. destruct (so_decisions0 k d0 Hd0). by destruct (_ && _).
  - intros k r s Hr Hfin Hs Hret _. destruct (decide (rw_AttemptID r = attemptID)) as [Ha|Hne]; [by destruct (Hund k r s)|].
    eapply (reviewed_mono t1); [done|done| |by eapply so_current0]. intros f' k1 d1 Hf' Hd1 Hc. exists k1, d1.
    split; [|done]. cbn. apply lookup_set_where. exists d1. split; [done|]. destruct (_ && _) eqn:E; [|done]. exfalso.
    apply select_spec in Hf' as (Hf' & k' & Hk'). unfold of_attempt in Hf'. unfold current_decision, decision_on in Hc. to_prop.
    destruct Hc as [[_ Hc] _], E as [E _]. assert (k' = flagID) as -> by (rewrite <-(so_flags0 _ _ Hk'); congruence). congruence.
Qed.

(** A new Flag or piece of Evidence of an Attempt whose Review is reopened, or that has none. *)
Definition open_to (attemptID : ID) (x : option ID) (t : ReviewTables) : Prop :=
  x = Some attemptID ∨ ∀ k s, rt_submissions t !! k = Some s → sw_AttemptID s ≠ attemptID.
Lemma open_to_other x t k r attemptID : store_inv x t → open_to attemptID x t → rt_reviews t !! k = Some r →
  x ≠ Some (rw_AttemptID r) → rw_AttemptID r ≠ attemptID.
Proof.
  intros Hinv [-> | Hnone] Hr Hx; [congruence|]. destruct (so_reviews _ _ Hinv k r Hr) as (_ & s & Hs & <- & _). eauto.
Qed.
Lemma put_flag x t f : store_inv x t → open_to (fw_AttemptID f) x t → rt_flags t !! fw_ID f = None →
  store_inv x (t <| rt_flags := <[fw_ID f := f]> (rt_flags t) |>).
Proof.
  intros Hinv Ho Hnew. pose proof (λ k r, open_to_other x t k r _ Hinv Ho) as Hother. destruct Hinv. split; cbn; [done..| | | |].
  - intros k f'. rewrite lookup_insert_Some. intros [[<- <-]|[_ H]]; eauto.
  - intros k d Hd. destruct (so_decisions0 k d Hd) as (H1 & H2 & f' & Hf' & Hfa). split_and!; [done..|]. exists f'.
    rewrite lookup_insert_ne; [done|]. congruence.
  - intros k g Hg. destruct (so_groups0 k g Hg) as (f' & Hf' & Hfa). exists f'. rewrite lookup_insert_ne; [done|]. congruence.
  - intros k r s Hr Hfin Hs Hret Hx. apply (reviewed_mono t); [|done|eauto|by eapply so_current0].
    apply select_insert_other; [done|]. apply bool_decide_eq_false. intros E. by destruct (Hother k r).
Qed.
Lemma put_evidence x t e : store_inv x t → open_to (ew_AttemptID e) x t → rt_evidence t !! ew_ID e = None →
  store_inv x (t <| rt_evidence := <[ew_ID e := e]> (rt_evidence t) |>).
Proof.
  intros Hinv Ho Hnew. pose proof (λ k r, open_to_other x t k r _ Hinv Ho) as Hother. destruct Hinv. split; cbn; [done..|].
  intros k r s Hr Hfin Hs Hret Hx. apply (reviewed_mono t); [done| |eauto|by eapply so_current0].
  apply select_insert_other; [done|]. apply bool_decide_eq_false. intros E. by destruct (Hother k r).
Qed.
Lemma put_groups x t m : store_inv x t →
  (∀ k g, m !! k = Some g → ∃ f, rt_flags t !! gw_FlagID g = Some f ∧ fw_AttemptID f = gw_AttemptID g) →
  store_inv x (t <| rt_groups := m |>).
Proof. intros [] Hm. split; done. Qed.
Lemma alter_groups x t k h : store_inv x t → (∀ g, gw_FlagID (h g) = gw_FlagID g ∧ gw_AttemptID (h g) = gw_AttemptID g) →
  store_inv x (t <| rt_groups := alter h k (rt_groups t) |>).
Proof.
  intros Hinv Hh. apply put_groups; [done|]. intros k' g. rewrite lookup_alter_Some.
  intros [(<- & g0 & Hg0 & ->)|[_ Hg]]; [destruct (Hh g0) as [-> ->]|]; by eapply so_groups.
Qed.

Lemma open_group_inv flagID attemptID owner policyRevisionID ruleID t t' group : store_inv (Some attemptID) t →
  open_group flagID attemptID owner policyRevisionID ruleID t = Ok (t', group) →
  store_inv (Some attemptID) t' ∧ ∃ f, rt_flags t' !! gw_FlagID group = Some f ∧ fw_AttemptID f = attemptID.
Proof.
  intros Hinv H. unfold open_group in H. apply tx_bind_ok in H as (? & [] & [Hnew [= ->]]%refuse_if_ok & H). inv_tx H.
  apply bool_decide_eq_false, eq_None_not_Some in Hnew. cbn.
  set (f := mkFlagRow flagID attemptID (ow_Generation owner)). pose proof (put_flag _ t f Hinv (or_introl eq_refl) Hnew) as H1.
  split; [|rewrite lookup_insert_eq; eauto].
  eapply store_inv_frame; [apply (put_groups _ _ (<[flagID := mkGroupRow flagID attemptID (ow_ParticipationID owner) policyRevisionID ruleID 0 0]>
    (rt_groups t)) H1)|done..].
  intros k g. rewrite lookup_insert_Some. intros [[<- <-]|[_ Hg]]; [cbn; rewrite lookup_insert_eq; eauto|].
  exact (so_groups _ _ H1 k g Hg).
Qed.
Lemma keep_detail_inv attemptID evidenceID budget group size t t' : store_inv (Some attemptID) t →
  keep_detail attemptID evidenceID budget group size t = Ok (t', tt) → store_inv (Some attemptID) t' ∧ rt_flags t' = rt_flags t.
Proof.
  intros Hinv. unfold keep_detail. destruct (_ && _); intros H.
  - apply tx_bind_ok in H as (? & [] & [Hnew [= ->]]%refuse_if_ok & H). inv_tx H.
    apply bool_decide_eq_false, eq_None_not_Some in Hnew. split; [|done].
    pose proof (put_evidence _ t (mkEvidenceRow evidenceID attemptID (gw_FlagID group)) Hinv (or_introl eq_refl) Hnew) as H1.
    eapply store_inv_frame; [apply (alter_groups _ _ (gw_FlagID group) (λ g, g <| gw_RetainedDetails := gw_RetainedDetails g + 1 |>) H1)|done..]. done.
  - apply exec_ok in H as [= ->]. split; [|done]. by apply alter_groups.
Qed.
Lemma retain_inv out now source attemptID event policy flagID evidenceID detail t t' : store_inv None t →
  retainBrowserIntegrity out now source attemptID event policy flagID evidenceID detail t = Ok (t', tt) →
  store_inv None t' ∧
  (is_Some (BrowserIntegrityRule event policy) →
   select (λ s, (sw_AttemptID s ==? attemptID) && sw_IntegrityRetired s) (rt_submissions t) = [] →
   undecided attemptID t' ∧
   ((∀ b, rt_budgets t !! attemptID = Some b → bw_FlagGroups b < BrowserFlagGroupLimit) → redecide attemptID t')).
Proof.
  intros Hinv. unfold retainBrowserIntegrity.
  destruct (BrowserIntegrityRule event policy) as [rule|]; [|intros [= ->]%tx_ret_ok; split; [done|by intros [? [=]]]].
  rewrite tx_query. destruct (negb _) eqn:Hret.
  { intros [= ->]%tx_ret_ok. split; [done|]. intros _ E. unfold affected in Hret. by rewrite E in Hret. }
  rewrite !tx_query.
  destruct (rt_sources t !! source) as [owner|]; [|done]. destruct (rt_budgets t !! attemptID) as [budget|]; [|done].
  intros H. inv_tx H. destruct (select _ (rt_groups t)) as [|group rest] eqn:E.
  - destruct (_ <=? _) eqn:Hlim.
    + inv_tx H. eapply invalidate_inv in H as (H & Hund & _); [|by eapply store_inv_frame|by left].
      split; [done|]. intros _ _. split; [done|]. intros Hb. specialize (Hb _ eq_refl). lia.
    + apply tx_bind_ok in H as (t1 & group & [Hopen (f & Hf & Hfa)]%open_group_inv & H); [|by apply store_inv_weaken].
      inv_tx H. apply tx_bind_ok in H as (t2 & [] & [Hkept Hfl]%keep_detail_inv & H); [|done].
      rewrite <-Hfl in Hf. eapply stale_inv in H as (? & ? & ?); eauto.
  - assert (group ∈ select (group_of attemptID (ow_ParticipationID owner) (be_PolicyRevisionID event) (RuleID rule)) (rt_groups t))
      as (Hg & k & Hk)%select_spec by (rewrite E; apply list_elem_of_here).
    unfold group_of in Hg. to_prop. destruct (so_groups _ _ Hinv k group Hk) as (f & Hf & Hfa).
    inv_tx H. apply tx_bind_ok in H as (t2 & [] & [Hkept Hfl]%keep_detail_inv & H); [|by apply store_inv_weaken].
    rewrite <-Hfl in Hf. eapply stale_inv in H as (? & ? & ?); eauto. naive_solver congruence.
Qed.

Lemma invalidate_submissions out now attemptID t t' : invalidateDeliveryReviewInventory out now attemptID t = Ok (t', tt) →
  rt_submissions t' = rt_submissions t.
Proof.
  unfold invalidateDeliveryReviewInventory. intros H. inv_tx H. destruct (select _ (rt_submissions t)); inv_tx H; [done|].
  by apply check_ok in H as (? & _ & [= -> _]).
Qed.
Lemma keep_detail_submissions attemptID evidenceID budget group size t t' :
  keep_detail attemptID evidenceID budget group size t = Ok (t', tt) → rt_submissions t' = rt_submissions t.
Proof.
  unfold keep_detail. destruct (_ && _); intros H; [|by apply exec_ok in H as [= ->]].
  apply tx_bind_ok in H as (? & [] & [Hnew [= ->]]%refuse_if_ok & H). by inv_tx H.
Qed.
Lemma stale_submissions out now attemptID flagID t t' : staleBrowserGroupDecision out now attemptID flagID t = Ok (t', tt) →
  rt_submissions t' = rt_submissions t.
Proof.
  unfold staleBrowserGroupDecision. intros (t1 & [] & H1%invalidate_submissions & [= ->]%exec_ok)%tx_bind_ok. done.
Qed.
Lemma retain_submissions out now source attemptID event policy flagID evidenceID detail t t' :
  retainBrowserIntegrity out now source attemptID event policy flagID evidenceID detail t = Ok (t', tt) →
  rt_submissions t' = rt_submissions t.
Proof.
  unfold retainBrowserIntegrity. destruct (BrowserIntegrityRule event policy) as [rule|]; [|by intros [= ->]%tx_ret_ok].
  rewrite tx_query. destruct (negb _); [by intros [= ->]%tx_ret_ok|]. rewrite !tx_query.
  destruct (rt_sources t !! source) as [owner|]; [|done]. destruct (rt_budgets t !! attemptID) as [budget|]; [|done].
  intros H. inv_tx H. destruct (select _ (rt_groups t)) as [|group rest] eqn:E.
  - destruct (_ <=? _); [inv_tx H; by apply invalidate_submissions in H|].
    apply tx_bind_ok in H as (t1 & group & Hopen & H). unfold open_group in Hopen.
    apply tx_bind_ok in Hopen as (? & [] & [_ [= ->]]%refuse_if_ok & Hopen). inv_tx Hopen.
    inv_tx H. apply tx_bind_ok in H as (t2 & [] & Hk%keep_detail_submissions & H%stale_submissions). by rewrite H, Hk.
  - inv_tx H. apply tx_bind_ok in H as (t2 & [] & Hk%keep_detail_submissions & H%stale_submissions). congruence.
Qed.

(** ** Reviews *)

Lemma scope_submission x t submissionID auth : store_inv x t → live_row submissionID auth = true →
  (∃ k, rt_submissions t !! k = Some auth) → rt_submissions t !! submissionID = Some auth ∧ sw_Sealed auth = true.
Proof.
  intros Hinv Hl (k & Hk). unfold live_row, sealed_row in Hl. to_prop. destruct Hl as [[<- Hs] _].
  by rewrite (so_submissions _ _ Hinv k auth Hk).
Qed.
Lemma loaded_row x t k row : store_inv x t → rt_reviews t !! k = Some row → rt_reviews t !! sr_ID (rw_Review row) = Some row.
Proof. intros Hinv Hk. by destruct (so_reviews _ _ Hinv k row Hk) as [-> _]. Qed.

Lemma insertReview_inv x review attemptID t t' s : store_inv x t → insertReview review attemptID t = Ok (t', tt) →
  rt_submissions t !! sr_SubmissionID review = Some s → sw_Sealed s = true → sw_AttemptID s = attemptID →
  sr_State review = SubmissionReviewDraft →
  t' = set_reviews <[sr_ID review := mkReviewRow review attemptID 0]> t ∧ store_inv x t'.
Proof.
  intros Hinv H Hs Hsealed <- Hdraft. unfold insertReview in H.
  apply tx_bind_ok in H as (? & [] & [Hnew [= ->]]%refuse_if_ok & H).
  apply tx_bind_ok in H as (? & [] & [Hone [= ->]]%refuse_if_ok & H). apply exec_ok in H as [= ->].
  apply bool_decide_eq_false, eq_None_not_Some in Hnew. apply negb_false_iff, Nat.eqb_eq in Hone.
  split; [done|]. apply add_review; [done..| |done|done|done]. intros k r Hr E.
  apply length_zero_iff_nil in Hone. rewrite select_nil in Hone. specialize (Hone k r Hr). unfold of_submission in Hone. by to_prop.
Qed.
Lemma persistReview_inv x review expected t t' : store_inv x t → persistReview review expected t = Ok (t', tt) →
  (∀ row, rt_reviews t !! sr_ID review = Some row → sr_SubmissionID review = sr_SubmissionID (rw_Review row) ∧
     (sr_State review = SubmissionReviewFinalized → reviewed t review (rw_AttemptID row))) →
  store_inv x t'.
Proof.
  intros Hinv H Hrow. unfold persistReview in H. rewrite tx_query in H. destruct (rt_reviews t !! sr_ID review) as [row|] eqn:E; [|done].
  inv_tx H. destruct (Hrow row eq_refl) as [Hsub Hrev].
  eapply put_review; [done|exact E| |done..|done]. cbn. by destruct (so_reviews _ _ Hinv _ _ E) as [-> _].
Qed.
(** A draft is edited in place. *)
Lemma edit_inv x t t' op row review expected : store_inv x t → rt_reviews t !! sr_ID (rw_Review row) = Some row →
  is_edit op → call (review_apply op) (rw_Review row) = Ok review → persistReview review expected t = Ok (t', tt) → store_inv x t'.
Proof.
  intros Hinv Hrow Hop (_ & _ & (Hid & Hsub & _) & _ & Hst)%call_review%review_step H.
  eapply persistReview_inv; [done..|]. rewrite Hid, Hrow. intros ? [= <-]. split; [done|].
  destruct op; try done; intros E; destruct Hst as (_ & _ & Hst & _); congruence.
Qed.
Lemma insert_decision_inv x input reviewID attemptID t t' d r f : store_inv x t →
  rt_reviews t !! reviewID = Some r → rw_AttemptID r = attemptID → sr_State (rw_Review r) ≠ SubmissionReviewFinalized →
  rt_flags t !! dm_FlagID input = Some f → fw_AttemptID f = attemptID →
  insert_decision input reviewID attemptID t = Ok (t', d) → store_inv x t' ∧ rt_reviews t' = rt_reviews t.
Proof.
  intros Hinv Hr Hra Hst Hf Hfa H. unfold insert_decision in H.
  apply tx_bind_ok in H as (? & [] & [Hone [= ->]]%refuse_if_ok & H). inv_tx H.
  apply tx_bind_ok in H as (? & [] & [Hnew [= ->]]%refuse_if_ok & H). inv_tx H.
  apply bool_decide_eq_false, eq_None_not_Some in Hnew. split; [|done].
  match goal with G : NewIntegrityReviewDecision _ _ _ _ _ _ _ = Ok _ |- _ =>
    unfold NewIntegrityReviewDecision in G; apply ok_bind in G as ([] & _ & <-%ok_inj) end.
  eapply put_decision; cbn; [done|done|exact Hr|done|done|exact Hf|done|]. cbn in Hnew. by rewrite Hnew.
Qed.
Lemma revise_decision_inv x input reviewID t t' d r : store_inv x t →
  rt_reviews t !! reviewID = Some r → sr_State (rw_Review r) ≠ SubmissionReviewFinalized →
  revise_decision input reviewID t = Ok (t', d) → store_inv x t' ∧ rt_reviews t' = rt_reviews t.
Proof.
  intros Hinv Hr Hst H. unfold revise_decision in H. inv_tx H. split; [|done].
  match goal with
  | Hs : match select ?p ?m with [] => _ | _ => _ end = Ok v, Hv : decisionRow_value _ = Ok _, Hc : call _ _ = Ok _ |- _ =>
      assert (v ∈ select p m) as (Hp & k & Hk)%select_spec by (destruct (select p m); [done|];
        injection Hs as ->; apply list_elem_of_here);
      unfold decisionRow_value in Hv; destruct (IntegrityReviewDecision_Validate _); [|done]; apply ok_inj in Hv as <-;
      apply call_ok in Hc as (q & [] & Hrun & ->)
  end.
  unfold IntegrityReviewDecision_Revise in Hrun. inv_run Hrun. cbn.
  destruct (so_decisions _ _ Hinv k v Hk) as (Hid & (r' & Hr' & Hra) & f & Hf & Hfa).
  unfold decision_on in Hp. to_prop. destruct Hp as [Hrev Hflag]. rewrite Hrev in Hr'. simplify_eq.
  eapply put_decision; cbn; [done|done|eassumption|done|done|exact Hf|done|]. intros d0. rewrite Hk. by intros [= <-].
Qed.

(** The row of the Review that was loaded in a locked scope. *)
Lemma scope_row x t auth submissionID review : store_inv x t → live_row submissionID auth = true →
  (∃ k, rt_submissions t !! k = Some auth) →
  (∃ k row, rt_reviews t !! k = Some row ∧ rw_Review row = review ∧ sr_SubmissionID review = submissionID) →
  ∃ row, rt_reviews t !! sr_ID review = Some row ∧ rw_Review row = review ∧ rw_AttemptID row = sw_AttemptID auth.
Proof.
  intros Hinv Hl Hk (k & row & Hrow & <- & <-). destruct (scope_submission x t _ auth Hinv Hl Hk) as [Hs _].
  exists row. destruct (so_reviews _ _ Hinv k row Hrow) as (-> & s & Hs' & Ha & _). split_and!; congruence.
Qed.

Lemma finalize_inv out input t t' review : store_inv None t → finalizeReview out input t = Ok (t', review) → store_inv None t'.
Proof.
  intros Hinv H. unfold finalizeReview in H.
  apply tx_bind_ok in H as (? & auth & (-> & Hl & Hk)%lockReviewScope_ok & H).
  apply tx_bind_ok in H as (? & rev & (-> & Hv & Hload)%loadReview_ok & H). inv_tx H.
  apply tx_bind_ok in H as (? & flags & (-> & Hfl & Hdec)%lockFlags_ok & H).
  apply tx_bind_ok in H as (? & evidence & (-> & Hev)%lockEvidence_ok & H).
  apply tx_bind_ok in H as (? & discrepancies & ->%lockDiscrepancies_ok & H). cbv zeta in H.
  apply tx_bind_ok in H as (? & digest & ->%digest_ok & H). unfold insertReviewInventory in H. inv_tx H.
  apply tx_bind_ok in H as (t1 & [] & Hp & H). inv_tx H.
  destruct (scope_row _ _ _ _ _ Hinv Hl Hk Hload) as (row & Hrow & Hrw & Hatt).
  match goal with G : call _ _ = Ok _ |- _ => apply (call_review (Finalize _ _ _ _ _ _ _)), review_step in G as
    (_ & _ & (Hid & Hsub & _) & _ & _ & _ & _ & _ & _ & Hfc & Hec & _) end.
  eapply persistReview_inv; [|exact Hp|]; [by eapply store_inv_frame|]. cbn. rewrite Hid, Hrow. intros ? [= <-].
  rewrite Hrw. split; [done|]. intros _. split_and!; [by rewrite Hfc, Hfl, Hatt|by rewrite Hec, Hev, Hatt|].
  rewrite Hid, Hatt. exact Hdec.
Qed.
Lemma release_inv out now input t t' review : store_inv None t → releaseReview out now input t = Ok (t', review) → store_inv None t'.
Proof.
  intros Hinv H. unfold releaseReview in H. inv_tx H.
  apply tx_bind_ok in H as (? & auth & (-> & Hl & Hk)%lockReviewScope_ok & H).
  apply tx_bind_ok in H as (? & rev & (-> & Hv & Hload)%loadReview_ok & H). inv_tx H.
  apply tx_bind_ok in H as (t1 & prep & Hprep & H). unfold lockResultReleasePreparation in Hprep. rewrite tx_query in Hprep.
  destruct (rt_preparations t !! _); [|done]. inv_tx Hprep. inv_tx H.
  apply tx_bind_ok in H as (t2 & rev' & Hcall & H).
  destruct (call _ rev) as [rev2|] eqn:E in Hcall; [|done]. inv_tx Hcall.
  apply tx_bind_ok in H as (t3 & [] & Hp & H). inv_tx H.
  destruct (scope_row _ _ _ _ _ Hinv Hl Hk Hload) as (row & Hrow & Hrw & Hatt).
  apply (call_review (Release _ _ _)), review_step in E as (_ & _ & _ & _ & _ & Hfin & _ & rev0 & upd & ->).
  assert (store_inv None t3) as Hinv3.
  { eapply persistReview_inv; [done|exact Hp|]. cbn. rewrite Hrow. intros ? [= <-]. rewrite Hrw. split; [done|]. intros _.
    destruct (scope_submission _ _ _ _ Hinv Hl Hk) as [Hs _]. destruct Hload as (_ & _ & _ & _ & Hsub).
    assert (reviewed t (rw_Review row) (rw_AttemptID row)) as Hr; [|by rewrite Hrw in Hr].
    unfold live_row in Hl. to_prop. eapply (so_current _ _ Hinv); [exact Hrow|by rewrite Hrw|by rewrite Hrw, Hsub|by destruct Hl|done]. }
  apply tx_bind_ok in H as (t4 & [] & Hdel & H). inv_tx H. unfold deleteResultReleasePreparation in Hdel. rewrite tx_query in Hdel.
  destruct (rt_preparations t3 !! _); [|done]. apply exec_ok in Hdel as [= ->]. by eapply store_inv_frame.
Qed.
Lemma prepare_inv now submissionID reviewID expectedRevision t t' r : store_inv None t →
  PrepareRelease now submissionID reviewID expectedRevision t = Ok (t', r) → store_inv None t'.
Proof.
  intros Hinv H. unfold PrepareRelease in H. inv_tx H. apply tx_bind_ok in H as (? & [] & Hl & H).
  unfold requireLiveSubmissionIntegrity in Hl. inv_tx Hl.
  apply tx_bind_ok in H as (? & rev & (-> & _ & _)%loadReview_ok & H). inv_tx H.
  match type of H with (if ?c then _ else _) _ = _ => destruct c end; [inv_tx H; done|]. inv_tx H.
  apply tx_bind_ok in H as (t1 & prep & Hprep & H). unfold lockResultReleasePreparation in Hprep. rewrite tx_query in Hprep.
  destruct (rt_preparations (match _ with Some _ => _ | None => _ end) !! _); [|done]. inv_tx Hprep. inv_tx H.
  destruct (rt_preparations t !! reviewID); [done|]. by eapply store_inv_frame.
Qed.
Lemma update_inv out input t t' review : store_inv None t → updateReviewDraft out input t = Ok (t', review) → store_inv None t'.
Proof.
  intros Hinv H. unfold updateReviewDraft in H.
  apply tx_bind_ok in H as (? & auth & (-> & Hl & Hk)%lockReviewScope_ok & H).
  apply tx_bind_ok in H as (t1 & rev & Hr & H). inv_tx H.
  destruct (scope_submission _ _ _ _ Hinv Hl Hk) as [Hs Hseal].
  destruct (xm_ExpectedRevision input =? 0).
  - inv_tx Hr. apply tx_bind_ok in Hr as (t2 & [] & Hins & Hr). inv_tx Hr.
    match goal with G : NewSubmissionReview _ _ _ _ = Ok _ |- _ => unfold NewSubmissionReview in G; apply ok_bind in G as ([] & _ & <-%ok_inj) end.
    by eapply insertReview_inv in Hins as [_ Hins].
  - apply tx_bind_ok in Hr as (? & rev0 & (-> & _ & Hload)%loadReview_ok & Hr). inv_tx Hr.
    apply tx_bind_ok in Hr as (t2 & [] & Hp & Hr). inv_tx Hr.
    destruct (scope_row _ _ _ _ _ Hinv Hl Hk Hload) as (row & Hrow & <- & _).
    eapply (edit_inv _ _ _ (UpdateDraft _ _ _ _)); done.
Qed.
Lemma decided_review_inv input auth t t' review : store_inv None t →
  live_row (dm_SubmissionID input) auth = true → (∃ k, rt_submissions t !! k = Some auth) →
  decided_review input (sw_AttemptID auth) t = Ok (t', review) →
  store_inv None t' ∧ rt_flags t' = rt_flags t ∧
  (∃ row, rt_reviews t' !! sr_ID review = Some row ∧ rw_Review row = review ∧ rw_AttemptID row = sw_AttemptID auth) ∧
  (dm_ExpectedReviewRevision input = 0 ∧ sr_State review = SubmissionReviewDraft ∨
   0 < dm_ExpectedReviewRevision input ∧ sr_Revision review = dm_ExpectedReviewRevision input).
Proof.
  intros Hinv Hl Hk H. unfold decided_review in H.
  destruct (scope_submission _ _ _ _ Hinv Hl Hk) as [Hs Hseal].
  destruct (Z.eqb_spec (dm_ExpectedReviewRevision input) 0) as [E|E].
  - inv_tx H. apply tx_bind_ok in H as (t2 & [] & Hins & H). inv_tx H.
    match goal with G : NewSubmissionReview _ _ _ _ = Ok _ |- _ => unfold NewSubmissionReview in G; apply ok_bind in G as ([] & _ & <-%ok_inj) end.
    eapply insertReview_inv in Hins as [-> Hins]; [|done..]. split_and!; [done|done| |by left].
    cbn. rewrite lookup_insert_eq. eexists. split_and!; done.
  - apply tx_bind_ok in H as (? & rev & (-> & Hv & Hload)%loadReview_ok & H). inv_tx H.
    destruct (scope_row _ _ _ _ _ Hinv Hl Hk Hload) as (row & Hrow & Hrw & Ha). split_and!; [done|done|eauto|right].
    unfold SubmissionReview_Validate in Hv. apply ok_fail_if in Hv as [Hv _]. to_prop. destruct_and!. lia.
Qed.
Lemma save_inv out input t t' review : store_inv None t → saveReviewDecision out input t = Ok (t', review) → store_inv None t'.
Proof.
  intros Hinv H. unfold saveReviewDecision in H.
  apply tx_bind_ok in H as (? & auth & (-> & Hl & Hk)%lockReviewScope_ok & H).
  apply tx_bind_ok in H as (t1 & rev & (Hinv1 & Hfl & (row & Hrow & <- & Ha) & Hrev)%decided_review_inv & H); [|done..].
  inv_tx H. rewrite Hfl in *. destruct (rt_flags t !! dm_FlagID input) as [f|] eqn:Hf; [|done]. to_prop.
  apply tx_bind_ok in H as (t2 & d & Hd & H). apply tx_bind_ok in H as (t3 & rev' & Ht & H). inv_tx H.
  assert (Hdraft : sr_State (rw_Review row) = SubmissionReviewDraft ∧ (store_inv None t2 ∧ rt_reviews t2 = rt_reviews t1 → store_inv None t3)).
  { destruct Hrev as [[E Hdr]|[Hpos Hr]].
    - rewrite E in Ht. cbn in Ht. inv_tx Ht. split; [done|]. by intros [].
    - apply Z.ltb_lt in Hpos. rewrite Hpos in Ht. destruct (call _ (rw_Review row)) as [rev2|] eqn:E; [|done].
      apply tx_bind_ok in Ht as (t4 & [] & Hp & Ht). inv_tx Ht. split.
      + by apply (call_review (TouchDraft _ _)), review_step in E as (_ & _ & _ & _ & _ & Hst & _).
      + intros [Hinv2 Heq]. eapply (edit_inv _ _ _ (TouchDraft _ _) row); [exact Hinv2|by rewrite Heq|done|exact E|exact Hp]. }
  destruct Hdraft as [Hdraft Hfin]. apply Hfin.
  destruct (dm_ExpectedRevision input =? 0).
  - eapply insert_decision_inv in Hd; [exact Hd|done|exact Hrow|done|by rewrite Hdraft|by rewrite Hfl|done].
  - eapply revise_decision_inv in Hd; [exact Hd|done|exact Hrow|by rewrite Hdraft].
Qed.

Definition attempt_of (t : ReviewTables) (submissionID a : ID) : bool :=
  bool_decide ((sw_AttemptID <$> rt_submissions t !! submissionID) = Some a).
(** Retirement removes what belongs to the Submission and nothing else. *)
Lemma retire_rows submissionID t t' : retireSubmissionIntegrity submissionID t = Ok (t', tt) →
  let of_the_attempt := attempt_of t submissionID in
  rt_submissions t' = set_where (λ s, (sw_ID s ==? submissionID) && negb (sw_IntegrityRetired s))
    (λ s, s <| sw_IntegrityRetired := true |> <| sw_IntegrityState := "retired" |>) (rt_submissions t) ∧
  rt_reviews t' = delete_where (of_submission submissionID) (rt_reviews t) ∧
  rt_decisions t' = delete_where (λ d, bool_decide
    ((sr_SubmissionID ∘ rw_Review <$> rt_reviews t !! de_ReviewID (dw_Decision d)) = Some submissionID)) (rt_decisions t) ∧
  rt_flags t' = delete_where (λ f, of_the_attempt (fw_AttemptID f)) (rt_flags t) ∧
  rt_evidence t' = delete_where (λ e, of_the_attempt (ew_AttemptID e)) (rt_evidence t) ∧
  rt_groups t' = delete_where (λ g, of_the_attempt (gw_AttemptID g)) (rt_groups t).
Proof. intros H of_the_attempt. unfold of_the_attempt, attempt_of. unfold retireSubmissionIntegrity in H. inv_tx H. done. Qed.
Lemma retire_inv submissionID t t' : store_inv None t → retireSubmissionIntegrity submissionID t = Ok (t', tt) → store_inv None t'.
Proof.
  intros Hinv (Es & Er & Ed & Ef & Ee & Eg)%retire_rows. set (gone := attempt_of t submissionID) in *.
  assert (Hsub : ∀ k s, rt_submissions t' !! k = Some s → ∃ s0, rt_submissions t !! k = Some s0 ∧ sw_ID s = sw_ID s0 ∧
    sw_AttemptID s = sw_AttemptID s0 ∧ sw_Sealed s = sw_Sealed s0 ∧ (sw_IntegrityRetired s = false → sw_IntegrityRetired s0 = false)).
  { rewrite Es. intros k s (s0 & Hs0 & ->)%lookup_set_where. exists s0. by destruct (_ && _). }
  assert (Hkept : ∀ k r, rt_reviews t' !! k = Some r → rt_reviews t !! k = Some r ∧ gone (rw_AttemptID r) = false).
  { rewrite Er. intros k r (Hr & Hp)%lookup_delete_where. split; [done|]. apply bool_decide_eq_false. unfold of_submission in Hp. to_prop.
    destruct (so_reviews _ _ Hinv k r Hr) as (_ & s & Hs & <- & _). intros E. apply fmap_Some in E as (s' & Hs' & E).
    by rewrite (so_one_submission _ _ Hinv _ _ _ _ Hs Hs' E) in Hp. }
  assert (Hdec : ∀ k d, rt_decisions t' !! k = Some d → rt_decisions t !! k = Some d ∧
    ∃ r, rt_reviews t' !! de_ReviewID (dw_Decision d) = Some r ∧ rw_AttemptID r = dw_AttemptID d).
  { rewrite Ed, Er. intros k d (Hd & Hp)%lookup_delete_where. split; [done|]. apply bool_decide_eq_false in Hp.
    destruct (so_decisions _ _ Hinv k d Hd) as (_ & (r & Hr & Hra) & _). exists r. split; [|done]. apply lookup_delete_where.
    split; [done|]. apply bool_decide_eq_false. rewrite Hr in Hp. cbn in Hp. congruence. }
  split.
  - intros k s (s0 & Hs0 & -> & _)%Hsub. by eapply so_submissions.
  - intros k s k' s' (s0 & Hs0 & _ & -> & _)%Hsub (s1 & Hs1 & _ & -> & _)%Hsub. by eapply so_one_submission.
  - intros k r (Hr & _)%Hkept. destruct (so_reviews _ _ Hinv k r Hr) as (Hid & s & Hs & Ha & Hseal). split; [done|].
    exists (if (sw_ID s ==? submissionID) && negb (sw_IntegrityRetired s) then s <| sw_IntegrityRetired := true |> <| sw_IntegrityState := "retired" |> else s).
    split; [rewrite Es; apply lookup_set_where; eauto|]. by destruct (_ && _).
  - intros k r k' r' (Hr & _)%Hkept (Hr' & _)%Hkept. by eapply so_one_review.
  - rewrite Ef. intros k f (Hf & _)%lookup_delete_where. by eapply so_flags.
  - intros k d (Hd & r & Hr & Hra)%Hdec. destruct (so_decisions _ _ Hinv k d Hd) as (Hid & _ & f & Hf & Hfa).
    split_and!; [done|eauto|]. exists f. split; [|done]. rewrite Ef. apply lookup_delete_where. split; [done|].
    destruct (Hkept _ _ Hr) as [_ Hg]. congruence.
  - rewrite Eg, Ef. intros k g (Hg & Hp)%lookup_delete_where. destruct (so_groups _ _ Hinv k g Hg) as (f & Hf & Hfa). exists f.
    split; [|done]. apply lookup_delete_where. split; [done|]. congruence.
  - intros k r s Hr Hfin (s0 & Hs0 & _ & _ & _ & Hret0)%Hsub Hret _. destruct (Hkept k r Hr) as [Hr0 Hg].
    apply (reviewed_mono t).
    + unfold flags_of. rewrite Ef. apply select_delete_other. intros f Hf. unfold of_attempt in Hf. to_prop. by rewrite Hf.
    + unfold evidence_of. rewrite Ee. apply select_delete_other. intros e He. unfold of_attempt in He. to_prop. by rewrite He.
    + intros f k' d _ Hd Hc. exists k', d. split; [|done]. rewrite Ed. apply lookup_delete_where. split; [done|].
      apply bool_decide_eq_false. unfold current_decision, decision_on in Hc. to_prop. destruct Hc as [[-> _] _].
      destruct (so_reviews _ _ Hinv k r Hr0) as [-> _]. rewrite Hr0. cbn. intros [= E].
      rewrite Er in Hr. apply lookup_delete_where in Hr as [_ Hp]. unfold of_submission in Hp. by to_prop.
    + eapply so_current; [done..|by apply Hret0|done].
Qed.

(** ** Histories of the store *)

(** The transactions on the tables: those of this store, and what other components write.  A
    Submission is the only one of its Attempt; Flags and Evidence of focus and connection loss
    are written while the Attempt is active, before it has a Submission; late ones are recorded
    as discrepancies. *)
Inductive StoreOp :=
  | OpSaveDecision (out : Outside) (input : DecisionMutation)
  | OpUpdateDraft (out : Outside) (input : DraftMutation)
  | OpFinalize (out : Outside) (input : FinalizeInput)
  | OpPrepareRelease (now : Time) (submissionID reviewID : ID) (expectedRevision : Z)
  | OpRelease (out : Outside) (now : Time) (input : ReleaseInput)
  | OpBrowserEvent (out : Outside) (now : Time) (source : string) (attemptID : ID) (event : BrowserEvent) (policy : BrowserPolicy)
      (flagID evidenceID : ID) (detail : result Z)
  | OpDelivery (out : Outside) (now : Time) (attemptID : ID)
  | OpRetire (submissionID : ID)
  | OpSubmit (s : SubmissionRow)
  | OpSettle (submissionID : ID) (integrityState : string)
  | OpFlag (f : FlagRow)
  | OpEvidence (e : EvidenceRow)
  | OpElsewhere (managers : gmap ID (gset ID)) (budgets : gmap ID BudgetRow) (sources : gmap string SourceRow)
      (discrepancies : gmap ID DiscrepancyRow).

Definition unit_of {A} (body : Tx ReviewTables A) : Tx ReviewTables unit := _ ← body; mret tt.
Definition no_submission (attemptID : ID) (t : ReviewTables) : bool :=
  (affected (of_attempt sw_AttemptID attemptID) (rt_submissions t) =? 0)%nat.
Definition missing {A} (k : ID) (m : gmap ID A) : bool := bool_decide (m !! k = None).
Definition store_body (op : StoreOp) : Tx ReviewTables unit :=
  match op with
  | OpSaveDecision out input => unit_of (saveReviewDecision out input)
  | OpUpdateDraft out input => unit_of (updateReviewDraft out input)
  | OpFinalize out input => unit_of (finalizeReview out input)
  | OpPrepareRelease now submissionID reviewID expectedRevision => unit_of (PrepareRelease now submissionID reviewID expectedRevision)
  | OpRelease out now input => unit_of (releaseReview out now input)
  | OpBrowserEvent out now source attemptID event policy flagID evidenceID detail =>
      retainBrowserIntegrity out now source attemptID event policy flagID evidenceID detail
  | OpDelivery out now attemptID => invalidateDeliveryReviewInventory out now attemptID
  | OpRetire submissionID => retireSubmissionIntegrity submissionID
  | OpSubmit s =>
      _ ← refuse_if (λ t, negb (missing (sw_ID s) (rt_submissions t) && no_submission (sw_AttemptID s) t)) (conflict "submission" "" None);
      exec (λ t, t <| rt_submissions := <[sw_ID s := s]> (rt_submissions t) |>)
  | OpSettle submissionID integrityState =>
      exec (λ t, t <| rt_submissions := alter (λ s, s <| sw_IntegrityState := integrityState |>) submissionID (rt_submissions t) |>)
  | OpFlag f =>
      _ ← refuse_if (λ t, negb (missing (fw_ID f) (rt_flags t) && no_submission (fw_AttemptID f) t)) (conflict "integrity_flag" "" None);
      exec (λ t, t <| rt_flags := <[fw_ID f := f]> (rt_flags t) |>)
  | OpEvidence e =>
      _ ← refuse_if (λ t, negb (missing (ew_ID e) (rt_evidence t) && no_submission (ew_AttemptID e) t)) (conflict "integrity_evidence" "" None);
      exec (λ t, t <| rt_evidence := <[ew_ID e := e]> (rt_evidence t) |>)
  | OpElsewhere managers budgets sources discrepancies =>
      exec (λ t, t <| rt_managers := managers |> <| rt_budgets := budgets |> <| rt_sources := sources |> <| rt_discrepancies := discrepancies |>)
  end.
Definition store_step (t : ReviewTables) (step : driver * StoreOp) : ReviewTables :=
  (runSQLTransaction step.1 "review store" (store_body step.2) t).1.
Definition store_run (steps : list (driver * StoreOp)) (t : ReviewTables) : ReviewTables := foldl store_step t steps.
Definition empty_tables : ReviewTables := mkReviewTables ∅ ∅ ∅ ∅ ∅ ∅ ∅ ∅ ∅ ∅ ∅ ∅ [].

Lemma unit_of_ok {A} (body : Tx ReviewTables A) t t' : unit_of body t = Ok (t', tt) → ∃ a, body t = Ok (t', a).
Proof. intros (t1 & a & Hb & [= ->]%tx_ret_ok)%tx_bind_ok. eauto. Qed.
Lemma no_submission_open attemptID t : no_submission attemptID t = true → open_to attemptID None t.
Proof.
  intros H%Nat.eqb_eq%length_zero_iff_nil. rewrite select_nil in H. right. intros k s Hs. specialize (H k s Hs).
  unfold of_attempt in H. by to_prop.
Qed.
Lemma submit_inv t s : store_inv None t → rt_submissions t !! sw_ID s = None → open_to (sw_AttemptID s) None t →
  store_inv None (t <| rt_submissions := <[sw_ID s := s]> (rt_submissions t) |>).
Proof.
  intros [] Hnew [[=]|Hnone]. split; cbn; [| | |done..|].
  - intros k s'. rewrite lookup_insert_Some. intros [[<- <-]|[_ H]]; eauto.
  - intros k s1 k' s2. rewrite !lookup_insert_Some. intros [[<- <-]|[_ H]] [[<- <-]|[_ H']] E; [done| | |eauto].
    + by destruct (Hnone _ _ H').
    + by destruct (Hnone _ _ H).
  - intros k r Hr. destruct (so_reviews0 k r Hr) as (Hid & s' & Hs' & Ha). split; [done|]. exists s'.
    rewrite lookup_insert_ne; [done|]. congruence.
  - intros k r s' Hr Hfin. rewrite lookup_insert_Some. intros [[E <-]|[_ H]]; [|by eapply so_current0].
    destruct (so_reviews0 k r Hr) as (_ & s' & Hs' & _). congruence.
Qed.
Lemma settle_inv t submissionID integrityState : store_inv None t →
  store_inv None (t <| rt_submissions := alter (λ s, s <| sw_IntegrityState := integrityState |>) submissionID (rt_submissions t) |>).
Proof.
  intros []. assert (Hlk : ∀ k s, alter (λ s, s <| sw_IntegrityState := integrityState |>) submissionID (rt_submissions t) !! k = Some s →
    ∃ s0, rt_submissions t !! k = Some s0 ∧ sw_ID s = sw_ID s0 ∧ sw_AttemptID s = sw_AttemptID s0 ∧
      sw_IntegrityRetired s = sw_IntegrityRetired s0).
  { intros k s. rewrite lookup_alter_Some. intros [(<- & s0 & Hs0 & ->)|[_ Hs]]; eauto 6. }
  split; cbn; [| | |done..|].
  - intros k s (s0 & Hs0 & -> & _)%Hlk. eauto.
  - intros k s k' s' (s0 & Hs0 & _ & -> & _)%Hlk (s1 & Hs1 & _ & -> & _)%Hlk. eauto.
  - intros k r Hr. destruct (so_reviews0 k r Hr) as (Hid & s & Hs & Ha & Hseal). split; [done|].
    destruct (decide (submissionID = sr_SubmissionID (rw_Review r))) as [->|Hne].
    + exists (s <| sw_IntegrityState := integrityState |>). by rewrite lookup_alter_eq, Hs.
    + exists s. by rewrite lookup_alter_ne.
  - intros k r s Hr Hfin (s0 & Hs0 & _ & _ & ->)%Hlk Hret _. by eapply so_current0.
Qed.

Lemma body_inv op t t' : store_inv None t → store_body op t = Ok (t', tt) → store_inv None t'.
Proof.
  intros Hinv. destruct op; cbn [store_body]; intros H.
  - apply unit_of_ok in H as [a H]. by eapply save_inv.
  - apply unit_of_ok in H as [a H]. by eapply update_inv.
  - apply unit_of_ok in H as [a H]. by eapply finalize_inv.
  - apply unit_of_ok in H as [a H]. by eapply prepare_inv.
  - apply unit_of_ok in H as [a H]. by eapply release_inv.
  - by eapply retain_inv in H as [H _].
  - eapply invalidate_inv in H as [H _]; [done|done|by left].
  - by eapply retire_inv.
  - apply tx_bind_ok in H as (? & [] & [Hg [= ->]]%refuse_if_ok & [= ->]%exec_ok).
    apply negb_false_iff, andb_true_iff in Hg as [Hm%bool_decide_eq_true Ho%no_submission_open]. by apply submit_inv.
  - apply exec_ok in H as [= ->]. by apply settle_inv.
  - apply tx_bind_ok in H as (? & [] & [Hg [= ->]]%refuse_if_ok & [= ->]%exec_ok).
    apply negb_false_iff, andb_true_iff in Hg as [Hm%bool_decide_eq_true Ho%no_submission_open]. by apply put_flag.
  - apply tx_bind_ok in H as (? & [] & [Hg [= ->]]%refuse_if_ok & [= ->]%exec_ok).
    apply negb_false_iff, andb_true_iff in Hg as [Hm%bool_decide_eq_true Ho%no_submission_open]. by apply put_evidence.
  - apply exec_ok in H as [= ->]. by eapply store_inv_frame.
Qed.
Lemma run_inv steps t : store_inv None t → store_inv None (store_run steps t).
Proof.
  revert t. induction steps as [|[d op] steps IH]; intros t Hinv; [done|]. cbn. apply IH. unfold store_step. cbn.
  destruct (runSQLTransaction _ _ _ _) as [t' r] eqn:E. cbn.
  apply runSQLTransaction_cases in E as [[-> _]|([] & Hb & _)]; [done|]. by eapply body_inv.
Qed.
Lemma empty_inv : store_inv None empty_tables.
Proof. split; cbn; intros; exfalso; by rewrite ?lookup_empty in *. Qed.

Lemma released_ok attemptID candidateID t result : GetReleasedStudentResult attemptID candidateID t = Ok result →
  ∃ k row sub, rt_reviews t !! k = Some row ∧ released_row row = true ∧
    rt_submissions t !! sr_SubmissionID (rw_Review row) = Some sub ∧ sw_AttemptID sub = attemptID ∧ sw_CandidateUserID sub = candidateID ∧
    sw_IntegrityRetired sub = false ∧
    result = mkStudentResult (sr_ID (rw_Review row)) (sr_SubmissionID (rw_Review row)) attemptID candidateID
      (sr_StudentRemarksMarkdown (rw_Review row)) (TimeUTC (ot_Time (sr_ReleasedAt (rw_Review row)))).
Proof.
  unfold GetReleasedStudentResult. rewrite ok_fail_if, ok_bind. intros [_ (row & (Hp & k & Hk)%get_row_ok & <-%ok_inj)].
  unfold result_of in Hp. apply andb_true_iff in Hp as [Hrel Hp].
  destruct (rt_submissions t !! _) as [sub|] eqn:Es; [|done]. to_prop. destruct Hp as [[Ha Hc] Hret]. exists k, row, sub. done.
Qed.

(** A finalization finds a current decision on every Flag of the Attempt. *)
Lemma finalize_needs out input t t' review s f : store_inv None t → rt_submissions t !! fm_SubmissionID input = Some s →
  f ∈ flags_of t (sw_AttemptID s) → finalizeReview out input t = Ok (t', review) →
  ∃ k d, rt_decisions t !! k = Some d ∧ ∃ reviewID, current_decision reviewID (fw_ID f) d = true.
Proof.
  intros Hinv Hs Hf H. unfold finalizeReview in H.
  apply tx_bind_ok in H as (? & auth & (-> & Hl & Hk)%lockReviewScope_ok & H).
  destruct (scope_submission _ _ _ _ Hinv Hl Hk) as [Hs' _]. assert (s = auth) as -> by congruence.
  apply tx_bind_ok in H as (? & rev & (-> & Hv & Hload)%loadReview_ok & H). inv_tx H.
  apply tx_bind_ok in H as (? & flags & (-> & Hfl & Hdec)%lockFlags_ok & _).
  destruct (Hdec f Hf) as (k & d & Hd & Hc). eauto.
Qed.

(** C27. A candidate sees a result only of a Review that is complete and current.  After any
    history of Review transactions, late browser deliveries, retirements and writes of the other
    components, over a database whose commits may fail, a result that can be read belongs to a
    Submission of that candidate whose integrity records are retained; its Review is finalized
    and released, counts every Flag and every piece of Evidence the Attempt has now, and holds a
    decision on each of those Flags that no later evidence made stale. *)
Theorem released_result_current (steps : list (driver * StoreOp)) (attemptID candidateID : ID) (result : StudentResult) :
  let t := store_run steps empty_tables in
  GetReleasedStudentResult attemptID candidateID t = Ok result →
  ∃ row sub, rt_reviews t !! st_ReviewID result = Some row ∧ released_row row = true ∧
    rt_submissions t !! st_SubmissionID result = Some sub ∧ sw_AttemptID sub = attemptID ∧
    sw_CandidateUserID sub = candidateID ∧ sw_IntegrityRetired sub = false ∧
    st_StudentRemarksMarkdown result = sr_StudentRemarksMarkdown (rw_Review row) ∧
    reviewed t (rw_Review row) attemptID.
Proof.
  intros t (k & row & sub & Hk & Hrel & Hs & Ha & Hc & Hret & ->)%released_ok.
  pose proof (run_inv steps _ empty_inv) as Hinv. fold t in Hinv. exists row, sub. cbn.
  destruct (so_reviews _ _ Hinv k row Hk) as (-> & s & Hs' & Hsa & _). assert (s = sub) as -> by congruence.
  split_and!; try done. rewrite <-Ha, Hsa. unfold released_row in Hrel. to_prop. destruct Hrel as [Hfin _].
  by eapply (so_current _ _ Hinv).
Qed.


(** ** A released result and its withdrawal *)

Definition demo_ids : list ID := ["ybndrfg8ejkmcpqxot1uwisza3"; "bndrfg8ejkmcpqxot1uwisza34"; "ndrfg8ejkmcpqxot1uwisza345";
  "drfg8ejkmcpqxot1uwisza345h"; "rfg8ejkmcpqxot1uwisza345h7"; "fg8ejkmcpqxot1uwisza345h76"; "g8ejkmcpqxot1uwisza345h769";
  "8ejkmcpqxot1uwisza345h769y"; "ejkmcpqxot1uwisza345h769yb"; "jkmcpqxot1uwisza345h769ybn"; "kmcpqxot1uwisza345h769ybnd"].
Definition demo_id (n : nat) : ID := default "" (demo_ids !! n).
Definition demo_review_id : ID := demo_id 0.
Definition demo_submission_id : ID := demo_id 1.
Definition demo_manager : ID := demo_id 2.
Definition demo_attempt_id : ID := demo_id 3.
Definition demo_exam_id : ID := demo_id 4.
Definition demo_candidate : ID := demo_id 5.
Definition demo_flag_id : ID := demo_id 6.
Definition answers : Outside := mkOutside (Ok tt) (Ok tt) (Ok tt) (Ok tt) (Ok tt) (Ok 1).
Definition demo_budget : BudgetRow :=
  mkBudgetRow (mkBrowserSubmissionSettlement "settled" 1 1 0 0) 0 NewNativeConditionInventory 0 0 0.
Definition demo_sub : SubmissionRow :=
  mkSubmissionRow demo_submission_id demo_attempt_id demo_exam_id demo_candidate true false "settled".
Definition demo_steps : list StoreOp :=
  [OpElsewhere {[demo_exam_id := {[demo_manager]}]} {[demo_attempt_id := demo_budget]}
     {["source" := mkSourceRow demo_attempt_id (demo_id 8) 1]} ∅;
   OpFlag (mkFlagRow demo_flag_id demo_attempt_id 1);
   OpEvidence (mkEvidenceRow (demo_id 7) demo_attempt_id demo_flag_id);
   OpSubmit demo_sub;
   OpSaveDecision answers (mkDecisionMutation demo_submission_id demo_review_id (demo_id 8) demo_flag_id demo_manager false 0 0
     IntegrityReviewDismissed "seen" review_start);
   OpUpdateDraft answers (mkDraftMutation demo_submission_id demo_review_id demo_manager false 1 "notes" "Well done" review_start);
   OpFinalize answers (mkFinalizeInput demo_submission_id demo_review_id demo_manager false 2 review_start);
   OpPrepareRelease review_start demo_submission_id demo_review_id 3;
   OpRelease answers review_start (mkReleaseInput demo_submission_id demo_review_id demo_manager false demo_candidate 3 1 review_start review_start)].
Definition demo_store : ReviewTables := store_run (pair healthy <$> demo_steps) empty_tables.
Definition demo_result : StudentResult :=
  mkStudentResult demo_review_id demo_submission_id demo_attempt_id demo_candidate "Well done" (TimeUTC review_start).
Example demo_released : GetReleasedStudentResult demo_attempt_id demo_candidate demo_store = Ok demo_result.
Proof. vm_compute. reflexivity. Qed.
Lemma released_result_current_witness :
  ∃ row, rt_reviews demo_store !! demo_review_id = Some row ∧ released_row row = true ∧ reviewed demo_store (rw_Review row) demo_attempt_id.
Proof.
  destruct (released_result_current (pair healthy <$> demo_steps) demo_attempt_id demo_candidate demo_result demo_released)
    as (row & sub & Hr & Hrel & _ & _ & _ & _ & _ & Hrev). exists row. exact (conj Hr (conj Hrel Hrev)).
Defined.

Definition demo_event : BrowserEvent := mkBrowserEvent BrowserActivityBlockedNavigation (demo_id 9) (Some "rule").
Definition evidence_policy : BrowserPolicy :=
  mkBrowserPolicy true "rule" [mkBrowserPolicyRule "rule" "https://docs.example.test" "/" "exact" false
    BrowserPolicyBlockedNavigationIntegrityEvidence false].
Definition late_store : ReviewTables :=
  (ok_or (empty_tables, tt) (retainBrowserIntegrity answers review_start "source" demo_attempt_id demo_event evidence_policy (demo_id 9)
     (demo_id 10) (Ok 64) demo_store)).1.
(** Once the Flag the event raised is decided again, the Review is finalized and released anew. *)
Example late_store_recovers :
  let ops := [OpSaveDecision answers (mkDecisionMutation demo_submission_id demo_review_id (demo_id 10) (demo_id 9) demo_manager false 5 0
                IntegrityReviewConfirmed "late" review_start);
              OpFinalize answers (mkFinalizeInput demo_submission_id demo_review_id demo_manager false 6 review_start);
              OpPrepareRelease review_start demo_submission_id demo_review_id 7;
              OpRelease answers review_start (mkReleaseInput demo_submission_id demo_review_id demo_manager false demo_candidate 7 1 review_start review_start)] in
  GetReleasedStudentResult demo_attempt_id demo_candidate (store_run (pair healthy <$> ops) late_store) = Ok demo_result.
Proof. vm_compute. reflexivity. Qed.
