(* ===== verification/JobStore.v ===== *)
(** * The Job store

    Models [server/store/sqlstore/job_store.go]: enqueueing with deduplication, the claims
    workers take under a lease, the operations their claim token fences, operator commands, and
    the deletion of terminal history.  [now] is the database clock of the transaction; rows
    that a concurrent transaction holds, which [SKIP LOCKED] passes over, are the set
    [locked]. *)

From S2P Require Import Prelude GoTime GoStrings Ident ModelError GoJson Job SqlTx.

(** ** Tables *)

(** [jt_referenced]: the Jobs that an onboarding import or a mail delivery refers to, or that a
    key rotation has active. *)
Record JobTables := mkJobTables {
  jt_jobs : gmap ID Job;
  jt_attempts : gmap ID JobAttempt;
  jt_occurrences : gmap (JobType * string) ID;
  jt_referenced : gset ID }.
#[export] Instance JobTables_eta : Eta JobTables := λ t,
  mkJobTables (jt_jobs t) (jt_attempts t) (jt_occurrences t) (jt_referenced t).
Definition put_jobs (f : gmap ID Job → gmap ID Job) (t : JobTables) : JobTables := t <| jt_jobs := f (jt_jobs t) |>.
Definition put_attempts (f : gmap ID JobAttempt → gmap ID JobAttempt) (t : JobTables) : JobTables :=
  t <| jt_attempts := f (jt_attempts t) |>.

Definition store_conflict (resource constraint : string) (cause : option error) : error := StoreError ErrConflict resource constraint cause.
Definition store_invalid (resource field : string) (cause : option error) : error := StoreError ErrInvalidInput resource field cause.
(** What PostgreSQL answers to a value outside an [integer] column. *)
Definition out_of_range : error := SentinelError "pq: integer out of range".
Definition int32_ok (z : Z) : bool := (- 2 ^ 31 <=? z) && (z <? 2 ^ 31).

Definition active_status (s : JobStatus) : bool :=
  (s ==? JobStatusQueued) || (s ==? JobStatusRunning) || (s ==? JobStatusCancelRequested).
Definition same_key (job row : Job) : bool := (j_Type row ==? j_Type job) && (j_DedupeKey row ==? j_DedupeKey job).
(** The unique indexes [jobs_active_type_dedupe_key_idx] and [jobs_permanent_type_dedupe_key_idx]. *)
Definition active_duplicate (job row : Job) : bool :=
  same_key job row && (j_DedupePolicy job ==? JobDedupeActive) && (j_DedupePolicy row ==? JobDedupeActive)
  && active_status (j_Status job) && active_status (j_Status row).
Definition permanent_duplicate (job row : Job) : bool :=
  same_key job row && (j_DedupePolicy job ==? JobDedupePermanent) && (j_DedupePolicy row ==? JobDedupePermanent).
(** A row, or a row other than the Job's own, that the Job would duplicate. *)
Definition taken (p : Job → Job → bool) (job : Job) (t : JobTables) : bool := negb (affected (p job) (jt_jobs t) =? 0)%nat.
Definition taken_by_other (p : Job → Job → bool) (job : Job) (t : JobTables) : bool :=
  taken (λ job row, (j_ID row !=? j_ID job) && p job row) job t.

Definition job_model (row : Job) : result Job :=
  _ ← validatePersistedModel "job" (λ j, Job_Validate (Some j)) row;
  Ok row.
Definition attempt_model (row : JobAttempt) : result JobAttempt :=
  _ ← validatePersistedModel "job_attempt" (λ a, JobAttempt_Validate (Some a)) row;
  Ok row.

(** [fmt.Errorf] around a failure. *)
Definition named {S A} (message : string) (m : Tx S A) : Tx S A := λ t,
  match m t with Ok r => Ok r | Err e => Err (WrappedError message e) end.

(** ** Enqueueing *)

(** The columns the statement leaves at their defaults. *)
Definition queued_row (job : Job) : Job :=
  job <| j_StartedAt := noTime |> <| j_CompletedAt := noTime |> <| j_Checkpoint := "" |> <| j_Result := "" |>
      <| j_PublicErrorCode := "" |> <| j_AttemptCount := 0 |> <| j_WorkReserved := 0 |> <| j_Progress := None |>.
(** The rows affected: none when [deduplicate] and the key is taken. *)
Definition insertQueuedJob (job : Job) (deduplicate : bool) : Tx JobTables bool := λ t,
  let row := queued_row job in
  if deduplicate && (taken active_duplicate row t || taken permanent_duplicate row t) then Ok (t, false)
  else if negb (bool_decide (jt_jobs t !! j_ID job = None)) then Err (store_conflict "job" "jobs_pkey" None)
  else if taken active_duplicate row t then Err (store_conflict "job" "jobs_active_type_dedupe_key_idx" None)
  else if taken permanent_duplicate row t then Err (store_conflict "job" "jobs_permanent_type_dedupe_key_idx" None)
  else if negb (int32_ok (j_MaximumAttempts job)) then Err out_of_range
  else Ok (put_jobs <[j_ID job := row]> t, true).

Definition permanentJobTransactionPolicy : sqlTransactionPolicy (option Job * bool) :=
  mkPolicy (WrappedError "begin permanent job enqueue") true
    (λ (outcome : option Job * bool), if snd outcome then WrappedError "commit permanent job enqueue" else WrappedError "commit deduplicated permanent job enqueue").
(** The Job of the occurrence, if it is still kept, and whether it was created. *)
Definition permanent_body (proposed : Job) : Tx JobTables (option Job * bool) :=
  let key := (j_Type proposed, j_DedupeKey proposed) in
  holder ← query (λ t, jt_occurrences t !! key);
  match holder with
  | None =>
      _ ← exec (λ t, t <| jt_occurrences := <[key := j_ID proposed]> (jt_occurrences t) |>);
      _ ← named "enqueue permanent job" (insertQueuedJob proposed false);
      mret (Some proposed, true)
  | Some id =>
      row ← query (λ t, jt_jobs t !! id);
      mret (row, false)
  end.
Definition enqueuePermanent (d : driver) (proposed : Job) (t : JobTables) : JobTables * result (option Job * bool) :=
  match executeSQLTransaction d permanentJobTransactionPolicy (permanent_body proposed) t with
  | (t', Ok (Some job, false)) => (t', job ← job_model job; Ok (Some job, false))
  | outcome => outcome
  end.

(** The insert is a statement of its own. *)
Definition active_body (job : Job) : Tx JobTables (option Job * bool) :=
  created ← named "enqueue job" (insertQueuedJob job true);
  if created : bool then mret (Some job, true)
  else
    rows ← query (λ t, select (λ row, same_key job row && (j_DedupePolicy row ==? j_DedupePolicy job)
                                       && ((j_DedupePolicy job !=? JobDedupeActive) || active_status (j_Status row))) (jt_jobs t));
    row ← check (get_row "job" (j_DedupeKey job) rows);
    row ← check (job_model row);
    mret (Some row, false).
Definition Enqueue (d : driver) (input : option Job) (t : JobTables) : JobTables * result (option Job * bool) :=
  match input with
  | None => (t, Err (store_invalid "job" "enqueue" None))
  | Some job =>
      match Job_Validate (Some job) with
      | Err e => (t, Err (store_invalid "job" "enqueue" (Some e)))
      | Ok _ =>
          if (j_Status job !=? JobStatusQueued) || negb (j_AttemptCount job =? 0) then (t, Err (store_invalid "job" "enqueue" None))
          else if j_DedupePolicy job ==? JobDedupePermanent then enqueuePermanent d job t
          else executeSQLTransaction d (rawSQLTransactionPolicy true (λ _ e, e)) (active_body job) t
      end
  end.

(** ** Rows of a transaction *)

Definition getJob (id : ID) : Tx JobTables Job :=
  fail_if negb (ID_IsValid id) with store_invalid "job" "id" None ;;
  row ← query (λ t, jt_jobs t !! id);
  match row with
  | None => mthrow (not_found "job" id)
  | Some row => check (job_model row)
  end.
Definition getFencedAttempt (id token : string) (at_ : Time) : Tx JobTables JobAttempt :=
  row ← query (λ t, jt_attempts t !! id);
  match row with
  | None => mthrow (not_found "job_attempt" id)
  | Some row =>
      attempt ← check (attempt_model row);
      fail_if (ja_ClaimToken attempt !=? token) || (ja_Status attempt !=? JobAttemptStatusRunning)
              || negb (Time_Before (TimeUTC at_) (ja_LeaseExpiresAt attempt))
        with store_conflict "job_attempt" "claim_lost" None ;;
      mret attempt
  end.
(** The columns the update does not name stay those of the row. *)
Definition updated_row (row job : Job) : Job :=
  job <| j_ID := j_ID row |> <| j_Type := j_Type row |> <| j_CreatedAt := j_CreatedAt row |> <| j_Command := j_Command row |>
      <| j_DedupeKey := j_DedupeKey row |> <| j_DedupePolicy := j_DedupePolicy row |>.
Definition updateJob (job : Job) : Tx JobTables unit :=
  row ← query (λ t, jt_jobs t !! j_ID job);
  match row with
  | None => mthrow (store_conflict "job" "job_changed" None)
  | Some row =>
      fail_if negb (j_Revision row =? int64_sub (j_Revision job) 1) with store_conflict "job" "job_changed" None ;;
      _ ← refuse_if (taken_by_other active_duplicate (updated_row row job))
            (WrappedError "update job" (store_conflict "job" "jobs_active_type_dedupe_key_idx" None));
      fail_if negb (int32_ok (j_AttemptCount job)) || negb (int32_ok (j_MaximumAttempts job)) || negb (int32_ok (j_WorkReserved job))
        with WrappedError "update job" out_of_range ;;
      exec (put_jobs <[j_ID job := updated_row row job]>)
  end.
(** [return &result, result.Validate()], used as [value, err]. *)
Definition accepted {A} (r : returned A) : result A :=
  match r with
  | (Some a, Ok _) => Ok a
  | (None, Ok _) => Err (SentinelError "nil")
  | (_, Err e) => Err e
  end.
Definition or_fail {S A} (wrap : option error → error) (r : result A) : Tx S A :=
  match r with Ok a => mret a | Err e => mthrow (wrap (Some e)) end.

(** ** Claims *)

Record JobClaimRequest := mkJobClaimRequest { cq_Types : list JobType; cq_NodeID : string; cq_ClaimToken : string; cq_LeaseDuration : Z }.
Record JobClaim := mkJobClaim { cl_Job : Job; cl_Attempt : JobAttempt }.

Definition lost (now : Time) (a : JobAttempt) : bool :=
  (ja_Status a ==? JobAttemptStatusRunning) && negb (Time_After (ja_LeaseExpiresAt a) now).
Definition expire (now : Time) (a : JobAttempt) : JobAttempt :=
  a <| ja_Status := JobAttemptStatusLeaseExpired |> <| ja_CompletedAt := mkOptionalTime now true |>.

(** [leaseExpiryBackoff]: the lease of the Job's last expired attempt, doubled with each attempt,
    at most an hour. *)
Definition later_attempt (a b : JobAttempt) : Prop := ja_Number b ≤ ja_Number a.
#[export] Instance later_attempt_dec : RelDecision later_attempt.
Proof. intros a b. unfold later_attempt. apply _. Defined.
Definition leaseExpiryBackoff (attempts : gmap ID JobAttempt) (job : Job) : Z :=
  let expired := merge_sort later_attempt
                   (select (λ a, (ja_JobID a ==? j_ID job) && (ja_Status a ==? JobAttemptStatusLeaseExpired)) attempts) in
  let lease := match expired with a :: _ => t_ns (ja_LeaseExpiresAt a) - t_ns (ja_HeartbeatAt a) | [] => 0 end in
  Z.min (lease * 2 ^ Z.min (Z.max (j_AttemptCount job - 1) 0) 10) Hour.
Definition exhausted (job : Job) : bool := j_MaximumAttempts job <=? j_AttemptCount job.
Definition recovered (attempts : gmap ID JobAttempt) (now : Time) (job : Job) : Job :=
  let canceled := j_Status job ==? JobStatusCancelRequested in
  job <| j_Status := if canceled then JobStatusCanceled else if exhausted job then JobStatusFailed else JobStatusQueued |>
      <| j_CompletedAt := if canceled || exhausted job then mkOptionalTime now true else noTime |>
      <| j_PublicErrorCode := if canceled then "job.canceled" else if exhausted job then "job.lease_expired" else j_PublicErrorCode job |>
      <| j_AvailableAt := Time_Add now (leaseExpiryBackoff attempts job) |>
      <| j_UpdatedAt := greatest (j_UpdatedAt job) now |>
      <| j_Revision := j_Revision job + 1 |>.
Definition recover (now : Time) (jobID : ID) (t : JobTables) : JobTables :=
  put_jobs (alter (λ job, if job_holding (j_Status job) then recovered (jt_attempts t) now job else job) jobID) t.
(** Lost attempts end and their Jobs are recovered; the identities of those Jobs. *)
Definition recoverLost (now : Time) : Tx JobTables (list ID) :=
  expired ← query (λ t, ja_JobID <$> select (lost now) (jt_attempts t));
  _ ← exec (put_attempts (set_where (lost now) (expire now)));
  _ ← exec (λ t, foldl (λ t id, recover now id t) t expired);
  mret expired.

Definition some_attempt (p : JobAttempt → bool) (t : JobTables) : bool := negb (affected p (jt_attempts t) =? 0)%nat.
Definition claimable (now : Time) (types : list JobType) (nodeID : string) (locked : gset ID) (t : JobTables) (job : Job) : bool :=
  (j_Status job ==? JobStatusQueued) && negb (Time_After (j_AvailableAt job) now) && (j_AttemptCount job <? j_MaximumAttempts job)
  && existsb (λ ty, ty ==? j_Type job) types
  && negb (some_attempt (λ a, (ja_JobID a ==? j_ID job) && (ja_NodeID a ==? nodeID) && (ja_Status a ==? JobAttemptStatusIncompatible)) t)
  && negb (bool_decide (j_ID job ∈@{gset ID} locked)).
(** [ORDER BY available_at, created_at, id] *)
Definition claim_order (a b : Job) : Prop :=
  t_ns (j_AvailableAt a) < t_ns (j_AvailableAt b) ∨ t_ns (j_AvailableAt a) = t_ns (j_AvailableAt b) ∧
  (t_ns (j_CreatedAt a) < t_ns (j_CreatedAt b) ∨ t_ns (j_CreatedAt a) = t_ns (j_CreatedAt b) ∧ Compare (j_ID a) (j_ID b) ≠ Gt).
#[export] Instance claim_order_dec : RelDecision claim_order.
Proof. intros a b. unfold claim_order. apply _. Defined.

Definition insert_attempt (attempt : JobAttempt) : Tx JobTables unit :=
  let refuse constraint := WrappedError "create job attempt" (store_conflict "job_attempt" constraint None) in
  _ ← refuse_if (λ t, bool_decide (is_Some (jt_attempts t !! ja_ID attempt))) (refuse "job_attempts_pkey");
  _ ← refuse_if (some_attempt (λ a, ja_ClaimToken a ==? ja_ClaimToken attempt))
        (refuse "job_attempts_claim_token_key");
  _ ← refuse_if (some_attempt (λ a, (ja_JobID a ==? ja_JobID attempt) && (ja_Number a =? ja_Number attempt)))
        (refuse "job_attempts_job_id_number_key");
  exec (put_attempts <[ja_ID attempt := attempt]>).

(** The claim, or why there is none after recovery; [attemptID] is the identity drawn. *)
Definition claim_body (now : Time) (attemptID : ID) (locked : gset ID) (request : JobClaimRequest) : Tx JobTables (result JobClaim) :=
  let leaseExpiresAt := Time_Add now (cq_LeaseDuration request) in
  expired ← recoverLost now;
  rows ← query (λ t, merge_sort claim_order
                       (select (claimable now (cq_Types request) (TrimSpace (cq_NodeID request)) locked t) (jt_jobs t)));
  match rows with
  | [] =>
      fail_if (length (expired : list ID) =? 0)%nat with not_found "job" "claimable" ;;
      mret (Err (not_found "job" "claimable"))
  | row :: _ =>
      job ← check (job_model row);
      running ← or_fail (store_conflict "job" "not_claimable") (accepted (Job_Start (Some job) (latestTime (j_UpdatedAt job) now)));
      _ ← updateJob running;
      attempt ← or_fail (store_invalid "job_attempt" "claim")
                  (NewJobAttempt attemptID (j_ID running) (j_AttemptCount running) (cq_NodeID request) (cq_ClaimToken request) now leaseExpiresAt);
      _ ← insert_attempt attempt;
      mret (Ok (mkJobClaim running attempt))
  end.
Definition jobClaimSQLTransactionPolicy : sqlTransactionPolicy (result JobClaim) :=
  mkPolicy (WrappedError "begin job claim") true
    (λ outcome : result JobClaim, if is_ok outcome then WrappedError "commit job claim" else WrappedError "commit expired job recovery").
Definition claim_request_ok (request : JobClaimRequest) : bool :=
  negb ((length (cq_Types request) =? 0)%nat || (TrimSpace (cq_NodeID request) ==? "") || negb (ClaimToken_IsValid (cq_ClaimToken request))
        || (cq_LeaseDuration request <=? 0) || (Hour <? cq_LeaseDuration request)).
Definition ClaimNext (d : driver) (now : Time) (attemptID : ID) (locked : gset ID) (request : option JobClaimRequest) (t : JobTables)
    : JobTables * result JobClaim :=
  match request with
  | Some request =>
      if claim_request_ok request then
        match executeSQLTransaction d jobClaimSQLTransactionPolicy (claim_body now attemptID locked request) t with
        | (t', Ok claim) => (t', claim)
        | (t', Err e) => (t', Err e)
        end
      else (t, Err (store_invalid "job" "claim" None))
  | None => (t, Err (store_invalid "job" "claim" None))
  end.

(** ** The holder of a claim *)

Record Claimed := mkClaimed { cd_AttemptID : ID; cd_ClaimToken : string }.
Definition claimed_ok (c : Claimed) : bool := ID_IsValid (cd_AttemptID c) && ClaimToken_IsValid (cd_ClaimToken c).
(** [WHERE id = ? AND claim_token = ? AND status = 'running'] *)
Definition held_row (c : JobAttempt) (a : JobAttempt) : bool :=
  (ja_ID a ==? ja_ID c) && (ja_ClaimToken a ==? ja_ClaimToken c) && (ja_Status a ==? JobAttemptStatusRunning).

Definition heartbeat_body (now : Time) (c : Claimed) (leaseDuration : Z) : Tx JobTables JobAttempt :=
  attempt ← getFencedAttempt (cd_AttemptID c) (cd_ClaimToken c) now;
  let heartbeatAt := latestTime (ja_HeartbeatAt attempt) now in
  heartbeat ← or_fail (store_conflict "job_attempt" "not_running")
                (accepted (JobAttempt_Heartbeat (Some attempt) heartbeatAt (Time_Add heartbeatAt leaseDuration)));
  _ ← exec (put_attempts (set_where (held_row heartbeat)
             (λ a, a <| ja_HeartbeatAt := ja_HeartbeatAt heartbeat |> <| ja_LeaseExpiresAt := ja_LeaseExpiresAt heartbeat |>)));
  mret heartbeat.
Definition Heartbeat (d : driver) (now : Time) (c : Claimed) (leaseDuration : Z) (t : JobTables) : JobTables * result JobAttempt :=
  if negb (claimed_ok c) || (leaseDuration <=? 0) || (Hour <? leaseDuration) then (t, Err (store_invalid "job_attempt" "heartbeat" None))
  else executeSQLTransaction d (rawSQLTransactionPolicy true (λ _ e, e)) (heartbeat_body now c leaseDuration) t.

Definition checkpoint_body (now : Time) (c : Claimed) (progress : option JobProgress) (checkpoint : string) : Tx JobTables Job :=
  attempt ← getFencedAttempt (cd_AttemptID c) (cd_ClaimToken c) now;
  job ← getJob (ja_JobID attempt);
  updated ← or_fail (store_invalid "job" "checkpoint")
              (accepted (Job_UpdateProgress (Some job) progress checkpoint (latestTime (j_UpdatedAt job) now)));
  _ ← updateJob updated;
  mret updated.
Definition Checkpoint (d : driver) (now : Time) (c : Claimed) (progress : option JobProgress) (checkpoint : string) (t : JobTables)
    : JobTables * result Job :=
  if negb (claimed_ok c) then (t, Err (store_invalid "job" "checkpoint" None))
  else executeSQLTransaction d (rawSQLTransactionPolicy true (λ _ e, e)) (checkpoint_body now c progress checkpoint) t.

Record JobWorkReservationResult := mkReservation { rv_Reserved : bool; rv_Consumed : Z }.
Definition reserve_body (now : Time) (c : Claimed) (units limit : Z) : Tx JobTables JobWorkReservationResult :=
  attempt ← getFencedAttempt (cd_AttemptID c) (cd_ClaimToken c) now;
  row ← query (λ t, jt_jobs t !! ja_JobID attempt);
  match row with
  | None => mthrow (WrappedError "reserve job work" (not_found "job" (ja_JobID attempt)))
  | Some row =>
      if j_WorkReserved row + units <=? limit then
        let row := row <| j_WorkReserved := j_WorkReserved row + units |> <| j_UpdatedAt := greatest (j_UpdatedAt row) now |>
                       <| j_Revision := j_Revision row + 1 |> in
        _ ← exec (put_jobs <[ja_JobID attempt := row]>);
        mret (mkReservation true (j_WorkReserved row))
      else mret (mkReservation false (j_WorkReserved row))
  end.
Definition ReserveWork (d : driver) (now : Time) (c : Claimed) (units limit : Z) (t : JobTables) : JobTables * result JobWorkReservationResult :=
  if negb (claimed_ok c) || (units <=? 0) || (limit <=? 0) || (limit <? units) || (1000000 <? limit)
  then (t, Err (store_invalid "job" "reserve_work" None))
  else executeSQLTransaction d (rawSQLTransactionPolicy true (λ _, WrappedError "commit job work reservation")) (reserve_body now c units limit) t.

Inductive JobCompletionKind :=
  | JobCompletionSucceeded
  | JobCompletionRetryableFailure
  | JobCompletionRelinquished
  | JobCompletionPermanentFailure
  | JobCompletionCanceled
  | JobCompletionKind_other (raw : string).
Record JobCompletion := mkJobCompletion {
  cm_Claimed : Claimed;
  cm_Kind : JobCompletionKind;
  cm_RetryDelay : Z;
  cm_Result : string;
  cm_PublicErrorCode : string }.
(** A requeue cannot leave a requested cancellation. *)
Definition completion_kind (job : Job) (input : JobCompletion) : JobCompletionKind * string :=
  match j_Status job, cm_Kind input with
  | JobStatusCancelRequested, (JobCompletionRetryableFailure | JobCompletionRelinquished) => (JobCompletionCanceled, "job.canceled")
  | _, kind => (kind, cm_PublicErrorCode input)
  end.
(** The message of an unknown kind goes on to quote it. *)
Definition completion_outcome (job : Job) (input : JobCompletion) (jobAt : Time) : JobAttemptStatus * result Job :=
  let '(kind, code) := completion_kind job input in
  match kind with
  | JobCompletionSucceeded => (JobAttemptStatusSucceeded, accepted (Job_Succeed (Some job) (cm_Result input) jobAt))
  | JobCompletionRetryableFailure =>
      (JobAttemptStatusFailed,
       if j_AttemptCount job <? j_MaximumAttempts job
       then accepted (Job_Retry (Some job) code (Time_Add jobAt (cm_RetryDelay input)) jobAt)
       else accepted (Job_Fail (Some job) code jobAt))
  | JobCompletionRelinquished =>
      (JobAttemptStatusIncompatible, accepted (Job_Relinquish (Some job) code (Time_Add jobAt (cm_RetryDelay input)) jobAt))
  | JobCompletionPermanentFailure => (JobAttemptStatusFailed, accepted (Job_Fail (Some job) code jobAt))
  | JobCompletionCanceled => (JobAttemptStatusCanceled, accepted (Job_Cancel (Some job) code jobAt))
  | JobCompletionKind_other _ => (JobAttemptStatus_other "", Err (SentinelError "unknown completion kind"))
  end.
Definition complete_body (now : Time) (input : JobCompletion) : Tx JobTables Job :=
  attempt ← getFencedAttempt (cd_AttemptID (cm_Claimed input)) (cd_ClaimToken (cm_Claimed input)) now;
  job ← getJob (ja_JobID attempt);
  let '(attemptStatus, outcome) := completion_outcome job input (latestTime (j_UpdatedAt job) now) in
  updated ← or_fail (store_invalid "job" "completion") outcome;
  completed ← or_fail (store_invalid "job_attempt" "completion")
                (accepted (JobAttempt_Complete (Some attempt) attemptStatus (snd (completion_kind job input)) (latestTime (ja_HeartbeatAt attempt) now)));
  _ ← exec (put_attempts (set_where (held_row completed)
             (λ a, a <| ja_Status := ja_Status completed |> <| ja_CompletedAt := ja_CompletedAt completed |>
                     <| ja_PublicErrorCode := ja_PublicErrorCode completed |>)));
  _ ← updateJob updated;
  mret updated.
Definition Complete (d : driver) (now : Time) (input : JobCompletion) (t : JobTables) : JobTables * result Job :=
  if negb (claimed_ok (cm_Claimed input)) || (cm_RetryDelay input <? 0) || (24 * Hour <? cm_RetryDelay input)
  then (t, Err (store_invalid "job" "completion" None))
  else executeSQLTransaction d (rawSQLTransactionPolicy true (λ _ e, e)) (complete_body now input) t.

Definition CancellationRequested (d : driver) (now : Time) (c : Claimed) (t : JobTables) : JobTables * result bool :=
  if negb (claimed_ok c) then (t, Err (store_invalid "job_attempt" "observe_cancellation" None))
  else executeSQLTransaction d (rawSQLTransactionPolicy false (λ _ e, e))
         (attempt ← getFencedAttempt (cd_AttemptID c) (cd_ClaimToken c) now;
          job ← getJob (ja_JobID attempt);
          mret (j_Status job ==? JobStatusCancelRequested)) t.

(** ** Operators *)

Record JobMutation := mkJobMutation { mu_ID : ID; mu_ExpectedRevision : Z; mu_AuditEventID : ID; mu_AuditAt : Time }.
(** [audit]: what the completion of the audit event answers. *)
Definition mutate_body (audit : result unit) (now : Time) (operation : string) (mutate : option Job → Time → returned Job) (input : JobMutation)
    : Tx JobTables Job :=
  job ← getJob (mu_ID input);
  fail_if negb (j_Revision job =? mu_ExpectedRevision input) with store_conflict "job" "job_changed" None ;;
  updated ← or_fail (store_conflict "job" (operation +:+ "_unsupported")) (accepted (mutate (Some job) (latestTime (j_UpdatedAt job) now)));
  _ ← updateJob updated;
  _ ← check audit;
  mret updated.
Definition mutateOperatorJob (d : driver) (audit : result unit) (now : Time) (operation : string) (mutate : option Job → Time → returned Job)
    (input : JobMutation) (t : JobTables) : JobTables * result Job :=
  if negb (ID_IsValid (mu_ID input)) || (mu_ExpectedRevision input <=? 0) || negb (ID_IsValid (mu_AuditEventID input)) || Time_IsZero (mu_AuditAt input)
  then (t, Err (store_invalid "job" operation None))
  else executeSQLTransaction d (rawSQLTransactionPolicy true (λ _ e, e)) (mutate_body audit now operation mutate input) t.
Definition Cancel d audit now := mutateOperatorJob d audit now "cancel" Job_RequestCancellation.
Definition Retry d audit now := mutateOperatorJob d audit now "retry" Job_ExplicitRetry.

(** ** Terminal history *)

Record JobRetentionPolicy := mkJobRetentionPolicy { rp_Type : JobType; rp_SucceededCanceledAge : Z; rp_FailedAge : Z }.
Record JobHistoryCleanup := mkJobHistoryCleanup {
  hc_ExcludeJobID : ID;
  hc_Policies : list JobRetentionPolicy;
  hc_AfterCompletedAt : Time;
  hc_AfterJobID : ID;
  hc_Limit : Z }.
Record JobHistoryCleanupResult := mkCleanupResult { hr_Deleted : Z; hr_LastCompletedAt : Time; hr_LastJobID : ID; hr_Done : bool }.

Fixpoint policies_ok (seen : list JobType) (policies : list JobRetentionPolicy) : bool :=
  match policies with
  | [] => true
  | p :: policies =>
      negb (existsb (λ ty, ty ==? rp_Type p) seen || (rp_SucceededCanceledAge p <=? 0) || (rp_FailedAge p <? rp_SucceededCanceledAge p))
      && policies_ok (rp_Type p :: seen) policies
  end.
Definition retired_by (now : Time) (job : Job) (p : JobRetentionPolicy) : bool :=
  let since age := negb (Time_After (ot_Time (j_CompletedAt job)) (Time_Add now (- age))) in
  (j_Type job ==? rp_Type p)
  && (((j_Status job ==? JobStatusSucceeded) || (j_Status job ==? JobStatusCanceled)) && since (rp_SucceededCanceledAge p)
      || (j_Status job ==? JobStatusFailed) && since (rp_FailedAge p)).
(** Terminal, not the caller's own Job, and not referenced. *)
Definition deletable (excludeJobID : ID) (t : JobTables) (job : Job) : bool :=
  (j_ID job !=? excludeJobID) && job_terminal (j_Status job) && negb (bool_decide (j_ID job ∈@{gset ID} jt_referenced t)).
Definition after_cursor (input : JobHistoryCleanup) (job : Job) : bool :=
  Time_IsZero (hc_AfterCompletedAt input)
  || (let after := TimeUTC (hc_AfterCompletedAt input) in
      Time_After (ot_Time (j_CompletedAt job)) after
      || Time_Equal (ot_Time (j_CompletedAt job)) after && bool_decide (Compare (j_ID job) (hc_AfterJobID input) = Gt)).
Definition completion_order (a b : Job) : Prop :=
  t_ns (ot_Time (j_CompletedAt a)) < t_ns (ot_Time (j_CompletedAt b)) ∨
  t_ns (ot_Time (j_CompletedAt a)) = t_ns (ot_Time (j_CompletedAt b)) ∧ Compare (j_ID a) (j_ID b) ≠ Gt.
#[export] Instance completion_order_dec : RelDecision completion_order.
Proof. intros a b. unfold completion_order. apply _. Defined.
Definition cleanup_page (now : Time) (locked : gset ID) (input : JobHistoryCleanup) (t : JobTables) : list Job :=
  take (Z.to_nat (hc_Limit input)) (merge_sort completion_order
    (select (λ job, deletable (hc_ExcludeJobID input) t job && ot_Valid (j_CompletedAt job) && after_cursor input job
                    && existsb (retired_by now job) (hc_Policies input) && negb (bool_decide (j_ID job ∈@{gset ID} locked))) (jt_jobs t))).

Definition in_ids (ids : list ID) (id : ID) : bool := existsb (λ x, x ==? id) ids.
Definition cleanup_body (now : Time) (locked : gset ID) (input : JobHistoryCleanup) : Tx JobTables (JobHistoryCleanupResult * bool) :=
  fail_if negb (policies_ok [] (hc_Policies input)) with store_invalid "job" "retention_policy" None ;;
  rows ← query (cleanup_page now locked input);
  let done := Z.of_nat (length rows) <? hc_Limit input in
  match last rows with
  | None => mret (mkCleanupResult 0 zeroTime "" done, true)
  | Some last =>
      let ids := map j_ID rows in
      _ ← exec (put_attempts (delete_where (λ a, in_ids ids (ja_JobID a))));
      deleted ← query (λ t, affected (λ job, in_ids ids (j_ID job) && deletable (hc_ExcludeJobID input) t job) (jt_jobs t));
      _ ← exec (λ t, put_jobs (delete_where (λ job, in_ids ids (j_ID job) && deletable (hc_ExcludeJobID input) t job)) t);
      mret (mkCleanupResult (Z.of_nat deleted) (Time_UTC (ot_Time (j_CompletedAt last))) (j_ID last) done, false)
  end.
Definition jobHistorySQLTransactionPolicy : sqlTransactionPolicy (JobHistoryCleanupResult * bool) :=
  mkPolicy (WrappedError "begin job history cleanup") true
    (λ outcome : JobHistoryCleanupResult * bool,
       if snd outcome then WrappedError "commit empty job history cleanup" else WrappedError "commit job history cleanup").
Definition cleanup_input_ok (input : JobHistoryCleanup) : bool :=
  negb (negb (ID_IsValid (hc_ExcludeJobID input)) || (hc_Limit input <? 1) || (200 <? hc_Limit input) || (length (hc_Policies input) =? 0)%nat
        || negb (Bool.eqb (Time_IsZero (hc_AfterCompletedAt input)) (ID_IsZero (hc_AfterJobID input)))
        || negb (ID_IsZero (hc_AfterJobID input)) && negb (ID_IsValid (hc_AfterJobID input))).
Definition DeleteTerminalHistory (d : driver) (now : Time) (locked : gset ID) (input : JobHistoryCleanup) (t : JobTables)
    : JobTables * result JobHistoryCleanupResult :=
  if cleanup_input_ok input then
    match executeSQLTransaction d jobHistorySQLTransactionPolicy (cleanup_body now locked input) t with
    | (t', Ok (r, _)) => (t', Ok r)
    | (t', Err e) => (t', Err e)
    end
  else (t, Err (store_invalid "job" "history_cleanup" None)).

(** ** Reads *)

Fixpoint models {A B} (model : A → result B) (rows : list A) : result (list B) :=
  match rows with
  | [] => Ok []
  | row :: rows => v ← model row; vs ← models model rows; Ok (v :: vs)
  end.
Definition Get (id : ID) (t : JobTables) : result Job :=
  '(_, job) ← getJob id t;
  Ok job.
Definition by_number (a b : JobAttempt) : Prop := ja_Number a ≤ ja_Number b.
#[export] Instance by_number_dec : RelDecision by_number.
Proof. intros a b. unfold by_number. apply _. Defined.
Definition attempts_of (jobID : ID) (t : JobTables) : list JobAttempt := select (λ a, ja_JobID a ==? jobID) (jt_attempts t).
Definition ListAttempts (jobID : ID) (t : JobTables) : result (list JobAttempt) :=
  fail_if negb (ID_IsValid jobID) with store_invalid "job" "id" None ;;
  models attempt_model (merge_sort by_number (attempts_of jobID t)).
Definition ListAttemptsPage (jobID : ID) (beforeNumber limit : Z) (t : JobTables) : result (list JobAttempt) :=
  fail_if negb (ID_IsValid jobID) || (beforeNumber <? 0) || (limit <? 1) || (201 <? limit) with store_invalid "job_attempt" "list" None ;;
  models attempt_model (take (Z.to_nat limit) (merge_sort later_attempt
    (filter (λ a, (0 <? beforeNumber) && (beforeNumber <=? ja_Number a) = false) (attempts_of jobID t)))).

Record JobListOptions := mkJobListOptions {
  lo_Types : list JobType;
  lo_Statuses : list JobStatus;
  lo_BeforeCreatedAt : Time;
  lo_BeforeID : ID;
  lo_Limit : Z }.
(** [ORDER BY created_at DESC, id DESC] *)
Definition newest_first (a b : Job) : Prop :=
  t_ns (j_CreatedAt b) < t_ns (j_CreatedAt a) ∨ t_ns (j_CreatedAt a) = t_ns (j_CreatedAt b) ∧ Compare (j_ID b) (j_ID a) ≠ Gt.
#[export] Instance newest_first_dec : RelDecision newest_first.
Proof. intros a b. unfold newest_first. apply _. Defined.
Definition before_cursor (options : JobListOptions) (job : Job) : bool :=
  ID_IsZero (lo_BeforeID options)
  || Time_Before (j_CreatedAt job) (lo_BeforeCreatedAt options)
  || Time_Equal (j_CreatedAt job) (lo_BeforeCreatedAt options) && bool_decide (Compare (j_ID job) (lo_BeforeID options) = Lt).
Definition List (options : JobListOptions) (t : JobTables) : result (list Job) :=
  fail_if (lo_Limit options <? 1) || (201 <? lo_Limit options) || (length (lo_Types options) =? 0)%nat
          || negb (ID_IsZero (lo_BeforeID options)) && (negb (ID_IsValid (lo_BeforeID options)) || Time_IsZero (lo_BeforeCreatedAt options))
    with store_invalid "job" "list" None ;;
  models job_model (take (Z.to_nat (lo_Limit options)) (merge_sort newest_first
    (select (λ job, existsb (λ ty, ty ==? j_Type job) (lo_Types options)
                    && ((length (lo_Statuses options) =? 0)%nat || existsb (λ s, s ==? j_Status job) (lo_Statuses options))
                    && before_cursor options job) (jt_jobs t)))).
