(* ===== verification/JobSafety.v ===== *)
(** * Safety of the Job store

    Every history of enqueues, claims, heartbeats, completions, operator commands and cleanups
    keeps claims exclusive; a claim that was lost stays lost; and a permanent occurrence is
    created once. *)

From S2P Require Import Prelude GoTime GoStrings Ident ModelError GoJson Job SqlTx JobStore.

(** ** The invariant *)

Definition int32_row (j : Job) : Prop := int32_ok (j_MaximumAttempts j) = true ∧ int32_ok (j_WorkReserved j) = true.
(** A row that the columns and [Job.Validate] accept. *)
Definition good_row (j : Job) : Prop := Job_Validate (Some j) = Ok tt ∧ int32_row j.
Definition duplicate (j j' : Job) : bool := active_duplicate j j' || permanent_duplicate j j'.
Definition running (a : JobAttempt) : Prop := ja_Status a = JobAttemptStatusRunning.

Record jobs_core (t : JobTables) : Prop := {
  jc_job : ∀ k j, jt_jobs t !! k = Some j → j_ID j = k ∧ good_row j;
  jc_unique : ∀ k j k' j', jt_jobs t !! k = Some j → jt_jobs t !! k' = Some j' → duplicate j j' = true → k = k';
  jc_attempt : ∀ k a, jt_attempts t !! k = Some a → ja_ID a = k ∧ ∃ j, jt_jobs t !! ja_JobID a = Some j ∧ ja_Number a ≤ j_AttemptCount j;
  jc_number : ∀ k a k' a', jt_attempts t !! k = Some a → jt_attempts t !! k' = Some a' → ja_JobID a = ja_JobID a' →
    ja_Number a = ja_Number a' → k = k';
  jc_lease : ∀ k a, jt_attempts t !! k = Some a → t_ns (ja_HeartbeatAt a) < t_ns (ja_LeaseExpiresAt a) }.
(** The Job is held exactly while an attempt of it runs, the last one. *)
Record agrees (t : JobTables) (id : ID) : Prop := {
  ag_running : ∀ k a j, jt_attempts t !! k = Some a → ja_JobID a = id → running a → jt_jobs t !! id = Some j →
    job_holding (j_Status j) = true ∧ ja_Number a = j_AttemptCount j;
  ag_held : ∀ j, jt_jobs t !! id = Some j → job_holding (j_Status j) = true →
    ∃ k a, jt_attempts t !! k = Some a ∧ ja_JobID a = id ∧ running a }.
Definition jobs_inv (t : JobTables) : Prop := jobs_core t ∧ ∀ id, agrees t id.

Lemma running_unique t k a k' a' : jobs_inv t → jt_attempts t !! k = Some a → jt_attempts t !! k' = Some a' →
  ja_JobID a = ja_JobID a' → running a → running a' → k = k'.
Proof.
  intros [Hc Ha] Hk Hk' Ej Hr Hr'. destruct (jc_attempt _ Hc k a Hk) as (_ & j & Hj & _).
  eapply (jc_number _ Hc); [done..|]. destruct (ag_running _ _ (Ha (ja_JobID a)) k a j) as [_ ->]; [done..|].
  by destruct (ag_running _ _ (Ha (ja_JobID a)) k' a' j) as [_ ->].
Qed.

(** ** Transactions *)

Lemma execute_state {S A} d (policy : sqlTransactionPolicy A) (body : Tx S A) db :
  (executeSQLTransaction d policy body db).1 = db ∨ ∃ a, body db = Ok ((executeSQLTransaction d policy body db).1, a).
Proof.
  unfold executeSQLTransaction. destruct (dr_begin d); [by left|]. destruct (body db) as [[db' a]|e]; [|by left].
  destruct (negb _); [by left|]. destruct (dr_commit d) as [|e []]; [right; by exists a|right; by exists a|by left].
Qed.
Lemma execute_err {S A} d (policy : sqlTransactionPolicy A) (body : Tx S A) db e :
  body db = Err e → ∃ e', executeSQLTransaction d policy body db = (db, Err e').
Proof. unfold executeSQLTransaction. intros ->. destruct (dr_begin d); eauto. Qed.

Lemma or_fail_ok {S A} wrap (r : result A) (t : S) x : or_fail wrap r t = Ok x ↔ ∃ a, r = Ok a ∧ x = (t, a).
Proof. destruct r; cbn; split; [intros [= <-]; eauto|by intros (? & [= ->] & ->)|done|by intros (? & ? & ?)]. Qed.
Lemma accepted_ok {A} (r : returned A) a : accepted r = Ok a ↔ r = (Some a, Ok tt).
Proof. destruct r as [[b|] [[]|e]]; cbn; split; intros [=]; congruence. Qed.
Lemma accepted_job op j j' : accepted (run_job_op op (Some j)) = Ok j' → Job_Validate (Some j') = Ok tt ∧ job_effect op j j'.
Proof. intros H%accepted_ok. by apply job_step_effect. Qed.
Lemma job_model_ok row j : job_model row = Ok j ↔ j = row ∧ Job_Validate (Some row) = Ok tt.
Proof.
  unfold job_model, validatePersistedModel. rewrite ok_bind. destruct (Job_Validate (Some row)) as [[]|]; cbn.
  - split; [by intros (_ & _ & [= ->])|intros [-> _]; eauto].
  - split; [by intros (? & ? & _)|by intros [_ ?]].
Qed.
Lemma attempt_model_ok row a : attempt_model row = Ok a ↔ a = row ∧ JobAttempt_Validate (Some row) = Ok tt.
Proof.
  unfold attempt_model, validatePersistedModel. rewrite ok_bind. destruct (JobAttempt_Validate (Some row)) as [[]|]; cbn.
  - split; [by intros (_ & _ & [= ->])|intros [-> _]; eauto].
  - split; [by intros (? & ? & _)|by intros [_ ?]].
Qed.
Lemma getJob_ok id t t' j : getJob id t = Ok (t', j) → t' = t ∧ jt_jobs t !! id = Some j ∧ Job_Validate (Some j) = Ok tt.
Proof.
  unfold getJob. intros H. inv_tx H. destruct (jt_jobs t !! id) as [row|]; [|done].
  apply check_ok in H as (a & [-> Hv]%job_model_ok & [= -> ->]). done.
Qed.
Lemma fenced_ok id token now t t' a : getFencedAttempt id token now t = Ok (t', a) →
  t' = t ∧ jt_attempts t !! id = Some a ∧ ja_ClaimToken a = token ∧ running a ∧ t_ns (TimeUTC now) < t_ns (ja_LeaseExpiresAt a).
Proof.
  unfold getFencedAttempt. intros H. inv_tx H. destruct (jt_attempts t !! id) as [row|]; [|done]. inv_tx H.
  match goal with G : attempt_model _ = Ok _ |- _ => apply attempt_model_ok in G as [-> _] end. to_prop. destruct_and!.
  unfold running. split_and!; done.
Qed.
Lemma updateJob_ok job t t' : updateJob job t = Ok (t', tt) → ∃ row, jt_jobs t !! j_ID job = Some row ∧
  taken_by_other active_duplicate (updated_row row job) t = false ∧ int32_ok (j_MaximumAttempts job) = true ∧
  int32_ok (j_WorkReserved job) = true ∧ t' = put_jobs <[j_ID job := updated_row row job]> t.
Proof.
  unfold updateJob. intros H. inv_tx H. destruct (jt_jobs t !! j_ID job) as [row|]; [|done]. inv_tx H.
  apply tx_bind_ok in H as (? & [] & [Htaken [= ->]]%refuse_if_ok & H). inv_tx H. to_prop. destruct_and!. eauto 8.
Qed.

(** ** Writes *)

Lemma same_key_sym j j' : same_key j j' = same_key j' j.
Proof. unfold same_key. f_equal; apply bool_decide_ext; split; congruence. Qed.
Lemma active_duplicate_sym j j' : active_duplicate j j' = active_duplicate j' j.
Proof. unfold active_duplicate. rewrite same_key_sym. destruct (same_key j' j), (_ ==? _), (_ ==? _), (active_status _), (active_status _); done. Qed.
Lemma duplicate_sym j j' : duplicate j j' = duplicate j' j.
Proof.
  unfold duplicate. rewrite active_duplicate_sym. f_equal. unfold permanent_duplicate. rewrite same_key_sym.
  by rewrite <-!andb_assoc, (andb_comm (j_DedupePolicy j ==? _)).
Qed.

(** A Job that keeps what identifies it and its attempts. *)
Definition pinned (j j' : Job) : Prop :=
  j_ID j' = j_ID j ∧ j_Type j' = j_Type j ∧ j_DedupeKey j' = j_DedupeKey j ∧ j_DedupePolicy j' = j_DedupePolicy j ∧
  j_AttemptCount j ≤ j_AttemptCount j'.
Lemma permanent_pinned j j' k : pinned j j' → permanent_duplicate j' k = permanent_duplicate j k.
Proof. intros (_ & Ht & Hk & Hp & _). unfold permanent_duplicate, same_key. by rewrite Ht, Hk, Hp. Qed.
Lemma active_pinned j j' k : pinned j j' → (active_status (j_Status j') = true → active_status (j_Status j) = true) →
  active_duplicate j' k = true → active_duplicate j k = true.
Proof.
  intros (_ & Ht & Hk & Hp & _) Hs. unfold active_duplicate, same_key. rewrite Ht, Hk, Hp, !andb_true_iff. naive_solver.
Qed.

Lemma core_put_job t k j j' : jobs_core t → jt_jobs t !! k = Some j → pinned j j' → good_row j' →
  (∀ k' i, k' ≠ k → jt_jobs t !! k' = Some i → active_duplicate j' i = false) → jobs_core (put_jobs <[k := j']> t).
Proof.
  intros Hc Hj Hp Hg Hdup. assert (Hother : ∀ k' i, k' ≠ k → jt_jobs t !! k' = Some i → duplicate j' i = false).
  { intros k' i Hne Hi. unfold duplicate. rewrite (Hdup k' i), (permanent_pinned j) by done. cbn.
    destruct (permanent_duplicate j i) eqn:E; [|done]. exfalso. apply Hne. symmetry. eapply (jc_unique _ Hc); [done..|].
    unfold duplicate. by rewrite E, orb_true_r. }
  destruct Hc. split; cbn; [| | |done|done].
  - intros k' i. rewrite lookup_insert_Some. intros [[<- <-]|[_ Hi]]; [|eauto]. destruct (jc_job0 k j Hj) as [<- _].
    split; [apply Hp|done].
  - intros k1 i1 k2 i2. rewrite !lookup_insert_Some. intros [[<- <-]|[Hn1 H1]] [[<- <-]|[Hn2 H2]] Hd; [done| | |eauto].
    + by rewrite (Hother k2 i2) in Hd.
    + by rewrite duplicate_sym, (Hother k1 i1) in Hd.
  - intros k' a Ha. destruct (jc_attempt0 k' a Ha) as (Hid & i & Hi & Hn). split; [done|].
    destruct (decide (ja_JobID a = k)) as [E|Hne]; [|rewrite lookup_insert_ne by done; eauto].
    rewrite E in *. rewrite lookup_insert_eq. exists j'. simplify_eq. split; [done|]. destruct Hp as (_ & _ & _ & _ & Hp). lia.
Qed.
Lemma core_same_status t k j j' : jobs_core t → jt_jobs t !! k = Some j → pinned j j' → good_row j' →
  (active_status (j_Status j') = true → active_status (j_Status j) = true) → jobs_core (put_jobs <[k := j']> t).
Proof.
  intros Hc Hj Hp Hg Hs. eapply core_put_job; [done..|]. intros k' i Hne Hi. destruct (active_duplicate j' i) eqn:E; [|done].
  exfalso. apply Hne. symmetry. eapply (jc_unique _ Hc); [done..|]. unfold duplicate. by rewrite (active_pinned j j').
Qed.
(** What happens to a Job alone, without its attempts, keeps it held or not. *)
Lemma agrees_put_job t k j j' id : agrees t id → jt_jobs t !! k = Some j →
  j_AttemptCount j' = j_AttemptCount j → job_holding (j_Status j') = job_holding (j_Status j) → agrees (put_jobs <[k := j']> t) id.
Proof.
  intros [Hr Hh] Hj Hn Hs. split; cbn.
  - intros k' a i Ha Hid Hra. rewrite lookup_insert_Some. intros [[<- <-]|[_ Hi]]; [|eauto].
    rewrite Hs, Hn. eauto.
  - intros i. rewrite lookup_insert_Some. intros [[<- <-]|[_ Hi]] Hi'; [|eauto]. rewrite Hs in Hi'. eauto.
Qed.
Lemma inv_put_job t k j j' : jobs_inv t → jt_jobs t !! k = Some j → pinned j j' → good_row j' →
  j_AttemptCount j' = j_AttemptCount j → job_holding (j_Status j') = job_holding (j_Status j) →
  (∀ k' i, k' ≠ k → jt_jobs t !! k' = Some i → active_duplicate j' i = false) → jobs_inv (put_jobs <[k := j']> t).
Proof. intros [Hc Ha] Hj Hp Hg Hn Hs Hd. split; [by eapply core_put_job|]. intros id. by eapply agrees_put_job. Qed.

(** Rows written by [updateJob]. *)
Lemma updated_row_same row job : j_ID job = j_ID row → j_Type job = j_Type row → j_CreatedAt job = j_CreatedAt row →
  j_Command job = j_Command row → j_DedupeKey job = j_DedupeKey row → j_DedupePolicy job = j_DedupePolicy row → updated_row row job = job.
Proof. destruct row, job. cbn. by intros -> -> -> -> -> ->. Qed.
Lemma effect_identity op j j' : job_effect op j j' → j_ID j' = j_ID j ∧ j_Type j' = j_Type j ∧ j_CreatedAt j' = j_CreatedAt j ∧
  j_Command j' = j_Command j ∧ j_DedupeKey j' = j_DedupeKey j ∧ j_DedupePolicy j' = j_DedupePolicy j ∧ j_WorkReserved j' = j_WorkReserved j.
Proof. intros He. effect_cases op He; done. Qed.
Lemma not_taken p job t : taken_by_other p job t = false → ∀ k i, jt_jobs t !! k = Some i → j_ID i ≠ j_ID job → p job i = false.
Proof.
  unfold taken_by_other, taken. intros H%negb_false_iff%Nat.eqb_eq%length_zero_iff_nil k i Hi Hne. rewrite select_nil in H.
  specialize (H k i Hi). apply andb_false_iff in H as [H|H]; [|done]. by to_prop.
Qed.
(** An accepted operation written back to its row. *)
Lemma update_effect op t t' j j' : jobs_core t → jt_jobs t !! j_ID j = Some j → Job_Validate (Some j') = Ok tt → job_effect op j j' →
  updateJob j' t = Ok (t', tt) →
  t' = put_jobs <[j_ID j := j']> t ∧ good_row j' ∧
  ∀ k i, k ≠ j_ID j → jt_jobs t !! k = Some i → active_duplicate j' i = false.
Proof.
  intros Hc Hj Hv He (row & Hrow & Htaken & Hm & Hw & ->)%updateJob_ok.
  destruct (effect_identity op j j' He) as (Hid & Hty & Hcr & Hcm & Hk & Hp & _). rewrite Hid in *. simplify_eq.
  rewrite updated_row_same in * by done. split_and!; [done|done|]. intros k i Hne Hi. eapply not_taken; [done..|].
  destruct (jc_job _ Hc k i Hi) as [-> _]. congruence.
Qed.

(** ** Attempts *)

Lemma set_where_one {K A} `{Countable K} (p : A → bool) (f : A → A) (m : gmap K A) k a : m !! k = Some a → p a = true →
  (∀ k' a', m !! k' = Some a' → p a' = true → k' = k) → set_where p f m = <[k := f a]> m.
Proof.
  intros Hk Hp Hone. apply map_eq. intros k'. apply option_eq. intros b. rewrite lookup_set_where, lookup_insert_Some. split.
  - intros (a' & Ha' & ->). destruct (decide (k = k')) as [<-|Hne]; [left|right].
    + simplify_eq. by rewrite Hp.
    + split; [done|]. destruct (p a') eqn:E; [|done]. by destruct Hne; rewrite (Hone k' a').
  - intros [[<- <-]|[Hne Hb]]; [exists a; by rewrite Hp|]. exists b. split; [done|].
    destruct (p b) eqn:E; [|done]. by destruct Hne; rewrite (Hone k' b).
Qed.
(** The row of the attempt a claim holds. *)
Lemma held_one t k a c f : jobs_core t → jt_attempts t !! k = Some a → running a → ja_ID c = ja_ID a → ja_ClaimToken c = ja_ClaimToken a →
  put_attempts (set_where (held_row c) f) t = put_attempts <[k := f a]> t.
Proof.
  intros Hc Hk Hr Hid Htok. unfold put_attempts. f_equal. apply set_where_one; [done| |].
  - unfold held_row. rewrite Hid, Htok, Hr, !bool_decide_true by done. done.
  - intros k' a' Ha' Hp. unfold held_row in Hp. to_prop. destruct Hp as [[Hp _] _].
    destruct (jc_attempt _ Hc k a Hk) as [<- _], (jc_attempt _ Hc k' a' Ha') as [<- _]. congruence.
Qed.
Definition same_attempt (a a' : JobAttempt) : Prop :=
  ja_ID a' = ja_ID a ∧ ja_JobID a' = ja_JobID a ∧ ja_Number a' = ja_Number a ∧ t_ns (ja_HeartbeatAt a') < t_ns (ja_LeaseExpiresAt a').
Lemma core_put_attempt t k a a' : jobs_core t → jt_attempts t !! k = Some a → same_attempt a a' → jobs_core (put_attempts <[k := a']> t).
Proof.
  intros [] Hk (Hid & Hj & Hn & Hl). assert (Hlk : ∀ k' b, <[k := a']> (jt_attempts t) !! k' = Some b →
    ∃ b0, jt_attempts t !! k' = Some b0 ∧ ja_ID b = ja_ID b0 ∧ ja_JobID b = ja_JobID b0 ∧ ja_Number b = ja_Number b0).
  { intros k' b. rewrite lookup_insert_Some. intros [[<- <-]|[_ Hb]]; eauto 6. }
  split; cbn; [done|done| | |].
  - intros k' b (b0 & Hb0 & -> & -> & ->)%Hlk. eauto.
  - intros k1 b1 k2 b2 (c1 & Hc1 & _ & -> & ->)%Hlk (c2 & Hc2 & _ & -> & ->)%Hlk. eauto.
  - intros k' b. rewrite lookup_insert_Some. intros [[<- <-]|[_ Hb]]; eauto.
Qed.
Lemma beat_inv t k a a' : jobs_inv t → jt_attempts t !! k = Some a → same_attempt a a' → ja_Status a' = ja_Status a →
  jobs_inv (put_attempts <[k := a']> t).
Proof.
  intros [Hc Ha] Hk Hs Hst. split; [by eapply core_put_attempt|]. intros id. destruct (Ha id) as [Hr Hh], Hs as (_ & Hj & Hn & _). split; cbn.
  - intros k' b j. rewrite lookup_insert_Some. unfold running. intros [[<- <-]|[_ Hb]]; [|by eauto]. rewrite Hj, Hn, Hst. eauto.
  - intros j Hjob Hhold. destruct (Hh j Hjob Hhold) as (k' & b & Hb & Hbj & Hbr). destruct (decide (k = k')) as [<-|Hne].
    + exists k, a'. rewrite lookup_insert_eq. unfold running. simplify_eq. split_and!; [done|congruence|by rewrite Hst].
    + exists k', b. by rewrite lookup_insert_ne.
Qed.
(** The claim on a Job ends with the Job's release. *)
Lemma end_claim_inv t k a a' j j' : jobs_inv t → jt_attempts t !! k = Some a → running a → same_attempt a a' → ¬ running a' →
  jt_jobs t !! ja_JobID a = Some j → pinned j j' → good_row j' → job_holding (j_Status j') = false →
  (∀ k' i, k' ≠ ja_JobID a → jt_jobs t !! k' = Some i → active_duplicate j' i = false) →
  jobs_inv (put_jobs <[ja_JobID a := j']> (put_attempts <[k := a']> t)).
Proof.
  intros Hinv Hk Hr Hs Hr' Hj Hp Hg Hh Hd. pose proof Hinv as [Hc Ha]. split.
  { eapply core_put_job; [by eapply core_put_attempt|done..]. }
  intros id. destruct (Ha id) as [Har Hah]. split; cbn.
  - intros k' b i. rewrite lookup_insert_Some. intros [[<- <-]|[Hne Hb]] Hbj Hbr; [done|].
    assert (ja_JobID a ≠ id) as Hn.
    { intros E. apply Hne. eapply running_unique; [done..| |done|done]. congruence. }
    rewrite lookup_insert_ne by done. eauto.
  - intros i. rewrite lookup_insert_Some. intros [[<- <-]|[Hne Hi]] Hhold; [congruence|].
    destruct (Hah i Hi Hhold) as (k' & b & Hb & Hbj & Hbr). exists k', b. rewrite lookup_insert_ne; [done|]. intros <-. congruence.
Qed.
(** A new claim takes a Job that is not held. *)
Lemma claim_inv t a j j' : jobs_inv t → jt_jobs t !! ja_JobID a = Some j → job_holding (j_Status j) = false →
  pinned j j' → good_row j' → job_holding (j_Status j') = true → j_AttemptCount j' = j_AttemptCount j + 1 →
  ja_Number a = j_AttemptCount j' → running a → t_ns (ja_HeartbeatAt a) < t_ns (ja_LeaseExpiresAt a) → jt_attempts t !! ja_ID a = None →
  (∀ k' i, k' ≠ ja_JobID a → jt_jobs t !! k' = Some i → active_duplicate j' i = false) →
  jobs_inv (put_attempts <[ja_ID a := a]> (put_jobs <[ja_JobID a := j']> t)).
Proof.
  intros [Hc Ha] Hj Hfree Hp Hg Hh Hn Hna Hr Hl Hnew Hd.
  assert (Hfirst : ∀ k b, jt_attempts t !! k = Some b → ja_JobID b = ja_JobID a → ja_Number b < ja_Number a).
  { intros k b Hb E. destruct (jc_attempt _ Hc k b Hb) as (_ & i & Hi & Hle). rewrite E in Hi. simplify_eq. lia. }
  pose proof (core_put_job t _ j j' Hc Hj Hp Hg Hd) as Hc'. split.
  - destruct Hc'. split; cbn; [done|done| | |].
    + intros k b. rewrite lookup_insert_Some. intros [[<- <-]|[_ Hb]]; [|by eapply jc_attempt0].
      split; [done|]. exists j'. rewrite lookup_insert_eq. split; [done|]. lia.
    + intros k1 b1 k2 b2. rewrite !lookup_insert_Some. intros [[<- <-]|[_ H1]] [[<- <-]|[_ H2]] Ej En; [done| | |by eapply jc_number0].
      * specialize (Hfirst k2 b2 H2 (eq_sym Ej)). lia.
      * specialize (Hfirst k1 b1 H1 Ej). lia.
    + intros k b. rewrite lookup_insert_Some. intros [[<- <-]|[_ Hb]]; eauto.
  - intros id. destruct (Ha id) as [Har Hah]. split; cbn.
    + intros k b i. rewrite !lookup_insert_Some. intros [[<- <-]|[Hne Hb]] Hbj Hbr [[Ei <-]|[Hnj Hi]]; [done|congruence| |eauto].
      destruct (Har k b j Hb Hbj Hbr) as [Hx _]; [congruence|]. congruence.
    + intros i. rewrite lookup_insert_Some. intros [[<- <-]|[Hnj Hi]] Hhold.
      * exists (ja_ID a), a. by rewrite lookup_insert_eq.
      * destruct (Hah i Hi Hhold) as (k & b & Hb & Hbj & Hbr). exists k, b. rewrite lookup_insert_ne; [done|]. congruence.
Qed.

(** ** Recovery *)

Definition recover_row (attempts : gmap ID JobAttempt) (now : Time) (job : Job) : Job :=
  if job_holding (j_Status job) then recovered attempts now job else job.
Lemma recovered_free attempts now job : job_holding (j_Status (recovered attempts now job)) = false.
Proof. cbn. by destruct (_ ==? _), (exhausted job). Qed.
Lemma recover_row_twice attempts now job : recover_row attempts now (recover_row attempts now job) = recover_row attempts now job.
Proof.
  unfold recover_row at 2 3. destruct (job_holding (j_Status job)) eqn:E; unfold recover_row; [by rewrite recovered_free|by rewrite E].
Qed.
Lemma foldl_recover now ids t : let t' := foldl (λ t id, recover now id t) t ids in
  jt_attempts t' = jt_attempts t ∧ jt_occurrences t' = jt_occurrences t ∧ jt_referenced t' = jt_referenced t ∧
  ∀ k, jt_jobs t' !! k = (if in_ids ids k then recover_row (jt_attempts t) now else id) <$> jt_jobs t !! k.
Proof.
  revert t. induction ids as [|x ids IH]; intros t; cbn; [split_and!; try done; intros k; by rewrite option_fmap_id|].
  destruct (IH (recover now x t)) as (-> & -> & -> & Hk). split_and!; [done..|]. intros k. rewrite Hk. cbn.
  destruct (decide (x = k)) as [<-|Hne].
  - rewrite lookup_alter_eq, bool_decide_true by done. cbn. rewrite <-option_fmap_compose.
    destruct (jt_jobs t !! x) as [job|]; [|by destruct (in_ids ids x)]. cbn. f_equal. fold (recover_row (jt_attempts t) now job).
    destruct (in_ids ids x); [apply recover_row_twice|done].
  - rewrite lookup_alter_ne, bool_decide_false by done. done.
Qed.
Lemma in_ids_spec ids k : in_ids ids k = true ↔ k ∈ ids.
Proof.
  unfold in_ids. rewrite existsb_exists. split.
  - intros (x & Hx%list_elem_of_In & E). to_prop. by subst.
  - intros H%list_elem_of_In. exists k. split; [done|]. by apply bool_decide_eq_true.
Qed.

Lemma backoff_bounds attempts job : (∀ k a, attempts !! k = Some a → t_ns (ja_HeartbeatAt a) < t_ns (ja_LeaseExpiresAt a)) →
  0 ≤ leaseExpiryBackoff attempts job ≤ Hour.
Proof.
  intros Hl. unfold leaseExpiryBackoff. set (l := merge_sort _ _).
  assert (0 ≤ match l with a :: _ => t_ns (ja_LeaseExpiresAt a) - t_ns (ja_HeartbeatAt a) | [] => 0 end) as H0.
  { destruct l as [|a l'] eqn:E; [lia|]. assert (a ∈ l) as Hin by (rewrite E; apply list_elem_of_here). unfold l in Hin.
    rewrite merge_sort_Permutation in Hin. apply select_spec in Hin as (_ & k & Hk). specialize (Hl k a Hk). lia. }
  assert (0 ≤ 2 ^ Z.min (Z.max (j_AttemptCount job - 1) 0) 10) by (apply Z.pow_nonneg; lia).
  unfold Hour, Minute, Second. split; [|lia]. apply Z.min_glb; [nia|lia].
Qed.
Lemma recovered_good attempts now job : (∀ k a, attempts !! k = Some a → t_ns (ja_HeartbeatAt a) < t_ns (ja_LeaseExpiresAt a)) →
  0 < t_ns now → good_row job → good_row (recovered attempts now job).
Proof.
  intros Hl Hnow [Hv Hi]. pose proof (backoff_bounds attempts job Hl) as Hb. split; [|done].
  apply Job_Validate_spec in Hv as [Hp Hs]. apply Job_Validate_spec. split; [done|]. destruct Hs. split; cbn; try done.
  - by destruct (_ ==? _), (exhausted job).
  - rewrite greatest_ns. lia.
  - lia.
  - lia.
  - destruct (_ ==? _), (exhausted job); done.
  - by destruct (_ ==? _), (exhausted job).
  - by destruct (_ ==? _), (exhausted job).
Qed.
Lemma recover_row_pinned attempts now job : pinned job (recover_row attempts now job) ∧
  j_AttemptCount (recover_row attempts now job) = j_AttemptCount job ∧
  (active_status (j_Status (recover_row attempts now job)) = true → active_status (j_Status job) = true).
Proof.
  unfold recover_row, pinned. destruct (job_holding (j_Status job)) eqn:E; [|split_and!; done]. split_and!; try done.
  intros _. apply job_holding_spec in E as [-> | ->]; done.
Qed.
Lemma duplicate_pinned j j' i i' : pinned j j' → pinned i i' → (active_status (j_Status j') = true → active_status (j_Status j) = true) →
  (active_status (j_Status i') = true → active_status (j_Status i) = true) → duplicate j' i' = true → duplicate j i = true.
Proof.
  intros Hj Hi Hsj Hsi. unfold duplicate. rewrite !orb_true_iff. intros [H|H].
  - left. apply (active_pinned j j' i Hj Hsj). rewrite active_duplicate_sym in *. by apply (active_pinned i i' j' Hi Hsi).
  - right. rewrite <-(permanent_pinned j j' i Hj). destruct Hi as (_ & Ht & Hk & Hp & _).
    unfold permanent_duplicate, same_key in *. by rewrite <-Ht, <-Hk, <-Hp.
Qed.

(** The tables after the recovery of lost attempts. *)
Definition after_recovery (now : Time) (t : JobTables) : JobTables := default t (fst <$> match recoverLost now t with Ok r => Some r | Err _ => None end).
Lemma recoverLost_rows now t : let ids := ja_JobID <$> select (lost now) (jt_attempts t) in let t' := after_recovery now t in
  recoverLost now t = Ok (t', ids) ∧ jt_attempts t' = set_where (lost now) (expire now) (jt_attempts t) ∧
  jt_occurrences t' = jt_occurrences t ∧
  ∀ k, jt_jobs t' !! k = (if in_ids ids k then recover_row (jt_attempts t') now else id) <$> jt_jobs t !! k.
Proof.
  intros ids t'. split; [done|].
  destruct (foldl_recover now ids (put_attempts (set_where (lost now) (expire now)) t)) as (Ha & Ho & _ & Hk).
  change (foldl _ _ _) with t' in Ha, Ho, Hk. rewrite Ha, Ho. split_and!; [done..|exact Hk].
Qed.
Lemma expired_row now (attempts : gmap ID JobAttempt) k a' : set_where (lost now) (expire now) attempts !! k = Some a' →
  ∃ a, attempts !! k = Some a ∧ ja_ID a' = ja_ID a ∧ ja_JobID a' = ja_JobID a ∧ ja_Number a' = ja_Number a ∧
    ja_HeartbeatAt a' = ja_HeartbeatAt a ∧ ja_LeaseExpiresAt a' = ja_LeaseExpiresAt a ∧ ja_ClaimToken a' = ja_ClaimToken a ∧
    (running a' → a' = a ∧ lost now a = false).
Proof. intros (a & Ha & ->)%lookup_set_where. exists a. destruct (lost now a) eqn:E; split_and!; done. Qed.
Lemma recover_inv now t : jobs_inv t → 0 < t_ns now → jobs_inv (after_recovery now t).
Proof.
  intros Hinv Hnow. pose proof Hinv as [Hc Ha]. destruct (recoverLost_rows now t) as (_ & Et & _ & Ej).
  set (ids := _ <$> _) in Ej. set (t' := after_recovery now t) in *.
  assert (Hlease : ∀ k a, jt_attempts t' !! k = Some a → t_ns (ja_HeartbeatAt a) < t_ns (ja_LeaseExpiresAt a)).
  { rewrite Et. intros k a' (a & Hk & _ & _ & _ & -> & -> & _)%expired_row. by eapply jc_lease. }
  assert (Hjob : ∀ k j', jt_jobs t' !! k = Some j' → ∃ j, jt_jobs t !! k = Some j ∧ pinned j j' ∧ good_row j' ∧
    j_AttemptCount j' = j_AttemptCount j ∧ (active_status (j_Status j') = true → active_status (j_Status j) = true) ∧
    (in_ids ids k = false → j' = j) ∧ (in_ids ids k = true → job_holding (j_Status j') = false)).
  { intros k j'. rewrite Ej, fmap_Some. intros (j & Hj & ->). exists j. split; [done|]. destruct (jc_job _ Hc k j Hj) as [_ Hg].
    destruct (in_ids ids k); [|split_and!; done]. destruct (recover_row_pinned (jt_attempts t') now j) as (Hp & Hn & Hs).
    split_and!; try done; unfold recover_row; destruct (job_holding (j_Status j)) eqn:E; try done; [by apply recovered_good|by rewrite recovered_free]. }
  assert (Hfind : ∀ k a, jt_attempts t !! k = Some a → lost now a = true → in_ids ids (ja_JobID a) = true).
  { intros k a Hk Hl. apply in_ids_spec, list_elem_of_fmap. exists a. split; [done|]. apply select_spec. eauto. }
  split; [split|].
  - intros k j' (j & Hj & Hp & Hg & _)%Hjob. split; [|done]. destruct (jc_job _ Hc k j Hj) as [<- _]. apply Hp.
  - intros k1 j1 k2 j2 (i1 & Hi1 & Hp1 & _ & _ & Hs1 & _)%Hjob (i2 & Hi2 & Hp2 & _ & _ & Hs2 & _)%Hjob Hd.
    eapply (jc_unique _ Hc); [done..|]. by eapply (duplicate_pinned i1 j1 i2 j2).
  - rewrite Et. intros k a' (a & Hk & -> & -> & -> & _)%expired_row. destruct (jc_attempt _ Hc k a Hk) as (Hid & j & Hj & Hn).
    split; [done|]. rewrite Ej, Hj. cbn. eexists. split; [done|]. destruct (in_ids ids (ja_JobID a)); [|done].
    by destruct (recover_row_pinned (jt_attempts t') now j) as (_ & -> & _).
  - rewrite Et. intros k1 a1 k2 a2 (b1 & Hb1 & _ & -> & -> & _)%expired_row (b2 & Hb2 & _ & -> & -> & _)%expired_row.
    by eapply (jc_number _ Hc).
  - exact Hlease.
  - intros id. destruct (Ha id) as [Har Hah]. split.
    + rewrite Et. intros k a' j' (a & Hk & _ & Hja & Hna & _ & _ & _ & Hrun)%expired_row Hid Hr (j & Hj & _ & _ & Hn & _ & Hsame & _)%Hjob.
      destruct (Hrun Hr) as [-> Hl]. assert (in_ids ids id = false) as Hin.
      { apply not_true_iff_false. rewrite in_ids_spec. intros (b & Hb & (Hlb & kb & Hkb)%select_spec)%list_elem_of_fmap.
        unfold lost in Hlb. to_prop. destruct Hlb as [Hrb Hlb].
        assert (kb = k) as -> by (eapply (running_unique t); [done..|congruence|done|done]). simplify_eq.
        unfold lost in Hl. rewrite (bool_decide_true _ Hr) in Hl. cbn in Hl. unfold Time_After in *. lia. }
      rewrite (Hsame Hin). eauto.
    + intros j' (j & Hj & _ & _ & _ & _ & Hsame & Hfree)%Hjob Hhold. destruct (in_ids ids id) eqn:Hin; [rewrite Hfree in Hhold; done|].
      rewrite (Hsame eq_refl) in Hhold. destruct (Hah j Hj Hhold) as (k & a & Hk & Hja & Hr). exists k, a. split; [|done].
      rewrite Et. apply lookup_set_where. exists a. split; [done|]. destruct (lost now a) eqn:El; [|done].
      specialize (Hfind k a Hk El). congruence.
Qed.

(** ** Operations *)

Lemma add_job_inv t j : jobs_inv t → jt_jobs t !! j_ID j = None → good_row j → job_holding (j_Status j) = false →
  (∀ k i, jt_jobs t !! k = Some i → duplicate j i = false) → jobs_inv (put_jobs <[j_ID j := j]> t).
Proof.
  intros [[] Ha] Hnew Hg Hfree Hd. assert (Hnone : ∀ k a, jt_attempts t !! k = Some a → ja_JobID a ≠ j_ID j).
  { intros k a Hk E. destruct (jc_attempt0 k a Hk) as (_ & i & Hi & _). congruence. }
  split; [split; cbn; [| | |done|done]|].
  - intros k i. rewrite lookup_insert_Some. intros [[<- <-]|[_ Hi]]; eauto.
  - intros k1 i1 k2 i2. rewrite !lookup_insert_Some. intros [[<- <-]|[_ H1]] [[<- <-]|[_ H2]] E; [done| | |eauto].
    + by rewrite (Hd k2 i2) in E.
    + by rewrite duplicate_sym, (Hd k1 i1) in E.
  - intros k a Hk. destruct (jc_attempt0 k a Hk) as (Hid & i & Hi & Hn). split; [done|]. exists i.
    rewrite lookup_insert_ne; [done|]. symmetry. eauto.
  - intros id. destruct (Ha id) as [Har Hah]. split; cbn.
    + intros k a i Hk Hid Hr. rewrite lookup_insert_Some. intros [[<- _]|[_ Hi]]; [by destruct (Hnone k a)|eauto].
    + intros i. rewrite lookup_insert_Some. intros [[<- <-]|[_ Hi]] Hh; [congruence|eauto].
Qed.
Lemma not_taken_any p job t : taken p job t = false → ∀ k i, jt_jobs t !! k = Some i → p job i = false.
Proof. unfold taken. intros H%negb_false_iff%Nat.eqb_eq%length_zero_iff_nil k i Hi. rewrite select_nil in H. eauto. Qed.
Lemma queued_row_good job : Job_Validate (Some job) = Ok tt → j_Status job = JobStatusQueued → int32_ok (j_MaximumAttempts job) = true →
  good_row (queued_row job).
Proof.
  intros [Hp Hs]%Job_Validate_spec Hq Hm. split; [|split; done]. apply Job_Validate_spec. destruct Hs. split.
  - unfold job_pinned_valid in *. cbn. destruct_and!. split_and!; done || lia.
  - split; cbn; try done; rewrite ?Hq; try done. lia.
Qed.
Lemma insertQueued_inv job deduplicate t t' created : jobs_inv t → Job_Validate (Some job) = Ok tt → j_Status job = JobStatusQueued →
  insertQueuedJob job deduplicate t = Ok (t', created) → jobs_inv t'.
Proof.
  intros Hinv Hv Hq. unfold insertQueuedJob. destruct (deduplicate && _); [by intros [= <- _]|].
  destruct (bool_decide_reflect (jt_jobs t !! j_ID job = None)) as [Hnew|]; [|done]. cbn [negb].
  destruct (taken active_duplicate _ t) eqn:Ea; [done|]. destruct (taken permanent_duplicate _ t) eqn:Ep; [done|].
  destruct (int32_ok (j_MaximumAttempts job)) eqn:Em; [|done]. cbn [negb]. intros [= <- _].
  apply (add_job_inv t (queued_row job)); [done|done|by apply queued_row_good|by cbn; rewrite Hq|].
  intros k i Hi. unfold duplicate. by rewrite (not_taken_any _ _ _ Ea k i), (not_taken_any _ _ _ Ep k i).
Qed.
Lemma named_ok {S A} message (m : Tx S A) t r : named message m t = Ok r ↔ m t = Ok r.
Proof. unfold named. destruct (m t); naive_solver. Qed.
Lemma attempts_only t t' : jobs_inv t → jt_jobs t' = jt_jobs t → jt_attempts t' = jt_attempts t → jobs_inv t'.
Proof.
  destruct t, t'. cbn. intros [[] Ha] -> ->. split; [by split|]. intros id. destruct (Ha id). by split.
Qed.
Lemma enqueue_inv d input t : jobs_inv t → jobs_inv (Enqueue d input t).1.
Proof.
  intros Hinv. unfold Enqueue. destruct input as [job|]; [|done]. destruct (Job_Validate (Some job)) as [[]|] eqn:Hv; [|done].
  destruct (_ || _) eqn:Eq; [done|]. apply orb_false_iff in Eq as [Eq _]. to_prop.
  destruct (_ ==? _).
  - unfold enqueuePermanent. destruct (executeSQLTransaction _ _ _ _) as [t' r] eqn:E. assert (jobs_inv t') as Ht'.
    { destruct (execute_state d permanentJobTransactionPolicy (permanent_body job) t) as [Es|[a Hb]]; rewrite E in *; cbn in *; [congruence|].
      unfold permanent_body in Hb. rewrite tx_query in Hb. destruct (jt_occurrences t !! _) as [id|]; inv_tx Hb; [done|].
      apply tx_bind_ok in Hb as (t1 & created & Hins%named_ok & Hb). inv_tx Hb.
      eapply (insertQueued_inv job false); [|done..]. by eapply attempts_only. }
    destruct r as [[[row|] []]|]; exact Ht'.
  - destruct (execute_state d (rawSQLTransactionPolicy true (λ _ e, e)) (active_body job) t) as [->|[a Hb]]; [done|].
    unfold active_body in Hb. apply tx_bind_ok in Hb as (t1 & created & Hins%named_ok & Hb).
    assert (jobs_inv t1) by (by eapply insertQueued_inv). destruct created; inv_tx Hb; done.
Qed.

(** Operations that leave the claim on a Job as it is. *)
Definition keeps_claim (op : JobOp) : Prop :=
  match op with JUpdateProgress _ _ _ | JRequestCancellation _ | JExplicitRetry _ => True | _ => False end.
Definition ends_claim (op : JobOp) : Prop :=
  match op with JSucceed _ _ | JRetry _ _ _ | JRelinquish _ _ _ | JFail _ _ | JCancel _ _ => True | _ => False end.
Lemma effect_count op j j' : job_effect op j j' → keeps_claim op ∨ ends_claim op → j_AttemptCount j' = j_AttemptCount j.
Proof. intros He Hop. effect_cases op He; destruct Hop; done. Qed.
Lemma effect_pinned op j j' : job_effect op j j' → j_AttemptCount j ≤ j_AttemptCount j' → pinned j j'.
Proof. intros He Hn. destruct (effect_identity op j j' He) as (? & ? & _ & _ & ? & ? & _). by split_and!. Qed.
Lemma effect_keeps op j j' : job_effect op j j' → keeps_claim op → job_holding (j_Status j') = job_holding (j_Status j).
Proof.
  intros He Hop. destruct op; try done; cbn in He; destruct_and?; destruct_or?; destruct_and?; subst j'; cbn;
    repeat match goal with E : j_Status j = _ |- _ => rewrite E end; done.
Qed.
Lemma effect_ends op j j' : job_effect op j j' → ends_claim op → job_holding (j_Status j') = false.
Proof. intros He Hop. effect_cases op He; done. Qed.

Lemma keep_inv op t t' j j' : jobs_inv t → jt_jobs t !! j_ID j = Some j → keeps_claim op →
  Job_Validate (Some j') = Ok tt ∧ job_effect op j j' → updateJob j' t = Ok (t', tt) → jobs_inv t'.
Proof.
  intros Hinv Hj Hop [Hv He] Hup. destruct (update_effect op t t' j j' (proj1 Hinv) Hj Hv He Hup) as (-> & Hg & Hd).
  pose proof (effect_count op j j' He (or_introl Hop)) as Hn.
  eapply inv_put_job; [done..|by apply (effect_pinned op); [|lia]|done|done|by eapply effect_keeps|done].
Qed.
Lemma job_row_id t k j : jobs_inv t → jt_jobs t !! k = Some j → j_ID j = k.
Proof. intros [Hc _] Hj. by destruct (jc_job _ Hc k j Hj). Qed.

Lemma heartbeat_inv now c lease t t' a : jobs_inv t → heartbeat_body now c lease t = Ok (t', a) → jobs_inv t'.
Proof.
  intros Hinv H. unfold heartbeat_body in H.
  apply tx_bind_ok in H as (? & b & (-> & Hk & _ & Hr & _)%fenced_ok & H). cbv zeta in H.
  apply tx_bind_ok in H as (? & b' & (b1 & Hb & [= -> ->])%or_fail_ok & H). inv_tx H.
  apply accepted_ok, checked_attempt_inv in Hb as (_ & -> & Hv).
  erewrite held_one; [|apply Hinv|exact Hk|done|done|done]. eapply beat_inv; [done|exact Hk| |done]. split_and!; try done. cbn.
  unfold JobAttempt_Validate in Hv. apply ok_fail_if in Hv as [Hv _]. to_prop. destruct_and!. cbn in *. unfold Time_After in *. lia.
Qed.
Lemma checkpoint_inv now c progress checkpoint t t' j : jobs_inv t → checkpoint_body now c progress checkpoint t = Ok (t', j) → jobs_inv t'.
Proof.
  intros Hinv H. unfold checkpoint_body in H. apply tx_bind_ok in H as (? & b & (-> & Hk & _)%fenced_ok & H).
  apply tx_bind_ok in H as (? & i & (-> & Hi & _)%getJob_ok & H).
  apply tx_bind_ok in H as (? & i' & (i1 & Hop & [= -> ->])%or_fail_ok & H). apply tx_bind_ok in H as (t1 & [] & Hup & H). inv_tx H.
  rewrite <-(job_row_id t _ i Hinv Hi) in Hi.
  by eapply (keep_inv (JUpdateProgress _ _ _)); [done|exact Hi|done|exact (accepted_job (JUpdateProgress _ _ _) _ _ Hop)|].
Qed.
Lemma mutate_inv audit now operation mutate input op t t' j : jobs_inv t →
  (∀ p at_, mutate p at_ = run_job_op (op at_) p) → (∀ at_, keeps_claim (op at_)) →
  mutate_body audit now operation mutate input t = Ok (t', j) → jobs_inv t'.
Proof.
  intros Hinv Hm Hop H. unfold mutate_body in H. apply tx_bind_ok in H as (? & i & (-> & Hi & _)%getJob_ok & H). inv_tx H.
  apply tx_bind_ok in H as (? & i' & (i1 & Ha & [= -> ->])%or_fail_ok & H). apply tx_bind_ok in H as (t1 & [] & Hup & H). inv_tx H.
  rewrite <-(job_row_id t _ i Hinv Hi) in Hi. rewrite Hm in Ha.
  eapply (keep_inv (op _)); [done|exact Hi|apply Hop|exact (accepted_job (op _) _ _ Ha)|done].
Qed.
Lemma reserve_inv now c units limit t t' r : jobs_inv t → 0 < units → limit ≤ 1000000 →
  reserve_body now c units limit t = Ok (t', r) → jobs_inv t'.
Proof.
  intros Hinv Hu Hl H. unfold reserve_body in H. apply tx_bind_ok in H as (? & b & (-> & Hk & _)%fenced_ok & H). rewrite tx_query in H.
  destruct (jt_jobs t !! ja_JobID b) as [j|] eqn:Hj; [|done]. destruct (_ <=? _) eqn:Ele; inv_tx H; [|done].
  pose proof (proj1 Hinv) as Hc. destruct (jc_job _ Hc _ j Hj) as [Hid [Hv [Hm Hw]]]. apply Job_Validate_spec in Hv as [Hp Hs].
  assert (good_row (j <| j_WorkReserved := j_WorkReserved j + units |> <| j_UpdatedAt := greatest (j_UpdatedAt j) now |> <| j_Revision := j_Revision j + 1 |>)) as Hg.
  { split; [|split; [done|]].
    - apply Job_Validate_spec. split; [unfold job_pinned_valid in *; cbn; destruct_and!; split_and!; done || lia|].
      destruct Hs. split; cbn; try done; rewrite ?greatest_ns; lia.
    - cbn. unfold int32_ok in *. unfold job_pinned_valid in Hp. destruct_and!. lia. }
  split.
  - eapply core_same_status; [done|exact Hj| |done|done]. by split_and!.
  - intros id. eapply agrees_put_job; [apply Hinv|exact Hj|done|done].
Qed.

(** A completion is one of the operations that end a claim, and names how the attempt ended. *)
Lemma completion_cases job input at_ status outcome j' : completion_outcome job input at_ = (status, outcome) → outcome = Ok j' →
  status ≠ JobAttemptStatusRunning ∧ ∃ op, ends_claim op ∧ accepted (run_job_op op (Some job)) = Ok j'.
Proof.
  unfold completion_outcome. destruct (completion_kind job input) as [kind code].
  destruct kind; intros [= <- <-] H; (split; [done|]).
  - by exists (JSucceed (cm_Result input) at_).
  - destruct (_ <? _); [by exists (JRetry code (Time_Add at_ (cm_RetryDelay input)) at_)|by exists (JFail code at_)].
  - by exists (JRelinquish code (Time_Add at_ (cm_RetryDelay input)) at_).
  - by exists (JFail code at_).
  - by exists (JCancel code at_).
  - done.
Qed.
Lemma complete_inv now input t t' j : jobs_inv t → complete_body now input t = Ok (t', j) → jobs_inv t'.
Proof.
  intros Hinv H. unfold complete_body in H. apply tx_bind_ok in H as (? & b & (-> & Hk & _ & Hr & _)%fenced_ok & H).
  apply tx_bind_ok in H as (? & i & (-> & Hi & _)%getJob_ok & H). destruct (completion_outcome _ _ _) as [status outcome] eqn:Eo.
  apply tx_bind_ok in H as (? & i' & (i1 & Hout & [= -> ->])%or_fail_ok & H).
  apply tx_bind_ok in H as (? & b' & (b1 & Hb & [= -> ->])%or_fail_ok & H). inv_tx H.
  apply tx_bind_ok in H as (t1 & [] & Hup & H). inv_tx H.
  destruct (completion_cases _ _ _ _ _ _ Eo eq_refl) as (Hst & op & Hop & [Hv He]%accepted_job).
  apply accepted_ok, checked_attempt_inv in Hb as (_ & -> & _).
  erewrite held_one in Hup; [|apply Hinv|exact Hk|done|done|done]. pose proof (job_row_id t _ i Hinv Hi) as Hid.
  assert (Hs : same_attempt b (b <| ja_Status := status |> <| ja_CompletedAt := OptionalTimeFrom (latestTime (ja_HeartbeatAt b) now) |>
    <| ja_PublicErrorCode := TrimSpace (completion_kind i input).2 |>)).
  { split_and!; try done. apply (jc_lease _ (proj1 Hinv) _ _ Hk). }
  pose proof (core_put_attempt _ _ _ _ (proj1 Hinv) Hk Hs) as Hc'.
  destruct (update_effect op _ t1 i i1 Hc') as (-> & Hg & Hd); [by cbn; rewrite Hid|done|done|exact Hup|].
  pose proof (effect_count op i i1 He (or_intror Hop)) as Hn. rewrite Hid in *.
  eapply end_claim_inv; [done|exact Hk|done|exact Hs|done|exact Hi|by apply (effect_pinned op); [|lia]|done|by eapply effect_ends|exact Hd].
Qed.

Lemma start_count j j' at_ : good_row j → Job_Validate (Some j') = Ok tt ∧ job_effect (JStart at_) j j' →
  j_AttemptCount j' = j_AttemptCount j + 1 ∧ j_Status j = JobStatusQueued ∧ j_Status j' = JobStatusRunning.
Proof.
  intros [[_ Hs]%Job_Validate_spec [Hm _]] [_ (Hq & Hlt & _ & ->)]. split_and!; [|done|done]. cbn. destruct Hs.
  unfold int32_ok in Hm. rewrite int64_succ_lt; unfold in_int64, int64_min, int64_max in *; lia.
Qed.
Lemma NewJobAttempt_ok id jobID number node token at_ lease a : NewJobAttempt id jobID number node token at_ lease = Ok a →
  ja_ID a = id ∧ ja_JobID a = jobID ∧ ja_Number a = number ∧ running a ∧ ja_ClaimToken a = token ∧ ja_NodeID a = TrimSpace node ∧
  t_ns (ja_HeartbeatAt a) < t_ns (ja_LeaseExpiresAt a).
Proof.
  unfold NewJobAttempt. rewrite ok_bind. intros ([] & Hv & <-%ok_inj). split_and!; try done.
  unfold JobAttempt_Validate in Hv. apply ok_fail_if in Hv as [Hv _]. to_prop. destruct_and!. cbn in *. unfold Time_After in *. lia.
Qed.
Lemma insert_attempt_ok a t t' : insert_attempt a t = Ok (t', tt) → jt_attempts t !! ja_ID a = None ∧ t' = put_attempts <[ja_ID a := a]> t.
Proof.
  unfold insert_attempt. intros H. apply tx_bind_ok in H as (? & [] & [Hn [= ->]]%refuse_if_ok & H).
  apply tx_bind_ok in H as (? & [] & [_ [= ->]]%refuse_if_ok & H). apply tx_bind_ok in H as (? & [] & [_ [= ->]]%refuse_if_ok & H).
  apply exec_ok in H as [= ->]. split; [|done]. by apply bool_decide_eq_false, eq_None_not_Some in Hn.
Qed.
Lemma claim_body_inv now attemptID locked request t t' r : jobs_inv t → 0 < t_ns now →
  claim_body now attemptID locked request t = Ok (t', r) → jobs_inv t'.
Proof.
  intros Hinv Hnow H. unfold claim_body in H. cbv zeta in H.
  apply tx_bind_ok in H as (t1 & ids & Hrec & H). destruct (recoverLost_rows now t) as [Hrec' _]. rewrite Hrec' in Hrec.
  injection Hrec as <- <-. pose proof (recover_inv now t Hinv Hnow) as Hinv1. rewrite tx_query in H.
  destruct (merge_sort claim_order _) as [|row rest] eqn:E; [inv_tx H; done|]. inv_tx H.
  match goal with G : job_model _ = Ok _ |- _ => apply job_model_ok in G as [-> Hv] end.
  apply tx_bind_ok in H as (? & j' & (j1 & Hstart & [= -> ->])%or_fail_ok & H). apply (accepted_job (JStart _)) in Hstart as Hst.
  apply tx_bind_ok in H as (t2 & [] & Hup & H).
  apply tx_bind_ok in H as (? & a & (a1 & Hna & [= -> ->])%or_fail_ok & H).
  apply tx_bind_ok in H as (t3 & [] & [Hfresh ->]%insert_attempt_ok & H). inv_tx H.
  assert (row ∈ merge_sort claim_order (select (claimable now (cq_Types request) (TrimSpace (cq_NodeID request)) locked (after_recovery now t))
    (jt_jobs (after_recovery now t)))) as Hin by (rewrite E; apply list_elem_of_here).
  rewrite merge_sort_Permutation in Hin. apply select_spec in Hin as (_ & k & Hk).
  destruct (jc_job _ (proj1 Hinv1) k row Hk) as [<- Hg]. destruct (start_count row j1 _ Hg Hst) as (Hn & Hq & Hrun).
  destruct Hst as [Hv1 He]. destruct (update_effect _ _ _ row j1 (proj1 Hinv1) Hk Hv1 He Hup) as (-> & Hg1 & Hd).
  pose proof (effect_pinned _ _ _ He ltac:(lia)) as Hp. apply NewJobAttempt_ok in Hna as (_ & Hja & Hnum & Hr & _ & _ & Hl).
  assert (Hid : ja_JobID a1 = j_ID row) by (rewrite Hja; apply Hp).
  rewrite <-Hid in *. eapply claim_inv; try done; [by rewrite Hq|by rewrite Hrun].
Qed.
Lemma cleanup_inv now locked input t t' r : jobs_inv t → cleanup_body now locked input t = Ok (t', r) → jobs_inv t'.
Proof.
  intros Hinv H. unfold cleanup_body in H. inv_tx H. set (rows := cleanup_page now locked input t) in *.
  destruct (last rows) as [lastRow|]; [|inv_tx H; done]. inv_tx H. set (ids := map j_ID rows).
  set (gone := λ job, in_ids ids (j_ID job) && deletable (hc_ExcludeJobID input) t job). pose proof Hinv as [Hc Ha].
  assert (Hgone : ∀ k j, jt_jobs t !! k = Some j → gone j = in_ids ids k).
  { intros k j Hj. unfold gone. destruct (jc_job _ Hc k j Hj) as [Hid _]. rewrite Hid. destruct (in_ids ids k) eqn:E; [|done].
    apply in_ids_spec, list_elem_of_fmap in E as (row & -> & Hrow). unfold rows, cleanup_page in Hrow.
    apply elem_of_take in Hrow as (n & Hn & _). apply list_elem_of_lookup_2 in Hn. rewrite merge_sort_Permutation in Hn.
    apply select_spec in Hn as (Hd & k' & Hk'). destruct (jc_job _ Hc k' row Hk') as [<- _]. simplify_eq. rewrite !andb_true_iff in Hd. apply Hd. }
  assert (Hfree : ∀ k j, jt_jobs t !! k = Some j → job_holding (j_Status j) = true → gone j = false).
  { intros k j Hj Hh. unfold gone, deletable. apply job_holding_spec in Hh as [-> | ->]; cbn; by rewrite !andb_false_r. }
  change (jobs_inv (put_jobs (delete_where gone) (put_attempts (delete_where (λ a, in_ids ids (ja_JobID a))) t))).
  split; [destruct Hc; split; cbn|].
  - intros k j [Hj _]%lookup_delete_where. eauto.
  - intros k1 j1 k2 j2 [H1 _]%lookup_delete_where [H2 _]%lookup_delete_where. eauto.
  - intros k a [Hk Hin]%lookup_delete_where. destruct (jc_attempt0 k a Hk) as (Hid & j & Hj & Hn). split; [done|].
    exists j. split; [|done]. apply lookup_delete_where. split; [done|]. by rewrite (Hgone _ _ Hj).
  - intros k1 a1 k2 a2 [H1 _]%lookup_delete_where [H2 _]%lookup_delete_where. eauto.
  - intros k a [Hk _]%lookup_delete_where. eauto.
  - intros id. destruct (Ha id) as [Har Hah]. split; cbn.
    + intros k a j [Hk _]%lookup_delete_where Hid Hr [Hj _]%lookup_delete_where. eauto.
    + intros j [Hj _]%lookup_delete_where Hh. destruct (Hah j Hj Hh) as (k & a & Hk & Hja & Hr). exists k, a. split; [|done].
      apply lookup_delete_where. split; [done|]. rewrite Hja, <-(Hgone id j Hj). eauto.
Qed.

(** ** Histories *)

(** The operations of the store, and what other components write: Jobs they insert in their own
    transactions ([insertQueuedJob], canceled mail Jobs), the cancellation of an import's Job,
    and references to Jobs. *)
Inductive JobStoreOp :=
  | SEnqueue (input : option Job)
  | SClaim (now : Time) (attemptID : ID) (locked : gset ID) (request : option JobClaimRequest)
  | SHeartbeat (now : Time) (c : Claimed) (leaseDuration : Z)
  | SCheckpoint (now : Time) (c : Claimed) (progress : option JobProgress) (checkpoint : string)
  | SReserve (now : Time) (c : Claimed) (units limit : Z)
  | SComplete (now : Time) (input : JobCompletion)
  | SObserve (now : Time) (c : Claimed)
  | SCancel (audit : result unit) (now : Time) (input : JobMutation)
  | SRetry (audit : result unit) (now : Time) (input : JobMutation)
  | SCleanup (now : Time) (locked : gset ID) (input : JobHistoryCleanup)
  | SInsert (job : Job)
  | SImportCancel (at_ : Time) (jobID : ID)
  | SReferences (referenced : gset ID).

Definition import_canceled (at_ : Time) (job : Job) : Job :=
  match j_Status job with
  | JobStatusQueued => job <| j_Status := JobStatusCanceled |> <| j_CompletedAt := mkOptionalTime at_ true |>
      <| j_PublicErrorCode := "job.canceled" |> <| j_UpdatedAt := at_ |> <| j_Revision := j_Revision job + 1 |>
  | JobStatusRunning => job <| j_Status := JobStatusCancelRequested |> <| j_UpdatedAt := at_ |> <| j_Revision := j_Revision job + 1 |>
  | _ => job
  end.
Definition insertable (job : Job) (t : JobTables) : bool :=
  bool_decide (jt_jobs t !! j_ID job = None) && is_ok (Job_Validate (Some job)) && int32_ok (j_MaximumAttempts job)
  && int32_ok (j_WorkReserved job) && negb (job_holding (j_Status job)) && negb (taken active_duplicate job t) && negb (taken permanent_duplicate job t).
Definition job_store_step (t : JobTables) (step : driver * JobStoreOp) : JobTables :=
  let d := step.1 in
  match step.2 with
  | SEnqueue input => (Enqueue d input t).1
  | SClaim now attemptID locked request => (ClaimNext d now attemptID locked request t).1
  | SHeartbeat now c leaseDuration => (Heartbeat d now c leaseDuration t).1
  | SCheckpoint now c progress checkpoint => (Checkpoint d now c progress checkpoint t).1
  | SReserve now c units limit => (ReserveWork d now c units limit t).1
  | SComplete now input => (Complete d now input t).1
  | SObserve now c => (CancellationRequested d now c t).1
  | SCancel audit now input => (Cancel d audit now input t).1
  | SRetry audit now input => (Retry d audit now input t).1
  | SCleanup now locked input => (DeleteTerminalHistory d now locked input t).1
  | SInsert job => if insertable job t then put_jobs <[j_ID job := job]> t else t
  | SImportCancel at_ jobID =>
      put_jobs (alter (λ job, if Time_Before at_ (j_CreatedAt job) then job else import_canceled at_ job) jobID) t
  | SReferences referenced => t <| jt_referenced := referenced |>
  end.
Definition job_store_run (steps : list (driver * JobStoreOp)) (t : JobTables) : JobTables := foldl job_store_step t steps.
Definition no_jobs : JobTables := mkJobTables ∅ ∅ ∅ ∅.
(** The database clock is after the zero time. *)
Definition clock_ok (step : driver * JobStoreOp) : Prop := match step.2 with SClaim now _ _ _ => 0 < t_ns now | _ => True end.

Lemma execute_inv {A} d (policy : sqlTransactionPolicy A) (body : Tx JobTables A) t : jobs_inv t →
  (∀ t' a, body t = Ok (t', a) → jobs_inv t') → jobs_inv (executeSQLTransaction d policy body t).1.
Proof. intros Hinv Hb. destruct (execute_state d policy body t) as [->|[a Ha]]; [done|eauto]. Qed.
Lemma import_cancel_inv at_ jobID t : jobs_inv t → jobs_inv (job_store_step t (healthy, SImportCancel at_ jobID)).
Proof.
  intros Hinv. cbn. pose proof Hinv as [Hc Ha]. destruct (jt_jobs t !! jobID) as [j|] eqn:Hj.
  2:{ eapply attempts_only; [done| |done]. cbn. apply map_eq. intros k. destruct (decide (jobID = k)) as [<-|Hne];
      [by rewrite lookup_alter_eq, Hj|by rewrite lookup_alter_ne]. }
  set (f := λ job, if Time_Before at_ (j_CreatedAt job) then job else import_canceled at_ job).
  assert (E : put_jobs (alter f jobID) t = put_jobs <[jobID := f j]> t).
  { unfold put_jobs. f_equal. apply map_eq. intros k. destruct (decide (jobID = k)) as [<-|Hne];
      [by rewrite lookup_alter_eq, lookup_insert_eq, Hj|by rewrite lookup_alter_ne, lookup_insert_ne]. }
  rewrite E. destruct (jc_job _ Hc jobID j Hj) as [Hid [Hv [Hm Hw]]]. apply Job_Validate_spec in Hv as [Hp Hs].
  assert (pinned j (f j) ∧ j_AttemptCount (f j) = j_AttemptCount j ∧ job_holding (j_Status (f j)) = job_holding (j_Status j) ∧
    (active_status (j_Status (f j)) = true → active_status (j_Status j) = true) ∧ good_row (f j)) as (Hpin & Hn & Hh & Hact & Hg).
  { unfold f, good_row, int32_row. rewrite Job_Validate_spec. destruct (Time_Before at_ (j_CreatedAt j)) eqn:Et; [by split_and!|].
    unfold import_canceled. destruct (j_Status j) eqn:Est; try (split_and!; try rewrite Est; done);
      split_and!; cbn; try rewrite Est; try done; destruct Hs; split; cbn; try done; unfold Time_Before in Et; try lia;
      by rewrite jv_completed, Est. }
  split; [by eapply core_same_status|]. intros id. by eapply agrees_put_job.
Qed.
Lemma step_inv step t : clock_ok step → jobs_inv t → jobs_inv (job_store_step t step).
Proof.
  destruct step as [d op]. intros Hclock Hinv. destruct op; cbn [job_store_step fst snd].
  - by apply enqueue_inv.
  - unfold ClaimNext. destruct request as [request|]; [|done]. destruct (claim_request_ok request); [|done].
    pose proof (execute_inv d jobClaimSQLTransactionPolicy (claim_body now attemptID locked request) t Hinv) as H.
    destruct (executeSQLTransaction _ _ _ _) as [t' [r|e]]; apply H; intros; (eapply claim_body_inv; [done|exact Hclock|done]).
  - unfold Heartbeat. destruct (_ || _); [done|]. apply execute_inv; [done|]. intros. by eapply heartbeat_inv.
  - unfold Checkpoint. destruct (negb _); [done|]. apply execute_inv; [done|]. intros. by eapply checkpoint_inv.
  - unfold ReserveWork. destruct (_ || _) eqn:E; [done|]. to_prop. destruct_and!. apply execute_inv; [done|]. intros.
    eapply (reserve_inv now c units limit); [done|lia|lia|done].
  - unfold Complete. destruct (_ || _); [done|]. apply execute_inv; [done|]. intros. by eapply complete_inv.
  - unfold CancellationRequested. destruct (negb _); [done|]. apply execute_inv; [done|]. intros t' a H.
    apply tx_bind_ok in H as (? & b & (-> & _)%fenced_ok & H). apply tx_bind_ok in H as (? & j & (-> & _)%getJob_ok & H). by inv_tx H.
  - unfold Cancel, mutateOperatorJob. destruct (_ || _); [done|]. apply execute_inv; [done|]. intros.
    by eapply (mutate_inv _ _ _ _ _ JRequestCancellation).
  - unfold Retry, mutateOperatorJob. destruct (_ || _); [done|]. apply execute_inv; [done|]. intros.
    by eapply (mutate_inv _ _ _ _ _ JExplicitRetry).
  - unfold DeleteTerminalHistory. destruct (cleanup_input_ok input); [|done].
    pose proof (execute_inv d jobHistorySQLTransactionPolicy (cleanup_body now locked input) t Hinv) as H.
    destruct (executeSQLTransaction _ _ _ _) as [t' [[r b]|e]]; apply H; intros; by eapply cleanup_inv.
  - destruct (insertable job t) eqn:E; [|done]. unfold insertable in E. rewrite !andb_true_iff, !negb_true_iff in E.
    destruct E as [[[[[[Hnew%bool_decide_eq_true Hv] Hm] Hw] Hh] Ha] Hp]. apply add_job_inv; try done.
    + split; [by destruct (Job_Validate (Some job)) as [[]|]|done].
    + intros k i Hi. unfold duplicate. by rewrite (not_taken_any _ _ _ Ha k i), (not_taken_any _ _ _ Hp k i).
  - by apply (import_cancel_inv at_ jobID).
  - by eapply attempts_only.
Qed.
Lemma store_history_inv steps t : Forall clock_ok steps → jobs_inv t → jobs_inv (job_store_run steps t).
Proof.
  revert t. induction steps as [|step steps IH]; intros t Hs Hinv; [done|]. apply Forall_cons in Hs as [Hs1 Hs2]. cbn.
  apply IH; [done|]. by apply step_inv.
Qed.
Lemma no_jobs_inv : jobs_inv no_jobs.
Proof. split; [split|intros id; split]; cbn; intros; exfalso; by rewrite ?lookup_empty in *. Qed.

(** C29. Claims on Jobs are exclusive.  After any history of enqueues, claims, heartbeats,
    checkpoints, completions, operator commands, cleanups and writes of other components, over a
    database whose commits may fail, at most one attempt of a Job runs; a Job is running or being
    canceled exactly while an attempt of it runs, and that attempt bears the number of executions
    the Job counts. *)
Theorem job_claims_exclusive (steps : list (driver * JobStoreOp)) (Hclock : Forall clock_ok steps) :
  let t := job_store_run steps no_jobs in
  (∀ k a k' a', jt_attempts t !! k = Some a → jt_attempts t !! k' = Some a' → ja_JobID a = ja_JobID a' →
     running a → running a' → k = k' ∧ a = a') ∧
  (∀ id j, jt_jobs t !! id = Some j → job_holding (j_Status j) = true ↔
     ∃ k a, jt_attempts t !! k = Some a ∧ ja_JobID a = id ∧ running a ∧ ja_Number a = j_AttemptCount j).
Proof.
  intros t. pose proof (store_history_inv steps no_jobs Hclock no_jobs_inv) as Hinv. fold t in Hinv. split.
  - intros k a k' a' Hk Hk' Ej Hr Hr'. assert (k = k') as <- by (by eapply (running_unique t)). by simplify_eq.
  - intros id j Hj. destruct Hinv as [_ Ha]. destruct (Ha id) as [Har Hah]. split.
    + intros Hh. destruct (Hah j Hj Hh) as (k & a & Hk & Hid & Hr). destruct (Har k a j Hk Hid Hr Hj). eauto 6.
    + intros (k & a & Hk & Hid & Hr & _). by destruct (Har k a j Hk Hid Hr Hj).
Qed.

(** ** Lost claims *)

(** An attempt that runs afterwards ran before under the same token, or was claimed with it;
    and no reserved occurrence is given up. *)
Definition only_claims (token : option string) (t t' : JobTables) : Prop :=
  (∀ k a', jt_attempts t' !! k = Some a' → running a' →
    (∃ a, jt_attempts t !! k = Some a ∧ ja_ClaimToken a = ja_ClaimToken a' ∧ running a) ∨ token = Some (ja_ClaimToken a')) ∧
  jt_occurrences t ⊆ jt_occurrences t'.
Definition same_claims (t t' : JobTables) : Prop := jt_attempts t' = jt_attempts t ∧ jt_occurrences t' = jt_occurrences t.
Lemma only_claims_same token t t' : same_claims t t' → only_claims token t t'.
Proof. intros [E Eo]. split; [|by rewrite Eo]. intros k a' Hk Hr. rewrite E in Hk. eauto. Qed.
Lemma only_claims_set token t p f : (∀ a, p a = true → running (f a) → ja_ClaimToken a = ja_ClaimToken (f a) ∧ running a) →
  only_claims token t (put_attempts (set_where p f) t).
Proof.
  intros Hf. split; [|done]. intros k a' (a & Hk & ->)%lookup_set_where Hr. left. exists a. split; [done|].
  destruct (p a) eqn:E; [|done]. by apply Hf.
Qed.
Lemma only_claims_then token t t1 t2 : only_claims token t t1 → same_claims t1 t2 → only_claims token t t2.
Proof. intros [H1 H2] [E Eo]. unfold only_claims. by rewrite E, Eo. Qed.
Lemma updateJob_attempts job t t' : updateJob job t = Ok (t', tt) → same_claims t t'.
Proof. by intros (row & _ & _ & _ & _ & ->)%updateJob_ok. Qed.
Lemma insertQueued_attempts job deduplicate t t' created : insertQueuedJob job deduplicate t = Ok (t', created) → same_claims t t'.
Proof.
  unfold insertQueuedJob. destruct (_ && _); [by intros [= <- _]|]. destruct (negb _); [done|]. do 2 (destruct (taken _ _ _); [done|]).
  destruct (negb _); [done|]. by intros [= <- _].
Qed.
Lemma execute_claims {A} token d (policy : sqlTransactionPolicy A) (body : Tx JobTables A) t :
  (∀ t' a, body t = Ok (t', a) → only_claims token t t') → only_claims token t (executeSQLTransaction d policy body t).1.
Proof. intros Hb. destruct (execute_state d policy body t) as [->|[a Ha]]; [by apply only_claims_same|eauto]. Qed.

Lemma enqueue_claims d input t : only_claims None t (Enqueue d input t).1.
Proof.
  unfold Enqueue. destruct input as [job|]; [|by apply only_claims_same]. destruct (Job_Validate _); [|by apply only_claims_same].
  destruct (_ || _); [by apply only_claims_same|]. destruct (_ ==? _).
  - unfold enqueuePermanent. pose proof (execute_claims None d permanentJobTransactionPolicy (permanent_body job) t) as H.
    destruct (executeSQLTransaction _ _ _ _) as [t' r]. assert (only_claims None t t'); [apply H|by destruct r as [[[] []]|]].
    intros t1 x Hb. unfold permanent_body in Hb. rewrite tx_query in Hb. destruct (jt_occurrences t !! _) eqn:Ho; inv_tx Hb; [by apply only_claims_same|].
    apply tx_bind_ok in Hb as (t2 & created & Hins%named_ok%insertQueued_attempts & Hb). inv_tx Hb.
    eapply only_claims_then; [|exact Hins]. split; [intros k a' Hk Hr; eauto|]. cbn. by apply insert_subseteq.
  - apply execute_claims. intros t1 x Hb. unfold active_body in Hb. apply tx_bind_ok in Hb as (t2 & created & Hins%named_ok%insertQueued_attempts & Hb).
    destruct created; inv_tx Hb; by apply only_claims_same.
Qed.
Lemma claim_claims now attemptID locked request t t' r : claim_body now attemptID locked request t = Ok (t', r) →
  only_claims (Some (cq_ClaimToken request)) t t'.
Proof.
  unfold claim_body. cbv zeta. intros H. apply tx_bind_ok in H as (t1 & ids & Hrec & H).
  destruct (recoverLost_rows now t) as (Hrec' & Et & Eo & _). rewrite Hrec' in Hrec. injection Hrec as <- <-. rewrite tx_query in H.
  assert (Hrun : ∀ k a', jt_attempts (after_recovery now t) !! k = Some a' → running a' → jt_attempts t !! k = Some a').
  { rewrite Et. intros k a' (a & Hk & _ & _ & _ & _ & _ & _ & Hr)%expired_row Hr'. by destruct (Hr Hr') as [-> _]. }
  destruct (merge_sort claim_order _) as [|row rest]; [inv_tx H; split; [intros k a' Hk Hr; eauto 6|by rewrite Eo]|]. inv_tx H.
  apply tx_bind_ok in H as (? & j' & (j1 & _ & [= -> ->])%or_fail_ok & H). apply tx_bind_ok in H as (t2 & [] & Hup%updateJob_attempts & H).
  apply tx_bind_ok in H as (? & a & (a1 & (_ & _ & _ & _ & Htok & _)%NewJobAttempt_ok & [= -> ->])%or_fail_ok & H).
  apply tx_bind_ok in H as (t3 & [] & [_ ->]%insert_attempt_ok & H). inv_tx H. destruct Hup as [Hup Huo].
  split; [|cbn; by rewrite Huo, Eo]. intros k a'. cbn. rewrite lookup_insert_Some.
  intros [[<- <-]|[_ Hk]] Hr; [right; by rewrite Htok|]. rewrite Hup in Hk. eauto 6.
Qed.
Lemma complete_claims now input t t' j : complete_body now input t = Ok (t', j) → only_claims None t t'.
Proof.
  unfold complete_body. intros H. apply tx_bind_ok in H as (? & b & (-> & _)%fenced_ok & H).
  apply tx_bind_ok in H as (? & i & (-> & _)%getJob_ok & H). destruct (completion_outcome _ _ _) as [status outcome] eqn:Eo.
  apply tx_bind_ok in H as (? & i' & (i1 & -> & [= -> ->])%or_fail_ok & H).
  apply tx_bind_ok in H as (? & b' & (b1 & Hb & [= -> ->])%or_fail_ok & H). inv_tx H.
  apply tx_bind_ok in H as (t1 & [] & Hup%updateJob_attempts & H). inv_tx H.
  destruct (completion_cases _ _ _ _ _ _ Eo eq_refl) as (Hst & _). apply accepted_ok, checked_attempt_inv in Hb as (_ & -> & _).
  eapply only_claims_then; [|exact Hup]. apply only_claims_set. cbn. unfold running. cbn. congruence.
Qed.
Lemma heartbeat_claims now c lease t t' a : heartbeat_body now c lease t = Ok (t', a) → only_claims None t t'.
Proof.
  unfold heartbeat_body. intros H. apply tx_bind_ok in H as (? & b & (-> & _)%fenced_ok & H). cbv zeta in H.
  apply tx_bind_ok in H as (? & b' & (b1 & _ & [= -> ->])%or_fail_ok & H). inv_tx H. by apply only_claims_set.
Qed.
Lemma mutate_claims audit now operation mutate input t t' j : mutate_body audit now operation mutate input t = Ok (t', j) → only_claims None t t'.
Proof.
  unfold mutate_body. intros H. apply tx_bind_ok in H as (? & i & (-> & _)%getJob_ok & H). inv_tx H.
  apply tx_bind_ok in H as (? & i' & (i1 & _ & [= -> ->])%or_fail_ok & H).
  apply tx_bind_ok in H as (t1 & [] & Hup%updateJob_attempts & H). inv_tx H. by apply only_claims_same.
Qed.
Lemma cleanup_claims now locked input t t' r : cleanup_body now locked input t = Ok (t', r) → only_claims None t t'.
Proof.
  unfold cleanup_body. intros H. inv_tx H. destruct (last _); inv_tx H; [|by apply only_claims_same].
  split; [|done]. intros k a' Hk Hr. apply lookup_delete_where in Hk as [Hk _]. eauto.
Qed.

Definition claim_token (step : driver * JobStoreOp) : option string :=
  match step.2 with SClaim _ _ _ (Some request) => Some (cq_ClaimToken request) | _ => None end.
Lemma step_claims step t : only_claims (claim_token step) t (job_store_step t step).
Proof.
  destruct step as [d op]. destruct op; cbn [job_store_step fst snd claim_token]; try by apply only_claims_same.
  - apply enqueue_claims.
  - unfold ClaimNext. destruct request as [request|]; [|by apply only_claims_same]. destruct (claim_request_ok request); [|by apply only_claims_same].
    pose proof (execute_claims (Some (cq_ClaimToken request)) d jobClaimSQLTransactionPolicy (claim_body now attemptID locked request) t) as H.
    destruct (executeSQLTransaction _ _ _ _) as [t' [r|e]]; apply H; intros; by eapply claim_claims.
  - unfold Heartbeat. destruct (_ || _); [by apply only_claims_same|]. apply execute_claims. intros. by eapply heartbeat_claims.
  - unfold Checkpoint. destruct (negb _); [by apply only_claims_same|]. apply execute_claims. intros t' j H. unfold checkpoint_body in H.
    apply tx_bind_ok in H as (? & b & (-> & _)%fenced_ok & H). apply tx_bind_ok in H as (? & i & (-> & _)%getJob_ok & H).
    apply tx_bind_ok in H as (? & i' & (i1 & _ & [= -> ->])%or_fail_ok & H).
    apply tx_bind_ok in H as (t1 & [] & Hup%updateJob_attempts & H). inv_tx H. by apply only_claims_same.
  - unfold ReserveWork. destruct (_ || _); [by apply only_claims_same|]. apply execute_claims. intros t' r H. unfold reserve_body in H.
    apply tx_bind_ok in H as (? & b & (-> & _)%fenced_ok & H). rewrite tx_query in H. destruct (jt_jobs t !! _); [|done].
    destruct (_ <=? _); inv_tx H; by apply only_claims_same.
  - unfold Complete. destruct (_ || _); [by apply only_claims_same|]. apply execute_claims. intros. by eapply complete_claims.
  - unfold CancellationRequested. destruct (negb _); [by apply only_claims_same|]. apply execute_claims. intros t' a H.
    apply tx_bind_ok in H as (? & b & (-> & _)%fenced_ok & H). apply tx_bind_ok in H as (? & j & (-> & _)%getJob_ok & H). inv_tx H. by apply only_claims_same.
  - unfold Cancel, mutateOperatorJob. destruct (_ || _); [by apply only_claims_same|]. apply execute_claims. intros. by eapply mutate_claims.
  - unfold Retry, mutateOperatorJob. destruct (_ || _); [by apply only_claims_same|]. apply execute_claims. intros. by eapply mutate_claims.
  - unfold DeleteTerminalHistory. destruct (cleanup_input_ok input); [|by apply only_claims_same].
    pose proof (execute_claims None d jobHistorySQLTransactionPolicy (cleanup_body now locked input) t) as H.
    assert (Hb : ∀ t' r, cleanup_body now locked input t = Ok (t', r) → only_claims None t t') by (intros; by eapply cleanup_claims).
    destruct (executeSQLTransaction _ _ _ _) as [t' [[r b]|e]]; by apply H.
  - destruct (insertable job t); by apply only_claims_same.
Qed.

(** What the holder of a claim may ask, and whether it is granted. *)
Inductive WorkerOp :=
  | WHeartbeat (leaseDuration : Z)
  | WCheckpoint (progress : option JobProgress) (checkpoint : string)
  | WReserve (units limit : Z)
  | WComplete (kind : JobCompletionKind) (retryDelay : Z) (document code : string)
  | WObserve.
Definition granted {A} (r : JobTables * result A) : JobTables * bool := (r.1, is_ok r.2).
Definition worker_run (d : driver) (now : Time) (c : Claimed) (op : WorkerOp) (t : JobTables) : JobTables * bool :=
  match op with
  | WHeartbeat leaseDuration => granted (Heartbeat d now c leaseDuration t)
  | WCheckpoint progress checkpoint => granted (Checkpoint d now c progress checkpoint t)
  | WReserve units limit => granted (ReserveWork d now c units limit t)
  | WComplete kind retryDelay document code => granted (Complete d now (mkJobCompletion c kind retryDelay document code) t)
  | WObserve => granted (CancellationRequested d now c t)
  end.
(** The claim is live: its attempt runs under its token and its lease lasts. *)
Definition live_claim (now : Time) (c : Claimed) (t : JobTables) : Prop :=
  ∃ a, jt_attempts t !! cd_AttemptID c = Some a ∧ ja_ClaimToken a = cd_ClaimToken c ∧ running a ∧
    t_ns (TimeUTC now) < t_ns (ja_LeaseExpiresAt a).
Lemma fenced_refused now c t : ¬ live_claim now c t → ∀ {A} (k : JobAttempt → Tx JobTables A),
  ∃ e, (getFencedAttempt (cd_AttemptID c) (cd_ClaimToken c) now ≫= k) t = Err e.
Proof.
  intros Hn A k. destruct ((getFencedAttempt _ _ _ ≫= k) t) as [[t' x]|e] eqn:E; [|eauto]. exfalso.
  apply tx_bind_ok in E as (t1 & a & (_ & Ha & Htok & Hr & Hl)%fenced_ok & _). apply Hn. by exists a.
Qed.
Lemma worker_refused d now c op t : ¬ live_claim now c t → worker_run d now c op t = (t, false).
Proof.
  intros Hn. pose proof (λ A, fenced_refused now c t Hn (A := A)) as Hf.
  assert (Hx : ∀ A (policy : sqlTransactionPolicy A) k,
    granted (executeSQLTransaction d policy (getFencedAttempt (cd_AttemptID c) (cd_ClaimToken c) now ≫= k) t) = (t, false)).
  { intros A policy k. destruct (Hf A k) as [e He]. destruct (execute_err d policy _ t e He) as [e' ->]. done. }
  destruct op; cbn [worker_run].
  - unfold Heartbeat. destruct (_ || _); [done|]. apply Hx.
  - unfold Checkpoint. destruct (negb _); [done|]. apply Hx.
  - unfold ReserveWork. destruct (_ || _); [done|]. apply Hx.
  - unfold Complete. destruct (_ || _); [done|]. apply Hx.
  - unfold CancellationRequested. destruct (negb _); [done|]. apply Hx.
Qed.

(** C30. A claim that was lost stays lost.  Once no attempt runs under a claim, because its lease
    expired, it completed or its history was removed, nothing its former holder asks for in any
    later history is granted or changes anything: no heartbeat, checkpoint, reservation of work or
    completion, as long as no new claim is made with the same token.  The same holds from the
    moment the lease has run out by the database clock, before anything recovers the Job. *)
Theorem lost_claim_stays_lost (t : JobTables) (c : Claimed) (steps : list (driver * JobStoreOp)) :
  (∀ a, jt_attempts t !! cd_AttemptID c = Some a → ja_ClaimToken a = cd_ClaimToken c → ¬ running a) →
  Forall (λ step, claim_token step ≠ Some (cd_ClaimToken c)) steps →
  (∀ d now op, worker_run d now c op (job_store_run steps t) = (job_store_run steps t, false)) ∧
  (∀ d now op u a, jt_attempts u !! cd_AttemptID c = Some a → t_ns (ja_LeaseExpiresAt a) ≤ t_ns (TimeUTC now) →
     worker_run d now c op u = (u, false)).
Proof.
  intros Hlost Hsteps. split.
  - intros d now op. apply worker_refused. revert t Hlost. induction Hsteps as [|step steps Hstep _ IH]; intros t Hlost; cbn.
    + intros (a & Ha & Htok & Hr & _). by apply (Hlost a).
    + apply IH. intros a' Ha' Htok Hr. destruct (proj1 (step_claims step t) _ a' Ha' Hr) as [(a & Ha & Htok' & Hra)|E]; [|congruence].
      apply (Hlost a); [done|congruence|done].
  - intros d now op u a Ha Hle. apply worker_refused. intros (a' & Ha' & _ & _ & Hl). simplify_eq. lia.
Qed.

(** ** Permanent occurrences *)

Lemma run_occurrences steps t : jt_occurrences t ⊆ jt_occurrences (job_store_run steps t).
Proof.
  revert t. induction steps as [|step steps IH]; intros t; [done|]. cbn. etrans; [|apply IH]. apply step_claims.
Qed.
Lemma reserved_enqueue d job u id : j_DedupePolicy job = JobDedupePermanent → jt_occurrences u !! (j_Type job, j_DedupeKey job) = Some id →
  (Enqueue d (Some job) u).1 = u ∧ ∀ r, (Enqueue d (Some job) u).2 ≠ Ok (r, true).
Proof.
  intros Hp Ho. unfold Enqueue. destruct (Job_Validate _); [|done]. destruct (_ || _); [done|]. rewrite bool_decide_true by done.
  unfold enqueuePermanent, executeSQLTransaction, permanent_body. cbn [commit beginError permanentJobTransactionPolicy negb].
  destruct (dr_begin d); [done|]. unfold mbind, tx_bind, query. rewrite Ho. cbn.
  destruct (dr_commit d) as [|e []]; try done. destruct (jt_jobs u !! id) as [row|]; [|done]. split; [done|]. intros r.
  cbn. by destruct (job_model row).
Qed.

Lemma created_reserves d job t r : j_DedupePolicy job = JobDedupePermanent → (Enqueue d (Some job) t).2 = Ok (r, true) →
  jt_occurrences (Enqueue d (Some job) t).1 !! (j_Type job, j_DedupeKey job) = Some (j_ID job).
Proof.
  intros Hp Hr. destruct (jt_occurrences t !! (j_Type job, j_DedupeKey job)) as [id|] eqn:Ho.
  { destruct (reserved_enqueue d job t id Hp Ho) as [_ Hx]. by destruct (Hx r). }
  revert Hr. unfold Enqueue. destruct (Job_Validate _); [|done]. destruct (_ || _); [done|]. rewrite bool_decide_true by done.
  unfold enqueuePermanent, executeSQLTransaction. destruct (dr_begin d); [done|].
  destruct (permanent_body job t) as [[t1 x]|e] eqn:E; [|done]. cbn [negb commit permanentJobTransactionPolicy].
  assert (Hk : jt_occurrences t1 !! (j_Type job, j_DedupeKey job) = Some (j_ID job)).
  { unfold permanent_body in E. rewrite tx_query, Ho in E. inv_tx E.
    apply tx_bind_ok in E as (t2 & created & Hins%named_ok%insertQueued_attempts & E). inv_tx E.
    destruct Hins as [_ ->]. apply lookup_insert_eq. }
  destruct (dr_commit d); [|by destruct applied]. intros _. by destruct x as [[] []].
Qed.
Lemma first_enqueue job t : j_DedupePolicy job = JobDedupePermanent →
  Job_Validate (Some job) = Ok tt → j_Status job = JobStatusQueued → j_AttemptCount job = 0 → int32_ok (j_MaximumAttempts job) = true →
  jt_occurrences t !! (j_Type job, j_DedupeKey job) = None → jt_jobs t !! j_ID job = None → taken permanent_duplicate (queued_row job) t = false →
  ∃ t', Enqueue healthy (Some job) t = (t', Ok (Some job, true)) ∧ jt_jobs t' !! j_ID job = Some (queued_row job).
Proof.
  intros Hp Hv Hs Hc H32 Ho Hj Htk.
  set (t1 := t <| jt_occurrences := <[(j_Type job, j_DedupeKey job) := j_ID job]> (jt_occurrences t) |>).
  assert (Hactive : taken active_duplicate (queued_row job) t1 = false).
  { apply negb_false_iff, Nat.eqb_eq, length_zero_iff_nil, select_nil. intros k row _. unfold active_duplicate. cbn. rewrite Hp. cbn.
    by rewrite andb_false_r. }
  assert (Hins : insertQueuedJob job false t1 = Ok (put_jobs <[j_ID job := queued_row job]> t1, true)).
  { unfold insertQueuedJob. cbn [andb]. rewrite bool_decide_true by done. rewrite Hactive, H32. cbn [negb].
    change (taken permanent_duplicate (queued_row job) t1) with (taken permanent_duplicate (queued_row job) t). by rewrite Htk. }
  exists (put_jobs <[j_ID job := queued_row job]> t1). split; [|apply lookup_insert_eq].
  unfold Enqueue. rewrite Hv, Hs, Hc, Hp. unfold enqueuePermanent, executeSQLTransaction. cbn [dr_begin healthy].
  assert (permanent_body job t = Ok (put_jobs <[j_ID job := queued_row job]> t1, (Some job, true))) as E.
  { unfold permanent_body, mbind, tx_bind, query, exec. rewrite Ho. fold t1. unfold named. by rewrite Hins. }
  by rewrite E.
Qed.

(** A permanent occurrence is created once.  After an enqueue that created a Job for a
    permanent key, no later enqueue of the same type and key creates one or changes the tables,
    in any history, even after the Job itself was removed with its terminal history; and the
    first valid enqueue of a key nobody reserved does create its Job. *)
Theorem permanent_occurrence_once (t : JobTables) (d : driver) (job : Job) (steps : list (driver * JobStoreOp)) :
  j_DedupePolicy job = JobDedupePermanent →
  (∀ r, (Enqueue d (Some job) t).2 = Ok (r, true) →
     ∀ d' job', j_DedupePolicy job' = JobDedupePermanent → j_Type job' = j_Type job → j_DedupeKey job' = j_DedupeKey job →
       let u := job_store_run steps (Enqueue d (Some job) t).1 in
       (Enqueue d' (Some job') u).1 = u ∧ ∀ r', (Enqueue d' (Some job') u).2 ≠ Ok (r', true)) ∧
  (Job_Validate (Some job) = Ok tt → j_Status job = JobStatusQueued → j_AttemptCount job = 0 → int32_ok (j_MaximumAttempts job) = true →
   jt_occurrences t !! (j_Type job, j_DedupeKey job) = None → jt_jobs t !! j_ID job = None → taken permanent_duplicate (queued_row job) t = false →
   (Enqueue healthy (Some job) t).2 = Ok (Some job, true) ∧ jt_jobs (Enqueue healthy (Some job) t).1 !! j_ID job = Some (queued_row job)).
Proof.
  intros Hp. split.
  - intros r Hr d' job' Hp' Hty Hkey u. apply (reserved_enqueue d' job' u (j_ID job) Hp'). rewrite Hty, Hkey.
    eapply lookup_weaken; [by eapply created_reserves|apply run_occurrences].
  - intros. edestruct first_enqueue as (t' & -> & Ht'); done.
Qed.

(** ** Samples *)

Definition job_demo_job : Job :=
  ok_or no_job (NewJobWithDedupePolicy sample_id "mail.deliver" "{}" "key" JobDedupePermanent (at_second 100) (at_second 100) 3).
Definition job_demo_attempt : ID := "bndrfg8ejkmcpqxot1uwisza34".
Definition job_demo_attempt2 : ID := "ndrfg8ejkmcpqxot1uwisza345".
Definition job_demo_token2 : string := NewJobClaimToken (replicate 32 172).
Definition job_demo_request (token : string) : JobClaimRequest := mkJobClaimRequest ["mail.deliver"] "node-a" token (30 * Second).
Definition job_demo_claimed : Claimed := mkClaimed job_demo_attempt sample_token.
(** A Job is enqueued, claimed and kept alive by a heartbeat. *)
Definition job_demo_steps : list (driver * JobStoreOp) := pair healthy <$>
  [SEnqueue (Some job_demo_job); SClaim (at_second 110) job_demo_attempt ∅ (Some (job_demo_request sample_token));
   SHeartbeat (at_second 120) job_demo_claimed (30 * Second)].
(** Then its lease runs out and another worker's claim recovers it. *)
Definition job_demo_lost : list (driver * JobStoreOp) :=
  job_demo_steps ++ [(healthy, SClaim (at_second 200) job_demo_attempt2 ∅ (Some (job_demo_request job_demo_token2)))].

Lemma job_claims_exclusive_witness :
  ∃ k a, jt_attempts (job_store_run job_demo_steps no_jobs) !! k = Some a ∧ ja_JobID a = sample_id ∧ running a ∧ ja_Number a = 1.
Proof.
  assert (Hc : Forall clock_ok job_demo_steps) by (repeat constructor).
  destruct (job_claims_exclusive job_demo_steps Hc) as [_ Hheld].
  assert (Hj : (λ j, (j_Status j, j_AttemptCount j)) <$> jt_jobs (job_store_run job_demo_steps no_jobs) !! sample_id = Some (JobStatusRunning, 1))
    by (vm_compute; reflexivity).
  apply fmap_Some in Hj as (j & Ej & [= Hs Hn]). rewrite Hn. apply (Hheld sample_id j Ej). by rewrite <-Hs.
Defined.

Lemma lost_claim_stays_lost_witness :
  let t := job_store_run [(healthy, SClaim (at_second 300) job_demo_attempt2 ∅ (Some (job_demo_request job_demo_token2)))]
             (job_store_run job_demo_lost no_jobs) in
  worker_run healthy (at_second 301) job_demo_claimed (WComplete JobCompletionSucceeded 0 "{}" "") t = (t, false).
Proof.
  assert (E : ja_Status <$> jt_attempts (job_store_run job_demo_lost no_jobs) !! job_demo_attempt = Some JobAttemptStatusLeaseExpired)
    by (vm_compute; reflexivity).
  destruct (lost_claim_stays_lost (job_store_run job_demo_lost no_jobs) job_demo_claimed
    [(healthy, SClaim (at_second 300) job_demo_attempt2 ∅ (Some (job_demo_request job_demo_token2)))]) as [H _].
  - intros a Ha _ Hr. change (cd_AttemptID job_demo_claimed) with job_demo_attempt in Ha. rewrite Ha in E. unfold running in Hr.
    injection E. congruence.
  - constructor; [|constructor]. vm_compute. discriminate.
  - apply H.
Defined.

Lemma permanent_occurrence_once_witness :
  let t := job_store_run job_demo_lost (Enqueue healthy (Some job_demo_job) no_jobs).1 in
  (Enqueue healthy (Some job_demo_job) t).1 = t.
Proof.
  destruct (permanent_occurrence_once no_jobs healthy job_demo_job job_demo_lost) as [Hlater Hfirst]; [vm_compute; reflexivity|].
  destruct Hfirst as [Hr _]; [vm_compute; reflexivity..|]. by destruct (Hlater _ Hr healthy job_demo_job).
Defined.
