(* ===== verification/JobClaims.v ===== *)
(** * Which Job a claim takes

    A claim over any reachable Job store first ends every attempt whose lease ran out, and then
    takes the first Job that is due, or reports that there is none. *)

From S2P Require Import Prelude GoTime GoStrings Ident ModelError GoJson Job SqlTx JobStore JobSafety.

(** The Jobs a claim may take, in the order it prefers them. *)
Definition due (now : Time) (locked : gset ID) (request : JobClaimRequest) (t : JobTables) : list Job :=
  merge_sort claim_order (select (claimable now (cq_Types request) (TrimSpace (cq_NodeID request)) locked t) (jt_jobs t)).

#[export] Instance claim_order_total : Total claim_order.
Proof.
  intros a b. unfold claim_order, Compare. rewrite (compare_bytes_opp (bytes (j_ID b))).
  destruct (Z.lt_total (t_ns (j_AvailableAt a)) (t_ns (j_AvailableAt b))) as [|[|]], (Z.lt_total (t_ns (j_CreatedAt a)) (t_ns (j_CreatedAt b))) as [|[|]];
    try (by auto); try (right; left; lia); try (left; right; lia); try (right; right; lia).
  destruct (compare_bytes _ _); [left|right|left]; right; (split; [lia|]); right; (split; [lia|done]).
Qed.
#[export] Instance claim_order_trans : Transitive claim_order.
Proof.
  intros a b c. unfold claim_order. pose proof (compare_bytes_trans (bytes (j_ID a)) (bytes (j_ID b)) (bytes (j_ID c))) as H.
  unfold Compare in *. intros [|[? [|[? ?]]]] [|[? [|[? ?]]]]; try (left; lia); right; (split; [lia|]); try (left; lia). right. split; [lia|auto].
Qed.

Lemma latestTime_from persisted requested : normalized requested → t_ns requested ≤ t_ns (TimeUTC (latestTime persisted requested)).
Proof.
  intros Hn. rewrite <-(normalized_TimeUTC requested Hn) at 1. unfold latestTime, UTCTime.
  destruct (Time_After requested persisted) eqn:E; rewrite TimeUTC_idemp; [done|]. apply TimeUTC_mono. unfold Time_After in E. lia.
Qed.

Lemma start_ok j now : good_row j → j_Status j = JobStatusQueued → j_AttemptCount j < j_MaximumAttempts j →
  t_ns (j_AvailableAt j) ≤ t_ns now → t_ns (j_CreatedAt j) ≤ t_ns now → normalized now → j_Revision j < int64_max →
  ∃ j', accepted (Job_Start (Some j) (latestTime (j_UpdatedAt j) now)) = Ok j' ∧ j_Revision j' = j_Revision j + 1.
Proof.
  intros [[Hp Hv]%Job_Validate_spec [Hm _]] Hq Hlt Hav Hcr Hn Hrev. set (at_ := latestTime _ _).
  pose proof (latestTime_from (j_UpdatedAt j) now Hn) as Hat. fold at_ in Hat.
  assert (Hc : int64_succ (j_AttemptCount j) = j_AttemptCount j + 1).
  { destruct Hv. unfold int32_ok in Hm. apply int64_succ_lt; unfold in_int64, int64_min, int64_max; lia. }
  assert (Hr : int64_succ (j_Revision j) = j_Revision j + 1).
  { destruct Hv. apply int64_succ_lt; unfold in_int64, int64_min, int64_max in *; lia. }
  eexists. split; [apply accepted_ok|].
  - unfold Job_Start. rewrite Hq. replace (j_MaximumAttempts j <=? j_AttemptCount j) with false by lia.
    replace (Time_Before (TimeUTC at_) (j_AvailableAt j)) with false by (symmetry; apply Time_Before_false; lia). cbn [orb negb].
    unfold checked_job. f_equal. apply Job_Validate_spec. destruct Hv. rewrite Hq in *.
    change (ot_Valid (j_StartedAt _)) with (ot_Valid (j_StartedAt j)).
    destruct (ot_Valid (j_StartedAt j)); (split; [exact Hp|]); split; cbn; rewrite ?Hc, ?Hr; try done; lia.
  - by destruct (ot_Valid _).
Qed.

Lemma update_total op t j j' : jobs_core t → jt_jobs t !! j_ID j = Some j → good_row j' → job_effect op j j' →
  j_Revision j' = j_Revision j + 1 → j_Revision j < int64_max →
  active_status (j_Status j) = true → updateJob j' t = Ok (put_jobs <[j_ID j := j']> t, tt).
Proof.
  intros Hc Hj [Hv [Hm Hw]] He Hrev Hmax Hact. destruct (effect_identity op j j' He) as (Hid & Hty & Hcr & Hcm & Hk & Hp & _).
  assert (Hfree : taken_by_other active_duplicate (updated_row j j') t = false).
  { rewrite updated_row_same by done. unfold taken_by_other. apply negb_false_iff, Nat.eqb_eq, length_zero_iff_nil, select_nil. intros k i Hi.
    destruct (decide (k = j_ID j)) as [->|Hne].
    { simplify_eq. rewrite bool_decide_true by done. done. }
    apply andb_false_iff. right. apply not_true_iff_false. intros Hd. apply Hne. symmetry.
    eapply (jc_unique _ Hc); [exact Hj|exact Hi|]. apply orb_true_iff. left. revert Hd. unfold active_duplicate, same_key.
    rewrite Hty, Hk, Hp, Hact. by destruct (active_status (j_Status j')); rewrite ?andb_true_r, ?andb_false_r. }
  apply Job_Validate_spec in Hv as [_ Hs]. destruct (jc_job _ Hc _ _ Hj) as [_ [[_ Hs0]%Job_Validate_spec _]].
  assert (Hsub : int64_sub (j_Revision j') 1 = j_Revision j).
  { unfold int64_sub. rewrite Hrev. destruct Hs0. rewrite wrap64_id; unfold in_int64, int64_min in *; lia. }
  assert (Hcount : int32_ok (j_AttemptCount j') = true) by (destruct Hs; unfold int32_ok in *; lia).
  unfold updateJob, mbind, tx_bind, query. rewrite Hid, Hj, Hsub, Z.eqb_refl. cbn [negb]. unfold refuse_if. rewrite Hfree, Hcount, Hm, Hw. cbn.
  by rewrite updated_row_same by done.
Qed.

Lemma new_attempt_ok id j request now : ID_IsValid id = true → ID_IsValid (j_ID j) = true → 0 < j_AttemptCount j → claim_request_ok request = true →
  len (TrimSpace (cq_NodeID request)) ≤ 255 → normalized now → 0 < t_ns now → Microsecond ≤ cq_LeaseDuration request →
  ∃ a, NewJobAttempt id (j_ID j) (j_AttemptCount j) (cq_NodeID request) (cq_ClaimToken request) now (Time_Add now (cq_LeaseDuration request)) = Ok a ∧
    t_ns now < t_ns (ja_LeaseExpiresAt a).
Proof.
  intros Hid Hj Hn Hreq Hlen Hnorm Hnow Hlease. unfold claim_request_ok in Hreq. apply negb_true_iff in Hreq. rewrite !orb_false_iff in Hreq.
  to_prop. destruct_and!. assert (Hexp : t_ns now < t_ns (TimeUTC (Time_Add now (cq_LeaseDuration request)))).
  { pose proof (TimeUTC_le (Time_Add now (cq_LeaseDuration request))). cbn in *. lia. }
  eexists. split; [unfold NewJobAttempt; rewrite ok_bind; exists tt; split; [|reflexivity]|exact Hexp].
  unfold JobAttempt_Validate. rewrite !ok_fail_if, !orb_false_iff. cbn [ja_ID ja_JobID ja_Number ja_Status ja_NodeID ja_ClaimToken ja_StartedAt
    ja_HeartbeatAt ja_LeaseExpiresAt ja_PublicErrorCode ja_CompletedAt noTime ot_Valid]. rewrite (normalized_TimeUTC now) by done.
  unfold Time_After, Time_Before, Time_IsZero. to_prop. split_and!; try done; try lia.
Qed.

Lemma insert_total a t : (∀ k b, jt_attempts t !! k = Some b → k ≠ ja_ID a ∧ ja_ClaimToken b ≠ ja_ClaimToken a ∧
    ¬ (ja_JobID b = ja_JobID a ∧ ja_Number b = ja_Number a)) →
  insert_attempt a t = Ok (put_attempts <[ja_ID a := a]> t, tt).
Proof.
  intros Hf. assert (Hnone : jt_attempts t !! ja_ID a = None).
  { destruct (jt_attempts t !! ja_ID a) as [b|] eqn:E; [|done]. by destruct (Hf _ b E). }
  assert (Hno : ∀ p, (∀ k b, jt_attempts t !! k = Some b → p b = false) → some_attempt p t = false).
  { intros p Hp. unfold some_attempt. by apply negb_false_iff, Nat.eqb_eq, length_zero_iff_nil, select_nil. }
  unfold insert_attempt, mbind, tx_bind, refuse_if. rewrite Hnone, bool_decide_false by (by intros []). rewrite !Hno; [done|..].
  - intros k b Hb. destruct (Hf k b Hb) as (_ & _ & Hn). apply not_true_iff_false. rewrite andb_true_iff, bool_decide_eq_true, Z.eqb_eq. exact Hn.
  - intros k b Hb. apply bool_decide_eq_false. by destruct (Hf k b Hb) as (_ & Hn & _).
Qed.

(** What a claim needs of its caller and of the clock: an identity and a token nobody used, a
    node name and a lease that the attempt accepts, an instant of the database clock, and
    revisions that have not run out. *)
Record claim_ready (now : Time) (attemptID : ID) (request : JobClaimRequest) (t : JobTables) : Prop := {
  cr_request : claim_request_ok request = true;
  cr_id : ID_IsValid attemptID = true;
  cr_node : len (TrimSpace (cq_NodeID request)) ≤ 255;
  cr_lease : Microsecond ≤ cq_LeaseDuration request;
  cr_clock : normalized now ∧ 0 < t_ns now;
  cr_fresh : ∀ k a, jt_attempts t !! k = Some a → k ≠ attemptID ∧ ja_ClaimToken a ≠ cq_ClaimToken request;
  cr_jobs : ∀ k j, jt_jobs t !! k = Some j → t_ns (j_CreatedAt j) ≤ t_ns now ∧ j_Revision j + 1 < int64_max }.

Lemma ready_recovered now attemptID request t k j : claim_ready now attemptID request t → jt_jobs (after_recovery now t) !! k = Some j →
  t_ns (j_CreatedAt j) ≤ t_ns now ∧ j_Revision j < int64_max.
Proof.
  intros Hr. destruct (recoverLost_rows now t) as (_ & _ & _ & ->). destruct (jt_jobs t !! k) as [i|] eqn:E; [|by destruct (in_ids _ _)].
  destruct (cr_jobs _ _ _ _ Hr k i E). destruct (in_ids _ _); cbn; intros [= <-]; [|split; [done|cbn; lia]].
  unfold recover_row. destruct (job_holding _); cbn; lia.
Qed.
Lemma recovery_idle now t : select (lost now) (jt_attempts t) = [] → after_recovery now t = t.
Proof.
  intros Hn. assert (Hs : set_where (lost now) (expire now) (jt_attempts t) = jt_attempts t).
  { apply map_eq. intros k. apply option_eq. intros a. rewrite lookup_set_where. rewrite select_nil in Hn. split.
    - intros (b & Hb & ->). by rewrite (Hn k b Hb).
    - intros Ha. exists a. by rewrite (Hn k a Ha). }
  unfold after_recovery, recoverLost, mbind, tx_bind, query, exec. rewrite Hn. cbn. unfold put_attempts. rewrite Hs. by destruct t.
Qed.

(** The first due Job is claimed. *)
Lemma claim_first now attemptID locked request t row rest : jobs_inv t → claim_ready now attemptID request t →
  due now locked request (after_recovery now t) = row :: rest →
  ∃ t' claim, claim_body now attemptID locked request t = Ok (t', Ok claim) ∧
    job_effect (JStart (latestTime (j_UpdatedAt row) now)) row (cl_Job claim) ∧
    ja_ID (cl_Attempt claim) = attemptID ∧ ja_ClaimToken (cl_Attempt claim) = cq_ClaimToken request ∧ running (cl_Attempt claim) ∧
    ja_JobID (cl_Attempt claim) = j_ID row ∧ t_ns now < t_ns (ja_LeaseExpiresAt (cl_Attempt claim)) ∧
    t' = put_attempts <[attemptID := cl_Attempt claim]> (put_jobs <[j_ID row := cl_Job claim]> (after_recovery now t)).
Proof.
  intros Hinv Hr Hdue. destruct (cr_clock _ _ _ _ Hr) as [Hnorm Hnow]. pose proof (recover_inv now t Hinv Hnow) as [Hc _].
  assert (row ∈ due now locked request (after_recovery now t)) as Hin by (rewrite Hdue; apply list_elem_of_here).
  unfold due in Hin. rewrite merge_sort_Permutation in Hin. apply select_spec in Hin as (Hcl & k & Hk).
  destruct (jc_job _ Hc k row Hk) as [<- Hg]. destruct (ready_recovered _ _ _ _ _ _ Hr Hk) as [Hcr Hrev].
  unfold claimable in Hcl. rewrite !andb_true_iff in Hcl. to_prop. destruct_and!.
  destruct (start_ok row now) as (j' & Hstart & Hrev'); try done.
  apply (accepted_job (JStart _)) in Hstart as Hst. destruct (start_count row j' _ Hg Hst) as (Hn & _ & Hrun).
  destruct Hst as [Hv He]. pose proof (effect_pinned _ _ _ He ltac:(lia)) as Hp.
  assert (Hg' : good_row j') by (split; [done|]; destruct Hg as [_ Hg]; destruct He as (_ & _ & _ & ->); exact Hg).
  assert (Hup : updateJob j' (after_recovery now t) = Ok (put_jobs <[j_ID row := j']> (after_recovery now t), tt)).
  { eapply update_total; try done. by match goal with E : j_Status row = _ |- _ => rewrite E end. }
  destruct (new_attempt_ok attemptID j' request now) as (a & Ha & Hl); [apply Hr|by apply Job_Validate_spec in Hv as [[] _]| |apply Hr..|].
  { destruct Hg as [[_ Hs]%Job_Validate_spec _]. destruct Hs. lia. }
  apply NewJobAttempt_ok in Ha as Ha'. destruct Ha' as (Hid & Hjob & Hnum & Hra & Htok & _ & _).
  exists (put_attempts <[attemptID := a]> (put_jobs <[j_ID row := j']> (after_recovery now t))), (mkJobClaim j' a).
  split; [|split_and!; try done; cbn; rewrite Hjob; apply Hp].
  unfold claim_body. destruct (recoverLost_rows now t) as (Hrec & Het & _). unfold mbind, tx_bind. rewrite Hrec. cbn [query].
  unfold due in Hdue. unfold query. rewrite Hdue. cbn [check]. unfold check.
  replace (job_model row) with (Ok row) by (symmetry; apply job_model_ok; split; [done|apply Hg]).
  rewrite Hstart. cbn [or_fail]. unfold mret, tx_ret. rewrite Hup, Ha. cbn [or_fail]. unfold mret, tx_ret.
  rewrite insert_total; [by rewrite Hid|]. intros k b Hb. cbn in Hb. destruct (jc_attempt _ Hc k b Hb) as (_ & i & Hi & Hle). rewrite Het in Hb.
  apply expired_row in Hb as (b' & Hb' & _ & Hbj & Hbn & _ & _ & Hbt & _). destruct (cr_fresh _ _ _ _ Hr k b' Hb') as [Hk1 Hk2].
  split_and!; [congruence|congruence|]. intros [E1 E2].
  rewrite E1, Hjob in Hi. destruct Hp as [Eid _]. rewrite Eid, Hk in Hi. simplify_eq. lia.
Qed.
Lemma claim_none now attemptID locked request t : due now locked request (after_recovery now t) = [] →
  claim_body now attemptID locked request t =
    (if (length (select (lost now) (jt_attempts t)) =? 0)%nat then Err (not_found "job" "claimable")
     else Ok (after_recovery now t, Err (not_found "job" "claimable"))).
Proof.
  intros Hdue. unfold claim_body, mbind, tx_bind. destruct (recoverLost_rows now t) as (Hrec & _). rewrite Hrec.
  unfold due in Hdue. unfold query. rewrite Hdue, length_fmap. by destruct (_ =? 0)%nat.
Qed.

(** C31. A claim takes the first Job that is due.  On any store that a history of operations
    leaves, a claim first ends every running attempt whose lease ran out and recovers its Job.
    If a Job can then be claimed, the first in the order of availability, creation and identity
    is started for the caller, with an attempt under the caller's token whose lease is still to
    run; if none can, the claim answers so and keeps the recovery.  Either way no attempt that
    runs has an expired lease afterwards. *)
Theorem claim_takes_first_due (steps : list (driver * JobStoreOp)) (now : Time) (attemptID : ID) (locked : gset ID) (request : JobClaimRequest) :
  let t := job_store_run steps no_jobs in
  Forall clock_ok steps → claim_ready now attemptID request t →
  let '(t', answer) := ClaimNext healthy now attemptID locked (Some request) t in
  (∀ k a, jt_attempts t' !! k = Some a → running a → t_ns now < t_ns (ja_LeaseExpiresAt a)) ∧
  match due now locked request (after_recovery now t) with
  | [] => answer = Err (not_found "job" "claimable") ∧ t' = after_recovery now t
  | row :: rest => Forall (claim_order row) rest ∧
      ∃ claim, answer = Ok claim ∧ job_effect (JStart (latestTime (j_UpdatedAt row) now)) row (cl_Job claim) ∧
        ja_JobID (cl_Attempt claim) = j_ID row ∧ ja_ClaimToken (cl_Attempt claim) = cq_ClaimToken request ∧ running (cl_Attempt claim) ∧
        jt_attempts t' = <[attemptID := cl_Attempt claim]> (jt_attempts (after_recovery now t)) ∧
        jt_jobs t' = <[j_ID row := cl_Job claim]> (jt_jobs (after_recovery now t))
  end.
Proof.
  intros t Hsteps Hr. pose proof (store_history_inv steps no_jobs Hsteps no_jobs_inv) as Hinv. fold t in Hinv.
  assert (Hrec : ∀ k a, jt_attempts (after_recovery now t) !! k = Some a → running a → t_ns now < t_ns (ja_LeaseExpiresAt a)).
  { destruct (recoverLost_rows now t) as (_ & -> & _). intros k a (b & _ & _ & _ & _ & _ & _ & _ & Hl)%expired_row Hra.
    destruct (Hl Hra) as [-> Hlost]. unfold lost in Hlost. rewrite bool_decide_true in Hlost by exact Hra. unfold Time_After in Hlost. lia. }
  unfold ClaimNext. rewrite (cr_request _ _ _ _ Hr). unfold executeSQLTransaction. cbn [dr_begin healthy].
  destruct (due now locked request (after_recovery now t)) as [|row rest] eqn:Hdue.
  - rewrite (claim_none now attemptID locked request t Hdue). destruct (_ =? 0)%nat eqn:E; [|done].
    apply Nat.eqb_eq, length_zero_iff_nil in E. rewrite (recovery_idle now t E) in *. done.
  - destruct (claim_first now attemptID locked request t row rest Hinv Hr Hdue) as (t' & claim & -> & He & Hid & Htok & Hra & Hjob & Hl & ->).
    cbn. split; [|split; [|eauto 10]].
    { intros k a Hk Hrun. apply lookup_insert_Some in Hk as [[_ <-]|[_ Hk]]; [done|by apply (Hrec k)]. }
    assert (StronglySorted claim_order (row :: rest)) as [_ Hs]%StronglySorted_inv by (rewrite <-Hdue; apply StronglySorted_merge_sort; apply _).
    exact Hs.
Qed.

(** A claim on the store of [job_demo_steps], at an instant when its Job is due again. *)
Lemma job_demo_ready : claim_ready (at_second 300) job_demo_attempt2 (job_demo_request job_demo_token2) (job_store_run job_demo_lost no_jobs).
Proof.
  split.
  - vm_compute. reflexivity.
  - vm_compute. reflexivity.
  - vm_compute. discriminate.
  - vm_compute. discriminate.
  - split; [split|]; vm_compute; reflexivity.
  - apply (bool_decide_unpack (map_Forall (λ k a, k ≠ job_demo_attempt2 ∧ ja_ClaimToken a ≠ job_demo_token2) _)). vm_compute. exact I.
  - apply (bool_decide_unpack (map_Forall (λ _ j, t_ns (j_CreatedAt j) ≤ t_ns (at_second 300) ∧ j_Revision j + 1 < int64_max) _)). vm_compute. exact I.
Qed.
Lemma claim_takes_first_due_witness : ∃ claim,
  (ClaimNext healthy (at_second 300) job_demo_attempt2 ∅ (Some (job_demo_request job_demo_token2)) (job_store_run job_demo_lost no_jobs)).2 = Ok claim ∧
  ja_JobID (cl_Attempt claim) = sample_id ∧ running (cl_Attempt claim).
Proof.
  assert (Hc : Forall clock_ok job_demo_lost) by (repeat constructor).
  pose proof (claim_takes_first_due job_demo_lost (at_second 300) job_demo_attempt2 ∅ (job_demo_request job_demo_token2) Hc job_demo_ready) as H.
  destruct (ClaimNext _ _ _ _ _ _) as [t' answer]. destruct H as [_ H].
  destruct (due _ _ _ _) as [|row rest] eqn:E; [exfalso; revert E; vm_compute; discriminate|].
  destruct H as (_ & claim & -> & _ & Hj & _ & Hr & _). exists claim. split; [done|]. split; [|done]. rewrite Hj.
  assert (j_ID <$> due (at_second 300) ∅ (job_demo_request job_demo_token2) (after_recovery (at_second 300) (job_store_run job_demo_lost no_jobs)) = [sample_id]) as Hd by (vm_compute; reflexivity).
  rewrite E in Hd. by injection Hd.
Defined.
