(* ===== verification/MfaCodes.v ===== *)
(** * One-time passwords and recovery codes

    Models the mechanics of [server/app/mfa.go]: the TOTP of a secret at a time step
    (RFC 6238, over [crypto/hmac], [crypto/sha1] and [encoding/base32]), the verification of
    a presented code, and the recovery codes a user is shown and types back. *)

From S2P Require Import Prelude GoTime GoStrings Sha256.

(** ** crypto/sha1 and crypto/hmac *)

Definition rotl (n x : Z) : Z := word (Z.lor (Z.shiftl x n) (Z.shiftr x (32 - n))).

Record Hash5 := mkHash5 { ha : Z; hb : Z; hc : Z; hd : Z; he : Z }.
Definition H1 : Hash5 := mkHash5 0x67452301 0xEFCDAB89 0x98BADCFE 0x10325476 0xC3D2E1F0.

(** The message schedule of 80 words, last word first. *)
Fixpoint schedule1 (k : nat) (rev : list Z) : list Z :=
  match k with
  | O => rev
  | S k' =>
      let w n := nth n rev 0 in
      schedule1 k' (rotl 1 (Z.lxor (Z.lxor (w 2%nat) (w 7%nat)) (Z.lxor (w 13%nat) (w 15%nat))) :: rev)
  end.
Definition sha1_round (h : Hash5) (tw : nat * Z) : Hash5 :=
  let '(t, w) := tw in
  let '(mkHash5 a b c d e) := h in
  let '(f, k) :=
    if (t <? 20)%nat then (Z.lor (Z.land b c) (Z.land (2 ^ 32 - 1 - b) d), 0x5A827999)
    else if (t <? 40)%nat then (Z.lxor (Z.lxor b c) d, 0x6ED9EBA1)
    else if (t <? 60)%nat then (Z.lor (Z.lor (Z.land b c) (Z.land b d)) (Z.land c d), 0x8F1BBCDC)
    else (Z.lxor (Z.lxor b c) d, 0xCA62C1D6) in
  mkHash5 (word (rotl 5 a + f + e + k + w)) a (rotl 30 b) c d.
Definition sha1_block (h : Hash5) (block : list Z) : Hash5 :=
  let r := foldl sha1_round h (zip (seq 0 80) (reverse (schedule1 64 (reverse block)))) in
  mkHash5 (word (ha h + ha r)) (word (hb h + hb r)) (word (hc h + hc r)) (word (hd h + hd r)) (word (he h + he r)).
Definition sha1 (m : list Z) : list Z :=
  let ws := words (sha_pad m) in
  let h := foldl sha1_block H1 (blocks (length ws) ws) in
  [ha h; hb h; hc h; hd h; he h] ≫= be_bytes 4.

(** [hmac.New(sha1.New, key)] with the bytes [m] written. *)
Definition hmac_sha1 (key m : list Z) : list Z :=
  let key := if (64 <? length key)%nat then sha1 key else key in
  let block := key ++ replicate (64 - length key) 0 in
  sha1 (map (Z.lxor 0x5C) block ++ sha1 (map (Z.lxor 0x36) block ++ m)).

(** ** encoding/base32, the standard alphabet *)

(** [A] to [Z], then [2] to [7]. *)
Definition base32_char (d : Z) : Z := if d <? 26 then 65 + d else 24 + d.
Definition base32_digit (c : Z) : option Z :=
  if in_range 65 90 c then Some (c - 65) else if in_range 50 55 c then Some (c - 24) else None.

(** [w]-bit digits, most significant first, as one number and back. *)
Definition of_digits (w : Z) (l : list Z) : Z := foldl (λ n d, n * 2 ^ w + d) 0 l.
Fixpoint to_digits (w : Z) (k : nat) (n : Z) : list Z :=
  match k with
  | O => []
  | S k' => to_digits w k' (n / 2 ^ w) ++ [n mod 2 ^ w]
  end.

(** Characters that [k] bytes of a group of five are written with, and back. *)
Definition base32_width (k : nat) : nat := match k with 1 => 2 | 2 => 4 | 3 => 5 | 4 => 7 | _ => 8 end%nat.
Definition base32_bytes (k : nat) : nat := match k with 2 | 3 => 1 | 4 => 2 | 5 | 6 => 3 | 7 => 4 | _ => 5 end%nat.
Definition encode_group (l : list Z) : list Z :=
  base32_char <$> take (base32_width (length l)) (to_digits 5 8 (of_digits 8 (l ++ replicate (5 - length l) 0))).
Definition decode_group (ds : list Z) : list Z :=
  take (base32_bytes (length ds)) (to_digits 8 5 (of_digits 5 (ds ++ replicate (8 - length ds) 0))).

(** [EncodeToString], with [=] to fill the last group when [padding]. *)
Fixpoint base32_encode_groups (padding : bool) (fuel : nat) (l : list Z) : list Z :=
  match fuel with
  | O => []
  | S fuel' =>
      match l with
      | [] => []
      | _ =>
          let g := encode_group (take 5 l) in
          g ++ (if padding then replicate (8 - length g) 61 else []) ++ base32_encode_groups padding fuel' (drop 5 l)
      end
  end.
Definition base32_encode (padding : bool) (l : list Z) : string := string_of_bytes (base32_encode_groups padding (length l) l).

(** One group of [decode]: its digits, and whether padding ended the input. *)
Fixpoint read_group (j : nat) (src : list Z) : option (list Z * list Z * bool) :=
  match (8 - j)%nat with
  | O => Some ([], src, false)
  | S _ =>
      match src with
      | [] => None
      | c :: src' =>
          if (c =? 61) && (2 <=? j)%nat && (length src' <? 8)%nat then
            if (length src' + j <? 7)%nat then None
            else if negb (forallb (λ c, c =? 61) (take (7 - j) src')) then None
            else if (j =? 3)%nat || (j =? 6)%nat then None
            else Some ([], src', true)
          else match base32_digit c with
               | None => None
               | Some d =>
                   match read_group (S j) src' with
                   | Some (ds, rest, last) => Some (d :: ds, rest, last)
                   | None => None
                   end
               end
      end
  end.
(** [DecodeString]: new lines are removed first. *)
Fixpoint base32_decode_groups (fuel : nat) (src : list Z) : option (list Z) :=
  match fuel with
  | O => None
  | S fuel' =>
      match src with
      | [] => Some []
      | _ =>
          match read_group 0 src with
          | None => None
          | Some (ds, _, true) => Some (decode_group ds)
          | Some (ds, rest, false) => app (decode_group ds) <$> base32_decode_groups fuel' rest
          end
      end
  end.
Definition base32_decode (s : string) : option (list Z) :=
  let src := filter (λ c, negb ((c =? 10) || (c =? 13)) = true) (bytes s) in
  base32_decode_groups (S (length src)) src.

Example sha1_vectors :
  hex_encode (sha1 []) = "da39a3ee5e6b4b0d3255bfef95601890afd80709" ∧
  hex_encode (sha1 (bytes "abc")) = "a9993e364706816aba3e25717850c26c9cd0d89d".
Proof. vm_compute. done. Qed.
Example base32_vectors :
  base32_encode true (bytes "foobar") = "MZXW6YTBOI======" ∧ base32_encode false (bytes "foobar") = "MZXW6YTBOI" ∧
  base32_decode "MZXW6YTBOI======" = Some (bytes "foobar") ∧ base32_decode "MZXW6YTB" = Some (bytes "fooba") ∧
  base32_decode "MZXW6===" = Some (bytes "foo") ∧ base32_decode "MZXW6" = None ∧ base32_decode "mzxw6ytb" = None.
Proof. vm_compute. done. Qed.

(** ** One-time passwords *)

Definition mfaSecretBytes : nat := 20.
Definition mfaRecoveryCodeBytes : nat := 15.
Definition mfaTOTPWindow : Z := 1.

(** [fmt.Sprintf("%06d", value)] for a value below a million. *)
Definition six_digits (value : Z) : string := string_of_bytes ((λ k, 48 + value / 10 ^ k mod 10) <$> [5; 4; 3; 2; 1; 0]).
Definition computeTOTP (secret : string) (timeStep : Z) : option string :=
  match base32_decode secret with
  | None => None
  | Some key =>
      let digest := hmac_sha1 key (PutUint64 (uint64 timeStep)) in
      let offset := Z.to_nat (Z.land (List.last digest 0) 0x0f) in
      let truncated := of_digits 8 (take 4 (drop offset digest)) in
      Some (six_digits (Z.land truncated 0x7fffffff mod 1000000))
  end.

Definition Time_Unix (t : Time) : Z := (t_ns t - unixToInternal * Second) / Second.
(** The loop over the window; Go's [/] truncates. *)
Fixpoint verify_steps (secret code : string) (lastUsedTimeStep : Z) (steps : list Z) : Z * bool :=
  match steps with
  | [] => (0, false)
  | timeStep :: steps =>
      if timeStep <=? lastUsedTimeStep then verify_steps secret code lastUsedTimeStep steps
      else match computeTOTP secret timeStep with
           | None => (0, false)
           | Some expected =>
               if expected ==? code then (timeStep, true) else verify_steps secret code lastUsedTimeStep steps
           end
  end.
Definition verifyTOTP (secret code : string) (lastUsedTimeStep : Z) (now : Time) : Z * bool :=
  if negb (len code =? 6) then (0, false)
  else if negb (forallb (λ rw : Z * nat * Z, in_range 48 57 (fst (fst rw))) (runes code)) then (0, false)
  else
    let current := Z.quot (Time_Unix (Time_UTC now)) 30 in
    verify_steps secret code lastUsedTimeStep (seqZ (current - mfaTOTPWindow) (2 * mfaTOTPWindow + 1)).

(** [raw] are the random bytes. *)
Definition randomMFASecret (raw : list Z) : string := base32_encode true raw.

(** ** Recovery codes *)

(** [formatMFARecoveryCode]: groups of four; the fuel is the length. *)
Fixpoint format_parts (fuel : nat) (normalized : list Z) : list (list Z) :=
  match fuel with
  | O => []
  | S fuel' =>
      if (4 <? length normalized)%nat then take 4 normalized :: format_parts fuel' (drop 4 normalized)
      else match normalized with [] => [] | _ => [normalized] end
  end.
Fixpoint join_parts (parts : list (list Z)) : list Z :=
  match parts with
  | [] => []
  | [part] => part
  | part :: parts => part ++ 45 :: join_parts parts
  end.
Definition formatMFARecoveryCode (normalized : string) : string :=
  string_of_bytes (join_parts (format_parts (String.length normalized) (bytes normalized))).

(** [unicode.ToLower] where its result is an ASCII letter; no other rune has an ASCII lower
    case, and the loop refuses those that are not ASCII. *)
Definition lower_rune (r : Z) : Z :=
  if in_range 65 90 r then r + 32 else if r =? 0x212A then 107 else if r =? 0x130 then 105 else r.
(** The loop of [normalizeMFARecoveryCode] with what the builder holds after it. *)
Fixpoint normalize_runes (rs : list Z) : option (list Z) :=
  match rs with
  | [] => Some []
  | value :: rs =>
      if in_range 97 122 value || in_range 50 55 value then cons value <$> normalize_runes rs
      else if (value =? 45) || (value =? 32) then normalize_runes rs
      else None
  end.
Definition normalizeMFARecoveryCode (code : string) : string :=
  match normalize_runes ((λ rw, lower_rune (fst (fst rw))) <$> runes (TrimSpace code)) with
  | None => ""
  | Some normalized => if (length normalized =? 24)%nat then string_of_bytes normalized else ""
  end.

(** A code drawn: base32 without padding, in lower case. *)
Definition recovery_code (random : list Z) : string := ToLower (base32_encode false random).
(** The loop of [generateMFARecoveryCodes]: [draws] are the random readings, used up to [count]
    different codes; what the user is shown and what is hashed. *)
Fixpoint generate_codes (count : nat) (seen : list string) (draws : list (list Z)) : option (list string) :=
  match count with
  | O => Some []
  | S count' =>
      (fix next draws :=
         match draws with
         | [] => None
         | random :: draws =>
             let normalized := recovery_code random in
             if bool_decide (normalized ∈ seen) then next draws
             else cons normalized <$> generate_codes count' (normalized :: seen) draws
         end) draws
  end.
Definition HashToken (token : string) : string := hex_encode (sha256 (bytes token)).
Definition generateMFARecoveryCodes (count : nat) (draws : list (list Z)) : option (list string * list string) :=
  match generate_codes count [] draws with
  | Some codes => Some (map formatMFARecoveryCode codes, map HashToken codes)
  | None => None
  end.

(** The vectors of RFC 6238 for SHA-1, whose eight digits end in these six. *)
Definition rfc_secret : string := "GEZDGNBVGY3TQOJQGEZDGNBVGY3TQOJQ".
Example totp_vectors :
  computeTOTP rfc_secret 1 = Some "287082" ∧ computeTOTP rfc_secret 37037036 = Some "081804" ∧
  computeTOTP rfc_secret 37037037 = Some "050471" ∧ computeTOTP rfc_secret 666666666 = Some "353130".
Proof. vm_compute. done. Qed.
Example recovery_code_shown :
  formatMFARecoveryCode (recovery_code (bytes "123456789012345")) = "gezd-gnbv-gy3t-qojq-gezd-gnbv" ∧
  normalizeMFARecoveryCode " GEZD gnbv-GY3T-qojq-gezd-gnbv" = "gezdgnbvgy3tqojqgezdgnbv".
Proof. vm_compute. done. Qed.

(** ** Base 32 round trips *)

Lemma of_digits_snoc w l d : of_digits w (l ++ [d]) = of_digits w l * 2 ^ w + d.
Proof. unfold of_digits. by rewrite foldl_app. Qed.
Lemma of_digits_app w l l' : 0 ≤ w → of_digits w (l ++ l') = of_digits w l * 2 ^ (w * Z.of_nat (length l')) + of_digits w l'.
Proof.
  intros Hw. induction l' as [|d l' IH] using rev_ind.
  - rewrite app_nil_r. cbn. rewrite Z.mul_0_r. lia.
  - rewrite app_assoc, !of_digits_snoc, IH, length_app. cbn [length].
    replace (w * Z.of_nat (length l' + 1)) with (w * Z.of_nat (length l') + w) by lia. rewrite Z.pow_add_r by lia. ring.
Qed.
Lemma of_digits_zeros w k : of_digits w (replicate k 0) = 0.
Proof. induction k as [|k IH]; [done|]. by rewrite replicate_S_end, of_digits_snoc, IH. Qed.
Lemma of_digits_range w l : 0 ≤ w → Forall (λ d, 0 ≤ d < 2 ^ w) l → 0 ≤ of_digits w l < 2 ^ (w * Z.of_nat (length l)).
Proof.
  intros Hw Hl. induction l as [|d l IH] using rev_ind; [cbn; rewrite Z.mul_0_r; lia|].
  apply Forall_app in Hl as [Hl Hd]. rewrite Forall_singleton in Hd. specialize (IH Hl). rewrite of_digits_snoc, length_app. cbn [length].
  replace (w * Z.of_nat (length l + 1)) with (w * Z.of_nat (length l) + w) by lia. rewrite Z.pow_add_r by lia.
  assert (of_digits w l * 2 ^ w ≤ (2 ^ (w * Z.of_nat (length l)) - 1) * 2 ^ w) by (apply Z.mul_le_mono_nonneg_r; lia).
  assert (0 ≤ of_digits w l * 2 ^ w) by (apply Z.mul_nonneg_nonneg; lia). lia.
Qed.
Lemma to_digits_length w k n : length (to_digits w k n) = k.
Proof. revert n. induction k as [|k IH]; intros n; cbn; [done|]. rewrite length_app, IH. cbn. lia. Qed.
Lemma to_digits_range w k n : 0 ≤ w → Forall (λ d, 0 ≤ d < 2 ^ w) (to_digits w k n).
Proof.
  intros Hw. revert n. induction k as [|k IH]; intros n; cbn; [done|]. apply Forall_app. split; [apply IH|].
  apply Forall_singleton, Z.mod_pos_bound. by apply Z.pow_pos_nonneg.
Qed.
Lemma to_digits_of_digits w l : 0 ≤ w → Forall (λ d, 0 ≤ d < 2 ^ w) l → to_digits w (length l) (of_digits w l) = l.
Proof.
  intros Hw Hl. induction l as [|d l IH] using rev_ind; [done|]. apply Forall_app in Hl as [Hl Hd]. rewrite Forall_singleton in Hd.
  rewrite length_app, Nat.add_comm, of_digits_snoc. cbn.
  rewrite Z.div_add_l, Z.div_small, Z.add_0_r, IH by (done || lia). rewrite Z.add_comm, Z_mod_plus_full, Z.mod_small by lia. done.
Qed.
Lemma of_digits_to_digits w k n : 0 ≤ w → of_digits w (to_digits w k n) = n mod 2 ^ (w * Z.of_nat k).
Proof.
  intros Hw. revert n. induction k as [|k IH]; intros n; cbn [to_digits].
  - cbn. by rewrite Z.mul_0_r, Z.mod_1_r.
  - rewrite of_digits_snoc, IH. replace (w * Z.of_nat (S k)) with (w + w * Z.of_nat k) by lia. rewrite Z.pow_add_r by lia.
    rewrite Z.rem_mul_r by (apply Z.pow_nonzero || apply Z.pow_pos_nonneg; lia). lia.
Qed.
Lemma to_digits_take w a b n : 0 ≤ w → take a (to_digits w (a + b) n) = to_digits w a (n / 2 ^ (w * Z.of_nat b)).
Proof.
  intros Hw. revert n. induction b as [|b IH]; intros n.
  - rewrite Nat.add_0_r, take_ge by (by rewrite to_digits_length). cbn. by rewrite Z.mul_0_r, Z.div_1_r.
  - rewrite Nat.add_succ_r. cbn [to_digits]. rewrite take_app_le by (rewrite to_digits_length; lia). rewrite IH, Z.div_div; [|apply Z.pow_nonzero; lia|apply Z.pow_pos_nonneg; lia].
    rewrite <-Z.pow_add_r by lia. by replace (w + w * Z.of_nat b) with (w * Z.of_nat (S b)) by lia.
Qed.

(** A group of at most five bytes. *)
Lemma group_roundtrip l : (1 ≤ length l ≤ 5)%nat → Forall is_byte l →
  let ds := take (base32_width (length l)) (to_digits 5 8 (of_digits 8 (l ++ replicate (5 - length l) 0))) in decode_group ds = l.
Proof.
  intros Hn Hl ds. set (n := of_digits 8 l). assert (Hr : 0 ≤ n < 2 ^ (8 * Z.of_nat (length l))) by (apply of_digits_range; [lia|done]).
  assert (HN : of_digits 8 (l ++ replicate (5 - length l) 0) = n * 2 ^ (8 * Z.of_nat (5 - length l))).
  { rewrite of_digits_app, of_digits_zeros, length_replicate by lia. fold n. lia. }
  set (W := base32_width (length l)). assert (HW : (W ≤ 8)%nat ∧ base32_bytes W = length l ∧ 5 * Z.of_nat (8 - W) ≤ 8 * Z.of_nat (5 - length l)).
  { unfold W. destruct (length l) as [|[|[|[|[|[|]]]]]]; cbn; lia. }
  destruct HW as (HW & Hb & Hle). set (N := n * 2 ^ (8 * Z.of_nat (5 - length l))) in *.
  assert (Hds : ds = to_digits 5 W (N / 2 ^ (5 * Z.of_nat (8 - W)))).
  { unfold ds. rewrite HN. fold W. rewrite <-to_digits_take by lia. by replace (W + (8 - W))%nat with 8%nat by lia. }
  assert (Hlen : length ds = W) by (by rewrite Hds, to_digits_length).
  assert (Hdiv : N / 2 ^ (5 * Z.of_nat (8 - W)) * 2 ^ (5 * Z.of_nat (8 - W)) = N).
  { rewrite Z.mul_comm. symmetry. apply Z_div_exact_full_2; [apply Z.pow_nonzero; lia|]. unfold N.
    replace (8 * Z.of_nat (5 - length l)) with (8 * Z.of_nat (5 - length l) - 5 * Z.of_nat (8 - W) + 5 * Z.of_nat (8 - W)) by lia.
    rewrite Z.pow_add_r, Z.mul_assoc by lia. apply Z_mod_mult. }
  assert (HNr : 0 ≤ N < 2 ^ 40).
  { unfold N. replace 40 with (8 * Z.of_nat (length l) + 8 * Z.of_nat (5 - length l)) by lia. rewrite Z.pow_add_r by lia.
    assert (0 < 2 ^ (8 * Z.of_nat (5 - length l))) by (apply Z.pow_pos_nonneg; lia). nia. }
  unfold decode_group. rewrite Hlen, Hb, of_digits_app, of_digits_zeros, length_replicate, Z.add_0_r by lia.
  rewrite Hds, of_digits_to_digits by lia. rewrite Z.mod_small.
  - rewrite Hdiv, <-HN.
    replace 5%nat with (length (l ++ replicate (5 - length l) 0)) at 1 by (rewrite length_app, length_replicate; lia).
    rewrite to_digits_of_digits; [apply take_app_length|lia|]. apply Forall_app. split; [done|]. apply Forall_replicate. lia.
  - split; [apply Z.div_pos; [lia|apply Z.pow_pos_nonneg; lia]|]. apply Z.div_lt_upper_bound; [apply Z.pow_pos_nonneg; lia|].
    rewrite <-Z.pow_add_r by lia. replace (5 * Z.of_nat (8 - W) + 5 * Z.of_nat W) with 40 by lia. apply HNr.
Qed.

Lemma base32_digit_char d : 0 ≤ d < 2 ^ 5 → base32_digit (base32_char d) = Some d ∧ 50 ≤ base32_char d ≤ 90 ∧ base32_char d ≠ 61.
Proof.
  intros Hd. unfold base32_digit, base32_char, in_range. destruct (d <? 26) eqn:E.
  - replace ((65 <=? 65 + d) && (65 + d <=? 90)) with true by lia. split; [f_equal; lia|lia].
  - replace ((65 <=? 24 + d) && (24 + d <=? 90)) with false by lia. replace ((50 <=? 24 + d) && (24 + d <=? 55)) with true by lia.
    split; [f_equal; lia|lia].
Qed.
Lemma read_digit j c src : c ≠ 61 → (j < 8)%nat → read_group j (c :: src) =
  d ← base32_digit c; '(ds, rest, last) ← read_group (S j) src; Some (d :: ds, rest, last).
Proof.
  intros Hc Hj. cbn [read_group]. replace (8 - j)%nat with (S (7 - j)) by lia. replace (c =? 61) with false by lia. cbn [andb].
  destruct (base32_digit c); [|done]. cbn. by destruct (read_group (S j) src) as [[[]]|].
Qed.
Lemma read_full ds rest j : Forall (λ d, 0 ≤ d < 2 ^ 5) ds → (length ds + j = 8)%nat →
  read_group j ((base32_char <$> ds) ++ rest) = Some (ds, rest, false).
Proof.
  intros Hds. revert j. induction Hds as [|d ds Hd _ IH]; intros j Hj; cbn in Hj.
  - replace j with 8%nat by lia. by destruct rest.
  - destruct (base32_digit_char d Hd) as (E & _ & Hne). rewrite fmap_cons. cbn [app]. rewrite read_digit by (done || lia). rewrite E. cbn.
    by rewrite (IH (S j)) by lia.
Qed.
Lemma read_padded ds j : Forall (λ d, 0 ≤ d < 2 ^ 5) ds → (length ds + j)%nat ∈ [2; 4; 5; 7]%nat →
  ∃ rest, read_group j ((base32_char <$> ds) ++ replicate (8 - (length ds + j)) 61) = Some (ds, rest, true).
Proof.
  intros Hds. revert j. induction Hds as [|d ds Hd _ IH]; intros j Hj.
  - exists (replicate (7 - j) 61). cbn [length Nat.add] in *. rewrite !elem_of_cons, elem_of_nil in Hj.
    destruct Hj as [->|[->|[->|[->|[]]]]]; done.
  - destruct (base32_digit_char d Hd) as (E & _ & Hne). assert (Hlt : (j < 8)%nat).
    { rewrite !elem_of_cons, elem_of_nil in Hj. cbn in Hj. lia. }
    destruct (IH (S j)) as [rest IH']; [by rewrite Nat.add_succ_r|]. exists rest. rewrite fmap_cons. cbn [app]. rewrite read_digit by done.
    rewrite E. cbn. cbn [length] in *. rewrite Nat.add_succ_r in IH'. cbn in IH'. by rewrite IH'.
Qed.

Lemma encode_groups_chars padding fuel l : Forall is_byte l → Forall (λ c, 50 ≤ c ≤ 90) (base32_encode_groups padding fuel l).
Proof.
  revert l. induction fuel as [|fuel IH]; intros l Hl; cbn; [done|]. destruct l as [|b l']; [done|].
  apply Forall_app. split; [|apply Forall_app; split; [destruct padding; [apply Forall_replicate; lia|done]|apply IH; by apply Forall_drop]].
  unfold encode_group. apply Forall_fmap, Forall_take. eapply Forall_impl; [apply to_digits_range; lia|].
  intros d Hd. by destruct (base32_digit_char d Hd) as (_ & ? & _).
Qed.
Lemma decode_step fuel src : src ≠ [] → base32_decode_groups (S fuel) src =
  match read_group 0 src with
  | None => None
  | Some (ds, _, true) => Some (decode_group ds)
  | Some (ds, rest, false) => app (decode_group ds) <$> base32_decode_groups fuel rest
  end.
Proof. by destruct src. Qed.
Lemma decode_encode_groups fuel fuel' l : (length l ≤ fuel)%nat → (length l < fuel')%nat → Forall is_byte l →
  base32_decode_groups fuel' (base32_encode_groups true fuel l) = Some l.
Proof.
  revert fuel' l. induction fuel as [|fuel IH]; intros [|fuel'] l Hf Hf' Hl; try lia.
  { destruct l; [done|cbn in Hf; lia]. }
  destruct l as [|b l']; [done|]. cbn [base32_encode_groups]. set (l := b :: l') in *.
  assert (Hlen0 : length l = S (length l')) by done. clearbody l.
  assert (Hg : (1 ≤ length (take 5 l) ≤ 5)%nat) by (rewrite length_take; lia).
  pose proof (group_roundtrip (take 5 l) Hg (Forall_take _ 5 l Hl)) as Hrt. cbv zeta in Hrt. unfold encode_group.
  set (ds := take (base32_width (length (take 5 l))) _) in *.
  assert (Hds : Forall (λ d, 0 ≤ d < 2 ^ 5) ds) by (apply Forall_take, to_digits_range; lia).
  assert (Hlen : length ds = base32_width (length (take 5 l))).
  { unfold ds. rewrite length_take, to_digits_length. destruct (length (take 5 l)) as [|[|[|[|[|[|]]]]]]; cbn; lia. }
  rewrite length_fmap. destruct (decide (5 ≤ length l)%nat) as [H5|H5].
  - assert (H8 : length ds = 8%nat) by (rewrite Hlen, length_take, Nat.min_l by done; done). rewrite H8. cbn [replicate Nat.sub app].
    rewrite decode_step by (by destruct ds). rewrite read_full by (done || lia). rewrite IH; [|rewrite length_drop; lia..|by apply Forall_drop].
    cbn. by rewrite Hrt, take_drop.
  - assert (Hdrop : drop 5 l = []) by (apply drop_ge; lia). assert (Htake : take 5 l = l) by (apply take_ge; lia). rewrite Hdrop, Htake in *.
    assert (base32_encode_groups true fuel [] = []) as -> by (by destruct fuel). rewrite app_nil_r.
    destruct (read_padded ds 0 Hds) as [rest Hread].
    { rewrite Nat.add_0_r, Hlen. destruct (length l) as [|[|[|[|[|]]]]]; cbn in *; try lia; set_solver. }
    rewrite Nat.add_0_r in Hread. rewrite decode_step, Hread, Hrt; [done|].
    intros [E _]%app_nil. apply fmap_nil_inv in E. rewrite E in Hlen. destruct (length l) as [|[|[|[|[|]]]]]; cbn in *; lia.
Qed.
Lemma encode_groups_bytes padding fuel l : Forall is_byte l → bytes (string_of_bytes (base32_encode_groups padding fuel l)) = base32_encode_groups padding fuel l.
Proof.
  intros Hl. apply bytes_string_of_bytes. eapply Forall_impl; [by apply encode_groups_chars|]. intros c Hc. unfold is_byte. cbn in Hc. lia.
Qed.
Lemma encode_group_length l : (1 ≤ length l ≤ 5)%nat → (length l ≤ length (encode_group l) ≤ 8)%nat.
Proof. intros Hl. unfold encode_group. rewrite length_fmap, length_take, to_digits_length. destruct (length l) as [|[|[|[|[|[|]]]]]]; cbn [base32_width Nat.min]; lia. Qed.
Lemma encode_groups_length padding fuel l : (length l ≤ fuel)%nat → (length l ≤ length (base32_encode_groups padding fuel l))%nat.
Proof.
  revert l. induction fuel as [|fuel IH]; intros [|b l] Hl; cbn in Hl; try (cbn; lia). cbn [base32_encode_groups]. rewrite !length_app.
  specialize (IH (drop 5 (b :: l)) ltac:(rewrite length_drop; cbn; lia)). pose proof (encode_group_length (take 5 (b :: l))) as Hg.
  rewrite length_take, length_drop in *. cbn [length] in *. lia.
Qed.
Lemma filter_all {A} (P : A → Prop) `{!∀ x, Decision (P x)} (l : list A) : Forall P l → filter P l = l.
Proof. induction 1 as [|x l Hx _ IH]; [done|]. by rewrite filter_cons_True, IH. Qed.
(** Every encoding decodes to the bytes it was made from. *)
Lemma base32_roundtrip l : Forall is_byte l → base32_decode (base32_encode true l) = Some l.
Proof.
  intros Hl. unfold base32_decode, base32_encode. rewrite encode_groups_bytes by done.
  assert (Hf : filter (λ c, negb ((c =? 10) || (c =? 13)) = true) (base32_encode_groups true (length l) l) = base32_encode_groups true (length l) l).
  { apply filter_all. eapply Forall_impl; [by apply encode_groups_chars|]. intros c Hc. cbn in Hc. lia. }
  rewrite Hf. apply decode_encode_groups; [done| |done]. pose proof (encode_groups_length true (length l) l (Nat.le_refl _)). lia.
Qed.

(** ** What verification accepts *)

Lemma six_digits_bytes v : bytes (six_digits v) = (λ k, 48 + v / 10 ^ k mod 10) <$> [5; 4; 3; 2; 1; 0].
Proof.
  unfold six_digits. apply bytes_string_of_bytes. apply Forall_fmap, Forall_true. intros k. unfold is_byte. cbn.
  pose proof (Z.mod_pos_bound (v / 10 ^ k) 10). lia.
Qed.
Lemma totp_format secret step code : computeTOTP secret step = Some code → len code = 6 ∧ Forall (λ c, 48 ≤ c ≤ 57) (bytes code).
Proof.
  unfold computeTOTP. destruct (base32_decode secret) as [key|]; [|done]. cbv zeta. set (v := _ mod 1000000). intros [= <-]. split.
  - unfold len. by rewrite <-length_bytes, six_digits_bytes.
  - rewrite six_digits_bytes. apply Forall_fmap, Forall_true. intros k. cbn. pose proof (Z.mod_pos_bound (v / 10 ^ k) 10). lia.
Qed.
Lemma verify_steps_spec secret code last start n : is_Some (base32_decode secret) →
  match verify_steps secret code last (seqZ start n) with
  | (s, true) => start ≤ s < start + n ∧ last < s ∧ computeTOTP secret s = Some code ∧
      ∀ s', start ≤ s' < s → last < s' → computeTOTP secret s' ≠ Some code
  | (s, false) => s = 0 ∧ ∀ s', start ≤ s' < start + n → last < s' → computeTOTP secret s' ≠ Some code
  end.
Proof.
  intros [key Hkey]. destruct (decide (0 ≤ n)) as [Hn|Hn]; [|rewrite seqZ_nil by lia; cbn; split; [done|]; lia].
  revert start. pattern n. apply natlike_ind; [intros start; rewrite seqZ_nil by lia; cbn; split; [done|]; lia| |done].
  clear n Hn. intros n Hn IH start. rewrite seqZ_cons by lia. cbn [verify_steps]. rewrite Z.pred_succ. specialize (IH (Z.succ start)).
  destruct (start <=? last) eqn:El.
  - destruct (verify_steps _ _ _ _) as [s []].
    + destruct IH as (? & ? & ? & Hmin). split_and!; try done; try lia. intros s' Hs' Hl. apply Hmin; lia.
    + destruct IH as (-> & Hno). split; [done|]. intros s' Hs' Hl. apply Hno; lia.
  - assert (∃ expected, computeTOTP secret start = Some expected) as [expected Ec] by (unfold computeTOTP; rewrite Hkey; eauto).
    rewrite Ec. destruct (expected ==? code) eqn:E; to_prop.
    + subst. split_and!; try done; try lia.
    + destruct (verify_steps _ _ _ _) as [s []].
      * destruct IH as (? & ? & ? & Hmin). split_and!; try done; try lia. intros s' Hs' Hl.
        destruct (decide (s' = start)) as [->|]; [congruence|]. apply Hmin; lia.
      * destruct IH as (-> & Hno). split; [done|]. intros s' Hs' Hl. destruct (decide (s' = start)) as [->|]; [congruence|]. apply Hno; lia.
Qed.

(** The steps verification looks at: those of the instant and its neighbours. *)
Definition in_window (now : Time) (step : Z) : Prop := Z.abs (step - Z.quot (Time_Unix (Time_UTC now)) 30) ≤ 1.

(** C36. What a TOTP verification accepts.  For a secret that was generated, a code is accepted
    exactly when it is the one-time password of a time step in the window around the instant
    and after the last step used, and the step reported is the earliest such; in particular a
    step that was used, or an earlier one, is never accepted again. *)
Theorem totp_verified_exactly (raw : list Z) (code : string) (last : Z) (now : Time) :
  Forall is_byte raw →
  let secret := randomMFASecret raw in
  let fits step := in_window now step ∧ last < step ∧ computeTOTP secret step = Some code in
  (∀ step, verifyTOTP secret code last now = (step, true) ↔ fits step ∧ ∀ step', step' < step → ¬ fits step') ∧
  ((∀ step, ¬ fits step) ↔ verifyTOTP secret code last now = (0, false)).
Proof.
  intros Hraw secret fits. assert (Hkey : is_Some (base32_decode secret)) by (unfold secret, randomMFASecret; rewrite base32_roundtrip; eauto).
  set (current := Z.quot (Time_Unix (Time_UTC now)) 30).
  assert (Hv : match verifyTOTP secret code last now with
               | (s, true) => fits s ∧ ∀ s', s' < s → ¬ fits s'
               | (s, false) => s = 0 ∧ ∀ s', ¬ fits s'
               end).
  { unfold verifyTOTP. destruct (negb (len code =? 6)) eqn:E6.
    { split; [done|]. intros s (_ & _ & [Hlen _]%totp_format). lia. }
    destruct (negb (forallb _ _)) eqn:Ed.
    { split; [done|]. intros s (_ & _ & [_ Hdig]%totp_format). apply negb_true_iff, not_true_iff_false in Ed. apply Ed.
      rewrite runes_of_ascii by (eapply Forall_impl; [exact Hdig|]; intros c Hc; cbn in Hc; lia). apply forallb_forall.
      intros x (c & <- & Hc%list_elem_of_In)%in_map_iff. rewrite Forall_forall in Hdig. specialize (Hdig c Hc). unfold in_range. cbn. lia. }
    fold current. pose proof (verify_steps_spec secret code last (current - mfaTOTPWindow) (2 * mfaTOTPWindow + 1) Hkey) as H.
    unfold mfaTOTPWindow in *. unfold fits, in_window. fold current. destruct (verify_steps _ _ _ _) as [s []].
    - destruct H as (Hs & Hl & Hc & Hmin). split; [split_and!; try done; lia|]. intros s' Hs' (Hw & Hl' & Hc'). apply (Hmin s'); [lia|done..].
    - destruct H as (-> & Hno). split; [done|]. intros s' (Hw & Hl & Hc). apply (Hno s'); [lia|done..]. }
  destruct (verifyTOTP secret code last now) as [s []].
  - destruct Hv as [Hf Hmin]. split.
    + intros step. split; [by intros [= <-]|]. intros [Hf' Hmin']. f_equal. destruct (Z.lt_trichotomy s step) as [H|[H|H]]; [|done|].
      * by destruct (Hmin' s H). * by destruct (Hmin step H).
    + split; [intros Hno; by destruct (Hno s)|done].
  - destruct Hv as [-> Hno]. split; [|done]. intros step. split; [done|]. intros [Hf _]. by destruct (Hno step).
Qed.

(** ** Trimming ASCII text *)

Lemma bytes_substring n m s : bytes (String.substring n m s) = take m (drop n (bytes s)).
Proof.
  revert n m. induction s as [|a s IH]; intros [|n] [|m]; cbn; try done; [by rewrite IH|by rewrite IH..].
Qed.
Lemma leading_space_ascii l : ∃ k, leading_space (map (λ c, (c, 1%nat, c)) l) = k ∧ (k ≤ length l)%nat ∧ Forall (λ c, IsSpace c = true) (take k l) ∧
  (k < length l → ∀ c, head (drop k l) = Some c → IsSpace c = false)%nat.
Proof.
  induction l as [|c l (k & Hk & Hle & Hall & Hn)]; [by exists 0%nat|]. cbn. destruct (IsSpace c) eqn:E.
  - exists (S k). rewrite Hk. cbn. split_and!; [done|lia|by constructor|]. intros Hlt. apply Hn. lia.
  - exists 0%nat. cbn. split_and!; [done|lia|done|]. intros _ c' [= <-]. done.
Qed.
Lemma TrimSpace_ascii s : ascii_bytes (bytes s) → ∃ l r, bytes s = l ++ bytes (TrimSpace s) ++ r ∧ Forall (λ c, IsSpace c = true) (l ++ r).
Proof.
  intros Hs. unfold TrimSpace. rewrite runes_of_ascii, bytes_substring, <-length_bytes by done. set (b := bytes s).
  assert (Hrev : reverse (map (λ c, (c, 1%nat, c)) b) = map (λ c, (c, 1%nat, c)) (reverse b)) by (symmetry; apply fmap_reverse).
  rewrite Hrev. destruct (leading_space_ascii b) as (L & -> & HL & Hl & Hfirst). destruct (leading_space_ascii (reverse b)) as (R & -> & HR & Hr & _).
  rewrite length_reverse in HR. assert (Hsuffix : Forall (λ c, IsSpace c = true) (drop (length b - R) b)).
  { rewrite take_reverse in Hr. by rewrite Forall_reverse in Hr. }
  destruct (decide (L + R ≤ length b)%nat) as [Hle|Hgt].
  - exists (take L b), (drop (length b - R) b). split; [|by apply Forall_app].
    rewrite <-(take_drop L b) at 1. f_equal. rewrite <-(take_drop (length b - L - R) (drop L b)) at 1. f_equal. rewrite drop_drop. f_equal. lia.
  - exists b, []. replace (length b - L - R)%nat with 0%nat by lia. split; [by rewrite take_0, app_nil_r|rewrite app_nil_r].
    destruct (decide (L < length b)%nat) as [Hlt|Hge]; [|rewrite take_ge in Hl by lia; exact Hl].
    exfalso. destruct (lookup_lt_is_Some_2 b L Hlt) as [c Hc]. assert (IsSpace c = false) as Hf.
    { apply Hfirst; [done|]. by rewrite head_lookup, lookup_drop, Nat.add_0_r. }
    rewrite Forall_lookup in Hsuffix. specialize (Hsuffix (L - (length b - R))%nat c). rewrite lookup_drop in Hsuffix.
    replace (length b - R + (L - (length b - R)))%nat with L in Hsuffix by lia. rewrite Hsuffix in Hf; done.
Qed.

(** ** Recovery codes survive the way to the user and back *)

(** What a user may type for a code: its letters in either case and its digits, with hyphens
    and spaces anywhere. *)
Definition typable (c : Z) : bool := in_range 97 122 (lower_rune c) || in_range 50 55 c || (c =? 45) || (c =? 32).
Definition letters (l : list Z) : list Z := filter (λ c, negb ((c =? 45) || (c =? 32)) = true) (map lower_rune l).
Definition retyped (shown typed : string) : Prop :=
  ascii_bytes (bytes typed) ∧ forallb typable (bytes typed) = true ∧ letters (bytes typed) = letters (bytes shown).

Lemma lower_rune_ascii c : c < 128 → lower_rune c = if in_range 65 90 c then c + 32 else c.
Proof. intros Hc. unfold lower_rune. replace (c =? 0x212A) with false by lia. by replace (c =? 0x130) with false by lia. Qed.
Lemma normalize_letters l : Forall (λ c, 0 ≤ c < 128) l → forallb typable l = true → normalize_runes (map lower_rune l) = Some (letters l).
Proof.
  unfold letters. induction 1 as [|c l Hc _ IH]; [done|]. cbn [forallb map normalize_runes]. intros [Ht Hl]%andb_true_iff. rewrite (IH Hl).
  set (c' := lower_rune c). assert (Hcases : (in_range 97 122 c' || in_range 50 55 c' = true ∧ c' ≠ 45 ∧ c' ≠ 32) ∨
    (in_range 97 122 c' || in_range 50 55 c' = false ∧ (c' = 45 ∨ c' = 32))).
  { unfold c', typable in *. rewrite lower_rune_ascii in * by lia. destruct (in_range 65 90 c) eqn:E; unfold in_range in *; lia. }
  destruct Hcases as [(-> & H1 & H2)|(-> & H)].
  - rewrite filter_cons_True; [done|]. lia.
  - replace ((c' =? 45) || (c' =? 32)) with true by lia. by rewrite filter_cons_False by lia.
Qed.
Lemma letters_app l l' : letters (l ++ l') = letters l ++ letters l'.
Proof. unfold letters. by rewrite map_app, filter_app. Qed.
Lemma letters_spaces l : Forall (λ c, IsSpace c = true) l → Forall (λ c, 0 ≤ c < 128) l → forallb typable l = true → letters l = [].
Proof.
  unfold letters. induction 1 as [|c l Hc _ IH]; [done|]. intros [Ha Hl]%Forall_cons. cbn [forallb map]. intros [Ht Hls]%andb_true_iff.
  rewrite filter_cons_False; [by apply IH|]. unfold typable in Ht. rewrite lower_rune_ascii in * by lia. unfold IsSpace in Hc.
  destruct (in_range 65 90 c) eqn:E; unfold in_range in *; lia.
Qed.
Lemma normalize_typed typed : ascii_bytes (bytes typed) → forallb typable (bytes typed) = true → length (letters (bytes typed)) = 24%nat →
  normalizeMFARecoveryCode typed = string_of_bytes (letters (bytes typed)).
Proof.
  intros Ha Ht H24. destruct (TrimSpace_ascii typed Ha) as (l & r & Hb & Hsp). unfold normalizeMFARecoveryCode. unfold ascii_bytes in Ha.
  rewrite Hb in Ha, Ht. rewrite !forallb_app, !andb_true_iff in Ht. destruct Ht as (Hl & Hm & Hr). apply Forall_app in Ha as [Hal Ha]. apply Forall_app in Ha as [Ha Har].
  apply Forall_app in Hsp as [Hsl Hsr].
  assert (Hletters : letters (bytes typed) = letters (bytes (TrimSpace typed))).
  { rewrite Hb, !letters_app, (letters_spaces l), (letters_spaces r), app_nil_r by done. done. }
  rewrite runes_of_ascii by done.
  assert (∀ x, (λ rw : Z * nat * Z, lower_rune rw.1.1) <$> map (λ c, (c, 1%nat, c)) x = map lower_rune x) as -> by (intros x; apply map_map).
  rewrite normalize_letters, <-Hletters, H24 by done. done.
Qed.

Lemma lower_char d : 0 ≤ d < 2 ^ 5 → let c := lower_rune (base32_char d) in
  0 ≤ c < 128 ∧ lower_rune c = c ∧ typable c = true ∧ c ≠ 45 ∧ c ≠ 32 ∧ lower_ascii (ascii_of_byte (base32_char d)) = ascii_of_byte c.
Proof.
  intros Hd c. destruct (base32_digit_char d Hd) as (Hdig & Hr & _).
  assert (Hc : c = if in_range 65 90 (base32_char d) then base32_char d + 32 else base32_char d) by (unfold c; apply lower_rune_ascii; lia).
  unfold lower_ascii. rewrite byte_of_ascii_of_byte by (unfold is_byte; lia). unfold typable, base32_digit in *.
  destruct (in_range 65 90 (base32_char d)) eqn:E; rewrite Hc.
  - rewrite !lower_rune_ascii by (unfold in_range in E; lia). unfold in_range in *.
    replace ((65 <=? base32_char d + 32) && (base32_char d + 32 <=? 90)) with false by lia. split_and!; try done; lia.
  - rewrite !lower_rune_ascii by lia. destruct (in_range 50 55 (base32_char d)) eqn:E'; [|done]. rewrite E. unfold in_range in *. split_and!; try done; lia.
Qed.

Definition code_char (c : Z) : Prop := 0 ≤ c < 128 ∧ lower_rune c = c ∧ typable c = true ∧ c ≠ 45 ∧ c ≠ 32.
Lemma encode_plain fuel l : ∃ ds, Forall (λ d, 0 ≤ d < 2 ^ 5) ds ∧ base32_encode_groups false fuel l = base32_char <$> ds.
Proof.
  revert l. induction fuel as [|fuel IH]; intros l; cbn; [by exists []|]. destruct l as [|b l']; [by exists []|].
  destruct (IH (drop 5 (b :: l'))) as (ds & Hds & E). unfold encode_group. eexists. split; [|rewrite E, <-fmap_app; reflexivity].
  apply Forall_app. split; [apply Forall_take, to_digits_range; lia|done].
Qed.
Lemma encode_plain_length fuel k l : length l = (5 * k)%nat → (length l ≤ fuel)%nat → length (base32_encode_groups false fuel l) = (8 * k)%nat.
Proof.
  revert k l. induction fuel as [|fuel IH]; intros k l Hl Hf; [destruct k; [done|lia]|]. destruct k as [|k]; [by destruct l|].
  cbn [base32_encode_groups]. destruct l as [|b l']; [done|]. set (l := b :: l') in *. rewrite !length_app, (IH k) by (rewrite length_drop; lia).
  unfold encode_group. rewrite length_fmap, length_take, to_digits_length, length_take. replace (5 `min` length l)%nat with 5%nat by lia. cbn. lia.
Qed.
Lemma lower_chars ds : Forall (λ d, 0 ≤ d < 2 ^ 5) ds →
  bytes (ToLower (string_of_bytes (base32_char <$> ds))) = (λ d, lower_rune (base32_char d)) <$> ds.
Proof.
  induction 1 as [|d ds Hd _ IH]; [done|]. rewrite !fmap_cons. cbn [string_of_bytes ToLower bytes]. rewrite IH. f_equal.
  destruct (lower_char d Hd) as (Hr & _ & _ & _ & _ & ->). apply byte_of_ascii_of_byte. unfold is_byte. lia.
Qed.
Lemma recovery_code_chars random : length random = mfaRecoveryCodeBytes →
  Forall code_char (bytes (recovery_code random)) ∧ length (bytes (recovery_code random)) = 24%nat.
Proof.
  intros Hn. unfold recovery_code, base32_encode. destruct (encode_plain (length random) random) as (ds & Hds & E).
  pose proof (encode_plain_length (length random) 3 random Hn (Nat.le_refl _)) as Hlen. rewrite E, length_fmap in Hlen. rewrite E, lower_chars by done.
  split; [|by rewrite length_fmap]. apply Forall_fmap. eapply Forall_impl; [exact Hds|]. intros d Hd. destruct (lower_char d Hd) as (H1 & H2 & H3 & H4 & H5 & _).
  exact (conj H1 (conj H2 (conj H3 (conj H4 H5)))).
Qed.

Lemma letters_code l : Forall code_char l → letters l = l.
Proof.
  unfold letters. induction 1 as [|c l (_ & Hl & _ & H1 & H2) _ IH]; [done|]. cbn [map]. rewrite Hl, filter_cons_True, IH; [done|lia].
Qed.
Lemma letters_join parts : letters (join_parts parts) = concat (map letters parts).
Proof.
  induction parts as [|part [|part' parts] IH]; [done|cbn; by rewrite app_nil_r|].
  change (join_parts (part :: part' :: parts)) with (part ++ [45] ++ join_parts (part' :: parts)). by rewrite !letters_app, IH.
Qed.
Lemma format_parts_concat fuel l : (length l ≤ fuel)%nat → concat (format_parts fuel l) = l.
Proof.
  revert l. induction fuel as [|fuel IH]; intros l Hl; [by destruct l; [|cbn in Hl; lia]|]. cbn [format_parts]. destruct (4 <? length l)%nat eqn:E.
  - cbn [concat]. rewrite IH by (rewrite length_drop; lia). apply take_drop.
  - destruct l; [done|]. cbn. by rewrite app_nil_r.
Qed.
Lemma join_all (P : Z → Prop) parts : P 45 → Forall P (concat parts) → Forall P (join_parts parts).
Proof.
  intros H45. induction parts as [|part [|part' parts] IH]; [done|cbn; by rewrite app_nil_r|]. cbn [concat]. intros [H1 H2]%Forall_app.
  change (join_parts (part :: part' :: parts)) with (part ++ 45 :: join_parts (part' :: parts)). apply Forall_app. split; [done|]. constructor; [done|]. by apply IH.
Qed.
(** The form a code is shown in. *)
Lemma shown_code code : Forall code_char (bytes code) →
  ascii_bytes (bytes (formatMFARecoveryCode code)) ∧ forallb typable (bytes (formatMFARecoveryCode code)) = true ∧
  letters (bytes (formatMFARecoveryCode code)) = bytes code.
Proof.
  intros Hc. unfold formatMFARecoveryCode. set (parts := format_parts _ _).
  assert (Hcat : concat parts = bytes code) by (apply format_parts_concat; by rewrite length_bytes).
  assert (Hall : Forall (λ c, 0 ≤ c < 128 ∧ typable c = true) (join_parts parts)).
  { apply join_all; [by split|]. rewrite Hcat. eapply Forall_impl; [exact Hc|]. by intros c (? & _ & ? & _). }
  assert (Hb : bytes (string_of_bytes (join_parts parts)) = join_parts parts).
  { apply bytes_string_of_bytes. eapply Forall_impl; [exact Hall|]. intros c [? _]. unfold is_byte. lia. }
  rewrite Hb. split_and!.
  - eapply Forall_impl; [exact Hall|]. by intros c [? _].
  - apply forallb_forall. intros c Hin%list_elem_of_In. rewrite Forall_forall in Hall. by apply Hall.
  - rewrite letters_join. rewrite <-Hcat in Hc. rewrite <-Hcat. clear -Hc. induction parts as [|part parts IH]; [done|]. cbn in *.
    apply Forall_app in Hc as [H1 H2]. by rewrite letters_code, IH.
Qed.
Lemma normalize_shown code typed : Forall code_char (bytes code) → length (bytes code) = 24%nat → retyped (formatMFARecoveryCode code) typed →
  normalizeMFARecoveryCode typed = code.
Proof.
  intros Hc Hn (Ha & Ht & Hl). destruct (shown_code code Hc) as (_ & _ & Hs). rewrite Hs in Hl. rewrite normalize_typed by (done || by rewrite Hl).
  by rewrite Hl, string_of_bytes_bytes.
Qed.
Lemma generate_codes_spec count seen draws codes : Forall (λ random, length random = mfaRecoveryCodeBytes) draws →
  generate_codes count seen draws = Some codes →
  length codes = count ∧ NoDup codes ∧ (∀ code, code ∈ codes → code ∉ seen) ∧ Forall (λ code, ∃ random, length random = mfaRecoveryCodeBytes ∧ code = recovery_code random) codes.
Proof.
  revert seen draws codes. induction count as [|count IH]; intros seen draws codes Hd.
  { intros [= <-]. split_and!; [done|constructor|intros ? []%elem_of_nil|done]. }
  cbn [generate_codes]. induction Hd as [|random draws Hr Hd IHd]; [done|]. cbv zeta. destruct (bool_decide _) eqn:E; [exact IHd|]. to_prop.
  destruct (generate_codes count _ draws) as [codes'|] eqn:Eg; [|done]. intros [= <-].
  destruct (IH _ draws codes' Hd Eg) as (Hlen & Hnd & Hseen & Hall). split_and!.
  - cbn. by rewrite Hlen.
  - constructor; [|done]. intros Hin. apply (Hseen _ Hin). apply list_elem_of_here.
  - intros code [->|Hin]%elem_of_cons; [done|]. intros Hs. apply (Hseen code Hin). by apply list_elem_of_further.
  - constructor; [by exists random|done].
Qed.

(** C37. Recovery codes work the way they are shown.  The codes of a user are as many as asked
    for and all different; each is shown in a form the user can type back in either case, with
    hyphens and spaces left out or put anywhere, and what is typed hashes to the stored hash. *)
Theorem recovery_codes_roundtrip (count : nat) (draws : list (list Z)) (shown hashes : list string) :
  Forall (λ random, length random = mfaRecoveryCodeBytes) draws →
  generateMFARecoveryCodes count draws = Some (shown, hashes) →
  length shown = count ∧ NoDup shown ∧
  Forall2 (λ s h, retyped s s ∧ ∀ typed, retyped s typed → HashToken (normalizeMFARecoveryCode typed) = h) shown hashes.
Proof.
  intros Hd. unfold generateMFARecoveryCodes. destruct (generate_codes count [] draws) as [codes|] eqn:E; [|done]. intros [= <- <-].
  destruct (generate_codes_spec count [] draws codes Hd E) as (Hlen & Hnd & _ & Hall).
  assert (Hc : Forall (λ code, Forall code_char (bytes code) ∧ length (bytes code) = 24%nat) codes).
  { eapply Forall_impl; [exact Hall|]. intros code (random & Hr & ->). by apply recovery_code_chars. }
  assert (Hrefl : ∀ code, Forall code_char (bytes code) → retyped (formatMFARecoveryCode code) (formatMFARecoveryCode code)).
  { intros code Hcode. destruct (shown_code code Hcode) as (? & ? & _). by split_and!. }
  split_and!.
  - by rewrite length_map.
  - apply NoDup_fmap_2_strong; [|done]. intros c1 c2 H1 H2 Heq. rewrite Forall_forall in Hc. destruct (Hc c1 H1), (Hc c2 H2).
    rewrite <-(normalize_shown c1 (formatMFARecoveryCode c1)), <-(normalize_shown c2 (formatMFARecoveryCode c2)); auto. by rewrite Heq.
  - clear Hall Hnd Hlen E. induction Hc as [|code codes [Hcode Hn] _ IH]; [constructor|]. constructor; [|done]. split; [by apply Hrefl|].
    intros typed Ht. by rewrite (normalize_shown code typed).
Qed.

(** ** Samples *)

Lemma totp_verified_exactly_witness :
  in_window (UnixMilli 59000) 1 ∧ 0 < 1 ∧ computeTOTP (randomMFASecret (bytes "12345678901234567890")) 1 = Some "287082".
Proof.
  destruct (totp_verified_exactly (bytes "12345678901234567890") "287082" 0 (UnixMilli 59000) (bytes_is_byte _)) as [H _].
  apply (H 1). vm_compute. reflexivity.
Defined.
Lemma recovery_codes_roundtrip_witness :
  HashToken (normalizeMFARecoveryCode " GEZD GNBV gy3t-qojqgezdgnbv") = HashToken "gezdgnbvgy3tqojqgezdgnbv".
Proof.
  destruct (recovery_codes_roundtrip 1 [bytes "123456789012345"] ["gezd-gnbv-gy3t-qojq-gezd-gnbv"] [HashToken "gezdgnbvgy3tqojqgezdgnbv"])
    as (_ & _ & H); [by repeat constructor|vm_compute; reflexivity|]. inversion_clear H as [|? ? ? ? [_ Ht] _]. apply Ht.
  split_and!; [|vm_compute; reflexivity..]. apply (bool_decide_unpack _). vm_compute. exact I.
Defined.
