(* ===== verification/Mfa.v ===== *)
(** * Second factors

    Models [server/model/mfa.go]: the encrypted TOTP enrollment of a user and the hashed
    single-use recovery codes. *)

From S2P Require Import Prelude GoTime GoStrings Ident ModelError Actions Roles DesktopRelease Principal Session.

Definition MFAEncryptedSecretMaxLength : Z := 4096.
Definition MFAEncryptionKeyIDLength : Z := 32.
Definition MFARecoveryCodeMaxCount : nat := 20.

Inductive MFAState :=
  | MFAStatePending
  | MFAStateActive
  | MFAState_other (raw : string).
#[export] Instance MFAState_eq_dec : EqDecision MFAState.
Proof. solve_decision. Defined.

Record MFACredential := mkMFACredential {
  mc_ID : ID;
  mc_CreatedAt : Time;
  mc_UpdatedAt : Time;
  mc_ArchivedAt : OptionalTime;
  mc_UserID : ID;
  mc_State : MFAState;
  mc_EncryptedSecret : string;
  mc_EncryptionKeyID : string;
  mc_PendingExpiresAt : OptionalTime;
  mc_ActivatedAt : OptionalTime;
  mc_LastUsedTimeStep : Z }.
#[export] Instance MFACredential_eta : Eta MFACredential := λ m, mkMFACredential (mc_ID m) (mc_CreatedAt m) (mc_UpdatedAt m)
  (mc_ArchivedAt m) (mc_UserID m) (mc_State m) (mc_EncryptedSecret m) (mc_EncryptionKeyID m) (mc_PendingExpiresAt m)
  (mc_ActivatedAt m) (mc_LastUsedTimeStep m).

Definition MFACredential_PrepareCreate (m : MFACredential) (id : ID) (at_ : Time) : MFACredential :=
  let at_ := TimeUTC at_ in
  m <| mc_ID := id |>
    <| mc_CreatedAt := at_ |>
    <| mc_UpdatedAt := at_ |>
    <| mc_ArchivedAt := noTime |>
    <| mc_EncryptedSecret := SanitizeUnicode (mc_EncryptedSecret m) |>
    <| mc_EncryptionKeyID := SanitizeUnicode (mc_EncryptionKeyID m) |>
    <| mc_PendingExpiresAt := utc_if_valid (mc_PendingExpiresAt m) |>
    <| mc_ActivatedAt := utc_if_valid (mc_ActivatedAt m) |>.
Definition MFACredential_PrepareUpdate (m : MFACredential) (at_ : Time) : MFACredential :=
  m <| mc_UpdatedAt := TimeUTC at_ |>
    <| mc_EncryptedSecret := SanitizeUnicode (mc_EncryptedSecret m) |>
    <| mc_EncryptionKeyID := SanitizeUnicode (mc_EncryptionKeyID m) |>
    <| mc_PendingExpiresAt := utc_if_valid (mc_PendingExpiresAt m) |>
    <| mc_ActivatedAt := utc_if_valid (mc_ActivatedAt m) |>.

Definition mfa_error (field reason details : string) : error := invalidModelError "mfa_credential" field reason details.
(** [hex.EncodeToString] of what [hex.DecodeString] gives is the text in lower case. *)
Definition validKeyID (keyID : string) : bool :=
  (len keyID =? MFAEncryptionKeyIDLength) && hex_decodes keyID && (ToLower keyID ==? keyID).
Definition MFACredential_Validate (m : MFACredential) : result unit :=
  fail_if negb (ID_IsValid (mc_ID m)) with mfa_error "id" "must be a valid identifier" "" ;;
  let err field reason := mfa_error field reason ("id=" +:+ mc_ID m) in
  fail_if Time_IsZero (mc_CreatedAt m) || Time_IsZero (mc_UpdatedAt m) with err "created_at" "must be set" ;;
  fail_if Time_Before (mc_UpdatedAt m) (mc_CreatedAt m) with err "updated_at" "must not precede created_at" ;;
  fail_if negb (ID_IsValid (mc_UserID m)) with err "user_id" "must be a valid identifier" ;;
  fail_if (RuneCountInString (mc_EncryptedSecret m) =? 0) || (MFAEncryptedSecretMaxLength <? len (mc_EncryptedSecret m))
    with err "encrypted_secret" "has an invalid length" ;;
  fail_if negb (validKeyID (mc_EncryptionKeyID m)) with err "encryption_key_id" "has an invalid format" ;;
  fail_if ot_Valid (mc_ArchivedAt m) && Time_Before (ot_Time (mc_ArchivedAt m)) (mc_CreatedAt m)
    with err "archived_at" "must not precede created_at" ;;
  match mc_State m with
  | MFAStatePending =>
      fail_if negb (ot_Valid (mc_PendingExpiresAt m)) || negb (Time_After (ot_Time (mc_PendingExpiresAt m)) (mc_CreatedAt m))
              || ot_Valid (mc_ActivatedAt m) || negb (mc_LastUsedTimeStep m =? 0)
        with err "state" "has inconsistent pending fields" ;;
      Ok tt
  | MFAStateActive =>
      fail_if ot_Valid (mc_PendingExpiresAt m) || negb (ot_Valid (mc_ActivatedAt m))
              || Time_Before (ot_Time (mc_ActivatedAt m)) (mc_CreatedAt m) || (mc_LastUsedTimeStep m <=? 0)
        with err "state" "has inconsistent active fields" ;;
      Ok tt
  | MFAState_other _ => mthrow (err "state" "has an unknown value")
  end.
#[global] Arguments MFACredential_Validate : simpl never.

Definition IsPendingAt (m : option MFACredential) (now : Time) : bool :=
  match m with
  | None => false
  | Some m =>
      if ot_Valid (mc_ArchivedAt m) || (mc_State m !=? MFAStatePending) then false
      else ot_Valid (mc_PendingExpiresAt m) && Time_Before (TimeUTC now) (ot_Time (mc_PendingExpiresAt m))
  end.
Definition MFACredential_IsActive (m : option MFACredential) : bool :=
  match m with None => false | Some m => negb (ot_Valid (mc_ArchivedAt m)) && (mc_State m ==? MFAStateActive) end.

(** ** Recovery codes *)

Record MFARecoveryCode := mkMFARecoveryCode {
  rc_ID : ID;
  rc_CreatedAt : Time;
  rc_UpdatedAt : Time;
  rc_ArchivedAt : OptionalTime;
  rc_UserID : ID;
  rc_CodeHash : string;
  rc_ConsumedAt : OptionalTime }.
#[export] Instance MFARecoveryCode_eta : Eta MFARecoveryCode := λ c, mkMFARecoveryCode (rc_ID c) (rc_CreatedAt c) (rc_UpdatedAt c)
  (rc_ArchivedAt c) (rc_UserID c) (rc_CodeHash c) (rc_ConsumedAt c).

Definition MFARecoveryCode_PrepareCreate (c : MFARecoveryCode) (id : ID) (at_ : Time) : MFARecoveryCode :=
  let at_ := TimeUTC at_ in
  c <| rc_ID := id |>
    <| rc_CreatedAt := at_ |>
    <| rc_UpdatedAt := at_ |>
    <| rc_ArchivedAt := noTime |>
    <| rc_ConsumedAt := utc_if_valid (rc_ConsumedAt c) |>.
Definition MFARecoveryCode_PrepareUpdate (c : MFARecoveryCode) (at_ : Time) : MFARecoveryCode :=
  c <| rc_UpdatedAt := TimeUTC at_ |> <| rc_ConsumedAt := utc_if_valid (rc_ConsumedAt c) |>.
Definition MFARecoveryCode_Validate (c : MFARecoveryCode) : result unit :=
  let err field reason details := invalidModelError "mfa_recovery_code" field reason details in
  fail_if negb (ID_IsValid (rc_ID c)) with err "id" "must be a valid identifier" "" ;;
  let details := "id=" +:+ rc_ID c in
  fail_if Time_IsZero (rc_CreatedAt c) || Time_IsZero (rc_UpdatedAt c) with err "created_at" "must be set" details ;;
  fail_if Time_Before (rc_UpdatedAt c) (rc_CreatedAt c) with err "updated_at" "must not precede created_at" details ;;
  fail_if negb (ID_IsValid (rc_UserID c)) with err "user_id" "must be a valid identifier" details ;;
  fail_if negb (IsValidTokenHash (rc_CodeHash c)) with err "code_hash" "has an invalid format" details ;;
  fail_if ot_Valid (rc_ConsumedAt c) && Time_Before (ot_Time (rc_ConsumedAt c)) (rc_CreatedAt c)
    with err "consumed_at" "must not precede created_at" details ;;
  fail_if ot_Valid (rc_ArchivedAt c) && Time_Before (ot_Time (rc_ArchivedAt c)) (rc_CreatedAt c)
    with err "archived_at" "must not precede created_at" details ;;
  Ok tt.
#[global] Arguments MFARecoveryCode_Validate : simpl never.
