(* ===== verification/MfaStore.v ===== *)
(** * The MFA store

    Models [server/store/sqlstore/mfa_store.go], [mfa_transitions.go], [mfa_reset_store.go] and
    the key fence of [mfa_rekey_store.go]: enrollment, activation, the consumption of second
    factors, recovery codes, disabling, assisted reset and re-sealing, over the session tables
    they share with [SessionStore].  Every operation holds the per-user advisory locks for the
    length of its transaction.  Identifiers drawn and clocks read are arguments; so are the
    answers of the mail and audit tables. *)

From S2P Require Import Prelude GoTime GoStrings Ident ModelError Actions Roles DesktopRelease Principal Session Mfa MfaCodes SqlTx SessionStore.

(** ** Tables *)

(** The row of [mfa_key_state]. *)
Record MfaKeyState := mkMfaKeyState { mk_RequiredPrimaryKeyID : option string; mk_ActiveRekeyJobID : option ID }.
Record MfaTables := mkMfaTables {
  mf_sessions : SessionTables;
  mf_credentials : gmap ID MFACredential;
  mf_codes : gmap ID MFARecoveryCode;
  mf_key : MfaKeyState }.
#[export] Instance MfaTables_eta : Eta MfaTables := λ t, mkMfaTables (mf_sessions t) (mf_credentials t) (mf_codes t) (mf_key t).

Definition put_credentials (f : gmap ID MFACredential → gmap ID MFACredential) (t : MfaTables) : MfaTables :=
  t <| mf_credentials := f (mf_credentials t) |>.
Definition put_codes (f : gmap ID MFARecoveryCode → gmap ID MFARecoveryCode) (t : MfaTables) : MfaTables :=
  t <| mf_codes := f (mf_codes t) |>.
(** A body over the session tables alone. *)
Definition on_sessions {A} (m : Db A) : Tx MfaTables A := λ t,
  match m (mf_sessions t) with
  | Ok (sessions, a) => Ok (t <| mf_sessions := sessions |>, a)
  | Err e => Err e
  end.

Definition mfa_conflict (constraint : string) : error := StoreError ErrConflict "mfa_credential" constraint None.
Definition mfa_input (resource field : string) : error := StoreError ErrInvalidInput resource field None.
Definition ErrMFAReenrollmentRequired : error := SentinelError "MFA reenrollment required".

(** What the mail and audit tables answer: the notice is prepared before the transaction, its
    payload key is checked in it, and then the notice and the audit completion are written. *)
Record MfaAnswers := mkMfaAnswers {
  wa_prepared : result unit;
  wa_primary : result unit;
  wa_notice : result unit;
  wa_audit : result unit }.

(** Conditions the statements share. *)
Definition credential_of (userID : ID) (m : MFACredential) : bool := (mc_UserID m ==? userID) && negb (ot_Valid (mc_ArchivedAt m)).
Definition active_of (userID : ID) (m : MFACredential) : bool := credential_of userID m && (mc_State m ==? MFAStateActive).
Definition code_of (userID : ID) (c : MFARecoveryCode) : bool := (rc_UserID c ==? userID) && negb (ot_Valid (rc_ArchivedAt c)).
Definition archive_credential (at_ : Time) (m : MFACredential) : MFACredential :=
  m <| mc_UpdatedAt := greatest (mc_UpdatedAt m) at_ |> <| mc_ArchivedAt := mkOptionalTime at_ true |>.
Definition archive_code (at_ : Time) (c : MFARecoveryCode) : MFARecoveryCode :=
  c <| rc_UpdatedAt := greatest (rc_UpdatedAt c) at_ |> <| rc_ArchivedAt := mkOptionalTime at_ true |>.
Definition mfaCredentialRow_model (row : MFACredential) : result MFACredential :=
  _ ← validatePersistedModel "mfa_credential" MFACredential_Validate row; Ok row.

(** ** Inserts *)

Definition requireMFASecretPrimary (keyID : string) : Tx MfaTables unit :=
  refuse_if (λ t, match mk_RequiredPrimaryKeyID (mf_key t) with Some primary => primary !=? keyID | None => false end)
    (mfa_conflict "stale_primary_key").
Definition known_user (userID : ID) (t : MfaTables) : bool := bool_decide (is_Some (tb_users (mf_sessions t) !! userID)).
Definition insertMFACredential (m : MFACredential) : Tx MfaTables unit :=
  let refuse kind constraint := StoreError kind "mfa_credential" constraint (Some (SentinelError ("pq: " +:+ constraint))) in
  _ ← requireMFASecretPrimary (mc_EncryptionKeyID m);
  _ ← refuse_if (λ t, bool_decide (is_Some (mf_credentials t !! mc_ID m))) (refuse ErrConflict "mfa_credentials_pkey");
  _ ← refuse_if (λ t, negb (ot_Valid (mc_ArchivedAt m))
                      && negb (affected (credential_of (mc_UserID m)) (mf_credentials t) =? 0)%nat)
        (refuse ErrConflict "mfa_credentials_user_id_key");
  _ ← refuse_if (λ t, negb (known_user (mc_UserID m) t)) (refuse ErrReference "mfa_credentials_user_id_fkey");
  exec (put_credentials <[mc_ID m := m]>).
Definition insertMFARecoveryCode (c : MFARecoveryCode) : Tx MfaTables unit :=
  let refuse kind constraint := StoreError kind "mfa_recovery_code" constraint (Some (SentinelError ("pq: " +:+ constraint))) in
  _ ← refuse_if (λ t, bool_decide (is_Some (mf_codes t !! rc_ID c))) (refuse ErrConflict "mfa_recovery_codes_pkey");
  _ ← refuse_if (λ t, negb (affected (λ c', rc_CodeHash c' ==? rc_CodeHash c) (mf_codes t) =? 0)%nat)
        (refuse ErrConflict "mfa_recovery_codes_code_hash_key");
  _ ← refuse_if (λ t, negb (known_user (rc_UserID c) t)) (refuse ErrReference "mfa_recovery_codes_user_id_fkey");
  exec (put_codes <[rc_ID c := c]>).

(** The loop of [prepareMFARecoveryCodes] with its [seen] map; [ids] are the identifiers drawn. *)
Fixpoint prepare_codes (userID : ID) (seen : list string) (codes : list (option MFARecoveryCode)) (ids : list ID) (at_ : Time)
    : result (list MFARecoveryCode) :=
  match codes with
  | [] => Ok []
  | None :: _ => mthrow (mfa_input "mfa_recovery_code" "value")
  | Some code :: codes =>
      fail_if negb (ID_IsZero (rc_ID code)) with mfa_input "mfa_recovery_code" "value" ;;
      let candidate := MFARecoveryCode_PrepareCreate (code <| rc_UserID := userID |>) (default "" (head ids)) at_ in
      _ ← MFARecoveryCode_Validate candidate;
      fail_if bool_decide (rc_CodeHash candidate ∈ seen) with mfa_input "mfa_recovery_code" "code_hash" ;;
      prepared ← prepare_codes userID (rc_CodeHash candidate :: seen) codes (tail ids) at_;
      Ok (candidate :: prepared)
  end.
Definition prepareMFARecoveryCodes (userID : ID) (codes : list (option MFARecoveryCode)) (ids : list ID) (at_ : Time)
    : result (list MFARecoveryCode) :=
  fail_if negb (ID_IsValid userID) with mfa_input "mfa_recovery_code" "user_id" ;;
  prepare_codes userID [] codes ids at_.

(** ** The current session *)

Definition access_active (credentialID sessionID : ID) (at_ : Time) (db : SessionTables) : bool :=
  match tb_credentials db !! credentialID with
  | Some c => (cr_SessionID c ==? sessionID) && (cr_Kind c ==? SessionCredentialAccess) && credential_live c
              && Time_After (cr_ExpiresAt c) at_
  | None => false
  end.
(** [currentMFASession]: [clock] are the two readings of the database clock, before and after
    the row is locked. *)
Definition currentMFASession (clock : Time * Time) (principal : Principal) (recoveryAllowed : bool) (recentTTL : Z) (strong : bool)
    : Db (Session * Time) :=
  fail_if negb (is_ok (ValidateMFARecovery principal)) || (p_CredentialType principal !=? CredentialSessionAccess)
          || negb recoveryAllowed && p_MFARecoveryRequired principal
    with ErrMFAReenrollmentRequired ;;
  let at0 := fst clock in
  rows ← query (λ db, select (λ s, (ss_ID s ==? p_SessionID principal) && (ss_UserID s ==? p_UserID principal) && session_live s
                                   && Time_After (ss_IdleExpiresAt s) at0 && Time_After (ss_ExpiresAt s) at0
                                   && access_active (p_CredentialID principal) (ss_ID s) at0 db) (tb_sessions db));
  row ← check (get_row "session" (p_SessionID principal) rows);
  session ← check (sessionRow_model row);
  let at_ := TimeUTC (snd clock) in
  fail_if Session_IsExpiredAt (Some session) at_ with StoreError ErrConflict "session" "expired" None ;;
  credentialActive ← query (access_active (p_CredentialID principal) (ss_ID session) at_);
  fail_if negb credentialActive with StoreError ErrConflict "session" "credential" None ;;
  _ ← requireSessionAuthenticationGeneration session;
  fail_if negb (ss_AuthenticationGeneration session =? p_AuthenticationGeneration principal)
          || negb (Bool.eqb (ss_MFARecoveryRequired session) (p_MFARecoveryRequired principal))
          || negb recoveryAllowed && ss_MFARecoveryRequired session
    with ErrAuthenticationGenerationChanged ;;
  let current := principal <| p_AuthenticatedAt := ss_AuthenticatedAt session |> <| p_ReauthenticatedAt := ss_ReauthenticatedAt session |>
                           <| p_MFACompletedAt := ss_MFACompletedAt session |> <| p_AuthenticationStrength := ss_AuthenticationStrength session |> in
  fail_if (0 <? recentTTL) && negb (IsRecentlyAuthenticated current at_ recentTTL) || strong && negb (HasStrongAuthentication current)
    with StoreError ErrConflict "session" "assurance" None ;;
  mret (session, at_).

(** ** Enrollment *)

Record MFAPendingEnrollment := mkPendingEnrollment {
  pe_Principal : Principal;
  pe_Credential : option MFACredential;
  pe_Lifetime : Z;
  pe_RecentAuthenticationTTL : Z;
  pe_AuditEventID : ID }.
Definition pending_body (audit : result unit) (clock : Time * Time) (id : ID) (input : MFAPendingEnrollment) (credential : MFACredential)
    : Tx MfaTables MFACredential :=
  '(_, at_) ← on_sessions (currentMFASession clock (pe_Principal input) true (pe_RecentAuthenticationTTL input) false);
  _ ← refuse_if (λ t, negb (affected (active_of (p_UserID (pe_Principal input))) (mf_credentials t) =? 0)%nat)
        (mfa_conflict "mfa_already_enabled");
  let candidate := MFACredential_PrepareCreate
    (credential <| mc_PendingExpiresAt := OptionalTimeFrom (Time_Add at_ (pe_Lifetime input)) |>) id at_ in
  _ ← check (MFACredential_Validate candidate);
  _ ← exec (put_credentials (set_where (credential_of (mc_UserID candidate)) (archive_credential at_)));
  _ ← insertMFACredential candidate;
  _ ← check audit;
  mret candidate.
Definition SavePending (d : driver) (audit : result unit) (clock : Time * Time) (id : ID) (input : option MFAPendingEnrollment) (t : MfaTables)
    : MfaTables * result MFACredential :=
  let refused := (t, mthrow (mfa_input "mfa_credential" "enrollment")) in
  match input with
  | Some input =>
      match pe_Credential input with
      | Some credential =>
          if negb (ID_IsZero (mc_ID credential)) || (mc_UserID credential !=? p_UserID (pe_Principal input)) || (pe_Lifetime input <=? 0)
             || (Hour <? pe_Lifetime input) || (pe_RecentAuthenticationTTL input <=? 0) || negb (ID_IsValid (pe_AuditEventID input))
          then refused
          else runSQLTransaction d "MFA enrollment" (pending_body audit clock id input credential) t
      | None => refused
      end
  | None => refused
  end.

(** ** Consumption of a factor *)

Definition use_step (step : Z) (at_ : Time) (m : MFACredential) : MFACredential :=
  m <| mc_UpdatedAt := greatest (mc_UpdatedAt m) at_ |> <| mc_LastUsedTimeStep := step |>.
Definition usable_code (userID : ID) (hash : string) (c : MFARecoveryCode) : bool :=
  code_of userID c && (rc_CodeHash c ==? hash) && negb (ot_Valid (rc_ConsumedAt c)).
(** [UPDATE mfa_recovery_codes]: [consumedAt] may depend on the row. *)
Definition consume_code (consumedAt : MFARecoveryCode → Time) (userID : ID) (hash : string) (at_ : Time) : Tx MfaTables unit :=
  count ← query (λ t, affected (usable_code userID hash) (mf_codes t));
  _ ← exec (put_codes (set_where (usable_code userID hash)
             (λ c, c <| rc_UpdatedAt := greatest (rc_UpdatedAt c) at_ |> <| rc_ConsumedAt := mkOptionalTime (consumedAt c) true |>)));
  check (requireAffected count "mfa_recovery_code" "").
Definition consumeExactMFAFactor (userID credentialID : ID) (step : Z) (recoveryHash : string) (at_ : Time) : Tx MfaTables unit :=
  if 0 <? step then
    let currentStep := Z.quot (Time_Unix at_) 30 in
    fail_if (step <? currentStep - 1) || (currentStep + 1 <? step) with mfa_conflict "verification_expired" ;;
    let p m := (mc_ID m ==? credentialID) && active_of userID m && (mc_LastUsedTimeStep m <? step) in
    count ← query (λ t, affected p (mf_credentials t));
    _ ← exec (put_credentials (set_where p (use_step step at_)));
    check (requireAffected count "mfa_credential" credentialID)
  else
    rows ← query (λ t, select (λ m, (mc_ID m ==? credentialID) && active_of userID m) (mf_credentials t));
    _ ← check (get_row "mfa_credential" credentialID rows);
    consume_code (λ _, at_) userID recoveryHash at_.

(** ** Upgrade of a session *)

Definition upgrade_session (at_ : Time) (s : Session) : Session :=
  s <| ss_UpdatedAt := greatest (ss_UpdatedAt s) at_ |> <| ss_AuthenticationStrength := AuthenticationMultiFactor |>
    <| ss_MFACompletedAt := mkOptionalTime (greatest (ss_AuthenticatedAt s) at_) true |>.
Definition upgradeSessionAuthentication (sessionID userID : ID) (now : Time) : Db Session :=
  let at_ := TimeUTC now in
  let p s := (ss_ID s ==? sessionID) && active_session userID at_ s in
  rows ← query (λ db, upgrade_session at_ <$> select p (tb_sessions db));
  _ ← exec (update_sessions p (upgrade_session at_));
  row ← check (get_row "session" sessionID rows);
  check (sessionRow_model row).

Record MFASessionUpgrade := mkMFASessionUpgrade { su_SessionID : ID; su_UserID : ID; su_Now : Time }.
Definition UpgradeSession (d : driver) (input : MFASessionUpgrade) (t : MfaTables) : MfaTables * result (list string) :=
  let now := TimeUTC (su_Now input) in
  if negb (ID_IsValid (su_SessionID input)) || negb (ID_IsValid (su_UserID input)) || negb (Time_After now (UnixMilli 0))
  then (t, mthrow (mfa_input "session" "upgrade_mfa"))
  else runSQLTransaction d "session MFA upgrade" (
    _ ← on_sessions (upgradeSessionAuthentication (su_SessionID input) (su_UserID input) now);
    on_sessions (selectActiveAccessHashes (su_SessionID input))) t.

Record MFAChallenge := mkMFAChallenge {
  ch_Principal : Principal;
  ch_CredentialID : ID;
  ch_TimeStep : Z;
  ch_RecoveryCodeHash : string;
  ch_VerifiedAt : Time;
  ch_AuditEventID : ID }.
(** Exactly one factor is named, and a code by the hash of a token. *)
Definition one_factor (step : Z) (hash : string) : bool :=
  negb (Bool.eqb (step <=? 0) (hash ==? "")) && ((hash ==? "") || IsValidTokenHash hash).
Definition challenge_body (audit : result unit) (clock : Time * Time) (input : MFAChallenge) : Tx MfaTables (Session * list string) :=
  let principal := ch_Principal input in
  '(_, at_) ← on_sessions (currentMFASession clock principal false 0 false);
  fail_if Time_After (ch_VerifiedAt input) (Time_Add at_ Minute) || Time_Before (ch_VerifiedAt input) (Time_Add at_ (- Minute))
    with mfa_conflict "verification_expired" ;;
  _ ← consumeExactMFAFactor (p_UserID principal) (ch_CredentialID input) (ch_TimeStep input) (ch_RecoveryCodeHash input) at_;
  session ← on_sessions (upgradeSessionAuthentication (p_SessionID principal) (p_UserID principal) at_);
  hashes ← on_sessions (selectActiveAccessHashes (ss_ID session));
  _ ← check audit;
  mret (session, hashes).
Definition Challenge (d : driver) (audit : result unit) (clock : Time * Time) (input : option MFAChallenge) (t : MfaTables)
    : MfaTables * result (Session * list string) :=
  let refused := (t, mthrow (mfa_input "mfa_credential" "challenge")) in
  match input with
  | Some input =>
      if negb (ID_IsValid (ch_CredentialID input)) || negb (ID_IsValid (ch_AuditEventID input)) || Time_IsZero (ch_VerifiedAt input)
         || negb (one_factor (ch_TimeStep input) (ch_RecoveryCodeHash input))
      then refused
      else runSQLTransaction d "MFA challenge" (challenge_body audit clock input) t
  | None => refused
  end.

Record MFASecondFactorConsumption := mkConsumption { sf_UserID : ID; sf_TimeStep : Z; sf_RecoveryCodeHash : string; sf_Now : Time }.
Definition consumption_body (input : MFASecondFactorConsumption) : Tx MfaTables unit :=
  let at_ := TimeUTC (sf_Now input) in
  let userID := sf_UserID input in
  if 0 <? sf_TimeStep input then
    let p m := active_of userID m && (mc_LastUsedTimeStep m <? sf_TimeStep input) in
    count ← query (λ t, affected p (mf_credentials t));
    _ ← exec (put_credentials (set_where p (use_step (sf_TimeStep input) at_)));
    check (requireAffected count "mfa_credential" userID)
  else
    rows ← query (λ t, select (active_of userID) (mf_credentials t));
    _ ← check (get_row "mfa_credential" userID rows);
    consume_code (λ c, greatest (rc_CreatedAt c) at_) userID (sf_RecoveryCodeHash input) at_.
Definition ConsumeSecondFactor (d : driver) (input : MFASecondFactorConsumption) (t : MfaTables) : MfaTables * result unit :=
  if negb (ID_IsValid (sf_UserID input)) || Time_IsZero (sf_Now input) || negb (one_factor (sf_TimeStep input) (sf_RecoveryCodeHash input))
  then (t, mthrow (mfa_input "mfa_credential" "consume"))
  else runSQLTransaction d "MFA consumption" (consumption_body input) t.

(** ** Activation *)

Record MFAActivationMutation := mkActivation {
  ac_Principal : Principal;
  ac_RecentAuthenticationTTL : Z;
  ac_CredentialID : ID;
  ac_UserID : ID;
  ac_TimeStep : Z;
  ac_RecoveryCodes : list (option MFARecoveryCode);
  ac_SessionID : ID;
  ac_At : Time;
  ac_AuditEventID : ID;
  ac_AuditAt : Time }.
Definition activated_row (step : Z) (at_ : Time) (m : MFACredential) : MFACredential :=
  m <| mc_UpdatedAt := greatest (mc_UpdatedAt m) at_ |> <| mc_State := MFAStateActive |> <| mc_PendingExpiresAt := noTime |>
    <| mc_ActivatedAt := mkOptionalTime at_ true |> <| mc_LastUsedTimeStep := step |>.
Definition activatable (input : MFAActivationMutation) (at_ : Time) (m : MFACredential) : bool :=
  (mc_ID m ==? ac_CredentialID input) && credential_of (ac_UserID input) m && (mc_State m ==? MFAStatePending)
  && ot_Valid (mc_PendingExpiresAt m) && Time_After (ot_Time (mc_PendingExpiresAt m)) at_
  && Time_After (ot_Time (mc_PendingExpiresAt m)) (TimeUTC (ac_At input)).
Definition activatePendingMFACredential (input : MFAActivationMutation) (at_ : Time) : Tx MfaTables MFACredential :=
  rows ← query (λ t, activated_row (ac_TimeStep input) at_ <$> select (activatable input at_) (mf_credentials t));
  _ ← exec (put_credentials (set_where (activatable input at_) (activated_row (ac_TimeStep input) at_)));
  row ← check (get_row "mfa_credential" (ac_CredentialID input) rows);
  check (mfaCredentialRow_model row).
Definition replaceMFARecoveryCodes (userID : ID) (prepared : list MFARecoveryCode) (at_ : Time) : Tx MfaTables unit :=
  _ ← exec (put_codes (set_where (code_of userID) (archive_code at_)));
  each insertMFARecoveryCode prepared.
(** The restriction ends with the generation it belongs to. *)
Definition clear_recovery (userID sessionID : ID) (generation : Z) (at_ : Time) (db : SessionTables) : SessionTables :=
  update_sessions (λ s, ss_ID s ==? sessionID)
    (λ s, s <| ss_MFARecoveryRequired := false |> <| ss_UpdatedAt := greatest (ss_UpdatedAt s) at_ |>)
    (db <| tb_recovery := alter (λ r, if (mr_Generation r =? generation) && mr_ReenrollmentRequired r
                                      then mkUserMFARecovery (mr_UserID r) (mr_Generation r) (mr_ResetAt r) false at_ else r)
                            userID (tb_recovery db) |>).
Definition activateMFACredential (answers : MfaAnswers) (clock : Time * Time) (ids : list ID) (input : MFAActivationMutation)
    : Tx MfaTables (MFACredential * Session * list string) :=
  _ ← check (wa_primary answers);
  '(current, at_) ← on_sessions (currentMFASession clock (ac_Principal input) true (ac_RecentAuthenticationTTL input) false);
  fail_if (ss_ID current !=? ac_SessionID input) || (ss_UserID current !=? ac_UserID input) || (ac_RecentAuthenticationTTL input <=? 0)
    with mfa_input "mfa_credential" "principal" ;;
  let currentStep := Z.quot (Time_Unix at_) 30 in
  fail_if (ac_TimeStep input <? currentStep - 1) || (currentStep + 1 <? ac_TimeStep input) with mfa_conflict "verification_expired" ;;
  prepared ← check (prepareMFARecoveryCodes (ac_UserID input) (ac_RecoveryCodes input) ids at_);
  credential ← activatePendingMFACredential input at_;
  _ ← replaceMFARecoveryCodes (ac_UserID input) prepared at_;
  _ ← (if ss_MFARecoveryRequired current
       then on_sessions (exec (clear_recovery (ac_UserID input) (ac_SessionID input) (ss_AuthenticationGeneration current) at_))
       else mret tt);
  session ← on_sessions (upgradeSessionAuthentication (ac_SessionID input) (ac_UserID input) at_);
  hashes ← on_sessions (selectActiveAccessHashes (ac_SessionID input));
  _ ← check (wa_notice answers);
  _ ← check (wa_audit answers);
  mret (credential, session, hashes).
(** [ids]: the identifiers each preparation of the codes draws, before the transaction and in it. *)
Definition Activate (d : driver) (answers : MfaAnswers) (clock : Time * Time) (ids : list ID * list ID) (input : option MFAActivationMutation) (t : MfaTables)
    : MfaTables * result (MFACredential * Session * list string) :=
  match input with
  | None => (t, mthrow (mfa_input "mfa_credential" "activate"))
  | Some input =>
      let at_ := TimeUTC (ac_At input) in
      if negb (ID_IsValid (ac_CredentialID input)) || negb (ID_IsValid (ac_UserID input)) || negb (ID_IsValid (ac_SessionID input))
         || (ac_TimeStep input <=? 0) || negb (Time_After at_ (UnixMilli 0)) || negb (ID_IsValid (ac_AuditEventID input))
         || Time_IsZero (ac_AuditAt input) || (length (ac_RecoveryCodes input) =? 0)%nat
         || (MFARecoveryCodeMaxCount <? length (ac_RecoveryCodes input))%nat
      then (t, mthrow (mfa_input "mfa_credential" "activate"))
      else match prepareMFARecoveryCodes (ac_UserID input) (ac_RecoveryCodes input) (fst ids) at_, wa_prepared answers with
           | Err e, _ | Ok _, Err e => (t, Err e)
           | Ok _, Ok _ => runSQLTransaction d "MFA activation" (activateMFACredential answers clock (snd ids) input) t
           end
  end.

(** ** Replacement of the recovery codes *)

Record MFARecoveryCodesRegeneration := mkRegeneration {
  rg_Principal : Principal;
  rg_RecentAuthenticationTTL : Z;
  rg_UserID : ID;
  rg_RecoveryCodes : list (option MFARecoveryCode);
  rg_At : Time;
  rg_AuditEventID : ID;
  rg_AuditAt : Time }.
Definition regenerate_body (answers : MfaAnswers) (clock : Time * Time) (ids : list ID) (input : MFARecoveryCodesRegeneration) : Tx MfaTables unit :=
  _ ← check (wa_primary answers);
  '(current, at_) ← on_sessions (currentMFASession clock (rg_Principal input) false (rg_RecentAuthenticationTTL input) true);
  fail_if (ss_UserID current !=? rg_UserID input) || (rg_RecentAuthenticationTTL input <=? 0) with mfa_input "mfa_credential" "principal" ;;
  prepared ← check (prepareMFARecoveryCodes (rg_UserID input) (rg_RecoveryCodes input) ids at_);
  rows ← query (λ t, select (active_of (rg_UserID input)) (mf_credentials t));
  _ ← check (get_row "mfa_credential" (rg_UserID input) rows);
  _ ← replaceMFARecoveryCodes (rg_UserID input) prepared at_;
  _ ← check (wa_notice answers);
  check (wa_audit answers).
Definition ReplaceRecoveryCodes (d : driver) (answers : MfaAnswers) (clock : Time * Time) (ids : list ID * list ID)
    (input : option MFARecoveryCodesRegeneration) (t : MfaTables) : MfaTables * result unit :=
  let refused := (t, mthrow (mfa_input "mfa_recovery_code" "replace")) in
  match input with
  | None => refused
  | Some input =>
      if negb (ID_IsValid (rg_UserID input)) || Time_IsZero (rg_At input) || negb (ID_IsValid (rg_AuditEventID input))
         || Time_IsZero (rg_AuditAt input) || (length (rg_RecoveryCodes input) =? 0)%nat
         || (MFARecoveryCodeMaxCount <? length (rg_RecoveryCodes input))%nat
      then refused
      else match prepareMFARecoveryCodes (rg_UserID input) (rg_RecoveryCodes input) (fst ids) (TimeUTC (rg_At input)), wa_prepared answers with
           | Err e, _ | Ok _, Err e => (t, Err e)
           | Ok _, Ok _ => runSQLTransaction d "recovery-code replacement" (regenerate_body answers clock (snd ids) input) t
           end
  end.
Definition CountRecoveryCodes (userID : ID) (t : MfaTables) : result Z :=
  fail_if negb (ID_IsValid userID) with mfa_input "mfa_recovery_code" "user_id" ;;
  Ok (Z.of_nat (affected (λ c, code_of userID c && negb (ot_Valid (rc_ConsumedAt c))) (mf_codes t))).
Definition GetByUser (userID : ID) (t : MfaTables) : result MFACredential :=
  fail_if negb (ID_IsValid userID) with mfa_input "mfa_credential" "user_id" ;;
  row ← get_row "mfa_credential" userID (select (credential_of userID) (mf_credentials t));
  mfaCredentialRow_model row.

(** ** Disabling *)

Record MFADisablement := mkDisablement {
  di_Principal : Principal;
  di_RecentAuthenticationTTL : Z;
  di_UserID : ID;
  di_At : Time;
  di_AuditEventID : ID;
  di_AuditAt : Time }.
Definition downgrade_session (at_ : Time) (s : Session) : Session :=
  s <| ss_UpdatedAt := greatest (ss_UpdatedAt s) at_ |> <| ss_AuthenticationStrength := AuthenticationSingleFactor |>
    <| ss_MFACompletedAt := noTime |>.
Definition open_access (userID : ID) (db : SessionTables) (c : SessionCredential) : bool :=
  (cr_Kind c ==? SessionCredentialAccess) && credential_live c
  && match tb_sessions db !! cr_SessionID c with Some s => (ss_UserID s ==? userID) && session_live s | None => false end.
Definition disable_body (answers : MfaAnswers) (clock : Time * Time) (input : MFADisablement) : Tx MfaTables (list string) :=
  let userID := di_UserID input in
  _ ← check (wa_primary answers);
  '(current, at_) ← on_sessions (currentMFASession clock (di_Principal input) false (di_RecentAuthenticationTTL input) true);
  fail_if (ss_UserID current !=? userID) || (di_RecentAuthenticationTTL input <=? 0) with mfa_input "mfa_credential" "principal" ;;
  count ← query (λ t, affected (active_of userID) (mf_credentials t));
  _ ← exec (put_credentials (set_where (active_of userID) (archive_credential at_)));
  _ ← check (requireAffected count "mfa_credential" userID);
  _ ← exec (put_codes (set_where (code_of userID) (archive_code at_)));
  hashes ← query (λ t, cr_TokenHash <$> select (open_access userID (mf_sessions t)) (tb_credentials (mf_sessions t)));
  _ ← on_sessions (exec (update_sessions (λ s, (ss_UserID s ==? userID) && session_live s) (downgrade_session at_)));
  _ ← check (wa_notice answers);
  _ ← check (wa_audit answers);
  mret hashes.
Definition Disable (d : driver) (answers : MfaAnswers) (clock : Time * Time) (input : option MFADisablement) (t : MfaTables)
    : MfaTables * result (list string) :=
  match input with
  | Some input =>
      if negb (ID_IsValid (di_UserID input)) || Time_IsZero (di_At input) || negb (ID_IsValid (di_AuditEventID input)) || Time_IsZero (di_AuditAt input)
      then (t, mthrow (mfa_input "mfa_credential" "disable"))
      else match wa_prepared answers with
           | Err e => (t, Err e)
           | Ok _ => runSQLTransaction d "MFA disable" (disable_body answers clock input) t
           end
  | None => (t, mthrow (mfa_input "mfa_credential" "disable"))
  end.

(** ** Assisted reset *)

Record MFAResetResult := mkResetResult { rs_Recovery : UserMFARecovery; rs_Sessions : list Session; rs_Hashes : list string }.
Definition reset_recovery (userID : ID) (at_ : Time) (db : SessionTables) : SessionTables :=
  let row := match tb_recovery db !! userID with
             | None => mkUserMFARecovery userID 1 (mkOptionalTime at_ true) true at_
             | Some r => mkUserMFARecovery (mr_UserID r) (mr_Generation r + 1) (mkOptionalTime at_ true) true at_
             end in
  db <| tb_recovery := <[userID := row]> (tb_recovery db) |>.
(** [others]: what the tables of tokens, external logins and browser authentications answer. *)
Definition resetMFAUserAccess (others : result unit) (userID : ID) (at_ : Time) : Tx MfaTables MFAResetResult :=
  prior ← on_sessions (getMFARecoveryState userID);
  let at_ := TimeUTC at_ in
  fail_if ot_Valid (mr_ResetAt prior) && negb (Time_After at_ (ot_Time (mr_ResetAt prior)))
    with StoreError ErrConflict "user_mfa_recovery" "reset_time" None ;;
  _ ← exec (put_credentials (set_where (credential_of userID) (archive_credential at_)));
  _ ← exec (put_codes (set_where (code_of userID) (archive_code at_)));
  _ ← on_sessions (exec (reset_recovery userID at_));
  '(rows, hashes) ← on_sessions (revokeUserSessionsExceptAt userID "" at_ SessionRevocationMFAReset);
  sessions ← check (revokedSessionModelsAt rows at_ SessionRevocationMFAReset);
  _ ← check others;
  recovery ← on_sessions (getMFARecoveryState userID);
  mret (mkResetResult recovery sessions hashes).
Record MFAAssistedReset := mkAssistedReset {
  rt_Principal : Principal;
  rt_UserID : ID;
  rt_IdentityVerified : bool;
  rt_Reason : string;
  rt_VerificationReference : string;
  rt_RecentAuthenticationTTL : Z;
  rt_AuditEventID : ID }.
(** [authority]: whether the caller is a System Administrator and another one keeps a usable
    way to sign in. *)
Definition reset_body (authority others : result unit) (answers : MfaAnswers) (clock : Time * Time) (input : MFAAssistedReset)
    : Tx MfaTables MFAResetResult :=
  _ ← check (wa_primary answers);
  '(_, at_) ← on_sessions (currentMFASession clock (rt_Principal input) false (rt_RecentAuthenticationTTL input) true);
  _ ← check authority;
  result ← resetMFAUserAccess others (rt_UserID input) at_;
  _ ← check (wa_notice answers);
  _ ← check (wa_audit answers);
  mret result.
Definition Reset (d : driver) (authority others : result unit) (answers : MfaAnswers) (clock : Time * Time) (input : option MFAAssistedReset) (t : MfaTables)
    : MfaTables * result MFAResetResult :=
  match input with
  | Some input =>
      if negb (is_ok (Principal_Validate (rt_Principal input))) || (p_CredentialType (rt_Principal input) !=? CredentialSessionAccess)
         || (rt_UserID input ==? p_UserID (rt_Principal input)) || negb (ID_IsValid (rt_UserID input)) || negb (rt_IdentityVerified input)
         || (TrimSpace (rt_Reason input) ==? "") || (512 <? RuneCountInString (rt_Reason input))
         || (TrimSpace (rt_VerificationReference input) ==? "") || (128 <? RuneCountInString (rt_VerificationReference input))
         || (rt_RecentAuthenticationTTL input <=? 0) || negb (ID_IsValid (rt_AuditEventID input))
      then (t, mthrow (mfa_input "user_mfa_recovery" "reset"))
      else match wa_prepared answers with
           | Err e => (t, Err e)
           | Ok _ => runSQLTransaction d "administrator MFA reset" (reset_body authority others answers clock input) t
           end
  | None => (t, mthrow (mfa_input "user_mfa_recovery" "reset"))
  end.

(** ** Re-sealing *)

Definition requireMFARekeyFence (jobID : ID) (primaryKeyID : string) : Tx MfaTables unit :=
  refuse_if (λ t, negb ((mk_ActiveRekeyJobID (mf_key t) ==? Some jobID) && (mk_RequiredPrimaryKeyID (mf_key t) ==? Some primaryKeyID)))
    (StoreError ErrConflict "mfa_rekey" "stale_fence" None).
Definition validMFAKeyID (value : string) : bool := (len value =? 32) && hex_decodes value && (ToLower value ==? value).
Record MFARekeyReplacement := mkRekeyReplacement {
  rk_JobID : ID;
  rk_CredentialID : ID;
  rk_ExpectedKeyID : string;
  rk_PrimaryKeyID : string;
  rk_EncryptedSecret : string }.
Definition rekey_body (input : MFARekeyReplacement) : Tx MfaTables bool :=
  let p m := (mc_ID m ==? rk_CredentialID input) && (mc_EncryptionKeyID m ==? rk_ExpectedKeyID input) && negb (ot_Valid (mc_ArchivedAt m)) in
  _ ← requireMFARekeyFence (rk_JobID input) (rk_PrimaryKeyID input);
  count ← query (λ t, affected p (mf_credentials t));
  _ ← exec (put_credentials (set_where p
             (λ m, m <| mc_EncryptedSecret := rk_EncryptedSecret input |> <| mc_EncryptionKeyID := rk_PrimaryKeyID input |>)));
  fail_if (1 <? count)%nat with invalidPersistedState "mfa_rekey" "replacement" (SentinelError "nil") ;;
  mret (count =? 1)%nat.
Definition ReplaceRekeyTarget (d : driver) (input : option MFARekeyReplacement) (t : MfaTables) : MfaTables * result bool :=
  match input with
  | Some input =>
      if negb (ID_IsValid (rk_JobID input)) || negb (ID_IsValid (rk_CredentialID input)) || negb (validMFAKeyID (rk_ExpectedKeyID input))
         || negb (validMFAKeyID (rk_PrimaryKeyID input)) || (rk_ExpectedKeyID input ==? rk_PrimaryKeyID input)
         || (rk_EncryptedSecret input ==? "") || (4096 <? len (rk_EncryptedSecret input))
      then (t, mthrow (mfa_input "mfa_rekey" "replacement"))
      else executeSQLTransaction d (rawSQLTransactionPolicy true (λ _, WrappedError "commit MFA rekey target")) (rekey_body input) t
  | None => (t, mthrow (mfa_input "mfa_rekey" "replacement"))
  end.
Record MFARekeyProof := mkRekeyProof {
  rp_PrimaryKeyID : string;
  rp_RetiringKeyID : string;
  rp_NonPrimaryReferences : Z;
  rp_RetiringReferences : Z;
  rp_RetirementSafe : bool }.
Definition sealed_with (keyID : string) (m : MFACredential) : bool := negb (ot_Valid (mc_ArchivedAt m)) && (mc_EncryptionKeyID m ==? keyID).
Definition not_sealed_with (keyID : string) (m : MFACredential) : bool := negb (ot_Valid (mc_ArchivedAt m)) && (mc_EncryptionKeyID m !=? keyID).
(** One statement reads the fence and the counts. *)
Definition ProveRekey (jobID : ID) (primaryKeyID retiringKeyID : string) (t : MfaTables) : result MFARekeyProof :=
  fail_if negb (ID_IsValid jobID) || negb (validMFAKeyID primaryKeyID) || negb (validMFAKeyID retiringKeyID) || (primaryKeyID ==? retiringKeyID)
    with mfa_input "mfa_rekey" "proof" ;;
  '(_, _) ← requireMFARekeyFence jobID primaryKeyID t;
  let retiring := affected (sealed_with retiringKeyID) (mf_credentials t) in
  Ok (mkRekeyProof primaryKeyID retiringKeyID (Z.of_nat (affected (not_sealed_with primaryKeyID) (mf_credentials t)))
        (Z.of_nat retiring) (retiring =? 0)%nat).
