(* ===== verification/MfaSafety.v ===== *)
(** * Safety of second factors

    In every history of the MFA store a second factor is accepted once, and the key a rekey
    proved retired stays unused. *)

From S2P Require Import Prelude GoTime GoStrings Ident ModelError Actions Roles DesktopRelease Principal Session Mfa MfaCodes SqlTx SessionStore MfaStore.

(** ** The invariant *)

Definition live (m : MFACredential) : Prop := ot_Valid (mc_ArchivedAt m) = false.
Record mfa_inv (t : MfaTables) : Prop := {
  mi_credential : ∀ k m, mf_credentials t !! k = Some m → mc_ID m = k ∧ (mc_State m = MFAStatePending → mc_LastUsedTimeStep m = 0);
  mi_unique : ∀ k m k' m', mf_credentials t !! k = Some m → mf_credentials t !! k' = Some m' → live m → live m' →
    mc_UserID m = mc_UserID m' → k = k';
  mi_hash : ∀ k c k' c', mf_codes t !! k = Some c → mf_codes t !! k' = Some c' → rc_CodeHash c = rc_CodeHash c' → k = k' }.

(** What no operation undoes: the last step used, the end of a row and the use of a code. *)
Definition credential_advances (m m' : MFACredential) : Prop :=
  mc_UserID m' = mc_UserID m ∧ mc_LastUsedTimeStep m ≤ mc_LastUsedTimeStep m' ∧ (¬ live m → ¬ live m').
Definition code_advances (c c' : MFARecoveryCode) : Prop :=
  rc_CodeHash c' = rc_CodeHash c ∧ (ot_Valid (rc_ConsumedAt c) = true → ot_Valid (rc_ConsumedAt c') = true) ∧
  (ot_Valid (rc_ArchivedAt c) = true → ot_Valid (rc_ArchivedAt c') = true).
Definition advances (t t' : MfaTables) : Prop :=
  (∀ k m, mf_credentials t !! k = Some m → ∃ m', mf_credentials t' !! k = Some m' ∧ credential_advances m m') ∧
  (∀ k c, mf_codes t !! k = Some c → ∃ c', mf_codes t' !! k = Some c' ∧ code_advances c c').
#[export] Instance advances_refl : Reflexive advances.
Proof. intros t. split; intros k x Hk; exists x; by split_and!. Qed.
#[export] Instance advances_trans : Transitive advances.
Proof.
  intros t1 t2 t3 [Hc1 Hr1] [Hc2 Hr2]. split.
  - intros k m1 H1. destruct (Hc1 k m1 H1) as (m2 & H2 & E1 & L1 & A1). destruct (Hc2 k m2 H2) as (m3 & H3 & E2 & L2 & A2).
    exists m3. split; [done|]. unfold credential_advances. split_and!; [congruence|lia|auto].
  - intros k c1 H1. destruct (Hr1 k c1 H1) as (c2 & H2 & E1 & L1 & A1). destruct (Hr2 k c2 H2) as (c3 & H3 & E2 & L2 & A2).
    exists c3. split; [done|]. unfold code_advances. split_and!; [congruence|auto|auto].
Qed.

(** A key no live credential is sealed with, while the fence requires another one. *)
Definition fenced_off (keyID : string) (key : MfaKeyState) : Prop := ∃ primary, mk_RequiredPrimaryKeyID key = Some primary ∧ primary ≠ keyID.
Definition retired (keyID : string) (t : MfaTables) : Prop :=
  fenced_off keyID (mf_key t) ∧ ∀ k m, mf_credentials t !! k = Some m → live m → mc_EncryptionKeyID m ≠ keyID.

(** A body that keeps the invariant and the retired keys, and only advances. *)
Definition improves (t t' : MfaTables) : Prop := mfa_inv t' ∧ advances t t' ∧ ∀ keyID, retired keyID t → retired keyID t'.
Lemma improves_refl t : mfa_inv t → improves t t.
Proof. intros Hinv. split; [done|]. by split; [reflexivity|]. Qed.
Lemma improves_trans t1 t2 t3 : improves t1 t2 → improves t2 t3 → improves t1 t3.
Proof. intros (_ & A1 & R1) (I2 & A2 & R2). split; [done|]. split; [by trans t2|auto]. Qed.
Definition kept {A} (m : Tx MfaTables A) : Prop := ∀ t t' a, mfa_inv t → m t = Ok (t', a) → improves t t'.
Lemma kept_bind {A B} (m : Tx MfaTables A) (k : A → Tx MfaTables B) : kept m → (∀ a, kept (k a)) → kept (m ≫= k).
Proof.
  intros Hm Hk t t' b Hinv H. apply tx_bind_ok in H as (t1 & a & H1 & H2). pose proof (Hm t t1 a Hinv H1) as Hi1.
  eapply improves_trans; [done|]. apply (Hk a t1 t' b); [apply Hi1|done].
Qed.
Lemma kept_same {A} (m : Tx MfaTables A) : (∀ t t' a, m t = Ok (t', a) →
  mf_credentials t' = mf_credentials t ∧ mf_codes t' = mf_codes t ∧ mf_key t' = mf_key t) → kept m.
Proof.
  intros Hm t t' a [Hc Hu Hh] H. destruct (Hm t t' a H) as (Ec & Er & Ek). split; [by split; rewrite ?Ec, ?Er|].
  split; [split; rewrite ?Ec, ?Er; intros k x Hk; exists x; by split_and!|]. intros keyID. unfold retired. by rewrite Ec, Ek.
Qed.
Lemma kept_query {A} (f : MfaTables → A) : kept (query f).
Proof. apply kept_same. by intros t t' a [= <- _]. Qed.
Lemma kept_check {A} (r : result A) : kept (check r).
Proof. apply kept_same. intros t t' a. unfold check. destruct r; [by intros [= <- _]|done]. Qed.
Lemma kept_checked {A B} (r : result A) (k : A → Tx MfaTables B) : (∀ a, r = Ok a → kept (k a)) → kept (check r ≫= k).
Proof. intros Hk t t' b Hinv (a & Hr & H)%tx_check. by eapply (Hk a Hr). Qed.
Lemma kept_ret {A} (a : A) : kept (mret a).
Proof. apply kept_same. by intros t t' b [= <- _]. Qed.
Lemma kept_throw {A} (e : error) : kept (mthrow e : Tx MfaTables A).
Proof. by intros t t' a _ [=]. Qed.
Lemma kept_refuse f e : kept (refuse_if f e).
Proof. apply kept_same. intros t t' a. unfold refuse_if. destruct (f t); [done|by intros [= <- _]]. Qed.
Lemma kept_sessions {A} (m : Db A) : kept (on_sessions m).
Proof. apply kept_same. intros t t' a. unfold on_sessions. destruct (m _) as [[s x]|]; [by intros [= <- _]|done]. Qed.
Lemma kept_if {A} (c : bool) (m m' : Tx MfaTables A) : kept m → kept m' → kept (if c then m else m').
Proof. by destruct c. Qed.
Lemma kept_each {A} (f : A → Tx MfaTables unit) l : (∀ a, kept (f a)) → kept (each f l).
Proof. intros Hf. induction l as [|a l IH]; cbn; [apply kept_ret|]. apply kept_bind; [apply Hf|done]. Qed.

(** Updates of rows. *)
Lemma set_credentials p f t : (∀ m, p m = true → mc_ID (f m) = mc_ID m ∧ (mc_State (f m) = MFAStatePending → mc_LastUsedTimeStep m = 0 → mc_LastUsedTimeStep (f m) = 0) ∧
    (mc_State (f m) = MFAStatePending → mc_State m = MFAStatePending) ∧
    mc_UserID (f m) = mc_UserID m ∧ (¬ live m → ¬ live (f m)) ∧
    ((mc_State m = MFAStatePending → mc_LastUsedTimeStep m = 0) → mc_LastUsedTimeStep m ≤ mc_LastUsedTimeStep (f m))) →
  (∀ m keyID, p m = true → fenced_off keyID (mf_key t) → mc_EncryptionKeyID (f m) = keyID → mc_EncryptionKeyID m = keyID) →
  mfa_inv t → improves t (put_credentials (set_where p f) t).
Proof.
  intros Hf Hkey [Hc Hu Hh].
  assert (Hlive : ∀ m, live (if p m then f m else m) → live m).
  { intros m. destruct (p m) eqn:E; [|done]. destruct (Hf m E) as (_ & _ & _ & _ & Ha & _). unfold live in *. destruct (ot_Valid (mc_ArchivedAt m)); [|done].
    intros H. by destruct Ha. }
  assert (Huser : ∀ m, mc_UserID (if p m then f m else m) = mc_UserID m) by (intros m; destruct (p m) eqn:E; [by apply Hf|done]).
  split; [split|split; [split|]]; cbn.
  - intros k m' (m & Hk & ->)%lookup_set_where. destruct (Hc k m Hk) as [Hid Hp]. destruct (p m) eqn:E; [|done].
    destruct (Hf m E) as (-> & H0 & Hs & _). split; [done|]. auto.
  - intros k m' k' n' (m & Hk & ->)%lookup_set_where (n & Hk' & ->)%lookup_set_where Hl Hl' He. rewrite !Huser in He. by apply (Hu k m k' n Hk Hk'); auto.
  - exact Hh.
  - intros k m Hk. destruct (Hc k m Hk) as [_ Hp]. exists (if p m then f m else m). split; [apply lookup_set_where; eauto|].
    destruct (p m) eqn:E; [|by split_and!]. destruct (Hf m E) as (_ & _ & _ & Hu' & Ha & Hle). split_and!; auto.
  - intros k c Hk. exists c. by split_and!.
  - intros keyID [Hfence Hclean]. split; [done|]. intros k m' (m & Hk & ->)%lookup_set_where Hl E. apply Hlive in Hl.
    apply (Hclean k m Hk Hl). destruct (p m) eqn:Ep; [by eapply Hkey|done].
Qed.
Lemma kept_set_credentials p f : (∀ m, p m = true → mc_ID (f m) = mc_ID m ∧ (mc_State (f m) = MFAStatePending → mc_LastUsedTimeStep m = 0 → mc_LastUsedTimeStep (f m) = 0) ∧
    (mc_State (f m) = MFAStatePending → mc_State m = MFAStatePending) ∧
    mc_UserID (f m) = mc_UserID m ∧ (¬ live m → ¬ live (f m)) ∧
    ((mc_State m = MFAStatePending → mc_LastUsedTimeStep m = 0) → mc_LastUsedTimeStep m ≤ mc_LastUsedTimeStep (f m))) →
  (∀ m, mc_EncryptionKeyID (f m) = mc_EncryptionKeyID m) → kept (exec (put_credentials (set_where p f))).
Proof. intros Hf Hkey t t' [] Hinv [= <-]. apply set_credentials; [done| |done]. intros m keyID _ _ <-. by rewrite Hkey. Qed.
Lemma kept_set_codes p f : (∀ c, p c = true → code_advances c (f c)) → kept (exec (put_codes (set_where p f))).
Proof.
  intros Hf t t' [] [Hc Hu Hh] [= <-]. split; [split|split; [split|]]; cbn.
  - exact Hc.
  - exact Hu.
  - intros k c' k' e' (c & Hk & ->)%lookup_set_where (e & Hk' & ->)%lookup_set_where He. apply (Hh k c k' e Hk Hk').
    destruct (p c) eqn:E, (p e) eqn:E'; try (destruct (Hf c E) as (<- & _)); try (destruct (Hf e E') as (<- & _)); done.
  - intros k m Hk. exists m. by split_and!.
  - intros k c Hk. exists (if p c then f c else c). split; [apply lookup_set_where; eauto|]. destruct (p c) eqn:E; [by apply Hf|by split_and!].
  - done.
Qed.

Lemma kept_insert_credential m : mc_State m = MFAStatePending → mc_LastUsedTimeStep m = 0 → kept (insertMFACredential m).
Proof.
  intros Hs Hl t t' [] [Hc Hu Hh] H. unfold insertMFACredential, requireMFASecretPrimary in H.
  apply tx_bind_ok in H as (? & [] & [Hprimary [= ->]]%refuse_if_ok & H). apply tx_bind_ok in H as (? & [] & [Hid [= ->]]%refuse_if_ok & H).
  apply tx_bind_ok in H as (? & [] & [Hown [= ->]]%refuse_if_ok & H). apply tx_bind_ok in H as (? & [] & [_ [= ->]]%refuse_if_ok & H).
  apply exec_ok in H as [= ->]. apply bool_decide_eq_false, eq_None_not_Some in Hid.
  assert (Hnew : live m → ∀ k n, mf_credentials t !! k = Some n → live n → mc_UserID n ≠ mc_UserID m).
  { intros Hm k n Hk Hn E. unfold live in *. rewrite Hm in Hown. cbn in Hown. apply negb_false_iff, Nat.eqb_eq, length_zero_iff_nil in Hown.
    rewrite select_nil in Hown. specialize (Hown k n Hk). unfold credential_of in Hown. rewrite E, bool_decide_true, Hn in Hown; done. }
  split; [split|split; [split|]]; cbn.
  - intros k n [[<- <-]|[_ Hk]]%lookup_insert_Some; [done|by apply Hc].
  - intros k n k' n' [[<- <-]|[_ Hk]]%lookup_insert_Some [[<- <-]|[_ Hk']]%lookup_insert_Some Hl1 Hl2 E; [done|..].
    + by destruct (Hnew Hl1 k' n' Hk' Hl2).
    + by destruct (Hnew Hl2 k n Hk Hl1).
    + by apply (Hu k n k' n').
  - exact Hh.
  - intros k n Hk. exists n. split; [|by split_and!]. rewrite lookup_insert_ne; [done|]. congruence.
  - intros k c Hk. exists c. by split_and!.
  - intros keyID [(primary & Hf & Hne) Hclean]. split; [by exists primary|]. cbn. intros k n [[<- <-]|[_ Hk]]%lookup_insert_Some Hn; [|by apply (Hclean k n)].
    rewrite Hf in Hprimary. to_prop. congruence.
Qed.
Lemma kept_insert_code c : kept (insertMFARecoveryCode c).
Proof.
  intros t t' [] [Hc Hu Hh] H. unfold insertMFARecoveryCode in H.
  apply tx_bind_ok in H as (? & [] & [Hid [= ->]]%refuse_if_ok & H). apply tx_bind_ok in H as (? & [] & [Hnew [= ->]]%refuse_if_ok & H).
  apply tx_bind_ok in H as (? & [] & [_ [= ->]]%refuse_if_ok & H). apply exec_ok in H as [= ->]. apply bool_decide_eq_false, eq_None_not_Some in Hid.
  assert (Hfresh : ∀ k e, mf_codes t !! k = Some e → rc_CodeHash e ≠ rc_CodeHash c).
  { intros k e Hk E. apply negb_false_iff, Nat.eqb_eq, length_zero_iff_nil in Hnew. rewrite select_nil in Hnew. specialize (Hnew k e Hk).
    by rewrite bool_decide_true in Hnew. }
  split; [split|split; [split|]]; cbn.
  - exact Hc.
  - exact Hu.
  - intros k e k' e' [[<- <-]|[_ Hk]]%lookup_insert_Some [[<- <-]|[_ Hk']]%lookup_insert_Some E; [done|..].
    + by destruct (Hfresh k' e' Hk').
    + by destruct (Hfresh k e Hk).
    + by apply (Hh k e k' e').
  - intros k m Hk. exists m. by split_and!.
  - intros k e Hk. exists e. split; [|by split_and!]. rewrite lookup_insert_ne; [done|]. congruence.
  - done.
Qed.

(** The bodies, piece by piece. *)
Create HintDb kept.
#[export] Hint Resolve kept_ret kept_throw kept_query kept_check kept_refuse kept_sessions kept_insert_code : kept.
Ltac keep := repeat lazymatch goal with
  | |- kept (mbind _ _) => apply kept_bind; [|intros ?]
  | |- kept (match ?x with pair _ _ => _ end) => destruct x
  | |- kept (if _ then _ else _) => apply kept_if
  | |- kept (each _ _) => apply kept_each; intros ?
  | |- kept (let _ := _ in _) => cbv zeta
  | |- kept _ => solve [eauto with kept nocore]
  end.

Lemma kept_archive_credentials p at_ : kept (exec (put_credentials (set_where p (archive_credential at_)))).
Proof. apply kept_set_credentials; [|done]. intros m _. cbn. by split_and!. Qed.
Lemma kept_archive_codes p at_ : kept (exec (put_codes (set_where p (archive_code at_)))).
Proof. apply kept_set_codes. intros c _. by split_and!. Qed.
#[export] Hint Resolve kept_archive_credentials kept_archive_codes : kept.
Lemma kept_use_step p step at_ : (∀ m, p m = true → mc_LastUsedTimeStep m < step ∧ mc_State m = MFAStateActive) →
  kept (exec (put_credentials (set_where p (use_step step at_)))).
Proof.
  intros Hp. apply kept_set_credentials; [|done]. intros m Hm. destruct (Hp m Hm) as [Hlt Hs]. cbn. rewrite Hs. split_and!; try done. lia.
Qed.
Lemma kept_consume_code consumedAt userID hash at_ : kept (consume_code consumedAt userID hash at_).
Proof. unfold consume_code. apply kept_bind; [keep|intros ?]. apply kept_bind; [|intros ?; keep]. apply kept_set_codes. intros c _. by split_and!. Qed.
#[export] Hint Resolve kept_consume_code : kept.
Lemma active_of_active userID m : active_of userID m = true → mc_State m = MFAStateActive ∧ live m ∧ mc_UserID m = userID.
Proof. unfold active_of, credential_of, live. rewrite !andb_true_iff. to_prop. intuition. Qed.
Lemma kept_exact userID credentialID step hash at_ : kept (consumeExactMFAFactor userID credentialID step hash at_).
Proof.
  unfold consumeExactMFAFactor. apply kept_if; [|keep]. cbv zeta. apply kept_if; [keep|]. apply kept_bind; [keep|intros ?].
  apply kept_bind; [|intros ?; keep]. apply kept_use_step. intros m. rewrite !andb_true_iff.
  intros [[_ [? _]%active_of_active] ?]. split; [lia|done].
Qed.
Lemma kept_consumption input : kept (consumption_body input).
Proof.
  unfold consumption_body. cbv zeta. apply kept_if; [|keep]. apply kept_bind; [keep|intros ?]. apply kept_bind; [|intros ?; keep].
  apply kept_use_step. intros m. rewrite andb_true_iff.
  intros [[? _]%active_of_active ?]. split; [lia|done].
Qed.
#[export] Hint Resolve kept_exact kept_consumption : kept.
Lemma kept_challenge audit clock input : kept (challenge_body audit clock input).
Proof. unfold challenge_body. keep. Qed.
Lemma pending_candidate m : MFACredential_Validate m = Ok tt → ot_Valid (mc_PendingExpiresAt m) = true →
  mc_State m = MFAStatePending ∧ mc_LastUsedTimeStep m = 0.
Proof.
  unfold MFACredential_Validate. rewrite !ok_fail_if. intros (_ & _ & _ & _ & _ & _ & _ & H) Hp. destruct (mc_State m); [|..].
  - apply ok_fail_if in H as [H _]. rewrite !orb_false_iff in H. to_prop. split; [done|]. destruct_and!. lia.
  - apply ok_fail_if in H as [H _]. by rewrite Hp in H.
  - done.
Qed.
Lemma kept_pending audit clock id input credential : kept (pending_body audit clock id input credential).
Proof.
  unfold pending_body. apply kept_bind; [apply kept_sessions|intros [s at_]]. apply kept_bind; [apply kept_refuse|intros []]. cbv zeta.
  apply kept_checked. intros [] Hv. apply pending_candidate in Hv as [Hs Hl]; [|done].
  apply kept_bind; [apply kept_archive_credentials|intros _]. apply kept_bind; [by apply kept_insert_credential|intros _]. keep.
Qed.

Lemma kept_activate_row input at_ : 0 < ac_TimeStep input → kept (activatePendingMFACredential input at_).
Proof.
  intros Hpos. unfold activatePendingMFACredential. apply kept_bind; [keep|intros ?]. apply kept_bind; [|intros ?; keep].
  apply kept_set_credentials; [|done]. intros m Hm. unfold activatable in Hm. rewrite !andb_true_iff in Hm. to_prop. cbn. split_and!; try done.
  intros H. rewrite H; [lia|]. naive_solver.
Qed.
Lemma kept_replace userID prepared at_ : kept (replaceMFARecoveryCodes userID prepared at_).
Proof. unfold replaceMFARecoveryCodes. keep. Qed.
#[export] Hint Resolve kept_activate_row kept_replace kept_pending kept_challenge : kept.
Lemma kept_activate answers clock ids input : 0 < ac_TimeStep input → kept (activateMFACredential answers clock ids input).
Proof. intros Hpos. unfold activateMFACredential. keep. Qed.
Lemma kept_regenerate answers clock ids input : kept (regenerate_body answers clock ids input).
Proof. unfold regenerate_body. keep. Qed.
Lemma kept_disable answers clock input : kept (disable_body answers clock input).
Proof. unfold disable_body. keep. Qed.
Lemma kept_access others userID at_ : kept (resetMFAUserAccess others userID at_).
Proof. unfold resetMFAUserAccess. keep. Qed.
#[export] Hint Resolve kept_access : kept.
Lemma kept_reset authority others answers clock input : kept (reset_body authority others answers clock input).
Proof. unfold reset_body. keep. Qed.
Lemma kept_rekey input : kept (rekey_body input).
Proof.
  intros t t' a Hinv H. unfold rekey_body, requireMFARekeyFence in H. cbv zeta in H. apply tx_bind_ok in H as (? & [] & [Hfence [= ->]]%refuse_if_ok & H).
  rewrite tx_query, tx_exec, tx_fail_if, tx_ret_ok in H. destruct H as [_ [= -> _]]. rewrite negb_false_iff, andb_true_iff in Hfence. to_prop.
  destruct Hfence as [_ Hfence]. apply set_credentials; [by intros m _; cbn; split_and!| |done].
  intros m keyID _ (primary & Hp & Hne) E. cbn in E. congruence.
Qed.

(** ** Histories *)

(** The operations of the store, the reset of a user by the offline recovery command, and what
    others write: the session tables and the key fence. *)
Inductive MfaOp :=
  | MPending (audit : result unit) (clock : Time * Time) (id : ID) (input : option MFAPendingEnrollment)
  | MActivate (answers : MfaAnswers) (clock : Time * Time) (ids : list ID * list ID) (input : option MFAActivationMutation)
  | MChallenge (audit : result unit) (clock : Time * Time) (input : option MFAChallenge)
  | MConsume (input : MFASecondFactorConsumption)
  | MUpgrade (input : MFASessionUpgrade)
  | MReplace (answers : MfaAnswers) (clock : Time * Time) (ids : list ID * list ID) (input : option MFARecoveryCodesRegeneration)
  | MDisable (answers : MfaAnswers) (clock : Time * Time) (input : option MFADisablement)
  | MReset (authority others : result unit) (answers : MfaAnswers) (clock : Time * Time) (input : option MFAAssistedReset)
  | MOfflineReset (others : result unit) (userID : ID) (at_ : Time)
  | MRekey (input : option MFARekeyReplacement)
  | MSessions (sessions : SessionTables)
  | MKey (key : MfaKeyState).

(** The factors an answer grants: a time step of a credential, or a recovery code. *)
Inductive Factor :=
  | FStep (credentialID : ID) (step : Z)
  | FCode (hash : string).
Definition factor (credentialID : ID) (step : Z) (hash : string) : Factor := if 0 <? step then FStep credentialID step else FCode hash.
(** The credential a consumption by user refers to. *)
Definition active_id (userID : ID) (t : MfaTables) : ID := from_option mc_ID "" (head (select (active_of userID) (mf_credentials t))).
Definition granting {A} (f : list Factor) (r : MfaTables * result A) : MfaTables * list Factor := (r.1, if is_ok r.2 then f else []).

Definition mfa_step (t : MfaTables) (step : driver * MfaOp) : MfaTables * list Factor :=
  let d := step.1 in
  match step.2 with
  | MPending audit clock id input => granting [] (SavePending d audit clock id input t)
  | MActivate answers clock ids input =>
      granting (match input with Some input => [FStep (ac_CredentialID input) (ac_TimeStep input)] | None => [] end)
        (Activate d answers clock ids input t)
  | MChallenge audit clock input =>
      granting (match input with Some input => [factor (ch_CredentialID input) (ch_TimeStep input) (ch_RecoveryCodeHash input)] | None => [] end)
        (Challenge d audit clock input t)
  | MConsume input =>
      granting [factor (active_id (sf_UserID input) t) (sf_TimeStep input) (sf_RecoveryCodeHash input)] (ConsumeSecondFactor d input t)
  | MUpgrade input => granting [] (UpgradeSession d input t)
  | MReplace answers clock ids input => granting [] (ReplaceRecoveryCodes d answers clock ids input t)
  | MDisable answers clock input => granting [] (Disable d answers clock input t)
  | MReset authority others answers clock input => granting [] (Reset d authority others answers clock input t)
  | MOfflineReset others userID at_ => granting [] (runSQLTransaction d "administrator recovery" (resetMFAUserAccess others userID at_) t)
  | MRekey input => granting [] (ReplaceRekeyTarget d input t)
  | MSessions sessions => (t <| mf_sessions := sessions |>, [])
  | MKey key => (t <| mf_key := key |>, [])
  end.
(** The tables after a history, and the factors it accepted, in order. *)
Fixpoint mfa_run (steps : list (driver * MfaOp)) (t : MfaTables) : MfaTables * list Factor :=
  match steps with
  | [] => (t, [])
  | step :: steps =>
      let '(t1, f1) := mfa_step t step in
      let '(t2, f2) := mfa_run steps t1 in
      (t2, f1 ++ f2)
  end.
Definition no_mfa : MfaTables := mkMfaTables (mkSessionTables ∅ ∅ ∅ ∅ ∅ ∅) ∅ ∅ (mkMfaKeyState None None).

(** A factor that can no longer be accepted. *)
Definition spent (t : MfaTables) (f : Factor) : Prop :=
  match f with
  | FStep id step => ∃ m, mf_credentials t !! id = Some m ∧ step ≤ mc_LastUsedTimeStep m
  | FCode hash => ∃ k c, mf_codes t !! k = Some c ∧ rc_CodeHash c = hash ∧ ot_Valid (rc_ConsumedAt c) = true
  end.
Lemma spent_advances t t' f : advances t t' → spent t f → spent t' f.
Proof.
  intros [Hc Hr]. destruct f as [id step|hash]; cbn.
  - intros (m & Hm & Hle). destruct (Hc id m Hm) as (m' & Hm' & _ & Hle' & _). exists m'. split; [done|lia].
  - intros (k & c & Hk & <- & Hu). destruct (Hr k c Hk) as (c' & Hk' & E & Hu' & _). exists k, c'. auto.
Qed.

Lemma run_kept {A} d operation (body : Tx MfaTables A) t : kept body → mfa_inv t → improves t (runSQLTransaction d operation body t).1.
Proof.
  intros Hb Hinv. destruct (runSQLTransaction d operation body t) as [t' r] eqn:E.
  apply runSQLTransaction_cases in E as [[-> _]|(a & Ha & _)]; [by apply improves_refl|]. by eapply Hb.
Qed.
(** The fence, where a step moves it, still requires another key. *)
Definition keeps_fence (keyID : string) (step : driver * MfaOp) : Prop :=
  match step.2 with MKey key => fenced_off keyID key | _ => True end.
Lemma step_improves t step : mfa_inv t → (∀ key, step.2 ≠ MKey key) → improves t (mfa_step t step).1.
Proof.
  intros Hinv. destruct step as [d op]. pose proof (improves_refl t Hinv) as Hr. destruct op; cbn [mfa_step granting fst snd]; intros Hop.
  - unfold SavePending. destruct input as [input|]; [|done]. destruct (pe_Credential input); [|done]. destruct (_ || _); [done|]. by apply run_kept; auto with kept.
  - unfold Activate. destruct input as [input|]; [|done]. cbv zeta. destruct (_ || _) eqn:E; [done|]. rewrite !orb_false_iff in E. destruct_and!.
    destruct (prepareMFARecoveryCodes _ _ _ _); [|done]. destruct (wa_prepared answers); [|done]. apply run_kept; [|done]. apply kept_activate. lia.
  - unfold Challenge. destruct input as [input|]; [|done]. destruct (_ || _); [done|]. by apply run_kept; auto with kept.
  - unfold ConsumeSecondFactor. destruct (_ || _); [done|]. by apply run_kept; auto with kept.
  - unfold UpgradeSession. cbv zeta. destruct (_ || _); [done|]. apply run_kept; [|done]. keep.
  - unfold ReplaceRecoveryCodes. destruct input as [input|]; [|done]. destruct (_ || _); [done|].
    destruct (prepareMFARecoveryCodes _ _ _ _); [|done]. destruct (wa_prepared answers); [|done]. apply run_kept; [|done]. apply kept_regenerate.
  - unfold Disable. destruct input as [input|]; [|done]. destruct (_ || _); [done|]. destruct (wa_prepared answers); [|done].
    apply run_kept; [|done]. apply kept_disable.
  - unfold Reset. destruct input as [input|]; [|done]. destruct (_ || _); [done|]. destruct (wa_prepared answers); [|done].
    apply run_kept; [|done]. apply kept_reset.
  - apply run_kept; [|done]. apply kept_access.
  - unfold ReplaceRekeyTarget. destruct input as [input|]; [|done]. destruct (_ || _); [done|].
    unfold executeSQLTransaction. destruct (dr_begin d); [done|]. destruct (rekey_body input t) as [[t' b]|] eqn:E; [|done]. cbn [negb commit rawSQLTransactionPolicy].
    pose proof (kept_rekey input t t' b Hinv E). by destruct (dr_commit d) as [|? []].
  - apply (kept_sessions (λ _, Ok (sessions, tt)) t _ tt Hinv). done.
  - by destruct (Hop key).
Qed.
Lemma step_kept t step : mfa_inv t → mfa_inv (mfa_step t step).1 ∧ advances t (mfa_step t step).1 ∧
  ∀ keyID, keeps_fence keyID step → retired keyID t → retired keyID (mfa_step t step).1.
Proof.
  intros Hinv. assert ((∃ key, step.2 = MKey key) ∨ ∀ key, step.2 ≠ MKey key) as [[key E]|Hn] by (destruct (step.2); eauto).
  - destruct step as [d op]. cbn in E. subst op. split; [by destruct Hinv; split|]. split; [split; cbn; intros k x Hk; exists x; by split_and!|].
    intros keyID Hf [_ Hclean]. by split.
  - destruct (step_improves t step Hinv) as (? & ? & Hr); [done|]. split_and!; [done..|]. auto.
Qed.
Lemma mfa_run_inv steps t : mfa_inv t → mfa_inv (mfa_run steps t).1 ∧ advances t (mfa_run steps t).1 ∧
  ∀ keyID, Forall (keeps_fence keyID) steps → retired keyID t → retired keyID (mfa_run steps t).1.
Proof.
  revert t. induction steps as [|step steps IH]; intros t Hinv; [by split; [|split; [reflexivity|]]|]. cbn. destruct (step_kept t step Hinv) as (H1 & A1 & R1).
  destruct (mfa_step t step) as [t1 f1]. destruct (IH t1 H1) as (H2 & A2 & R2). destruct (mfa_run steps t1) as [t2 f2]. cbn in *.
  split; [done|]. split; [by trans t1|]. intros keyID [Hk Hks]%Forall_cons. auto.
Qed.
Lemma no_mfa_inv : mfa_inv no_mfa.
Proof. split; cbn; intros; exfalso; by rewrite ?lookup_empty in *. Qed.

(** ** Single use *)

(** The order of acceptance: a later step of the same credential, or another code. *)
Definition fresher (f f' : Factor) : Prop :=
  match f, f' with
  | FStep id step, FStep id' step' => id = id' → step < step'
  | FCode hash, FCode hash' => hash ≠ hash'
  | _, _ => True
  end.
Lemma spent_fresher t f f' : spent t f → ¬ spent t f' → fresher f f'.
Proof.
  destruct f as [id step|hash], f' as [id' step'|hash']; cbn; [|done..|].
  - intros (m & Hm & Hle) Hn <-. destruct (decide (step < step')) as [|Hge]; [done|]. destruct Hn. exists m. split; [done|lia].
  - intros (k & c & Hk & Hh & Hu) Hn <-. destruct Hn. eauto 6.
Qed.

(** A body that accepts a factor not yet spent, and spends it. *)
Definition accepts {A} (f : Factor) (t : MfaTables) (m : Tx MfaTables A) : Prop :=
  ∀ t' a, mfa_inv t → m t = Ok (t', a) → ¬ spent t f ∧ spent t' f.
Lemma accepts_after {A B} f t (m : Tx MfaTables A) (k : A → Tx MfaTables B) :
  (∀ t1 a, m t = Ok (t1, a) → mf_credentials t1 = mf_credentials t ∧ mf_codes t1 = mf_codes t ∧ accepts f t1 (k a)) → accepts f t (m ≫= k).
Proof.
  intros Hm t' b Hinv H. apply tx_bind_ok in H as (t1 & a & H1 & H2). destruct (Hm t1 a H1) as (Ec & Er & Hk).
  destruct (Hk t' b) as [Hn Hs]; [destruct Hinv; split; by rewrite ?Ec, ?Er|done|]. split; [|done].
  intros Hsp. destruct Hn. destruct f; cbn in *; by rewrite ?Ec, ?Er.
Qed.
Lemma accepts_then {A B} f t (m : Tx MfaTables A) (k : A → Tx MfaTables B) :
  accepts f t m → kept m → (∀ a, kept (k a)) → accepts f t (m ≫= k).
Proof.
  intros Hm Hkm Hk t' b Hinv H. apply tx_bind_ok in H as (t1 & a & H1 & H2). destruct (Hm t1 a Hinv H1) as [Hn Hs].
  split; [done|]. destruct (Hkm t t1 a Hinv H1) as [Hi _]. eapply spent_advances; [|done]. by eapply Hk.
Qed.
Lemma accepts_step t p id step at_ resource e :
  (∀ k m, mf_credentials t !! k = Some m → p m = true → k = id ∧ mc_LastUsedTimeStep m < step) →
  accepts (FStep id step) t (count ← query (λ t, affected p (mf_credentials t));
    _ ← exec (put_credentials (set_where p (use_step step at_))); check (requireAffected count resource e)).
Proof.
  intros Hp t' a Hinv H. rewrite tx_query, tx_exec in H. apply check_ok in H as ([] & H & [= -> ->]).
  apply requireAffected_ok in H as (k & m & Hk & Hm). destruct (Hp k m Hk Hm) as [-> Hlt]. split.
  - intros (m' & Hm' & Hle). assert (m' = m) as -> by congruence. lia.
  - exists (use_step step at_ m). split; [|cbn; lia]. cbn. apply lookup_set_where. exists m. by rewrite Hm.
Qed.
Lemma accepts_code t consumedAt userID hash at_ : accepts (FCode hash) t (consume_code consumedAt userID hash at_).
Proof.
  intros t' a Hinv H. unfold consume_code in H. rewrite tx_query, tx_exec in H. apply check_ok in H as ([] & H & [= -> ->]).
  apply requireAffected_ok in H as (k & c & Hk & Hc). pose proof Hc as Hu. unfold usable_code in Hu. rewrite !andb_true_iff in Hu. destruct Hu as [[_ Hh] Hu]. to_prop. split.
  - intros (k' & c' & Hk' & Hh' & Hu'). assert (k' = k) as -> by (eapply (mi_hash _ Hinv); [done..|congruence]).
    assert (c' = c) as -> by congruence. by rewrite Hu' in Hu.
  - eexists k, _. split; [cbn; apply lookup_set_where; exists c; by rewrite Hc|]. by split.
Qed.

Lemma active_unique t userID k m k' m' : mfa_inv t → mf_credentials t !! k = Some m → mf_credentials t !! k' = Some m' →
  active_of userID m = true → active_of userID m' = true → k' = k.
Proof.
  intros Hinv Hk Hk' (_ & Hl & Hu)%active_of_active (_ & Hl' & Hu')%active_of_active. eapply (mi_unique _ Hinv); [done..|congruence].
Qed.
Lemma active_id_of t userID k m : mfa_inv t → mf_credentials t !! k = Some m → active_of userID m = true → active_id userID t = k.
Proof.
  intros Hinv Hk Hm. unfold active_id. rewrite (select_unique (active_of userID) _ k m); [|done..|].
  - cbn. by apply (mi_credential _ Hinv).
  - intros k' m' Hk' Hm'. by eapply active_unique.
Qed.
Lemma accepts_exact t userID id step hash at_ : accepts (factor id step hash) t (consumeExactMFAFactor userID id step hash at_).
Proof.
  intros t' a Hinv. unfold consumeExactMFAFactor, factor. destruct (0 <? step); cbv zeta; intros H.
  - rewrite tx_fail_if in H. destruct H as [_ H]. revert H. apply accepts_step; [|done].
    intros k m Hk Hm. rewrite !andb_true_iff in Hm. destruct Hm as [[Hid _] Hlt]. to_prop. destruct (mi_credential _ Hinv k m Hk). split; [congruence|lia].
  - rewrite tx_query in H. apply tx_check in H as (m & _ & H). revert H. by apply accepts_code.
Qed.
Lemma accepts_consumption t input :
  accepts (factor (active_id (sf_UserID input) t) (sf_TimeStep input) (sf_RecoveryCodeHash input)) t (consumption_body input).
Proof.
  intros t' a Hinv. unfold consumption_body, factor. destruct (0 <? sf_TimeStep input); cbv zeta; intros H.
  - revert H. apply accepts_step; [|done]. intros k m Hk Hm. rewrite !andb_true_iff in Hm. destruct Hm as [Hact Hlt].
    rewrite (active_id_of t _ k m) by done. split; [done|lia].
  - rewrite tx_query in H. apply tx_check in H as (m & _ & H). revert H. by apply accepts_code.
Qed.
Lemma accepts_activate_row t input at_ : 0 < ac_TimeStep input →
  accepts (FStep (ac_CredentialID input) (ac_TimeStep input)) t (activatePendingMFACredential input at_).
Proof.
  intros Hpos t' a Hinv H. unfold activatePendingMFACredential in H. rewrite tx_query, tx_exec in H. apply tx_check in H as (row & Hrow & H).
  apply check_ok in H as (? & _ & [= -> _]). destruct (select _ _) as [|m l] eqn:E; [done|].
  assert (m ∈ select (activatable input at_) (mf_credentials t)) as (Hm & k & Hk)%select_spec by (rewrite E; apply list_elem_of_here).
  pose proof Hm as Ha. unfold activatable in Ha. rewrite !andb_true_iff in Ha. destruct Ha as [[[[[Hid _] Hp] _] _] _]. to_prop.
  destruct (mi_credential _ Hinv k m Hk) as [<- H0]. rewrite Hid in *. split.
  - intros (m' & Hm' & Hle). assert (m' = m) as -> by congruence. rewrite H0 in Hle by done. lia.
  - eexists. split; [cbn; apply lookup_set_where; exists m; by rewrite Hm|]. cbn. lia.
Qed.
(** The guards of a body leave the factors alone. *)
Lemma accepts_sessions {A B} f t (m : Db A) (k : A → Tx MfaTables B) : (∀ t1 a, accepts f t1 (k a)) → accepts f t (on_sessions m ≫= k).
Proof.
  intros Hk. apply accepts_after. intros t1 a. unfold on_sessions. destruct (m _) as [[s x]|]; [|done]. intros [= <- <-]. by split_and!.
Qed.
Lemma accepts_check {A B} f t (r : result A) (k : A → Tx MfaTables B) : (∀ a, accepts f t (k a)) → accepts f t (check r ≫= k).
Proof. intros Hk. apply accepts_after. intros t1 a (b & _ & [= -> ->])%check_ok. by split_and!. Qed.
Lemma accepts_fail_if {A} f t (c : bool) (e : error) (m : Tx MfaTables A) : accepts f t m → accepts f t (fail_if c with e ;; m).
Proof. intros Hm t' a Hinv H. rewrite tx_fail_if in H. destruct H as [_ H]. by apply Hm in H. Qed.

Lemma accepts_challenge t audit clock input :
  accepts (factor (ch_CredentialID input) (ch_TimeStep input) (ch_RecoveryCodeHash input)) t (challenge_body audit clock input).
Proof.
  unfold challenge_body. apply accepts_sessions. intros t1 [s at_]. apply accepts_fail_if, accepts_then; [apply accepts_exact|apply kept_exact|].
  intros []. keep.
Qed.
Lemma accepts_activate t answers clock ids input : 0 < ac_TimeStep input →
  accepts (FStep (ac_CredentialID input) (ac_TimeStep input)) t (activateMFACredential answers clock ids input).
Proof.
  intros Hpos. unfold activateMFACredential. apply accepts_check. intros []. apply accepts_sessions. intros t1 [s at_].
  apply accepts_fail_if, accepts_fail_if, accepts_check. intros prepared.
  apply accepts_then; [by apply accepts_activate_row|by apply kept_activate_row|]. intros m. keep.
Qed.

(** What a transaction grants. *)
Lemma granting_accepts {A} d operation (body : Tx MfaTables A) t f g : mfa_inv t → accepts f t body →
  g ∈ (granting [f] (runSQLTransaction d operation body t)).2 →
  g = f ∧ ¬ spent t f ∧ spent (runSQLTransaction d operation body t).1 f.
Proof.
  intros Hinv Ha. unfold granting. destruct (runSQLTransaction d operation body t) as [t' [a|e]] eqn:E; cbn; [|by intros ?%not_elem_of_nil].
  intros ->%list_elem_of_singleton. split; [done|]. apply (Ha t' a Hinv). by apply runSQLTransaction_Ok in E.
Qed.
Lemma step_grants t step : mfa_inv t → (mfa_step t step).2 = [] ∨
  ∃ f, (mfa_step t step).2 = [f] ∧ ¬ spent t f ∧ spent (mfa_step t step).1 f.
Proof.
  intros Hinv. destruct step as [d op].
  assert (none : ∀ A (r : MfaTables * result A), (granting [] r).2 = []) by (intros A [? []]; done).
  assert (some : ∀ A operation (body : Tx MfaTables A) f, accepts f t body → let r := granting [f] (runSQLTransaction d operation body t) in
    r.2 = [] ∨ ∃ g, r.2 = [g] ∧ ¬ spent t g ∧ spent r.1 g).
  { intros A operation body f Ha r. pose proof (granting_accepts d operation body t f f Hinv Ha) as H. unfold r, granting in *.
    destruct (runSQLTransaction _ _ _ _) as [t' [a|e]]; [|by left]. right. exists f. split; [done|]. apply H. cbn. apply list_elem_of_here. }
  destruct op; cbn [mfa_step granting fst snd]; try (left; first [done|apply none]).
  - unfold Activate. destruct input as [input|]; [|by left]. cbv zeta. destruct (_ || _) eqn:E; [by left|]. rewrite !orb_false_iff in E. destruct_and!.
    destruct (prepareMFARecoveryCodes _ _ _ _); [|by left]. destruct (wa_prepared answers); [|by left]. apply some, accepts_activate. lia.
  - unfold Challenge. destruct input as [input|]; [|by left]. destruct (_ || _); [by left|]. apply some, accepts_challenge.
  - unfold ConsumeSecondFactor. destruct (_ || _); [by left|]. apply some, accepts_consumption.
Qed.

Lemma run_grants steps t : mfa_inv t →
  StronglySorted fresher (mfa_run steps t).2 ∧ Forall (λ f, ¬ spent t f) (mfa_run steps t).2.
Proof.
  revert t. induction steps as [|step steps IH]; intros t Hinv; [split; constructor|]. cbn.
  destruct (step_kept t step Hinv) as (H1 & A1 & _). pose proof (step_grants t step Hinv) as Hg.
  destruct (mfa_step t step) as [t1 f1]. cbn in *. destruct (IH t1 H1) as [Hs Hf]. destruct (mfa_run steps t1) as [t2 f2]. cbn in *.
  assert (Hf' : Forall (λ f, ¬ spent t f) f2) by (eapply Forall_impl; [exact Hf|]; intros f Hn Ht; cbn in Hn; by eapply Hn, spent_advances).
  destruct Hg as [->|(f & -> & Hn & Hsp)]; [done|]. cbn. split; constructor; [done| |done..].
  eapply Forall_impl; [exact Hf|]. intros g Hg. by eapply spent_fresher.
Qed.

(** C34. Second factors are accepted once. From a store without enrollments, in any history of
    enrollments, activations, challenges, consumptions, replacements of recovery codes, disabling,
    resets and re-sealing, with whatever failures of the driver, the factors accepted (by an
    activation, a challenge or a consumption) are in such an order that each time step of a
    credential is later than those accepted for it before, and no recovery code is accepted twice. *)
Theorem second_factors_single_use (steps : list (driver * MfaOp)) : StronglySorted fresher (mfa_run steps no_mfa).2.
Proof. apply run_grants, no_mfa_inv. Qed.

(** ** Retirement of a key *)

Lemma proof_retires jobID primaryKeyID retiringKeyID t proof :
  ProveRekey jobID primaryKeyID retiringKeyID t = Ok proof → rp_RetirementSafe proof = true → retired retiringKeyID t.
Proof.
  unfold ProveRekey, requireMFARekeyFence. rewrite ok_fail_if, ok_bind. intros [Hv ([t' []] & [Hf _]%refuse_if_ok & [= <-])] Hsafe.
  rewrite !orb_false_iff in Hv. rewrite negb_false_iff, andb_true_iff in Hf. to_prop. split.
  - exists primaryKeyID. naive_solver.
  - intros k m Hk Hl E. cbn in Hsafe. apply Nat.eqb_eq, length_zero_iff_nil in Hsafe. rewrite select_nil in Hsafe. specialize (Hsafe k m Hk).
    unfold sealed_with in Hsafe. by rewrite Hl, E, bool_decide_true in Hsafe.
Qed.

(** C35. A retired key can be dropped. Once, in a history from a store without enrollments, a rekey
    proof calls the retirement of a key safe, no later operation seals a live credential with that
    key again, as long as the fence is moved, if at all, to keys other than it: nodes that still
    have the key configured as their primary are refused. *)
Theorem retired_key_unused (steps later : list (driver * MfaOp)) jobID primaryKeyID retiringKeyID proof
  (Hproof : ProveRekey jobID primaryKeyID retiringKeyID (mfa_run steps no_mfa).1 = Ok proof)
  (Hsafe : rp_RetirementSafe proof = true)
  (Hlater : Forall (keeps_fence retiringKeyID) later) :
  ∀ k m, mf_credentials (mfa_run later (mfa_run steps no_mfa).1).1 !! k = Some m → live m → mc_EncryptionKeyID m ≠ retiringKeyID.
Proof.
  destruct (mfa_run_inv steps no_mfa no_mfa_inv) as (Hinv & _ & _). apply mfa_run_inv; [done..|]. by eapply proof_retires.
Qed.

(** ** Witnesses *)

Definition at_unix (n : Z) : Time := UnixMilli (n * 1000).
Definition demo_user : ID := sample_id.
Definition demo_session_id : ID := "bbbbbbbbbbbbbbbbbbbbbbbbbb".
Definition demo_access_id : ID := "nnnnnnnnnnnnnnnnnnnnnnnnnn".
Definition demo_credential_id : ID := "dddddddddddddddddddddddddd".
Definition demo_code_id : ID := "rrrrrrrrrrrrrrrrrrrrrrrrrr".
Definition demo_job : ID := "ffffffffffffffffffffffffff".
Definition old_key : string := "0123456789abcdef0123456789abcdef".
Definition new_key : string := "fedcba9876543210fedcba9876543210".
Definition demo_hash : string := HashToken "gezdgnbvgy3tqojqgezdgnbv".
(** One open web session of one user, at 1,200,000,000 seconds of Unix time. *)
Definition demo_session : Session :=
  mkSession demo_session_id (at_unix 1200000000) (at_unix 1200000000) noTime demo_user 0 false SessionClientWeb "" "" "" ""
    (DesktopPlatform_other "") (DesktopArchitecture_other "") 0 "" "" "password" "" "" AuthenticationSingleFactor
    (at_unix 1200000000) noTime noTime (at_unix 1200000000) (at_unix 1200009000) (at_unix 1200009000) noTime "".
Definition demo_sessions : SessionTables :=
  mkSessionTables {[ demo_user := mkUserRow (at_unix 1000) (at_unix 1000) noTime noTime noTime noTime ]} ∅ ∅ ∅
    {[ demo_session_id := demo_session ]}
    {[ demo_access_id := mkSessionCredential demo_access_id (at_unix 1200000000) (at_unix 1200000000) noTime demo_session_id
         SessionCredentialAccess (HashToken "access") "" "" "" (at_unix 1200009000) noTime noTime ]}.
Definition demo_principal : Principal :=
  mkPrincipal demo_user 0 false demo_session_id demo_access_id CredentialSessionAccess "password" "" "" AuthenticationSingleFactor
    SessionClientWeb "" "" false "" "" (DesktopPlatform_other "") (DesktopArchitecture_other "") 0 (at_unix 1200000000) noTime noTime [] "".
Definition demo_clock (n : Z) : Time * Time := (at_unix n, at_unix n).
Definition demo_enroll : MfaOp :=
  MPending (Ok tt) (demo_clock 1200000010) demo_credential_id (Some (mkPendingEnrollment demo_principal
    (Some (mkMFACredential "" zeroTime zeroTime noTime demo_user MFAStatePending "{}" old_key noTime noTime 0)) (10 * Minute) (15 * Minute) demo_job)).
Definition demo_activate : MfaOp :=
  MActivate (mkMfaAnswers (Ok tt) (Ok tt) (Ok tt) (Ok tt)) (demo_clock 1200000020) ([demo_code_id], [demo_code_id])
    (Some (mkActivation demo_principal (15 * Minute) demo_credential_id demo_user 40000000
      [Some (mkMFARecoveryCode "" zeroTime zeroTime noTime "" demo_hash noTime)] demo_session_id (at_unix 1200000020) demo_job (at_unix 1200000020))).
Definition demo_challenge (step : Z) (hash : string) : MfaOp :=
  MChallenge (Ok tt) (demo_clock 1200000030) (Some (mkMFAChallenge demo_principal demo_credential_id step hash (at_unix 1200000030) demo_job)).
Definition demo_login (step : Z) (hash : string) : MfaOp := MConsume (mkConsumption demo_user step hash (at_unix 1200000040)).
Definition demo_history : list (driver * MfaOp) := pair healthy <$>
  [MSessions demo_sessions; demo_enroll; demo_activate; demo_challenge 40000000 ""; demo_challenge 40000001 ""; demo_login 40000001 "";
   demo_login 0 demo_hash; demo_challenge 0 demo_hash; demo_login 40000002 ""].
(** A replayed step and a replayed code are refused, the fresh ones accepted. *)
Example demo_accepted : (mfa_run demo_history no_mfa).2 =
  [FStep demo_credential_id 40000000; FStep demo_credential_id 40000001; FCode demo_hash; FStep demo_credential_id 40000002].
Proof. vm_compute. done. Qed.

Definition demo_rekey : list (driver * MfaOp) := demo_history ++ (pair healthy <$>
  [MKey (mkMfaKeyState (Some new_key) (Some demo_job)); MRekey (Some (mkRekeyReplacement demo_job demo_credential_id old_key new_key "{2}"))]).
Definition demo_again : list (driver * MfaOp) := pair healthy <$>
  [MDisable (mkMfaAnswers (Ok tt) (Ok tt) (Ok tt) (Ok tt)) (demo_clock 1200000050)
     (Some (mkDisablement (demo_principal <| p_AuthenticationStrength := AuthenticationMultiFactor |>) (15 * Minute) demo_user (at_unix 1200000050) demo_job (at_unix 1200000050)));
   demo_enroll].
Lemma retired_key_unused_witness :
  (∀ k m, mf_credentials (mfa_run demo_again (mfa_run demo_rekey no_mfa).1).1 !! k = Some m → live m → mc_EncryptionKeyID m ≠ old_key) ∧
  mc_EncryptionKeyID <$> mf_credentials (mfa_run demo_rekey no_mfa).1 !! demo_credential_id = Some new_key.
Proof.
  split; [|vm_compute; reflexivity].
  apply (retired_key_unused demo_rekey demo_again demo_job new_key old_key (mkRekeyProof new_key old_key 0 0 true));
    [vm_compute; reflexivity|reflexivity|]. by repeat constructor.
Defined.
