(* ===== verification/SecretSeal.v ===== *)
(** * Sealed secrets

    Models [server/secretseal/sealer.go]: the key ring, the authenticated envelope of a secret
    and the strict base64 forms it is kept in.  AES-256-GCM is the interface [AEAD]; nonces
    drawn are arguments. *)

From S2P Require Import Prelude GoStrings Ident ModelError Actions Roles DesktopRelease Principal Sha256.

(** ** AES-256-GCM *)

(** [cipher.AEAD] for a key of 32 bytes: nonces of 12 bytes, an overhead of 16. *)
Class AEAD := {
  aead_seal : list Z → list Z → list Z → list Z → list Z;
  aead_open : list Z → list Z → list Z → list Z → option (list Z) }.
(** What GCM promises: a ciphertext opens to its plaintext under the same key, nonce and
    additional data, only the ciphertext of a plaintext opens to it, and the tag is 16 bytes. *)
Class AEADLaws `{AEAD} : Prop := {
  aead_open_seal : ∀ key nonce plaintext data, Forall is_byte plaintext →
    aead_open key nonce (aead_seal key nonce plaintext data) data = Some plaintext;
  aead_open_only : ∀ key nonce ciphertext plaintext data, Forall is_byte ciphertext →
    aead_open key nonce ciphertext data = Some plaintext → ciphertext = aead_seal key nonce plaintext data ∧ Forall is_byte plaintext;
  aead_seal_length : ∀ key nonce plaintext data, length (aead_seal key nonce plaintext data) = (length plaintext + 16)%nat;
  aead_seal_bytes : ∀ key nonce plaintext data, Forall is_byte plaintext → Forall is_byte (aead_seal key nonce plaintext data) }.
Definition NonceSize : nat := 12.
Definition Overhead : nat := 16.

(** ** Strict base64 *)

Definition newline_free (l : list Z) : list Z := filter (λ c, c ≠ 10 ∧ c ≠ 13) l.
(** [Strict]: the unused low bits of a last group are zero. *)
Fixpoint strict_tail (l : list Z) : bool :=
  match l with
  | [_; b] => Z.land b 15 =? 0
  | [_; _; c] => Z.land c 3 =? 0
  | _ :: _ :: _ :: _ :: rest => strict_tail rest
  | _ => true
  end.
(** [base64.RawURLEncoding.Strict().DecodeString]. *)
Definition RawURL_DecodeStrict (value : string) : option (list Z) :=
  sextets ← mapM sextet_of (newline_free (bytes value));
  if strict_tail sextets then join_sextets sextets else None.
Definition RawURL_EncodedLen (n : Z) : Z := n / 3 * 4 + (n mod 3 * 8 + 5) / 6.

(** [base64.StdEncoding]: [+] and [/] for the last two digits, and [=] to fill the last group. *)
Definition std_sextet_of (c : Z) : option Z :=
  if upper_letter c then Some (c - 65)
  else if lower_letter c then Some (c - 97 + 26)
  else if decimal c then Some (c - 48 + 52)
  else if c =? 43 then Some 62
  else if c =? 47 then Some 63
  else None.
Definition std_sextet_char (v : Z) : Z := if v =? 62 then 43 else if v =? 63 then 47 else sextet_char v.
Definition Std_EncodeToString (data : list Z) : string :=
  string_of_bytes (map std_sextet_char (split_sextets data) ++ replicate (match (length data mod 3)%nat with 0 => 0 | 1 => 2 | _ => 1 end)%nat 61).
(** The digits of the groups; padding only ends the last one. *)
Fixpoint std_digits (l : list Z) : option (list Z) :=
  match l with
  | [] => Some []
  | [a; b; 61; 61] => x ← std_sextet_of a; y ← std_sextet_of b; Some [x; y]
  | [a; b; c; 61] => x ← std_sextet_of a; y ← std_sextet_of b; z ← std_sextet_of c; Some [x; y; z]
  | a :: b :: c :: d :: rest =>
      x ← std_sextet_of a; y ← std_sextet_of b; z ← std_sextet_of c; w ← std_sextet_of d;
      digits ← std_digits rest; Some (x :: y :: z :: w :: digits)
  | _ => None
  end.
Definition Std_DecodeStrict (value : string) : option (list Z) :=
  sextets ← std_digits (newline_free (bytes value));
  if strict_tail sextets then join_sextets sextets else None.

Example base64_vectors :
  Std_EncodeToString (bytes "fooba") = "Zm9vYmE=" ∧ Std_EncodeToString (bytes "foob") = "Zm9vYg==" ∧
  Std_DecodeStrict "Zm9vYmE=" = Some (bytes "fooba") ∧ Std_DecodeStrict "Zm9vYg==" = Some (bytes "foob") ∧
  Std_DecodeStrict "Zm9vYh==" = None ∧ Std_DecodeStrict "Zm9vYg" = None ∧ Std_DecodeStrict "Zg==Zm9v" = None ∧
  RawURL_DecodeStrict "_-8" = Some [255; 239] ∧ RawURL_DecodeStrict "_-9" = None.
Proof. vm_compute. done. Qed.

(** ** Settings, bindings and envelopes *)

Definition EnvelopeVersion1 : Z := 1.
Definition AlgorithmAES256GCM : string := "AES-256-GCM".
Definition MaximumPlaintextBytes : Z := Z.shiftl 4 20.
Definition MaximumFallbackKeys : nat := 8.
Definition maximumPurposeBytes : Z := 64.
Definition maximumOwnerBytes : Z := 256.
Definition keyIDBytes : nat := 16.

Definition ErrInvalidSettings : error := SentinelError "secret sealing settings are invalid".
Definition ErrInvalidBinding : error := SentinelError "secret sealing binding is invalid".
Definition ErrPlaintextTooLarge : error := SentinelError "secret sealing plaintext exceeds its bound".
Definition ErrInvalidEnvelope : error := SentinelError "sealed value is invalid or unavailable".

Record Settings := mkSettings { se_EncryptionKey : string; se_DecryptionKeys : list string; se_MaximumPlaintext : Z }.
Record Binding := mkBinding { bi_Purpose : string; bi_Owner : string }.
Record Envelope := mkEnvelope {
  en_Version : Z;
  en_Algorithm : string;
  en_KeyID : string;
  en_Nonce : string;
  en_Ciphertext : string }.
#[export] Instance Envelope_eta : Eta Envelope := λ e, mkEnvelope (en_Version e) (en_Algorithm e) (en_KeyID e) (en_Nonce e) (en_Ciphertext e).
Record Sealer := mkSealer { sl_keys : gmap string (list Z); sl_primaryKeyID : string; sl_maximumPlaintext : Z }.

(** ** The key ring *)

Definition decodeKey (encoded : string) : option (list Z) :=
  if len encoded !=? 44 then None
  else match Std_DecodeStrict encoded with
       | Some decoded => if negb (length decoded =? 32)%nat || (Std_EncodeToString decoded !=? encoded) then None else Some decoded
       | None => None
       end.
Definition keyIdentity (key : list Z) : string := hex_encode (take keyIDBytes (sha256 key)).
(** [hex.EncodeToString] of what [hex.DecodeString] gives is the text in lower case. *)
Definition sealer_validKeyID (keyID : string) : bool :=
  (len keyID =? Z.of_nat keyIDBytes * 2) && hex_decodes keyID && (ToLower keyID ==? keyID).
Definition HasKey (s : option Sealer) (keyID : string) : bool :=
  match s with
  | None => false
  | Some s => sealer_validKeyID keyID && bool_decide (is_Some (sl_keys s !! keyID))
  end.
Definition PrimaryKeyID (s : option Sealer) : string := from_option sl_primaryKeyID "" s.
(** The loop of [New]; [primaryKeyID] is set at index 0. *)
Fixpoint ring_loop (index : nat) (encodedKeys : list string) (keys : gmap string (list Z)) (seenMaterial : gset (list Z)) (primaryKeyID : string)
    : result (gmap string (list Z) * string) :=
  match encodedKeys with
  | [] => Ok (keys, primaryKeyID)
  | encoded :: encodedKeys =>
      match decodeKey encoded with
      | None => Err ErrInvalidSettings
      | Some key =>
          fail_if bool_decide (key ∈ seenMaterial) with ErrInvalidSettings ;;
          let keyID := keyIdentity key in
          fail_if match keys !! keyID with Some existing => existing !=? key | None => false end with ErrInvalidSettings ;;
          ring_loop (S index) encodedKeys (<[keyID := key]> keys) ({[key]} ∪ seenMaterial) (if (index =? 0)%nat then keyID else primaryKeyID)
      end
  end.
Definition NewSealer (settings : Settings) : result Sealer :=
  fail_if (se_MaximumPlaintext settings <? 1) || (MaximumPlaintextBytes <? se_MaximumPlaintext settings)
          || (MaximumFallbackKeys <? length (se_DecryptionKeys settings))%nat
    with ErrInvalidSettings ;;
  '(keys, primaryKeyID) ← ring_loop 0 (se_EncryptionKey settings :: se_DecryptionKeys settings) ∅ ∅ "";
  Ok (mkSealer keys primaryKeyID (se_MaximumPlaintext settings)).

(** ** Sealing and opening *)

Definition purpose_byte (index : nat) (c : Z) : bool :=
  in_range 97 122 c || (0 <? index)%nat && (in_range 48 57 c || (c =? 46) || (c =? 95) || (c =? 45)).
Definition owner_byte (c : Z) : bool :=
  in_range 97 122 c || in_range 65 90 c || in_range 48 57 c || (c =? 46) || (c =? 95) || (c =? 58) || (c =? 45).
Definition validBinding (binding : Binding) : bool :=
  if (len (bi_Purpose binding) <? 1) || (maximumPurposeBytes <? len (bi_Purpose binding))
     || (len (bi_Owner binding) <? 1) || (maximumOwnerBytes <? len (bi_Owner binding)) then false
  else forallb (λ ic, purpose_byte ic.1 ic.2) (imap pair (bytes (bi_Purpose binding))) && forallb owner_byte (bytes (bi_Owner binding)).
Definition writeAADPart (value : string) : list Z := be_bytes 4 (len value) ++ bytes value.
Definition authenticatedData (binding : Binding) (envelope : Envelope) : list Z :=
  bytes "proctor:secretseal" ++ [0] ++ be_bytes 2 (en_Version envelope) ++ writeAADPart (en_Algorithm envelope)
  ++ writeAADPart (en_KeyID envelope) ++ writeAADPart (bi_Purpose binding) ++ writeAADPart (bi_Owner binding).
#[global] Arguments authenticatedData : simpl never.

Definition decodeRawURLBounded (encoded : string) (minimumBytes maximumBytes : Z) : option (list Z) :=
  if (encoded ==? "") || (RawURL_EncodedLen maximumBytes <? len encoded) then None
  else match RawURL_DecodeStrict encoded with
       | Some decoded =>
           if (Z.of_nat (length decoded) <? minimumBytes) || (maximumBytes <? Z.of_nat (length decoded)) || (EncodeToString decoded !=? encoded)
           then None else Some decoded
       | None => None
       end.
Definition decodeRawURL (encoded : string) (exactBytes : Z) : option (list Z) := decodeRawURLBounded encoded exactBytes exactBytes.

Section sealer.
Context `{AEAD}.

(** [nonce]: what [rand.Read] fills in. *)
Definition Seal (s : option Sealer) (binding : Binding) (plaintext : list Z) (nonce : option (list Z)) : result Envelope :=
  match s with
  | None => Err ErrInvalidBinding
  | Some s =>
      fail_if negb (validBinding binding) with ErrInvalidBinding ;;
      fail_if sl_maximumPlaintext s <? Z.of_nat (length plaintext) with ErrPlaintextTooLarge ;;
      match sl_keys s !! sl_primaryKeyID s with
      | None => Err ErrInvalidSettings
      | Some key =>
          match nonce with
          | None => Err (SentinelError "generate secret sealing nonce")
          | Some nonce =>
              let envelope := mkEnvelope EnvelopeVersion1 AlgorithmAES256GCM (sl_primaryKeyID s) (EncodeToString nonce) "" in
              let ciphertext := aead_seal key nonce plaintext (authenticatedData binding envelope) in
              Ok (envelope <| en_Ciphertext := EncodeToString ciphertext |>)
          end
      end
  end.
Definition Open (s : option Sealer) (binding : Binding) (envelope : Envelope) : result (list Z) :=
  match s with
  | None => Err ErrInvalidEnvelope
  | Some s =>
      fail_if negb (validBinding binding) || negb (en_Version envelope =? EnvelopeVersion1)
              || (en_Algorithm envelope !=? AlgorithmAES256GCM) || negb (sealer_validKeyID (en_KeyID envelope))
        with ErrInvalidEnvelope ;;
      match sl_keys s !! en_KeyID envelope with
      | None => Err ErrInvalidEnvelope
      | Some key =>
          match decodeRawURL (en_Nonce envelope) (Z.of_nat NonceSize) with
          | None => Err ErrInvalidEnvelope
          | Some nonce =>
              let maximumCiphertext := sl_maximumPlaintext s + Z.of_nat Overhead in
              match decodeRawURLBounded (en_Ciphertext envelope) (Z.of_nat Overhead) maximumCiphertext with
              | None => Err ErrInvalidEnvelope
              | Some ciphertext =>
                  match aead_open key nonce ciphertext (authenticatedData binding envelope) with
                  | None => Err ErrInvalidEnvelope
                  | Some plaintext =>
                      fail_if sl_maximumPlaintext s <? Z.of_nat (length plaintext) with ErrInvalidEnvelope ;;
                      Ok plaintext
                  end
              end
          end
      end
  end.
End sealer.

(** ** Base64 round trips *)

Lemma lor_shift a k b : 0 ≤ k → 0 ≤ b < 2 ^ k → Z.lor (Z.shiftl a k) b = a * 2 ^ k + b.
Proof.
  intros Hk Hb. assert (Hd : Z.land (Z.shiftl a k) b = 0).
  { apply Z.bits_inj'. intros n Hn. rewrite Z.land_spec, Z.bits_0. destruct (decide (n < k)).
    - by rewrite Z.shiftl_spec_low.
    - rewrite <-(Z.mod_small b (2 ^ k)) by done. rewrite Z.mod_pow2_bits_high by lia. apply andb_false_r. }
  by rewrite <-Z.lxor_lor, <-Z.add_nocarry_lxor, Z.shiftl_mul_pow2 by done.
Qed.
Lemma land_ones v n : 0 ≤ n → Z.land v (2 ^ n - 1) = v mod 2 ^ n.
Proof. intros Hn. rewrite <-Z.land_ones by done. by rewrite Z.ones_equiv. Qed.
Lemma land_63 v : Z.land v 63 = v mod 64.
Proof. by apply (land_ones v 6). Qed.
Definition is_sextet (v : Z) : Prop := 0 ≤ v < 64.
Ltac pow2 := change (2 ^ 2) with 4; change (2 ^ 4) with 16; change (2 ^ 6) with 64; change (2 ^ 8) with 256.
Ltac zdiv := pow2; Z.to_euclidean_division_equations; lia.
(** The bytes of a group of sextets and the sextets of a group of bytes, as arithmetic. *)
Lemma group_byte1 a b : is_sextet a → is_sextet b → Z.lor (Z.shiftl a 2) (Z.shiftr b 4) = a * 4 + b / 16.
Proof. unfold is_sextet. intros Ha Hb. rewrite Z.shiftr_div_pow2 by lia. rewrite lor_shift by zdiv. done. Qed.
Lemma group_byte2 b c : is_sextet b → is_sextet c → Z.land (Z.lor (Z.shiftl b 4) (Z.shiftr c 2)) 255 = b mod 16 * 16 + c / 4.
Proof.
  unfold is_sextet. intros Hb Hc. rewrite Z.shiftr_div_pow2 by lia. rewrite lor_shift by zdiv.
  rewrite (land_ones _ 8) by lia. zdiv.
Qed.
Lemma group_byte3 c d : is_sextet c → is_sextet d → Z.land (Z.lor (Z.shiftl c 6) d) 255 = c mod 4 * 64 + d.
Proof. unfold is_sextet. intros Hc Hd. rewrite lor_shift by zdiv. rewrite (land_ones _ 8) by lia. zdiv. Qed.
Lemma sextet2 x y : is_byte x → is_byte y → Z.land (Z.lor (Z.shiftl x 4) (Z.shiftr y 4)) 63 = x mod 4 * 16 + y / 16.
Proof.
  unfold is_byte. intros Hx Hy. rewrite Z.shiftr_div_pow2 by lia. rewrite lor_shift by zdiv.
  rewrite (land_ones _ 6) by lia. zdiv.
Qed.
Lemma sextet3 y z : is_byte y → is_byte z → Z.land (Z.lor (Z.shiftl y 2) (Z.shiftr z 6)) 63 = y mod 16 * 4 + z / 64.
Proof.
  unfold is_byte. intros Hy Hz. rewrite Z.shiftr_div_pow2 by lia. rewrite lor_shift by zdiv.
  rewrite (land_ones _ 6) by lia. zdiv.
Qed.
Lemma sextet_low x k : 0 ≤ k → Z.land (Z.shiftl x k) 63 = x * 2 ^ k mod 64.
Proof. intros Hk. rewrite (land_ones _ 6), Z.shiftl_mul_pow2 by lia. done. Qed.

Lemma list_length_ind {A} (P : list A → Prop) : (∀ l, (∀ k, (length k < length l)%nat → P k) → P l) → ∀ l, P l.
Proof. intros Hl l. remember (length l) as n eqn:E. revert l E. induction n as [n IH] using lt_wf_ind. intros l ->. apply Hl. intros k Hk. by eapply IH. Qed.
Lemma split_sextets_range l : Forall is_byte l → Forall is_sextet (split_sextets l) ∧ strict_tail (split_sextets l) = true.
Proof.
  induction l as [l IH] using list_length_ind. intros Hl. unfold is_byte, is_sextet in *.
  destruct l as [|x [|y [|z l]]]; cbn [split_sextets strict_tail]; rewrite ?Forall_cons in *; destruct_and?.
  - by split.
  - rewrite Z.shiftr_div_pow2, sextet_low by lia. pow2. split; [|rewrite (land_ones _ 4) by lia; zdiv]. repeat constructor; zdiv.
  - rewrite sextet2, Z.shiftr_div_pow2, sextet_low by (done || lia). pow2.
    split; [|rewrite (land_ones _ 2) by lia; zdiv]. repeat constructor; zdiv.
  - rewrite sextet2, sextet3, (land_63 z), Z.shiftr_div_pow2 by (done || lia). pow2.
    destruct (IH l) as [IH1 IH2]; [cbn; lia|done|]. split; [|done]. repeat (constructor; [zdiv|]). done.
Qed.
Lemma sextets_joined l : Forall is_byte l → join_sextets (split_sextets l) = Some l.
Proof.
  induction l as [l IH] using list_length_ind. intros Hl. pose proof (split_sextets_range l Hl) as [Hr _]. unfold is_byte in Hl.
  destruct l as [|x [|y [|z l]]]; cbn [split_sextets join_sextets] in *; rewrite ?Forall_cons in *; destruct_and?.
  - done.
  - rewrite group_byte1 by done. rewrite Z.shiftr_div_pow2, sextet_low by lia. pow2. f_equal. f_equal. zdiv.
  - rewrite group_byte1, group_byte2 by done. rewrite sextet2, Z.shiftr_div_pow2, sextet_low by (done || lia). pow2. f_equal. f_equal; [zdiv|f_equal; zdiv].
  - rewrite group_byte1, group_byte2, group_byte3 by done. rewrite IH by (done || cbn; lia). cbn [mbind option_bind].
    rewrite sextet2, sextet3, (land_63 z), Z.shiftr_div_pow2 by (done || lia). pow2. f_equal. f_equal; [zdiv|f_equal; [zdiv|f_equal; zdiv]].
Qed.
Lemma join_sextets_bytes ds l : Forall is_sextet ds → join_sextets ds = Some l → Forall is_byte l.
Proof.
  revert l. induction ds as [ds IH] using list_length_ind. intros l Hd. unfold is_byte.
  destruct ds as [|a [|b [|c [|d ds]]]]; cbn [join_sextets]; rewrite ?Forall_cons in *; destruct_and?.
  - by intros [= <-].
  - done.
  - intros [= <-]. rewrite group_byte1 by done. unfold is_sextet in *. repeat constructor; zdiv.
  - intros [= <-]. rewrite group_byte1, group_byte2 by done. unfold is_sextet in *. repeat constructor; zdiv.
  - destruct (join_sextets ds) as [l'|] eqn:E; [|done]. cbn. intros [= <-]. rewrite group_byte1, group_byte2, group_byte3 by done.
    assert (Forall is_byte l') by (eapply (IH ds); [cbn; lia|done..]). unfold is_sextet in *. repeat (constructor; [zdiv|]). done.
Qed.
Lemma sextet_roundtrip v : is_sextet v → sextet_of (sextet_char v) = Some v ∧ is_byte (sextet_char v) ∧ sextet_char v ≠ 10 ∧ sextet_char v ≠ 13.
Proof.
  intros Hv. assert (H : Forall (λ v, sextet_of (sextet_char v) = Some v ∧ 14 ≤ sextet_char v < 256) (seqZ 0 64)) by (apply (bool_decide_unpack _); vm_compute; exact I).
  rewrite Forall_forall in H. destruct (H v) as (-> & ?); [by apply elem_of_seqZ|]. unfold is_byte. split_and!; try done; lia.
Qed.
Lemma sextet_of_range c v : sextet_of c = Some v → is_sextet v.
Proof.
  unfold sextet_of, is_sextet, upper_letter, lower_letter, decimal, in_range. repeat case_match; intros; simplify_eq; to_prop; lia.
Qed.
Lemma EncodeToString_bytes l : Forall is_byte l → bytes (EncodeToString l) = map sextet_char (split_sextets l).
Proof.
  intros Hl. unfold EncodeToString. apply bytes_string_of_bytes. apply Forall_map. eapply Forall_impl; [by apply split_sextets_range|].
  intros v Hv. by apply sextet_roundtrip.
Qed.
Lemma sextet_chars ds : Forall is_sextet ds →
  newline_free (map sextet_char ds) = map sextet_char ds ∧ mapM sextet_of (map sextet_char ds) = Some ds.
Proof.
  induction 1 as [|v ds Hv _ [IH1 IH2]]; [done|]. destruct (sextet_roundtrip v Hv) as (E & _ & H10 & H13). cbn [map]. split.
  - unfold newline_free in *. rewrite filter_cons_True by done. by rewrite IH1.
  - apply mapM_Some. constructor; [done|]. by apply mapM_Some.
Qed.
Lemma RawURL_roundtrip l : Forall is_byte l → RawURL_DecodeStrict (EncodeToString l) = Some l.
Proof.
  intros Hl. destruct (split_sextets_range l Hl) as [Hr Hs]. destruct (sextet_chars _ Hr) as [E1 E2].
  unfold RawURL_DecodeStrict. rewrite EncodeToString_bytes, E1, E2 by done. cbn. by rewrite Hs, sextets_joined.
Qed.
Lemma RawURL_bytes value l : RawURL_DecodeStrict value = Some l → Forall is_byte l.
Proof.
  unfold RawURL_DecodeStrict. destruct (mapM sextet_of _) as [ds|] eqn:E; [|done]. cbn. destruct (strict_tail ds); [|done]. apply join_sextets_bytes.
  apply mapM_Some in E. clear -E. induction E; constructor; [by eapply sextet_of_range|done].
Qed.
Lemma split_sextets_length l : Z.of_nat (length (split_sextets l)) = RawURL_EncodedLen (Z.of_nat (length l)).
Proof.
  unfold RawURL_EncodedLen. induction l as [l IH] using list_length_ind. destruct l as [|x [|y [|z l]]]; [done..|]. cbn [split_sextets length].
  rewrite !Nat2Z.inj_succ, IH by (cbn; lia). zdiv.
Qed.
Lemma EncodedLen_mono n m : 0 ≤ n ≤ m → RawURL_EncodedLen n ≤ RawURL_EncodedLen m.
Proof. unfold RawURL_EncodedLen. intros H. zdiv. Qed.
Lemma EncodeToString_length l : Forall is_byte l → len (EncodeToString l) = RawURL_EncodedLen (Z.of_nat (length l)).
Proof. intros Hl. unfold len. by rewrite <-length_bytes, EncodeToString_bytes, length_map, split_sextets_length. Qed.

(** The only text that decodes to given bytes is their encoding. *)
Lemma decodeRawURLBounded_ok encoded minimum maximum l : 0 < minimum →
  decodeRawURLBounded encoded minimum maximum = Some l ↔
  encoded = EncodeToString l ∧ Forall is_byte l ∧ minimum ≤ Z.of_nat (length l) ≤ maximum.
Proof.
  intros Hmin. unfold decodeRawURLBounded. split.
  - destruct (_ || _); [done|]. destruct (RawURL_DecodeStrict encoded) as [d|] eqn:E; [|done]. destruct (_ || _) eqn:Hb; [done|].
    intros [= <-]. rewrite !orb_false_iff in Hb. to_prop. destruct_and!. split_and!; try lia; [done|by eapply RawURL_bytes].
  - intros (-> & Hl & Hlo & Hhi). rewrite RawURL_roundtrip by done. assert (Hlen := EncodeToString_length l Hl).
    assert (Hm := EncodedLen_mono (Z.of_nat (length l)) maximum). assert (H1 := EncodedLen_mono 1 (Z.of_nat (length l))).
    change (RawURL_EncodedLen 1) with 2 in H1. rewrite (bool_decide_false (EncodeToString l = "")).
    2:{ intros E. rewrite E in Hlen. change (len "") with 0 in Hlen. lia. }
    rewrite bool_decide_true by done. replace (_ || _) with false by lia. by replace (_ || _) with false by lia.
Qed.

(** ** The ring *)

Record ring_ok (s : Sealer) : Prop := {
  ro_identity : ∀ keyID key, sl_keys s !! keyID = Some key → keyID = keyIdentity key;
  ro_primary : is_Some (sl_keys s !! sl_primaryKeyID s) }.
Lemma ring_loop_ok index encodedKeys keys seen primary keys' primary' :
  ring_loop index encodedKeys keys seen primary = Ok (keys', primary') →
  (∀ keyID key, keys !! keyID = Some key → keyID = keyIdentity key) →
  keys ⊆ keys' ∧ (∀ keyID key, keys' !! keyID = Some key → keyID = keyIdentity key) ∧
  (∀ encoded, encoded ∈ encodedKeys → ∃ key, decodeKey encoded = Some key ∧ keys' !! keyIdentity key = Some key) ∧
  match index, encodedKeys with O, encoded :: _ => ∃ key, decodeKey encoded = Some key ∧ primary' = keyIdentity key | _, _ => primary' = primary end.
Proof.
  revert index keys seen primary. induction encodedKeys as [|encoded encodedKeys IH]; intros index keys seen primary; cbn [ring_loop].
  - intros [= <- <-] Hid. split_and!; try done; [by intros ? ?%not_elem_of_nil|by destruct index].
  - destruct (decodeKey encoded) as [key|] eqn:Ek; [|done]. rewrite !ok_fail_if. intros (_ & Hc & H) Hid.
    assert (Hsub : keys ⊆ <[keyIdentity key := key]> keys).
    { apply map_subseteq_spec. intros id k Hk. destruct (decide (id = keyIdentity key)) as [->|Hne]; [|by rewrite lookup_insert_ne].
      rewrite lookup_insert_eq. rewrite Hk in Hc. to_prop. congruence. }
    apply IH in H as (H1 & H2 & H3 & H4).
    + assert (Hkey : keys' !! keyIdentity key = Some key) by (eapply lookup_weaken; [apply lookup_insert_eq|done]).
      split_and!; [by etrans|done| |].
      * intros e [->|He]%elem_of_cons; [by exists key|by apply H3].
      * destruct index; cbn in H4; [exists key; split; [done|by destruct encodedKeys]|by destruct encodedKeys].
    + intros id k [[<- <-]|[_ Hk]]%lookup_insert_Some; [done|by apply Hid].
Qed.
Lemma NewSealer_ok settings s : NewSealer settings = Ok s →
  ring_ok s ∧ sl_maximumPlaintext s = se_MaximumPlaintext settings ∧ 1 ≤ sl_maximumPlaintext s ≤ MaximumPlaintextBytes ∧
  (∀ encoded, encoded ∈ se_EncryptionKey settings :: se_DecryptionKeys settings →
    ∃ key, decodeKey encoded = Some key ∧ sl_keys s !! keyIdentity key = Some key) ∧
  ∃ key, decodeKey (se_EncryptionKey settings) = Some key ∧ sl_primaryKeyID s = keyIdentity key.
Proof.
  unfold NewSealer. rewrite ok_fail_if, ok_bind. intros (Hb & [keys primary] & H & [= <-]). rewrite !orb_false_iff in Hb. destruct_and!.
  apply ring_loop_ok in H as (_ & Hid & Hin & key & Hkey & ->); [|by intros ? ? ?%lookup_empty_Some]. split_and!; cbn; try done; [|lia..|by exists key].
  split; cbn; [done|]. destruct (Hin (se_EncryptionKey settings)) as (key' & Hkey' & ?); [apply list_elem_of_here|].
  rewrite Hkey in Hkey'. injection Hkey' as <-. eauto.
Qed.
Lemma keyIdentity_valid key : sealer_validKeyID (keyIdentity key) = true.
Proof.
  unfold sealer_validKeyID, keyIdentity. set (d := take keyIDBytes (sha256 key)). assert (Hd : Forall is_byte d) by apply Forall_take, sha256_bytes.
  assert (Hl : length d = keyIDBytes) by (unfold d; by rewrite length_take, sha256_length). unfold len. rewrite length_hex_encode, Hl.
  rewrite lower_hex_decodes by (by apply hex_encode_lower || rewrite length_hex_encode, Hl). rewrite ToLower_lower_hex by (by apply hex_encode_lower).
  by rewrite bool_decide_true.
Qed.

(** ** What the authenticated data binds *)

Lemma aad_part_inj v w x y : len v < 2 ^ 32 → len w < 2 ^ 32 → writeAADPart v ++ x = writeAADPart w ++ y → v = w ∧ x = y.
Proof.
  intros Hv Hw. unfold writeAADPart. rewrite <-!app_assoc. intros [E1 H]%app_inj_1; [|by rewrite !be_bytes_length].
  assert (Hlen : len v = len w) by (apply (be_bytes_inj 4); [split; [unfold len; lia|exact Hv]|split; [unfold len; lia|exact Hw]|done]).
  apply app_inj_1 in H as [E2 H]; [|rewrite !length_bytes; unfold len in Hlen; lia]. split; [by apply bytes_inj|done].
Qed.
(** The authenticated data of an envelope determines its version, algorithm and key identity and
    the purpose and owner it is sealed for: data equal for two envelopes and bindings, with strings
    shorter than 4 GiB, means that all of these are equal. So no two different bindings or keys are
    authenticated by the same data, whatever bytes the strings hold. *)
Theorem authenticated_data_binds (b b' : Binding) (e e' : Envelope)
  (Hversion : 0 ≤ en_Version e < 2 ^ 16 ∧ 0 ≤ en_Version e' < 2 ^ 16)
  (Hshort : Forall (λ v, len v < 2 ^ 32) [en_Algorithm e; en_KeyID e; bi_Purpose b; bi_Owner b; en_Algorithm e'; en_KeyID e'; bi_Purpose b'; bi_Owner b'])
  (Hdata : authenticatedData b e = authenticatedData b' e') :
  b = b' ∧ en_Version e = en_Version e' ∧ en_Algorithm e = en_Algorithm e' ∧ en_KeyID e = en_KeyID e'.
Proof.
  rewrite !Forall_cons in Hshort. destruct_and!. unfold authenticatedData in Hdata. do 2 apply app_inv_head in Hdata.
  apply app_inj_1 in Hdata as [Ev Hdata]; [|by rewrite !be_bytes_length]. apply (be_bytes_inj 2) in Ev; [|done..].
  apply aad_part_inj in Hdata as [Ea Hdata]; [|done..]. apply aad_part_inj in Hdata as [Ek Hdata]; [|done..].
  apply aad_part_inj in Hdata as [Ep Hdata]; [|done..]. rewrite <-(app_nil_r (writeAADPart (bi_Owner b))), <-(app_nil_r (writeAADPart (bi_Owner b'))) in Hdata.
  apply aad_part_inj in Hdata as [Eo _]; [|done..]. destruct b, b'. cbn in *. by subst.
Qed.
Lemma authenticated_data_binds_witness :
  let b := mkBinding "mfa.totp" "user" in let e := mkEnvelope 1 AlgorithmAES256GCM "k" "n" "c" in
  b = b ∧ en_Version e = 1 ∧ en_Algorithm e = AlgorithmAES256GCM ∧ en_KeyID e = "k".
Proof.
  intros b e. apply (authenticated_data_binds b b e (mkEnvelope 1 AlgorithmAES256GCM "k" "other" "")); [cbn; lia| |reflexivity].
  repeat (constructor; [vm_compute; reflexivity|]). constructor.
Defined.

(** ** What opens *)

Section theorems.
Context `{AEADLaws}.

(** The envelope of a plaintext under a key and nonce. *)
Definition sealed_envelope (keyID : string) (key : list Z) (binding : Binding) (plaintext nonce : list Z) : Envelope :=
  let envelope := mkEnvelope EnvelopeVersion1 AlgorithmAES256GCM keyID (EncodeToString nonce) "" in
  envelope <| en_Ciphertext := EncodeToString (aead_seal key nonce plaintext (authenticatedData binding envelope)) |>.
Lemma Seal_ok s binding plaintext nonce e : Seal (Some s) binding plaintext (Some nonce) = Ok e ↔
  validBinding binding = true ∧ Z.of_nat (length plaintext) ≤ sl_maximumPlaintext s ∧
  ∃ key, sl_keys s !! sl_primaryKeyID s = Some key ∧ e = sealed_envelope (sl_primaryKeyID s) key binding plaintext nonce.
Proof.
  unfold Seal. rewrite !ok_fail_if, negb_false_iff, Z.ltb_ge. destruct (sl_keys s !! sl_primaryKeyID s) as [key|]; [|naive_solver].
  split; [intros (Hb & Hl & [= <-]); split_and!; [done..|by exists key]|]. by intros (Hb & Hl & k & [= <-] & ->).
Qed.
Lemma Open_ok s binding envelope plaintext : ring_ok s → Open (Some s) binding envelope = Ok plaintext ↔
  validBinding binding = true ∧ Forall is_byte plaintext ∧ Z.of_nat (length plaintext) ≤ sl_maximumPlaintext s ∧
  ∃ key nonce, sl_keys s !! en_KeyID envelope = Some key ∧ Forall is_byte nonce ∧ length nonce = NonceSize ∧
    envelope = sealed_envelope (en_KeyID envelope) key binding plaintext nonce.
Proof.
  intros Hring. unfold Open. rewrite ok_fail_if, !orb_false_iff, !negb_false_iff. destruct (sl_keys s !! en_KeyID envelope) as [key|] eqn:Ekey; [|naive_solver].
  rewrite (ro_identity s Hring _ _ Ekey), keyIdentity_valid. unfold decodeRawURL. split.
  - intros ((((Hb & Hv) & Ha) & _) & Ho). to_prop. destruct (decodeRawURLBounded (en_Nonce envelope) _ _) as [nonce|] eqn:En; [|done].
    destruct (decodeRawURLBounded (en_Ciphertext envelope) _ _) as [c|] eqn:Ec; [|done]. destruct (aead_open _ _ _ _) as [p|] eqn:Ep; [|done].
    apply ok_fail_if in Ho as [Hl [= ->]]. apply decodeRawURLBounded_ok in En as (En & Hn & Hnl); [|done]. apply decodeRawURLBounded_ok in Ec as (Ec & Hc & _); [|done].
    apply aead_open_only in Ep as [-> Hp]; [|done]. split_and!; [done..|lia|]. exists key, nonce. split_and!; [done..|unfold NonceSize in *; lia|].
    apply (ro_identity s Hring) in Ekey.
    destruct envelope as [v a k n c]. change (authenticatedData binding (mkEnvelope v a k n c)) with (authenticatedData binding (mkEnvelope v a k n EmptyString)) in Ec.
    clear Hc. cbn in *. unfold sealed_envelope, EnvelopeVersion1. cbn. by subst v a k n c.
  - intros (Hb & Hp & Hl & key' & nonce & [= <-] & Hn & Hnl & ->). cbn. split; [by rewrite bool_decide_true by done|].
    assert (decodeRawURLBounded (EncodeToString nonce) (Z.of_nat NonceSize) (Z.of_nat NonceSize) = Some nonce) as -> by (apply decodeRawURLBounded_ok; [done|]; unfold NonceSize in *; split_and!; [done..|lia|lia]).
    match goal with |- context [aead_seal ?k ?n ?p ?d] => set (c := aead_seal k n p d) end. assert (decodeRawURLBounded (EncodeToString c) (Z.of_nat Overhead) (sl_maximumPlaintext s + Z.of_nat Overhead) = Some c) as ->.
    { apply decodeRawURLBounded_ok; [done|]. unfold c. rewrite aead_seal_length. unfold Overhead. split_and!; [done|by apply aead_seal_bytes|lia..]. }
    pose proof (aead_open_seal key nonce plaintext _ Hp : aead_open key nonce c _ = _) as Ho.
    match goal with |- context [aead_open key nonce c ?d] => change (aead_open key nonce c d = Some plaintext) in Ho end. rewrite Ho. apply ok_fail_if. split; [lia|done].
Qed.

(** Any ring that holds the key a ring seals with opens what it sealed. *)
Lemma ring_reopens settings settings' s s' binding plaintext nonce envelope :
  NewSealer settings = Ok s → NewSealer settings' = Ok s' →
  se_EncryptionKey settings ∈ se_EncryptionKey settings' :: se_DecryptionKeys settings' →
  Forall is_byte plaintext → Z.of_nat (length plaintext) ≤ se_MaximumPlaintext settings' → Forall is_byte nonce → length nonce = NonceSize →
  Seal (Some s) binding plaintext (Some nonce) = Ok envelope → Open (Some s') binding envelope = Ok plaintext.
Proof.
  intros Hold Hnew Hkept Hbytes Hmax Hn Hnl Hseal.
  apply NewSealer_ok in Hold as (Hring & _ & _ & Hin & key & Hkey & Hp). apply NewSealer_ok in Hnew as (Hring' & Hmax' & _ & Hin' & _).
  apply Seal_ok in Hseal as (Hb & _ & k & Hk & ->). apply Open_ok; [done|].
  destruct (Hin' _ Hkept) as (key' & Hkey' & Hl). rewrite Hkey in Hkey'. injection Hkey' as <-.
  destruct (Hin (se_EncryptionKey settings)) as (key' & Hkey' & Hl'); [apply list_elem_of_here|]. rewrite Hkey in Hkey'. injection Hkey' as <-.
  rewrite Hp in *. rewrite Hl' in Hk. injection Hk as <-. split_and!; [done..|lia|]. exists key, nonce. by split_and!.
Qed.

(** C32. Rotation of the encryption key keeps every sealed secret readable: what a ring sealed for a
    purpose and owner opens, for the same purpose and owner, to the same plaintext under any other
    ring that lists the old encryption key among its keys, and allows plaintexts of that length. *)
Theorem sealed_secret_survives_rotation (settings settings' : Settings) (s s' : Sealer) (binding : Binding)
    (plaintext nonce : list Z) (envelope : Envelope)
  (Hold : NewSealer settings = Ok s) (Hnew : NewSealer settings' = Ok s')
  (Hkept : se_EncryptionKey settings ∈ se_EncryptionKey settings' :: se_DecryptionKeys settings')
  (Hbytes : Forall is_byte plaintext) (Hmax : Z.of_nat (length plaintext) ≤ se_MaximumPlaintext settings')
  (Hnonce : Forall is_byte nonce ∧ length nonce = NonceSize)
  (Hseal : Seal (Some s) binding plaintext (Some nonce) = Ok envelope) :
  Open (Some s') binding envelope = Ok plaintext.
Proof. destruct Hnonce. by eapply (ring_reopens settings settings' s s'). Qed.

(** C33. A ring opens exactly what was sealed: an envelope opens to a plaintext for a purpose and owner
    if and only if the binding is valid, the plaintext within the bound, and the envelope is, byte for
    byte, the one that sealing this plaintext for this binding makes with the ring's key of that
    identity and some nonce. Any other envelope, and any other spelling of one, is refused. *)
Theorem opened_exactly_as_sealed (settings : Settings) (s : Sealer) (binding : Binding) (envelope : Envelope) (plaintext : list Z)
  (Hring : NewSealer settings = Ok s) :
  Open (Some s) binding envelope = Ok plaintext ↔
  validBinding binding = true ∧ Forall is_byte plaintext ∧ Z.of_nat (length plaintext) ≤ se_MaximumPlaintext settings ∧
  ∃ key nonce, sl_keys s !! en_KeyID envelope = Some key ∧ Forall is_byte nonce ∧ length nonce = NonceSize ∧
    Seal (Some (mkSealer {[en_KeyID envelope := key]} (en_KeyID envelope) (se_MaximumPlaintext settings))) binding plaintext (Some nonce) = Ok envelope.
Proof.
  apply NewSealer_ok in Hring as (Hring & <- & _). rewrite Open_ok by done. setoid_rewrite Seal_ok. cbn. split.
  - intros (Hb & Hp & Hl & key & nonce & Hk & Hn & Hnl & E). split_and!; [done..|]. exists key, nonce. split_and!; [done..|].
    exists key. by rewrite lookup_singleton_eq.
  - intros (Hb & Hp & Hl & key & nonce & Hk & Hn & Hnl & _ & _ & key' & Hk' & E). rewrite lookup_singleton_eq in Hk'. injection Hk' as <-.
    split_and!; [done..|]. by exists key, nonce.
Qed.
End theorems.

(** ** Witnesses *)

(** An authenticated, if not confidential, cipher: the plaintext and a tag of it. *)
Definition tag_of (key nonce plaintext data : list Z) : list Z := take 16 (sha256 (key ++ nonce ++ be_bytes 8 (Z.of_nat (length data)) ++ data ++ plaintext)).
Definition tagging : AEAD := {|
  aead_seal key nonce plaintext data := plaintext ++ tag_of key nonce plaintext data;
  aead_open key nonce ciphertext data :=
    let plaintext := take (length ciphertext - 16) ciphertext in
    if decide (ciphertext = plaintext ++ tag_of key nonce plaintext data) then Some plaintext else None |}.
Lemma tagging_laws : @AEADLaws tagging.
Proof.
  assert (Hlen : ∀ key nonce plaintext data, length (tag_of key nonce plaintext data) = 16%nat).
  { intros. unfold tag_of. by rewrite length_take, sha256_length. }
  split; unfold aead_seal, aead_open, tagging; cbv zeta.
  - intros key nonce plaintext data _. rewrite length_app, Hlen. replace (length plaintext + 16 - 16)%nat with (length plaintext) by lia.
    rewrite take_app_length. by rewrite decide_True.
  - intros key nonce ciphertext plaintext data Hc. destruct (decide _) as [E|]; [|done]. intros [= <-]. split; [done|by apply Forall_take].
  - intros. by rewrite length_app, Hlen.
  - intros. apply Forall_app. split; [done|]. apply Forall_take, sha256_bytes.
Qed.

#[local] Existing Instances tagging tagging_laws.

Definition demo_key1 : string := "AAAAAAAAAAAAAAAAAAAAAAAAAAAAAAAAAAAAAAAAAAA=".
Definition demo_key2 : string := "AQAAAAAAAAAAAAAAAAAAAAAAAAAAAAAAAAAAAAAAAAA=".
Definition demo_old_ring : Settings := mkSettings demo_key1 [] 4096.
Definition demo_new_ring : Settings := mkSettings demo_key2 [demo_key1] 4096.
Definition demo_sealer (settings : Settings) : Sealer := match NewSealer settings with Ok s => s | Err _ => mkSealer ∅ "" 0 end.
Definition demo_binding : Binding := mkBinding "mfa.totp" "ybndrfg8ejkmcpqxot1uwisza3".
Definition demo_nonce : list Z := replicate 12 7.
Definition demo_envelope : Envelope :=
  match Seal (Some (demo_sealer demo_old_ring)) demo_binding (bytes "secret") (Some demo_nonce) with Ok e => e | Err _ => mkEnvelope 0 "" "" "" "" end.
Lemma sealed_secret_survives_rotation_witness :
  Open (Some (demo_sealer demo_new_ring)) demo_binding demo_envelope = Ok (bytes "secret") ∧
  is_ok (Open (Some (demo_sealer demo_new_ring)) (mkBinding "mfa.totp" "other") demo_envelope) = false.
Proof.
  split; [|vm_compute; reflexivity].
  apply (sealed_secret_survives_rotation demo_old_ring demo_new_ring (demo_sealer demo_old_ring) (demo_sealer demo_new_ring) demo_binding
    (bytes "secret") demo_nonce demo_envelope).
  - vm_compute. reflexivity.
  - vm_compute. reflexivity.
  - apply (bool_decide_unpack _). vm_compute. exact I.
  - apply bytes_is_byte.
  - vm_compute. discriminate.
  - split; [|reflexivity]. apply (bool_decide_unpack _). vm_compute. exact I.
  - vm_compute. reflexivity.
Defined.
Lemma opened_exactly_as_sealed_witness :
  validBinding demo_binding = true ∧ ∃ key nonce, sl_keys (demo_sealer demo_new_ring) !! en_KeyID demo_envelope = Some key ∧
    Seal (Some (mkSealer {[en_KeyID demo_envelope := key]} (en_KeyID demo_envelope) 4096)) demo_binding (bytes "secret") (Some nonce) = Ok demo_envelope.
Proof.
  destruct (proj1 (opened_exactly_as_sealed demo_new_ring (demo_sealer demo_new_ring) demo_binding demo_envelope (bytes "secret")
    ltac:(vm_compute; reflexivity)) ltac:(vm_compute; reflexivity)) as (Hb & _ & _ & key & nonce & Hk & _ & _ & Hs).
  split; [exact Hb|]. exists key, nonce. split; [exact Hk|exact Hs].
Defined.
