(* ===== verification/GoUnmarshal.v ===== *)
(** * json.Unmarshal of encoding/json into a flat struct

    The decoding of Go's standard library into a struct whose fields are strings and integers:
    members are matched to fields by name, first exactly and then without case, unknown members
    are skipped, [null] leaves a field as it is, a later member replaces an earlier one, and a
    value of another type is an error.  The document is read with the token stream of
    [CanonicalJson], after invalid bytes have become U+FFFD. *)

From S2P Require Import Prelude GoStrings GoJson CanonicalJson CanonicalRead CanonicalForm GoMarshal.

Inductive field := FText (s : list Z) | FInt (n : Z).
#[export] Instance field_eq_dec : EqDecision field.
Proof. solve_decision. Defined.
Notation struct := (list (list Z * field)).

(** ** Matching members to fields *)

(** [foldName]: letters in upper case, with the two other characters that fold to ASCII letters. *)
Definition fold_rune (r : Z) : Z := if r =? 383 then 83 else if r =? 8490 then 75 else if in_range 97 122 r then r - 32 else r.
Definition foldName (s : list Z) : list Z := map (λ x : Z * nat * Z, fold_rune (fst (fst x))) (range_runes 0 s).
Definition exact_name (key : list Z) (f : list Z * field) : Prop := f.1 = key.
Definition folded_name (key : list Z) (f : list Z * field) : Prop := foldName f.1 = foldName key.
#[export] Instance exact_name_dec key f : Decision (exact_name key f).
Proof. unfold exact_name. apply _. Defined.
#[export] Instance folded_name_dec key f : Decision (folded_name key f).
Proof. unfold folded_name. apply _. Defined.
Definition field_index (key : list Z) (fields : struct) : option nat :=
  match list_find (exact_name key) fields with
  | Some (i, _) => Some i
  | None => fst <$> list_find (folded_name key) fields
  end.

(** A scalar stored into a field; the flag is cleared by a value of another type. *)
Definition store_token (t : token) (f : field) : field * bool :=
  match t, f with
  | TNull, _ => (f, true)
  | TString s, FText _ => (FText s, true)
  | Number text, FInt _ => match ParseInt (string_of_bytes text) with Some n => (FInt n, true) | None => (f, false) end
  | _, _ => (f, false)
  end.
Definition store_member (key : list Z) (t : token) (fields : struct) : struct * bool :=
  match field_index key fields with
  | None => (fields, true)
  | Some i =>
      match fields !! i with
      | Some (name, f) => let '(f', ok) := store_token t f in (<[i := (name, f')]> fields, ok)
      | None => (fields, true)
      end
  end.

(** ** Reading the document *)

(** The rest of an object or array that is skipped, [depth] deep in it. *)
Fixpoint skip_value (fuel depth : nat) (d : Decoder) : option Decoder :=
  match fuel with
  | O => None
  | S fuel =>
      match Token d with
      | (inr (Delim c), d) =>
          if (c =? 91) || (c =? 123) then if (maxNestingDepth <=? S depth)%nat then None else skip_value fuel (S depth) d
          else match depth with S (S depth) => skip_value fuel (S depth) d | _ => Some d end
      | (inr _, d) => skip_value fuel depth d
      | (inl _, _) => None
      end
  end.
Fixpoint read_members (fuel : nat) (d : Decoder) (fields : struct) (ok : bool) : option (struct * bool * Decoder) :=
  match fuel with
  | O => None
  | S fuel =>
      if More d then
        match Token d with
        | (inr (TString key), d) =>
            match Token d with
            | (inr (Delim c), d) =>
                match skip_value fuel 1 d with
                | Some d => read_members fuel d fields (ok && negb (bool_decide (is_Some (field_index key fields))))
                | None => None
                end
            | (inr t, d) => let '(fields, stored) := store_member key t fields in read_members fuel d fields (ok && stored)
            | (inl _, _) => None
            end
        | _ => None
        end
      else
        match Token d with
        | (inr (Delim 125), d) => Some (fields, ok, d)
        | _ => None
        end
  end.
Definition valid_utf8 (document : list Z) : list Z := range_runes 0 document ≫= λ x : Z * nat * Z, EncodeRune (fst (fst x)).
(** [json.Unmarshal] into the struct [fields]; [None] is an error. *)
Definition Unmarshal (document : list Z) (fields : struct) : option struct :=
  let l := valid_utf8 document in
  match Token (mkDecoder l tokenTopValue []) with
  | (inr (Delim 123), d) =>
      match read_members (S (length l)) d fields true with
      | Some (fields, true, d) => if peek (d_rest d) is Some _ then None else Some fields
      | _ => None
      end
  | (inr TNull, d) => if peek (d_rest d) is Some _ then None else Some fields
  | _ => None
  end.

Definition demo_fields : struct := [(bytes "version", FInt 0); (bytes "key_id", FText [])].
Example unmarshal_vectors :
  let go s := Unmarshal (bytes (quoted s)) demo_fields in
  go "{'key_id':'a','other':[1,{'x':2}],'Version': 7,'KEY_ID':'b'} " = Some [(bytes "version", FInt 7); (bytes "key_id", FText (bytes "b"))] ∧
  go "{'version':null}" = Some demo_fields ∧ go " null" = Some demo_fields ∧ go "{'version':'1'}" = None ∧ go "{'version':1.5}" = None ∧
  go "{'key_id':[]}" = None ∧ go "{} 1" = None ∧ go "[]" = None ∧ go "{'version':1,}" = None.
Proof. vm_compute. done. Qed.

(** ** What Marshal writes is read back *)

Definition field_json (f : field) : jval := match f with FText s => JString s | FInt n => JInt n end.
Definition struct_json (fields : struct) : jval := JObject ((λ f, (f.1, field_json f.2)) <$> fields).
Definition safe_field (f : field) : Prop := match f with FText s => ascii_bytes s | FInt n => - MaxSafeInteger ≤ n ≤ MaxSafeInteger end.
Definition same_kind (f g : field) : Prop := match f, g with FText _, FText _ | FInt _, FInt _ => True | _, _ => False end.

(** The two tokens of a member. *)
Lemma member_tokens n s p key f t rest stack :
  (s = tokenObjectStart ∨ s = tokenObjectComma) → key_prefix s p → spells_member (spells n) (key, field_json f) t → follows rest →
  More (mkDecoder (p ++ t ++ rest) s stack) = true ∧
  ∃ d tok, Token (mkDecoder (p ++ t ++ rest) s stack) = (inr (TString key), d) ∧
    Token d = (inr tok, mkDecoder rest tokenObjectComma stack) ∧ (∀ c, tok ≠ Delim c) ∧ ∀ g, same_kind f g → store_token tok g = (f, true).
Proof.
  intros Hs Hp (raw & a & b & t' & -> & Hk & Ha & Hb & Ht) Hf. cbn [fst snd] in *. set (l1 := (a ++ [58] ++ b) ++ t' ++ rest).
  replace (p ++ ([34] ++ raw ++ [34] ++ a ++ [58] ++ b ++ t') ++ rest) with (p ++ 34 :: raw ++ 34 :: l1) by (unfold l1; by rewrite <-!app_assoc).
  split.
  { unfold More. cbn [d_rest]. destruct Hs as [->| ->]; cbn in Hp; [by rewrite peek_space|].
    destruct Hp as (a' & b' & -> & Ha' & _). by rewrite <-!app_assoc, peek_space. }
  assert (∃ tok, scalar_token (field_json f) t' = Some tok ∧ (∀ c, tok ≠ Delim c) ∧ ∀ g, same_kind f g → store_token tok g = (f, true)) as (tok & Htok & Hnd & Hst).
  { destruct f as [x|k]; cbn in Ht |- *; eexists; (split; [done|]); (split; [done|]); intros [y|y] Hg; try done. cbn. by destruct n, Ht as [[_ ->] _]. }
  exists (mkDecoder l1 tokenObjectColon stack), tok. split_and!; [| |done..].
  - unfold Token. cbn [d_rest d_state d_stack]. pose proof (read_string_complete key raw l1 Hk) as Hrs. destruct Hs as [->| ->]; cbn in Hp.
    + rewrite Token_space by done. rewrite Token_nonspace by done. cbn -[read_string]. by rewrite Hrs.
    + destruct Hp as (a' & b' & -> & Ha' & Hb'). rewrite <-!app_assoc, Token_space by done.
      cbn [app]. rewrite Token_nonspace by done. cbn -[Token_].
      rewrite bool_decide_false, bool_decide_true, Token_space by done. rewrite Token_nonspace by done. cbn -[read_string]. by rewrite Hrs.
  - destruct (decode_scalar_complete n _ t' tok rest Ht Htok Hf) as [Hd Ho]. unfold Token, l1. cbn [d_rest d_state d_stack].
    rewrite Token_prefix by (by exists a, b). by apply Token_scalar; [|eapply spells_starts| |].
Qed.
Lemma store_own pre key f g post tok : key ∉ pre.*1 → store_token tok g = (f, true) →
  store_member key tok (pre ++ (key, g) :: post) = (pre ++ (key, f) :: post, true).
Proof.
  intros Hn Ht. unfold store_member, field_index.
  assert (list_find (exact_name key) (pre ++ (key, g) :: post) = Some (length pre, (key, g))) as ->.
  { apply list_find_Some. split_and!; [by rewrite lookup_app_r, Nat.sub_diag|done|]. intros j y Hj Hlt. rewrite lookup_app_l in Hj by done.
    intros E. destruct Hn. rewrite <-E. apply list_elem_of_fmap. exists y. split; [done|]. by eapply list_elem_of_lookup_2. }
  cbv iota beta. rewrite lookup_app_r, Nat.sub_diag by done. cbn -[insert]. rewrite Ht. by rewrite insert_app_r_alt, Nat.sub_diag.
Qed.
Definition zeroed (fs zs : struct) : Prop := Forall2 (λ f z, z.1 = f.1 ∧ same_kind f.2 z.2) fs zs.
Lemma read_step n s p key f g t rest stack pre post fuel :
  (s = tokenObjectStart ∨ s = tokenObjectComma) → key_prefix s p → spells_member (spells n) (key, field_json f) t → follows rest →
  key ∉ pre.*1 → same_kind f g →
  read_members (S fuel) (mkDecoder (p ++ t ++ rest) s stack) (pre ++ (key, g) :: post) true =
  read_members fuel (mkDecoder rest tokenObjectComma stack) (pre ++ (key, f) :: post) true.
Proof.
  intros Hs Hp Hm Hf Hn Hk. destruct (member_tokens n s p key f t rest stack Hs Hp Hm Hf) as (Hmore & d & tok & H1 & H2 & Hnd & Hst).
  cbn [read_members]. rewrite Hmore, H1, H2. pose proof (store_own pre key f g post tok Hn (Hst g Hk)) as Hs'.
  destruct tok; try (rewrite Hs'; done). by destruct (Hnd c).
Qed.
Lemma read_end s w rest s0 stack fields fuel : (s = tokenObjectStart ∨ s = tokenObjectComma) → space w →
  read_members (S fuel) (mkDecoder (w ++ 125 :: rest) s (s0 :: stack)) fields true =
  Some (fields, true, mkDecoder rest (tokenValueEnd s0) stack).
Proof.
  intros Hs Hw. cbn [read_members]. rewrite More_end by auto. unfold Token. cbn [d_rest d_state d_stack]. rewrite Token_space by done. by destruct Hs; subst.
Qed.
Lemma read_more n fs zs pre body rest s0 stack fuel : zeroed fs zs → NoDup (pre ++ fs).*1 →
  spells_more (spells_member (spells n)) ((λ f, (f.1, field_json f.2)) <$> fs) body → (length fs < fuel)%nat →
  read_members fuel (mkDecoder (body ++ 125 :: rest) tokenObjectComma (s0 :: stack)) (pre ++ zs) true =
  Some (pre ++ fs, true, mkDecoder rest (tokenValueEnd s0) stack).
Proof.
  intros Hz. revert pre body fuel. induction Hz as [|[k f] [k' g] fs zs [Ek Hk] _ IH]; intros pre body [|fuel] Hnd Hb Hfuel; cbn in Hfuel; try lia.
  { by apply read_end; [right|]. }
  destruct Hb as (a & b & t & r & -> & Ha & Hb & Ht & Hr). cbn in Ek. subst k'.
  replace ((a ++ [44] ++ b ++ t ++ r) ++ 125 :: rest) with ((a ++ [44] ++ b) ++ t ++ r ++ 125 :: rest) by by rewrite <-!app_assoc.
  rewrite (read_step n _ _ k f g t); [|by right|by exists a, b|done|by eapply follows_more; [|right]| |done].
  - specialize (IH (pre ++ [(k, f)]) r fuel). rewrite <-!app_assoc in IH. cbn in IH. apply IH; [done|done|lia].
  - rewrite fmap_app in Hnd. apply NoDup_app in Hnd as (_ & Hd & _). intros Hin. apply (Hd _ Hin). by left.
Qed.
Lemma spells_more_length {A} (R : A → list Z → Prop) vs body : spells_more R vs body → (length vs ≤ length body)%nat.
Proof.
  revert body. induction vs as [|v vs IH]; intros body Hb; [cbn; lia|]. destruct Hb as (a & b & t & r & -> & _ & _ & _ & Hr).
  specialize (IH r Hr). rewrite !length_app. cbn. lia.
Qed.
Lemma valid_utf8_ascii l : ascii_bytes l → valid_utf8 l = l.
Proof.
  intros Hl. unfold valid_utf8. rewrite range_runes_ascii by done. induction Hl as [|c l Hc _ IH]; [done|]. cbn [map]. rewrite bind_cons, IH. cbn.
  unfold EncodeRune. by rewrite (proj2 (Z.ltb_lt c 128)) by lia.
Qed.
(** A struct with ASCII texts and safe integers decodes from its encoding, whatever its fields held. *)
Lemma Unmarshal_Marshal fs zs : zeroed fs zs → NoDup fs.*1 → Forall (λ f, ascii_bytes f.1 ∧ safe_field f.2) fs →
  Unmarshal (Marshal (struct_json fs)) zs = Some fs.
Proof.
  intros Hz Hnd Hs. assert (Hv : ascii_value 1 (struct_json fs)).
  { cbn. rewrite <-list_fmap_compose. split; [exact Hnd|]. apply Forall_fmap. eapply Forall_impl; [exact Hs|]. intros [k [x|x]] [? ?]; done. }
  destruct (Marshal_spells 1 _ Hv) as [Hsp Ha]. unfold Unmarshal. rewrite valid_utf8_ascii by done. set (l := Marshal (struct_json fs)) in *.
  destruct Hsp as (_ & _ & body & E & Hb). rewrite E. cbn [app]. unfold Token at 1. cbn [d_rest d_state d_stack]. rewrite Token_nonspace by done. cbn -[read_members].
  assert (∀ fuel, (length fs < fuel)%nat → read_members fuel (mkDecoder (body ++ [125]) tokenObjectStart [tokenTopValue]) zs true = Some (fs, true, mkDecoder [] tokenTopValue [])) as Hread.
  { intros [|fuel] Hfuel; [lia|]. destruct Hz as [|[k f] [k' g] fs zs [Ek Hk] Hz]; [by apply read_end; [left|]|]. cbn in Ek. subst k'.
    destruct Hb as (a & t & r & -> & Ha' & Ht & Hr). replace ((a ++ t ++ r) ++ [125]) with (a ++ t ++ r ++ [125]) by by rewrite <-!app_assoc.
    rewrite (read_step 0 _ a k f g t _ _ [] zs); [|by left|done|done|by eapply follows_more; [|right]|apply not_elem_of_nil|done].
    apply (read_more 0 fs zs [(k, f)]); [done|done|done|cbn in Hfuel; lia]. }
  rewrite Hread; [done|]. destruct fs as [|f fs]; [cbn; lia|]. destruct Hb as (a & t & r & -> & _ & Ht & Hr%spells_more_length).
  rewrite length_fmap in Hr. assert (0 < length t)%nat by eauto using starts_length, spells_member_starts. rewrite !length_app. cbn. lia.
Qed.
