(* ===== verification/MfaService.v ===== *)
(** * Second factors at sign-in

    Models the mechanics of [server/app/mfa.go] that meet the store and the sealer (sealing and
    reading a TOTP secret, verifying and consuming a second factor) and, of
    [server/app/mfa_application.go], the setup of an enrollment and the verification of a login.
    What other services answer is an argument. *)

From S2P Require Import Prelude GoTime GoStrings Ident ModelError AppErrors Actions Roles DesktopRelease Principal Session Sha256 CanonicalJson GoMarshal GoUnmarshal SecretSeal Mfa MfaCodes SqlTx SessionStore MfaStore MfaSafety.

(** ** The envelope as JSON *)

Definition envelope_struct (e : Envelope) : struct :=
  [(bytes "version", FInt (en_Version e)); (bytes "algorithm", FText (bytes (en_Algorithm e))); (bytes "key_id", FText (bytes (en_KeyID e)));
   (bytes "nonce", FText (bytes (en_Nonce e))); (bytes "ciphertext", FText (bytes (en_Ciphertext e)))].
Definition envelope_of (fields : struct) : option Envelope :=
  match fields with
  | [(_, FInt version); (_, FText algorithm); (_, FText keyID); (_, FText nonce); (_, FText ciphertext)] =>
      Some (mkEnvelope version (string_of_bytes algorithm) (string_of_bytes keyID) (string_of_bytes nonce) (string_of_bytes ciphertext))
  | _ => None
  end.
Definition MarshalEnvelope (e : Envelope) : string := string_of_bytes (Marshal (struct_json (envelope_struct e))).
Definition UnmarshalEnvelope (document : string) : option Envelope :=
  fields ← Unmarshal (bytes document) (envelope_struct (mkEnvelope 0 "" "" "" "")); envelope_of fields.

(** ** Errors *)

Definition IsNotFound (e : error) : bool := found (As_store ErrNotFound e).
Definition mfaInvalidCodeError : error := New "authentication.mfa.code_invalid".
Definition authenticationUnavailable (err : error) : error := Wrap (New "authentication.internal") err.
Definition mfaStoreErrors : StoreTable :=
  mkStoreTable
    [mkStoreRule StoreSentinel "" "" (Some "authentication generation changed") "authentication.mfa.conflict";
     mkStoreRule StoreSentinel "" "" (Some "MFA reenrollment required") "authentication.mfa.conflict"]
    {["stale_primary_key" := "authentication.mfa.unavailable"]}
    "authentication.mfa.not_found" "authentication.mfa.conflict" "" "" "" "authentication.mfa.unavailable" ∅.

(** ** Mechanics *)

Definition MFASealingPurpose : string := "mfa.totp".
Record MFAPolicy := mkMFAPolicy { mp_Enabled : bool; mp_Issuer : string; mp_SetupTTL : Z; mp_RecoveryCodeCount : nat }.
Record mfaMechanics := mkMechanics { me_Settings : MFAPolicy; me_Sealer : option Sealer }.
Definition newMFAMechanics (settings : MFAPolicy) (sealer : option Sealer) : result mfaMechanics :=
  fail_if mp_Enabled settings && (match sealer with None => true | _ => false end) with SentinelError "enabled MFA requires secret sealing" ;;
  Ok (mkMechanics settings sealer).

Record sealedMFASecret := mkSealedSecret { sm_encoded : string; sm_keyID : string }.
Record mfaFactorProof := mkFactorProof { fp_credentialID : ID; fp_step : Z; fp_recoveryHash : string }.

Section mechanics.
Context `{AEAD}.
Context (s : mfaMechanics).

Definition sealTOTPSecret (nonce : option (list Z)) (userID secret : string) : result sealedMFASecret :=
  fail_if (match me_Sealer s with None => true | _ => false end) with SentinelError "MFA secret sealing is unavailable" ;;
  envelope ← Seal (me_Sealer s) (mkBinding MFASealingPurpose userID) (bytes secret) nonce;
  Ok (mkSealedSecret (MarshalEnvelope envelope) (en_KeyID envelope)).
Definition decrypt (userID : string) (credential : MFACredential) : result string :=
  fail_if (match me_Sealer s with None => true | _ => false end) with SentinelError "MFA secret sealing is unavailable" ;;
  match UnmarshalEnvelope (mc_EncryptedSecret credential) with
  | None => Err ErrInvalidEnvelope
  | Some envelope =>
      fail_if en_KeyID envelope !=? mc_EncryptionKeyID credential with ErrInvalidEnvelope ;;
      plaintext ← Open (me_Sealer s) (mkBinding MFASealingPurpose userID) envelope;
      Ok (string_of_bytes plaintext)
  end.

Definition verifySecondFactor (userID : ID) (code : string) (now : Time) (t : MfaTables) : result mfaFactorProof :=
  match GetByUser userID t with
  | Err err => Err (if IsNotFound err then mfaInvalidCodeError else Translate mfaStoreErrors (Some err))
  | Ok credential =>
      fail_if negb (MFACredential_IsActive (Some credential)) with mfaInvalidCodeError ;;
      if len (TrimSpace code) =? 6 then
        match decrypt userID credential with
        | Err err => Err (authenticationUnavailable err)
        | Ok secret =>
            let '(step, valid) := verifyTOTP secret (TrimSpace code) (mc_LastUsedTimeStep credential) now in
            fail_if negb valid with mfaInvalidCodeError ;;
            Ok (mkFactorProof (mc_ID credential) step "")
        end
      else if normalizeMFARecoveryCode code !=? "" then
        Ok (mkFactorProof (mc_ID credential) 0 (HashToken (normalizeMFARecoveryCode code)))
      else Err mfaInvalidCodeError
  end.
Definition consumeSecondFactor (d : driver) (userID : ID) (code : string) (now : Time) (t : MfaTables) : MfaTables * result unit :=
  match verifySecondFactor userID code now t with
  | Err err => (t, Err err)
  | Ok proof =>
      let '(t, r) := ConsumeSecondFactor d (mkConsumption userID (fp_step proof) (fp_recoveryHash proof) now) t in
      (t, match r with
          | Ok _ => Ok tt
          | Err err => Err (if IsNotFound err then mfaInvalidCodeError else Translate mfaStoreErrors (Some err))
          end)
  end.

(** [verifyLogin]: the strength a password login reaches, and when the second factor was given. *)
Definition verifyLogin (d : driver) (userID : ID) (code : string) (at_ : Time) (t : MfaTables) : MfaTables * result (AuthenticationStrength * Z) :=
  match GetByUser userID t with
  | Err err => (t, if IsNotFound err then Ok (AuthenticationSingleFactor, 0) else Err (authenticationUnavailable err))
  | Ok credential =>
      if negb (MFACredential_IsActive (Some credential)) then (t, Ok (AuthenticationSingleFactor, 0))
      else if negb (mp_Enabled (me_Settings s)) then (t, Err (New "authentication.mfa.unavailable"))
      else if TrimSpace code ==? "" then (t, Err (New "authentication.mfa.required"))
      else match consumeSecondFactor d userID code at_ t with
           | (t, Ok _) => (t, Ok (AuthenticationMultiFactor, Time_UnixMilli at_))
           | (t, Err err) => (t, Err err)
           end
  end.
End mechanics.

(** ** Setup *)

(** What the services around a mutation answer: the user and its address, the institution the
    audit names, the start of the audit and its completion. *)
Record SetupAnswers := mkSetupAnswers {
  sa_email : result string;
  sa_institution : result ID;
  sa_begin : result ID;
  sa_complete : result unit;
  sa_audit : result unit }.
(** [errors.Join]: both errors, the first found first. *)
Definition join_errors (first second : error) : error := WrappedError (match second with SentinelError m => m | _ => "" end) first.
Definition failMutation (complete : result unit) (err : error) : error :=
  let mapped := Translate mfaStoreErrors (Some err) in
  match complete with Ok _ => mapped | Err auditErr => join_errors mapped auditErr end.
Definition requireRecoverySession (now : Time) (recentTTL : Z) (principal : Principal) (recent : bool) : result unit :=
  fail_if negb (is_ok (ValidateMFARecovery principal)) || (p_CredentialType principal !=? CredentialSessionAccess)
    with New "authentication.session_required" ;;
  fail_if recent && negb (IsRecentlyAuthenticated principal now recentTTL) with New "authentication.reauthentication_required" ;;
  Ok tt.
Definition requireEnabled (s : mfaMechanics) : result unit :=
  fail_if negb (mp_Enabled (me_Settings s)) with New "authentication.mfa.disabled" ;; Ok tt.

(** The one-time material of [MFASetup]; the provisioning URI, which shows the same secret, is
    left out. *)
Record MFASetup := mkMFASetup { st_Secret : string; st_ExpiresAt : Time }.
(** [clocks]: the readings of the service clock, then of the database; [raw] and [nonce]: bytes drawn. *)
Definition SetupMFA `{AEAD} (s : mfaMechanics) (d : driver) (answers : SetupAnswers) (clocks : Time * Time * (Time * Time)) (recentTTL : Z)
    (raw nonce : option (list Z)) (id : ID) (principal : Principal) (t : MfaTables) : MfaTables * result MFASetup :=
  let '(checkedAt, now, database) := clocks in
  let prepared :=
    _ ← requireRecoverySession checkedAt recentTTL principal true;
    _ ← requireEnabled s;
    _ ← (match sa_email answers with Ok _ => Ok tt | Err err => Err (Translate mfaStoreErrors (Some err)) end);
    secret ← (match raw with Some raw => Ok (randomMFASecret raw) | None => Err (authenticationUnavailable (SentinelError "read MFA secret")) end);
    sealed ← (match sealTOTPSecret s nonce (p_UserID principal) secret with Ok sealed => Ok sealed | Err err => Err (authenticationUnavailable err) end);
    _ ← (match sa_institution answers with Ok _ => Ok tt | Err err => Err (Translate mfaStoreErrors (Some err)) end);
    auditID ← sa_begin answers;
    let now := TimeUTC now in
    Ok (secret, mkPendingEnrollment principal
      (Some (mkMFACredential "" now zeroTime noTime (p_UserID principal) MFAStatePending (sm_encoded sealed) (sm_keyID sealed)
               (OptionalTimeFrom (Time_Add now (mp_SetupTTL (me_Settings s)))) noTime 0))
      (mp_SetupTTL (me_Settings s)) recentTTL auditID) in
  match prepared with
  | Err err => (t, Err err)
  | Ok (secret, input) =>
      let '(t, r) := SavePending d (sa_audit answers) database id (Some input) t in
      (t, match r with
          | Ok saved => Ok (mkMFASetup secret (ot_Time (mc_PendingExpiresAt saved)))
          | Err err => Err (failMutation (sa_complete answers) err)
          end)
  end.

(** ** The envelope round trip *)

Definition ascii_envelope (e : Envelope) : Prop :=
  - MaxSafeInteger ≤ en_Version e ≤ MaxSafeInteger ∧
  Forall (λ x, ascii_bytes (bytes x)) [en_Algorithm e; en_KeyID e; en_Nonce e; en_Ciphertext e].
Lemma envelope_safe e : ascii_envelope e → Forall (λ f, ascii_bytes f.1 ∧ safe_field f.2) (envelope_struct e).
Proof.
  intros [Hv Hs]. rewrite !Forall_cons in Hs. destruct_and!.
  assert (Hn : ∀ name, bool_decide (Forall (λ c, 0 ≤ c < 128) (bytes name)) = true → ascii_bytes (bytes name)) by (intros name Hn; by apply bool_decide_eq_true in Hn).
  unfold envelope_struct. repeat (constructor; [split; [apply Hn; vm_compute; reflexivity|done]|]). constructor.
Qed.
Lemma envelope_names e : NoDup (envelope_struct e).*1.
Proof. apply (bool_decide_unpack _). vm_compute. exact I. Qed.
Lemma marshal_envelope_ascii e : ascii_envelope e → ascii_bytes (Marshal (struct_json (envelope_struct e))).
Proof.
  intros He. apply (Marshal_spells 1). split; [rewrite <-list_fmap_compose; apply (envelope_names e)|]. apply Forall_fmap.
  eapply Forall_impl; [by apply envelope_safe|]. intros [k [x|x]] [? ?]; done.
Qed.
Lemma marshal_envelope_bytes e : ascii_envelope e → bytes (MarshalEnvelope e) = Marshal (struct_json (envelope_struct e)).
Proof. intros He. apply bytes_string_of_bytes. eapply Forall_impl; [by apply marshal_envelope_ascii|]. unfold is_byte. cbn. lia. Qed.
Lemma envelope_roundtrip e : ascii_envelope e → UnmarshalEnvelope (MarshalEnvelope e) = Some e.
Proof.
  intros He. unfold UnmarshalEnvelope. rewrite marshal_envelope_bytes by done.
  rewrite (Unmarshal_Marshal (envelope_struct e)); [|by repeat constructor|apply envelope_names|by apply envelope_safe].
  cbn. rewrite !string_of_bytes_bytes. by destruct e.
Qed.
Lemma base64_ascii l : Forall is_byte l → ascii_bytes (bytes (EncodeToString l)).
Proof.
  intros Hl. rewrite EncodeToString_bytes by done. apply Forall_map. eapply Forall_impl; [by apply split_sextets_range|].
  intros v Hv. unfold is_sextet, sextet_char in *. cbn. repeat case_match; lia.
Qed.
Lemma hex_ascii l : Forall is_byte l → ascii_bytes (bytes (hex_encode l)).
Proof.
  intros Hl%hex_encode_lower. unfold ascii_bytes. rewrite forallb_forall in Hl. apply Forall_forall. intros c Hc%list_elem_of_In%Hl.
  unfold lower_hex, in_range in Hc. lia.
Qed.
Lemma SanitizeUnicode_ascii v : ascii_bytes (bytes v) → SanitizeUnicode v = v.
Proof.
  intros Hv. unfold SanitizeUnicode. rewrite runes_of_ascii, map_map by done. rewrite <-(string_of_bytes_bytes v) at 2. f_equal.
  induction Hv as [|c l Hc _ IH]; [done|]. cbn [map concat]. rewrite IH.
  assert (existsb (Z.eqb c) blocked_runes = false) as ->.
  { apply not_true_is_false. intros (r & Hr & E)%existsb_exists. apply Z.eqb_eq in E as <-.
    assert (Hall : Forall (λ r, 128 ≤ r) blocked_runes) by (apply (bool_decide_unpack _); vm_compute; exact I).
    rewrite Forall_forall in Hall. apply list_elem_of_In in Hr. apply Hall in Hr. lia. }
  unfold EncodeRune. by rewrite (proj2 (Z.ltb_lt c 128)) by lia.
Qed.

(** ** What a login decides *)

Lemma HashToken_valid v : IsValidTokenHash (HashToken v) = true ∧ HashToken v ≠ "".
Proof.
  unfold IsValidTokenHash, HashToken, len. rewrite length_hex_encode, sha256_length, bool_decide_true by done. split.
  - apply lower_hex_decodes; [apply hex_encode_lower, sha256_bytes|]. by rewrite length_hex_encode, sha256_length.
  - intros E. pose proof (length_hex_encode (sha256 (bytes v))) as Hl. rewrite E, sha256_length in Hl. done.
Qed.
Lemma get_by_user userID t m : mfa_inv t → GetByUser userID t = Ok m →
  ID_IsValid userID = true ∧ mf_credentials t !! mc_ID m = Some m ∧ credential_of userID m = true ∧ MFACredential_Validate m = Ok tt.
Proof.
  intros Hinv. unfold GetByUser. rewrite ok_fail_if, ok_bind. intros (Hid & row & (Hp & k & Hk)%get_row_ok & Hm).
  unfold mfaCredentialRow_model, validatePersistedModel in Hm. apply ok_bind in Hm as ([] & Hv & [= ->]).
  destruct (mi_credential _ Hinv k m Hk) as [<- _]. split_and!; [by apply negb_false_iff|done..|]. by destruct (MFACredential_Validate m) as [[]|].
Qed.
Lemma active_step m : MFACredential_Validate m = Ok tt → MFACredential_IsActive (Some m) = true → 0 < mc_LastUsedTimeStep m.
Proof.
  unfold MFACredential_Validate, MFACredential_IsActive. rewrite !ok_fail_if. intros (_ & _ & _ & _ & _ & _ & _ & H) Ha.
  apply andb_true_iff in Ha as [_ Ha]. to_prop. rewrite Ha in H. apply ok_fail_if in H as [H _]. rewrite !orb_false_iff in H. lia.
Qed.
Lemma active_row userID m : credential_of userID m = true → MFACredential_IsActive (Some m) = true → active_of userID m = true.
Proof. unfold active_of, MFACredential_IsActive. intros ->. by intros [_ ->]%andb_true_iff. Qed.
Lemma consume_healthy input t : ID_IsValid (sf_UserID input) = true → Time_IsZero (sf_Now input) = false →
  one_factor (sf_TimeStep input) (sf_RecoveryCodeHash input) = true →
  ConsumeSecondFactor healthy input t = match consumption_body input t with Ok (t', a) => (t', Ok a) | Err e => (t, Err e) end.
Proof.
  intros Hid Hnow Hone. unfold ConsumeSecondFactor. rewrite Hid, Hnow, Hone. cbn [negb orb].
  destruct (consumption_body input t) as [[t' a]|e] eqn:E; [by apply runSQLTransaction_healthy|by apply runSQLTransaction_healthy_Err].
Qed.
Lemma consume_step_ok input t k m : 0 < sf_TimeStep input → mf_credentials t !! k = Some m → active_of (sf_UserID input) m = true →
  mc_LastUsedTimeStep m < sf_TimeStep input → ∃ t', consumption_body input t = Ok (t', tt).
Proof.
  intros Hs Hk Ha Hl. unfold consumption_body. rewrite (proj2 (Z.ltb_lt 0 _)) by done. eexists. rewrite tx_query, tx_exec. apply check_ok.
  exists tt. split; [|done]. apply requireAffected_ok. exists k, m. split; [done|]. rewrite Ha. apply Z.ltb_lt in Hl. by rewrite Hl.
Qed.
Lemma consume_code_decided input t k m : sf_TimeStep input ≤ 0 → mf_credentials t !! k = Some m → active_of (sf_UserID input) m = true →
  let usable := ∃ k c, mf_codes t !! k = Some c ∧ usable_code (sf_UserID input) (sf_RecoveryCodeHash input) c = true in
  (usable → ∃ t', consumption_body input t = Ok (t', tt)) ∧ (¬ usable → ∃ e, consumption_body input t = Err e).
Proof.
  intros Hs Hk Ha usable. unfold consumption_body. rewrite (proj2 (Z.ltb_ge 0 _)) by done.
  assert (∃ row, get_row "mfa_credential" (sf_UserID input) (select (active_of (sf_UserID input)) (mf_credentials t)) = Ok row) as [row Hrow].
  { destruct (select _ _) as [|row l] eqn:E; [|by exists row]. rewrite select_nil in E. by rewrite (E k m Hk) in Ha. }
  split.
  - intros Hu. eexists. rewrite tx_query. apply tx_check. exists row. split; [done|]. unfold consume_code. rewrite tx_query, tx_exec. apply check_ok.
    exists tt. split; [|done]. by apply requireAffected_ok.
  - intros Hn. match goal with |- ∃ e, ?x = Err e => destruct x as [[t' a]|e] eqn:E end; [|by exists e]. exfalso. apply Hn. rewrite tx_query in E. apply tx_check in E as (_ & _ & E).
    unfold consume_code in E. rewrite tx_query, tx_exec in E. apply check_ok in E as ([] & E & _). by apply requireAffected_ok in E.
Qed.

Section login.
Context `{AEAD}.
Context (s : mfaMechanics).

(** The factor a code stands for: a step whose password it is, or a code not yet used. *)
Definition presents (userID : ID) (m : MFACredential) (code : string) (now : Time) (t : MfaTables) (f : Factor) : Prop :=
  match f with
  | FStep id step => id = mc_ID m ∧ len (TrimSpace code) = 6 ∧
      ∃ secret, decrypt s userID m = Ok secret ∧ verifyTOTP secret (TrimSpace code) (mc_LastUsedTimeStep m) now = (step, true)
  | FCode hash => len (TrimSpace code) ≠ 6 ∧ normalizeMFARecoveryCode code ≠ "" ∧ hash = HashToken (normalizeMFARecoveryCode code) ∧
      ∃ k c, mf_codes t !! k = Some c ∧ usable_code userID hash c = true
  end.
Lemma verify_steps_range secret code last steps step : verify_steps secret code last steps = (step, true) → last < step.
Proof.
  induction steps as [|x steps IH]; cbn; [done|]. destruct (x <=? last) eqn:E; [done|]. destruct (computeTOTP secret x) as [e|]; [|done].
  destruct (e ==? code); [|done]. intros [= <-]. lia.
Qed.
Lemma verifyTOTP_later secret code last now step : verifyTOTP secret code last now = (step, true) → last < step.
Proof. unfold verifyTOTP. destruct (negb _); [done|]. destruct (negb _); [done|]. apply verify_steps_range. Qed.
Lemma consume_decided userID m code now t : mfa_inv t → GetByUser userID t = Ok m → MFACredential_IsActive (Some m) = true → Time_IsZero now = false →
  (∀ f, presents userID m code now t f → ∃ t', consumeSecondFactor s healthy userID code now t = (t', Ok tt) ∧ ¬ spent t f ∧ spent t' f) ∧
  ((∀ f, ¬ presents userID m code now t f) → ∃ e, consumeSecondFactor s healthy userID code now t = (t, Err e)).
Proof.
  intros Hinv Hget Hact Hnow. destruct (get_by_user userID t m Hinv Hget) as (Hid & Hm & Hof & Hv). pose proof (active_row _ _ Hof Hact) as Ha.
  pose proof (active_step m Hv Hact) as Hpos. unfold consumeSecondFactor, verifySecondFactor. rewrite Hget, Hact. cbn [negb].
  assert (Hspent : ∀ step hash t', consumption_body (mkConsumption userID step hash now) t = Ok (t', tt) →
    ¬ spent t (factor (mc_ID m) step hash) ∧ spent t' (factor (mc_ID m) step hash)).
  { intros step hash t' Hb. pose proof (accepts_consumption t (mkConsumption userID step hash now) t' tt Hinv Hb) as Hacc.
    cbn in Hacc. by rewrite (active_id_of t userID (mc_ID m) m Hinv Hm Ha) in Hacc. }
  destruct (len (TrimSpace code) =? 6) eqn:E6; [apply Z.eqb_eq in E6|apply Z.eqb_neq in E6].
  - destruct (decrypt s userID m) as [secret|e] eqn:Ed.
    2:{ split; [|by eauto]. intros [id step|hash]; cbn; [|tauto]. intros (_ & _ & secret & Hsec & _). congruence. }
    destruct (verifyTOTP secret (TrimSpace code) (mc_LastUsedTimeStep m) now) as [step [|]] eqn:Et.
    + pose proof (verifyTOTP_later _ _ _ _ _ Et) as Hlt. destruct (consume_step_ok (mkConsumption userID step "" now) t (mc_ID m) m) as [t' Hb]; [cbn; lia|done..|].
      cbn [negb]. cbn [fp_step fp_recoveryHash]. rewrite consume_healthy, Hb; [|done..|]. 2:{ cbn. unfold one_factor. by replace (step <=? 0) with false by lia. }
      split; [|intros Hn; exfalso; apply (Hn (FStep (mc_ID m) step)); cbn; eauto].
      intros [id step'|hash]; [|cbn; tauto]. intros (-> & _ & secret' & Hsec & Et'). assert (secret' = secret) as -> by congruence. assert (step' = step) as -> by congruence.
      exists t'. split; [done|]. specialize (Hspent step "" t' Hb). unfold factor in Hspent. by rewrite (proj2 (Z.ltb_lt 0 step)) in Hspent by lia.
    + cbn [negb]. split; [|by eauto]. intros [id step'|hash]; cbn; [|tauto]. intros (_ & _ & secret' & Hsec & Et'). congruence.
  - destruct (normalizeMFARecoveryCode code !=? "") eqn:En; [apply negb_true_iff, bool_decide_eq_false in En|apply negb_false_iff, bool_decide_eq_true in En].
    2:{ split; [|by eauto]. intros [id step|hash]; cbn; [tauto|]. intros (_ & Hne & _). congruence. }
    set (hash := HashToken (normalizeMFARecoveryCode code)) in *. cbn [fp_step fp_recoveryHash].
    destruct (HashToken_valid (normalizeMFARecoveryCode code)) as [Hvalid Hne].
    rewrite consume_healthy; [|done..|]. 2:{ unfold one_factor. cbn [sf_TimeStep sf_RecoveryCodeHash]. fold hash in Hvalid, Hne. rewrite Hvalid, bool_decide_false by done. done. }
    destruct (consume_code_decided (mkConsumption userID 0 hash now) t (mc_ID m) m) as [Hyes Hno]; [cbn; lia|done..|]. split.
    + intros [id step|hash'] Hp; [by destruct Hp as (_ & ? & _)|]. destruct Hp as (_ & _ & -> & Hu). destruct Hyes as [t' Hb]; [done|]. fold hash. rewrite Hb.
      exists t'. split; [done|]. by apply (Hspent 0 hash t').
    + intros Hn. destruct Hno as [e Hb]; [|rewrite Hb; eauto]. intros Hu. apply (Hn (FCode hash)). by split_and!.
Qed.

(** C38. What a login with a password reaches once the password is right. For a user with an active
    second factor the login is multi-factor exactly when the service is enabled and the code
    presents a factor that has not been used: the password of a time step in the window, after the
    last one used, of the secret the credential seals, or a recovery code of the user; that factor is
    then spent. With any other code the login is refused and nothing changes, so that it is never
    single-factor. For a user whose credential is not active it is single-factor. *)
Theorem login_second_factor_decided (t : MfaTables) (userID : ID) (code : string) (at_ : Time) (m : MFACredential)
  (Hinv : mfa_inv t) (Hget : GetByUser userID t = Ok m) (Hat : Time_IsZero at_ = false) :
  let login := verifyLogin s healthy userID code at_ t in
  if MFACredential_IsActive (Some m) then
    (∀ f, mp_Enabled (me_Settings s) = true → presents userID m code at_ t f →
       login.2 = Ok (AuthenticationMultiFactor, Time_UnixMilli at_) ∧ ¬ spent t f ∧ spent login.1 f) ∧
    ((mp_Enabled (me_Settings s) = false ∨ ∀ f, ¬ presents userID m code at_ t f) → login.1 = t ∧ ∃ e, login.2 = Err e)
  else login = (t, Ok (AuthenticationSingleFactor, 0)).
Proof.
  intros login. unfold login, verifyLogin. rewrite Hget. destruct (MFACredential_IsActive (Some m)) eqn:Hact; cbn [negb]; [|done].
  destruct (consume_decided userID m code at_ t Hinv Hget Hact Hat) as [Hyes Hno].
  destruct (mp_Enabled (me_Settings s)); cbn [negb]; [|split; [done|eauto]].
  destruct (TrimSpace code ==? "") eqn:Ec; to_prop.
  - split; [|eauto]. intros f _ Hp. exfalso. destruct f as [id step|hash]; cbn in Hp; rewrite ?Ec in Hp.
    + by destruct Hp as (_ & ? & _).
    + destruct Hp as (_ & Hne & _). apply Hne. unfold normalizeMFARecoveryCode. by rewrite Ec.
  - split.
    + intros f _ Hp. destruct (Hyes f Hp) as (t' & -> & ? & ?). by split_and!.
    + intros [?|Hn]; [done|]. destruct (Hno Hn) as [e ->]. eauto.
Qed.
End login.

(** ** Setup seals what it shows *)

Section setup.
Context `{AEADLaws}.

Lemma sealed_ascii key binding plaintext nonce : Forall is_byte plaintext → Forall is_byte nonce →
  ascii_envelope (sealed_envelope (keyIdentity key) key binding plaintext nonce).
Proof.
  intros Hp Hn. split; [cbn; unfold EnvelopeVersion1, MaxSafeInteger; lia|]. unfold sealed_envelope. cbn [en_Algorithm en_KeyID en_Nonce en_Ciphertext].
  constructor; [apply (bool_decide_unpack _); vm_compute; exact I|]. constructor; [apply hex_ascii, Forall_take, sha256_bytes|].
  constructor; [by apply base64_ascii|]. constructor; [by apply base64_ascii, aead_seal_bytes|constructor].
Qed.
(** A secret sealed by one ring is read back by any ring that keeps the key. *)
Lemma sealed_decrypts settings settings' ring ring' mechanics mechanics' userID secret nonce sealed m :
  NewSealer settings = Ok ring → NewSealer settings' = Ok ring' → me_Sealer mechanics = Some ring → me_Sealer mechanics' = Some ring' →
  se_EncryptionKey settings ∈ se_EncryptionKey settings' :: se_DecryptionKeys settings' → len secret ≤ se_MaximumPlaintext settings' →
  Forall is_byte nonce → length nonce = NonceSize →
  sealTOTPSecret mechanics (Some nonce) userID secret = Ok sealed →
  mc_EncryptedSecret m = SanitizeUnicode (sm_encoded sealed) → mc_EncryptionKeyID m = SanitizeUnicode (sm_keyID sealed) →
  decrypt mechanics' userID m = Ok secret.
Proof.
  intros Hr Hr' Hs Hs' Hkept Hmax Hn Hnl Hseal Hm Hk. unfold sealTOTPSecret in Hseal. rewrite Hs in Hseal.
  apply ok_bind in Hseal as (e & He & [= <-]). cbn [sm_encoded sm_keyID] in Hm, Hk.
  assert (Hopen : Open (Some ring') (mkBinding MFASealingPurpose userID) e = Ok (bytes secret)).
  { eapply (ring_reopens settings settings' ring ring'); eauto using bytes_is_byte. by rewrite length_bytes. }
  apply Seal_ok in He as (_ & _ & key & Hkey & ->). destruct (NewSealer_ok _ _ Hr) as (Hring & _).
  pose proof (ro_identity _ Hring _ _ Hkey) as Hid. rewrite Hid in *.
  pose proof (sealed_ascii key (mkBinding MFASealingPurpose userID) (bytes secret) nonce (bytes_is_byte _) Hn) as Ha. set (e := sealed_envelope _ _ _ _ _) in *.
  rewrite SanitizeUnicode_ascii in Hm by (rewrite marshal_envelope_bytes by done; by apply marshal_envelope_ascii).
  rewrite SanitizeUnicode_ascii in Hk by (by apply hex_ascii, Forall_take, sha256_bytes).
  unfold decrypt. rewrite Hs', Hm, envelope_roundtrip, Hk by done. apply ok_fail_if. split; [by rewrite bool_decide_true|]. apply ok_bind. exists (bytes secret). by rewrite string_of_bytes_bytes.
Qed.

Lemma saved_pending d audit clock id input credential t t' m : mfa_inv t → pe_Credential input = Some credential →
  SavePending d audit clock id (Some input) t = (t', Ok m) →
  mc_UserID credential = p_UserID (pe_Principal input) ∧ GetByUser (mc_UserID credential) t' = Ok m ∧
  mc_State m = MFAStatePending ∧
  mc_EncryptedSecret m = SanitizeUnicode (mc_EncryptedSecret credential) ∧ mc_EncryptionKeyID m = SanitizeUnicode (mc_EncryptionKeyID credential).
Proof.
  intros Hinv Hc. unfold SavePending. rewrite Hc. destruct (_ || _) eqn:Eg; [done|]. intros Hrun%runSQLTransaction_Ok.
  rewrite !orb_false_iff in Eg. destruct Eg as [[[[[_ Eu] _] _] _] _]. apply negb_false_iff, bool_decide_eq_true in Eu.
  destruct (kept_pending audit clock id input credential t t' m Hinv Hrun) as (Hinv' & _ & _).
  unfold pending_body in Hrun. apply tx_bind_ok in Hrun as (t1 & [session at_] & _ & Hrun). apply tx_bind_ok in Hrun as (t2 & [] & _ & Hrun).
  apply tx_check in Hrun as ([] & Hv & Hrun). rewrite tx_exec in Hrun. apply tx_bind_ok in Hrun as (t3 & [] & Hins & Hrun).
  apply tx_check in Hrun as ([] & _ & Hrun). apply tx_ret_ok in Hrun as [= -> ->]. set (m := MFACredential_PrepareCreate _ _ _) in *.
  destruct (pending_candidate m Hv) as [Hs _]; [done|].
  assert (Hm : mf_credentials t3 !! mc_ID m = Some m).
  { unfold insertMFACredential, requireMFASecretPrimary in Hins. apply tx_bind_ok in Hins as (? & [] & [_ [= ->]]%refuse_if_ok & Hins).
    do 3 apply tx_bind_ok in Hins as (? & [] & [_ [= ->]]%refuse_if_ok & Hins). apply exec_ok in Hins as [= ->]. cbn. apply lookup_insert_eq. }
  split; [done|]. split; [|by split_and!]. unfold GetByUser. apply ok_fail_if.
  assert (Hu : mc_UserID m = mc_UserID credential) by done. split.
  - unfold MFACredential_Validate in Hv. rewrite !ok_fail_if in Hv. destruct Hv as (_ & _ & _ & Hv & _). by rewrite <-Hu.
  - rewrite (select_unique _ _ (mc_ID m) m); [|done|unfold credential_of; by rewrite bool_decide_true|].
    + cbn. unfold mfaCredentialRow_model, validatePersistedModel. by rewrite Hv.
    + intros k n Hk Hn. unfold credential_of in Hn. apply andb_true_iff in Hn as [Hn1 Hn2]. apply bool_decide_eq_true in Hn1.
      apply negb_true_iff in Hn2. eapply (mi_unique _ Hinv'); [done..|]. congruence.
Qed.

(** C39. The secret a user is shown at setup is the one the server reads back. After a successful setup
    the user's stored credential is pending and, under the ring that sealed it or any later ring that
    still lists that encryption key, decrypts for that user to exactly the secret shown; this composes
    the sealer, the JSON envelope, the sanitizing of stored text and the store. *)
Theorem setup_secret_roundtrip (settings settings' : Settings) (ring ring' : Sealer) (s s' : mfaMechanics) (d : driver)
    (answers : SetupAnswers) (clocks : Time * Time * (Time * Time)) (recentTTL : Z) (raw nonce : list Z) (id : ID) (principal : Principal)
    (t t' : MfaTables) (setup : MFASetup)
  (Hinv : mfa_inv t) (Hring : NewSealer settings = Ok ring) (Hring' : NewSealer settings' = Ok ring')
  (Hs : me_Sealer s = Some ring) (Hs' : me_Sealer s' = Some ring')
  (Hkept : se_EncryptionKey settings ∈ se_EncryptionKey settings' :: se_DecryptionKeys settings')
  (Hmax : len (randomMFASecret raw) ≤ se_MaximumPlaintext settings')
  (Hnonce : Forall is_byte nonce ∧ length nonce = NonceSize)
  (Hsetup : SetupMFA s d answers clocks recentTTL (Some raw) (Some nonce) id principal t = (t', Ok setup)) :
  ∃ m, GetByUser (p_UserID principal) t' = Ok m ∧ mc_State m = MFAStatePending ∧
    st_Secret setup = randomMFASecret raw ∧ decrypt s' (p_UserID principal) m = Ok (st_Secret setup).
Proof.
  unfold SetupMFA in Hsetup. destruct clocks as [[checkedAt now] database]. destruct (_ ≫= _) as [[secret input]|e] eqn:Eprep; [|done].
  apply ok_bind in Eprep as ([] & _ & Eprep). apply ok_bind in Eprep as ([] & _ & Eprep). apply ok_bind in Eprep as ([] & _ & Eprep).
  apply ok_bind in Eprep as (secret' & [= <-] & Eprep). apply ok_bind in Eprep as (sealed & Eseal & Eprep).
  apply ok_bind in Eprep as ([] & _ & Eprep). apply ok_bind in Eprep as (auditID & _ & Eprep). injection Eprep as <- <-.
  destruct (sealTOTPSecret s (Some nonce) (p_UserID principal) (randomMFASecret raw)) as [sealed'|] eqn:Esealed; [|done]. injection Eseal as ->.
  destruct (SavePending _ _ _ _ _ t) as [t1 [m|e]] eqn:Esave; [|done]. injection Hsetup as <- <-.
  eapply saved_pending in Esave as (_ & Hget & Hstate & He & Hk); [|done|reflexivity]. cbn in Hget, He, Hk. exists m. split_and!; [done..|].
  destruct Hnonce. by eapply (sealed_decrypts settings settings' ring ring' s s').
Qed.
End setup.

(** ** Witnesses *)

#[local] Existing Instances tagging tagging_laws.

Definition demo_mechanics (settings : Settings) : mfaMechanics := mkMechanics (mkMFAPolicy true "Proctor" (10 * Minute) 10) (Some (demo_sealer settings)).
Definition demo_raw : list Z := bytes "12345678901234567890".
Definition demo_answers : SetupAnswers := mkSetupAnswers (Ok "user@example.org") (Ok demo_job) (Ok demo_job) (Ok tt) (Ok tt).
Definition demo_store : MfaTables := no_mfa <| mf_sessions := demo_sessions |>.
Definition demo_setup : MfaTables * result MFASetup :=
  SetupMFA (demo_mechanics demo_old_ring) healthy demo_answers (at_unix 1200000010, at_unix 1200000010, demo_clock 1200000010) (15 * Minute)
    (Some demo_raw) (Some demo_nonce) demo_credential_id demo_principal demo_store.
Lemma setup_secret_roundtrip_witness :
  ∃ m, GetByUser demo_user demo_setup.1 = Ok m ∧ mc_State m = MFAStatePending ∧ decrypt (demo_mechanics demo_new_ring) demo_user m = Ok rfc_secret.
Proof.
  destruct (setup_secret_roundtrip demo_old_ring demo_new_ring (demo_sealer demo_old_ring) (demo_sealer demo_new_ring) (demo_mechanics demo_old_ring)
    (demo_mechanics demo_new_ring) healthy demo_answers (at_unix 1200000010, at_unix 1200000010, demo_clock 1200000010) (15 * Minute) demo_raw demo_nonce
    demo_credential_id demo_principal demo_store demo_setup.1 (mkMFASetup rfc_secret (at_unix 1200000610))) as (m & Hget & Hs & _ & Hd).
  - apply (mfa_run_inv [(healthy, MSessions demo_sessions)] no_mfa no_mfa_inv).
  - vm_compute. reflexivity.
  - vm_compute. reflexivity.
  - reflexivity.
  - reflexivity.
  - apply (bool_decide_unpack _). vm_compute. exact I.
  - vm_compute. discriminate.
  - split; [|reflexivity]. apply (bool_decide_unpack _). vm_compute. exact I.
  - vm_compute. reflexivity.
  - exists m. split; [exact Hget|]. split; [exact Hs|exact Hd].
Defined.

Definition demo_sealed : sealedMFASecret :=
  match sealTOTPSecret (demo_mechanics demo_old_ring) (Some demo_nonce) demo_user rfc_secret with Ok x => x | Err _ => mkSealedSecret "" "" end.
Definition demo_enrolled : MfaTables :=
  (mfa_run (pair healthy <$> [MSessions demo_sessions;
     MPending (Ok tt) (demo_clock 1200000010) demo_credential_id (Some (mkPendingEnrollment demo_principal
       (Some (mkMFACredential "" zeroTime zeroTime noTime demo_user MFAStatePending (sm_encoded demo_sealed) (sm_keyID demo_sealed) noTime noTime 0))
       (10 * Minute) (15 * Minute) demo_job)); demo_activate]) no_mfa).1.
Definition demo_row : MFACredential :=
  match GetByUser demo_user demo_enrolled with Ok m => m | Err _ => mkMFACredential "" zeroTime zeroTime noTime "" MFAStatePending "" "" noTime noTime 0 end.
Definition demo_password : string := default "" (computeTOTP rfc_secret 40000001).
Lemma login_second_factor_decided_witness :
  (verifyLogin (demo_mechanics demo_new_ring) healthy demo_user demo_password (at_unix 1200000035) demo_enrolled).2 = Ok (AuthenticationMultiFactor, 1200000035000) ∧
  is_ok (verifyLogin (demo_mechanics demo_new_ring) healthy demo_user "000000" (at_unix 1200000035) demo_enrolled).2 = false.
Proof.
  split; [|vm_compute; reflexivity].
  assert (Hinv : mfa_inv demo_enrolled) by (apply mfa_run_inv, no_mfa_inv).
  assert (Hget : GetByUser demo_user demo_enrolled = Ok demo_row) by (vm_compute; reflexivity).
  assert (Hact : MFACredential_IsActive (Some demo_row) = true) by (vm_compute; reflexivity).
  pose proof (login_second_factor_decided (demo_mechanics demo_new_ring) demo_enrolled demo_user demo_password (at_unix 1200000035) demo_row Hinv Hget eq_refl) as Hl.
  cbv zeta in Hl. rewrite Hact in Hl. destruct Hl as [Hl _].
  destruct (Hl (FStep demo_credential_id 40000001) eq_refl) as [Hr _].
  - split; [vm_compute; reflexivity|]. split; [vm_compute; reflexivity|]. exists rfc_secret. split; vm_compute; reflexivity.
  - rewrite Hr. vm_compute. reflexivity.
Defined.
