(* ===== verification/MfaRekey.v ===== *)
(** * The MFA rekey Job

    Models [server/app/jobhandler/mfa_rekey.go] and the pages it reads from
    [server/store/sqlstore/mfa_rekey_store.go]: the Job that seals every live TOTP secret again
    with the fenced primary key, so that the old key can be retired, and the start of one, which
    moves the fence.  The strict decoding of the Job's documents, the nonces drawn, the answers to
    a checkpoint and what other transactions do between the Job's statements are arguments. *)

From S2P Require Import Prelude GoTime GoStrings Ident ModelError AppErrors Actions Roles DesktopRelease Principal Session Sha256 CanonicalJson GoMarshal GoUnmarshal SecretSeal Job Mfa MfaCodes SqlTx SessionStore MfaStore MfaSafety MfaService.

(** ** Pages of the store *)

Record MFARekeyTarget := mkRekeyTarget { tg_CredentialID : ID; tg_UserID : ID; tg_KeyID : string; tg_EncryptedSecret : string }.
Record MFARekeyTargetPageRequest := mkPageRequest { pr_JobID : ID; pr_PrimaryKeyID : string; pr_AfterCredentialID : ID; pr_Limit : nat }.
Record MFARekeyTargetPage := mkPage { pg_Targets : list MFARekeyTarget; pg_More : bool }.

(** [ORDER BY id], over the primary keys of the rows that satisfy the condition. *)
Definition ordered_ids (p : MFACredential → bool) (rows : gmap ID MFACredential) : list ID :=
  merge_sort string_le (elements (dom (filter (λ kv, p kv.2 = true) rows))).
Definition after (id other : ID) : Prop := Compare id other = Lt.
#[export] Instance after_dec id other : Decision (after id other).
Proof. unfold after. apply _. Defined.
Definition rekey_rows (primaryKeyID : string) (afterID : ID) (t : MfaTables) : list MFACredential :=
  omap (λ id, mf_credentials t !! id) (filter (after afterID) (ordered_ids (not_sealed_with primaryKeyID) (mf_credentials t))).
Definition rekey_target (row : MFACredential) : result MFARekeyTarget :=
  let target := mkRekeyTarget (mc_ID row) (mc_UserID row) (TrimSpace (mc_EncryptionKeyID row)) (mc_EncryptedSecret row) in
  fail_if negb (ID_IsValid (tg_CredentialID target)) || negb (ID_IsValid (tg_UserID target)) || negb (validMFAKeyID (tg_KeyID target))
          || (tg_EncryptedSecret target ==? "")
    with invalidPersistedState "mfa_rekey" "target" (SentinelError "MFA rekey target row is invalid") ;;
  Ok target.
Fixpoint rekey_targets (rows : list MFACredential) : result (list MFARekeyTarget) :=
  match rows with
  | [] => Ok []
  | row :: rows => target ← rekey_target row; targets ← rekey_targets rows; Ok (target :: targets)
  end.
Definition page_body (request : MFARekeyTargetPageRequest) : Tx MfaTables MFARekeyTargetPage :=
  _ ← requireMFARekeyFence (pr_JobID request) (pr_PrimaryKeyID request);
  rows ← query (λ t, take (pr_Limit request + 1) (rekey_rows (pr_PrimaryKeyID request) (pr_AfterCredentialID request) t));
  targets ← check (rekey_targets (take (pr_Limit request) rows));
  mret (mkPage targets (pr_Limit request <? length rows)%nat).
Definition ListRekeyTargets (d : driver) (request : MFARekeyTargetPageRequest) (t : MfaTables) : MfaTables * result MFARekeyTargetPage :=
  if negb (ID_IsValid (pr_JobID request)) || negb (validMFAKeyID (pr_PrimaryKeyID request)) || (pr_Limit request <? 1)%nat || (500 <? pr_Limit request)%nat
     || negb (ID_IsZero (pr_AfterCredentialID request)) && negb (ID_IsValid (pr_AfterCredentialID request))
  then (t, mthrow (mfa_input "mfa_rekey" "page"))
  else runSQLTransaction d "MFA rekey target page" (page_body request) t.

(** ** The documents of the Job *)

Definition mfaRekeyPageSize : nat := 100.
Record MFARekeyCommand := mkRekeyCommand { cm_PrimaryKeyID : string; cm_RetiringKeyID : string }.
Record MFARekeyCheckpoint := mkRekeyCheckpoint { cp_AfterCredentialID : ID; cp_Processed : Z; cp_Resealed : Z }.
Record MFARekeyResult := mkRekeyResult {
  rr_PrimaryKeyID : string;
  rr_RetiringKeyID : string;
  rr_Processed : Z;
  rr_Resealed : Z;
  rr_NonPrimaryReferences : Z;
  rr_RetiringReferences : Z;
  rr_RetirementSafe : bool }.
(** [document]: what the Job's checkpoint decodes to, if it has one. *)
Definition decodeMFARekeyCheckpoint (document : option (result MFARekeyCheckpoint)) : result MFARekeyCheckpoint :=
  match document with
  | None => Ok (mkRekeyCheckpoint "" 0 0)
  | Some (Err _) => Err (SentinelError "MFA rekey checkpoint is invalid")
  | Some (Ok checkpoint) =>
      fail_if (cp_Processed checkpoint <? 1) || (cp_Resealed checkpoint <? 0) || (cp_Processed checkpoint <? cp_Resealed checkpoint)
              || negb (ID_IsValid (cp_AfterCredentialID checkpoint))
        with SentinelError "MFA rekey checkpoint is invalid" ;;
      Ok checkpoint
  end.

(** ** The start of a rekey *)

Definition JobTypeMFARekey : JobType := "mfa.rekey".
(** The row of the Job that holds the fence, its documents decoded. *)
Record mfaRekeyCompletionRow := mkCompletion {
  co_Type : JobType;
  co_Status : option JobStatus;
  co_Command : result MFARekeyCommand;
  co_Result : option (result MFARekeyResult) }.
Definition completedMFARekeyProves (job : mfaRekeyCompletionRow) (requiredPrimaryKeyID : string) : bool :=
  if negb (validMFAKeyID requiredPrimaryKeyID) || (co_Type job !=? JobTypeMFARekey) || (co_Status job !=? Some JobStatusSucceeded) then false
  else match co_Command job, co_Result job with
       | Ok command, Some document =>
           if (cm_PrimaryKeyID command !=? requiredPrimaryKeyID) || negb (validMFAKeyID (cm_RetiringKeyID command))
              || (cm_RetiringKeyID command ==? cm_PrimaryKeyID command) then false
           else match document with
                | Ok proof =>
                    (rr_PrimaryKeyID proof ==? cm_PrimaryKeyID command) && (rr_RetiringKeyID proof ==? cm_RetiringKeyID command)
                    && (0 <=? rr_Processed proof) && (0 <=? rr_Resealed proof) && (rr_Resealed proof <=? rr_Processed proof)
                    && (rr_NonPrimaryReferences proof =? 0) && (rr_RetiringReferences proof =? 0) && rr_RetirementSafe proof
                | Err _ => false
                end
       | _, _ => false
       end.
Definition mfaRekeyMaximumAttempts : Z := 10.
Record MFARekeyStart := mkRekeyStart {
  st_PrimaryKeyID : string;
  st_RetiringKeyID : string;
  st_Job : option Job;
  st_AuditEventID : ID;
  st_AuditAt : Time }.
(** [decoded]: what the Job's command decodes to. *)
Definition validateMFARekeyStart (decoded : result MFARekeyCommand) (input : MFARekeyStart) (job : Job) : result unit :=
  fail_if negb (ID_IsValid (st_AuditEventID input)) || Time_IsZero (st_AuditAt input) || negb (validMFAKeyID (st_PrimaryKeyID input))
          || negb (validMFAKeyID (st_RetiringKeyID input)) || (st_PrimaryKeyID input ==? st_RetiringKeyID input)
          || negb (is_ok (Job_Validate (Some job))) || (j_Type job !=? JobTypeMFARekey) || (j_Status job !=? JobStatusQueued)
          || negb (j_MaximumAttempts job =? mfaRekeyMaximumAttempts) || negb (j_AttemptCount job =? 0)
          || (j_DedupePolicy job !=? JobDedupeActive) || negb (j_Revision job =? 1) || ot_Valid (j_StartedAt job)
          || ot_Valid (j_CompletedAt job) || (j_Checkpoint job !=? "") || (j_Result job !=? "")
          || (match j_Progress job with Some _ => true | None => false end) || negb (j_WorkReserved job =? 0)
    with mfa_input "mfa_rekey" "value" ;;
  match decoded with
  | Ok command =>
      fail_if (cm_PrimaryKeyID command !=? st_PrimaryKeyID input) || (cm_RetiringKeyID command !=? st_RetiringKeyID input)
        with mfa_input "mfa_rekey" "command" ;;
      Ok tt
  | Err err => Err (StoreError ErrInvalidInput "mfa_rekey" "command" (Some err))
  end.
(** [completion]: the row of a Job, and an empty one when there is none; [inserted] and [audit]:
    what the tables of Jobs and audit events answer. *)
Definition start_body (completion : ID → mfaRekeyCompletionRow) (inserted audit : result unit) (input : MFARekeyStart) (job : Job)
    : Tx MfaTables (ID * string * string * Time) :=
  state ← query mf_key;
  let priorCompletion := completion <$> mk_ActiveRekeyJobID state in
  fail_if match priorCompletion with
          | Some prior => (co_Status prior ==? Some JobStatusQueued) || (co_Status prior ==? Some JobStatusRunning) || (co_Status prior ==? Some JobStatusCancelRequested)
          | None => false
          end with StoreError ErrConflict "mfa_rekey" "active_operation" None ;;
  _ ← match mk_RequiredPrimaryKeyID state with
      | Some required =>
          if required !=? st_PrimaryKeyID input then
            fail_if match priorCompletion with Some prior => negb (completedMFARekeyProves prior required) | None => true end
              with StoreError ErrConflict "mfa_rekey" "primary_promotion_unproven" None ;;
            refuse_if (λ t, negb (affected (not_sealed_with required) (mf_credentials t) =? 0)%nat)
              (StoreError ErrConflict "mfa_rekey" "primary_promotion_unproven" None)
          else mret tt
      | None => mret tt
      end;
  _ ← check inserted;
  _ ← exec (λ t, t <| mf_key := mkMfaKeyState (Some (st_PrimaryKeyID input)) (Some (j_ID job)) |>);
  _ ← check audit;
  mret (j_ID job, st_PrimaryKeyID input, st_RetiringKeyID input, j_CreatedAt job).
Definition StartRekey (d : driver) (decoded : result MFARekeyCommand) (completion : ID → mfaRekeyCompletionRow) (inserted audit : result unit)
    (input : option MFARekeyStart) (t : MfaTables) : MfaTables * result (ID * string * string * Time) :=
  match input with
  | Some input =>
      match st_Job input with
      | Some job =>
          match validateMFARekeyStart decoded input job with
          | Err err => (t, Err err)
          | Ok _ => executeSQLTransaction d (rawSQLTransactionPolicy true (λ _, WrappedError "commit MFA rekey start")) (start_body completion inserted audit input job) t
          end
      | None => (t, mthrow (mfa_input "mfa_rekey" "value"))
      end
  | None => (t, mthrow (mfa_input "mfa_rekey" "value"))
  end.

(** ** The handler *)

Inductive Outcome :=
  | OutcomeSucceeded (result : MFARekeyResult)
  | RetryableFailure (code : string)
  | PermanentFailure (code : string)
  | Relinquished (code : string).

Definition mfaRekeyOutcome (err : error) : Outcome :=
  if found (As_store ErrConflict err) then PermanentFailure "mfa.rekey.fenced" else RetryableFailure "dependency.unavailable".
Definition validateMFARekeyProof (proof : MFARekeyProof) (command : MFARekeyCommand) : bool :=
  negb ((rp_PrimaryKeyID proof !=? cm_PrimaryKeyID command) || (rp_RetiringKeyID proof !=? cm_RetiringKeyID command)
        || (rp_NonPrimaryReferences proof <? 0) || (rp_RetiringReferences proof <? 0)
        || (rp_NonPrimaryReferences proof <? rp_RetiringReferences proof)
        || negb (Bool.eqb (rp_RetirementSafe proof) (rp_RetiringReferences proof =? 0))).

(** The statements of the handler, each with the number of targets processed before it. *)
Inductive Call :=
  | CallInitialProof
  | CallPage (processed : Z)
  | CallReplace (processed : Z)
  | CallProof.

Section handler.
Context `{AEAD}.
Context (sealer : Sealer) (jobID : ID) (command : MFARekeyCommand).
(** What the driver answers to a statement, and what other transactions commit before it. *)
Context (drivers : Call → driver) (others : Call → MfaTables → MfaTables).
(** The nonce drawn for a target, and the answer to a checkpoint of the progress. *)
Context (nonces : Z → option (list Z)) (save : MFARekeyCheckpoint → Z → result unit).

Definition reseal (target : MFARekeyTarget) (nonce : option (list Z)) : result MFARekeyReplacement :=
  fail_if negb (ID_IsValid (tg_UserID target)) || (tg_EncryptedSecret target ==? "") with SentinelError "MFA rekey target identity is invalid" ;;
  match UnmarshalEnvelope (tg_EncryptedSecret target) with
  | None => Err (SentinelError "MFA rekey envelope is invalid")
  | Some envelope =>
      fail_if en_KeyID envelope !=? tg_KeyID target with SentinelError "MFA rekey envelope is invalid" ;;
      let binding := mkBinding MFASealingPurpose (tg_UserID target) in
      plaintext ← Open (Some sealer) binding envelope;
      match Seal (Some sealer) binding plaintext nonce with
      | Err _ => Err (SentinelError "MFA rekey could not use the fenced primary key")
      | Ok rotated =>
          fail_if en_KeyID rotated !=? cm_PrimaryKeyID command with SentinelError "MFA rekey could not use the fenced primary key" ;;
          Ok (mkRekeyReplacement jobID (tg_CredentialID target) (tg_KeyID target) (cm_PrimaryKeyID command) (MarshalEnvelope rotated))
      end
  end.
Definition unusable (target : MFARekeyTarget) (checkpoint : MFARekeyCheckpoint) : bool :=
  negb (ID_IsValid (tg_CredentialID target)) || negb (bool_decide (after (cp_AfterCredentialID checkpoint) (tg_CredentialID target)))
  || (tg_KeyID target ==? cm_PrimaryKeyID command) || negb (HasKey (Some sealer) (tg_KeyID target)).
Definition advance (target : MFARekeyTarget) (applied : bool) (checkpoint : MFARekeyCheckpoint) : MFARekeyCheckpoint :=
  mkRekeyCheckpoint (tg_CredentialID target) (int64_succ (cp_Processed checkpoint))
    (if applied then int64_succ (cp_Resealed checkpoint) else cp_Resealed checkpoint).
(** The loop over the targets of a page. *)
Fixpoint rekey_page (targets : list MFARekeyTarget) (progressTotal : Z) (checkpoint : MFARekeyCheckpoint) (t : MfaTables)
    : MfaTables * (Outcome + MFARekeyCheckpoint) :=
  match targets with
  | [] => (t, inr checkpoint)
  | target :: targets =>
      if unusable target checkpoint then (t, inl (PermanentFailure "mfa.rekey.invariant_failed"))
      else match reseal target (nonces (cp_Processed checkpoint)) with
           | Err _ => (t, inl (PermanentFailure "mfa.rekey.secret_unavailable"))
           | Ok replacement =>
               let call := CallReplace (cp_Processed checkpoint) in
               match ReplaceRekeyTarget (drivers call) (Some replacement) (others call t) with
               | (t, Err err) => (t, inl (mfaRekeyOutcome err))
               | (t, Ok applied) =>
                   let checkpoint := advance target applied checkpoint in
                   match save checkpoint (Z.max progressTotal (cp_Processed checkpoint)) with
                   | Err _ => (t, inl (RetryableFailure "dependency.unavailable"))
                   | Ok _ => rekey_page targets progressTotal checkpoint t
                   end
               end
           end
  end.
(** The loop over pages; [None] is out of fuel. *)
Fixpoint rekey_pages (fuel : nat) (progressTotal : Z) (checkpoint : MFARekeyCheckpoint) (t : MfaTables)
    : option (MfaTables * (Outcome + MFARekeyCheckpoint)) :=
  match fuel with
  | O => None
  | S fuel =>
      let call := CallPage (cp_Processed checkpoint) in
      let request := mkPageRequest jobID (cm_PrimaryKeyID command) (cp_AfterCredentialID checkpoint) mfaRekeyPageSize in
      match ListRekeyTargets (drivers call) request (others call t) with
      | (t, Err err) => Some (t, inl (mfaRekeyOutcome err))
      | (t, Ok page) =>
          if (mfaRekeyPageSize <? length (pg_Targets page))%nat || pg_More page && (length (pg_Targets page) =? 0)%nat
          then Some (t, inl (PermanentFailure "mfa.rekey.invariant_failed"))
          else match rekey_page (pg_Targets page) progressTotal checkpoint t with
               | (t, inl outcome) => Some (t, inl outcome)
               | (t, inr checkpoint) => if pg_More page then rekey_pages fuel progressTotal checkpoint t else Some (t, inr checkpoint)
               end
      end
  end.
(** What the last proof of the Job decides. *)
Definition conclude (checkpoint : MFARekeyCheckpoint) (proof : MFARekeyProof) : Outcome :=
  if negb (validateMFARekeyProof proof command) then PermanentFailure "mfa.rekey.invariant_failed"
  else if negb (rp_NonPrimaryReferences proof =? 0) || negb (rp_RetirementSafe proof) then RetryableFailure "mfa.rekey.incomplete"
  else OutcomeSucceeded (mkRekeyResult (rp_PrimaryKeyID proof) (rp_RetiringKeyID proof) (cp_Processed checkpoint) (cp_Resealed checkpoint)
                           (rp_NonPrimaryReferences proof) (rp_RetiringReferences proof) (rp_RetirementSafe proof)).
(** [Run] of a Job whose command decoded to [command]. *)
Definition Run (fuel : nat) (document : option (result MFARekeyCheckpoint)) (t : MfaTables) : option (MfaTables * Outcome) :=
  if (cm_PrimaryKeyID command ==? "") || (cm_RetiringKeyID command ==? "") || (cm_RetiringKeyID command ==? cm_PrimaryKeyID command)
     || negb (HasKey (Some sealer) (cm_RetiringKeyID command))
  then Some (t, PermanentFailure "job.command.invalid")
  else if cm_PrimaryKeyID command !=? PrimaryKeyID (Some sealer) then Some (t, Relinquished "mfa.rekey.primary_mismatch")
  else match decodeMFARekeyCheckpoint document with
  | Err _ => Some (t, PermanentFailure "job.checkpoint.invalid")
  | Ok checkpoint =>
      let prove := ProveRekey jobID (cm_PrimaryKeyID command) (cm_RetiringKeyID command) in
      let t := others CallInitialProof t in
      match prove t with
      | Err err => Some (t, mfaRekeyOutcome err)
      | Ok initialProof =>
          if negb (validateMFARekeyProof initialProof command) || (int64_max - cp_Processed checkpoint <? rp_NonPrimaryReferences initialProof)
          then Some (t, PermanentFailure "mfa.rekey.invariant_failed")
          else match rekey_pages fuel (cp_Processed checkpoint + rp_NonPrimaryReferences initialProof) checkpoint t with
               | None => None
               | Some (t, inl outcome) => Some (t, outcome)
               | Some (t, inr checkpoint) =>
                   let t := others CallProof t in
                   match prove t with
                   | Err err => Some (t, mfaRekeyOutcome err)
                   | Ok proof => Some (t, conclude checkpoint proof)
                   end
               end
      end
  end.
End handler.

(** ** What leaves the sealed secrets readable *)

Section carried.
Context `{AEAD}.
Context (policy : MFAPolicy) (sealer : Sealer) (primary : string).

Definition reads (m : MFACredential) (secret : string) : Prop :=
  decrypt (mkMechanics policy (Some sealer)) (mc_UserID m) m = Ok secret.
(** The same sealed secret, or one sealed with the primary that reads the same. *)
Definition same_secret (m m' : MFACredential) : Prop :=
  mc_UserID m' = mc_UserID m ∧
  (mc_EncryptionKeyID m' = mc_EncryptionKeyID m ∧ mc_EncryptedSecret m' = mc_EncryptedSecret m ∨
   mc_EncryptionKeyID m' = primary ∧ ∀ secret, reads m secret → reads m' secret).
Lemma reads_same m m' secret : mc_UserID m' = mc_UserID m → mc_EncryptionKeyID m' = mc_EncryptionKeyID m →
  mc_EncryptedSecret m' = mc_EncryptedSecret m → reads m secret → reads m' secret.
Proof. unfold reads, decrypt. by intros -> -> ->. Qed.
Lemma same_secret_reads m m' secret : same_secret m m' → reads m secret → reads m' secret.
Proof. intros [Hu [[Hk Hs]|[_ Hr]]]; [by apply reads_same|auto]. Qed.
Lemma same_secret_trans m1 m2 m3 : same_secret m1 m2 → same_secret m2 m3 → same_secret m1 m3.
Proof.
  intros H12 H23. assert (R : ∀ secret, reads m1 secret → reads m3 secret) by (intros; by eapply same_secret_reads, same_secret_reads).
  destruct H12 as [U1 [[K1 S1]|[K1 _]]]; destruct H23 as [U2 [[K2 S2]|[K2 _]]]; (split; [congruence|]).
  - left. split; congruence.
  - right. split; [done|]. auto.
  - right. split; [congruence|]. auto.
  - right. split; [done|]. auto.
Qed.
Record carried (t t' : MfaTables) : Prop := {
  ca_key : mf_key t' = mf_key t;
  ca_rows : ∀ k m', mf_credentials t' !! k = Some m' → live m' →
    (∃ m, mf_credentials t !! k = Some m ∧ live m ∧ same_secret m m') ∨ (mf_credentials t !! k = None ∧ mc_EncryptionKeyID m' = primary);
  ca_kept : ∀ k, is_Some (mf_credentials t !! k) → is_Some (mf_credentials t' !! k) }.
Lemma carried_same t t' : mf_credentials t' = mf_credentials t → mf_key t' = mf_key t → carried t t'.
Proof. intros Hc Hk. split; [done| |by rewrite Hc]. rewrite Hc. intros k m Hm Hl. left. exists m. split_and!; [done..|]. split; [done|by left]. Qed.
#[local] Instance carried_refl : Reflexive carried.
Proof. intros t. by apply carried_same. Qed.
#[local] Instance carried_trans : Transitive carried.
Proof.
  intros t1 t2 t3 [K1 R1 D1] [K2 R2 D2]. split; [congruence| |auto]. intros k m3 H3 L3. destruct (R2 k m3 H3 L3) as [(m2 & H2 & L2 & S2)|[N2 P3]].
  - destruct (R1 k m2 H2 L2) as [(m1 & H1 & L1 & S1)|[N1 P2]].
    + left. exists m1. split_and!; [done..|by eapply same_secret_trans].
    + right. split; [done|]. by destruct S2 as [_ [[-> _]|[-> _]]].
  - right. split; [|done]. apply eq_None_not_Some. intros Hs%D1. rewrite N2 in Hs. by destruct Hs.
Qed.
Lemma carried_set p f t : (∀ k m, mf_credentials t !! k = Some m → p m = true → live m → same_secret m (f m)) →
  (∀ m, live (f m) → live m) → carried t (put_credentials (set_where p f) t).
Proof.
  intros Hf Hl. split; [done|cbn..].
  - intros k m' (m & Hk & ->)%lookup_set_where Hm'. left. exists m. destruct (p m) eqn:E; [by eauto 6|]. split_and!; [done..|]. split; [done|by left].
  - intros k [m Hk]. exists (if p m then f m else m). apply lookup_set_where. eauto.
Qed.

(** A body that leaves them readable while the fence requires the primary. *)
Definition bears {A} (m : Tx MfaTables A) : Prop := ∀ t t' a, mk_RequiredPrimaryKeyID (mf_key t) = Some primary → m t = Ok (t', a) → carried t t'.
Lemma bears_bind {A B} (m : Tx MfaTables A) (k : A → Tx MfaTables B) : bears m → (∀ a, bears (k a)) → bears (m ≫= k).
Proof.
  intros Hm Hk t t' b Hp H'. apply tx_bind_ok in H' as (t1 & a & H1 & H2). pose proof (Hm t t1 a Hp H1) as C1. trans t1; [done|].
  apply (Hk a t1 t' b); [by rewrite (ca_key _ _ C1)|done].
Qed.
Lemma bears_same {A} (m : Tx MfaTables A) : (∀ t t' a, m t = Ok (t', a) → mf_credentials t' = mf_credentials t ∧ mf_key t' = mf_key t) → bears m.
Proof. intros Hm t t' a _ Ht. by apply carried_same; eapply Hm. Qed.
Lemma bears_query {A} (f : MfaTables → A) : bears (query f).
Proof. apply bears_same. by intros t t' a [= <- _]. Qed.
Lemma bears_check {A} (r : result A) : bears (check r).
Proof. apply bears_same. intros t t' a. unfold check. destruct r; [by intros [= <- _]|done]. Qed.
Lemma bears_ret {A} (a : A) : bears (mret a).
Proof. apply bears_same. by intros t t' b [= <- _]. Qed.
Lemma bears_throw {A} (e : error) : bears (mthrow e : Tx MfaTables A).
Proof. by intros t t' a _ [=]. Qed.
Lemma bears_refuse f e : bears (refuse_if f e).
Proof. apply bears_same. intros t t' a. unfold refuse_if. destruct (f t); [done|by intros [= <- _]]. Qed.
Lemma bears_sessions {A} (m : Db A) : bears (on_sessions m).
Proof. apply bears_same. intros t t' a. unfold on_sessions. destruct (m _) as [[s x]|]; [by intros [= <- _]|done]. Qed.
Lemma bears_codes f : bears (exec (put_codes f)).
Proof. apply bears_same. by intros t t' a [= <- _]. Qed.
Lemma bears_if {A} (c : bool) (m m' : Tx MfaTables A) : bears m → bears m' → bears (if c then m else m').
Proof. by destruct c. Qed.
Lemma bears_each {A} (f : A → Tx MfaTables unit) l : (∀ a, bears (f a)) → bears (each f l).
Proof. intros Hf. induction l as [|a l IH]; cbn; [apply bears_ret|]. apply bears_bind; [apply Hf|done]. Qed.
Lemma bears_set p f : (∀ m, mc_UserID (f m) = mc_UserID m ∧ mc_EncryptionKeyID (f m) = mc_EncryptionKeyID m ∧
    mc_EncryptedSecret (f m) = mc_EncryptedSecret m ∧ (live (f m) → live m)) → bears (exec (put_credentials (set_where p f))).
Proof.
  intros Hf t t' [] _ [= <-]. apply carried_set; [|intros m; apply Hf]. intros k m _ _ _. destruct (Hf m) as (? & ? & ? & _). split; [done|by left].
Qed.
Lemma bears_insert m : bears (insertMFACredential m).
Proof.
  intros t t' [] Hp Ht. unfold insertMFACredential, requireMFASecretPrimary in Ht.
  apply tx_bind_ok in Ht as (? & [] & [Hprimary [= ->]]%refuse_if_ok & Ht). apply tx_bind_ok in Ht as (? & [] & [Hid [= ->]]%refuse_if_ok & Ht).
  apply tx_bind_ok in Ht as (? & [] & [_ [= ->]]%refuse_if_ok & Ht). apply tx_bind_ok in Ht as (? & [] & [_ [= ->]]%refuse_if_ok & Ht).
  apply exec_ok in Ht as [= ->]. apply bool_decide_eq_false, eq_None_not_Some in Hid. rewrite Hp in Hprimary. apply negb_false_iff, bool_decide_eq_true in Hprimary.
  split; [done|cbn..].
  - intros k n [[<- <-]|[_ Hk]]%lookup_insert_Some Hl; [by right|]. left. exists n. split_and!; [done..|]. split; [done|by left].
  - intros k Hk. apply lookup_insert_is_Some'. by right.
Qed.

(** Every operation of users and administrators does. *)
Create HintDb bears.
#[local] Hint Resolve bears_ret bears_throw bears_query bears_check bears_refuse bears_sessions bears_codes bears_insert : bears.
Ltac bear := repeat lazymatch goal with
  | |- bears (mbind _ _) => apply bears_bind; [|intros ?]
  | |- bears (match ?x with pair _ _ => _ end) => destruct x
  | |- bears (if _ then _ else _) => apply bears_if
  | |- bears (each _ _) => apply bears_each; intros ?
  | |- bears (let _ := _ in _) => cbv zeta
  | |- bears (exec (put_credentials (set_where _ _))) => apply bears_set; by intros ?
  | |- bears _ => solve [eauto with bears nocore]
  end.
Lemma bears_code c : bears (insertMFARecoveryCode c).
Proof. unfold insertMFARecoveryCode. bear. Qed.
Lemma bears_consume consumedAt userID hash at_ : bears (consume_code consumedAt userID hash at_).
Proof. unfold consume_code. bear. Qed.
#[local] Hint Resolve bears_code bears_consume : bears.
Lemma bears_exact userID credentialID step hash at_ : bears (consumeExactMFAFactor userID credentialID step hash at_).
Proof. unfold consumeExactMFAFactor. bear. Qed.
Lemma bears_activate_row input at_ : bears (activatePendingMFACredential input at_).
Proof. unfold activatePendingMFACredential. bear. Qed.
Lemma bears_replace userID prepared at_ : bears (replaceMFARecoveryCodes userID prepared at_).
Proof. unfold replaceMFARecoveryCodes. bear. Qed.
Lemma bears_access result userID at_ : bears (resetMFAUserAccess result userID at_).
Proof. unfold resetMFAUserAccess. bear. Qed.
#[local] Hint Resolve bears_exact bears_activate_row bears_replace bears_access : bears.

Definition user_op (step : driver * MfaOp) : Prop := match step.2 with MRekey _ | MKey _ => False | _ => True end.
Lemma run_bears {A} d operation (body : Tx MfaTables A) t : bears body → mk_RequiredPrimaryKeyID (mf_key t) = Some primary →
  carried t (runSQLTransaction d operation body t).1.
Proof.
  intros Hb Hp. destruct (runSQLTransaction d operation body t) as [t' r] eqn:E.
  apply runSQLTransaction_cases in E as [[-> _]|(a & Ha & _)]; [done|]. by eapply Hb.
Qed.
Lemma step_carried t step : user_op step → mk_RequiredPrimaryKeyID (mf_key t) = Some primary → carried t (mfa_step t step).1.
Proof.
  intros Hop Hp. destruct step as [d op]. assert (Hr : carried t t) by done. destruct op; cbn [mfa_step granting fst snd]; try done.
  - unfold SavePending. destruct input as [input|]; [|done]. destruct (pe_Credential input); [|done]. destruct (_ || _); [done|].
    apply run_bears; [|done]. unfold pending_body. bear.
  - unfold Activate. destruct input as [input|]; [|done]. cbv zeta. destruct (_ || _); [done|].
    destruct (prepareMFARecoveryCodes _ _ _ _); [|done]. destruct (wa_prepared answers); [|done]. apply run_bears; [|done]. unfold activateMFACredential. bear.
  - unfold Challenge. destruct input as [input|]; [|done]. destruct (_ || _); [done|]. apply run_bears; [|done]. unfold challenge_body. bear.
  - unfold ConsumeSecondFactor. destruct (_ || _); [done|]. apply run_bears; [|done]. unfold consumption_body. bear.
  - unfold UpgradeSession. cbv zeta. destruct (_ || _); [done|]. apply run_bears; [|done]. bear.
  - unfold ReplaceRecoveryCodes. destruct input as [input|]; [|done]. destruct (_ || _); [done|].
    destruct (prepareMFARecoveryCodes _ _ _ _); [|done]. destruct (wa_prepared answers); [|done]. apply run_bears; [|done]. unfold regenerate_body. bear.
  - unfold Disable. destruct input as [input|]; [|done]. destruct (_ || _); [done|]. destruct (wa_prepared answers); [|done].
    apply run_bears; [|done]. unfold disable_body. bear.
  - unfold Reset. destruct input as [input|]; [|done]. destruct (_ || _); [done|]. destruct (wa_prepared answers); [|done].
    apply run_bears; [|done]. unfold reset_body. bear.
  - apply run_bears; [|done]. bear.
  - by apply carried_same.
Qed.
Lemma history_carried steps t : Forall user_op steps → mfa_inv t → mk_RequiredPrimaryKeyID (mf_key t) = Some primary →
  carried t (mfa_run steps t).1 ∧ mfa_inv (mfa_run steps t).1.
Proof.
  intros Hops Hinv Hp. split; [|by apply mfa_run_inv]. revert t Hinv Hp.
  induction Hops as [|step steps Hop _ IH]; intros t Hinv Hp; [done|]. cbn. pose proof (step_carried t step Hop Hp) as Hc.
  destruct (step_kept t step Hinv) as (Hi & _). destruct (mfa_step t step) as [t1 f1]. cbn in Hc, Hi.
  specialize (IH t1 Hi). destruct (mfa_run steps t1) as [t2 f2]. cbn in *. trans t1; [done|]. apply IH. by rewrite (ca_key _ _ Hc).
Qed.
End carried.

(** ** Counts and sorted lists *)

Lemma affected_size {K A} `{Countable K} (p : A → bool) (rows : gmap K A) : affected p rows = size (filter (λ kv, p kv.2 = true) rows).
Proof.
  unfold affected, select. rewrite map_filter_alt, <-length_map_to_list, map_to_list_to_map.
  - induction (map_to_list rows) as [|[k a] l IH]; [done|]. cbn [fmap list_fmap snd]. rewrite !filter_cons. cbn [snd]. case_decide; cbn; auto.
  - pose proof (NoDup_fst_map_to_list rows) as Hnd. induction (map_to_list rows) as [|[k a] l IH]; [constructor|].
    apply NoDup_cons in Hnd as [Hn Hnd]. rewrite filter_cons. case_decide; [|by apply IH]. cbn. apply NoDup_cons. split; [|by apply IH].
    intros (kv & Hk & [_ Hin]%list_elem_of_filter)%list_elem_of_fmap. apply Hn, list_elem_of_fmap. eauto.
Qed.
#[local] Instance string_le_trans : Transitive string_le.
Proof. intros a b c. apply compare_bytes_trans. Qed.
#[local] Instance string_le_total : Total string_le.
Proof. intros a b. unfold string_le, Compare. rewrite (compare_bytes_opp (bytes a)). destruct (compare_bytes _ _); auto. Qed.
Lemma sorted_after l : StronglySorted string_le l → NoDup l → StronglySorted after l.
Proof.
  induction 1 as [|x l _ IH Hx]; [constructor|]. intros [Hn Hnd]%NoDup_cons. constructor; [auto|]. rewrite Forall_forall in *. intros y Hy.
  destruct (Compare_lt_or x y (Hx y Hy)) as [|<-]; done.
Qed.
Lemma sorted_filter {A} (R : A → A → Prop) (P : A → Prop) `{∀ x, Decision (P x)} l : StronglySorted R l → StronglySorted R (filter P l).
Proof.
  induction 1 as [|x l _ IH Hx]; [constructor|]. destruct (decide (P x)); [rewrite filter_cons_True by done|by rewrite filter_cons_False].
  constructor; [done|]. rewrite Forall_forall in *. intros y [_ Hy]%list_elem_of_filter. auto.
Qed.

(** ** The length of an envelope *)

Lemma marshal_string_length s : ascii_bytes s → (length (marshal_string s) ≤ 6 * length s + 2)%nat.
Proof.
  intros Hs. rewrite marshal_string_ascii by done. rewrite !length_app. cbn [length]. enough (length (concat (map marshal_ascii s)) ≤ 6 * length s)%nat by lia.
  induction Hs as [|c s Hc _ IH]; [done|]. cbn [map concat]. rewrite length_app. cbn [length].
  apply (ascii_cases (λ c, (length (marshal_ascii c) <=? 6)%nat)) in Hc; [|by vm_compute]. apply Nat.leb_le in Hc. lia.
Qed.
Lemma marshal_envelope_length e : ascii_envelope e → en_Version e = EnvelopeVersion1 →
  len (MarshalEnvelope e) ≤ 6 * (len (en_Algorithm e) + len (en_KeyID e) + len (en_Nonce e) + len (en_Ciphertext e)) + 80.
Proof.
  intros He Hv. unfold len at 1. rewrite <-length_bytes, marshal_envelope_bytes by done. destruct He as [_ Hs]. rewrite !Forall_cons in Hs.
  destruct Hs as (Ha & Hk & Hn & Hc & _). unfold envelope_struct. rewrite Hv. unfold struct_json. cbn [fmap list_fmap field_json fst snd Marshal map join].
  apply marshal_string_length in Ha, Hk, Hn, Hc. rewrite !length_bytes in *. unfold len.
  cbn [concat]. rewrite !length_app. cbn [length app]. rewrite !length_app. cbn [length app].
  change (length (marshal_string (bytes "version"))) with 9%nat. change (length (marshal_string (bytes "algorithm"))) with 11%nat.
  change (length (marshal_string (bytes "key_id"))) with 8%nat. change (length (marshal_string (bytes "nonce"))) with 7%nat.
  change (length (marshal_string (bytes "ciphertext"))) with 12%nat. change (length (bytes (FormatInt EnvelopeVersion1))) with 1%nat. lia.
Qed.

(** ** One target *)

Lemma key_id_trimmed key : validMFAKeyID key = true → TrimSpace key = key ∧ key ≠ "" ∧ sealer_validKeyID key = true.
Proof.
  intros Hk. split; [|split; [by intros ->|done]]. unfold validMFAKeyID in Hk. rewrite !andb_true_iff in Hk. destruct Hk as [[_ Hd] _].
  unfold hex_decodes in Hd. apply andb_true_iff in Hd as [_ Hd]. rewrite forallb_forall in Hd.
  assert (Ha : ascii_bytes (bytes key)).
  { apply Forall_forall. intros c Hc%list_elem_of_In%Hd. unfold hex_digit, in_range in Hc. lia. }
  destruct (TrimSpace_ascii key Ha) as (l & r & E & Hs). assert (Hempty : l ++ r = []).
  { destruct (l ++ r) as [|c x] eqn:Elr; [done|]. apply Forall_cons in Hs as [Hc _]. exfalso.
    assert (Hin : In c (bytes key)). { rewrite E. assert (Hin : c ∈ l ++ r) by (rewrite Elr; left). rewrite <-list_elem_of_In. set_solver. }
    apply Hd in Hin. unfold hex_digit, IsSpace, in_range in *. lia. }
  apply app_eq_nil in Hempty as [-> ->]. cbn in E. rewrite app_nil_r in E. by apply bytes_inj.
Qed.

Section rekey.
Context `{AEADLaws}.
Context (policy : MFAPolicy) (settings : Settings) (sealer : Sealer) (Hring : NewSealer settings = Ok sealer).
Context (jobID : ID) (command : MFARekeyCommand) (Hprimary : cm_PrimaryKeyID command = sl_primaryKeyID sealer).
#[local] Notation primary := (cm_PrimaryKeyID command).
#[local] Notation reads := (reads policy sealer).

(** The binding limits a plaintext well below what a column holds. *)
Definition short_secret : Z := 256.
Definition resealable (m : MFACredential) : Prop :=
  ID_IsValid (mc_ID m) = true ∧ ID_IsValid (mc_UserID m) = true ∧ validMFAKeyID (mc_EncryptionKeyID m) = true ∧ mc_EncryptedSecret m ≠ "" ∧
  ∃ secret, reads m secret ∧ len secret ≤ short_secret.
Lemma reads_ok m secret : reads m secret ↔ ∃ envelope, UnmarshalEnvelope (mc_EncryptedSecret m) = Some envelope ∧ en_KeyID envelope = mc_EncryptionKeyID m ∧
  Open (Some sealer) (mkBinding MFASealingPurpose (mc_UserID m)) envelope = Ok (bytes secret).
Proof.
  unfold MfaRekey.reads, decrypt. cbn [me_Sealer]. destruct (UnmarshalEnvelope _) as [e|]; [|naive_solver].
  rewrite ok_fail_if, ok_bind, negb_false_iff, bool_decide_eq_true. destruct (NewSealer_ok _ _ Hring) as (Hr & _). split.
  - intros (Hk & p & Hp & [= <-]). exists e. split_and!; [done..|]. rewrite bytes_string_of_bytes; [done|]. by apply Open_ok in Hp as (_ & Hb & _).
  - intros (e' & [= <-] & Hk & Ho). split_and!; [done..|]. eexists. split; [done|]. by rewrite string_of_bytes_bytes.
Qed.
Definition target_of (m : MFACredential) : MFARekeyTarget := mkRekeyTarget (mc_ID m) (mc_UserID m) (mc_EncryptionKeyID m) (mc_EncryptedSecret m).
Lemma resealable_key m : resealable m → HasKey (Some sealer) (mc_EncryptionKeyID m) = true.
Proof.
  intros (_ & _ & Hk & _ & secret & (e & _ & He & Ho)%reads_ok & _). destruct (NewSealer_ok _ _ Hring) as (Hr & _).
  apply Open_ok in Ho as (_ & _ & _ & key & _ & Hl & _); [|done]. rewrite He in Hl. unfold HasKey. rewrite Hl, bool_decide_true by done.
  by destruct (key_id_trimmed _ Hk) as (_ & _ & ->).
Qed.
Lemma sealed_fits key binding secret nonce : len secret ≤ short_secret → Forall is_byte nonce → length nonce = NonceSize →
  len (MarshalEnvelope (sealed_envelope (keyIdentity key) key binding (bytes secret) nonce)) ≤ 4096.
Proof.
  intros Hlen Hn Hnl. pose proof (bytes_is_byte secret) as Hb. pose proof (marshal_envelope_length _ (sealed_ascii key binding (bytes secret) nonce Hb Hn) eq_refl) as Hml.
  set (e := sealed_envelope _ _ _ _ _) in *. assert (Ha : len (en_Algorithm e) = 11) by done.
  assert (Hk : len (en_KeyID e) = 32).
  { pose proof (keyIdentity_valid key) as Hv. unfold sealer_validKeyID in Hv. rewrite !andb_true_iff in Hv. destruct Hv as [[Hv _] _]. apply Z.eqb_eq in Hv. exact Hv. }
  assert (Hnonce : len (en_Nonce e) = 16). { change (en_Nonce e) with (EncodeToString nonce). rewrite EncodeToString_length, Hnl by done. reflexivity. }
  assert (Hc : len (en_Ciphertext e) ≤ 363).
  { change (en_Ciphertext e) with (EncodeToString (aead_seal key nonce (bytes secret) (authenticatedData binding
      (mkEnvelope EnvelopeVersion1 AlgorithmAES256GCM (keyIdentity key) (EncodeToString nonce) "")))).
    rewrite EncodeToString_length by (by apply aead_seal_bytes). rewrite aead_seal_length.
    change 363 with (RawURL_EncodedLen 272). apply EncodedLen_mono. rewrite length_bytes. unfold len, short_secret in Hlen. lia. }
  lia.
Qed.
(** Resealing gives an envelope that fits its column and reads the same. *)
Lemma reseal_ok m nonce : resealable m → Forall is_byte nonce → length nonce = NonceSize →
  ∃ document, reseal sealer jobID command (target_of m) (Some nonce) =
      Ok (mkRekeyReplacement jobID (mc_ID m) (mc_EncryptionKeyID m) primary document) ∧
    document ≠ "" ∧ len document ≤ 4096 ∧
    ∀ m' secret, mc_UserID m' = mc_UserID m → mc_EncryptionKeyID m' = primary → mc_EncryptedSecret m' = document → reads m secret → reads m' secret.
Proof.
  intros (_ & Hu & Hkey & Hne & secret & Hr & Hlen) Hn Hnl. destruct (NewSealer_ok _ _ Hring) as (Hro & _).
  pose proof Hr as (e & He & Hk & Ho)%reads_ok. pose proof Ho as (Hb & Hbytes & Hmax & _)%Open_ok; [|done].
  destruct (ro_primary _ Hro) as [key Hpk]. pose proof (ro_identity _ Hro _ _ Hpk) as Hid.
  set (binding := mkBinding MFASealingPurpose (mc_UserID m)) in *. set (rotated := sealed_envelope (sl_primaryKeyID sealer) key binding (bytes secret) nonce).
  assert (Hseal : Seal (Some sealer) binding (bytes secret) (Some nonce) = Ok rotated) by (apply Seal_ok; eauto 6).
  assert (Hascii : ascii_envelope rotated) by (unfold rotated; rewrite Hid; by apply sealed_ascii).
  exists (MarshalEnvelope rotated). split_and!.
  - unfold reseal, target_of. cbn [tg_UserID tg_EncryptedSecret tg_KeyID tg_CredentialID]. apply ok_fail_if. split.
    { rewrite Hu. cbn. by apply bool_decide_eq_false. }
    rewrite He. apply ok_fail_if. split; [by rewrite bool_decide_true|]. apply ok_bind. exists (bytes secret). split; [done|]. fold binding. rewrite Hseal.
    apply ok_fail_if. split; [|done]. unfold rotated. cbn. by rewrite bool_decide_true.
  - intros E. pose proof (envelope_roundtrip _ Hascii) as Hrt. assert (N : UnmarshalEnvelope "" = None) by (vm_compute; reflexivity). rewrite E, N in Hrt. done.
  - unfold rotated. rewrite Hid. by apply sealed_fits.
  - intros m' secret' Eu Ek Es Hr'. assert (secret' = secret) as -> by (unfold MfaRekey.reads in *; congruence).
    apply reads_ok. exists rotated. rewrite Es, envelope_roundtrip, Eu, Ek by done. split_and!; [done|by unfold rotated|].
    apply Open_ok; [done|]. split_and!; [done..|]. exists key, nonce. by split_and!.
Qed.

(** ** What is left to reseal *)

#[local] Notation carried := (carried policy sealer primary).
#[local] Existing Instances carried_refl carried_trans.
Definition pending (t : MfaTables) : gset ID := dom (filter (λ kv, not_sealed_with primary kv.2 = true) (mf_credentials t)).
Lemma elem_of_pending t k : k ∈ pending t ↔ ∃ m, mf_credentials t !! k = Some m ∧ live m ∧ mc_EncryptionKeyID m ≠ primary.
Proof.
  unfold pending. rewrite elem_of_dom. unfold is_Some. setoid_rewrite map_lookup_filter_Some. cbn. unfold not_sealed_with, live.
  setoid_rewrite andb_true_iff. setoid_rewrite negb_true_iff. setoid_rewrite bool_decide_eq_false. done.
Qed.
(** A row left from before has the secret it had. *)
Lemma carried_pending t t' k m' : carried t t' → mf_credentials t' !! k = Some m' → live m' → mc_EncryptionKeyID m' ≠ primary →
  ∃ m, mf_credentials t !! k = Some m ∧ live m ∧ mc_UserID m' = mc_UserID m ∧ mc_EncryptionKeyID m' = mc_EncryptionKeyID m ∧
    mc_EncryptedSecret m' = mc_EncryptedSecret m.
Proof.
  intros Hc Hk Hl Hne. destruct (ca_rows _ _ _ _ _ Hc k m' Hk Hl) as [(m & Hm & Hlm & Hu & [[Ek Es]|[Ek _]])|[_ Ek]]; [|done..]. by exists m.
Qed.
Lemma pending_carried t t' : carried t t' → pending t' ⊆ pending t.
Proof.
  intros Hc k (m' & Hk & Hl & Hne)%elem_of_pending. destruct (carried_pending t t' k m' Hc Hk Hl Hne) as (m & Hm & Hlm & _ & Ek & _).
  apply elem_of_pending. exists m. split_and!; [done..|congruence].
Qed.
(** The rows left are resealable when they were at the start. *)
Definition ready (t : MfaTables) : Prop := mfa_inv t ∧ mf_key t = mkMfaKeyState (Some primary) (Some jobID) ∧
  ∀ k m, mf_credentials t !! k = Some m → live m → mc_EncryptionKeyID m ≠ primary → resealable m.
Lemma resealable_same m m' : mc_ID m' = mc_ID m → mc_UserID m' = mc_UserID m → mc_EncryptionKeyID m' = mc_EncryptionKeyID m →
  mc_EncryptedSecret m' = mc_EncryptedSecret m → resealable m → resealable m'.
Proof.
  intros Ei Eu Ek Es (Hi & Hu & Hk & Hs & secret & Hr & Hl). unfold resealable. rewrite Ei, Eu, Ek, Es. split_and!; [done..|].
  exists secret. split; [by eapply reads_same|done].
Qed.
Lemma ready_carried t t' : carried t t' → mfa_inv t' → ready t → ready t'.
Proof.
  intros Hc Hinv' (Hinv & Hkey & Hrows). split_and!; [done|by rewrite (ca_key _ _ _ _ _ Hc)|]. intros k m' Hk Hl Hne.
  destruct (carried_pending t t' k m' Hc Hk Hl Hne) as (m & Hm & Hlm & Eu & Ek & Es). eapply resealable_same; [|done..|].
  - rewrite (proj1 (mi_credential _ Hinv' k m' Hk)). by rewrite (proj1 (mi_credential _ Hinv k m Hm)).
  - apply (Hrows k); [done..|congruence].
Qed.

(** ** A replacement *)

Context (Hjob : ID_IsValid jobID = true).
Lemma primary_valid : validMFAKeyID primary = true.
Proof.
  destruct (NewSealer_ok _ _ Hring) as (Hro & _). destruct (ro_primary _ Hro) as [key Hpk]. rewrite Hprimary, (ro_identity _ Hro _ _ Hpk).
  apply keyIdentity_valid.
Qed.
Definition rekey_match (r : MFARekeyReplacement) (m : MFACredential) : bool :=
  (mc_ID m ==? rk_CredentialID r) && (mc_EncryptionKeyID m ==? rk_ExpectedKeyID r) && negb (ot_Valid (mc_ArchivedAt m)).
Definition rekey_row (r : MFARekeyReplacement) (m : MFACredential) : MFACredential :=
  m <| mc_EncryptedSecret := rk_EncryptedSecret r |> <| mc_EncryptionKeyID := rk_PrimaryKeyID r |>.
Lemma replace_runs r t : rk_JobID r = jobID → rk_PrimaryKeyID r = primary → ID_IsValid (rk_CredentialID r) = true →
  validMFAKeyID (rk_ExpectedKeyID r) = true → rk_ExpectedKeyID r ≠ primary → rk_EncryptedSecret r ≠ "" → len (rk_EncryptedSecret r) ≤ 4096 →
  mf_key t = mkMfaKeyState (Some primary) (Some jobID) → (affected (rekey_match r) (mf_credentials t) ≤ 1)%nat →
  ReplaceRekeyTarget healthy (Some r) t =
    (put_credentials (set_where (rekey_match r) (rekey_row r)) t, Ok (affected (rekey_match r) (mf_credentials t) =? 1)%nat).
Proof.
  intros Ej Ep Hc He Hne Hs Hl Hkey Hcount. unfold ReplaceRekeyTarget. rewrite Ej, Ep, Hjob, Hc, He, primary_valid.
  rewrite (bool_decide_false (rk_ExpectedKeyID r = primary)), (bool_decide_false (rk_EncryptedSecret r = "")) by done.
  rewrite (proj2 (Z.ltb_ge 4096 _)) by done. cbn [negb orb]. unfold executeSQLTransaction. cbn [dr_begin healthy dr_commit].
  assert (Hbody : rekey_body r t = Ok (put_credentials (set_where (rekey_match r) (rekey_row r)) t, (affected (rekey_match r) (mf_credentials t) =? 1)%nat)).
  { unfold rekey_body, requireMFARekeyFence. apply tx_bind_ok. exists t, tt. split.
    - apply refuse_if_ok. split; [|done]. rewrite Hkey, Ej, Ep. cbn. by rewrite !bool_decide_true.
    - rewrite tx_query, tx_exec, tx_fail_if, tx_ret_ok. split; [|done]. apply Nat.ltb_ge. done. }
  by rewrite Hbody.
Qed.
(** The row listed as [m0] is resealed, or has been archived since. *)
Lemma replaced t0 t k m0 document : carried t0 t → ready t0 → ready t → mf_credentials t0 !! k = Some m0 → live m0 → mc_EncryptionKeyID m0 ≠ primary →
  document ≠ "" → len document ≤ 4096 →
  (∀ m' secret, mc_UserID m' = mc_UserID m0 → mc_EncryptionKeyID m' = primary → mc_EncryptedSecret m' = document → reads m0 secret → reads m' secret) →
  ∃ t' applied, ReplaceRekeyTarget healthy (Some (mkRekeyReplacement jobID (mc_ID m0) (mc_EncryptionKeyID m0) primary document)) t = (t', Ok applied) ∧
    carried t t' ∧ ready t' ∧ k ∉ pending t'.
Proof.
  intros Hc Hr0 Hr Hk0 Hl0 Hne0 Hd Hlen Hreads. pose proof Hr as (Hinv & Hkey & _). pose proof Hr0 as (Hinv0 & _ & Hrows0).
  destruct (Hrows0 k m0 Hk0 Hl0 Hne0) as (Hid & _ & Hvk & _). destruct (mi_credential _ Hinv0 k m0 Hk0) as [Eid0 _].
  set (replacement := mkRekeyReplacement _ _ _ _ _).
  set (p := rekey_match replacement). set (f := rekey_row replacement).
  assert (Hone : ∀ k' m, mf_credentials t !! k' = Some m → p m = true → k' = k ∧ live m ∧ mc_UserID m = mc_UserID m0 ∧ mc_EncryptionKeyID m = mc_EncryptionKeyID m0 ∧
      mc_EncryptedSecret m = mc_EncryptedSecret m0).
  { intros k' m Hk' Hp. unfold p, rekey_match, replacement in Hp. cbn in Hp. rewrite !andb_true_iff, negb_true_iff, !bool_decide_eq_true in Hp. destruct Hp as [[Ei Ek] Hl].
    assert (k' = k) as -> by (rewrite <-Eid0, <-Ei; symmetry; apply (mi_credential _ Hinv k' m Hk')). destruct (carried_pending t0 t k m Hc Hk' Hl) as (m1 & Hm1 & _ & Eu & _ & Es); [congruence|].
    assert (m1 = m0) as -> by congruence. done. }
  assert (Hcount : (affected p (mf_credentials t) ≤ 1)%nat).
  { unfold affected. destruct (select p (mf_credentials t)) as [|m ms] eqn:Esel; [cbn; lia|].
    assert (Hin : m ∈ select p (mf_credentials t)) by (rewrite Esel; left). apply select_spec in Hin as (Hp & k' & Hk').
    rewrite (select_unique p _ k' m) in Esel; [injection Esel as <-; cbn; lia|done..|].
    intros k1 m1 H1 Hp1. destruct (Hone k' m Hk' Hp) as (-> & _). by apply (Hone k1 m1). }
  set (t' := put_credentials (set_where p f) t). exists t', (affected p (mf_credentials t) =? 1)%nat.
  assert (Hcar : carried t t').
  { apply carried_set; [|done]. intros k' m Hk' Hp Hl. destruct (Hone k' m Hk' Hp) as (-> & _ & Eu & Ek & Es). split; [done|]. right. split; [done|].
    intros secret Hs. apply (Hreads (f m)); [done..|]. by eapply reads_same. }
  assert (Hrun : ReplaceRekeyTarget healthy (Some replacement) t = (t', Ok (affected p (mf_credentials t) =? 1)%nat)) by (by apply replace_runs).
  assert (Hinv' : mfa_inv t').
  { destruct (step_kept t (healthy, MRekey (Some replacement)) Hinv) as (Hi & _). cbn [mfa_step granting fst snd] in Hi. by rewrite Hrun in Hi. }
  split_and!; [done..|by eapply ready_carried|]. intros (m' & Hk' & Hl & Hne)%elem_of_pending. unfold t' in Hk'. cbn in Hk'. apply lookup_set_where in Hk' as (m & Hk & ->).
  destruct (p m) eqn:Hp; [done|]. destruct (carried_pending t0 t k m Hc Hk Hl Hne) as (m1 & Hm1 & _ & _ & Ek & _). assert (m1 = m0) as -> by congruence.
  unfold p, rekey_match, replacement in Hp. cbn in Hp. unfold live in Hl. rewrite Ek, Hl, !bool_decide_true in Hp; [done|done|]. rewrite Eid0. apply (mi_credential _ Hinv k m Hk).
Qed.

(** ** A page *)

#[local] Notation left_rows := (rekey_rows primary).
Lemma left_ids afterID t : mfa_inv t → mc_ID <$> left_rows afterID t = filter (after afterID) (ordered_ids (not_sealed_with primary) (mf_credentials t)).
Proof.
  intros Hinv. unfold rekey_rows. set (ids := filter _ _). assert (Hids : Forall (λ id, ∃ m, mf_credentials t !! id = Some m ∧ mc_ID m = id) ids).
  { apply Forall_forall. intros id [_ Hid]%list_elem_of_filter. unfold ordered_ids in Hid. rewrite merge_sort_Permutation, elem_of_elements in Hid.
    apply elem_of_pending in Hid as (m & Hm & _). exists m. split; [done|]. by apply (mi_credential _ Hinv id m). }
  clearbody ids. induction Hids as [|id ids (m & Hm & Eid) _ IH]; [done|]. cbn. rewrite Hm. cbn. by rewrite Eid, IH.
Qed.
Lemma left_sorted afterID t : mfa_inv t → StronglySorted after (mc_ID <$> left_rows afterID t).
Proof.
  intros Hinv. rewrite left_ids by done. apply sorted_filter, sorted_after; [apply (StronglySorted_merge_sort string_le)|].
  unfold ordered_ids. rewrite merge_sort_Permutation. apply NoDup_elements.
Qed.
Lemma elem_of_left afterID t k : mfa_inv t → k ∈ mc_ID <$> left_rows afterID t ↔ after afterID k ∧ k ∈ pending t.
Proof. intros Hinv. rewrite left_ids, list_elem_of_filter by done. unfold ordered_ids. by rewrite merge_sort_Permutation, elem_of_elements. Qed.
Lemma left_row afterID t m : mfa_inv t → m ∈ left_rows afterID t → mf_credentials t !! mc_ID m = Some m ∧ live m ∧ mc_EncryptionKeyID m ≠ primary.
Proof.
  intros Hinv Hm. assert (Hid : mc_ID m ∈ mc_ID <$> left_rows afterID t) by (apply list_elem_of_fmap; eauto).
  apply elem_of_left in Hid as [_ (m' & Hm' & Hl & Hne)%elem_of_pending]; [|done]. unfold rekey_rows in Hm. apply list_elem_of_omap in Hm as (id & _ & Hid).
  destruct (mi_credential _ Hinv id m Hid) as [<- _]. assert (m' = m) as -> by congruence. done.
Qed.
(** The rows of [t] a page lists after [afterID], and what it leaves for later ones. *)
Record page_of (t : MfaTables) (afterID : ID) (ms : list MFACredential) (more : bool) : Prop := {
  po_length : (length ms ≤ mfaRekeyPageSize)%nat;
  po_more : more = true → ms ≠ [];
  po_rows : ∀ m, m ∈ ms → mf_credentials t !! mc_ID m = Some m ∧ live m ∧ mc_EncryptionKeyID m ≠ primary;
  po_sorted : StronglySorted after (afterID :: (mc_ID <$> ms));
  po_later : ∀ k, k ∈ pending t → k ∈ mc_ID <$> ms ∨ (more = true ∧ ∀ id, id ∈ mc_ID <$> ms → after id k) }.
Lemma page_spec t afterID : ready t → (∀ k, k ∈ pending t → after afterID k) →
  page_of t afterID (take mfaRekeyPageSize (left_rows afterID t)) (mfaRekeyPageSize <? length (left_rows afterID t))%nat.
Proof.
  intros (Hinv & _) Hafter. set (rows := left_rows afterID t). pose proof (left_sorted afterID t Hinv) as Hs. fold rows in Hs.
  rewrite <-(take_drop mfaRekeyPageSize rows), fmap_app, StronglySorted_app in Hs. destruct Hs as (Hbefore & Hs & _). split.
  - rewrite length_take. lia.
  - intros Hm. destruct rows; [done|]. done.
  - intros m Hm. apply (left_row afterID); [done|]. fold rows. rewrite <-(take_drop mfaRekeyPageSize rows). apply elem_of_app. by left.
  - constructor; [done|]. apply Forall_forall. intros k Hk. assert (k ∈ mc_ID <$> rows) by (rewrite <-(take_drop mfaRekeyPageSize rows), fmap_app; apply elem_of_app; by left).
    by apply (elem_of_left afterID t k Hinv).
  - intros k Hk. assert (Hin : k ∈ mc_ID <$> rows) by (apply elem_of_left; auto). rewrite <-(take_drop mfaRekeyPageSize rows), fmap_app in Hin.
    apply elem_of_app in Hin as [|Hin]; [by left|]. right. split; [|intros id Hid; by apply Hbefore].
    apply Nat.ltb_lt. destruct (decide (length rows ≤ mfaRekeyPageSize)%nat); [|lia]. rewrite drop_ge in Hin by done. by apply not_elem_of_nil in Hin.
Qed.
Lemma targets_ok ms : Forall resealable ms → rekey_targets ms = Ok (target_of <$> ms).
Proof.
  induction 1 as [|m ms (Hi & Hu & Hk & Hs & _) _ IH]; [done|]. cbn [rekey_targets]. apply ok_bind. exists (target_of m). split.
  - unfold rekey_target. destruct (key_id_trimmed _ Hk) as (-> & _). cbn [tg_CredentialID tg_UserID tg_KeyID tg_EncryptedSecret].
    apply ok_fail_if. split; [|done]. rewrite Hi, Hu, Hk, bool_decide_false by done. done.
  - rewrite IH. done.
Qed.
Lemma listed t afterID : ready t → afterID = "" ∨ ID_IsValid afterID = true → (∀ k, k ∈ pending t → after afterID k) →
  ∃ ms more, ListRekeyTargets healthy (mkPageRequest jobID primary afterID mfaRekeyPageSize) t = (t, Ok (mkPage (target_of <$> ms) more)) ∧
    page_of t afterID ms more.
Proof.
  intros Hr Hid Hafter. eexists _, _. split; [|by apply page_spec]. pose proof Hr as (_ & Hkey & Hrows). pose proof (page_spec t afterID Hr Hafter) as Hpage.
  unfold ListRekeyTargets. cbn [pr_JobID pr_PrimaryKeyID pr_Limit pr_AfterCredentialID]. rewrite Hjob, primary_valid.
  assert (negb (ID_IsZero afterID) && negb (ID_IsValid afterID) = false) as -> by (destruct Hid as [->| ->]; [done|by rewrite andb_false_r]).
  cbn [negb orb]. change (mfaRekeyPageSize <? 1)%nat with false. change (500 <? mfaRekeyPageSize)%nat with false. cbn [orb].
  apply runSQLTransaction_healthy. unfold page_body, requireMFARekeyFence. apply tx_bind_ok. exists t, tt. split.
  { apply refuse_if_ok. split; [|done]. rewrite Hkey. cbn. by rewrite !bool_decide_true. }
  rewrite tx_query, tx_check. cbn [pr_Limit pr_PrimaryKeyID pr_AfterCredentialID]. eexists. split.
  - rewrite take_take, Nat.min_l by lia. apply targets_ok. apply Forall_forall. intros m (Hm & Hl & Hne)%(po_rows _ _ _ _ Hpage). by apply (Hrows (mc_ID m)).
  - apply tx_ret_ok. do 2 f_equal. rewrite length_take. apply eq_iff_eq_true. rewrite !Nat.ltb_lt. lia.
Qed.

(** ** The loops *)

Context (others : Call → MfaTables → MfaTables) (nonces : Z → list Z) (save : MFARekeyCheckpoint → Z → result unit).
Context (Hothers : ∀ call t, ready t → carried t (others call t) ∧ mfa_inv (others call t)).
Context (Hnonces : ∀ n, Forall is_byte (nonces n) ∧ length (nonces n) = NonceSize) (Hsave : ∀ checkpoint total, save checkpoint total = Ok tt).
#[local] Notation rekey_page := (rekey_page sealer jobID command (λ _, healthy) others (λ n, Some (nonces n)) save).
#[local] Notation rekey_pages := (rekey_pages sealer jobID command (λ _, healthy) others (λ n, Some (nonces n)) save).

Lemma others_ready call t : ready t → carried t (others call t) ∧ ready (others call t).
Proof. intros Hr. destruct (Hothers call t Hr) as [Hc Hi]. split; [done|by eapply ready_carried]. Qed.
(** The rest [ms] of a page of [t0]: what was left is in it or for [later] pages. *)
Lemma page_runs t0 later total ms checkpoint t : ready t0 → carried t0 t → ready t →
  (∀ m, m ∈ ms → mf_credentials t0 !! mc_ID m = Some m ∧ live m ∧ mc_EncryptionKeyID m ≠ primary) →
  StronglySorted after (cp_AfterCredentialID checkpoint :: (mc_ID <$> ms)) → (∀ k, k ∈ pending t → k ∈ mc_ID <$> ms ∨ later k) →
  ∃ t' checkpoint', rekey_page (target_of <$> ms) total checkpoint t = (t', inr checkpoint') ∧ carried t t' ∧ ready t' ∧
    (∀ k, k ∈ pending t' → later k) ∧ cp_AfterCredentialID checkpoint' = default (cp_AfterCredentialID checkpoint) (last (mc_ID <$> ms)).
Proof.
  intros Hr0. revert checkpoint t. induction ms as [|m ms IH]; intros checkpoint t Hc Hr Hrows Hsorted Hleft.
  { exists t, checkpoint. split_and!; [done..| |done]. intros k Hk. destruct (Hleft k Hk) as [Hk'|]; [by apply not_elem_of_nil in Hk'|done]. }
  destruct (Hrows m (list_elem_of_here _ _)) as (Hm & Hl & Hne). pose proof (proj2 (proj2 Hr0) _ _ Hm Hl Hne) as Hres.
  destruct (Hnonces (cp_Processed checkpoint)) as [Hn Hnl]. destruct (reseal_ok m _ Hres Hn Hnl) as (document & Hseal & Hd & Hlen & Hreads).
  destruct (others_ready (CallReplace (cp_Processed checkpoint)) t Hr) as [Hc1 Hr1].
  destruct (replaced t0 (others (CallReplace (cp_Processed checkpoint)) t) (mc_ID m) m document) as (t2 & applied & Hrun & Hc2 & Hr2 & Hgone); [by trans t|done..|].
  inversion Hsorted as [|? ? Hs Hfirst]; subst. cbn [fmap list_fmap] in Hs, Hfirst. apply Forall_cons in Hfirst as [Hfirst _].
  destruct (IH (advance (target_of m) applied checkpoint) t2) as (t' & checkpoint' & Hrest & Hc' & Hr' & Hlater & Hlast); [by do 2 (etrans; [done|])|done| |done| |].
  { intros m' Hm'. apply Hrows. by right. }
  { intros k Hk. assert (Hk0 : k ∈ pending t) by (by eapply pending_carried, pending_carried). destruct (Hleft k Hk0) as [Hin|]; [|by right].
    apply elem_of_cons in Hin as [->|]; [done|by left]. }
  exists t', checkpoint'. split_and!; [|by do 2 (etrans; [done|])|done..|].
  - cbn [fmap list_fmap MfaRekey.rekey_page]. unfold unusable. cbn [target_of tg_CredentialID tg_KeyID].
    rewrite (proj1 Hres), bool_decide_true, bool_decide_false, (resealable_key m Hres) by done. cbn [negb orb].
    fold (target_of m). rewrite Hseal, Hrun, Hsave. done.
  - rewrite Hlast. cbn [fmap list_fmap]. rewrite last_cons. by destruct (last _).
Qed.
Lemma pages_run fuel total checkpoint t : ready t → (size (pending t) < fuel)%nat →
  cp_AfterCredentialID checkpoint = "" ∨ ID_IsValid (cp_AfterCredentialID checkpoint) = true → (∀ k, k ∈ pending t → after (cp_AfterCredentialID checkpoint) k) →
  ∃ t' checkpoint', rekey_pages fuel total checkpoint t = Some (t', inr checkpoint') ∧ carried t t' ∧ ready t' ∧ pending t' = ∅.
Proof.
  revert checkpoint t. induction fuel as [|fuel IH]; intros checkpoint t Hr Hfuel Hid Hafter; [lia|].
  destruct (others_ready (CallPage (cp_Processed checkpoint)) t Hr) as [Hc1 Hr1]. pose proof (pending_carried _ _ Hc1) as Hsub.
  cbn [MfaRekey.rekey_pages]. set (t1 := others (CallPage (cp_Processed checkpoint)) t) in *.
  destruct (listed t1 (cp_AfterCredentialID checkpoint) Hr1 Hid) as (ms & more & -> & Hpage); [auto|]. cbn [pg_Targets pg_More].
  rewrite length_fmap, (proj2 (Nat.ltb_ge _ _) (po_length _ _ _ _ Hpage)).
  assert (more && (length ms =? 0)%nat = false) as ->.
  { destruct more; [|done]. cbn. apply Nat.eqb_neq. intros E%nil_length_inv. by destruct (po_more _ _ _ _ Hpage). }
  destruct (page_runs t1 (λ k, more = true ∧ ∀ id, id ∈ mc_ID <$> ms → after id k) total ms checkpoint t1) as (t2 & checkpoint2 & -> & Hc2 & Hr2 & Hlater & Hlast);
    [done..|apply Hpage|apply Hpage|apply Hpage|]. cbn [orb].
  destruct more; [|exists t2, checkpoint2; split_and!; [done|by trans t1|done|]; apply set_eq; intros k; split; [by intros [? _]%Hlater|set_solver]].
  destruct (proj2 (last_is_Some (mc_ID <$> ms))) as [id Hlast_id]; [by intros E%fmap_nil_inv; destruct (po_more _ _ _ _ Hpage)|].
  rewrite Hlast_id in Hlast. cbn in Hlast. apply last_Some_elem_of in Hlast_id as Hin. pose proof Hin as (m & -> & Hm)%list_elem_of_fmap.
  destruct (po_rows _ _ _ _ Hpage m Hm) as (Hrow & Hl & Hne).
  destruct (IH checkpoint2 t2 Hr2) as (t' & checkpoint' & Hrest & Hc' & Hr' & Hempty).
  - eapply Nat.lt_le_trans; [|apply Nat.lt_succ_r, Hfuel]. apply subset_size. split; [etrans; [by apply pending_carried|done]|].
    intros Hback. assert (Hk : mc_ID m ∈ pending t2) by (apply Hback, Hsub, elem_of_pending; eauto). apply Hlater in Hk as [_ Hk]. specialize (Hk _ Hin).
    unfold after in Hk. by rewrite (proj2 (Compare_eq _ _)) in Hk.
  - right. rewrite Hlast. by apply (proj2 (proj2 Hr1) _ _ Hrow Hl Hne).
  - intros k [_ Hk]%Hlater. rewrite Hlast. by apply Hk.
  - exists t', checkpoint'. split_and!; [done| |done..]. by do 2 (etrans; [done|]).
Qed.

(** ** The proof *)

#[local] Notation retiring := (cm_RetiringKeyID command).
Context (Hretiring : retiring ≠ primary) (Hkeys : HasKey (Some sealer) retiring = true).
Lemma retiring_valid : validMFAKeyID retiring = true.
Proof. pose proof Hkeys as Hk. unfold HasKey in Hk. by apply andb_true_iff in Hk as [Hk _]. Qed.
Lemma proved t : ready t → let nonPrimary := Z.of_nat (size (pending t)) in
  ∃ references, ProveRekey jobID primary retiring t = Ok (mkRekeyProof primary retiring nonPrimary references (references =? 0)) ∧ 0 ≤ references ≤ nonPrimary.
Proof.
  intros (_ & Hkey & _). cbv zeta. exists (Z.of_nat (affected (sealed_with retiring) (mf_credentials t))). split.
  - unfold ProveRekey. apply ok_fail_if. split; [rewrite Hjob, primary_valid, retiring_valid, bool_decide_false by done; done|].
    apply ok_bind. exists (t, tt). split.
    + unfold requireMFARekeyFence. apply refuse_if_ok. split; [|done]. rewrite Hkey. cbn. by rewrite !bool_decide_true.
    + rewrite !affected_size. unfold pending. rewrite size_dom. repeat f_equal. apply eq_iff_eq_true. rewrite Nat.eqb_eq, Z.eqb_eq. lia.
  - split; [lia|]. apply inj_le. rewrite affected_size. unfold pending. rewrite size_dom. apply map_subseteq_size, map_filter_strong_subseteq_ext.
    intros k m. unfold sealed_with, not_sealed_with. cbn. rewrite !andb_true_iff, !negb_true_iff, !bool_decide_eq_true, bool_decide_eq_false. intros [[Hl ->] Hm]. done.
Qed.
Lemma proof_valid nonPrimary references : 0 ≤ references ≤ nonPrimary →
  validateMFARekeyProof (mkRekeyProof primary retiring nonPrimary references (references =? 0)) command = true.
Proof.
  intros Hn. unfold validateMFARekeyProof. cbn [rp_PrimaryKeyID rp_RetiringKeyID rp_NonPrimaryReferences rp_RetiringReferences rp_RetirementSafe].
  rewrite !bool_decide_true, Bool.eqb_reflx by done. rewrite !(proj2 (Z.ltb_ge _ _)) by lia. done.
Qed.
Lemma Run_completes document checkpoint fuel t : ready t → decodeMFARekeyCheckpoint document = Ok checkpoint →
  (∀ k, k ∈ pending t → after (cp_AfterCredentialID checkpoint) k) → Z.of_nat (size (pending t)) ≤ int64_max - cp_Processed checkpoint → (size (pending t) < fuel)%nat →
  ∃ t' result, Run sealer jobID command (λ _, healthy) others (λ n, Some (nonces n)) save fuel document t = Some (t', OutcomeSucceeded result) ∧
    rr_RetirementSafe result = true ∧ carried t t' ∧ pending t' = ∅.
Proof.
  intros Hr Hdoc Hafter Hmax Hfuel. destruct (others_ready CallInitialProof t Hr) as [Hc1 Hr1]. set (t1 := others CallInitialProof t) in *.
  pose proof (pending_carried _ _ Hc1) as Hsub. pose proof (subseteq_size _ _ Hsub) as Hsize. destruct (proved t1 Hr1) as (n & Hproof & Hn).
  destruct (pages_run fuel (cp_Processed checkpoint + Z.of_nat (size (pending t1))) checkpoint t1) as (t2 & checkpoint2 & Hpages & Hc2 & Hr2 & Hempty); [done|lia| |by auto|].
  { destruct document as [[c|]|]; cbn in Hdoc; [|done|injection Hdoc as <-; by left]. apply ok_fail_if in Hdoc as [Hv [= ->]]. right.
    rewrite !orb_false_iff in Hv. destruct_and!. by apply negb_false_iff. }
  destruct (others_ready CallProof t2 Hr2) as [Hc3 Hr3]. set (t3 := others CallProof t2) in *. destruct (proved t3 Hr3) as (n3 & Hproof3 & Hn3).
  assert (Hdone : pending t3 = ∅). { apply pending_carried in Hc3. set_solver. }
  rewrite Hdone, size_empty in Hn3, Hproof3. assert (n3 = 0) as -> by lia.
  exists t3, (mkRekeyResult primary retiring (cp_Processed checkpoint2) (cp_Resealed checkpoint2) 0 0 true).
  split_and!; [|done|by do 2 (etrans; [done|])|done]. unfold Run. destruct (key_id_trimmed _ primary_valid) as (_ & Hp & _).
  destruct (key_id_trimmed _ retiring_valid) as (_ & Hq & _). rewrite !(bool_decide_false (_ = _)) by done. rewrite Hkeys. cbn [negb orb PrimaryKeyID from_option].
  rewrite (bool_decide_true (primary = sl_primaryKeyID sealer)) by done. cbn [negb]. rewrite Hdoc. fold t1. rewrite Hproof.
  rewrite (proof_valid _ n) by done. cbn [rp_NonPrimaryReferences negb orb]. rewrite (proj2 (Z.ltb_ge _ _)) by lia.
  rewrite Hpages. fold t3. rewrite Hproof3. unfold conclude. rewrite proof_valid by lia. done.
Qed.
End rekey.

(** A secret sealed with a ring's primary is read by every ring that keeps this key. *)
Lemma primary_reads `{AEADLaws} policy policy' settings settings' ring ring' m secret : NewSealer settings = Ok ring → NewSealer settings' = Ok ring' →
  se_EncryptionKey settings ∈ se_EncryptionKey settings' :: se_DecryptionKeys settings' → se_MaximumPlaintext settings ≤ se_MaximumPlaintext settings' →
  mc_EncryptionKeyID m = sl_primaryKeyID ring → reads policy ring m secret → reads policy' ring' m secret.
Proof.
  intros Hring Hring' Hkept Hmax Hk (e & He & Hek & Ho)%(reads_ok _ _ _ Hring). apply (reads_ok _ _ _ Hring'). exists e. split_and!; [done..|].
  destruct (NewSealer_ok _ _ Hring) as (Hro & Hm & _ & Hin & key & Hkey & Hp). destruct (NewSealer_ok _ _ Hring') as (Hro' & Hm' & _ & Hin' & _).
  apply Open_ok in Ho as (Hb & Hp' & Hl & key' & nonce & Hk' & Hn & Hnl & E); [|done]. apply Open_ok; [done|]. split_and!; [done..|lia|]. exists key', nonce.
  split_and!; [|done..]. pose proof (ro_identity _ Hro _ _ Hk') as Hid. destruct (Hin' _ Hkept) as (key2 & Hkey2 & Hl2). rewrite Hkey in Hkey2. injection Hkey2 as <-.
  destruct (Hin (se_EncryptionKey settings)) as (key2 & Hkey2 & Hl3); [apply list_elem_of_here|]. rewrite Hkey in Hkey2. injection Hkey2 as <-.
  rewrite Hek, Hk, Hp in Hk' |- *. rewrite Hl3 in Hk'. injection Hk' as <-. done.
Qed.
Lemma validated_resealable `{AEAD} policy ring m secret : MFACredential_Validate m = Ok tt → reads policy ring m secret → len secret ≤ short_secret → resealable policy ring m.
Proof.
  unfold MFACredential_Validate. rewrite !ok_fail_if. intros (Hi & _ & _ & Hu & Hs & Hk & _) Hr Hl. rewrite !negb_false_iff in *.
  split_and!; [done..| |eauto]. intros E. rewrite E in Hs. done.
Qed.

(** C40. The rekey Job completes and loses no secret. From tables any history of the store reached,
    with the fence on the command's primary for this Job, where every live credential sealed with
    another key is valid and its secret, of at most 256 bytes, can be read with the Job's key ring,
    the Job, fresh or resumed from a checkpoint that no such credential precedes, runs to success
    through a healthy database, whatever enrollments, activations, challenges, resets and the like
    are committed between its statements. Then the retirement is safe, every live credential is
    sealed with the primary, and each that was there before reads as it did under any ring that
    keeps the primary key: the other keys may be dropped. *)
Theorem rekey_completes `{AEADLaws} (policy : MFAPolicy) (settings : Settings) (ring : Sealer) (jobID : ID) (command : MFARekeyCommand)
    (steps : list (driver * MfaOp)) (history : Call → list (driver * MfaOp)) (nonces : Z → list Z) (save : MFARekeyCheckpoint → Z → result unit)
    (document : option (result MFARekeyCheckpoint)) (checkpoint : MFARekeyCheckpoint) (fuel : nat)
  (t := (mfa_run steps no_mfa).1)
  (Hring : NewSealer settings = Ok ring) (Hjob : ID_IsValid jobID = true)
  (Hcommand : cm_PrimaryKeyID command = PrimaryKeyID (Some ring) ∧ cm_RetiringKeyID command ≠ cm_PrimaryKeyID command ∧
    HasKey (Some ring) (cm_RetiringKeyID command) = true)
  (Hfence : mf_key t = mkMfaKeyState (Some (cm_PrimaryKeyID command)) (Some jobID))
  (Hdocument : decodeMFARekeyCheckpoint document = Ok checkpoint)
  (Hrows : ∀ k m, mf_credentials t !! k = Some m → live m → mc_EncryptionKeyID m ≠ cm_PrimaryKeyID command →
    after (cp_AfterCredentialID checkpoint) k ∧ MFACredential_Validate m = Ok tt ∧
    ∃ secret, decrypt (mkMechanics policy (Some ring)) (mc_UserID m) m = Ok secret ∧ len secret ≤ 256)
  (Hhistory : ∀ call, Forall user_op (history call))
  (Hnonces : ∀ n, Forall is_byte (nonces n) ∧ length (nonces n) = NonceSize) (Hsave : ∀ checkpoint total, save checkpoint total = Ok tt)
  (Hcount : Z.of_nat (size (mf_credentials t)) ≤ int64_max - cp_Processed checkpoint) (Hfuel : (size (mf_credentials t) < fuel)%nat) :
  ∃ t' r, Run ring jobID command (λ _, healthy) (λ call t, (mfa_run (history call) t).1) (λ n, Some (nonces n)) save fuel document t =
      Some (t', OutcomeSucceeded r) ∧
    rr_RetirementSafe r = true ∧
    (∀ k m, mf_credentials t' !! k = Some m → live m → mc_EncryptionKeyID m = cm_PrimaryKeyID command) ∧
    ∀ k m m' secret settings' ring', mf_credentials t !! k = Some m → mf_credentials t' !! k = Some m' → live m' →
      decrypt (mkMechanics policy (Some ring)) (mc_UserID m) m = Ok secret →
      NewSealer settings' = Ok ring' → se_EncryptionKey settings ∈ se_EncryptionKey settings' :: se_DecryptionKeys settings' →
      se_MaximumPlaintext settings ≤ se_MaximumPlaintext settings' →
      mc_UserID m' = mc_UserID m ∧ decrypt (mkMechanics policy (Some ring')) (mc_UserID m') m' = Ok secret.
Proof.
  destruct Hcommand as (Hprimary & Hretiring & Hkeys). destruct (mfa_run_inv steps no_mfa no_mfa_inv) as (Hinv & _). fold t in Hinv.
  assert (Hready : ready policy ring jobID command t).
  { split_and!; [done..|]. intros k m Hk Hl Hne. destruct (Hrows k m Hk Hl Hne) as (_ & Hv & secret & Hr & Hs). by eapply validated_resealable. }
  assert (Hsize : (size (pending command t) ≤ size (mf_credentials t))%nat) by (unfold pending; rewrite size_dom; apply map_size_filter).
  destruct (Run_completes policy settings ring Hring jobID command Hprimary Hjob (λ call t, (mfa_run (history call) t).1) nonces save)
    with (document := document) (checkpoint := checkpoint) (fuel := fuel) (t := t) as (t' & r & Hrun & Hsafe & Hcar & Hnone); [|done..| |lia|lia|].
  { intros call u (Hi & Hf & _). by apply history_carried; [..|rewrite Hf]. }
  { intros k (m & Hk & Hl & Hne)%elem_of_pending. by apply (Hrows k m Hk Hl Hne). }
  assert (Hall : ∀ k m, mf_credentials t' !! k = Some m → live m → mc_EncryptionKeyID m = cm_PrimaryKeyID command).
  { intros k m Hk Hl. destruct (decide (mc_EncryptionKeyID m = cm_PrimaryKeyID command)) as [|Hne]; [done|].
    assert (Hin : k ∈ pending command t') by (apply elem_of_pending; eauto). rewrite Hnone in Hin. set_solver. }
  exists t', r. split_and!; [done..|]. intros k m m' secret settings' ring' Hm Hm' Hl' Hr Hring' Hkept Hmax.
  destruct (ca_rows _ _ _ _ _ Hcar k m' Hm' Hl') as [(m1 & Hm1 & _ & Hsame)|[Hnew _]]; [|congruence]. assert (m1 = m) as -> by congruence.
  split; [apply Hsame|]. eapply (primary_reads policy policy settings settings' ring ring'); [done..| |by eapply same_secret_reads].
  rewrite (Hall k m' Hm' Hl'). exact Hprimary.
Qed.

(** The fence moves to another primary only when no live credential needs a key but the current one. *)
Lemma promotion_proven d decoded completion inserted audit input t t' operation required :
  StartRekey d decoded completion inserted audit (Some input) t = (t', Ok operation) →
  mk_RequiredPrimaryKeyID (mf_key t) = Some required → required ≠ st_PrimaryKeyID input →
  mk_RequiredPrimaryKeyID (mf_key t') = Some (st_PrimaryKeyID input) ∧ mf_credentials t' = mf_credentials t ∧
  ∀ k m, mf_credentials t !! k = Some m → live m → mc_EncryptionKeyID m = required.
Proof.
  unfold StartRekey. destruct (st_Job input) as [job|]; [|done]. destruct (validateMFARekeyStart decoded input job); [|done].
  unfold executeSQLTransaction. destruct (dr_begin d); [done|]. destruct (start_body completion inserted audit input job t) as [[t1 op]|] eqn:E; [|done].
  cbn [commit rawSQLTransactionPolicy negb]. destruct (dr_commit d); [|done]. intros [= <- ->] Hreq Hne. unfold start_body in E.
  rewrite tx_query in E. cbv zeta in E. rewrite tx_fail_if in E. destruct E as [_ E]. apply tx_bind_ok in E as (t2 & [] & Hproof & E). rewrite Hreq, bool_decide_false in Hproof by done. cbn [negb] in Hproof.
  rewrite tx_fail_if, refuse_if_ok in Hproof. destruct Hproof as (_ & Hclean & [= ->]). apply tx_check in E as ([] & _ & E). rewrite tx_exec in E.
  apply tx_check in E as ([] & _ & E). apply tx_ret_ok in E as [= -> _]. split_and!; [done..|]. intros k m Hk Hl.
  apply negb_false_iff, Nat.eqb_eq, length_zero_iff_nil in Hclean. rewrite select_nil in Hclean. specialize (Hclean k m Hk). unfold not_sealed_with in Hclean.
  rewrite Hl in Hclean. cbn in Hclean. by apply negb_false_iff, bool_decide_eq_true in Hclean.
Qed.

(** ** Witness *)

#[local] Existing Instances tagging tagging_laws.

Definition demo_enrollment : list (driver * MfaOp) := pair healthy <$>
  [MSessions demo_sessions;
   MPending (Ok tt) (demo_clock 1200000010) demo_credential_id (Some (mkPendingEnrollment demo_principal
     (Some (mkMFACredential "" zeroTime zeroTime noTime demo_user MFAStatePending (sm_encoded demo_sealed) (sm_keyID demo_sealed) noTime noTime 0))
     (10 * Minute) (15 * Minute) demo_job)); demo_activate;
   MKey (mkMfaKeyState (Some (sl_primaryKeyID (demo_sealer demo_new_ring))) (Some demo_job))].
Definition demo_command : MFARekeyCommand :=
  mkRekeyCommand (sl_primaryKeyID (demo_sealer demo_new_ring)) (sl_primaryKeyID (demo_sealer demo_old_ring)).
(** A login between the listing of the credential and its replacement. *)
Definition demo_meanwhile (call : Call) : list (driver * MfaOp) := match call with CallReplace _ => [(healthy, demo_login 40000001 "")] | _ => [] end.
Definition demo_rows : gmap ID MFACredential := mf_credentials (mfa_run demo_enrollment no_mfa).1.
Definition demo_listed : MFACredential :=
  default (mkMFACredential "" zeroTime zeroTime noTime "" MFAStatePending "" "" noTime noTime 0) (demo_rows !! demo_credential_id).
Lemma rekey_completes_witness :
  ∃ t' r, Run (demo_sealer demo_new_ring) demo_job demo_command (λ _, healthy) (λ call t, (mfa_run (demo_meanwhile call) t).1) (λ _, Some demo_nonce)
      (λ _ _, Ok tt) 2 None (mfa_run demo_enrollment no_mfa).1 = Some (t', OutcomeSucceeded r) ∧
    rr_RetirementSafe r = true ∧ mc_EncryptionKeyID demo_listed = cm_RetiringKeyID demo_command.
Proof.
  assert (Erows : demo_rows = {[demo_credential_id := demo_listed]}) by (vm_compute; reflexivity).
  destruct (rekey_completes (mkMFAPolicy true "Proctor" (10 * Minute) 10) demo_new_ring (demo_sealer demo_new_ring) demo_job demo_command demo_enrollment
    demo_meanwhile (λ _, demo_nonce) (λ _ _, Ok tt) None (mkRekeyCheckpoint "" 0 0) 2) as (t' & r & Hrun & Hsafe & _).
  - vm_compute. reflexivity.
  - vm_compute. reflexivity.
  - split; [reflexivity|]. split; [vm_compute; discriminate|vm_compute; reflexivity].
  - vm_compute. reflexivity.
  - reflexivity.
  - intros k m Hk _ _. fold demo_rows in Hk. rewrite Erows in Hk. apply lookup_singleton_Some in Hk as [<- <-].
    split; [vm_compute; reflexivity|]. split; [vm_compute; reflexivity|]. exists rfc_secret. split; [vm_compute; reflexivity|vm_compute; discriminate].
  - intros []; repeat constructor.
  - intros n. split; [|reflexivity]. apply (bool_decide_unpack _). vm_compute. exact I.
  - reflexivity.
  - fold demo_rows. rewrite Erows. vm_compute. discriminate.
  - fold demo_rows. rewrite Erows. vm_compute. lia.
  - exists t', r. split; [exact Hrun|]. split; [exact Hsafe|vm_compute; reflexivity].
Defined.
